(* ===== verification/_CoqProject ===== *)
-Q . S2P
Prelude.v
Errno.v
Bits.v
Device.v
Block.v
Layout.v
Perms.v
Alloc.v
AllocSpec.v
Mkfs.v
Store.v
StoreSpec.v
StoreFs.v
Paths.v
PathsSpec.v
ParentPath.v
Tree.v
TreeSpec.v
CreateSpec.v
LinkSpec.v
TreeRuns.v
FileIO.v
FileSpec.v
FileCorrect.v
File.v
FdSpec.v
FileRuns.v
Dir.v
DirSpec.v
DirRuns.v
Page.v
Heap.v
HeapSpec.v
PagePools.v
Segment.v
Interrupt.v
Keyboard.v
Timer.v
Ide.v
IdeSpec.v
FsInit.v
Process.v
ProcQueue.v
Sched.v
Signal.v
Clock.v
Conv.v
Printk.v
Console.v
CString.v
UserLib.v
Elf.v
Exec.v
ExecSpec.v
Fork.v
ForkSpec.v
Boot.v
Exception.v
IoRegion.v
Dma.v
Exit.v
ExitSpec.v
DefInt.v
DefIntSpec.v
Syscall.v
SyscallSpec.v
