(* ===== verification/Prelude.v ===== *)
(** * OX: a verification development for the kernel

    OX is a small Unix-like kernel for the i386, written in C: a buffer cache
    and an inode file system over an ATA disk, a physical page allocator, two
    heaps, processes on priority queues with a round-robin scheduler, signals,
    a clock, formatted output, and the code that sets the machine up.  This
    library translates that code into executable definitions, file by file, and
    proves what makes it correct; where the code does something else than it
    means to, the theorem states what it does.  All source paths are relative
    to the root of the repository.

    ** Conventions

    A C integer is a [Z]; wrap-around is written out ([u8], [u16], [u32],
    [u64], [i8], [i32]).  Code that can fail returns an [outcome]: a value, the
    halt of the kernel by [panic], an access that C leaves undefined ([Fault]),
    or [NoFuel] when a loop has not ended within the turns the model gives it.
    Code that changes state is in the monad [st S]; each component has a record
    of its static variables.  What a function prints is left out, except in
    [Console], [Printk] and [Exception], which are about it.  Masked interrupts
    make an operation one step; the clock stands still during one call.
    Definitions keep the names of the C functions; a loop of a function is a
    fixpoint of its own.  Loops whose end is not syntactic take fuel, and a
    theorem shows how much is enough, or that it never is.

    ** Disk, buffer cache, device layer

    - [Device]: [platform/i386/drivers/src/block/pio/pioutil.c], [fs/dev.c].
      The drive is the parameter [PioDrive] with the law that what is written
      to a sector is read back.
    - [Block]: [fs/block.c], 128 buffers replaced least recently used first.
      The cache refines a plain store of blocks on every sequence of calls, as
      long as a clean buffer can be evicted ([cache_refines_store]).
    - [Bits]: [libk/bit.c], [fs/bitmap.c].
    - [Ide], [IdeSpec]: [platform/i386/drivers/src/block/ide/ide.c], which
      identifies the drives, and the size of the disk.  The fuel of a wait is
      above the patience of the controller, which its laws give.

    ** File system

    - [Layout]: [include/ox/fs/inode.h], the structures on disk as codecs with
      their round trips.
    - [Perms]: permissions and the access check of [fs/inode.c].
    - [Alloc], [AllocSpec], [Mkfs]: making, opening and allocating in
      [fs/inode.c].
    - [Store] is the interface [FsOps] between the inode tree and the layers
      below; [StoreSpec] states its laws ([StoreLaws]) with a small instance in
      memory, and [StoreFs] proves that a file system that was made and opened
      obeys them.
    - [FsInit]: [fs/init.c]: a disk without a file system gets one, through
      [Ide], [Mkfs] and [Store] together.
    - [Paths], [PathsSpec], [ParentPath]: [fs/paths.c], [fs/krealpath.c].
    - [Tree], [TreeSpec], [CreateSpec], [LinkSpec], [TreeRuns]: [inode_get],
      [inode_create], [inode_free] of [fs/inode.c] and [kreadlink] of
      [fs/link.c], against the laws of [StoreLaws]; [TreeRuns] has the concrete
      trees of the witnesses.
    - [FileIO], [FileSpec], [FileCorrect]: [file_read_write] of [fs/file.c]
      and its helpers, in terms of the contents of a file.
    - [File], [FdSpec], [FileRuns]: the calls on descriptors of [fs/file.c] and
      [klink] of [fs/link.c].
    - [Dir], [DirSpec], [DirRuns]: [fs/dir.c].

    The fuel of [Tree], [FileIO] and [Dir] bounds a chain of block maps; any
    fuel above the length of the chain is enough, and the theorems ask for that
    much.  The depth of nested links is bounded by the recursion counter of the
    code.

    ** Memory

    - [Page]: [mm/page.c].  User pages are exclusive in every history, the
      bitmap and the counters agree, [mem_init] establishes the invariants.
    - [Heap], [HeapSpec], [PagePools]: [mm/malloc.c] and [mm/kmalloc.c], one
      text over two page allocators, proved against the interface
      [PagePoolLaws].

    ** Machine

    - [Segment]: [platform/i386/arch/segment.c],
      [platform/i386/arch/protected_mode.c], [platform/i386/arch/gdt_init.c]:
      descriptors as two words, what each builder leaves, and what every
      vector of the interrupt table leads to.
    - [Interrupt]: [platform/i386/arch/interrupt.c]: the masks of the
      controllers refine a set of lines; sharing, dispatching and probing.
    - [Keyboard], [Timer], [Console]: [keyboard.c]; [pit.c] and [delay.c];
      [console.c] with [libk/printk.c], all under
      [platform/i386/drivers/src/chara].  The console refines a terminal of 25
      rows ([term]).  Calibrating the delay takes 32 rounds for the bits of the
      count, and fuel above the period of the timer for each wait.
    - [Exception]: [platform/i386/arch/exception.c], on the console beside the
      processes.
    - [DefInt], [DefIntSpec]: [kernel/def_int.c].
    - [IoRegion]: [platform/i386/arch/io_req.c].
    - [Dma]: [mm/dma.c], as the bytes written to ports.

    ** Processes

    - [Process], [ProcQueue]: [include/ox/process.h] and
      [kernel/process_queue.c]; the queues refine one FIFO per priority.
    - [Sched]: [kernel/scheduler.c].
    - [Signal]: [kernel/signal.c], [kernel/exit.c], credentials of
      [kernel/misc.c].
    - [Clock]: [kernel/mktime.c].  The tries of the clock loop are its fuel.
    - [Elf], [Exec], [ExecSpec]: [kernel/exec.c], from the file through the image
      in memory to the entry of the program.
    - [Fork], [ForkSpec]: [kernel/fork.c].  The scheduler's part of a process is
      in [kstate], the rest is a [body] at the same address.
    - [Boot]: [scheduler_init] of [kernel/scheduler.c] and the timer's handler, on
      the state of [Timer] beside that of [Fork].
    - [Exit], [ExitSpec]: freeing and [kwaitpid] of [kernel/exit.c].  The fuel of
      [kwaitpid] is the number of times the caller is switched to.
    - [Syscall], [SyscallSpec]: [kernel/syscall_tab.c] and [kernel/syscall], the
      calls on processes, memory and files together.

    ** Kernel library

    - [Conv], [Printk], [CString]: [libk/ultostr.c], [libk/strtoul.c],
      [libk/vsprintk.c], [libk/util.c], [libk/string.c].  [vsprintk] ends on
      every format with fuel one above its length.
    - [UserLib]: the parts of [libc/std] that are code: the string routines,
      which are those of the kernel, and [strerror]; and the fill helpers of
      [libk/util.c].

    ** What the theorems show

    Functional: allocation, lookup, creation, reading and writing of files and
    directories; the page and heap allocators; the scheduler, [kkill],
    [kexecve], [kfork] and [kwaitpid]; finding the drives.  Refinement: the
    buffer cache as a store of blocks, the process queues as FIFOs, the
    interrupt masks as a set of lines, the console as a terminal, the start-up
    of the file system.  Equivalence: [krealpath], [kmktime], the keyboard
    against a layout of keys.  Round trips: the structures on disk, the size of
    the disk, writing and reading through system calls.  Invariants and safety:
    exclusive pages, the state [mem_init] leaves, duplicated descriptors,
    pending deferred interrupts, what system calls leave alone, that no child is
    ever reaped, user identities.  Types: the segment descriptors.  Bounds: the
    calibration of the delay.  Termination: deferred interrupts on the way out
    of the kernel.  Liveness: the timer starts the first task.  Errors: missing
    names, exceptions.

    Components meet in five places: [Block] is used through [DeviceLaws] and
    discharges [StoreLaws] with [Alloc] ([StoreFs]); [Heap] is proved over
    [PagePoolLaws], which [PagePools] discharges with [Page]; [Elf] and [Fork]
    reach memory through [HeapOps]; [FsInit] joins the driver to the file
    system; [Syscall] and [Boot] join processes, memory, files and the timer.

    ** Not modelled

    Assembly (the transfer loops of the drive, the task switch, the entry points
    of interrupts, exceptions and system calls): what such a routine or a device
    answers is a parameter of the definitions that use it, and a law stated of
    it has an instance in the same library.  [kernel/ox_main.c] and
    [platform/i386/arch/main.c], which call the initialisation of each part in
    turn and run tests by hand; [panic], which is the outcome [Panic]; the busy
    wait [local_sleep], whose only effect is time; the stubs of the user library,
    one trap instruction each; [serial.c] and [tty_io.c], which hold no code; the
    boot sector and the host tools that build the image; test programs; and
    [file_add_blocks] of [fs/file.c], which nothing calls.
*)

From stdpp Require Export base tactics numbers list gmap.
From Stdlib Require Export ZArith Lia.
From Stdlib Require String Ascii.

#[global] Open Scope Z_scope.

(** ** Machine integers

    A C integer is a [Z].  The unsigned types are the residues modulo a power
    of two; a signed type is the two's complement reading of that residue. *)

Definition uwrap (w z : Z) : Z := z mod 2 ^ w.
Definition swrap (w z : Z) : Z := (z + 2 ^ (w - 1)) mod 2 ^ w - 2 ^ (w - 1).

Abbreviation u8 := (uwrap 8).
Abbreviation u16 := (uwrap 16).
Abbreviation u32 := (uwrap 32).
Abbreviation u64 := (uwrap 64).
Abbreviation i8 := (swrap 8).
Abbreviation i32 := (swrap 32).

Lemma uwrap_range w z : 0 <= w -> 0 <= uwrap w z < 2 ^ w.
Proof. intros Hw. apply Z.mod_pos_bound. lia. Qed.

Lemma uwrap_small w z : 0 <= z < 2 ^ w -> uwrap w z = z.
Proof. apply Z.mod_small. Qed.

Lemma uwrap_idemp w z : uwrap w (uwrap w z) = uwrap w z.
Proof. apply Zmod_mod. Qed.

Lemma swrap_small w z : 0 < w -> - 2 ^ (w - 1) <= z < 2 ^ (w - 1) -> swrap w z = z.
Proof.
  intros Hw Hz. unfold swrap.
  assert (2 ^ w = 2 * 2 ^ (w - 1)) as E.
  { rewrite <- Z.pow_succ_r by lia. f_equal. lia. }
  rewrite Z.mod_small; lia.
Qed.

Lemma swrap_range w z : 0 < w -> - 2 ^ (w - 1) <= swrap w z < 2 ^ (w - 1).
Proof.
  intros Hw. unfold swrap.
  assert (2 ^ w = 2 * 2 ^ (w - 1)) as E.
  { rewrite <- Z.pow_succ_r by lia. f_equal. lia. }
  pose proof (Z.mod_pos_bound (z + 2 ^ (w - 1)) (2 ^ w)). lia.
Qed.

(** Concrete powers of two are folded away before [lia] sees the goal. *)
Ltac pow2 :=
  change (2 ^ 8) with 256 in *; change (2 ^ 16) with 65536 in *;
  change (2 ^ 32) with 4294967296 in *; change (2 ^ 31) with 2147483648 in *;
  change (2 ^ 7) with 128 in *;
  change (8 - 1) with 7 in *; change (32 - 1) with 31 in *.

Lemma u32_small z : 0 <= z < 4294967296 -> u32 z = z.
Proof. apply (uwrap_small 32). Qed.

Lemma u32_range z : 0 <= u32 z < 4294967296.
Proof. apply (uwrap_range 32). lia. Qed.

Lemma u8_small z : 0 <= z < 256 -> u8 z = z.
Proof. apply (uwrap_small 8). Qed.

Lemma u8_range z : 0 <= u8 z < 256.
Proof. apply (uwrap_range 8). lia. Qed.

Lemma i32_small z : -2147483648 <= z < 2147483648 -> i32 z = z.
Proof. apply (swrap_small 32). lia. Qed.

(** Wrapped sums whose terms are in range, the innermost first. *)
Ltac unwrap_i32 :=
  repeat match goal with
  | |- context [swrap 32 ?z] =>
      lazymatch z with context [swrap 32 _] => fail | _ => rewrite (i32_small z) by lia end
  end.

(** ** Outcomes

    What running a piece of kernel code can do: finish with a value, call
    [panic] (which never returns), perform an access C leaves undefined, or
    exhaust the fuel the model gives a loop whose bound is not syntactic. *)

Inductive outcome (A : Type) : Type :=
| Ret (a : A)
| Panic
| Fault
| NoFuel.
Arguments Ret {A} a.
Arguments Panic {A}.
Arguments Fault {A}.
Arguments NoFuel {A}.

#[export] Instance outcome_ret : MRet outcome := @Ret.
#[export] Instance outcome_bind : MBind outcome := fun A B k m =>
  match m with Ret a => k a | Panic => Panic | Fault => Fault | NoFuel => NoFuel end.

(** Code that threads a state. *)
Definition st (S A : Type) : Type := S -> outcome (A * S).

#[export] Instance st_ret S : MRet (st S) := fun A a s => Ret (a, s).
#[export] Instance st_bind S : MBind (st S) := fun A B k m s =>
  match m s with
  | Ret (a, s') => k a s'
  | Panic => Panic | Fault => Fault | NoFuel => NoFuel
  end.

Definition get {S} : st S S := fun s => Ret (s, s).
Definition put {S} (s : S) : st S unit := fun _ => Ret (tt, s).
Definition gets {S A} (f : S -> A) : st S A := fun s => Ret (f s, s).
Definition modify {S} (f : S -> S) : st S unit := fun s => Ret (tt, f s).
Definition panic {S A} : st S A := fun _ => Panic.
Definition fault {S A} : st S A := fun _ => Fault.
(** A read through a possibly invalid index: undefined when it is invalid. *)
Definition checked {S A} (o : option A) : st S A := fun s =>
  match o with Some a => Ret (a, s) | None => Fault end.

(** The state a run ends in (the initial one if it does not finish). *)
Definition final_state {S A} (m : st S A) (s : S) : S :=
  match m s with Ret (_, s') => s' | _ => s end.

(** A stateless computation run inside a stateful one. *)
Definition lift {S A} (o : outcome A) : st S A := fun s =>
  match o with Ret a => Ret (a, s) | Panic => Panic | Fault => Fault | NoFuel => NoFuel end.

(** The value a run returns ([d] if it does not finish). *)
Definition result {A} (d : A) (o : outcome A) : A :=
  match o with Ret a => a | _ => d end.

(** Computations that go on alike. *)
Lemma st_bind_ext {S A B} (m : st S A) (k k' : A -> st S B) s :
  (forall a s, k a s = k' a s) -> (m ≫= k) s = (m ≫= k') s.
Proof. intros H. unfold mbind, st_bind. by destruct (m s) as [[a s']| | |]. Qed.

(** ** Bits of machine integers *)

Lemma swrap_mod w z : 0 <= w -> swrap w z mod 2 ^ w = z mod 2 ^ w.
Proof.
  intros Hw. unfold swrap. rewrite Zminus_mod_idemp_l. f_equal. lia.
Qed.

Lemma uwrap_testbit w z i : 0 <= i < w -> Z.testbit (uwrap w z) i = Z.testbit z i.
Proof. intros Hi. apply Z.mod_pow2_bits_low. lia. Qed.

Lemma uwrap_testbit_high w z i : 0 <= w <= i -> Z.testbit (uwrap w z) i = false.
Proof. intros Hi. apply Z.mod_pow2_bits_high. lia. Qed.

Lemma swrap_testbit w z i : 0 <= i < w -> Z.testbit (swrap w z) i = Z.testbit z i.
Proof.
  intros Hi. rewrite <- (uwrap_testbit w (swrap w z)), <- (uwrap_testbit w z) by lia.
  unfold uwrap. by rewrite swrap_mod by lia.
Qed.

Lemma shiftl1_testbit b i : 0 <= b -> 0 <= i -> Z.testbit (Z.shiftl 1 b) i = (i =? b).
Proof.
  intros Hb Hi. rewrite Z.shiftl_1_l, Z.pow2_bits_eqb by lia. apply Z.eqb_sym.
Qed.

Lemma ones_lnot n : 0 <= n -> Z.lnot (Z.shiftl (-1) n) = Z.ones n.
Proof.
  intros Hn. rewrite Z.shiftl_mul_pow2 by lia. unfold Z.lnot. rewrite Z.ones_equiv. lia.
Qed.

(** A test of one bit, as C code writes it. *)
Lemma land_bit c b : 0 <= b -> Z.land c (Z.shiftl 1 b) = if Z.testbit c b then 2 ^ b else 0.
Proof.
  intros Hb. apply Z.bits_inj'. intros i Hi. rewrite Z.land_spec, shiftl1_testbit by lia.
  destruct (Z.eqb_spec i b) as [-> | Hne].
  - rewrite andb_true_r. destruct (Z.testbit c b); [|by rewrite Z.bits_0].
    by rewrite Z.pow2_bits_true.
  - rewrite andb_false_r. destruct (Z.testbit c b); [|by rewrite Z.bits_0].
    rewrite Z.pow2_bits_false by lia. done.
Qed.

Lemma eq_bits w a b :
  0 <= w -> 0 <= a < 2 ^ w -> 0 <= b < 2 ^ w ->
  (forall i, 0 <= i < w -> Z.testbit a i = Z.testbit b i) -> a = b.
Proof.
  intros Hw Ha Hb H. rewrite <- (Z.mod_small a (2 ^ w)), <- (Z.mod_small b (2 ^ w)) by lia.
  apply Z.bits_inj'. intros i Hi. destruct (Z.lt_ge_cases i w).
  - rewrite !Z.mod_pow2_bits_low by lia. apply H. lia.
  - rewrite !Z.mod_pow2_bits_high by lia. done.
Qed.

(** Adding a value below an alignment is an [or]. *)
Lemma lor_aligned k a b :
  0 <= k -> a mod 2 ^ k = 0 -> 0 <= b < 2 ^ k -> Z.lor b a = a + b.
Proof.
  intros Hk Ha Hb.
  assert (Z.land b a = 0) as E.
  { apply Z.bits_inj'. intros i Hi. rewrite Z.land_spec, Z.bits_0.
    destruct (Z.lt_ge_cases i k).
    - replace (Z.testbit a i) with false; [apply andb_false_r|].
      rewrite <- (Z.mod_pow2_bits_low a k i) by lia. by rewrite Ha, Z.bits_0.
    - replace (Z.testbit b i) with false; [done|].
      rewrite <- (Z.mod_small b (2 ^ k)), Z.mod_pow2_bits_high by lia. done. }
  pose proof (Z.add_lor_land b a). lia.
Qed.

(** Masking off, and keeping, the bits below an alignment. *)
Lemma land_low k a : 0 <= k -> Z.land a (Z.ones k) = a mod 2 ^ k.
Proof. intros. by apply Z.land_ones. Qed.

Lemma land_high k w a :
  0 <= k <= w -> 0 <= a < 2 ^ w -> Z.land a (2 ^ w - 2 ^ k) = a - a mod 2 ^ k.
Proof.
  intros Hk Ha.
  assert (2 ^ w - 2 ^ k = Z.shiftl (Z.ones (w - k)) k) as ->.
  { rewrite Z.shiftl_mul_pow2, Z.ones_equiv by lia.
    replace (2 ^ w) with (2 ^ (w - k) * 2 ^ k) by (rewrite <- Z.pow_add_r by lia; f_equal; lia). lia. }
  assert (a - a mod 2 ^ k = Z.shiftl (a / 2 ^ k) k) as ->.
  { rewrite Z.shiftl_mul_pow2 by lia. pose proof (Z.div_mod a (2 ^ k)).
    assert (2 ^ k <> 0) by (apply Z.pow_nonzero; lia). lia. }
  rewrite <- Z.shiftr_div_pow2 by lia. apply Z.bits_inj'. intros i Hi.
  rewrite Z.land_spec, !Z.shiftl_spec by lia. destruct (Z.lt_ge_cases i k).
  { rewrite !(Z.testbit_neg_r _ (i - k)) by lia. apply andb_false_r. }
  rewrite Z.testbit_ones_nonneg, Z.shiftr_spec by lia. replace (i - k + k) with i by lia.
  destruct (Z.ltb_spec (i - k) (w - k)); [by rewrite andb_true_r|].
  rewrite andb_false_r, <- (Z.mod_small a (2 ^ w)), Z.mod_pow2_bits_high by lia. done.
Qed.

Lemma land_range a b : 0 <= a -> 0 <= Z.land a b <= a.
Proof.
  intros Ha. split; [apply Z.land_nonneg; lia|].
  assert (Z.ldiff (Z.land a b) a = 0) as E.
  { apply Z.bits_inj'. intros i Hi. rewrite Z.ldiff_spec, Z.land_spec, Z.bits_0.
    by destruct (Z.testbit a i), (Z.testbit b i). }
  pose proof (Z.sub_nocarry_ldiff a (Z.land a b) E) as Es.
  assert (0 <= Z.ldiff a (Z.land a b)) by (apply Z.ldiff_nonneg; lia). lia.
Qed.

(** The characters of a string literal. *)
Definition literal (s : String.string) : list Z := map (fun c => Z.of_N (Ascii.N_of_ascii c)) (String.list_ascii_of_string s).
Arguments literal s%_string_scope.

(** ** Automation *)

(** The side conditions of wrap-around arithmetic and the facts on machine
    integers that close them. *)
Create HintDb ox.
Create Rewrite HintDb zbits.
#[export] Hint Resolve u8_range u32_range : ox.
#[export] Hint Rewrite Z.lor_spec Z.land_spec Z.lxor_spec Z.bits_0 : zbits.

(** Compare two integers bit by bit. *)
Ltac by_bits w i Hi :=
  apply (eq_bits w); [lia | | | intros i Hi; autorewrite with zbits].

(** Split every boolean comparison of integers in the goal. *)
Ltac zcases :=
  repeat match goal with
  | |- context [Z.eqb ?a ?b] => destruct (Z.eqb_spec a b)
  | |- context [Z.ltb ?a ?b] => destruct (Z.ltb_spec a b)
  | |- context [Z.leb ?a ?b] => destruct (Z.leb_spec a b)
  end.

(** One step of a monadic program. *)
Ltac unfold_st := unfold mbind, st_bind, mret, st_ret.
