(* ===== verification/Bits.v ===== *)
(** * Bit fields and bitmaps

    [libk/bit.c] (bit fields of an [unsigned]) and [fs/bitmap.c] (the bitmaps of
    the file system, an array of [char] addressed by bit number).  A cell of
    memory is its byte, an integer from 0 to 255; loading it as a [char] sign
    extends it. *)

From S2P Require Import Prelude.

(** ** libk/bit.c *)

(** [~(~0 << n)] *)
Definition low_ones (n : Z) : Z := u32 (Z.lnot (i32 (Z.shiftl (-1) n))).

Definition getBits (x p n : Z) : Z := Z.land (Z.shiftr x (p + 1 - n)) (low_ones n).

Definition setBits (x p n y : Z) : Z :=
  Z.lor (Z.land x (u32 (Z.lnot (i32 (Z.shiftl (Z.lnot (i32 (Z.shiftl (-1) n))) (p + 1 - n))))))
        (u32 (Z.shiftl (Z.land y (low_ones n)) (p + 1 - n))).

(** The value stored through the pointer; [unsigned long] is 32 bits wide. *)
Definition setBits_p (x p n y : Z) : Z :=
  Z.lor (Z.land x (u32 (Z.lnot (i32 (Z.shiftl (Z.lnot (i32 (Z.shiftl (-1) n))) (p + 1 - n))))))
        (u32 (Z.shiftl (Z.land y (low_ones n)) (p + 1 - n))).

(** A field of [n] bits whose highest bit is [p]. *)
Definition field_ok (p n : Z) : Prop := 0 <= n < 32 /\ n <= p + 1 <= 32.

Lemma shl_ones_small n : 0 <= n < 32 -> i32 (Z.shiftl (-1) n) = Z.shiftl (-1) n.
Proof.
  intros Hn. apply i32_small. rewrite Z.shiftl_mul_pow2 by lia.
  assert (2 ^ n <= 2 ^ 31) by (apply Z.pow_le_mono_r; lia).
  assert (0 < 2 ^ n) by (apply Z.pow_pos_nonneg; lia). pow2. lia.
Qed.

Lemma ones_range n : 0 <= n < 32 -> 0 <= Z.ones n < 2147483648.
Proof.
  intros Hn. rewrite Z.ones_equiv.
  assert (2 ^ n <= 2 ^ 31) by (apply Z.pow_le_mono_r; lia).
  assert (0 < 2 ^ n) by (apply Z.pow_pos_nonneg; lia). pow2. lia.
Qed.

Lemma low_ones_spec n : 0 <= n < 32 -> low_ones n = Z.ones n.
Proof.
  intros Hn. unfold low_ones. rewrite shl_ones_small, ones_lnot by lia.
  apply u32_small. pose proof (ones_range n Hn). lia.
Qed.

Lemma getBits_bits x p n i :
  field_ok p n -> 0 <= i ->
  Z.testbit (getBits x p n) i = (i <? n) && Z.testbit x (i + (p + 1 - n)).
Proof.
  intros [Hn Hp] Hi. unfold getBits. rewrite low_ones_spec by lia.
  rewrite Z.land_spec, Z.shiftr_spec, Z.testbit_ones_nonneg by lia. apply andb_comm.
Qed.

Lemma setBits_bits x p n y i :
  field_ok p n -> 0 <= i < 32 ->
  Z.testbit (setBits x p n y) i =
    if (p + 1 - n <=? i) && (i <? p + 1) then Z.testbit y (i - (p + 1 - n)) else Z.testbit x i.
Proof.
  intros [Hn Hp] Hi. unfold setBits. rewrite low_ones_spec, shl_ones_small, ones_lnot by lia.
  rewrite Z.lor_spec, Z.land_spec, !uwrap_testbit, Z.lnot_spec, swrap_testbit by lia.
  rewrite !Z.shiftl_spec, Z.land_spec by lia.
  destruct (Z.leb_spec (p + 1 - n) i).
  - rewrite !Z.testbit_ones_nonneg by lia.
    replace (i - (p + 1 - n) <? n) with (i <? p + 1) by (apply eq_true_iff_eq; lia).
    destruct (i <? p + 1), (Z.testbit x i), (Z.testbit y (i - (p + 1 - n))); done.
  - rewrite !(Z.testbit_neg_r _ (i - _)) by lia. simpl. by rewrite andb_true_r, orb_false_r.
Qed.

Lemma setBits_range x p n y : 0 <= x < 4294967296 -> 0 <= setBits x p n y < 4294967296.
Proof.
  intros Hx. unfold setBits. set (a := u32 (Z.lnot _)). set (b := u32 (Z.shiftl _ _)).
  pose proof (u32_range (Z.shiftl (Z.land y (low_ones n)) (p + 1 - n))) as Hb. fold b in Hb.
  assert (0 <= Z.lor (Z.land x a) b) as H0.
  { apply Z.lor_nonneg. split; [apply Z.land_nonneg|]; lia. }
  split; [done|]. apply (Z.log2_lt_cancel _ 4294967296).
  rewrite Z.log2_lor by (try apply Z.land_nonneg; lia).
  change (Z.log2 4294967296) with 32. apply Z.max_lub_lt.
  - apply Z.le_lt_trans with (Z.log2 x).
    + pose proof (Z.log2_land x a). pose proof (u32_range (Z.lnot (i32 (Z.shiftl (Z.lnot (i32 (Z.shiftl (-1) n))) (p + 1 - n))))). lia.
    + destruct (decide (x = 0)) as [-> | ]; [done|]. apply Z.log2_lt_pow2; [lia|]. pow2. lia.
  - destruct (decide (b = 0)) as [-> | ]; [done|]. apply Z.log2_lt_pow2; [lia|]. pow2. lia.
Qed.

(** Reading a field just written gives the low bits of the value, and any
    field that does not overlap it reads as before. *)
Theorem getBits_setBits x y p n p' n' :
  0 <= x < 4294967296 -> 0 <= y < 4294967296 -> field_ok p n -> field_ok p' n' ->
  getBits (setBits x p n y) p n = y mod 2 ^ n /\
  (p' < p + 1 - n \/ p < p' + 1 - n' -> getBits (setBits x p n y) p' n' = getBits x p' n').
Proof.
  intros Hx Hy Hf Hf'. split.
  - rewrite <- Z.land_ones by apply Hf. apply Z.bits_inj'. intros i Hi.
    rewrite getBits_bits, Z.land_spec, Z.testbit_ones_nonneg by (try apply Hf; done).
    destruct Hf as [Hn Hp]. destruct (Z.ltb_spec i n); [|by rewrite andb_false_r].
    rewrite setBits_bits by (done || lia). simpl. rewrite andb_true_r.
    rewrite (proj2 (Z.leb_le _ _)), (proj2 (Z.ltb_lt _ _)) by lia. simpl. f_equal. lia.
  - intros Hd. apply Z.bits_inj'. intros i Hi. rewrite !getBits_bits by done.
    destruct Hf as [Hn Hp], Hf' as [Hn' Hp']. destruct (Z.ltb_spec i n'); [|done]. simpl.
    rewrite setBits_bits by (done || lia).
    destruct (Z.leb_spec (p + 1 - n) (i + (p' + 1 - n'))),
      (Z.ltb_spec (i + (p' + 1 - n')) (p + 1)); simpl; done || lia.
Qed.

Lemma getBits_setBits_witness :
  getBits (setBits 305419896 15 8 171) 15 8 = 171 mod 2 ^ 8 /\
  getBits (setBits 305419896 15 8 171) 7 8 = getBits 305419896 7 8.
Proof.
  destruct (getBits_setBits 305419896 171 15 8 7 8) as [E1 E2]; [lia|lia|split; lia|split; lia|].
  split; [exact E1 | apply E2; lia].
Defined.

(** ** fs/bitmap.c *)

(** C division truncates. *)
Definition bit_get (data : list Z) (bit : Z) : outcome Z :=
  let pos := bit ÷ 8 in
  let b := Z.rem bit 8 in
  if (0 <=? pos) && (0 <=? b) then
    match data !! Z.to_nat pos with
    | Some c => Ret (if Z.land (i8 c) (Z.shiftl 1 b) =? 0 then 0 else 1)
    | None => Fault
    end
  else Fault.

Definition bit_set (data : list Z) (bit value : Z) : outcome (list Z) :=
  let pos := bit ÷ 8 in
  let b := Z.rem bit 8 in
  if value =? 0 then
    if (0 <=? pos) && (0 <=? b) then
      match data !! Z.to_nat pos with
      | Some c => Ret (<[Z.to_nat pos := u8 (Z.land (i8 c) (Z.lnot (Z.shiftl 1 b)))]> data)
      | None => Fault
      end
    else Fault
  else if value =? 1 then
    if (0 <=? pos) && (0 <=? b) then
      match data !! Z.to_nat pos with
      | Some c => Ret (<[Z.to_nat pos := u8 (Z.lor (i8 c) (Z.shiftl 1 b))]> data)
      | None => Fault
      end
    else Fault
  else Ret data.

(** The bit of a bitmap, as a boolean. *)
Definition bit_of (data : list Z) (bit : Z) : bool :=
  match data !! Z.to_nat (bit / 8) with
  | Some c => Z.testbit c (bit mod 8)
  | None => false
  end.

Definition bit_in (data : list Z) (bit : Z) : Prop := 0 <= bit < 8 * Z.of_nat (length data).

Lemma bit_pos data bit :
  bit_in data bit ->
  bit ÷ 8 = bit / 8 /\ Z.rem bit 8 = bit mod 8 /\ 0 <= bit / 8 /\ 0 <= bit mod 8 < 8 /\
  is_Some (data !! Z.to_nat (bit / 8)).
Proof.
  intros [H0 H1]. pose proof (Z.mod_pos_bound bit 8).
  assert (0 <= bit / 8) by (apply Z.div_pos; lia).
  assert (bit / 8 < Z.of_nat (length data)) by (apply Z.div_lt_upper_bound; lia).
  rewrite Z.quot_div_nonneg, Z.rem_mod_nonneg by lia.
  repeat split; try lia. apply lookup_lt_is_Some. lia.
Qed.

Lemma bit_get_spec data bit :
  bit_in data bit -> bit_get data bit = Ret (Z.b2z (bit_of data bit)).
Proof.
  intros Hb. destruct (bit_pos _ _ Hb) as (E1 & E2 & H1 & H2 & [c Hc]).
  unfold bit_get, bit_of. rewrite E1, E2, Hc, land_bit, swrap_testbit by lia.
  rewrite !(proj2 (Z.leb_le _ _)) by lia. simpl.
  destruct (Z.testbit c (bit mod 8)); [|done].
  destruct (Z.eqb_spec (2 ^ (bit mod 8)) 0); [|done].
  pose proof (Z.pow_pos_nonneg 2 (bit mod 8)). lia.
Qed.

Lemma bit_of_insert data bit c bit' :
  bit_in data bit -> 0 <= bit' ->
  bit_of (<[Z.to_nat (bit / 8) := c]> data) bit' =
    if bit' / 8 =? bit / 8 then Z.testbit c (bit' mod 8) else bit_of data bit'.
Proof.
  intros Hb Hb'. destruct (bit_pos _ _ Hb) as (_ & _ & H1 & _ & [x Hx]). unfold bit_of.
  assert (0 <= bit' / 8) by (apply Z.div_pos; lia).
  destruct (Z.eqb_spec (bit' / 8) (bit / 8)) as [-> | Hne].
  - by rewrite list_lookup_insert_eq by (by eapply lookup_lt_Some).
  - by rewrite list_lookup_insert_ne by lia.
Qed.

Lemma same_bit a b : (a / 8 = b / 8 -> a mod 8 = b mod 8 -> a = b).
Proof. intros. rewrite (Z.div_mod a 8), (Z.div_mod b 8) by lia. lia. Qed.

Lemma bit_set_spec data bit v :
  bit_in data bit -> v = 0 \/ v = 1 ->
  exists data', bit_set data bit v = Ret data' /\ length data' = length data /\
    forall bit', 0 <= bit' ->
      bit_of data' bit' = if bit' =? bit then v =? 1 else bit_of data bit'.
Proof.
  intros Hb Hv. destruct (bit_pos _ _ Hb) as (E1 & E2 & H1 & H2 & [c Hc]).
  unfold bit_set. rewrite E1, E2, Hc, !(proj2 (Z.leb_le _ _)) by lia. cbn [andb].
  destruct Hv as [-> | ->]; cbn [Z.eqb]; eexists; (split; [reflexivity|]);
    (split; [apply length_insert|]); intros bit' Hb'; rewrite bit_of_insert by done;
    pose proof (Z.mod_pos_bound bit' 8); unfold bit_of.
  all: destruct (Z.eqb_spec bit' bit) as [-> | Hne]; [rewrite Z.eqb_refl|].
  all: try (destruct (Z.eqb_spec (bit' / 8) (bit / 8)) as [E | E]; [|done]; rewrite E, Hc).
  all: rewrite uwrap_testbit by lia; autorewrite with zbits.
  all: rewrite ?Z.lnot_spec, shiftl1_testbit, swrap_testbit by lia.
  - rewrite Z.eqb_refl. simpl. by rewrite andb_false_r.
  - destruct (Z.eqb_spec (bit' mod 8) (bit mod 8)); [by destruct Hne; apply same_bit|].
    simpl. by rewrite andb_true_r.
  - rewrite Z.eqb_refl. by rewrite orb_true_r.
  - destruct (Z.eqb_spec (bit' mod 8) (bit mod 8)); [by destruct Hne; apply same_bit|].
    by rewrite orb_false_r.
Qed.

(** The bitmap is an array of booleans: after [bit_set] the bit set reads
    as the value, every other bit of the bitmap as before, and the bitmap keeps
    its size. *)
Theorem bit_get_set data bit v bit' :
  bit_in data bit -> bit_in data bit' -> v = 0 \/ v = 1 ->
  exists data', bit_set data bit v = Ret data' /\ length data' = length data /\
    bit_get data' bit' = if bit' =? bit then Ret v else bit_get data bit'.
Proof.
  intros Hb Hb' Hv. destruct (bit_set_spec data bit v Hb Hv) as (data' & E & Hl & H).
  exists data'. split; [done|]. split; [done|]. unfold bit_in in *.
  rewrite !bit_get_spec by (unfold bit_in; rewrite ?Hl; lia). rewrite H by lia.
  destruct (bit' =? bit); [|done]. by destruct Hv as [-> | ->].
Qed.

Lemma bit_get_set_witness :
  exists data', bit_set [0; 255; 0; 0] 9 0 = Ret data' /\ length data' = 4%nat /\
    bit_get data' 10 = bit_get [0; 255; 0; 0] 10.
Proof.
  destruct (bit_get_set [0; 255; 0; 0] 9 0 10) as (data' & E1 & E2 & E3);
    [unfold bit_in; simpl; lia..|auto|].
  exists data'. split; [exact E1|]. split; [exact E2 | exact E3].
Defined.
