(* ===== verification/Device.v ===== *)
(** * Disk addressing and the device layer

    [platform/i386/drivers/src/block/pio/pioutil.c] (translation of a linear
    block address to cylinder, head and sector, and the two transfer routines)
    and [fs/dev.c] (the device calls of the file system, in their kernel
    variant).  The drive itself, reached through the assembly routines
    [pio_read] and [pio_write], is the parameter [PioDrive]. *)

From S2P Require Import Prelude.

Definition DEV_BLOCK_SIZE : Z := 512.
Definition DEV_NODEV : Z := -1.

Inductive dev_rtvl : Type := DEV_OK | DEV_FAIL | DEV_PARAM.

#[export] Instance dev_rtvl_eq_dec : EqDecision dev_rtvl.
Proof. solve_decision. Defined.

(** ** Cylinder, head, sector *)

Definition HPC : Z := 16.
Definition SPT : Z := 63.

Record chs := CHS { head : Z; sector : Z; cyl1 : Z; cyl2 : Z }.

Definition get_chs (lba : Z) : chs :=
  let cylinder := u16 (lba / (SPT * HPC)) in
  {| head := u8 ((lba / SPT) mod HPC);
     sector := u8 (lba mod SPT + 1);
     cyl1 := u8 (Z.land cylinder 0xFF);
     cyl2 := u8 (Z.shiftr cylinder 8) |}.

Definition get_lba (head sector cyl1 cyl2 : Z) : Z :=
  let cylinder := u16 (Z.lor (Z.shiftl cyl2 8) cyl1) in
  u32 (((cylinder * HPC) + head) * SPT + sector - 1).

Definition get_drive_head (drive head : Z) : Z :=
  let val := 160 in
  let val := u8 (Z.lor val (Z.shiftl (Z.land drive 1) 4)) in
  u8 (Z.lor val (Z.land head 0xF)).

(** ** The drive

    [pio_read] and [pio_write] are assembly routines that talk to the
    controller.  The first gives [None] when it reports an error (return
    value 1), otherwise the 512 bytes transferred; the second the drive after
    the transfer. *)

Class PioDrive (D : Type) := {
  pio_read : D -> Z -> Z -> Z -> Z -> option (list Z);
  pio_write : D -> Z -> Z -> Z -> Z -> list Z -> option D
}.

Section Ata.
Context {D : Type} `{PioDrive D}.

(** The transfers: a failure of the controller panics, so the [-1] that
    follows [panic] is never returned. *)
Definition ata_read (d : D) (drive lba : Z) : outcome (Z * list Z) :=
  let a := get_chs lba in
  let drive_head := get_drive_head drive (head a) in
  match pio_read d drive_head (sector a) (cyl1 a) (cyl2 a) with
  | None => Panic
  | Some buffer => Ret (0, buffer)
  end.

Definition ata_write (d : D) (drive lba : Z) (buffer : list Z) : outcome (Z * D) :=
  let a := get_chs lba in
  let drive_head := get_drive_head drive (head a) in
  match pio_write d drive_head (sector a) (cyl1 a) (cyl2 a) buffer with
  | None => Panic
  | Some d' => Ret (0, d')
  end.

(** The device calls.  [ata_read] takes an [unsigned char] drive and an
    [unsigned int] address. *)
Definition dev_read (d : D) (dev block : Z) : outcome (dev_rtvl * list Z) :=
  '(r, data) ← ata_read d (u8 dev) (u32 block);
  mret (if r =? 0 then DEV_OK else DEV_FAIL, data).

Definition dev_write (d : D) (dev block : Z) (data : list Z) : outcome (dev_rtvl * D) :=
  '(r, d') ← ata_write d (u8 dev) (u32 block) data;
  mret (if r =? 0 then DEV_OK else DEV_FAIL, d').

Definition dev_scan (dev block : Z) : dev_rtvl := DEV_OK.

Definition dev_close (dev : Z) : dev_rtvl := DEV_OK.

(** [cmos] is the byte the controller's CMOS read returns. *)
Definition ata_nr_drives (cmos : Z) : Z :=
  let disks := cmos in
  if bool_decide (Z.land disks 0xF0 ≠ 0) then
    if bool_decide (Z.land disks 0x0F ≠ 0) then 2 else 1
  else 0.

(** [dev] is the value of [*dev] before the call: without a drive it is
    left as it was. *)
Definition dev_open (cmos dev : Z) : dev_rtvl * Z :=
  (DEV_OK, if 0 <? ata_nr_drives cmos then 0 else dev).
End Ata.

(** ** Addressing is a bijection on the addressable range

    Sixteen bits of cylinder, sixteen heads and sixty-three sectors. *)

Definition CHS_LIMIT : Z := 65536 * (SPT * HPC).

Lemma lor_shift8 a b : 0 <= b < 256 -> Z.lor (Z.shiftl a 8) b = a * 256 + b.
Proof.
  intros Hb.
  assert (Z.land (Z.shiftl a 8) b = 0) as E.
  { apply Z.bits_inj'. intros n Hn. rewrite Z.land_spec, Z.bits_0.
    destruct (Z.lt_ge_cases n 8) as [Hlt | Hge].
    - rewrite Z.shiftl_spec_low by lia. done.
    - replace b with (b mod 2 ^ 8) by (apply Z.mod_small; simpl; lia).
      rewrite Z.mod_pow2_bits_high by lia. apply andb_false_r. }
  pose proof (Z.add_lor_land (Z.shiftl a 8) b) as P. rewrite E in P.
  rewrite Z.shiftl_mul_pow2 in * by lia. change (2 ^ 8) with 256 in *. lia.
Qed.

Lemma get_chs_spec lba :
  0 <= lba < CHS_LIMIT ->
  let c := lba / 1008 in
  get_chs lba = CHS ((lba / 63) mod 16) (lba mod 63 + 1) (c mod 256) (c / 256) /\
  0 <= c < 65536.
Proof.
  intros Hl c. unfold CHS_LIMIT, SPT, HPC in Hl.
  assert (0 <= c < 65536) as Hc by (unfold c; split; [apply Z.div_pos | apply Z.div_lt_upper_bound]; lia).
  split; [|done]. unfold get_chs, SPT, HPC. change (63 * 16) with 1008. fold c.
  rewrite (uwrap_small 16 c) by (simpl; lia).
  change 0xFF with (Z.ones 8). rewrite Z.land_ones, Z.shiftr_div_pow2 by lia.
  change (2 ^ 8) with 256.
  pose proof (Z.mod_pos_bound (lba / 63) 16). pose proof (Z.mod_pos_bound lba 63).
  pose proof (Z.mod_pos_bound c 256).
  rewrite !u8_small; try lia; [done|].
  split; [apply Z.div_pos | apply Z.div_lt_upper_bound]; lia.
Qed.

(** The two translations of [pioutil.c] are inverse on every address whose
    cylinder fits sixteen bits: [get_lba] recovers the linear address from what
    [get_chs] computed. *)
Theorem get_lba_get_chs lba :
  0 <= lba < CHS_LIMIT ->
  let a := get_chs lba in get_lba (head a) (sector a) (cyl1 a) (cyl2 a) = lba.
Proof.
  intros Hl. destruct (get_chs_spec lba Hl) as [E Hc]. cbv zeta. rewrite E. clear E. cbn [head sector cyl1 cyl2].
  set (c := lba / 1008) in *. unfold get_lba, SPT, HPC.
  pose proof (Z.mod_pos_bound c 256).
  rewrite lor_shift8 by lia.
  replace (c / 256 * 256 + c mod 256) with c by (pose proof (Z.div_mod c 256); lia).
  rewrite (uwrap_small 16) by (simpl; lia).
  assert (c = lba / 63 / 16) as Ec by (rewrite Z.div_div by lia; done).
  pose proof (Z.div_mod (lba / 63) 16). pose proof (Z.div_mod lba 63).
  unfold CHS_LIMIT, SPT, HPC in Hl. rewrite u32_small; lia.
Qed.

Lemma get_lba_get_chs_witness :
  (0 <= 16514063 < CHS_LIMIT) /\
  (let a := get_chs 16514063 in get_lba (head a) (sector a) (cyl1 a) (cyl2 a) = 16514063).
Proof. split; [vm_compute; split; congruence | apply (get_lba_get_chs 16514063); vm_compute; split; congruence]. Defined.

(** Beyond that range the cylinder is truncated, so blocks [CHS_LIMIT]
    apart are the same sector: the addressing wraps. *)
Theorem get_chs_wraps lba : get_chs (lba + CHS_LIMIT) = get_chs lba.
Proof.
  unfold get_chs, CHS_LIMIT, SPT, HPC. change (65536 * (63 * 16)) with 66060288.
  change (63 * 16) with 1008.
  replace (lba + 66060288) with (lba + 65536 * 1008) by lia. rewrite Z.div_add by lia.
  replace (lba + 65536 * 1008) with (lba + 1048576 * 63) by lia.
  rewrite Z.div_add, Z.mod_add by lia.
  replace (lba / 63 + 1048576) with (lba / 63 + 65536 * 16) by lia. rewrite Z.mod_add by lia.
  f_equal; f_equal; f_equal; unfold uwrap; change (2 ^ 16) with 65536; 
    rewrite <- (Z.mul_1_l 65536) at 1; rewrite Z.mod_add by lia; done.
Qed.

Lemma get_chs_inj a b :
  0 <= a < CHS_LIMIT -> 0 <= b < CHS_LIMIT -> get_chs a = get_chs b -> a = b.
Proof.
  intros Ha Hb E. pose proof (get_lba_get_chs a Ha) as Ea.
  pose proof (get_lba_get_chs b Hb) as Eb. cbv zeta in *. rewrite E in Ea. congruence.
Qed.

Lemma get_drive_head_spec drive h :
  0 <= drive < 2 -> 0 <= h < 16 -> get_drive_head drive h = 160 + 16 * drive + h.
Proof.
  intros Hd Hh.
  assert (forallb (fun d => forallb (fun n =>
    get_drive_head d n =? 160 + 16 * d + n) (seqZ 0 16)) (seqZ 0 2) = true) as E
    by (vm_compute; done).
  rewrite forallb_forall in E. specialize (E drive).
  rewrite <- list_elem_of_In, elem_of_seqZ in E. specialize (E ltac:(lia)).
  rewrite forallb_forall in E. specialize (E h).
  rewrite <- list_elem_of_In, elem_of_seqZ in E. specialize (E ltac:(lia)). lia.
Qed.

(** The registers [ata_read] and [ata_write] program for a block. *)
Definition sector_regs (dev block : Z) : Z * Z * Z * Z :=
  let a := get_chs block in
  (get_drive_head dev (head a), sector a, cyl1 a, cyl2 a).

Lemma sector_regs_inj d b d' b' :
  0 <= d < 2 -> 0 <= d' < 2 -> 0 <= b < CHS_LIMIT -> 0 <= b' < CHS_LIMIT ->
  sector_regs d b = sector_regs d' b' -> d = d' /\ b = b'.
Proof.
  intros Hd Hd' Hb Hb' E. unfold sector_regs in E. cbv zeta in E.
  assert (forall x, 0 <= x < CHS_LIMIT -> 0 <= head (get_chs x) < 16) as Hh.
  { intros x Hx. destruct (get_chs_spec x Hx) as [-> _]. apply Z.mod_pos_bound. lia. }
  pose proof (Hh b Hb). pose proof (Hh b' Hb').
  rewrite !get_drive_head_spec in E by done.
  apply pair_equal_spec in E as [E E4]. apply pair_equal_spec in E as [E E3].
  apply pair_equal_spec in E as [E1 E2].
  assert (d = d' /\ head (get_chs b) = head (get_chs b')) as [-> Eh] by lia.
  split; [done|]. apply get_chs_inj; [done..|].
  destruct (get_chs b), (get_chs b'). simpl in *. congruence.
Qed.

(** ** What the layers above rely on

    [DeviceLaws] is the interface the buffer cache is verified against: on the
    valid addresses the transfers succeed, and a block reads back what was
    last written to it, whatever else was written in between. *)

Class DeviceLaws (D : Type) `{PioDrive D} := {
  dvalid : Z -> Z -> Prop;
  content : D -> Z -> Z -> list Z;
  dvalid_range dev b : dvalid dev b -> 0 <= dev < 2 ^ 31 /\ 0 <= b < 4294967295;
  content_length d dev b : dvalid dev b -> length (content d dev b) = 512%nat;
  dev_read_content d dev b : dvalid dev b -> dev_read d dev b = Ret (DEV_OK, content d dev b);
  dev_write_content d dev b x :
    dvalid dev b -> length x = 512%nat ->
    exists d', dev_write d dev b x = Ret (DEV_OK, d') /\ content d' dev b = x /\
      forall dev' b', dvalid dev' b' -> (dev', b') <> (dev, b) ->
        content d' dev' b' = content d dev' b'
}.

(** A drive in working order: every sector of the medium can be transferred,
    holds 512 bytes, and keeps what was written to it. *)
Class PioDriveOk (D : Type) `{PioDrive D} := {
  sector_ok : Z * Z * Z * Z -> Prop;
  pio_read_ok d dh s c1 c2 : sector_ok (dh, s, c1, c2) ->
    exists x, pio_read d dh s c1 c2 = Some x /\ length x = 512%nat;
  pio_write_ok d dh s c1 c2 x : sector_ok (dh, s, c1, c2) -> length x = 512%nat ->
    exists d', pio_write d dh s c1 c2 x = Some d' /\ pio_read d' dh s c1 c2 = Some x /\
      forall dh' s' c1' c2', (dh', s', c1', c2') <> (dh, s, c1, c2) ->
        pio_read d' dh' s' c1' c2' = pio_read d dh' s' c1' c2'
}.

Section DeviceOfPio.
Context {D : Type} `{PioDriveOk D}.

Definition block_ok (dev b : Z) : Prop :=
  0 <= dev < 2 /\ 0 <= b < CHS_LIMIT /\ sector_ok (sector_regs dev b).

Definition block_content (d : D) (dev b : Z) : list Z :=
  let '(dh, s, c1, c2) := sector_regs dev b in default [] (pio_read d dh s c1 c2).

Lemma block_ok_wrap dev b : block_ok dev b -> u8 dev = dev /\ u32 b = b.
Proof.
  intros (Hd & Hb & _). change CHS_LIMIT with 66060288 in Hb.
  split; [apply u8_small | apply u32_small]; lia.
Qed.

Lemma dev_read_pio d dev b :
  block_ok dev b -> dev_read d dev b = Ret (DEV_OK, block_content d dev b).
Proof.
  intros Hok. destruct (block_ok_wrap _ _ Hok) as [E1 E2]. destruct Hok as (_ & _ & Hs).
  unfold dev_read, block_content, ata_read. rewrite E1, E2. unfold sector_regs in *. 
  destruct (pio_read_ok d _ _ _ _ Hs) as (x & -> & _). done.
Qed.

Lemma dev_write_pio d dev b x :
  block_ok dev b -> length x = 512%nat ->
  exists d', dev_write d dev b x = Ret (DEV_OK, d') /\ block_content d' dev b = x /\
    forall dev' b', block_ok dev' b' -> (dev', b') <> (dev, b) ->
      block_content d' dev' b' = block_content d dev' b'.
Proof.
  intros Hok Hx. destruct (block_ok_wrap _ _ Hok) as [E1 E2].
  pose proof Hok as (Hd & Hb & Hs).
  destruct (pio_write_ok d _ _ _ _ x Hs Hx) as (d' & Hw & Hr & Ho).
  exists d'. unfold dev_write, block_content, ata_write. rewrite E1, E2.
  unfold sector_regs in Hs |- *. rewrite Hw. split; [done|]. rewrite Hr. split; [done|].
  intros dev' b' (Hd' & Hb' & _) Hne. rewrite Ho; [done|].
  intros E. apply Hne. destruct (sector_regs_inj dev' b' dev b); auto; congruence.
Qed.

#[export] Program Instance device_of_pio : DeviceLaws D :=
  {| dvalid := block_ok; content := block_content |}.
Next Obligation. intros dev b (Hd & Hb & _). change CHS_LIMIT with 66060288 in Hb. lia. Qed.
Next Obligation.
  intros d dev b (_ & _ & Hs). unfold block_content, sector_regs in *.
  destruct (pio_read_ok d _ _ _ _ Hs) as (x & -> & Hx). done.
Qed.
Next Obligation. intros. by apply dev_read_pio. Qed.
Next Obligation. intros. by apply dev_write_pio. Qed.
End DeviceOfPio.

(** A concrete drive in working order: initially zero, every sector present. *)
Abbreviation mem_drive := (gmap (Z * Z * Z * Z) (list Z)).

#[export] Instance mem_drive_pio : PioDrive mem_drive := {|
  pio_read := fun d dh s c1 c2 => Some (resize 512 0 (default [] (d !! (dh, s, c1, c2))));
  pio_write := fun d dh s c1 c2 x =>
    if (length x =? 512)%nat then Some (<[(dh, s, c1, c2) := x]> d) else None
|}.

#[export] Program Instance mem_drive_ok : PioDriveOk mem_drive :=
  {| sector_ok := fun _ => True |}.
Next Obligation. intros. eexists. split; [done|]. apply length_resize. Qed.
Next Obligation.
  intros d dh s c1 c2 x _ Hx. exists (<[(dh, s, c1, c2) := x]> d). simpl.
  rewrite Hx. split; [done|]. split.
  - rewrite lookup_insert_eq. simpl. f_equal. apply resize_all_alt. done.
  - intros dh' s' c1' c2' Hne. rewrite lookup_insert_ne by congruence. done.
Qed.
