(* ===== verification/Block.v ===== *)
(** * The buffer cache ([fs/block.c])

    128 buffers of one sector each in front of the device, replaced least
    recently used first.  The parallel static arrays [dirty], [block_lru],
    [block_map], [block_array] and [block_dev] of the source are one list of
    [slot] records here, indexed the same way; a position that the source
    marks absent with [BLOCK_NOPOS] is [None]. *)

From S2P Require Import Prelude Device.

Definition BLOCK_ARRAY_SIZE : nat := 128.
Definition BLOCK_FREE : Z := u32 (-1).
Definition BLOCK_MAX_LRU : Z := 4294967295.

Inductive block_rtvl : Type := BLOCK_OK | BLOCK_FAIL | BLOCK_PARAM.

#[export] Instance block_rtvl_eq_dec : EqDecision block_rtvl.
Proof. solve_decision. Defined.

(** The tests [!= DEV_OK], [!= BLOCK_OK] and [== BLOCK_FAIL]. *)
Definition dev_bad (r : dev_rtvl) : bool :=
  match r with DEV_OK => false | DEV_FAIL | DEV_PARAM => true end.
Definition block_bad (r : block_rtvl) : bool :=
  match r with BLOCK_OK => false | BLOCK_FAIL | BLOCK_PARAM => true end.
Definition block_failed (r : block_rtvl) : bool :=
  match r with BLOCK_FAIL => true | BLOCK_OK | BLOCK_PARAM => false end.

Record slot := Slot {
  dirty : bool;
  block_lru : Z;
  block_map : Z;
  block_array : list Z;
  block_dev : Z
}.

Record bcache := BCache {
  init : bool;
  curr : nat;
  highest : Z;
  slots : list slot
}.

Record bstate (D : Type) := BState { cache : bcache; disk : D }.
Arguments BState {D} cache disk.
Arguments cache {D} _.
Arguments disk {D} _.

Definition set_curr (i : nat) (c : bcache) : bcache :=
  {| init := init c; curr := i; highest := highest c; slots := slots c |}.
Definition set_highest (h : Z) (c : bcache) : bcache :=
  {| init := init c; curr := curr c; highest := h; slots := slots c |}.
Definition set_slot (i : nat) (s : slot) (c : bcache) : bcache :=
  {| init := init c; curr := curr c; highest := highest c; slots := <[i := s]> (slots c) |}.

(** ** Searching *)

Definition holds (block dev : Z) (s : slot) : bool :=
  (block_map s =? block) && (block_dev s =? dev).

(** [for(; n > 0; i++, n--) if(block_map[i] == block && block_dev[i] == dev) ...] *)
Fixpoint scan (l : list slot) (block dev : Z) (i n : nat) : option nat :=
  match n with
  | O => None
  | S n =>
      match l !! i with
      | Some s => if holds block dev s then Some i else scan l block dev (S i) n
      | None => None
      end
  end.

(** [if(curr >= BLOCK_ARRAY_SIZE) curr = 0;] *)
Definition norm_curr (c : bcache) : bcache :=
  if (BLOCK_ARRAY_SIZE <=? curr c)%nat then set_curr 0 c else c.

(** From the current position to the end, then from the start up to it. *)
Definition cache_find (c : bcache) (block dev : Z) : option nat :=
  match scan (slots c) block dev (curr c) (BLOCK_ARRAY_SIZE - curr c) with
  | Some i => Some i
  | None => scan (slots c) block dev 0 (curr c)
  end.

(** ** Choosing a buffer to replace *)

Record victim := Victim {
  free_block_ptr : option nat;
  lowest_clean_block : Z;
  lowest_clean_block_ptr : option nat;
  lowest_dirty_block : Z;
  lowest_dirty_block_ptr : option nat;
  new_highest : Z
}.

Definition victim_init (highest : Z) : victim :=
  {| free_block_ptr := None;
     lowest_clean_block := BLOCK_MAX_LRU; lowest_clean_block_ptr := None;
     lowest_dirty_block := BLOCK_MAX_LRU; lowest_dirty_block_ptr := None;
     new_highest := highest |}.

(** One turn of the replacement scan on a buffer that is in use. *)
Definition victim_step (i : nat) (s : slot) (v : victim) : victim :=
  let better_clean := negb (dirty s) && (block_lru s <? lowest_clean_block v) in
  let better_dirty := dirty s && (block_lru s <? lowest_dirty_block v) in
  {| free_block_ptr := free_block_ptr v;
     lowest_clean_block := if better_clean then block_lru s else lowest_clean_block v;
     lowest_clean_block_ptr := if better_clean then Some i else lowest_clean_block_ptr v;
     lowest_dirty_block := if better_dirty then block_lru s else lowest_dirty_block v;
     lowest_dirty_block_ptr := if better_dirty then Some i else lowest_dirty_block_ptr v;
     new_highest := if new_highest v <? block_lru s then block_lru s else new_highest v |}.

Fixpoint victim_scan (l : list slot) (i : nat) (v : victim) : victim :=
  match l with
  | [] => v
  | s :: l =>
      if block_map s =? BLOCK_FREE then
        {| free_block_ptr := Some i;
           lowest_clean_block := lowest_clean_block v;
           lowest_clean_block_ptr := lowest_clean_block_ptr v;
           lowest_dirty_block := lowest_dirty_block v;
           lowest_dirty_block_ptr := lowest_dirty_block_ptr v;
           new_highest := new_highest v |}
      else victim_scan l (S i) (victim_step i s v)
  end.

(** ** Use counts *)

(** [if(block_lru[i] < BLOCK_MAX_LRU) ++block_lru[i];] *)
Definition bump (lru : Z) : Z := if lru <? BLOCK_MAX_LRU then u32 (lru + 1) else lru.

(** [if(block_lru[i] < BLOCK_MAX_LRU) block_lru[i] = ++highest;] *)
Definition stamp (lru highest : Z) : Z * Z :=
  if lru <? BLOCK_MAX_LRU then (u32 (highest + 1), u32 (highest + 1)) else (lru, highest).

(** Put [data], read from or destined for [(dev, block)], in buffer [i]. *)
Definition occupy (i : nat) (s : slot) (dev block : Z) (data : list Z) (d : bool) (c : bcache)
  : bcache :=
  let '(lru, h) := stamp (block_lru s) (highest c) in
  set_curr i (set_highest h (set_slot i
    {| dirty := d; block_lru := lru; block_map := block; block_array := data;
       block_dev := dev |} c)).

(** ** The operations *)

Section Operations.
Context {D : Type} `{PioDrive D}.

Definition buffer (i : nat) : st (bstate D) slot := fun σ =>
  match slots (cache σ) !! i with Some s => Ret (s, σ) | None => Fault end.

Definition update_cache (f : bcache -> bcache) : st (bstate D) unit := fun σ =>
  Ret (tt, {| cache := f (cache σ); disk := disk σ |}).

Definition device_read (dev block : Z) : st (bstate D) (dev_rtvl * list Z) := fun σ =>
  r ← dev_read (disk σ) dev block; Ret (r, σ).

Definition device_write (dev block : Z) (data : list Z) : st (bstate D) dev_rtvl := fun σ =>
  '(r, d') ← dev_write (disk σ) dev block data;
  Ret (r, {| cache := cache σ; disk := d' |}).

(** A replaced buffer is filled from the device. *)
Definition fetch (i : nat) (dev block : Z) (data : option (list Z))
  : st (bstate D) (block_rtvl * option (list Z)) :=
  if dev_bad (dev_scan dev block) then mret (BLOCK_FAIL, data) else
  s ← buffer i;
  '(r, sector) ← device_read dev block;
  if dev_bad r then
    _ ← update_cache (set_slot i {| dirty := dirty s; block_lru := block_lru s;
          block_map := block_map s; block_array := sector; block_dev := block_dev s |});
    mret (BLOCK_FAIL, data)
  else
    _ ← update_cache (occupy i s dev block sector false);
    mret (BLOCK_OK, Some sector).

Definition block_read (dev block : Z) (data : option (list Z))
  : st (bstate D) (block_rtvl * option (list Z)) :=
  if bool_decide (dev < 0 ∨ block < 0 ∨ data = None) then mret (BLOCK_PARAM, data) else
  _ ← update_cache norm_curr;
  c ← gets cache;
  match cache_find c block dev with
  | Some i =>
      s ← buffer i;
      _ ← update_cache (fun c => set_curr i (set_slot i
            {| dirty := dirty s; block_lru := bump (block_lru s); block_map := block_map s;
               block_array := block_array s; block_dev := block_dev s |} c));
      mret (BLOCK_OK, Some (block_array s))
  | None =>
      let v := victim_scan (slots c) 0 (victim_init (highest c)) in
      _ ← update_cache (set_highest (new_highest v));
      match free_block_ptr v, lowest_clean_block_ptr v, lowest_dirty_block_ptr v with
      | Some i, _, _ => fetch i dev block data
      | None, Some i, _ => fetch i dev block data
      | None, None, Some i =>
          s ← buffer i;
          if dev_bad (dev_scan (block_dev s) (block_map s)) then
            mret (BLOCK_FAIL, data)
          else
            r ← device_write (block_dev s) block (block_array s);
            if dev_bad r then mret (BLOCK_FAIL, data)
            else fetch i dev block data
      | None, None, None => mret (BLOCK_FAIL, data)
      end
  end.

Definition block_write (dev block : Z) (data : list Z) : st (bstate D) block_rtvl :=
  _ ← update_cache norm_curr;
  c ← gets cache;
  match cache_find c block dev with
  | Some i =>
      s ← buffer i;
      _ ← update_cache (fun c => set_curr i (set_slot i
            {| dirty := true; block_lru := bump (block_lru s); block_map := block_map s;
               block_array := data; block_dev := block_dev s |} c));
      mret BLOCK_OK
  | None =>
      let v := victim_scan (slots c) 0 (victim_init (highest c)) in
      _ ← update_cache (set_highest (new_highest v));
      match free_block_ptr v, lowest_clean_block_ptr v, lowest_dirty_block_ptr v with
      | Some i, _, _ | None, Some i, _ =>
          s ← buffer i;
          _ ← update_cache (occupy i s dev block data true);
          mret BLOCK_OK
      | None, None, Some i =>
          s ← buffer i;
          if dev_bad (dev_scan (block_dev s) (block_map s)) then mret BLOCK_FAIL
          else
            r ← device_write (block_dev s) block (block_array s);
            if dev_bad r then mret BLOCK_FAIL
            else
              _ ← update_cache (occupy i s dev block data true);
              mret BLOCK_OK
      | None, None, None => mret BLOCK_FAIL
      end
  end.

Definition block_free (dev block : Z) : st (bstate D) block_rtvl :=
  if bool_decide (dev < 0 ∨ block < 0) then mret BLOCK_PARAM else
  c ← gets cache;
  match scan (slots c) block dev 0 BLOCK_ARRAY_SIZE with
  | Some i =>
      s ← buffer i;
      r ← (if dirty s then
             if dev_bad (dev_scan dev block) then mret DEV_FAIL
             else device_write dev block (block_array s)
           else mret DEV_OK);
      if dev_bad r then mret BLOCK_FAIL else
      _ ← update_cache (fun c => set_curr i (set_slot i
            {| dirty := false; block_lru := 0; block_map := BLOCK_FREE;
               block_array := block_array s; block_dev := DEV_NODEV |} c));
      mret BLOCK_OK
  | None => mret BLOCK_OK
  end.

(** The part [block_disk_write] and [block_disk_write_sync_cache] share: bring
    a cached copy up to date with [data] ([memcmp] followed by [memcpy]), and
    give the bytes to transfer and whether they came from the cache. *)
Definition disk_write_source (dev block : Z) (data : list Z)
  : st (bstate D) (bool * list Z) :=
  _ ← update_cache norm_curr;
  c ← gets cache;
  match cache_find c block dev with
  | Some i =>
      s ← buffer i;
      _ ← (if bool_decide (block_array s ≠ data) then
             update_cache (set_slot i
               {| dirty := dirty s; block_lru := block_lru s; block_map := block_map s;
                  block_array := data; block_dev := block_dev s |})
           else mret tt);
      s' ← buffer i;
      mret (true, block_array s')
  | None => mret (false, data)
  end.

Definition block_disk_write (dev block : Z) (data : list Z) : st (bstate D) block_rtvl :=
  '(_, bytes) ← disk_write_source dev block data;
  if dev_bad (dev_scan dev block) then mret BLOCK_FAIL else
  r ← device_write dev block bytes;
  if dev_bad r then mret BLOCK_FAIL else mret BLOCK_OK.

Definition block_disk_write_sync_cache (dev block : Z) (data : option (list Z))
  : st (bstate D) (block_rtvl * option (list Z)) :=
  match data with
  | None => fault
  | Some bytes =>
      '(found, bytes) ← disk_write_source dev block bytes;
      if dev_bad (dev_scan dev block) then mret (BLOCK_FAIL, data) else
      r ← device_write dev block bytes;
      if dev_bad r then mret (BLOCK_FAIL, data) else
      if found : bool then mret (BLOCK_OK, data) else block_read dev block data
  end.

(** Buffers [i .. i + n - 1] of [block_sync]'s loop. *)
Fixpoint sync_loop (dev : Z) (i n : nat) (rtvl : block_rtvl) : st (bstate D) block_rtvl :=
  match n with
  | O => mret rtvl
  | S n =>
      s ← buffer i;
      if dirty s && (block_dev s =? dev) then
        r ← block_disk_write dev (block_map s) (block_array s);
        if block_failed r then sync_loop dev (S i) n BLOCK_FAIL
        else
          s ← buffer i;
          _ ← update_cache (set_slot i
                {| dirty := false; block_lru := bump (block_lru s); block_map := block_map s;
                   block_array := block_array s; block_dev := block_dev s |});
          sync_loop dev (S i) n rtvl
      else sync_loop dev (S i) n rtvl
  end.

Definition block_sync (dev : Z) : st (bstate D) block_rtvl :=
  sync_loop dev 0 BLOCK_ARRAY_SIZE BLOCK_OK.

(** [block_close] has no [return] after its error check: when both steps
    succeed its value is indeterminate, [None]. *)
Definition block_close (dev : Z) : st (bstate D) (option block_rtvl) :=
  r ← block_sync dev;
  if block_bad r || dev_bad (dev_close dev) then mret (Some BLOCK_FAIL)
  else mret None.

Definition block_reinit : st (bstate D) unit :=
  update_cache (fun c => {| init := false; curr := curr c; highest := highest c;
                            slots := slots c |}).

Definition empty_slot : slot :=
  {| dirty := false; block_lru := 0; block_map := BLOCK_FREE;
     block_array := replicate 512 0; block_dev := DEV_NODEV |}.

(** [path] and [dev] are [None] when the caller passes a null pointer; [*dev]
    is returned, [cmos] is the drive type byte [dev_open] looks at. *)
Definition block_open (cmos : Z) (path : option (list Z)) (dev : option Z)
  : st (bstate D) (block_rtvl * option Z) :=
  match path, dev with
  | Some _, Some dev0 =>
      _ ← update_cache (fun c =>
            if init c then c else
            {| init := true; curr := curr c; highest := highest c;
               slots := replicate BLOCK_ARRAY_SIZE empty_slot |});
      let '(r, dev1) := dev_open cmos dev0 in
      if dev_bad r then mret (BLOCK_FAIL, Some dev1)
      else mret (BLOCK_OK, Some dev1)
  | _, _ => mret (BLOCK_PARAM, dev)
  end.
End Operations.

(** The state before the first [block_open]: C statics are zero. *)
Definition bstate_boot {D} (d : D) : bstate D :=
  {| cache := {| init := false; curr := 0; highest := 0;
       slots := replicate BLOCK_ARRAY_SIZE (Slot false 0 0 (replicate 512 0) 0) |};
     disk := d |}.

(** ** Searching finds the buffer of a block *)

Lemma holds_true block dev s :
  holds block dev s = true <-> block_map s = block /\ block_dev s = dev.
Proof. unfold holds. rewrite andb_true_iff, !Z.eqb_eq. done. Qed.

Lemma scan_Some l block dev i n j :
  scan l block dev i n = Some j ->
  (i <= j < i + n)%nat /\ exists s, l !! j = Some s /\ holds block dev s = true.
Proof.
  revert i. induction n as [|n IH]; simpl; intros i; [done|].
  destruct (l !! i) as [s|] eqn:Es; [|done].
  destruct (holds block dev s) eqn:Eh.
  - intros [= ->]. split; [lia|]. eauto.
  - intros [? ?]%IH. split; [lia|done].
Qed.

Lemma scan_None l block dev i n :
  (i + n <= length l)%nat -> scan l block dev i n = None ->
  forall j s, (i <= j < i + n)%nat -> l !! j = Some s -> holds block dev s = false.
Proof.
  revert i. induction n as [|n IH]; simpl; intros i Hn; [lia|].
  destruct (lookup_lt_is_Some_2 l i) as [s Es]; [lia|]. rewrite Es.
  destruct (holds block dev s) eqn:Eh; [done|]. intros Hs j t Hj Ht.
  destruct (decide (j = i)) as [->|]; [congruence|]. eapply IH; [..|done]; try done; lia.
Qed.

Lemma cache_find_Some c block dev i :
  cache_find c block dev = Some i ->
  exists s, slots c !! i = Some s /\ holds block dev s = true.
Proof.
  unfold cache_find. destruct (scan _ _ _ (curr c) _) eqn:E; [intros [= <-] | intros E'].
  - apply scan_Some in E as [_ ?]. done.
  - apply scan_Some in E' as [_ ?]. done.
Qed.

Lemma cache_find_None c block dev :
  length (slots c) = BLOCK_ARRAY_SIZE -> (curr c < BLOCK_ARRAY_SIZE)%nat ->
  cache_find c block dev = None ->
  forall j s, slots c !! j = Some s -> holds block dev s = false.
Proof.
  unfold cache_find. intros Hl Hc Hf j s Hj.
  destruct (scan _ _ _ (curr c) _) eqn:E1; [done|].
  pose proof (lookup_lt_Some _ _ _ Hj).
  destruct (decide (j < curr c)%nat).
  - apply (scan_None (slots c) block dev 0 (curr c)) with (j := j); (done || lia).
  - apply (scan_None (slots c) block dev (curr c) (BLOCK_ARRAY_SIZE - curr c)) with (j := j);
      (done || lia).
Qed.

(** ** The replacement scan finds a clean buffer when there is one *)

Lemma victim_scan_free l i v j :
  free_block_ptr v = None -> free_block_ptr (victim_scan l i v) = Some j ->
  exists s, l !! (j - i)%nat = Some s /\ (i <= j)%nat /\ block_map s = BLOCK_FREE.
Proof.
  revert i v. induction l as [|s l IH]; simpl; intros i v Hv; [congruence|].
  destruct (block_map s =? BLOCK_FREE) eqn:E; simpl.
  - intros [= <-]. apply Z.eqb_eq in E. exists s. rewrite Nat.sub_diag. split_and!; [done|lia|done].
  - intros (t & Ht & Hj & Hf)%IH; [|done]. exists t.
    split_and!; [|lia|done]. replace (j - i)%nat with (S (j - S i)) by lia. done.
Qed.

Lemma victim_scan_clean l i v j :
  lowest_clean_block_ptr (victim_scan l i v) = Some j ->
  lowest_clean_block_ptr v = Some j \/
  exists s, l !! (j - i)%nat = Some s /\ (i <= j)%nat /\ dirty s = false.
Proof.
  revert i v. induction l as [|s l IH]; simpl; intros i v; [auto|].
  destruct (block_map s =? BLOCK_FREE) eqn:E; simpl; [auto|].
  intros [Hv|(t & Ht & Hj & Hd)]%IH.
  - simpl in Hv. destruct (negb (dirty s) && _) eqn:Eb; [|auto].
    injection Hv as <-. right. exists s. rewrite Nat.sub_diag.
    apply andb_true_iff in Eb as [Eb _]. split_and!; [done|lia|by destruct (dirty s)].
  - right. exists t. split_and!; [|lia|done].
    replace (j - i)%nat with (S (j - S i)) by lia. done.
Qed.

Lemma victim_scan_dirty l i v j :
  lowest_dirty_block_ptr (victim_scan l i v) = Some j ->
  lowest_dirty_block_ptr v = Some j \/
  exists s, l !! (j - i)%nat = Some s /\ (i <= j)%nat /\ dirty s = true.
Proof.
  revert i v. induction l as [|s l IH]; simpl; intros i v; [auto|].
  destruct (block_map s =? BLOCK_FREE) eqn:E; simpl; [auto|].
  intros [Hv|(t & Ht & Hj & Hd)]%IH.
  - simpl in Hv. destruct (dirty s && _) eqn:Eb; [|auto].
    injection Hv as <-. right. exists s. rewrite Nat.sub_diag.
    apply andb_true_iff in Eb as [Eb _]. split_and!; [done|lia|done].
  - right. exists t. split_and!; [|lia|done].
    replace (j - i)%nat with (S (j - S i)) by lia. done.
Qed.

(** Once a clean candidate is recorded, one stays recorded. *)
Lemma victim_scan_keeps l i v :
  is_Some (lowest_clean_block_ptr v) -> is_Some (lowest_clean_block_ptr (victim_scan l i v)).
Proof.
  revert i v. induction l as [|s l IH]; simpl; intros i v Hv; [done|].
  destruct (block_map s =? BLOCK_FREE); [done|]. apply IH. simpl.
  destruct (negb _ && _); eauto.
Qed.

Lemma victim_scan_found l i v :
  (lowest_clean_block_ptr v = None -> lowest_clean_block v = BLOCK_MAX_LRU) ->
  (exists s, s ∈ l /\ dirty s = false /\ block_lru s < BLOCK_MAX_LRU) ->
  is_Some (free_block_ptr (victim_scan l i v)) \/
  is_Some (lowest_clean_block_ptr (victim_scan l i v)).
Proof.
  revert i v. induction l as [|s l IH]; simpl; intros i v Hv (t & Ht & Hd & Hl).
  { by apply not_elem_of_nil in Ht. }
  destruct (block_map s =? BLOCK_FREE) eqn:E; [simpl; eauto|].
  apply elem_of_cons in Ht as [<-|Ht].
  - right. destruct (lowest_clean_block_ptr v) eqn:Ep.
    + apply victim_scan_keeps. simpl. destruct (negb _ && _); eauto.
    + apply victim_scan_keeps. simpl. rewrite Hd, Hv by done. simpl.
      apply Z.ltb_lt in Hl. rewrite Hl. eauto.
  - apply IH; [|eauto]. simpl. destruct (negb _ && _); done.
Qed.

Lemma victim_scan_highest l i v T :
  0 <= new_highest v < T -> (forall s, s ∈ l -> 0 <= block_lru s < T) ->
  0 <= new_highest (victim_scan l i v) < T.
Proof.
  revert i v. induction l as [|s l IH]; simpl; intros i v Hv Hl; [done|].
  destruct (block_map s =? BLOCK_FREE); [done|]. apply IH.
  - simpl. pose proof (Hl s ltac:(left)). destruct (_ <? _); lia.
  - intros t Ht. apply Hl. by right.
Qed.

(** ** Invariant, contents and remaining capacity *)

Fixpoint clean_count (l : list slot) : nat :=
  match l with
  | [] => 0
  | s :: l => (if dirty s then 0 else 1) + clean_count l
  end.

Lemma clean_count_insert l i s s' :
  l !! i = Some s ->
  (clean_count (<[i := s']> l) + (if dirty s then 0 else 1)
   = clean_count l + (if dirty s' then 0 else 1))%nat.
Proof.
  revert i. induction l as [|t l IH]; intros [|i]; simpl; try done.
  - intros [= ->]. destruct (dirty s), (dirty s'); lia.
  - intros Hi. specialize (IH i Hi). lia.
Qed.

Lemma clean_count_pos l :
  (0 < clean_count l)%nat -> exists s, s ∈ l /\ dirty s = false.
Proof.
  induction l as [|s l IH]; simpl; [lia|]. destruct (dirty s) eqn:E.
  - intros (t & ? & ?)%IH. exists t. split; [by right|done].
  - intros _. exists s. split; [by left|done].
Qed.

(** Room for [k] more operations, [w] of which may modify a clean buffer: the
    use counts stay below their maximum, and a clean buffer is left to reuse. *)
Definition ready (k w : nat) (c : bcache) : Prop :=
  0 <= highest c < BLOCK_MAX_LRU - Z.of_nat k /\
  (forall s, s ∈ slots c -> 0 <= block_lru s < BLOCK_MAX_LRU - Z.of_nat k) /\
  (w <= clean_count (slots c))%nat.

Section Coherence.
Context {D : Type} `{DeviceLaws D}.
Implicit Types (c : bcache) (σ : bstate D) (s t : slot).

Definition used s : Prop := block_map s <> BLOCK_FREE.

Record slot_ok s : Prop := {
  ok_length : length (block_array s) = 512%nat;
  ok_free : ~ used s -> dirty s = false;
  ok_valid : used s -> dvalid (block_dev s) (block_map s)
}.

Record cache_ok c : Prop := {
  cache_length : length (slots c) = BLOCK_ARRAY_SIZE;
  cache_slot i s : slots c !! i = Some s -> slot_ok s;
  cache_unique i j s t :
    slots c !! i = Some s -> slots c !! j = Some t -> used s ->
    holds (block_map s) (block_dev s) t = true -> i = j
}.

Definition coherent σ : Prop := forall i s,
  slots (cache σ) !! i = Some s -> used s -> dirty s = false ->
  block_array s = content (disk σ) (block_dev s) (block_map s).

Definition inv σ : Prop := cache_ok (cache σ) /\ coherent σ.

(** What the file system sees at a block: the cached copy, else the medium. *)
Definition view σ (dev block : Z) : list Z :=
  match list_find (fun s => holds block dev s = true) (slots (cache σ)) with
  | Some (_, s) => block_array s
  | None => content (disk σ) dev block
  end.

Lemma dvalid_not_free dev block : dvalid dev block -> block <> BLOCK_FREE.
Proof. intros ?%dvalid_range. change BLOCK_FREE with 4294967295. lia. Qed.

Lemma view_hit σ dev block i s :
  cache_ok (cache σ) -> dvalid dev block -> slots (cache σ) !! i = Some s ->
  holds block dev s = true -> view σ dev block = block_array s.
Proof.
  intros Hok Hv Hi Hh. unfold view.
  destruct (list_find _ _) as [[j t]|] eqn:E.
  - apply list_find_Some in E as (Hj & Ht & _).
    pose proof (dvalid_not_free _ _ Hv).
    apply holds_true in Hh as [E1 E2].
    assert (i = j) as <-; [|congruence].
    eapply (cache_unique _ Hok i j); [done..|unfold used; congruence|].
    apply holds_true. apply holds_true in Ht as [? ?]. split; congruence.
  - apply list_find_None in E. rewrite Forall_lookup in E. by edestruct E.
Qed.

Lemma view_miss σ dev block :
  (forall i s, slots (cache σ) !! i = Some s -> holds block dev s = false) ->
  view σ dev block = content (disk σ) dev block.
Proof.
  intros Hn. unfold view. destruct (list_find _ _) as [[j t]|] eqn:E; [|done].
  apply list_find_Some in E as (Hj & Ht & _). rewrite (Hn j t) in Ht; done.
Qed.

Lemma cached_dec σ dev block :
  (exists i s, slots (cache σ) !! i = Some s /\ holds block dev s = true) \/
  (forall i s, slots (cache σ) !! i = Some s -> holds block dev s = false).
Proof.
  destruct (list_find (fun s => holds block dev s = true) (slots (cache σ)))
    as [[i s]|] eqn:E.
  - apply list_find_Some in E as (? & ? & _). eauto.
  - right. intros i s Hi. apply list_find_None in E. rewrite Forall_lookup in E.
    apply not_true_iff_false. eauto.
Qed.

(** *** Replacing one buffer

    Every update of the cache makes one buffer [s] into [s'], which holds a
    block no other buffer holds; a modified [s] must keep its block. *)
Section Replace.
Variables (σ : bstate D) (c' : bcache) (i : nat) (s s' : slot).
Hypothesis Hinv : inv σ.
Hypothesis Hi : slots (cache σ) !! i = Some s.
Hypothesis Hc' : slots c' = <[i := s']> (slots (cache σ)).
Hypothesis Hs' : slot_ok s'.
Hypothesis Hu : used s'.
Hypothesis Hother : forall j t, j <> i -> slots (cache σ) !! j = Some t ->
  holds (block_map s') (block_dev s') t <> true.
Hypothesis Hlost : used s -> dirty s = true -> holds (block_map s') (block_dev s') s = true.
Hypothesis Hclean : dirty s' = false ->
  block_array s' = content (disk σ) (block_dev s') (block_map s').

Let σ' := BState c' (disk σ).

Lemma replace_lookup j t :
  slots c' !! j = Some t ->
  (j = i /\ t = s') \/ (j <> i /\ slots (cache σ) !! j = Some t).
Proof.
  rewrite Hc'. destruct (decide (j = i)) as [->|].
  - rewrite list_lookup_insert_eq by (by eapply lookup_lt_Some). intros [= <-]. auto.
  - rewrite list_lookup_insert_ne by done. auto.
Qed.

Lemma replace_cache_ok : cache_ok c'.
Proof.
  destruct Hinv as [Hok _]. split.
  - rewrite Hc', length_insert. apply Hok.
  - intros j t [[-> ->]|[_ Hj]]%replace_lookup; [done|]. eapply cache_slot; eauto.
  - intros j k t u [[-> ->]|[Hji Hj]]%replace_lookup
      [[-> ->]|[Hki Hk]]%replace_lookup Hut Hh; [done|..].
    + by destruct (Hother k u).
    + apply holds_true in Hh as [E1 E2]. destruct (Hother j t Hji Hj).
      by apply holds_true.
    + eapply (cache_unique _ Hok); eauto.
Qed.

Lemma replace_inv : inv σ'.
Proof.
  split; [apply replace_cache_ok|].
  intros j t [[-> ->]|[_ Hj]]%replace_lookup Hut Hd; simpl; [auto|].
  destruct Hinv as [_ Hco]. eauto.
Qed.

Lemma replace_view_new : view σ' (block_dev s') (block_map s') = block_array s'.
Proof.
  apply (view_hit σ' _ _ i); [apply replace_cache_ok|by apply Hs'| |by apply holds_true].
  simpl. rewrite Hc'. apply list_lookup_insert_eq. by eapply lookup_lt_Some.
Qed.

(** The evicted block: its buffer was clean, so the medium has it. *)
Lemma replace_view_evicted :
  used s -> holds (block_map s') (block_dev s') s <> true ->
  view σ' (block_dev s) (block_map s) = view σ (block_dev s) (block_map s).
Proof.
  intros Hus Hne. destruct Hinv as [Hok Hco].
  assert (dvalid (block_dev s) (block_map s)) by (by eapply cache_slot).
  rewrite (view_hit σ _ _ i s) by (done || by apply holds_true).
  rewrite view_miss; simpl.
  - symmetry. eapply Hco; [done..|]. apply not_true_iff_false. naive_solver.
  - intros k u [[-> ->]|[Hk Hu']]%replace_lookup; apply not_true_iff_false; intros Hh2.
    + apply Hne. apply holds_true in Hh2 as [? ?]. by apply holds_true.
    + apply Hk. symmetry. by eapply (cache_unique _ Hok i k).
Qed.

Lemma replace_view_other dev block :
  dvalid dev block -> (dev, block) <> (block_dev s', block_map s') ->
  view σ' dev block = view σ dev block.
Proof.
  intros Hv Hne. pose proof (dvalid_not_free _ _ Hv).
  assert (holds block dev s' <> true) as Hs'n.
  { intros [? ?]%holds_true. apply Hne. congruence. }
  destruct (cached_dec σ dev block) as [(j & t & Hj & Hh)|Hmiss].
  - destruct (decide (j = i)) as [->|Hji].
    + assert (t = s) as -> by congruence. apply holds_true in Hh as [<- <-].
      apply replace_view_evicted; [done|].
      intros [? ?]%holds_true. apply Hne. congruence.
    + rewrite (view_hit σ dev block j t) by (try apply Hinv; done).
      apply (view_hit σ' _ _ j t); [apply replace_cache_ok|done| |done].
      simpl. rewrite Hc', list_lookup_insert_ne; done.
  - rewrite !view_miss; simpl; [done|done|].
    intros k u [[-> ->]|[Hk Hu']]%replace_lookup; [|eauto].
    by apply not_true_iff_false.
Qed.
End Replace.

Lemma replace_spec σ c' i s s' :
  inv σ -> slots (cache σ) !! i = Some s -> slots c' = <[i := s']> (slots (cache σ)) ->
  slot_ok s' -> used s' ->
  (forall j t, j <> i -> slots (cache σ) !! j = Some t ->
    holds (block_map s') (block_dev s') t <> true) ->
  (used s -> dirty s = true -> holds (block_map s') (block_dev s') s = true) ->
  (dirty s' = false -> block_array s' = content (disk σ) (block_dev s') (block_map s')) ->
  inv (BState c' (disk σ)) /\
  forall dev block, dvalid dev block ->
    view (BState c' (disk σ)) dev block =
      if decide ((dev, block) = (block_dev s', block_map s')) then block_array s'
      else view σ dev block.
Proof.
  intros. split; [by eapply replace_inv|]. intros dev block Hv. case_decide as E.
  - injection E as -> ->. by eapply replace_view_new.
  - by eapply replace_view_other.
Qed.

Lemma ready_replace k w c c' i s s' :
  ready (S k) w c -> slots c !! i = Some s -> slots c' = <[i := s']> (slots c) ->
  0 <= block_lru s' < BLOCK_MAX_LRU - Z.of_nat k ->
  0 <= highest c' < BLOCK_MAX_LRU - Z.of_nat k ->
  ready k (if dirty s' then w - 1 else w) c'.
Proof.
  intros (Hh & Hl & Hw) Hi Hc' Hs' Hh'. split; [done|]. split.
  - intros t Ht. apply list_elem_of_lookup in Ht as [j Hj]. rewrite Hc' in Hj.
    destruct (decide (j = i)) as [->|].
    + rewrite list_lookup_insert_eq in Hj by (by eapply lookup_lt_Some). by simplify_eq.
    + rewrite list_lookup_insert_ne in Hj by done.
      specialize (Hl t (list_elem_of_lookup_2 _ _ _ Hj)). lia.
  - pose proof (clean_count_insert _ _ _ s' Hi) as E. rewrite <- Hc' in E.
    destruct (dirty s), (dirty s'); lia.
Qed.

Lemma ready_weaken k w w' c : ready k w c -> (w' <= w)%nat -> ready k w' c.
Proof. intros (? & ? & ?) ?. split; [done|]. split; [done|lia]. Qed.

Lemma norm_curr_spec c :
  slots (norm_curr c) = slots c /\ highest (norm_curr c) = highest c /\
  (curr (norm_curr c) < BLOCK_ARRAY_SIZE)%nat.
Proof.
  unfold norm_curr. destruct (Nat.leb_spec BLOCK_ARRAY_SIZE (curr c)); simpl; [|done].
  unfold BLOCK_ARRAY_SIZE. split_and!; try done. lia.
Qed.

(** The state when the search starts. *)
Definition searching σ : bstate D := BState (norm_curr (cache σ)) (disk σ).

Lemma searching_inv σ : inv σ -> inv (searching σ).
Proof.
  destruct (norm_curr_spec (cache σ)) as (E & _ & _).
  intros [[] Hco]. split; [split|]; unfold coherent in *; simpl; rewrite E; auto.
Qed.

Lemma searching_view σ dev block : view (searching σ) dev block = view σ dev block.
Proof.
  destruct (norm_curr_spec (cache σ)) as (E & _ & _). unfold view, searching. cbn [cache disk].
  by rewrite E.
Qed.

Lemma searching_ready k w σ : ready k w (cache σ) -> ready k w (cache (searching σ)).
Proof.
  destruct (norm_curr_spec (cache σ)) as (E & E' & _). unfold ready. simpl.
  by rewrite E, E'.
Qed.

Lemma find_None_spec σ dev block :
  inv σ -> cache_find (cache (searching σ)) block dev = None ->
  forall i s, slots (cache σ) !! i = Some s -> holds block dev s = false.
Proof.
  destruct (norm_curr_spec (cache σ)) as (E & _ & Hc). intros [Hok _] Hf i s Hi.
  eapply cache_find_None; [|exact Hc|exact Hf|]; simpl; rewrite E; [apply Hok|done].
Qed.

Lemma bump_bounds k lru :
  0 <= lru < BLOCK_MAX_LRU - Z.of_nat (S k) -> 0 <= bump lru < BLOCK_MAX_LRU - Z.of_nat k.
Proof.
  unfold bump, BLOCK_MAX_LRU. intros Hl. destruct (lru <? _) eqn:E; [|lia].
  rewrite u32_small; lia.
Qed.

Lemma stamp_bounds k lru h :
  0 <= lru < BLOCK_MAX_LRU - Z.of_nat (S k) -> 0 <= h < BLOCK_MAX_LRU - Z.of_nat (S k) ->
  stamp lru h = (h + 1, h + 1) /\ 0 <= h + 1 < BLOCK_MAX_LRU - Z.of_nat k.
Proof.
  unfold stamp, BLOCK_MAX_LRU. intros Hl Hh. destruct (Z.ltb_spec lru 4294967295); [|lia].
  rewrite u32_small by lia. split; [done|lia].
Qed.

Lemma victim_free_clean c i :
  cache_ok c ->
  free_block_ptr (victim_scan (slots c) 0 (victim_init (highest c))) = Some i ->
  exists s, slots c !! i = Some s /\ dirty s = false.
Proof.
  intros Hok Hi.
  destruct (victim_scan_free (slots c) 0 (victim_init (highest c)) i eq_refl Hi)
    as (s & Hs & _ & Hf).
  rewrite Nat.sub_0_r in Hs. exists s. split; [done|].
  eapply ok_free; [by eapply cache_slot|]. unfold used. auto.
Qed.

(** With room left, the scan chooses a buffer that is free or clean. *)
Lemma victim_choice c k w :
  cache_ok c -> ready (S k) (S w) c ->
  let v := victim_scan (slots c) 0 (victim_init (highest c)) in
  0 <= new_highest v < BLOCK_MAX_LRU - Z.of_nat (S k) /\
  exists i s, slots c !! i = Some s /\ dirty s = false /\
    (free_block_ptr v = Some i \/
     free_block_ptr v = None /\ lowest_clean_block_ptr v = Some i).
Proof.
  intros Hok (Hh & Hl & Hw) v. split; [by apply victim_scan_highest|].
  destruct (free_block_ptr v) as [j|] eqn:E.
  { destruct (victim_free_clean c j Hok E) as (s & ? & ?). eauto 10. }
  destruct (clean_count_pos (slots c)) as (t & Ht & Hd); [lia|].
  destruct (victim_scan_found (slots c) 0 (victim_init (highest c))) as [[i Hi]|[i Hi]].
  - done.
  - exists t. specialize (Hl t Ht). split; [done|]. split; [done|lia].
  - unfold v in E. congruence.
  - destruct (victim_scan_clean (slots c) 0 (victim_init (highest c)) i Hi)
      as [Hi'|(s & Hs & _ & Hd')]; [done|].
    rewrite Nat.sub_0_r in Hs. eauto 10.
Qed.

Lemma fetch_spec σ i s dev block data :
  slots (cache σ) !! i = Some s -> dvalid dev block ->
  fetch i dev block data σ =
    Ret ((BLOCK_OK, Some (content (disk σ) dev block)),
         BState (occupy i s dev block (content (disk σ) dev block) false (cache σ)) (disk σ)).
Proof.
  intros Hi Hv. unfold fetch, mbind, st_bind, buffer, device_read. simpl.
  rewrite Hi, dev_read_content by done. done.
Qed.

(** A clean or free buffer takes over [(dev, block)], which was not cached. *)
Lemma occupy_spec σ h k w i s dev block data d :
  inv σ -> ready (S k) (S w) (cache σ) ->
  0 <= h < BLOCK_MAX_LRU - Z.of_nat (S k) ->
  slots (cache σ) !! i = Some s -> dirty s = false ->
  (forall j t, slots (cache σ) !! j = Some t -> holds block dev t = false) ->
  dvalid dev block -> length data = 512%nat ->
  (d = false -> data = content (disk σ) dev block) ->
  let σ' := BState (occupy i s dev block data d (set_highest h (cache σ))) (disk σ) in
  inv σ' /\ ready k (if d then w else S w) (cache σ') /\
  forall dev' block', dvalid dev' block' ->
    view σ' dev' block' = if decide ((dev', block') = (dev, block)) then data
                          else view σ dev' block'.
Proof.
  intros Hinv Hr Hh Hi Hd Hmiss Hv Hlen Hdata σ'.
  assert (0 <= block_lru s < BLOCK_MAX_LRU - Z.of_nat (S k)) as Hlru.
  { apply Hr. by eapply list_elem_of_lookup_2. }
  destruct (stamp_bounds k _ _ Hlru Hh) as [Est Hb].
  set (s' := Slot d (h + 1) block data dev).
  assert (slots (cache σ') = <[i := s']> (slots (cache σ))) as Hsl.
  { unfold σ', occupy. simpl. by rewrite Est. }
  destruct (replace_spec σ (cache σ') i s s') as [Hinv' Hview]; try done.
  - split; simpl; [done|intros []; by eapply dvalid_not_free|done].
  - simpl. unfold used. by eapply dvalid_not_free.
  - intros j t _ Ht. simpl. by rewrite (Hmiss j t Ht).
  - congruence.
  - split; [done|]. split; [|exact Hview].
    assert (highest (cache σ') = h + 1) as Hhi by (unfold σ', occupy; simpl; by rewrite Est).
    eapply (ready_replace k (S w) _ _ i s s') in Hsl as Hr'; [|done|done|done|by rewrite Hhi].
    simpl in Hr'. destruct d; [by rewrite Nat.sub_0_r in Hr'|done].
Qed.

(** The block is cached: its buffer is read or overwritten in place. *)
Lemma hit_spec σ k w i s dev block data d :
  inv σ -> ready (S k) (S w) (cache σ) ->
  slots (cache σ) !! i = Some s -> holds block dev s = true ->
  dvalid dev block -> length data = 512%nat ->
  (d = dirty s /\ data = block_array s \/ d = true) ->
  let σ' := BState (set_curr i (set_slot i
     (Slot d (bump (block_lru s)) (block_map s) data (block_dev s)) (cache σ))) (disk σ) in
  inv σ' /\ ready k (if decide (d = dirty s) then S w else w) (cache σ') /\
  forall dev' block', dvalid dev' block' ->
    view σ' dev' block' = if decide ((dev', block') = (dev, block)) then data
                          else view σ dev' block'.
Proof.
  intros Hinv Hr Hi Hh Hv Hlen Hd σ'. pose proof Hh as Hk. apply holds_true in Hk as [<- <-].
  set (s' := Slot d (bump (block_lru s)) (block_map s) data (block_dev s)).
  pose proof (dvalid_not_free _ _ Hv) as Hu.
  destruct (replace_spec σ (cache σ') i s s') as [Hinv' Hview]; try done.
  - intros j t Hji Hj Ht. apply Hji. symmetry.
    eapply cache_unique; [apply Hinv|exact Hi|exact Hj|exact Hu|exact Ht].
  - simpl. intros Ed. destruct Hd as [[-> ->] | ->]; [|done].
    destruct Hinv as [_ Hco]. by eapply Hco.
  - split; [done|]. split; [|done].
    assert (0 <= block_lru s < BLOCK_MAX_LRU - Z.of_nat (S k)) as Hlru.
    { apply Hr. by eapply list_elem_of_lookup_2. }
    pose proof Hr as (Hhi & Hl & Hw).
    split; [simpl; lia|]. split.
    + eapply (ready_replace k (S w)); [done|done|reflexivity|by apply bump_bounds|simpl; lia].
    + simpl. pose proof (clean_count_insert _ _ _ s' Hi) as E. unfold s' in E. simpl in E.
      case_decide as E'; [rewrite E' in *|]; destruct d, (dirty s); try done; lia.
Qed.

Lemma block_read_spec σ k w dev block data :
  inv σ -> ready (S k) (S w) (cache σ) -> dvalid dev block ->
  exists σ', block_read dev block (Some data) σ = Ret ((BLOCK_OK, Some (view σ dev block)), σ') /\
    disk σ' = disk σ /\ inv σ' /\ ready k (S w) (cache σ') /\
    forall dev' block', dvalid dev' block' -> view σ' dev' block' = view σ dev' block'.
Proof.
  intros Hinv Hr Hv. pose proof (dvalid_range _ _ Hv) as Hrange.
  unfold block_read. rewrite bool_decide_false by (intros [?|[?|?]]; [lia|lia|done]).
  unfold mbind, st_bind, update_cache, gets. cbn [cache disk].
  fold (searching σ). change (norm_curr (cache σ)) with (cache (searching σ)).
  pose proof (searching_inv _ Hinv) as Hinv'. pose proof (searching_ready _ _ _ Hr) as Hr'.
  destruct (cache_find _ _ _) as [i|] eqn:Ef.
  - destruct (cache_find_Some _ _ _ _ Ef) as (s & Hi & Hh).
    unfold buffer. cbn [cache]. rewrite Hi.
    destruct (hit_spec (searching σ) k w i s dev block (block_array s) (dirty s))
      as (H1 & H2 & H3); auto.
    { eapply ok_length, cache_slot; [apply Hinv'|exact Hi]. }
    rewrite decide_True in H2 by done.
    rewrite <- (searching_view σ), (view_hit _ _ _ i s) by (done || apply Hinv').
    eexists. split; [reflexivity|]. split; [done|]. split; [exact H1|]. split; [exact H2|].
    intros dev' block' Hv'. rewrite <- (searching_view σ), H3 by done.
    case_decide as E; [|done]. injection E as -> ->.
    symmetry. eapply view_hit; eauto. apply Hinv'.
  - pose proof (find_None_spec _ _ _ Hinv Ef) as Hmiss0.
    destruct (norm_curr_spec (cache σ)) as (Es & _ & _).
    destruct (victim_choice (cache (searching σ)) k w) as (Hh & i & s & Hi & Hd & Hc);
      [apply Hinv'|done|].
    set (v := victim_scan _ _ _) in *.
    set (σ1 := BState (set_highest (new_highest v) (cache (searching σ))) (disk σ)).
    assert (fetch i dev block (Some data) σ1 = Ret ((BLOCK_OK, Some (content (disk σ) dev block)),
      BState (occupy i s dev block (content (disk σ) dev block) false (cache σ1)) (disk σ)))
      as Hfetch by exact (fetch_spec σ1 i s dev block (Some data) Hi Hv).
    destruct (occupy_spec (searching σ) (new_highest v) k w i s dev block
      (content (disk σ) dev block) false) as (H1 & H2 & H3); auto using content_length.
    { intros j t Ht. eapply Hmiss0. by rewrite <- Es. }
    rewrite (view_miss σ) by done. eexists. split.
    { destruct Hc as [->|[-> ->]]; exact Hfetch. }
    split; [done|]. split; [exact H1|]. split; [exact H2|].
    intros dev' block' Hv'. etrans; [by apply H3|]. rewrite searching_view.
    case_decide as E; [|done]. injection E as -> ->. by rewrite view_miss.
Qed.

Lemma block_write_spec σ k w dev block data :
  inv σ -> ready (S k) (S w) (cache σ) -> dvalid dev block -> length data = 512%nat ->
  exists σ', block_write dev block data σ = Ret (BLOCK_OK, σ') /\
    inv σ' /\ ready k w (cache σ') /\
    forall dev' block', dvalid dev' block' ->
      view σ' dev' block' = if decide ((dev', block') = (dev, block)) then data
                            else view σ dev' block'.
Proof.
  intros Hinv Hr Hv Hlen.
  unfold block_write, mbind, st_bind, update_cache, gets. cbn [cache disk].
  fold (searching σ). change (norm_curr (cache σ)) with (cache (searching σ)).
  pose proof (searching_inv _ Hinv) as Hinv'. pose proof (searching_ready _ _ _ Hr) as Hr'.
  destruct (cache_find _ _ _) as [i|] eqn:Ef.
  - destruct (cache_find_Some _ _ _ _ Ef) as (s & Hi & Hh).
    unfold buffer. cbn [cache]. rewrite Hi.
    destruct (hit_spec (searching σ) k w i s dev block data true) as (H1 & H2 & H3); auto.
    eexists. split; [reflexivity|]. split; [exact H1|]. split.
    { destruct (decide _); [|done]. eapply ready_weaken; [exact H2|lia]. }
    intros dev' block' Hv'. rewrite H3 by done. by rewrite searching_view.
  - pose proof (find_None_spec _ _ _ Hinv Ef) as Hmiss0.
    destruct (norm_curr_spec (cache σ)) as (Es & _ & _).
    destruct (victim_choice (cache (searching σ)) k w) as (Hh & i & s & Hi & Hd & Hc);
      [apply Hinv'|done|].
    set (v := victim_scan _ _ _) in *.
    destruct (occupy_spec (searching σ) (new_highest v) k w i s dev block data true)
      as (H1 & H2 & H3); auto.
    { intros j t Ht. eapply Hmiss0. by rewrite <- Es. }
    { done. }
    eexists. split.
    { destruct Hc as [->|[-> ->]]; unfold buffer; cbn [cache slots set_highest];
        rewrite Hi; reflexivity. }
    split; [exact H1|]. split; [exact H2|].
    intros dev' block' Hv'. etrans; [by apply H3|]. by rewrite searching_view.
Qed.

(** *** Writing buffers back *)

(** The device now has what buffer [i] holds. *)
Lemma writeback_spec σ i s d' :
  inv σ -> slots (cache σ) !! i = Some s -> used s ->
  content d' (block_dev s) (block_map s) = block_array s ->
  (forall dev block, dvalid dev block -> (dev, block) <> (block_dev s, block_map s) ->
     content d' dev block = content (disk σ) dev block) ->
  inv (BState (cache σ) d') /\
  forall dev block, dvalid dev block -> view (BState (cache σ) d') dev block = view σ dev block.
Proof.
  intros [Hok Hco] Hi Hu Hd' Hother. split.
  - split; [done|]. intros j t Hj Hut Ht. simpl in *.
    destruct (decide ((block_dev t, block_map t) = (block_dev s, block_map s))) as [E|E].
    + injection E as E1 E2. assert (i = j) as <-.
      { eapply (cache_unique _ Hok); [done..|]. by apply holds_true. }
      assert (s = t) as <- by congruence. done.
    + rewrite Hother; [by eapply Hco|by eapply cache_slot|done].
  - intros dev block Hv. destruct (cached_dec σ dev block) as [(j & t & Hj & Hh)|Hmiss].
    + by rewrite !(view_hit _ _ _ j t).
    + rewrite !view_miss by done. apply Hother; [done|]. intros [= -> ->].
      specialize (Hmiss i s Hi). rewrite (proj2 (holds_true _ _ s)) in Hmiss; done.
Qed.

Lemma find_in_use σ i s :
  inv σ -> slots (cache σ) !! i = Some s -> used s ->
  cache_find (cache (searching σ)) (block_map s) (block_dev s) = Some i.
Proof.
  intros Hinv Hi Hu. destruct (norm_curr_spec (cache σ)) as (Es & _ & _).
  destruct (cache_find _ _ _) as [j|] eqn:Ef.
  - apply cache_find_Some in Ef as (t & Hj & Ht). simpl in Hj. rewrite Es in Hj.
    f_equal. symmetry. eapply cache_unique; [apply Hinv|done..].
  - pose proof (find_None_spec _ _ _ Hinv Ef i s Hi) as E.
    rewrite (proj2 (holds_true _ _ s)) in E; done.
Qed.

Lemma dirty_used σ i s :
  inv σ -> slots (cache σ) !! i = Some s -> dirty s = true -> used s.
Proof.
  intros [Hok _] Hi Hd. destruct (decide (block_map s = BLOCK_FREE)) as [E|]; [|done].
  rewrite (ok_free s) in Hd; [done|by eapply cache_slot|unfold used; auto].
Qed.

(** [block_disk_write] of what a buffer holds, as [block_sync] calls it. *)
Lemma disk_write_own_buffer σ i s :
  inv σ -> slots (cache σ) !! i = Some s -> used s ->
  exists d', block_disk_write (block_dev s) (block_map s) (block_array s) σ =
      Ret (BLOCK_OK, BState (cache (searching σ)) d') /\
    content d' (block_dev s) (block_map s) = block_array s /\
    inv (BState (cache (searching σ)) d') /\
    forall dev block, dvalid dev block ->
      view (BState (cache (searching σ)) d') dev block = view σ dev block.
Proof.
  intros Hinv Hi Hu. pose proof (find_in_use _ _ _ Hinv Hi Hu) as Ef.
  destruct (norm_curr_spec (cache σ)) as (Es & _ & _).
  assert (slots (cache (searching σ)) !! i = Some s) as Hi' by (simpl; by rewrite Es).
  assert (slot_ok s) as [Hlen _ Hval] by (eapply cache_slot; [apply Hinv|done]).
  destruct (dev_write_content (disk σ) (block_dev s) (block_map s) (block_array s))
    as (d' & Hw & Hc & Ho); auto.
  exists d'. unfold block_disk_write, disk_write_source, mbind, st_bind, update_cache, gets.
  cbn [cache disk]. change (norm_curr (cache σ)) with (cache (searching σ)). rewrite Ef.
  unfold buffer. cbn [cache]. rewrite Hi', bool_decide_false by auto. simpl.
  rewrite Es, Hi. unfold device_write. simpl. rewrite Hw. simpl.
  split; [done|]. split; [done|].
  destruct (writeback_spec (searching σ) i s d') as [H1 H2]; auto using searching_inv.
  split; [exact H1|]. intros dev block Hv. etrans; [by apply H2|apply searching_view].
Qed.

Definition clean_for (dev : Z) (lo hi : nat) (l : list slot) : Prop :=
  forall i s, (lo <= i < hi)%nat -> l !! i = Some s -> block_dev s = dev -> dirty s = false.

(** One turn of [block_sync]'s loop on a modified buffer of the device. *)
Lemma sync_step σ i s :
  inv σ -> slots (cache σ) !! i = Some s -> dirty s = true ->
  exists σ1 s' σ2,
    block_disk_write (block_dev s) (block_map s) (block_array s) σ = Ret (BLOCK_OK, σ1) /\
    slots (cache σ1) !! i = Some s /\
    s' = Slot false (bump (block_lru s)) (block_map s) (block_array s) (block_dev s) /\
    σ2 = BState (set_slot i s' (cache σ1)) (disk σ1) /\
    inv σ2 /\ slots (cache σ2) = <[i := s']> (slots (cache σ)) /\
    highest (cache σ2) = highest (cache σ) /\
    forall dev block, dvalid dev block -> view σ2 dev block = view σ dev block.
Proof.
  intros Hinv Hi Hd. pose proof (dirty_used _ _ _ Hinv Hi Hd) as Hu.
  destruct (disk_write_own_buffer _ _ _ Hinv Hi Hu) as (d' & Hw & Hc & Hinv1 & Hview1).
  destruct (norm_curr_spec (cache σ)) as (Es & Eh & _).
  assert (slot_ok s) as [Hlen _ Hval] by (eapply cache_slot; [apply Hinv|done]).
  set (σ1 := BState (cache (searching σ)) d') in *.
  set (s' := Slot false (bump (block_lru s)) (block_map s) (block_array s) (block_dev s)).
  assert (slots (cache σ1) !! i = Some s) as Hi1 by (simpl; by rewrite Es).
  destruct (replace_spec σ1 (set_slot i s' (cache σ1)) i s s') as [H1 H2]; try done.
  - intros j t Hji Hj Ht. apply Hji. symmetry.
    by eapply cache_unique; [apply Hinv1|exact Hi1|exact Hj|..].
  - intros. by apply holds_true.
  - exists σ1, s', (BState (set_slot i s' (cache σ1)) (disk σ1)).
    split; [done|]. split; [done|]. split; [done|]. split; [done|]. split; [done|].
    split; [simpl; by rewrite Es|]. split; [done|].
    intros dev block Hv. rewrite H2 by done. case_decide as E; [|by apply Hview1].
    injection E as -> ->. rewrite <- Hview1 by done. symmetry. simpl.
    eapply view_hit; [apply Hinv1|auto|exact Hi1|by apply holds_true].
Qed.

(** What the loop has done from buffer [i] on. *)
Record synced (dev : Z) (i : nat) (σ σ' : bstate D) : Prop := {
  synced_inv : inv σ';
  synced_clean : clean_for dev 0 BLOCK_ARRAY_SIZE (slots (cache σ'));
  synced_count : (clean_count (slots (cache σ)) <= clean_count (slots (cache σ')))%nat;
  synced_lru j s' : slots (cache σ') !! j = Some s' ->
    exists s, slots (cache σ) !! j = Some s /\
      (block_lru s' = block_lru s \/ (i <= j)%nat /\ block_lru s' = bump (block_lru s));
  synced_highest : highest (cache σ') = highest (cache σ);
  synced_view dev' block : dvalid dev' block -> view σ' dev' block = view σ dev' block
}.

Lemma synced_skip dev i σ σ' : synced dev (S i) σ σ' -> synced dev i σ σ'.
Proof.
  intros [? ? ? Hl ? ?]. split; auto. intros j s' (s & Hs & Hb)%Hl. exists s.
  split; [done|]. destruct Hb as [?|[? ?]]; [auto|right; split; [lia|done]].
Qed.

Lemma synced_step dev i s s' σ σ2 σ' :
  slots (cache σ) !! i = Some s -> dirty s = true -> dirty s' = false ->
  block_lru s' = bump (block_lru s) ->
  slots (cache σ2) = <[i := s']> (slots (cache σ)) ->
  highest (cache σ2) = highest (cache σ) ->
  (forall dev' block, dvalid dev' block -> view σ2 dev' block = view σ dev' block) ->
  synced dev (S i) σ2 σ' -> synced dev i σ σ'.
Proof.
  intros Hi Hd Hd' Hb Hsl Hh Hv [? ? Hc Hl Hh2 Hv2]. split; auto; try congruence.
  - pose proof (clean_count_insert _ _ _ s' Hi) as E. rewrite <- Hsl, Hd, Hd' in E. lia.
  - intros j t (u & Hu & Ht)%Hl. rewrite Hsl in Hu. destruct (decide (j = i)) as [->|].
    + rewrite list_lookup_insert_eq in Hu by (by eapply lookup_lt_Some).
      injection Hu as <-. exists s. split; [done|]. right. split; [done|].
      destruct Ht as [Ht|[? _]]; [congruence|lia].
    + rewrite list_lookup_insert_ne in Hu by done. exists u. split; [done|].
      destruct Ht as [?|[? ?]]; [auto|right; split; [lia|done]].
  - intros. rewrite Hv2, Hv; done.
Qed.

Lemma sync_loop_spec n : forall σ i dev,
  inv σ -> (i + n = BLOCK_ARRAY_SIZE)%nat -> clean_for dev 0 i (slots (cache σ)) ->
  exists σ', sync_loop dev i n BLOCK_OK σ = Ret (BLOCK_OK, σ') /\ synced dev i σ σ'.
Proof.
  induction n as [|n IH]; intros σ i dev Hinv Hn Hclean.
  { exists σ. rewrite Nat.add_0_r in Hn. subst i. split; [done|]. split; eauto. }
  destruct (lookup_lt_is_Some_2 (slots (cache σ)) i) as [s Hi].
  { rewrite (cache_length _ (proj1 Hinv)). lia. }
  simpl. unfold mbind, st_bind, buffer at 1. rewrite Hi.
  destruct (dirty s && (block_dev s =? dev)) eqn:Hc.
  - apply andb_true_iff in Hc as [Hd <-%Z.eqb_eq].
    destruct (sync_step σ i s Hinv Hi Hd)
      as (σ1 & s' & σ2 & Hw & Hi1 & Es' & Eσ2 & Hinv2 & Hsl & Hh & Hview).
    rewrite Hw. simpl. unfold buffer. rewrite Hi1. unfold update_cache.
    replace (BState _ _) with σ2 by (by rewrite Eσ2, Es').
    destruct (IH σ2 (S i) (block_dev s)) as (σ' & H1 & H2); [done|lia|..].
    + intros j t Hj. rewrite Hsl. destruct (decide (j = i)) as [->|].
      * rewrite list_lookup_insert_eq by (by eapply lookup_lt_Some). intros [= <-] _.
        by rewrite Es'.
      * rewrite list_lookup_insert_ne by done. apply Hclean. lia.
    + exists σ'. split; [exact H1|]. by eapply synced_step; [..|exact H2]; try done; rewrite Es'.
  - destruct (IH σ (S i) dev) as (σ' & H1 & H2); [done|lia|..].
    + intros j t Hj Ht Hdev. destruct (decide (j = i)) as [->|].
      * simplify_eq. by rewrite Z.eqb_refl, andb_true_r in Hc.
      * apply (Hclean j t); [lia|done..].
    + exists σ'. split; [exact H1|]. by apply synced_skip.
Qed.

(** After a sync the medium of the device has everything the cache had. *)
Lemma clean_content σ dev block :
  inv σ -> clean_for dev 0 BLOCK_ARRAY_SIZE (slots (cache σ)) -> dvalid dev block ->
  content (disk σ) dev block = view σ dev block.
Proof.
  intros [Hok Hco] Hc Hv. destruct (cached_dec σ dev block) as [(i & s & Hi & Hh)|Hmiss].
  - rewrite (view_hit _ _ _ i s) by done. apply holds_true in Hh as [<- <-]. symmetry.
    eapply Hco; [done|by eapply dvalid_not_free|]. eapply (Hc i); [|done..].
    pose proof (lookup_lt_Some _ _ _ Hi). rewrite (cache_length _ Hok) in *. lia.
  - by rewrite view_miss.
Qed.

Lemma synced_ready dev i k w σ σ' :
  ready (S k) w (cache σ) -> synced dev i σ σ' -> ready k w (cache σ').
Proof.
  intros (Hh & Hl & Hw) [_ _ Hc Hlru Hhigh _]. split; [rewrite Hhigh; lia|]. split; [|lia].
  intros s' Hs'. apply list_elem_of_lookup in Hs' as [j Hj].
  destruct (Hlru _ _ Hj) as (s & Hs & Hb).
  specialize (Hl s (list_elem_of_lookup_2 _ _ _ Hs)).
  destruct Hb as [->|[_ ->]]; [lia|by apply bump_bounds].
Qed.

Lemma block_sync_spec σ k w dev :
  inv σ -> ready (S k) w (cache σ) ->
  exists σ', block_sync dev σ = Ret (BLOCK_OK, σ') /\ inv σ' /\ ready k w (cache σ') /\
    forall dev' block, dvalid dev' block ->
      view σ' dev' block = view σ dev' block /\
      (dev' = dev -> content (disk σ') dev' block = view σ dev' block).
Proof.
  intros Hinv Hr. destruct (sync_loop_spec BLOCK_ARRAY_SIZE σ 0 dev)
    as (σ' & H1 & H2); [done|done|intros i s Hi; lia|].
  exists σ'. split; [exact H1|]. split; [apply H2|]. split; [by eapply synced_ready|].
  intros dev' block Hv. split; [by eapply synced_view|]. intros ->.
  rewrite clean_content; [by eapply synced_view|apply H2..|done].
Qed.

Lemma release_spec σ i s s' c' :
  inv σ -> slots (cache σ) !! i = Some s ->
  (used s -> block_array s = content (disk σ) (block_dev s) (block_map s)) ->
  slots c' = <[i := s']> (slots (cache σ)) ->
  dirty s' = false -> block_map s' = BLOCK_FREE -> length (block_array s') = 512%nat ->
  inv (BState c' (disk σ)) /\
  forall dev block, dvalid dev block -> view (BState c' (disk σ)) dev block = view σ dev block.
Proof.
  intros [Hok Hco] Hi Hd Hc' Hd' Hf Hlen.
  pose proof (replace_lookup _ c' _ s s' Hi Hc') as Hlook.
  assert (cache_ok c') as Hok'.
  { split.
    - rewrite Hc', length_insert. apply Hok.
    - intros j t [[-> ->]|[_ Hj]]%Hlook; [by split|by eapply cache_slot].
    - intros j k t u [[-> ->]|[_ Hj]]%Hlook [[-> ->]|[_ Hk]]%Hlook Hu Hh; try done.
      + apply holds_true in Hh as [E _]. unfold used in Hu. congruence.
      + by eapply (cache_unique _ Hok). }
  split.
  - split; [done|]. intros j t [[-> ->]|[_ Hj]]%Hlook Hu Ht; [done|by eapply Hco].
  - intros dev block Hv. pose proof (dvalid_not_free _ _ Hv).
    assert (forall t, t = s' -> holds block dev t = false) as Hs'.
    { intros t ->. apply not_true_iff_false. rewrite holds_true. intros [E _]. congruence. }
    destruct (cached_dec σ dev block) as [(j & t & Hj & Hh)|Hmiss].
    + destruct (decide (j = i)) as [->|Hji].
      * simplify_eq. rewrite (view_hit σ _ _ i s) by done.
        pose proof Hh as Hk. apply holds_true in Hk as [E1 E2].
        rewrite view_miss; simpl.
        -- rewrite <- E1, <- E2. symmetry. apply Hd. unfold used; congruence.
        -- intros k u [[-> ->]|[Hk Hu]]%Hlook; [by apply Hs'|].
           apply not_true_iff_false. rewrite holds_true. intros [? ?]. apply Hk. symmetry.
           eapply (cache_unique _ Hok i k); [done..|unfold used; congruence|].
           apply holds_true. split; congruence.
      * rewrite (view_hit σ _ _ j t) by done. apply (view_hit _ _ _ j t); [done..| |done].
        simpl. rewrite Hc', list_lookup_insert_ne; done.
    + rewrite !view_miss; [done|done|]. simpl.
      intros k u [[-> ->]|[_ Hu]]%Hlook; [by apply Hs'|by eapply Hmiss].
Qed.

Lemma view_length σ dev block :
  inv σ -> dvalid dev block -> length (view σ dev block) = 512%nat.
Proof.
  intros [Hok Hco] Hv. destruct (cached_dec σ dev block) as [(i & s & Hi & Hh)|Hmiss].
  - rewrite (view_hit _ _ _ i s) by done. by eapply ok_length, cache_slot.
  - rewrite view_miss by done. by apply content_length.
Qed.

Lemma ready_pred k w c : ready (S k) w c -> ready k w c.
Proof.
  intros (Hh & Hl & Hw). split; [lia|]. split; [|done]. intros s Hs. specialize (Hl s Hs). lia.
Qed.

(** The write-back of [block_free], when the buffer is modified. *)
Lemma flush_spec σ i s :
  inv σ -> slots (cache σ) !! i = Some s -> used s ->
  exists d', (if dirty s then device_write (block_dev s) (block_map s) (block_array s)
              else mret DEV_OK) σ = Ret (DEV_OK, BState (cache σ) d') /\
    content d' (block_dev s) (block_map s) = block_array s /\
    inv (BState (cache σ) d') /\ forall dev block, dvalid dev block ->
      view (BState (cache σ) d') dev block = view σ dev block.
Proof.
  intros Hinv Hi Hu. assert (slot_ok s) as [Hlen _ Hval] by (eapply cache_slot; [apply Hinv|done]).
  destruct (dirty s) eqn:Hd.
  - destruct (dev_write_content (disk σ) (block_dev s) (block_map s) (block_array s))
      as (d' & Hw & Hc & Ho); [auto|done|].
    exists d'. unfold device_write. rewrite Hw. split; [done|]. split; [done|].
    by apply (writeback_spec σ i s d').
  - exists (disk σ). destruct σ as [c d]. split; [done|]. split; [|done].
    symmetry. destruct Hinv as [_ Hco]. by eapply Hco.
Qed.

Lemma free_slot_ready k w i s c :
  ready (S k) w c -> slots c !! i = Some s ->
  ready k w (set_curr i (set_slot i (Slot false 0 BLOCK_FREE (block_array s) DEV_NODEV) c)).
Proof.
  intros Hr Hi. pose proof Hr as (Hh & Hl & Hw).
  specialize (Hl s (list_elem_of_lookup_2 _ _ _ Hi)).
  eapply (ready_replace k w _ _ i s (Slot false 0 BLOCK_FREE (block_array s) DEV_NODEV));
    [done|done|reflexivity|simpl; lia|simpl; lia].
Qed.

Lemma block_free_spec σ k w dev block :
  inv σ -> ready (S k) w (cache σ) -> dvalid dev block ->
  exists σ', block_free dev block σ = Ret (BLOCK_OK, σ') /\ inv σ' /\ ready k w (cache σ') /\
    content (disk σ') dev block = view σ dev block /\
    forall dev' block', dvalid dev' block' -> view σ' dev' block' = view σ dev' block'.
Proof.
  intros Hinv Hr Hv. pose proof (dvalid_range _ _ Hv) as Hrange.
  unfold block_free. rewrite bool_decide_false by (intros [?|?]; lia).
  unfold mbind, st_bind, gets. cbn [cache].
  destruct (scan _ _ _ _ _) as [i|] eqn:Ef.
  - apply scan_Some in Ef as (_ & s & Hi & Hh). unfold buffer. rewrite Hi.
    rewrite (view_hit σ dev block i s) by (done || apply Hinv).
    apply holds_true in Hh as [<- <-]. pose proof (dvalid_not_free _ _ Hv) as Hu.
    destruct (flush_spec _ _ _ Hinv Hi Hu) as (d' & Hf & Hc & Hi' & Hv').
    simpl. rewrite Hf. simpl.
    destruct (release_spec (BState (cache σ) d') i s
      (Slot false 0 BLOCK_FREE (block_array s) DEV_NODEV) (set_curr i (set_slot i
      (Slot false 0 BLOCK_FREE (block_array s) DEV_NODEV) (cache σ)))) as [Hinv2 Hview2]; auto.
    { exact (ok_length s (cache_slot (cache σ) (proj1 Hinv) i s Hi)). }
    eexists. split; [reflexivity|]. split; [exact Hinv2|].
    split; [by apply free_slot_ready|]. split; [done|].
    intros dev' block' Hv2. etrans; [by apply Hview2|by apply Hv'].
  - exists σ. split; [done|]. split; [done|]. split; [by apply ready_pred|].
    split; [|done]. rewrite view_miss; [done|]. intros j s Hj.
    pose proof (cache_length _ (proj1 Hinv)) as Hlen.
    pose proof (lookup_lt_Some _ _ _ Hj).
    apply (scan_None (slots (cache σ)) block dev 0 BLOCK_ARRAY_SIZE) with (j := j); (done || lia).
Qed.

(** *** The cache implements a store of blocks *)

Inductive request : Type :=
| Read (dev block : Z)
| Write (dev block : Z) (data : list Z)
| Sync (dev : Z)
| Free (dev block : Z).

Definition serve (r : request) : st (bstate D) (block_rtvl * option (list Z)) :=
  match r with
  | Read dev block => block_read dev block (Some [])
  | Write dev block data => r ← block_write dev block data; mret (r, None)
  | Sync dev => r ← block_sync dev; mret (r, None)
  | Free dev block => r ← block_free dev block; mret (r, None)
  end.

Fixpoint serve_all (rs : list request) : st (bstate D) (list (block_rtvl * option (list Z))) :=
  match rs with
  | [] => mret []
  | r :: rs => x ← serve r; xs ← serve_all rs; mret (x :: xs)
  end.

(** The specification: a map from addresses to contents, on which only a
    write has an effect and nothing ever fails. *)
Definition spec_serve (r : request) (m : Z * Z -> list Z)
  : (block_rtvl * option (list Z)) * (Z * Z -> list Z) :=
  match r with
  | Read dev block => ((BLOCK_OK, Some (m (dev, block))), m)
  | Write dev block data =>
      ((BLOCK_OK, None), fun a => if decide (a = (dev, block)) then data else m a)
  | Sync _ | Free _ _ => ((BLOCK_OK, None), m)
  end.

Fixpoint spec_all (rs : list request) (m : Z * Z -> list Z)
  : list (block_rtvl * option (list Z)) * (Z * Z -> list Z) :=
  match rs with
  | [] => ([], m)
  | r :: rs =>
      let '(x, m1) := spec_serve r m in let '(xs, m2) := spec_all rs m1 in (x :: xs, m2)
  end.

Definition valid_request (r : request) : Prop :=
  match r with
  | Read dev block | Free dev block => dvalid dev block
  | Write dev block data => dvalid dev block /\ length data = 512%nat
  | Sync _ => True
  end.

Definition is_write (r : request) : bool :=
  match r with Write _ _ _ => true | _ => false end.
Fixpoint writes (rs : list request) : nat :=
  match rs with [] => 0 | r :: rs => (if is_write r then 1 else 0) + writes rs end.

Definition implements (σ : bstate D) (m : Z * Z -> list Z) : Prop :=
  forall dev block, dvalid dev block -> view σ dev block = m (dev, block).

Lemma serve_spec σ k w r m :
  inv σ -> ready (S k) (S w) (cache σ) -> valid_request r -> implements σ m ->
  exists σ', serve r σ = Ret (fst (spec_serve r m), σ') /\ inv σ' /\
    ready k (if is_write r then w else S w) (cache σ') /\ implements σ' (snd (spec_serve r m)).
Proof.
  intros Hinv Hr Hv Hm. destruct r as [dev block|dev block data|dev|dev block]; simpl in *.
  - destruct (block_read_spec _ _ _ _ _ [] Hinv Hr Hv) as (σ' & E & _ & ? & ? & Hview).
    exists σ'. rewrite E, Hm by done. split; [done|]. split; [done|]. split; [done|].
    intros dev' block' Hv'. rewrite Hview by done. by apply Hm.
  - destruct Hv as [Hv Hlen].
    destruct (block_write_spec _ _ _ _ _ _ Hinv Hr Hv Hlen) as (σ' & E & ? & ? & Hview).
    exists σ'. unfold mbind, st_bind. rewrite E. split; [done|]. split; [done|]. split; [done|].
    intros dev' block' Hv'. rewrite Hview by done. by case_decide; [|apply Hm].
  - destruct (block_sync_spec _ _ _ dev Hinv Hr) as (σ' & E & ? & ? & Hview).
    exists σ'. unfold mbind, st_bind. rewrite E. split; [done|]. split; [done|]. split; [done|].
    intros dev' block' Hv'. destruct (Hview _ _ Hv') as [-> _]. by apply Hm.
  - destruct (block_free_spec _ _ _ _ _ Hinv Hr Hv) as (σ' & E & ? & ? & _ & Hview).
    exists σ'. unfold mbind, st_bind. rewrite E. split; [done|]. split; [done|]. split; [done|].
    intros dev' block' Hv'. rewrite Hview by done. by apply Hm.
Qed.

(** C12: the buffer cache refines a plain store of blocks.  Any sequence of
    reads, writes, syncs and frees of valid blocks returns what the store
    returns and leaves the store's contents visible, as long as the cache has
    more clean buffers than the sequence has writes and the use counts are
    that far from their maximum. *)
Theorem cache_refines_store rs : forall σ m,
  inv σ -> ready (length rs) (S (writes rs)) (cache σ) -> Forall valid_request rs ->
  implements σ m ->
  exists σ', serve_all rs σ = Ret (fst (spec_all rs m), σ') /\ inv σ' /\
    implements σ' (snd (spec_all rs m)).
Proof.
  induction rs as [|r rs IH]; intros σ m Hinv Hr Hv Hm; simpl.
  { eauto. }
  inversion Hv as [|? ? Hv1 Hv2]; subst. simpl in Hr.
  destruct (serve_spec σ (length rs) ((if is_write r then 1 else 0) + writes rs) r m)
    as (σ1 & E1 & Hinv1 & Hr1 & Hm1); [done..|].
  destruct (spec_serve r m) as [x m1]. simpl in *.
  destruct (IH σ1 m1) as (σ2 & E2 & Hinv2 & Hm2); [done| |done|done|].
  { by destruct (is_write r). }
  destruct (spec_all rs m1) as [xs m2]. simpl in *.
  exists σ2. unfold mbind, st_bind. rewrite E1. simpl. rewrite E2. done.
Qed.

(** The first [block_open] (or the one after [block_reinit]) empties the
    cache: what is visible is what the medium holds. *)
Lemma block_open_spec σ cmos path dev k :
  init (cache σ) = false -> 0 <= highest (cache σ) < BLOCK_MAX_LRU - Z.of_nat k ->
  exists σ', block_open cmos (Some path) (Some dev) σ =
      Ret ((BLOCK_OK, Some (snd (dev_open cmos dev))), σ') /\
    disk σ' = disk σ /\ init (cache σ') = true /\ inv σ' /\ ready k 128 (cache σ') /\
    forall dev' block, dvalid dev' block -> view σ' dev' block = content (disk σ) dev' block.
Proof.
  intros Hinit Hh. unfold block_open, dev_open, mbind, st_bind, update_cache. rewrite Hinit.
  eexists. split; [reflexivity|]. cbn [disk cache init]. split; [done|]. split; [done|].
  assert (forall i s, replicate BLOCK_ARRAY_SIZE empty_slot !! i = Some s -> s = empty_slot)
    as Hall by (intros i s Hi; by apply lookup_replicate in Hi as [-> _]).
  split; [split; [split|]|split; [split; [|split]|]]; cbn [slots highest cache].
  - apply length_replicate.
  - intros i s ->%Hall. split; [done|done|intros []; done].
  - intros i j s t ->%Hall _ []. done.
  - intros i s ->%Hall []. done.
  - done.
  - intros s [i Hi]%list_elem_of_lookup. rewrite (Hall _ _ Hi). simpl. lia.
  - done.
  - intros dev' block Hv. rewrite view_miss; [done|]. intros i s ->%Hall. apply not_true_iff_false.
    intros [E _]%holds_true. simpl in E. apply (dvalid_not_free _ _ Hv). done.
Qed.

(** *** When every buffer is modified

    The replaced buffer is then written to the address that is being
    requested, not to its own. *)

Lemma victim_scan_all_dirty l i v :
  (forall s, s ∈ l -> used s /\ dirty s = true) ->
  free_block_ptr (victim_scan l i v) = free_block_ptr v /\
  lowest_clean_block_ptr (victim_scan l i v) = lowest_clean_block_ptr v.
Proof.
  revert i v. induction l as [|s l IH]; intros i v Hl; simpl; [done|].
  destruct (Hl s ltac:(left)) as [Hu Hd]. unfold used in Hu. apply Z.eqb_neq in Hu.
  rewrite Hu. destruct (IH (S i) (victim_step i s v)) as [-> ->].
  { intros t Ht. apply Hl. by right. }
  simpl. by rewrite Hd.
Qed.

Lemma victim_scan_some_dirty l i v :
  (lowest_dirty_block_ptr v = None -> lowest_dirty_block v = BLOCK_MAX_LRU) ->
  (forall s, s ∈ l -> used s /\ dirty s = true /\ block_lru s < BLOCK_MAX_LRU) ->
  l <> [] \/ is_Some (lowest_dirty_block_ptr v) ->
  is_Some (lowest_dirty_block_ptr (victim_scan l i v)).
Proof.
  revert i v. induction l as [|s l IH]; intros i v Hv Hl Hne; simpl; [by destruct Hne|].
  destruct (Hl s ltac:(left)) as (Hu & Hd & Hlru). unfold used in Hu.
  apply Z.eqb_neq in Hu. rewrite Hu. apply IH; simpl.
  - destruct (dirty s && _); [done|auto].
  - intros t Ht. apply Hl. by right.
  - right. rewrite Hd. simpl. destruct (lowest_dirty_block_ptr v); [destruct (_ <? _); eauto|].
    rewrite Hv by done. apply Z.ltb_lt in Hlru. rewrite Hlru. eauto.
Qed.

Definition full_of_dirty (c : bcache) : Prop :=
  forall s, s ∈ slots c -> used s /\ dirty s = true /\ block_lru s < BLOCK_MAX_LRU.

Lemma victim_full c :
  cache_ok c -> full_of_dirty c ->
  let v := victim_scan (slots c) 0 (victim_init (highest c)) in
  free_block_ptr v = None /\ lowest_clean_block_ptr v = None /\
  exists i s, lowest_dirty_block_ptr v = Some i /\ slots c !! i = Some s.
Proof.
  intros Hok Hfull v.
  destruct (victim_scan_all_dirty (slots c) 0 (victim_init (highest c))) as [Hf Hcl].
  { intros s Hs. by destruct (Hfull s Hs) as (? & ? & _). }
  split; [done|]. split; [done|].
  destruct (victim_scan_some_dirty (slots c) 0 (victim_init (highest c))) as [i Hi].
  - done.
  - done.
  - left. intros E. pose proof (cache_length _ Hok) as Hl. by rewrite E in Hl.
  - destruct (victim_scan_dirty (slots c) 0 (victim_init (highest c)) i Hi)
      as [|(s & Hs & _ & _)]; [done|]. rewrite Nat.sub_0_r in Hs. eauto.
Qed.

(** Reading an uncached block when every buffer is modified returns the
    contents of some other, modified block [s], and from then on [s]'s own
    block shows what the medium had before the modification. *)
Theorem dirty_eviction_misplaces σ dev block data :
  inv σ -> full_of_dirty (cache σ) ->
  (forall i s, slots (cache σ) !! i = Some s -> block_dev s = dev) ->
  (forall i s, slots (cache σ) !! i = Some s -> block_map s <> block) ->
  dvalid dev block ->
  exists i s σ', slots (cache σ) !! i = Some s /\
    block_read dev block (Some data) σ = Ret ((BLOCK_OK, Some (block_array s)), σ') /\
    view σ' dev (block_map s) = content (disk σ) dev (block_map s).
Proof.
  intros Hinv Hfull Hdev Hmiss Hv. pose proof (dvalid_range _ _ Hv) as Hrange.
  destruct (norm_curr_spec (cache σ)) as (Es & _ & _).
  pose proof (searching_inv _ Hinv) as Hinv'.
  unfold block_read. rewrite bool_decide_false by (intros [?|[?|?]]; [lia|lia|done]).
  unfold mbind, st_bind, update_cache, gets. cbn [cache disk].
  fold (searching σ). change (norm_curr (cache σ)) with (cache (searching σ)).
  destruct (cache_find _ _ _) as [i|] eqn:Ef.
  { apply cache_find_Some in Ef as (s & Hi & [E _]%holds_true). simpl in Hi.
    rewrite Es in Hi. by destruct (Hmiss _ _ Hi). }
  destruct (victim_full (cache (searching σ))) as (-> & -> & i & s & -> & Hi).
  { apply Hinv'. }
  { unfold full_of_dirty. simpl. by rewrite Es. }
  simpl in Hi. rewrite Es in Hi. pose proof (Hdev _ _ Hi) as <-. exists i, s.
  assert (slot_ok s) as [Hlen _ Hval] by (eapply cache_slot; [apply Hinv|done]).
  destruct (dev_write_content (disk σ) (block_dev s) block (block_array s))
    as (d' & Hw & Hc & Ho); [done..|].
  unfold buffer. simpl. rewrite Es, Hi. simpl. unfold device_write. simpl. rewrite Hw. simpl.
  erewrite fetch_spec by (done || simpl; by rewrite Es). simpl. rewrite Hc.
  eexists. split; [done|]. split; [reflexivity|].
  destruct (Hfull s (list_elem_of_lookup_2 _ _ _ Hi)) as (Hu & _ & _).
  rewrite view_miss; simpl; [apply Ho; [auto|intros [= E]; by destruct (Hmiss _ _ Hi)]|].
  intros j t. unfold occupy. destruct (stamp _ _) as [lru h]. simpl. rewrite Es.
  destruct (decide (j = i)) as [->|].
  - rewrite list_lookup_insert_eq by (by eapply lookup_lt_Some). intros [= <-].
    apply not_true_iff_false. intros [E _]%holds_true. simpl in E. by destruct (Hmiss _ _ Hi).
  - rewrite list_lookup_insert_ne by done. intros Hj. apply not_true_iff_false. intros Hh.
    apply n. symmetry. eapply cache_unique; [apply Hinv|exact Hi|exact Hj|done..].
Qed.
End Coherence.

(** ** What the layers above rely on

    [BlockLaws] is the interface of the buffer cache: a store in which a block
    reads back what was last written to it, as long as the state is [bgood]
    for the operations to come (the first index counts operations, the second
    those that may modify a clean buffer). *)

Class BlockLaws (D : Type) `{PioDrive D} := {
  bvalid : Z -> Z -> Prop;
  bview : bstate D -> Z -> Z -> list Z;
  bgood : nat -> nat -> bstate D -> Prop;
  bvalid_range dev b : bvalid dev b -> 0 <= dev < 2 ^ 31 /\ 0 <= b < 4294967295;
  bgood_weaken k w k' w' σ : (k' <= k)%nat -> (w' <= w)%nat -> bgood k w σ -> bgood k' w' σ;
  bview_length k w σ dev b : bgood k w σ -> bvalid dev b -> length (bview σ dev b) = 512%nat;
  block_read_ok k w σ dev b data :
    bgood (S k) (S w) σ -> bvalid dev b ->
    exists σ', block_read dev b (Some data) σ = Ret ((BLOCK_OK, Some (bview σ dev b)), σ') /\
      bgood k (S w) σ' /\ forall dev' b', bvalid dev' b' -> bview σ' dev' b' = bview σ dev' b';
  block_write_ok k w σ dev b data :
    bgood (S k) (S w) σ -> bvalid dev b -> length data = 512%nat ->
    exists σ', block_write dev b data σ = Ret (BLOCK_OK, σ') /\
      bgood k w σ' /\ forall dev' b', bvalid dev' b' ->
        bview σ' dev' b' = if decide ((dev', b') = (dev, b)) then data else bview σ dev' b'
}.

#[export] Program Instance block_laws {D} `{DeviceLaws D} : BlockLaws D := {|
  bvalid := dvalid;
  bview := view;
  bgood k w σ := inv σ /\ ready k w (cache σ)
|}.
Next Obligation. intros. by apply dvalid_range. Qed.
Next Obligation.
  intros D ? ? k w k' w' σ Hk Hw [Hinv (Hh & Hl & Hc)]. split; [done|].
  split; [lia|]. split; [|lia]. intros s Hs. specialize (Hl s Hs). lia.
Qed.
Next Obligation. intros D ? ? k w σ dev b [? _] ?. by apply view_length. Qed.
Next Obligation.
  intros D ? ? k w σ dev b data [Hinv Hr] Hv.
  destruct (block_read_spec _ _ _ _ _ data Hinv Hr Hv) as (σ' & ? & _ & ? & ? & ?). eauto 10.
Qed.
Next Obligation.
  intros D ? ? k w σ dev b data [Hinv Hr] Hv Hlen.
  destruct (block_write_spec _ _ _ _ _ _ Hinv Hr Hv Hlen) as (σ' & ? & ? & ? & ?). eauto 10.
Qed.

(** ** Concrete runs *)

(** A freshly opened cache over a drive full of zeros. *)
Definition opened : bstate mem_drive :=
  {| cache := {| init := true; curr := 0; highest := 0;
       slots := replicate BLOCK_ARRAY_SIZE empty_slot |}; disk := ∅ |}.

Lemma opened_ok k : Z.of_nat k < BLOCK_MAX_LRU -> inv opened /\ ready k 128 (cache opened).
Proof.
  intros Hk. destruct (block_open_spec (bstate_boot (∅ : mem_drive)) 0 [] 0 k)
    as (σ' & E & _ & _ & Hinv & Hr & _); [done|simpl; lia|].
  by injection E as <-.
Qed.

Lemma dvalid_mem dev b : 0 <= dev < 2 -> 0 <= b < CHS_LIMIT -> dvalid (D := mem_drive) dev b.
Proof. intros. split; [done|]. split; done. Qed.

Lemma cache_refines_store_witness :
  exists σ', serve_all [Write 0 7 (replicate 512 3); Sync 0; Read 0 7; Read 0 8] opened =
    Ret ([(BLOCK_OK, None); (BLOCK_OK, None); (BLOCK_OK, Some (replicate 512 3));
          (BLOCK_OK, Some (replicate 512 0))], σ').
Proof.
  destruct (opened_ok 4) as [Hinv Hr]; [vm_compute; done|].
  destruct (cache_refines_store [Write 0 7 (replicate 512 3); Sync 0; Read 0 7; Read 0 8]
    opened (fun a => view opened (fst a) (snd a))) as (σ' & E & _ & _).
  - done.
  - eapply ready_weaken; [exact Hr|simpl; lia].
  - assert (forall b, 0 <= b < 100 -> dvalid (D := mem_drive) 0 b) as Hb.
    { intros b Hb. apply dvalid_mem; [lia|]. change CHS_LIMIT with 66060288. lia. }
    repeat (apply Forall_cons_2; [|]); [split|exact I|..|apply Forall_nil_2];
      (apply length_replicate || apply Hb; lia).
  - done.
  - exists σ'. rewrite E. vm_compute. done.
Defined.

(** Modify blocks [b .. b + n - 1]. *)
Fixpoint fill (n : nat) (b : Z) : st (bstate mem_drive) unit :=
  match n with
  | O => mret tt
  | S n => _ ← block_write 0 b (replicate 512 (b + 1)); fill n (b + 1)
  end.

Lemma fill_spec n : forall σ b,
  inv σ -> ready n n (cache σ) -> 0 <= b -> b + Z.of_nat n < 1000 ->
  exists σ', fill n b σ = Ret (tt, σ') /\ inv σ'.
Proof.
  induction n as [|n IH]; intros σ b Hinv Hr Hb Hn; [by exists σ|].
  destruct (block_write_spec σ n n 0 b (replicate 512 (b + 1)))
    as (σ1 & E & Hinv1 & Hr1 & _); [done..| |apply length_replicate|].
  { apply dvalid_mem; [lia|]. change CHS_LIMIT with 66060288. lia. }
  destruct (IH σ1 (b + 1)) as (σ' & E' & ?); [done|done|lia|lia|].
  exists σ'. cbn [fill]. unfold mbind, st_bind. by rewrite E.
Qed.

Definition filled : bstate mem_drive := final_state (fill 128 0) opened.

Lemma filled_inv : inv filled.
Proof.
  destruct (opened_ok 128) as [Hinv Hr]; [vm_compute; done|].
  destruct (fill_spec 128 opened 0) as (σ & E & ?); [done|done|lia|lia|].
  unfold filled, final_state. by rewrite E.
Qed.

Lemma filled_slots s :
  s ∈ slots (cache filled) ->
  (used s /\ dirty s = true /\ block_lru s < BLOCK_MAX_LRU) /\ block_dev s = 0 /\
  block_map s <> 200.
Proof.
  assert (forallb (fun s => negb (block_map s =? BLOCK_FREE) && dirty s &&
    (block_lru s <? BLOCK_MAX_LRU) && (block_dev s =? 0) && negb (block_map s =? 200))
    (slots (cache filled)) = true) as E by (vm_compute; done).
  rewrite forallb_forall in E. intros Hs%list_elem_of_In. specialize (E s Hs). unfold used.
  rewrite !andb_true_iff, !negb_true_iff, !Z.eqb_neq, Z.eqb_eq, Z.ltb_lt in E.
  destruct E as [[[[E1 E2] E3] E4] E5].
  exact (conj (conj E1 (conj E2 E3)) (conj E4 E5)).
Qed.

Lemma dirty_eviction_misplaces_witness :
  exists i s σ', slots (cache filled) !! i = Some s /\
    block_read 0 200 (Some []) filled = Ret ((BLOCK_OK, Some (block_array s)), σ') /\
    view σ' 0 (block_map s) = content (disk filled) 0 (block_map s).
Proof.
  apply dirty_eviction_misplaces.
  - exact filled_inv.
  - intros s Hs. by apply filled_slots.
  - intros i s Hi. by apply (filled_slots s (list_elem_of_lookup_2 _ _ _ Hi)).
  - intros i s Hi. by apply (filled_slots s (list_elem_of_lookup_2 _ _ _ Hi)).
  - apply dvalid_mem; [lia|]. change CHS_LIMIT with 66060288. lia.
Defined.
