(* ===== verification/Layout.v ===== *)
(** * On-disk structures ([include/ox/fs/inode.h])

    The structures the file system reads and writes as whole blocks: the master
    inode, the inode, the block map and the link.  Each is a record and a codec
    that says which bytes the C structure occupies on the i386: little endian,
    [short] 2 bytes, [int], [long] and pointers 4, [long long] 8 with alignment
    4, and the padding the compiler inserts as a field of its own.  The codec
    combinators carry the round-trip laws, so that the laws of a structure
    follow from its shape. *)

From S2P Require Import Prelude.

(** ** Codecs *)

Definition byte (b : Z) : Prop := 0 <= b < 256.

Record codec (A : Type) := Codec {
  csize : nat;
  cok : A -> Prop;
  enc : A -> list Z;
  dec : list Z -> A
}.
Arguments Codec {A}.
Arguments csize {A} _.
Arguments cok {A} _ _.
Arguments enc {A} _ _.
Arguments dec {A} _ _.

Class Lawful {A} (c : codec A) : Prop := {
  enc_length a : cok c a -> length (enc c a) = csize c;
  enc_bytes a : cok c a -> Forall byte (enc c a);
  dec_enc a : cok c a -> dec c (enc c a) = a;
  dec_ok l : length l = csize c -> Forall byte l -> cok c (dec c l);
  enc_dec l : length l = csize c -> Forall byte l -> enc c (dec c l) = l
}.

Fixpoint le_bytes (n : nat) (z : Z) : list Z :=
  match n with O => [] | S n => z mod 256 :: le_bytes n (z / 256) end.

Fixpoint of_le (l : list Z) : Z :=
  match l with [] => 0 | b :: l => b + 256 * of_le l end.

Lemma le_bytes_length n : forall z, length (le_bytes n z) = n.
Proof. induction n as [|n IH]; intros z; simpl; [done|]. by rewrite IH. Qed.

Lemma le_bytes_bytes n : forall z, Forall byte (le_bytes n z).
Proof.
  induction n as [|n IH]; intros z; simpl; [constructor|].
  constructor; [by apply Z.mod_pos_bound|apply IH].
Qed.

Lemma pow256 n : 256 ^ Z.of_nat (S n) = 256 * 256 ^ Z.of_nat n.
Proof. rewrite Nat2Z.inj_succ, Z.pow_succ_r by lia. done. Qed.

Lemma of_le_bytes n : forall z, of_le (le_bytes n z) = z mod 256 ^ Z.of_nat n.
Proof.
  induction n as [|n IH]; intros z; [by rewrite Z.mod_1_r|]. cbn [le_bytes of_le].
  rewrite IH, pow256. assert (0 < 256 ^ Z.of_nat n) by (apply Z.pow_pos_nonneg; lia).
  rewrite Z.rem_mul_r by lia. lia.
Qed.

Lemma of_le_range l : Forall byte l -> 0 <= of_le l < 256 ^ Z.of_nat (length l).
Proof.
  induction 1 as [|b l Hb _ IH]; simpl length; [simpl; lia|].
  rewrite pow256. cbn [of_le]. unfold byte in Hb. lia.
Qed.

Lemma le_of_le l : Forall byte l -> le_bytes (length l) (of_le l) = l.
Proof.
  induction 1 as [|b l Hb _ IH]; [done|]. cbn [length le_bytes of_le]. unfold byte in Hb.
  replace (b + 256 * of_le l) with (b + of_le l * 256) by lia.
  rewrite Z.mod_add, Z.mod_small, Z.div_add, Z.div_small, Z.add_0_l by lia. by rewrite IH.
Qed.

(** Integers of [n] bytes. *)
Definition uint (n : nat) : codec Z := {|
  csize := n;
  cok z := 0 <= z < 256 ^ Z.of_nat n;
  enc z := le_bytes n z;
  dec l := of_le l
|}.

Definition sint (n : nat) : codec Z := {|
  csize := n;
  cok z := - (256 ^ Z.of_nat n / 2) <= z < 256 ^ Z.of_nat n / 2;
  enc z := le_bytes n (z mod 256 ^ Z.of_nat n);
  dec l := let z := of_le l in if z <? 256 ^ Z.of_nat n / 2 then z else z - 256 ^ Z.of_nat n
|}.

(** [char a[n]] *)
Definition chars (n : nat) : codec (list Z) := {|
  csize := n;
  cok l := length l = n /\ Forall byte l;
  enc l := l;
  dec l := l
|}.

Definition pair_of {A B} (c : codec A) (d : codec B) : codec (A * B) := {|
  csize := csize c + csize d;
  cok '(a, b) := cok c a /\ cok d b;
  enc '(a, b) := enc c a ++ enc d b;
  dec l := (dec c (take (csize c) l), dec d (drop (csize c) l))
|}.

(** [A a[n]] *)
Fixpoint dec_array {A} (c : codec A) (n : nat) (l : list Z) : list A :=
  match n with
  | O => []
  | S n => dec c (take (csize c) l) :: dec_array c n (drop (csize c) l)
  end.

Definition array {A} (n : nat) (c : codec A) : codec (list A) := {|
  csize := n * csize c;
  cok l := length l = n /\ Forall (cok c) l;
  enc l := concat (map (enc c) l);
  dec l := dec_array c n l
|}.

(** A structure: its fields as nested pairs. *)
Definition struct {A B} (c : codec A) (mk : A -> B) (un : B -> A) : codec B := {|
  csize := csize c;
  cok b := cok c (un b);
  enc b := enc c (un b);
  dec l := mk (dec c l)
|}.

#[export] Instance uint_lawful n : Lawful (uint n).
Proof.
  split; cbn.
  - intros z _. apply le_bytes_length.
  - intros z _. apply le_bytes_bytes.
  - intros z Hz. by rewrite of_le_bytes, Z.mod_small.
  - intros l <- Hl. by apply of_le_range.
  - intros l <- Hl. by apply le_of_le.
Qed.

#[export] Instance sint_lawful n : (0 < n)%nat -> Lawful (sint n).
Proof.
  intros Hn. destruct n as [|n]; [lia|].
  assert (0 < 256 ^ Z.of_nat n) by (apply Z.pow_pos_nonneg; lia).
  pose proof (pow256 n) as E. set (p := 256 ^ Z.of_nat (S n)) in *.
  assert (p / 2 = 128 * 256 ^ Z.of_nat n) as Eh.
  { rewrite E. replace (256 * 256 ^ Z.of_nat n) with (128 * 256 ^ Z.of_nat n * 2) by lia.
    apply Z.div_mul. lia. }
  split; cbn -[le_bytes of_le]; fold p; rewrite ?Eh.
  - intros z _. apply le_bytes_length.
  - intros z _. apply le_bytes_bytes.
  - intros z Hz. rewrite of_le_bytes. fold p. rewrite Zmod_mod.
    destruct (Z.ltb_spec (z mod p) (128 * 256 ^ Z.of_nat n)) as [Hl | Hl].
    + destruct (Z.lt_ge_cases z 0); [|rewrite Z.mod_small; lia].
      rewrite <- (Z.mod_add z 1 p), Z.mod_small in Hl by lia. lia.
    + destruct (Z.lt_ge_cases z 0); [|rewrite Z.mod_small in Hl; lia].
      rewrite <- (Z.mod_add z 1 p), Z.mod_small by lia. lia.
  - intros l Hl Hb. pose proof (of_le_range l Hb) as Hr. rewrite Hl in Hr. fold p in Hr.
    destruct (Z.ltb_spec (of_le l) (128 * 256 ^ Z.of_nat n)); lia.
  - intros l Hl Hb. pose proof (of_le_range l Hb) as Hr. rewrite Hl in Hr. fold p in Hr.
    assert ((if of_le l <? 128 * 256 ^ Z.of_nat n then of_le l else of_le l - p) mod p = of_le l) as ->.
    { destruct (_ <? _); [by apply Z.mod_small|].
      rewrite <- (Z.mod_add _ 1 p), Z.mod_small by lia. lia. }
    rewrite <- Hl. by apply le_of_le.
Qed.

#[export] Instance chars_lawful n : Lawful (chars n).
Proof. split; cbn; intuition. Qed.

#[export] Instance pair_lawful {A B} (c : codec A) (d : codec B) :
  Lawful c -> Lawful d -> Lawful (pair_of c d).
Proof.
  intros Hc Hd. split; cbn.
  - intros [a b] [Ha Hb]. rewrite length_app, !enc_length by done. done.
  - intros [a b] [Ha Hb]. apply Forall_app. split; by apply enc_bytes.
  - intros [a b] [Ha Hb]. rewrite take_app_length', drop_app_length' by (by rewrite enc_length).
    by rewrite !dec_enc.
  - intros l Hl Hb. split; apply dec_ok; try (by apply Forall_take || by apply Forall_drop).
    + rewrite length_take. lia.
    + rewrite length_drop. lia.
  - intros l Hl Hb. rewrite !enc_dec; [apply take_drop|..];
      try (by apply Forall_take || by apply Forall_drop).
    + rewrite length_drop. lia.
    + rewrite length_take. lia.
Qed.

#[export] Instance array_lawful {A} n (c : codec A) : Lawful c -> Lawful (array n c).
Proof.
  intros Hc. split; cbn.
  - intros l [<- Hl]. induction Hl as [|a l Ha _ IH]; [done|]. cbn.
    by rewrite length_app, enc_length, IH.
  - intros l [_ Hl]. induction Hl as [|a l Ha _ IH]; [constructor|]. cbn.
    apply Forall_app. split; [by apply enc_bytes|done].
  - intros l [<- Hl]. induction Hl as [|a l Ha _ IH]; [done|]. cbn.
    rewrite take_app_length', drop_app_length' by (by rewrite enc_length). by rewrite dec_enc, IH.
  - induction n as [|n IH]; intros l Hl Hb; cbn in *; [done|].
    destruct (IH (drop (csize c) l)) as [H1 H2]; [rewrite length_drop; lia|by apply Forall_drop|].
    split; [by rewrite H1|]. constructor; [|done].
    apply dec_ok; [rewrite length_take; lia|by apply Forall_take].
  - induction n as [|n IH]; intros l Hl Hb; cbn in *; [by destruct l|].
    rewrite IH by (try apply Forall_drop; rewrite ?length_drop; done || lia).
    rewrite enc_dec by (try apply Forall_take; rewrite ?length_take; done || lia). apply take_drop.
Qed.

Lemma struct_lawful {A B} (c : codec A) (mk : A -> B) (un : B -> A) :
  (forall a, un (mk a) = a) -> (forall b, mk (un b) = b) -> Lawful c -> Lawful (struct c mk un).
Proof.
  intros Hum Hmu Hc. split; cbn.
  - intros b Hb. by apply enc_length.
  - intros b Hb. by apply enc_bytes.
  - intros b Hb. rewrite dec_enc by done. apply Hmu.
  - intros l Hl Hb. rewrite Hum. by apply dec_ok.
  - intros l Hl Hb. rewrite Hum. by apply enc_dec.
Qed.

(** Splits a nested pair into its components. *)
Ltac unpair :=
  intros a; repeat match goal with p : (_ * _)%type |- _ => destruct p end; reflexivity.

(** ** The structures *)

Definition MAX_PATH : nat := 256.
Definition BMAP_BLOCKS : nat := 127.
Definition MNODE_PAD : nat := 436.
Definition INODE_PAD : nat := 166.

(** [master_inode_t]; [m_imap] and [m_bmap] are pointers. *)
Record master_inode := MasterInode {
  magic : Z;
  init_fs : Z;
  m_block_start : Z;
  inode_map_start : Z;
  inode_map_end : Z;
  bmap_map_start : Z;
  bmap_map_end : Z;
  inode_start : Z;
  inode_end : Z;
  data_start : Z;
  data_end : Z;
  imap_ptr : Z;
  imap_bit : Z;
  bmap_ptr : Z;
  bmap_bit : Z;
  inodes : Z;
  blocks : Z;
  m_imap : Z;
  m_bmap : Z;
  m_dev : Z;
  m_pad : list Z
}.

Definition master_inode_fields := 
  pair_of (sint 2) (pair_of (sint 2) (pair_of (uint 4) (pair_of (uint 4) (pair_of (uint 4) (pair_of (uint 4) (pair_of (uint 4) (pair_of (uint 4) (pair_of (uint 4) (pair_of (uint 4) (pair_of (uint 4) (pair_of (uint 4) (pair_of (uint 4) (pair_of (uint 4) (pair_of (uint 4) (pair_of (uint 4) (pair_of (uint 4) (pair_of (uint 4) (pair_of (uint 4) (pair_of (uint 4) (chars MNODE_PAD)))))))))))))))))))).

Definition master_inode_codec : codec master_inode :=
  struct master_inode_fields
    (fun '(x0, (x1, (x2, (x3, (x4, (x5, (x6, (x7, (x8, (x9, (x10, (x11, (x12, (x13, (x14,
      (x15, (x16, (x17, (x18, (x19, x20)))))))))))))))))))) => MasterInode x0 x1 x2 x3 x4 x5
      x6 x7 x8 x9 x10 x11 x12 x13 x14 x15 x16 x17 x18 x19 x20)
    (fun i => (magic i, (init_fs i, (m_block_start i, (inode_map_start i, (inode_map_end i,
      (bmap_map_start i, (bmap_map_end i, (inode_start i, (inode_end i, (data_start i,
      (data_end i, (imap_ptr i, (imap_bit i, (bmap_ptr i, (bmap_bit i, (inodes i, (blocks i,
      (m_imap i, (m_bmap i, (m_dev i, m_pad i))))))))))))))))))))).

#[export] Instance master_inode_lawful : Lawful master_inode_codec.
Proof.
  apply struct_lawful; [|by intros []|].
  - unpair.
  - unfold master_inode_fields. repeat apply pair_lawful; first [apply sint_lawful; lia | apply _].
Qed.

(** [inode_t]; the two alignment gaps of the C layout are [align_14] and
    [align_506]. *)
Record inode := Inode {
  user_read : Z;
  user_write : Z;
  user_execute : Z;
  group_read : Z;
  group_write : Z;
  group_execute : Z;
  world_read : Z;
  world_write : Z;
  world_execute : Z;
  is_directory : Z;
  is_device : Z;
  is_file : Z;
  is_symlink : Z;
  is_hardlink : Z;
  align_14 : list Z;
  create_time : Z;
  modified_time : Z;
  accessed_time : Z;
  self : Z;
  parent : Z;
  i_size : Z;
  i_pos : Z;
  i_current : Z;
  current_parent : Z;
  iblock : Z;
  i_dev : Z;
  o_mode : Z;
  i_group : Z;
  i_owner : Z;
  refcount : Z;
  i_path : list Z;
  i_pad : list Z;
  align_506 : list Z;
  i_next : Z
}.

Definition inode_fields := 
  pair_of (sint 1) (pair_of (sint 1) (pair_of (sint 1) (pair_of (sint 1) (pair_of (sint 1) (pair_of (sint 1) (pair_of (sint 1) (pair_of (sint 1) (pair_of (sint 1) (pair_of (sint 1) (pair_of (sint 1) (pair_of (sint 1) (pair_of (sint 1) (pair_of (sint 1) (pair_of (chars 2) (pair_of (uint 4) (pair_of (uint 4) (pair_of (uint 4) (pair_of (uint 4) (pair_of (uint 4) (pair_of (uint 8) (pair_of (uint 8) (pair_of (uint 4) (pair_of (uint 4) (pair_of (sint 4) (pair_of (sint 4) (pair_of (uint 4) (pair_of (uint 4) (pair_of (uint 4) (pair_of (uint 4) (pair_of (chars MAX_PATH) (pair_of (chars INODE_PAD) (pair_of (chars 2) (uint 4))))))))))))))))))))))))))))))))).

Definition inode_codec : codec inode :=
  struct inode_fields
    (fun '(x0, (x1, (x2, (x3, (x4, (x5, (x6, (x7, (x8, (x9, (x10, (x11, (x12, (x13, (x14,
      (x15, (x16, (x17, (x18, (x19, (x20, (x21, (x22, (x23, (x24, (x25, (x26, (x27, (x28,
      (x29, (x30, (x31, (x32, x33))))))))))))))))))))))))))))))))) => Inode x0 x1 x2 x3 x4
      x5 x6 x7 x8 x9 x10 x11 x12 x13 x14 x15 x16 x17 x18 x19 x20 x21 x22 x23 x24 x25 x26 x27
      x28 x29 x30 x31 x32 x33)
    (fun i => (user_read i, (user_write i, (user_execute i, (group_read i, (group_write i,
      (group_execute i, (world_read i, (world_write i, (world_execute i, (is_directory i,
      (is_device i, (is_file i, (is_symlink i, (is_hardlink i, (align_14 i, (create_time i,
      (modified_time i, (accessed_time i, (self i, (parent i, (i_size i, (i_pos i,
      (i_current i, (current_parent i, (iblock i, (i_dev i, (o_mode i, (i_group i, (i_owner
      i, (refcount i, (i_path i, (i_pad i, (align_506 i, i_next
      i)))))))))))))))))))))))))))))))))).

#[export] Instance inode_lawful : Lawful inode_codec.
Proof.
  apply struct_lawful; [|by intros []|].
  - unpair.
  - unfold inode_fields. repeat apply pair_lawful; first [apply sint_lawful; lia | apply _].
Qed.

(** [block_map_t] *)
Record block_map_t := BlockMap {
  b_next : Z;
  b_blocks : list Z
}.

Definition block_map_t_fields := 
  pair_of (uint 4) (array BMAP_BLOCKS (uint 4)).

Definition block_map_t_codec : codec block_map_t :=
  struct block_map_t_fields
    (fun '(x0, x1) => BlockMap x0 x1)
    (fun i => (b_next i, b_blocks i)).

#[export] Instance block_map_t_lawful : Lawful block_map_t_codec.
Proof.
  apply struct_lawful; [|by intros []|].
  - unpair.
  - unfold block_map_t_fields. repeat apply pair_lawful; first [apply sint_lawful; lia | apply _].
Qed.

(** [link_t] *)
Record link_t := Link {
  l_path : list Z;
  l_pad : list Z
}.

Definition link_t_fields := 
  pair_of (chars MAX_PATH) (chars MAX_PATH).

Definition link_t_codec : codec link_t :=
  struct link_t_fields
    (fun '(x0, x1) => Link x0 x1)
    (fun i => (l_path i, l_pad i)).

#[export] Instance link_t_lawful : Lawful link_t_codec.
Proof.
  apply struct_lawful; [|by intros []|].
  - unpair.
  - unfold link_t_fields. repeat apply pair_lawful; first [apply sint_lawful; lia | apply _].
Qed.

(** A structure that is one block, with both round trips. *)
Definition block_roundtrip {A} (c : codec A) : Prop :=
  (forall a, cok c a -> length (enc c a) = 512%nat /\ Forall byte (enc c a) /\ dec c (enc c a) = a) /\
  (forall l, length l = 512%nat -> Forall byte l -> cok c (dec c l) /\ enc c (dec c l) = l).

Lemma block_roundtrip_lawful {A} (c : codec A) :
  Lawful c -> csize c = 512%nat -> block_roundtrip c.
Proof.
  intros Hc E. split.
  - intros a Ha. rewrite enc_length, dec_enc by done. split; [done|]. split; [by apply enc_bytes|done].
  - intros l Hl Hb. rewrite <- E in Hl. split; [by apply dec_ok|by apply enc_dec].
Qed.

