(* ===== verification/Perms.v ===== *)
(** * Permissions ([fs/inode.c], [include/sys/stat.h])

    The nine permission flags of an inode, their conversion from and to Unix
    permission bits, and the access check.  The flags are [char]s that are
    false when 0; [inode_perm_t] and the identities are [unsigned int]. *)

From S2P Require Import Prelude Layout.

Definition S_IFREG : Z := 0x8000.
Definition S_IFDIR : Z := 0x4000.
Definition S_IFLNK : Z := 0xA000.
Definition S_IRWXU : Z := 448.
Definition S_IRUSR : Z := 256.
Definition S_IWUSR : Z := 128.
Definition S_IXUSR : Z := 64.
Definition S_IRGRP : Z := 32.
Definition S_IWGRP : Z := 16.
Definition S_IXGRP : Z := 8.
Definition S_IROTH : Z := 4.
Definition S_IWOTH : Z := 2.
Definition S_IXOTH : Z := 1.

Inductive inode_mode : Type :=
| INODE_INVALID_MODE | INODE_CREATE_FILE | INODE_CREATE_DIR | INODE_CREATE_SYMLINK
| INODE_CREATE_HARDLINK | INODE_READ | INODE_WRITE | INODE_EXECUTE | INODE_RW | INODE_RX
| INODE_WX | INODE_RWX | INODE_DONTCHECKPERMS.

#[export] Instance inode_mode_eq_dec : EqDecision inode_mode.
Proof. solve_decision. Defined.

(** A [char] used as a condition. *)
Definition truth (c : Z) : bool := negb (c =? 0).

(** The assignments of three flags. *)
Definition set_user_flags (r w x : Z) (i : inode) : inode :=
  Inode r w x (group_read i) (group_write i) (group_execute i)
    (world_read i) (world_write i) (world_execute i) (is_directory i) (is_device i) (is_file i)
    (is_symlink i) (is_hardlink i) (align_14 i) (create_time i) (modified_time i)
    (accessed_time i) (self i) (parent i) (i_size i) (i_pos i) (i_current i) (current_parent i)
    (iblock i) (i_dev i) (o_mode i) (i_group i) (i_owner i) (refcount i) (i_path i) (i_pad i)
    (align_506 i) (i_next i).

Definition set_group_flags (r w x : Z) (i : inode) : inode :=
  Inode (user_read i) (user_write i) (user_execute i) r w x
    (world_read i) (world_write i) (world_execute i) (is_directory i) (is_device i) (is_file i)
    (is_symlink i) (is_hardlink i) (align_14 i) (create_time i) (modified_time i)
    (accessed_time i) (self i) (parent i) (i_size i) (i_pos i) (i_current i) (current_parent i)
    (iblock i) (i_dev i) (o_mode i) (i_group i) (i_owner i) (refcount i) (i_path i) (i_pad i)
    (align_506 i) (i_next i).

Definition set_world_flags (r w x : Z) (i : inode) : inode :=
  Inode (user_read i) (user_write i) (user_execute i)
    (group_read i) (group_write i) (group_execute i) r w x
    (is_directory i) (is_device i) (is_file i)
    (is_symlink i) (is_hardlink i) (align_14 i) (create_time i) (modified_time i)
    (accessed_time i) (self i) (parent i) (i_size i) (i_pos i) (i_current i) (current_parent i)
    (iblock i) (i_dev i) (o_mode i) (i_group i) (i_owner i) (refcount i) (i_path i) (i_pad i)
    (align_506 i) (i_next i).

(** [if(flag) perm |= bit] *)
Definition add_flag (flag : bool) (bit perm : Z) : Z := if flag then Z.lor perm bit else perm.

Definition inode_get_permissions (inode : inode) : Z :=
  let perm := 0 in
  let perm := add_flag (truth (user_read inode)) S_IRUSR perm in
  let perm := add_flag (truth (user_write inode)) S_IWUSR perm in
  let perm := add_flag (truth (user_execute inode)) S_IXUSR perm in
  let perm := add_flag (truth (group_read inode)) S_IRGRP perm in
  let perm := add_flag (truth (group_write inode)) S_IWGRP perm in
  let perm := add_flag (truth (group_execute inode)) S_IXGRP perm in
  let perm := add_flag (truth (world_read inode)) S_IROTH perm in
  let perm := add_flag (truth (world_write inode)) S_IWOTH perm in
  let perm := add_flag (truth (world_execute inode)) S_IXOTH perm in
  let perm := add_flag (truth (is_directory inode)) S_IFDIR perm in
  let perm := add_flag (truth (is_symlink inode)) S_IFLNK perm in
  add_flag (truth (is_hardlink inode) || truth (is_file inode)) S_IFREG perm.

(** [bit & perm] as a condition. *)
Definition has (bit perm : Z) : bool := truth (Z.land bit perm).

(** The tests after the first one, shared by both conversions. *)
Definition mode_of_bits (perm : Z) : inode_mode :=
  if has S_IWUSR perm && has S_IXUSR perm then INODE_WX
  else if has S_IRUSR perm && has S_IXUSR perm then INODE_RX
  else if has S_IRUSR perm && has S_IWUSR perm then INODE_RW
  else if has S_IXUSR perm then INODE_EXECUTE
  else if has S_IWUSR perm then INODE_WRITE
  else if has S_IRUSR perm then INODE_READ
  else INODE_INVALID_MODE.

Definition inode_get_mode (perm umask : Z) : inode_mode :=
  let perm := Z.lor perm umask in
  if has S_IRUSR perm && has S_IWUSR perm && has S_IXUSR perm then INODE_RWX
  else mode_of_bits perm.

(** The loop of [inode_get_mode_from_all]; [iter] counts the turns left. *)
Fixpoint mode_from_all_loop (iter : nat) (perm : Z) : inode_mode :=
  if has S_IRWXU perm then INODE_RWX
  else
    match mode_of_bits perm with
    | INODE_INVALID_MODE =>
        match iter with
        | O => INODE_INVALID_MODE
        | S iter => mode_from_all_loop iter (u32 (Z.shiftl perm 3))
        end
    | m => m
    end.

Definition inode_get_mode_from_all (perm umask : Z) : inode_mode :=
  mode_from_all_loop 2 (Z.lor perm umask).

(** The three flags each mode stands for. *)
Definition flags_of (mode : inode_mode) : Z * Z * Z :=
  match mode with
  | INODE_READ => (1, 0, 0)
  | INODE_WRITE => (0, 1, 0)
  | INODE_EXECUTE => (0, 0, 1)
  | INODE_RW => (1, 1, 0)
  | INODE_RX => (1, 0, 1)
  | INODE_WX => (0, 1, 1)
  | INODE_RWX => (1, 1, 1)
  | _ => (0, 0, 0)
  end.

Definition inode_set_permissions (i : inode) (perm umask : Z) : inode :=
  let '(r, w, x) := flags_of (inode_get_mode perm umask) in
  let i := set_user_flags r w x i in
  let perm := u32 (Z.shiftl perm 3) in
  let '(r, w, x) := flags_of (inode_get_mode perm umask) in
  let i := set_group_flags r w x i in
  let perm := u32 (Z.shiftl perm 3) in
  let '(r, w, x) := flags_of (inode_get_mode perm umask) in
  set_world_flags r w x i.

(** The three attempts of one branch of the check; [need] picks the flags the
    mode asks for out of read, write and execute. *)
Definition check_classes (i : inode) (group owner : Z) (need : Z -> Z -> Z -> bool) : bool :=
  if (owner =? i_owner i) && need (user_read i) (user_write i) (user_execute i) then true
  else if (group =? i_group i) && need (group_read i) (group_write i) (group_execute i) then true
  else need (world_read i) (world_write i) (world_execute i).

Definition inode_check_permissions (i : inode) (perm umask group owner : Z) (mode : inode_mode)
    : bool :=
  match mode with
  | INODE_DONTCHECKPERMS => true
  | INODE_READ => check_classes i group owner (fun r w x => truth r)
  | INODE_WRITE => check_classes i group owner (fun r w x => truth w)
  | INODE_EXECUTE => check_classes i group owner (fun r w x => truth x)
  | INODE_RW => check_classes i group owner (fun r w x => truth r && truth w)
  | INODE_RX => check_classes i group owner (fun r w x => truth r && truth x)
  | INODE_WX => check_classes i group owner (fun r w x => truth w && truth x)
  | INODE_RWX => check_classes i group owner (fun r w x => truth r && truth w && truth x)
  | _ => false
  end.

(** ** Permission bits *)

Lemma has_bit b perm : 0 <= b -> has (2 ^ b) perm = Z.testbit perm b.
Proof.
  intros Hb. unfold has, truth. rewrite Z.land_comm, <- Z.shiftl_1_l, land_bit by done.
  destruct (Z.testbit perm b); [|done].
  destruct (Z.eqb_spec (2 ^ b) 0); [|done]. pose proof (Z.pow_pos_nonneg 2 b). lia.
Qed.

Lemma mode_flags perm umask :
  flags_of (inode_get_mode perm umask) =
    (Z.b2z (Z.testbit perm 8 || Z.testbit umask 8), Z.b2z (Z.testbit perm 7 || Z.testbit umask 7),
     Z.b2z (Z.testbit perm 6 || Z.testbit umask 6)).
Proof.
  unfold inode_get_mode, mode_of_bits.
  change S_IRUSR with (2 ^ 8). change S_IWUSR with (2 ^ 7). change S_IXUSR with (2 ^ 6).
  rewrite !has_bit, !Z.lor_spec by lia.
  destruct (Z.testbit perm 8 || Z.testbit umask 8), (Z.testbit perm 7 || Z.testbit umask 7),
    (Z.testbit perm 6 || Z.testbit umask 6); done.
Qed.

Lemma shift3_testbit perm k : 3 <= k < 32 -> Z.testbit (u32 (Z.shiftl perm 3)) k = Z.testbit perm (k - 3).
Proof. intros Hk. rewrite uwrap_testbit, Z.shiftl_spec by lia. done. Qed.

(** What [inode_set_permissions] leaves in the flags of one class, counted from
    the world: the bits of the permissions or of the user part of the mask. *)
Definition class_bit (perm umask class k : Z) : bool :=
  Z.testbit perm (3 * class + k) || Z.testbit umask (6 + k).

Lemma set_permissions_flags i perm umask :
  let f class k := Z.b2z (class_bit perm umask class k) in
  inode_set_permissions i perm umask =
    set_world_flags (f 0 2) (f 0 1) (f 0 0)
      (set_group_flags (f 1 2) (f 1 1) (f 1 0) (set_user_flags (f 2 2) (f 2 1) (f 2 0) i)).
Proof.
  unfold inode_set_permissions, class_bit. rewrite !mode_flags, !shift3_testbit by lia. done.
Qed.

Lemma truth_b2z b : truth (Z.b2z b) = b.
Proof. by destruct b. Qed.

Lemma add_flag_testbit flag bit perm k :
  Z.testbit (add_flag flag bit perm) k = Z.testbit perm k || (flag && Z.testbit bit k).
Proof. destruct flag; simpl; [by rewrite Z.lor_spec|by rewrite orb_false_r]. Qed.

(** The permissions read back from an inode are the nine bits that were set
    on it, together with the user bits of the mask in every class: the mask is
    added, never removed. *)
Theorem permissions_roundtrip i perm umask k :
  0 <= k < 9 ->
  Z.testbit (inode_get_permissions (inode_set_permissions i perm umask)) k =
    Z.testbit perm k || Z.testbit umask (6 + k mod 3).
Proof.
  intros Hk. rewrite set_permissions_flags. cbv zeta. unfold inode_get_permissions.
  rewrite !add_flag_testbit. cbn [user_read user_write user_execute group_read group_write
    group_execute world_read world_write world_execute set_user_flags set_group_flags set_world_flags].
  rewrite !truth_b2z. unfold class_bit.
  assert (k = 0 \/ k = 1 \/ k = 2 \/ k = 3 \/ k = 4 \/ k = 5 \/ k = 6 \/ k = 7 \/ k = 8) as H by lia.
  destruct H as [-> | [-> | [-> | [-> | [-> | [-> | [-> | [-> | ->]]]]]]]]; cbn;
    rewrite ?andb_false_r, ?andb_true_r, ?orb_false_r; done.
Qed.

(** The bits, out of read 4, write 2 and execute 1, that a mode asks for. *)
Definition mode_bits (mode : inode_mode) : option Z :=
  match mode with
  | INODE_READ => Some 4 | INODE_WRITE => Some 2 | INODE_EXECUTE => Some 1
  | INODE_RW => Some 6 | INODE_RX => Some 5 | INODE_WX => Some 3 | INODE_RWX => Some 7
  | _ => None
  end.

(** All of [bits] are in the class of the permissions. *)
Definition grants (bits perm class : Z) : bool :=
  forallb (fun k => negb (Z.testbit bits k) || Z.testbit perm (3 * class + k)) [0; 1; 2].

(** After permissions are set without a mask, a request is allowed exactly
    when the class of the owner (for the owner), of the group (for the group)
    or of the world grants all of its bits, each class being tried in turn. *)
Theorem check_after_set i perm p' umask' group owner mode bits :
  mode_bits mode = Some bits ->
  inode_check_permissions (inode_set_permissions i perm 0) p' umask' group owner mode =
    ((owner =? i_owner i) && grants bits perm 2) || ((group =? i_group i) && grants bits perm 1) ||
    grants bits perm 0.
Proof.
  intros Hm. rewrite set_permissions_flags. cbv zeta. unfold class_bit. rewrite !Z.bits_0, !orb_false_r.
  destruct mode; try done; injection Hm as <-; unfold inode_check_permissions, check_classes, grants;
    cbn [user_read user_write user_execute group_read group_write group_execute world_read
      world_write world_execute i_owner i_group set_user_flags set_group_flags set_world_flags];
    rewrite !truth_b2z; cbn; destruct (owner =? i_owner i), (group =? i_group i); cbn;
    repeat match goal with |- context [Z.testbit perm ?k] => destruct (Z.testbit perm k) end; done.
Qed.

Lemma check_after_set_witness :
  mode_bits INODE_RW = Some 6 /\
  inode_check_permissions (inode_set_permissions (dec inode_codec (replicate 512 0)) 416 0)
    0 0 5 0 INODE_RW = true.
Proof.
  split; [reflexivity|].
  rewrite (check_after_set _ 416 0 0 5 0 INODE_RW 6 eq_refl). reflexivity.
Defined.

Lemma has_lor a b q : has (Z.lor a b) q = has a q || has b q.
Proof.
  unfold has, truth. rewrite Z.land_lor_distr_l.
  destruct (Z.eqb_spec (Z.land a q) 0) as [-> | Ha]; [done|]. simpl.
  destruct (Z.eqb_spec (Z.lor (Z.land a q) (Z.land b q)) 0) as [E | ]; [|done].
  by apply Z.lor_eq_0_iff in E as [? _].
Qed.

Lemma has_user q : has S_IRWXU q = Z.testbit q 8 || Z.testbit q 7 || Z.testbit q 6.
Proof.
  change S_IRWXU with (Z.lor (Z.lor (2 ^ 8) (2 ^ 7)) (2 ^ 6)). by rewrite !has_lor, !has_bit by lia.
Qed.

Lemma mode_none q : has S_IRWXU q = false -> mode_of_bits q = INODE_INVALID_MODE.
Proof.
  rewrite has_user. intros [[E8 E7]%orb_false_elim E6]%orb_false_elim. unfold mode_of_bits.
  change S_IRUSR with (2 ^ 8). change S_IWUSR with (2 ^ 7). change S_IXUSR with (2 ^ 6).
  by rewrite !has_bit, E8, E7, E6 by lia.
Qed.

(** The conversion used when a file is opened knows two answers: read, write
    and execute as soon as any of the nine bits (or of the mask's) is on, and an
    invalid mode otherwise. *)
Theorem mode_from_all_is_rwx perm umask :
  inode_get_mode_from_all perm umask =
    if Z.land 511 (Z.lor perm umask) =? 0 then INODE_INVALID_MODE else INODE_RWX.
Proof.
  unfold inode_get_mode_from_all. set (p := Z.lor perm umask).
  assert ((Z.land 511 p =? 0) = negb (has 511 p)) as -> by (unfold has, truth; by rewrite negb_involutive).
  assert (has 511 p = has S_IRWXU p || has S_IRWXU (u32 (Z.shiftl p 3)) ||
    has S_IRWXU (u32 (Z.shiftl (u32 (Z.shiftl p 3)) 3))) as ->.
  { rewrite !has_user, !shift3_testbit by lia. cbn [Z.sub Z.add Z.opp Z.pos_sub].
    change 511 with (Z.lor (Z.lor (Z.lor (Z.lor (2 ^ 8) (2 ^ 7)) (2 ^ 6))
      (Z.lor (Z.lor (2 ^ 5) (2 ^ 4)) (2 ^ 3))) (Z.lor (Z.lor (2 ^ 2) (2 ^ 1)) (2 ^ 0))).
    by rewrite !has_lor, !has_bit by lia. }
  cbn [mode_from_all_loop]. destruct (has S_IRWXU p) eqn:E1; [done|]. rewrite (mode_none p E1).
  destruct (has S_IRWXU (u32 (Z.shiftl p 3))) eqn:E2; [done|]. rewrite (mode_none _ E2).
  destruct (has S_IRWXU (u32 (Z.shiftl (u32 (Z.shiftl p 3)) 3))) eqn:E3; [done|].
  by rewrite (mode_none _ E3).
Qed.

Lemma permissions_roundtrip_witness :
  Z.testbit (inode_get_permissions (inode_set_permissions (dec inode_codec (replicate 512 0)) 420 18)) 8 = true.
Proof. rewrite (permissions_roundtrip _ 420 18 8) by lia. reflexivity. Defined.
