(* ===== verification/Alloc.v ===== *)
(** * Block allocation of the file system ([fs/inode.c])

    The table of mounted devices, the creation and opening of a file system,
    and the two allocators, of data blocks and of inode blocks, that scan the
    bitmaps on disk one block at a time.  [inode_get_data_block] and
    [inode_get_inode_block] are the same text on different fields of the master
    inode, as are the two that free; here they are one function of the [kind] of
    map.  A pointer into [master_bmap_memory] or [master_imap_memory] is the
    index of its row plus one, 0 is [NULL].  Console output is left out. *)

From S2P Require Import Prelude Errno Bits Device Block Layout.

Definition INODE_MAGIC : Z := 1925.
Definition INODE_NR_PASS : Z := 2.
Definition INODE_NOPOS : Z := -1.
Definition INODE_NULL : Z := 0.
Definition INODE_NR_DEV : nat := 16.
Definition BLOCK_START : Z := 4096.
Definition TWOMEG : Z := 2097152.
Definition MAX_DEV : nat := 256.

Inductive inode_rtvl : Type :=
| INODE_OK | INODE_FAIL | INODE_PARAM | INODE_FILE_NOT_FOUND | INODE_INVALID_PATH
| INODE_EXISTS | INODE_INCONSISTENT | INODE_INIT.

#[export] Instance inode_rtvl_eq_dec : EqDecision inode_rtvl.
Proof. solve_decision. Defined.

(** The file statics of [inode.c], over the buffer cache; an entry of
    [master_dev_tab] is a path (bytes, or [NULL]) and a device. *)
Record fs (D : Type) := Fs {
  bst : bstate D;
  init_master : bool;
  master_tab : list master_inode;
  master_bmap_memory : list (list Z);
  master_imap_memory : list (list Z);
  master_dev_tab : list (option (list Z) * Z);
  errno : Z
}.
Arguments Fs {D}.
Arguments bst {D} _.
Arguments init_master {D} _.
Arguments master_tab {D} _.
Arguments master_bmap_memory {D} _.
Arguments master_imap_memory {D} _.
Arguments master_dev_tab {D} _.
Arguments errno {D} _.

(** *** Assignments to fields of a master inode *)

Definition set_m_dev (v : Z) (m : master_inode) : master_inode :=
  {| magic := magic m; init_fs := init_fs m; m_block_start := m_block_start m;
     inode_map_start := inode_map_start m; inode_map_end := inode_map_end m; bmap_map_start
     := bmap_map_start m; bmap_map_end := bmap_map_end m; inode_start := inode_start m;
     inode_end := inode_end m; data_start := data_start m; data_end := data_end m; imap_ptr
     := imap_ptr m; imap_bit := imap_bit m; bmap_ptr := bmap_ptr m; bmap_bit := bmap_bit m;
     inodes := inodes m; blocks := blocks m; m_imap := m_imap m; m_bmap := m_bmap m; m_dev
     := v; m_pad := m_pad m |}.

(** Which of the two maps. *)
Inductive kind : Type := Data | Inodes.

Definition map_ptr (k : kind) (m : master_inode) : Z :=
  match k with Data => bmap_ptr m | Inodes => imap_ptr m end.
Definition map_bit (k : kind) (m : master_inode) : Z :=
  match k with Data => bmap_bit m | Inodes => imap_bit m end.
Definition map_start (k : kind) (m : master_inode) : Z :=
  match k with Data => bmap_map_start m | Inodes => inode_map_start m end.
Definition map_end (k : kind) (m : master_inode) : Z :=
  match k with Data => bmap_map_end m | Inodes => inode_map_end m end.
Definition area_start (k : kind) (m : master_inode) : Z :=
  match k with Data => data_start m | Inodes => inode_start m end.
Definition map_mem (k : kind) (m : master_inode) : Z :=
  match k with Data => m_bmap m | Inodes => m_imap m end.

Definition set_map_ptr (k : kind) (v : Z) (m : master_inode) : master_inode :=
  match k with
  | Data =>
      {| magic := magic m; init_fs := init_fs m; m_block_start := m_block_start m;
         inode_map_start := inode_map_start m; inode_map_end := inode_map_end m;
         bmap_map_start := bmap_map_start m; bmap_map_end := bmap_map_end m; inode_start :=
         inode_start m; inode_end := inode_end m; data_start := data_start m; data_end :=
         data_end m; imap_ptr := imap_ptr m; imap_bit := imap_bit m; bmap_ptr := v; bmap_bit
         := bmap_bit m; inodes := inodes m; blocks := blocks m; m_imap := m_imap m; m_bmap
         := m_bmap m; m_dev := m_dev m; m_pad := m_pad m |}
  | Inodes =>
      {| magic := magic m; init_fs := init_fs m; m_block_start := m_block_start m;
         inode_map_start := inode_map_start m; inode_map_end := inode_map_end m;
         bmap_map_start := bmap_map_start m; bmap_map_end := bmap_map_end m; inode_start :=
         inode_start m; inode_end := inode_end m; data_start := data_start m; data_end :=
         data_end m; imap_ptr := v; imap_bit := imap_bit m; bmap_ptr := bmap_ptr m; bmap_bit
         := bmap_bit m; inodes := inodes m; blocks := blocks m; m_imap := m_imap m; m_bmap
         := m_bmap m; m_dev := m_dev m; m_pad := m_pad m |}
  end.

Definition set_map_bit (k : kind) (v : Z) (m : master_inode) : master_inode :=
  match k with
  | Data =>
      {| magic := magic m; init_fs := init_fs m; m_block_start := m_block_start m;
         inode_map_start := inode_map_start m; inode_map_end := inode_map_end m;
         bmap_map_start := bmap_map_start m; bmap_map_end := bmap_map_end m; inode_start :=
         inode_start m; inode_end := inode_end m; data_start := data_start m; data_end :=
         data_end m; imap_ptr := imap_ptr m; imap_bit := imap_bit m; bmap_ptr := bmap_ptr m;
         bmap_bit := v; inodes := inodes m; blocks := blocks m; m_imap := m_imap m; m_bmap
         := m_bmap m; m_dev := m_dev m; m_pad := m_pad m |}
  | Inodes =>
      {| magic := magic m; init_fs := init_fs m; m_block_start := m_block_start m;
         inode_map_start := inode_map_start m; inode_map_end := inode_map_end m;
         bmap_map_start := bmap_map_start m; bmap_map_end := bmap_map_end m; inode_start :=
         inode_start m; inode_end := inode_end m; data_start := data_start m; data_end :=
         data_end m; imap_ptr := imap_ptr m; imap_bit := v; bmap_ptr := bmap_ptr m; bmap_bit
         := bmap_bit m; inodes := inodes m; blocks := blocks m; m_imap := m_imap m; m_bmap
         := m_bmap m; m_dev := m_dev m; m_pad := m_pad m |}
  end.

Definition set_map_mem (k : kind) (v : Z) (m : master_inode) : master_inode :=
  match k with
  | Data =>
      {| magic := magic m; init_fs := init_fs m; m_block_start := m_block_start m;
         inode_map_start := inode_map_start m; inode_map_end := inode_map_end m;
         bmap_map_start := bmap_map_start m; bmap_map_end := bmap_map_end m; inode_start :=
         inode_start m; inode_end := inode_end m; data_start := data_start m; data_end :=
         data_end m; imap_ptr := imap_ptr m; imap_bit := imap_bit m; bmap_ptr := bmap_ptr m;
         bmap_bit := bmap_bit m; inodes := inodes m; blocks := blocks m; m_imap := m_imap m;
         m_bmap := v; m_dev := m_dev m; m_pad := m_pad m |}
  | Inodes =>
      {| magic := magic m; init_fs := init_fs m; m_block_start := m_block_start m;
         inode_map_start := inode_map_start m; inode_map_end := inode_map_end m;
         bmap_map_start := bmap_map_start m; bmap_map_end := bmap_map_end m; inode_start :=
         inode_start m; inode_end := inode_end m; data_start := data_start m; data_end :=
         data_end m; imap_ptr := imap_ptr m; imap_bit := imap_bit m; bmap_ptr := bmap_ptr m;
         bmap_bit := bmap_bit m; inodes := inodes m; blocks := blocks m; m_imap := v; m_bmap
         := m_bmap m; m_dev := m_dev m; m_pad := m_pad m |}
  end.

Definition map_memory {D} (k : kind) (s : fs D) : list (list Z) :=
  match k with Data => master_bmap_memory s | Inodes => master_imap_memory s end.

Definition set_bst {D} (b : bstate D) (s : fs D) : fs D :=
  Fs b (init_master s) (master_tab s) (master_bmap_memory s) (master_imap_memory s)
     (master_dev_tab s) (errno s).
Definition set_tab {D} (t : list master_inode) (s : fs D) : fs D :=
  Fs (bst s) (init_master s) t (master_bmap_memory s) (master_imap_memory s)
     (master_dev_tab s) (errno s).
Definition set_memory {D} (k : kind) (l : list (list Z)) (s : fs D) : fs D :=
  match k with
  | Data => Fs (bst s) (init_master s) (master_tab s) l (master_imap_memory s)
                (master_dev_tab s) (errno s)
  | Inodes => Fs (bst s) (init_master s) (master_tab s) (master_bmap_memory s) l
                 (master_dev_tab s) (errno s)
  end.
Definition set_dev_tab {D} (t : list (option (list Z) * Z)) (s : fs D) : fs D :=
  Fs (bst s) (init_master s) (master_tab s) (master_bmap_memory s) (master_imap_memory s) t (errno s).
Definition set_errno {D} (e : Z) (s : fs D) : fs D :=
  Fs (bst s) (init_master s) (master_tab s) (master_bmap_memory s) (master_imap_memory s)
     (master_dev_tab s) e.

Section Code.
Context {D : Type} `{PioDrive D}.

(** A call of the buffer cache. *)
Definition cached {A} (m : st (bstate D) A) : st (fs D) A := fun s =>
  match m (bst s) with
  | Ret (a, b) => Ret (a, set_bst b s)
  | Panic => Panic | Fault => Fault | NoFuel => NoFuel
  end.

(** ** The table of master inodes *)

(** A structure filled with zeros. *)
Definition zero_master : master_inode := dec master_inode_codec (replicate 512 0).

Definition master_init : st (fs D) unit :=
  s ← get;
  if init_master s then mret tt
  else
    put (Fs (bst s) true
      (replicate INODE_NR_DEV (set_m_dev (u32 INODE_NOPOS) zero_master))
      (replicate INODE_NR_DEV (replicate 512 0)) (replicate INODE_NR_DEV (replicate 512 0))
      (master_dev_tab s) (errno s)).

(** The search for an entry with the device number. *)
Fixpoint find_dev (t : list master_inode) (dev : Z) : option nat :=
  match t with
  | [] => None
  | m :: t => if m_dev m =? u32 dev then Some O else S <$> find_dev t dev
  end.

Definition master_get (dev : Z) : st (fs D) (option nat) := gets (fun s => find_dev (master_tab s) dev).

Definition master_get_mem_ptr (dev : Z) : st (fs D) Z :=
  gets (fun s => match find_dev (master_tab s) dev with
                 | Some i => Z.of_nat i
                 | None => INODE_NOPOS
                 end).

Definition set_master (i : nat) (f : master_inode -> master_inode) : st (fs D) unit :=
  modify (fun s => set_tab (alter f i (master_tab s)) s).

Definition master (i : nat) : st (fs D) master_inode :=
  s ← get; checked (master_tab s !! i).

Definition master_alloc (dev : Z) : st (fs D) (option nat) :=
  m ← master_get dev;
  match m with
  | Some i => mret (Some i)
  | None =>
      s ← get;
      match find_dev (master_tab s) INODE_NOPOS with
      | Some i => _ ← set_master i (set_m_dev (u32 dev)); mret (Some i)
      | None => mret None
      end
  end.

Definition master_free (dev : Z) : st (fs D) unit :=
  m ← master_get dev;
  match m with
  | Some i => set_master i (fun _ => set_m_dev (u32 INODE_NOPOS) zero_master)
  | None => mret tt
  end.

(** [!path || !strlen(path)] *)
Definition no_path (p : option (list Z)) : bool :=
  match p with None => true | Some l => match l with [] => true | c :: _ => c =? 0 end end.

Fixpoint first_free_dev (i : nat) (t : list (option (list Z) * Z)) : option nat :=
  match t with
  | [] => None
  | (p, _) :: t => if no_path p then Some i else first_free_dev (S i) t
  end.

Definition master_set_dev (path : option (list Z)) (dev : Z) : st (fs D) Z :=
  s ← get;
  match first_free_dev 0 (master_dev_tab s) with
  | Some i => _ ← put (set_dev_tab (<[i := (path, dev)]> (master_dev_tab s)) s); mret (Z.of_nat i)
  | None => mret (-1)
  end.

(** [strlen] of a null path is undefined. *)
Fixpoint first_dev (t : list (option (list Z) * Z)) : outcome Z :=
  match t with
  | [] => Ret (-1)
  | (None, _) :: _ => Fault
  | (Some p, dev) :: t => if no_path (Some p) then first_dev t else Ret dev
  end.

(** The second loop of the source starts where the first ended, at the end. *)
Definition master_get_dev (path : option (list Z)) : st (fs D) Z :=
  s ← get; lift (first_dev (master_dev_tab s)).

(** ** Allocation *)

(** The memory a map pointer refers to. *)
Definition load_map (k : kind) (p : Z) : st (fs D) (list Z) :=
  s ← get;
  if 1 <=? p then checked (map_memory k s !! Z.to_nat (p - 1)) else fault.

Definition store_map (k : kind) (p : Z) (x : list Z) : st (fs D) unit :=
  modify (fun s => set_memory k (<[Z.to_nat (p - 1) := x]> (map_memory k s)) s).

(** [block_read(dev, ptr, map)]: [true] when it succeeds; otherwise [errno] is
    set. *)
Definition read_map (k : kind) (dev : Z) (i : nat) : st (fs D) bool :=
  m ← master i;
  x ← load_map k (map_mem k m);
  '(r, data) ← cached (block_read dev (map_ptr k m) (Some x));
  _ ← store_map k (map_mem k m) (default x data);
  if block_bad r then _ ← modify (set_errno EACCES); mret false else mret true.

(** The lazy initialisation at the head of the allocators: [None] when the
    allocator must fail, otherwise where to start. *)
Definition start_map (check_init : bool) (k : kind) (dev : Z) (i : nat) : st (fs D) (option (Z * Z)) :=
  m ← master i;
  if map_ptr k m =? 0 then
    if check_init && (init_fs m =? 0) then mret None
    else
      _ ← set_master i (set_map_ptr k (map_start k m));
      j ← master_get_mem_ptr dev;
      if j =? INODE_NOPOS then mret None
      else
        _ ← set_master i (set_map_mem k (j + 1));
        ok ← read_map k dev i;
        if (ok : bool) then mret (Some (map_start k m, 0)) else mret None
  else mret (Some (map_ptr k m, map_bit k m)).

(** Taking the bit the scan stopped at. *)
Definition take_bit (k : kind) (dev : Z) (i : nat) (ptr bit : Z) : st (fs D) (inode_rtvl * Z) :=
  m ← master i;
  x ← load_map k (map_mem k m);
  x ← lift (bit_set x bit 1);
  _ ← store_map k (map_mem k m) x;
  _ ← set_master i (set_map_bit k bit);
  m ← master i;
  r ← cached (block_write dev (m_block_start m) (enc master_inode_codec m));
  if block_bad r then
    _ ← modify (set_errno EACCES); mret (INODE_FAIL, u32 INODE_NOPOS)
  else
    x ← load_map k (map_mem k m);
    r ← cached (block_write dev ptr x);
    if block_bad r then
      _ ← modify (set_errno EACCES); mret (INODE_FAIL, u32 INODE_NOPOS)
    else
      mret (INODE_OK, u32 (area_start k m + (ptr - map_start k m) * DEV_BLOCK_SIZE + bit)).

(** The do loop. *)
Fixpoint alloc_loop (fuel : nat) (k : kind) (dev : Z) (i : nat) (ptr bit pass : Z)
    : st (fs D) (inode_rtvl * Z) :=
  match fuel with
  | O => fun _ => NoFuel
  | S fuel =>
      m ← master i;
      x ← load_map k (map_mem k m);
      b ← lift (bit_get x bit);
      if b =? 0 then take_bit k dev i ptr bit
      else
        let bit := (bit + 1) mod DEV_BLOCK_SIZE in
        _ ← set_master i (set_map_bit k bit);
        if bit =? 0 then
          let ptr := u32 (ptr + 1) in
          let ptr' := if ptr <? map_end k m then ptr else map_start k m in
          let pass' := if ptr <? map_end k m then pass else pass + 1 in
          _ ← set_master i (set_map_ptr k ptr');
          ok ← read_map k dev i;
          if (ok : bool) then
            if pass' <? INODE_NR_PASS then alloc_loop fuel k dev i ptr' bit pass'
            else mret (INODE_FAIL, INODE_NULL)
          else mret (INODE_FAIL, u32 INODE_NOPOS)
        else alloc_loop fuel k dev i ptr bit pass
  end.

(** Two passes over the bits scanned of every block of the map. *)
Definition alloc_fuel (k : kind) (m : master_inode) : nat :=
  Z.to_nat (2 * DEV_BLOCK_SIZE * (map_end k m - map_start k m)).

(** [block0] is the value of [*block] before the call. *)
Definition inode_get_block (k : kind) (dev block0 : Z) : st (fs D) (inode_rtvl * Z) :=
  m ← master_get dev;
  match m with
  | None => mret (INODE_FAIL, block0)
  | Some i =>
      r ← start_map true k dev i;
      match r with
      | None => mret (INODE_FAIL, u32 INODE_NOPOS)
      | Some (ptr, bit) =>
          m ← master i;
          alloc_loop (alloc_fuel k m) k dev i ptr bit 0
      end
  end.

Definition inode_get_data_block := inode_get_block Data.
Definition inode_get_inode_block := inode_get_block Inodes.

Definition inode_free_block (k : kind) (dev block : Z) : st (fs D) inode_rtvl :=
  m ← master_get dev;
  match m with
  | None => mret INODE_FAIL
  | Some i =>
      r ← start_map false k dev i;
      match r with
      | None => mret INODE_FAIL
      | Some _ =>
          m ← master i;
          let block := u32 (block - area_start k m) in
          let ptr := u32 (block / DEV_BLOCK_SIZE + map_start k m) in
          let bit := block mod DEV_BLOCK_SIZE in
          ok ← (if negb (ptr =? map_ptr k m) then
                  _ ← set_master i (set_map_ptr k ptr);
                  _ ← set_master i (set_map_bit k bit);
                  read_map k dev i
                else
                  _ ← set_master i (set_map_bit k bit);
                  mret true);
          if (ok : bool) then
            m ← master i;
            x ← load_map k (map_mem k m);
            b ← lift (bit_get x bit);
            if b =? 0 then mret INODE_OK
            else
              x ← lift (bit_set x bit 0);
              _ ← store_map k (map_mem k m) x;
              mret INODE_OK
          else mret INODE_FAIL
      end
  end.

Definition inode_free_data_block := inode_free_block Data.
Definition inode_free_inode_block := inode_free_block Inodes.

(** ** Creating, opening and closing a file system *)

(** [for(i = from; i < to; i++) { dev_scan(dev,i); dev_write(dev,i,zero_data); }] *)
Fixpoint zero_blocks (n : nat) (dev i : Z) : st (fs D) unit :=
  match n with
  | O => mret tt
  | S n => _ ← cached (device_write dev i (replicate 512 0)); zero_blocks n dev (i + 1)
  end.

Definition zero_range (dev from to : Z) : st (fs D) unit :=
  zero_blocks (Z.to_nat (to - from)) dev from.

(** The number of map blocks for a number of blocks: one bit each, rounded
    down, but at least one. *)
Definition map_blocks (n : Z) : Z := let b := n / 8 / DEV_BLOCK_SIZE in if b =? 0 then 1 else b.

(** The master inode of a file system of [nr] blocks from [block_start]. *)
Definition layout (block_start nr : Z) (m : master_inode) : master_inode :=
  let ninodes := u32 (nr * 20) / 100 in
  let imap := map_blocks ninodes in
  let nblocks := u32 (nr * 80) / 100 in
  let bmap := map_blocks nblocks in
  let inode_map_start := u32 (block_start + 1) in
  let inode_map_end := u32 (inode_map_start + imap) in
  let bmap_map_end := u32 (inode_map_end + bmap) in
  let inode_end := u32 (bmap_map_end + ninodes) in
  {| magic := INODE_MAGIC; init_fs := 1; m_block_start := block_start;
     inode_map_start := inode_map_start; inode_map_end := inode_map_end;
     bmap_map_start := inode_map_end; bmap_map_end := bmap_map_end;
     inode_start := bmap_map_end; inode_end := inode_end;
     data_start := inode_end; data_end := u32 (inode_end + nblocks);
     imap_ptr := 0; imap_bit := 0; bmap_ptr := 0; bmap_bit := 0;
     inodes := ninodes; blocks := nblocks; m_imap := 0; m_bmap := 0;
     m_dev := m_dev m; m_pad := replicate MNODE_PAD 0 |}.

Definition inode_create_fs (cmos block_start size : Z) : st (fs D) inode_rtvl :=
  _ ← master_init;
  if negb (size mod DEV_BLOCK_SIZE =? 0) then mret INODE_FAIL
  else
    let dev := (dev_open cmos 0).2 in
    _ ← master_alloc dev;
    r ← master_get dev;
    match r with
    | None => fault
    | Some i =>
        _ ← set_master i (layout block_start (size / DEV_BLOCK_SIZE));
        m ← master i;
        _ ← cached (device_write dev block_start (enc master_inode_codec m));
        _ ← zero_range dev (inode_map_start m) (inode_map_end m);
        _ ← zero_range dev (bmap_map_start m) (bmap_map_end m);
        _ ← zero_range dev (inode_start m) (inode_end m);
        _ ← cached block_reinit;
        _ ← master_free dev;
        mret INODE_OK
    end.

Definition inode_mkfs (cmos size : Z) : st (fs D) inode_rtvl :=
  inode_create_fs cmos BLOCK_START (u32 (size - TWOMEG)).

(** Loading one of the maps when a device is opened. *)
Definition open_map (k : kind) (dev : Z) (i : nat) (row : Z) : st (fs D) bool :=
  _ ← set_master i (set_map_mem k (row + 1));
  m ← master i;
  _ ← (if map_ptr k m =? 0 then
         _ ← set_master i (set_map_ptr k (map_start k m));
         set_master i (set_map_bit k 0)
       else mret tt);
  read_map k dev i.

(** What follows the reading of the master inode. *)
Definition open_maps (dev : Z) (i : nat) : st (fs D) inode_rtvl :=
  m ← master i;
  if negb (init_fs m =? 1) then _ ← master_free dev; mret INODE_INIT
  else
    row ← master_get_mem_ptr dev;
    if row =? INODE_NOPOS then _ ← master_free dev; mret INODE_FAIL
    else
      ok ← open_map Data dev i row;
      if negb ok then _ ← master_free dev; mret INODE_FAIL
      else
        ok ← open_map Inodes dev i row;
        if negb ok then _ ← master_free dev; mret INODE_FAIL
        else mret INODE_OK.

(** [dev] is the value of [*dev] before the call; the second result the one
    after. *)
Definition inode_dev_open (cmos : Z) (path : option (list Z)) (dev : option Z)
    : st (fs D) (inode_rtvl * option Z) :=
  '(r, dev') ← cached (block_open cmos path dev);
  if block_bad r then mret (INODE_FAIL, dev')
  else
    d ← checked dev';
    _ ← master_init;
    _ ← master_alloc d;
    mi ← master_get d;
    match mi with
    | None => mret (INODE_FAIL, dev')
    | Some i =>
        m ← master i;
        '(r, data) ← cached (block_read d BLOCK_START (Some (enc master_inode_codec m)));
        _ ← set_master i (fun m => match data with Some x => dec master_inode_codec x | None => m end);
        if block_bad r then _ ← modify (set_errno EACCES); mret (INODE_FAIL, dev')
        else
          m ← master i;
          if negb (magic m =? INODE_MAGIC) then
            '(r, x) ← cached (device_read d BLOCK_START);
            _ ← set_master i (fun _ => dec master_inode_codec x);
            if dev_bad r then _ ← modify (set_errno EACCES); mret (INODE_INIT, dev')
            else
              m ← master i;
              if negb (magic m =? INODE_MAGIC) then
                _ ← master_free d; mret (INODE_INIT, dev')
              else r ← open_maps d i; mret (r, dev')
          else r ← open_maps d i; mret (r, dev')
    end.

(** Forgetting the paths of a device. *)
Definition forget_dev (dev : Z) (t : list (option (list Z) * Z)) : list (option (list Z) * Z) :=
  map (fun e => if e.2 =? dev then (None, 0) else e) t.

(** [block_close] returns no value when it succeeds; using it is a fault. *)
Definition inode_dev_close (dev : Z) : st (fs D) inode_rtvl :=
  r ← master_get dev;
  match r with
  | None => mret INODE_FAIL
  | Some i =>
      m ← master i;
      x ← load_map Inodes (m_imap m);
      r ← cached (block_write dev (imap_ptr m) x);
      if block_bad r then _ ← modify (set_errno EACCES); mret INODE_FAIL
      else
        x ← load_map Data (m_bmap m);
        r ← cached (block_write dev (bmap_ptr m) x);
        if block_bad r then _ ← modify (set_errno EACCES); mret INODE_FAIL
        else
          r ← cached (block_write dev (m_block_start m) (enc master_inode_codec m));
          if block_bad r then _ ← modify (set_errno EACCES); mret INODE_FAIL
          else
            r ← cached (block_close dev);
            r ← checked r;
            if block_bad r then mret INODE_FAIL
            else
              _ ← modify (fun s => set_dev_tab (forget_dev dev (master_dev_tab s)) s);
              _ ← master_free dev;
              mret INODE_OK
  end.
End Code.
