(* ===== verification/AllocSpec.v ===== *)
(** * Correctness of block allocation

    The allocators of [Alloc] against the interface of the buffer cache.  The
    master inode of a mounted device points at one block of the map; the copy of
    it in memory may have fewer bits set than the block on disk, since a block
    that is freed is cleared in memory only. *)

From S2P Require Import Prelude Bits Device Block Layout Alloc.

(** ** Shapes of the state *)

Definition point (k : kind) (p b : Z) (m : master_inode) : master_inode :=
  set_map_ptr k p (set_map_bit k b m).

Lemma point_self k m : point k (map_ptr k m) (map_bit k m) m = m.
Proof. destruct k, m; reflexivity. Qed.

Lemma point_dev k p b m : m_dev (point k p b m) = m_dev m.
Proof. by destruct k. Qed.

Lemma point_pad k p b m : m_pad (point k p b m) = m_pad m.
Proof. by destruct k. Qed.

Lemma point_ptr k p b m : map_ptr k (point k p b m) = p.
Proof. by destruct k. Qed.

Lemma point_mem k p b m : map_mem k (point k p b m) = map_mem k m.
Proof. by destruct k. Qed.

Lemma point_start k p b m : map_start k (point k p b m) = map_start k m.
Proof. by destruct k. Qed.

Lemma point_end k p b m : map_end k (point k p b m) = map_end k m.
Proof. by destruct k. Qed.

Lemma point_area k p b m : area_start k (point k p b m) = area_start k m.
Proof. by destruct k. Qed.

Lemma point_block_start k p b m : m_block_start (point k p b m) = m_block_start m.
Proof. by destruct k. Qed.

Lemma set_bit_point k p b b' m : set_map_bit k b' (point k p b m) = point k p b' m.
Proof. by destruct k. Qed.

Lemma set_ptr_point k p b p' m : set_map_ptr k p' (point k p b m) = point k p' b m.
Proof. by destruct k. Qed.

Lemma find_dev_insert t i m m' dev :
  t !! i = Some m -> m_dev m' = m_dev m -> find_dev (<[i := m']> t) dev = find_dev t dev.
Proof.
  intros Hi Hd. revert i Hi. induction t as [|x t IH]; intros [|i] Hi; [done..| |].
  - simplify_eq/=. by rewrite Hd.
  - simpl in *. by rewrite IH.
Qed.

Lemma le_bytes_master m : length (m_pad m) = MNODE_PAD -> length (enc master_inode_codec m) = 512%nat.
Proof.
  intros Hp. destruct m; simpl in Hp. cbn -[le_bytes MNODE_PAD].
  rewrite !length_app, !le_bytes_length. rewrite Hp. done.
Qed.

Lemma alter_insert {A} (f : A -> A) (l : list A) i x : alter f i (<[i := x]> l) = <[i := f x]> l.
Proof.
  rewrite (list_insert_alter l i x), list_alter_alter_eq. by rewrite (list_insert_alter l i (f x)).
Qed.

(** Zero and one, as the bit functions give them. *)
Lemma b2z_zero b : (Z.b2z b =? 0) = negb b.
Proof. by destruct b. Qed.

Section Allocation.
Context {D : Type} `{BlockLaws D}.

(** Nothing but the cache and what the map [k] of entry [i] points at differs
    from [s]: the pointers are [p] and [b], the map in memory [x], the cache
    [σ]. *)
Definition shape (k : kind) (i : nat) (m : master_inode) (row : nat) (s : fs D)
    (σ : bstate D) (p b : Z) (x : list Z) : fs D :=
  set_memory k (<[row := x]> (map_memory k s)) (set_tab (<[i := point k p b m]> (master_tab s)) (set_bst σ s)).

Lemma shape_self k i m row s x :
  master_tab s !! i = Some m -> map_memory k s !! row = Some x ->
  shape k i m row s (bst s) (map_ptr k m) (map_bit k m) x = s.
Proof.
  intros Hm Hx. unfold shape. rewrite point_self, (list_insert_id _ _ _ Hm), (list_insert_id _ _ _ Hx).
  by destruct k, s.
Qed.

Lemma shape_tab k i m row s σ p b x :
  master_tab (shape k i m row s σ p b x) = <[i := point k p b m]> (master_tab s).
Proof. by destruct k. Qed.

Lemma shape_memory k i m row s σ p b x :
  map_memory k (shape k i m row s σ p b x) = <[row := x]> (map_memory k s).
Proof. by destruct k. Qed.

Lemma shape_bst k i m row s σ p b x : bst (shape k i m row s σ p b x) = σ.
Proof. by destruct k. Qed.

Lemma shape_bst' k i m row s σ σ' p b x :
  set_bst σ' (shape k i m row s σ p b x) = shape k i m row s σ' p b x.
Proof. by destruct k. Qed.

Lemma shape_row k i m row s σ p b x y :
  set_memory k (<[row := y]> (map_memory k s)) (shape k i m row s σ p b x) =
  shape k i m row s σ p b y.
Proof. by destruct k. Qed.

Lemma shape_point k i m row s σ p b p' b' x :
  set_tab (<[i := point k p' b' m]> (master_tab s)) (shape k i m row s σ p b x) =
  shape k i m row s σ p' b' x.
Proof. by destruct k. Qed.

Context (k : kind) (dev : Z) (i : nat) (m : master_inode) (row : nat) (s : fs D).
Hypothesis Hm : master_tab s !! i = Some m.
Hypothesis Hrow : (row < length (map_memory k s))%nat.
Hypothesis Hmem : map_mem k m = Z.of_nat row + 1.

Notation "'at_'" := (shape k i m row s).

Lemma run_master σ p b x : master i (at_ σ p b x) = Ret (point k p b m, at_ σ p b x).
Proof.
  unfold master. unfold_st. unfold get, checked. rewrite shape_tab.
  by rewrite list_lookup_insert_eq by (by eapply lookup_lt_Some).
Qed.

Lemma run_set_master σ p b x p' b' f :
  f (point k p b m) = point k p' b' m -> set_master i f (at_ σ p b x) = Ret (tt, at_ σ p' b' x).
Proof.
  intros Hf. unfold set_master, modify. do 2 f_equal.
  by rewrite shape_tab, alter_insert, Hf, shape_point.
Qed.

Lemma run_load σ p b x : load_map k (map_mem k m) (at_ σ p b x) = Ret (x, at_ σ p b x).
Proof.
  unfold load_map. unfold_st. unfold get. rewrite Hmem.
  rewrite (proj2 (Z.leb_le _ _)) by lia. unfold checked. rewrite shape_memory.
  replace (Z.to_nat (Z.of_nat row + 1 - 1)) with row by lia. by rewrite list_lookup_insert_eq.
Qed.

Lemma run_store σ p b x y : store_map k (map_mem k m) y (at_ σ p b x) = Ret (tt, at_ σ p b y).
Proof.
  unfold store_map, modify. do 2 f_equal. rewrite Hmem, shape_memory.
  replace (Z.to_nat (Z.of_nat row + 1 - 1)) with row by lia.
  by rewrite list_insert_insert_eq, shape_row.
Qed.

Lemma run_cached {A} (f : st (bstate D) A) a σ σ' p b x :
  f σ = Ret (a, σ') -> cached f (at_ σ p b x) = Ret (a, at_ σ' p b x).
Proof. intros E. unfold cached. by rewrite shape_bst, E, shape_bst'. Qed.

(** Two caches that show the same blocks. *)
Definition same_views (σ σ' : bstate D) : Prop :=
  forall dev' b', bvalid dev' b' -> bview σ dev' b' = bview σ' dev' b'.

Lemma run_read_map σ p b x j w :
  bgood (S j) (S w) σ -> bvalid dev p ->
  exists σ', read_map k dev i (at_ σ p b x) = Ret (true, at_ σ' p b (bview σ dev p)) /\
    bgood j (S w) σ' /\ same_views σ' σ.
Proof.
  intros Hg Hv. destruct (block_read_ok j w σ dev p x Hg Hv) as (σ' & E & Hg' & Hs).
  exists σ'. split; [|done]. unfold read_map. unfold_st.
  rewrite run_master, point_mem, run_load, point_ptr.
  erewrite run_cached by exact E. cbn beta iota. rewrite run_store. done.
Qed.

(** The layout of a mounted device. *)
Record mounted : Prop := Mounted {
  mnt_start : 0 < map_start k m < map_end k m;
  mnt_blocks q : map_start k m <= q < map_end k m -> bvalid dev q;
  mnt_master : bvalid dev (m_block_start m);
  mnt_apart : ~ map_start k m <= m_block_start m < map_end k m;
  mnt_area : 0 <= area_start k m /\
    area_start k m + (map_end k m - map_start k m) * 512 <= 4294967296;
  mnt_pad : length (m_pad m) = MNODE_PAD
}.
Hypothesis Hmnt : mounted.

Definition in_map (p : Z) : Prop := map_start k m <= p < map_end k m.

Lemma mnt_addr p : in_map p -> 0 <= p < 4294967295.
Proof. intros Hp. apply mnt_blocks in Hp; [|done]. by apply bvalid_range in Hp as [_ ?]. Qed.

(** What [take_bit] leaves on disk: the master inode and the map. *)
Definition taken (σ σ' : bstate D) (p b : Z) (y : list Z) : Prop :=
  forall dev' q, bvalid dev' q ->
    bview σ' dev' q =
      if decide ((dev', q) = (dev, p)) then y
      else if decide ((dev', q) = (dev, m_block_start m)) then
        enc master_inode_codec (point k p b m)
      else bview σ dev' q.

Lemma run_take_bit σ p b0 b x j w :
  bgood (S (S j)) (S (S w)) σ -> in_map p -> 0 <= b < 512 -> length x = 512%nat ->
  exists σ' y, bit_set x b 1 = Ret y /\
    take_bit k dev i p b (at_ σ p b0 x) =
      Ret ((INODE_OK, area_start k m + (p - map_start k m) * 512 + b), at_ σ' p b y) /\
    bgood j w σ' /\ taken σ σ' p b y.
Proof.
  intros Hg Hp Hb Hx.
  destruct (bit_set_spec x b 1) as (y & Ey & Hy & _); [unfold bit_in; lia|auto|].
  destruct (block_write_ok (S j) (S w) σ dev (m_block_start m)
    (enc master_inode_codec (point k p b m))) as (σ1 & E1 & Hg1 & Hv1); [done|apply mnt_master, Hmnt| |].
  { apply le_bytes_master. rewrite point_pad. apply Hmnt. }
  destruct (block_write_ok j w σ1 dev p y) as (σ2 & E2 & Hg2 & Hv2);
    [done|by apply mnt_blocks|lia|].
  exists σ2, y. split; [done|]. split; [|split; [done|]].
  - unfold take_bit. unfold_st. rewrite run_master, point_mem, run_load, Ey. cbn [lift].
    rewrite run_store. erewrite run_set_master by apply set_bit_point.
    rewrite run_master. rewrite point_block_start.
    erewrite run_cached by exact E1. cbn [block_bad]. rewrite point_mem, run_load.
    erewrite run_cached by exact E2. cbn [block_bad]. rewrite point_area, point_start.
    do 3 f_equal. unfold DEV_BLOCK_SIZE. apply u32_small.
    pose proof (mnt_area Hmnt). unfold in_map in Hp. nia.
  - intros dev' q Hq. rewrite Hv2 by done. destruct (decide _); [done|]. by apply Hv1.
Qed.

(** *** The scan *)

(** The map as the state [s] shows it on disk. *)
Definition on_disk (p : Z) : list Z := bview (bst s) dev p.

(** Every bit set in the copy is set on disk. *)
Definition below (x y : list Z) : Prop := forall b, 0 <= b -> bit_of x b = true -> bit_of y b = true.

Lemma below_refl x : below x x.
Proof. by intros b. Qed.

(** The position of a bit in the scan. *)
Definition position (p b : Z) : Z := (p - map_start k m) * 512 + b.

(** All bits before a position are taken. *)
Definition full_until (n : Z) : Prop :=
  forall p b, in_map p -> 0 <= b < 512 -> position p b < n -> bit_of (on_disk p) b = true.

Definition map_length : Z := map_end k m - map_start k m.

(** A bit was found: it was clear in the block [y] of the map. *)
Definition found (x : list Z) (p blk : Z) (σ' : bstate D) (p' b' : Z) (x' : list Z) : Prop :=
  exists y, in_map p' /\ 0 <= b' < 512 /\ (y = x /\ p' = p \/ y = on_disk p') /\
    bit_of y b' = false /\ bit_set y b' 1 = Ret x' /\
    blk = area_start k m + position p' b' /\ taken (bst s) σ' p' b' x'.

Definition exhausted (σ' : bstate D) (p' b' : Z) (x' : list Z) : Prop :=
  full_until (map_length * 512) /\ same_views σ' (bst s) /\
  p' = map_start k m /\ b' = 0 /\ x' = on_disk p'.

(** Moving to the next bit, or wrapping around. *)
Lemma position_next p b :
  in_map p -> 0 <= b < 512 ->
  (b + 1) mod 512 <> 0 /\ (b + 1) mod 512 = b + 1 /\ b + 1 < 512 \/ (b + 1) mod 512 = 0 /\ b = 511.
Proof.
  intros _ Hb. destruct (decide (b = 511)) as [-> | ]; [by right|left].
  rewrite Z.mod_small by lia. lia.
Qed.

Lemma full_until_step n p b :
  full_until n -> in_map p -> 0 <= b < 512 -> n = position p b ->
  bit_of (on_disk p) b = true -> full_until (n + 1).
Proof.
  intros Hf Hp Hb -> Hset q c Hq Hc Hlt. destruct (decide (position q c = position p b)) as [E|E].
  - unfold position in E. assert (q = p) as -> by lia. assert (c = b) as -> by lia. done.
  - apply Hf; [done|done|lia].
Qed.

Lemma on_disk_length p j w σ :
  bgood j w σ -> same_views σ (bst s) -> in_map p -> length (on_disk p) = 512%nat.
Proof.
  intros Hg Hs Hp. unfold on_disk. rewrite <- Hs by (by apply mnt_blocks).
  eapply bview_length; [done|by apply mnt_blocks].
Qed.

(** The reads and the turns of the loop that are left. *)
Definition reads_left (p pass : Z) : nat := Z.to_nat ((2 - pass) * map_length - (p - map_start k m)).
Definition turns_left (p b pass : Z) : Z := (2 - pass) * map_length * 512 - position p b.

Definition alloc_post (j w : nat) (x : list Z) (p : Z) (r : inode_rtvl) (blk : Z)
    (σ' : bstate D) (p' b' : Z) (x' : list Z) : Prop :=
  bgood j w σ' /\
  (r = INODE_OK /\ found x p blk σ' p' b' x' \/
   r = INODE_FAIL /\ blk = INODE_NULL /\ exhausted σ' p' b' x').

Lemma alloc_post_moved j w x p y q r blk σ' p' b' x' :
  alloc_post j w y q r blk σ' p' b' x' -> y = x /\ q = p \/ y = on_disk q ->
  alloc_post j w x p r blk σ' p' b' x'.
Proof.
  intros [Hg [(Hr & z & Hp & Hb & Hz & Hf)|?]] Hy; [|by split; [|right]].
  split; [done|left]. split; [done|]. exists z. split; [done|]. split; [done|].
  split; [|done]. destruct Hz as [[-> ->]|]; [done|by right].
Qed.

Lemma taken_same σ σ' p b y : same_views σ (bst s) -> taken σ σ' p b y -> taken (bst s) σ' p b y.
Proof. intros Hs Ht dev' q Hq. rewrite (Ht dev' q Hq), (Hs dev' q Hq). done. Qed.

Lemma reads_left_next p pass : in_map (p + 1) -> in_map p -> 0 <= pass < 2 ->
  reads_left p pass = S (reads_left (p + 1) pass).
Proof.
  unfold reads_left, in_map. intros Hp1 Hp Hpass.
  assert (map_length <= (2 - pass) * map_length) by (unfold map_length; nia).
  unfold map_length in *. lia.
Qed.

Lemma reads_left_wrap p pass : in_map p -> p + 1 = map_end k m -> 0 <= pass < 2 ->
  reads_left p pass = S (reads_left (map_start k m) (pass + 1)).
Proof.
  unfold reads_left, in_map. intros Hp Hend Hpass.
  assert (map_length <= (2 - pass) * map_length) by (unfold map_length; nia).
  unfold map_length in *. lia.
Qed.

Lemma run_alloc_loop j w fuel : forall σ p b x pass,
  same_views σ (bst s) -> in_map p -> 0 <= b < 512 -> length x = 512%nat ->
  below x (on_disk p) -> 0 <= pass < 2 -> turns_left p b pass <= Z.of_nat fuel ->
  bgood (reads_left p pass + S (S j)) (S (S w)) σ ->
  (0 < pass -> full_until (position p b)) ->
  exists r blk σ' p' b' x',
    alloc_loop fuel k dev i p b pass (at_ σ p b x) = Ret ((r, blk), at_ σ' p' b' x') /\
    alloc_post j w x p r blk σ' p' b' x'.
Proof.
  induction fuel as [|fuel IH]; intros σ p b x pass Hs Hp Hb Hx Hbelow Hpass Hfuel Hg Hfull.
  { unfold turns_left, position, map_length in *. unfold in_map in Hp. nia. }
  pose proof (mnt_addr p Hp) as Haddr. pose proof (mnt_start Hmnt) as Hstart.
  cbn [alloc_loop]. unfold_st. rewrite run_master, point_mem, run_load.
  rewrite bit_get_spec by (unfold bit_in; lia). cbn [lift]. rewrite b2z_zero.
  destruct (bit_of x b) eqn:Ebit; cbn [negb].
  2:{ destruct (run_take_bit σ p b b x j w) as (σ' & y & Ey & E & Hg' & Ht); [|done..|].
      { eapply bgood_weaken; [| |exact Hg]; lia. }
      rewrite E. do 6 eexists. split; [reflexivity|]. split; [done|]. left. split; [done|].
      exists x. pose proof (taken_same _ _ _ _ _ Hs Ht).
      split_and!; [done|lia..|by left|done|done|unfold position; lia|done]. }
  pose proof (Hbelow b ltac:(lia) Ebit) as Hset.
  change DEV_BLOCK_SIZE with 512. cbn zeta.
  destruct (position_next p b Hp Hb) as [(Hne & -> & Hlt)|(-> & ->)].
  - erewrite run_set_master by apply set_bit_point.
    rewrite (proj2 (Z.eqb_neq _ _)) by lia.
    apply IH; try done; [lia| |].
    + unfold turns_left, position in *. lia.
    + intros H1. unfold position. rewrite Z.add_assoc. by eapply full_until_step; auto.
  - erewrite run_set_master by apply set_bit_point. cbn [Z.eqb].
    rewrite (u32_small (p + 1)) by lia.
    rewrite point_end, point_start.
    assert (in_map (p + 1) \/ p + 1 = map_end k m) as [Hp1|Hend] by (unfold in_map in *; lia).
    + rewrite (proj2 (Z.ltb_lt _ _)) by apply Hp1. erewrite run_set_master by apply set_ptr_point.
      destruct (run_read_map σ (p + 1) 0 x (reads_left (p + 1) pass + S (S j)) (S w))
        as (σ1 & E & Hg1 & Hs1); [|by apply mnt_blocks|].
      { by rewrite reads_left_next in Hg. }
      rewrite E, (proj2 (Z.ltb_lt pass INODE_NR_PASS)) by (unfold INODE_NR_PASS; lia).
      rewrite (Hs (dev) (p + 1)) by by apply mnt_blocks.
      assert (same_views σ1 (bst s)) as Hs1' by (intros ???; by rewrite Hs1, Hs).
      destruct (IH σ1 (p + 1) 0 (on_disk (p + 1)) pass) as (r & blk & σ' & p' & b' & x' & E' & Hpost);
        [done|done|lia|by eapply on_disk_length|apply below_refl|done| |done| |].
      * unfold turns_left, position in *. lia.
      * intros H1. replace (position (p + 1) 0) with (position p 511 + 1) by (unfold position; lia).
        by eapply full_until_step; auto.
      * do 6 eexists. split; [exact E'|]. by eapply alloc_post_moved; [|right].
    + rewrite (proj2 (Z.ltb_ge (p + 1) _)) by lia. erewrite run_set_master by apply set_ptr_point.
      assert (in_map (map_start k m)) as Hst by (unfold in_map; lia).
      destruct (run_read_map σ (map_start k m) 0 x (reads_left (map_start k m) (pass + 1) + S (S j)) (S w))
        as (σ1 & E & Hg1 & Hs1); [|by apply mnt_blocks|].
      { by rewrite reads_left_wrap in Hg. }
      rewrite E. rewrite (Hs dev (map_start k m)) by by apply mnt_blocks.
      assert (same_views σ1 (bst s)) as Hs1' by (intros ???; by rewrite Hs1, Hs).
      destruct (Z.ltb_spec (pass + 1) INODE_NR_PASS) as [Hlt|Hge]; unfold INODE_NR_PASS in *.
      * destruct (IH σ1 (map_start k m) 0 (on_disk (map_start k m)) (pass + 1))
          as (r & blk & σ' & p' & b' & x' & E' & Hpost);
          [done|done|lia|by eapply on_disk_length|apply below_refl|lia| |done| |].
        -- unfold turns_left, position, map_length in *. lia.
        -- intros _ q c Hq Hc. unfold position, in_map in *. lia.
        -- do 6 eexists. split; [exact E'|]. by eapply alloc_post_moved; [|right].
      * do 6 eexists. split; [reflexivity|]. split; [by eapply bgood_weaken; [| |exact Hg1]; lia|].
        right. split; [done|]. split; [done|]. split; [|done].
        replace (map_length * 512) with (position p 511 + 1) by (unfold position, map_length; lia).
        apply (full_until_step (position p 511) p 511); [|done|lia|done|done]. apply Hfull. lia.
Qed.
End Allocation.

(** ** The operations *)

(** The allocator of map [k] of device [dev] is in service: entry [i] of the
    table, holding [m], is the device's; the map in memory is row [row], with
    content [x]. *)
Record serving {D} `{BlockLaws D} (k : kind) (dev : Z) (i : nat) (m : master_inode) (row : nat)
    (x : list Z) (s : fs D) : Prop := Serving {
  srv_tab : master_tab s !! i = Some m;
  srv_dev : find_dev (master_tab s) dev = Some i;
  srv_memory : map_memory k s !! row = Some x;
  srv_row : map_mem k m = Z.of_nat row + 1;
  srv_mounted : mounted k dev m;
  srv_ptr : in_map k m (map_ptr k m);
  srv_bit : 0 <= map_bit k m < 512;
  srv_length : length x = 512%nat;
  srv_below : below x (on_disk dev s (map_ptr k m))
}.

(** Is a bit of the map taken, as the running system sees it? *)
Definition in_use {D} `{BlockLaws D} (k : kind) (dev : Z) (m : master_inode) (x : list Z) (s : fs D)
    (p b : Z) : bool :=
  if p =? map_ptr k m then bit_of x b else bit_of (on_disk dev s p) b.

(** The block a bit stands for. *)
Definition block_of (k : kind) (m : master_inode) (p b : Z) : Z :=
  area_start k m + (p - map_start k m) * 512 + b.

(** The operations on the cache one scan needs, besides those of later calls. *)
Definition scan_cost (k : kind) (m : master_inode) : nat :=
  Z.to_nat (2 * (map_end k m - map_start k m)) + 2.

Section Service.
Context {D : Type} `{BlockLaws D}.
Context (k : kind) (dev : Z) (i : nat) (m : master_inode) (row : nat) (x : list Z) (s : fs D).
Hypothesis Hsrv : serving k dev i m row x s.

Lemma mounted_point p b : mounted k dev (point k p b m).
Proof.
  destruct Hsrv as [_ _ _ _ [] _ _ _ _].
  split; rewrite ?point_start, ?point_end, ?point_block_start, ?point_area, ?point_pad; done.
Qed.

Lemma srv_self : shape k i m row s (bst s) (map_ptr k m) (map_bit k m) x = s.
Proof. apply shape_self; apply Hsrv. Qed.

Lemma srv_row_lt : (row < length (map_memory k s))%nat.
Proof. destruct Hsrv. by eapply lookup_lt_Some. Qed.

(** Any pointer into the map, with a copy that stays below the disk, is a state
    of service. *)
Lemma serving_shape σ p b y :
  in_map k m p -> 0 <= b < 512 -> length y = 512%nat -> below y (bview σ dev p) ->
  serving k dev i (point k p b m) row y (shape k i m row s σ p b y).
Proof.
  intros Hp Hb Hy Hbelow. pose proof (mounted_point p b). pose proof srv_row_lt.
  destruct Hsrv as [Htab Hdev _ Hrow _ _ _ _ _]. split.
  - rewrite shape_tab. apply list_lookup_insert_eq. by eapply lookup_lt_Some.
  - rewrite shape_tab. erewrite find_dev_insert by (done || apply point_dev). done.
  - rewrite shape_memory. by apply list_lookup_insert_eq.
  - by rewrite point_mem.
  - done.
  - unfold in_map. rewrite point_start, point_end, point_ptr. done.
  - destruct k; simpl; done.
  - done.
  - unfold on_disk. rewrite shape_bst, point_ptr. done.
Qed.

Lemma on_disk_srv p j w : bgood j w (bst s) -> in_map k m p -> length (on_disk dev s p) = 512%nat.
Proof. intros Hg Hp. eapply on_disk_length; [apply Hsrv|done|by intros ???|done]. Qed.

Lemma run_start_map c :
  start_map c k dev i s = Ret (Some (map_ptr k m, map_bit k m), s).
Proof.
  destruct Hsrv as [Htab _ _ _ Hmnt Hptr _ _ _].
  unfold start_map, master. unfold_st. unfold get, checked. rewrite Htab.
  pose proof (mnt_start _ _ _ Hmnt). unfold in_map in Hptr.
  rewrite (proj2 (Z.eqb_neq _ _)) by lia. done.
Qed.

Lemma run_get_block blk0 j w :
  bgood (scan_cost k m + j) (2 + w) (bst s) ->
  exists r blk σ p b y,
    inode_get_block k dev blk0 s = Ret ((r, blk), shape k i m row s σ p b y) /\
    alloc_post k dev m s j w x (map_ptr k m) r blk σ p b y.
Proof.
  intros Hg. unfold inode_get_block, master_get, gets. unfold_st. rewrite (srv_dev _ _ _ _ _ _ _ Hsrv).
  rewrite run_start_map. unfold master. unfold_st. unfold get, checked.
  rewrite (srv_tab _ _ _ _ _ _ _ Hsrv). pose proof srv_self as Eself. pose proof srv_row_lt as Hlt.
  destruct Hsrv as [Htab Hdev Hmem Hrow Hmnt Hptr Hbit Hx Hbelow].
  pose proof (mnt_start _ _ _ Hmnt) as Hst. unfold in_map in Hptr.
  destruct (run_alloc_loop k dev i m row s Htab Hlt Hrow Hmnt j w (alloc_fuel k m) (bst s)
    (map_ptr k m) (map_bit k m) x 0) as (r & blk & σ & p & b & y & E & Hpost); try done.
  3:{ exists r, blk, σ, p, b, y. rewrite Eself in E. by rewrite E. }
  - unfold turns_left, position, map_length, alloc_fuel. change DEV_BLOCK_SIZE with 512. lia.
  - eapply bgood_weaken; [| |exact Hg]; [|lia]. unfold reads_left, map_length, scan_cost. lia.
Qed.

Lemma shown_disk σ p b y q : on_disk dev (shape k i m row s σ p b y) q = bview σ dev q.
Proof. unfold on_disk. by rewrite shape_bst. Qed.

Lemma in_use_disk p c : 0 <= c -> in_use k dev m x s p c = true -> bit_of (on_disk dev s p) c = true.
Proof.
  unfold in_use. intros Hc. destruct (Z.eqb_spec p (map_ptr k m)) as [-> |]; [|done].
  by apply Hsrv.
Qed.

(** Other blocks of the map do not change. *)
Lemma taken_other σ p b y q :
  taken k dev m (bst s) σ p b y -> in_map k m q -> q <> p -> bview σ dev q = on_disk dev s q.
Proof.
  intros Ht Hq Hne. destruct Hsrv as [_ _ _ _ Hmnt _ _ _ _].
  rewrite Ht by by apply (mnt_blocks _ _ _ Hmnt).
  rewrite decide_False by congruence. rewrite decide_False; [done|].
  intros E. assert (q = m_block_start m) as -> by congruence. by apply (mnt_apart _ _ _ Hmnt).
Qed.

Lemma taken_self σ p b y :
  taken k dev m (bst s) σ p b y -> in_map k m p -> bview σ dev p = y.
Proof.
  intros Ht Hp. destruct Hsrv as [_ _ _ _ Hmnt _ _ _ _].
  rewrite Ht by by apply (mnt_blocks _ _ _ Hmnt). by rewrite decide_True.
Qed.

Lemma taken_master σ p b y :
  taken k dev m (bst s) σ p b y -> in_map k m p ->
  bview σ dev (m_block_start m) = enc master_inode_codec (point k p b m).
Proof.
  intros Ht Hp. destruct Hsrv as [_ _ _ _ Hmnt _ _ _ _].
  rewrite Ht by apply (mnt_master _ _ _ Hmnt). rewrite decide_False, decide_True; [done|done|].
  intros E. assert (m_block_start m = p) as E' by congruence. apply (mnt_apart _ _ _ Hmnt).
  by rewrite E'.
Qed.

(** What is in use after the allocation of a bit. *)
Definition now_taken (s' : fs D) (m' : master_inode) (y : list Z) (p b : Z) : Prop :=
  in_use k dev m x s p b = false /\ forall q c, in_map k m q -> 0 <= c ->
    (in_use k dev m x s q c = true \/ (q, c) = (p, b) -> in_use k dev m' y s' q c = true) /\
    (in_use k dev m' y s' q c = true -> bit_of (on_disk dev s q) c = true \/ (q, c) = (p, b)).

Lemma found_in_use blk σ p b y j w :
  bgood j w (bst s) -> found k dev m s x (map_ptr k m) blk σ p b y ->
  length y = 512%nat /\ now_taken (shape k i m row s σ p b y) (point k p b m) y p b.
Proof.
  intros Hg (z & Hp & Hb & Hz & Hclear & Hset & _ & Htaken).
  pose proof (on_disk_srv p j w Hg Hp) as Hlen.
  assert (length z = 512%nat /\ below z (on_disk dev s p) /\
    (forall c, 0 <= c -> in_use k dev m x s p c = true -> bit_of z c = true)) as (Hzl & Hzb & Hzu).
  { unfold in_use. destruct Hz as [[-> ->]| ->].
    - rewrite Z.eqb_refl. split_and!; [apply Hsrv..|done].
    - split_and!; [done|apply below_refl|]. by apply in_use_disk. }
  destruct (bit_set_spec z b 1) as (y' & Ey & Hy & Hbits); [unfold bit_in; lia|auto|].
  rewrite Ey in Hset. injection Hset as ->. split; [lia|]. split.
  { apply not_true_iff_false. intros Hu. apply Hzu in Hu; [congruence|lia]. }
  intros q c Hq Hc. unfold in_use at 2 3. rewrite point_ptr, shown_disk.
  destruct (Z.eqb_spec q p) as [-> | Hne].
  - rewrite Hbits by done. destruct (Z.eqb_spec c b) as [-> | Hcb]; [split; [done|by right]|].
    split; [intros [Hu|[= ->]]; [by apply Hzu|done]|]. intros Hu. left. by apply Hzb.
  - rewrite (taken_other _ _ _ _ _ Htaken Hq Hne). split; [|by left].
    intros [Hu|[= -> ->]]; [by apply in_use_disk|done].
Qed.
End Service.

Lemma get_block_ok {D} `{BlockLaws D} k dev i m row x (s : fs D) blk0 j w :
  serving k dev i m row x s -> bgood (scan_cost k m + j) (2 + w) (bst s) ->
  exists r blk s' p b y,
    inode_get_block k dev blk0 s = Ret ((r, blk), s') /\ bgood j w (bst s') /\
    serving k dev i (point k p b m) row y s' /\
    (r = INODE_OK /\ blk = block_of k m p b /\ in_map k m p /\ 0 <= b < 512 /\
       now_taken k dev m x s s' (point k p b m) y p b /\
       bit_of (on_disk dev s' p) b = true /\
       on_disk dev s' (m_block_start m) = enc master_inode_codec (point k p b m) \/
     r = INODE_FAIL /\ blk = 0 /\
       (forall q c, in_map k m q -> 0 <= c < 512 -> bit_of (on_disk dev s q) c = true) /\
       same_views (bst s') (bst s)).
Proof.
  intros Hsrv Hg. pose proof (srv_mounted _ _ _ _ _ _ _ Hsrv) as Hmnt.
  destruct (run_get_block k dev i m row x s Hsrv blk0 j w Hg)
    as (r & blk & σ & p & b & y & E & Hg' & [(-> & Hf)|(-> & -> & Hall & Hsame & -> & -> & ->)]).
  - destruct (found_in_use k dev i m row x s Hsrv blk σ p b y _ _ Hg Hf) as (Hy & Hnow).
    destruct Hf as (z & Hp & Hb & _ & _ & _ & -> & Ht).
    pose proof (taken_self k dev i m row x s Hsrv σ p b y Ht Hp) as Eself.
    eexists _, _, _, p, b, y. split; [exact E|]. rewrite shape_bst. split; [done|]. split.
    { apply serving_shape with x; try done. rewrite Eself. apply below_refl. }
    left. split; [done|]. split; [unfold block_of, position; lia|]. split; [done|]. split; [done|].
    split; [done|]. rewrite !shown_disk, Eself. split; [|by eapply taken_master].
    destruct Hnow as [_ Hnow]. destruct (Hnow p b Hp ltac:(lia)) as [Hnow' _].
    specialize (Hnow' ltac:(by right)). unfold in_use in Hnow'.
    by rewrite point_ptr, Z.eqb_refl in Hnow'.
  - assert (in_map k m (map_start k m)) as Hst by (pose proof (mnt_start _ _ _ Hmnt); unfold in_map; lia).
    eexists _, _, _, _, _, _. split; [exact E|]. rewrite shape_bst. split; [done|]. split.
    { apply serving_shape with x; [done|done|lia|by eapply on_disk_srv|].
      rewrite Hsame by (by apply (mnt_blocks _ _ _ Hmnt)). apply below_refl. }
    right. split; [done|]. split; [done|]. split; [|done].
    intros q c Hq Hc. apply Hall; [done|done|]. unfold position, map_length, in_map in *. nia.
Qed.

(** C1: a call of an allocator on a device in service always terminates, and
    either gives a block that was not in use, of the area the map describes,
    and marks it (and nothing else) in use, on disk as well, leaving the
    allocator in service; or, only if every bit it scans is set on disk, fails
    with block 0 and leaves the disk as it was. *)
Theorem inode_get_block_correct {D} `{BlockLaws D} k dev i m row x (s : fs D) blk0 j w :
  serving k dev i m row x s -> bgood (scan_cost k m + j) (2 + w) (bst s) ->
  exists r blk s' p b y,
    inode_get_block k dev blk0 s = Ret ((r, blk), s') /\ bgood j w (bst s') /\
    serving k dev i (point k p b m) row y s' /\
    (r = INODE_OK /\ blk = block_of k m p b /\ in_map k m p /\ 0 <= b < 512 /\
       now_taken k dev m x s s' (point k p b m) y p b /\
       bit_of (on_disk dev s' p) b = true /\
       on_disk dev s' (m_block_start m) = enc master_inode_codec (point k p b m) \/
     r = INODE_FAIL /\ blk = 0 /\
       (forall q c, in_map k m q -> 0 <= c < 512 -> bit_of (on_disk dev s q) c = true) /\
       same_views (bst s') (bst s)).
Proof. apply get_block_ok. Qed.

(** ** Freeing *)

Section Freeing.
Context {D : Type} `{BlockLaws D}.
Context (k : kind) (dev : Z) (i : nat) (m : master_inode) (row : nat) (x : list Z) (s : fs D).
Hypothesis Hsrv : serving k dev i m row x s.

(** The copy of the map block [q] that the allocator works on. *)
Definition copy_of (q : Z) : list Z := if q =? map_ptr k m then x else on_disk dev s q.

Lemma copy_in_use q c : in_use k dev m x s q c = bit_of (copy_of q) c.
Proof. unfold in_use, copy_of. by destruct (q =? map_ptr k m). Qed.

Lemma copy_ok q j w :
  bgood j w (bst s) -> in_map k m q ->
  length (copy_of q) = 512%nat /\ below (copy_of q) (on_disk dev s q).
Proof.
  intros Hg Hq. unfold copy_of. destruct (Z.eqb_spec q (map_ptr k m)) as [-> | ].
  - split; apply Hsrv.
  - split; [by eapply on_disk_srv|apply below_refl].
Qed.

(** The bit of a block of the area. *)
Lemma block_bit q c :
  in_map k m q -> 0 <= c < 512 ->
  let n := u32 (block_of k m q c - area_start k m) in
  u32 (n / DEV_BLOCK_SIZE + map_start k m) = q /\ n mod DEV_BLOCK_SIZE = c.
Proof.
  intros Hq Hc. destruct Hsrv as [_ _ _ _ Hmnt _ _ _ _].
  pose proof (mnt_area _ _ _ Hmnt). pose proof (mnt_addr k dev m Hmnt q Hq).
  pose proof (mnt_start _ _ _ Hmnt). unfold block_of, in_map, DEV_BLOCK_SIZE in *.
  replace (area_start k m + (q - map_start k m) * 512 + c - area_start k m)
    with ((q - map_start k m) * 512 + c) by lia.
  rewrite (u32_small (_ + c)) by nia.
  rewrite Z.div_add_l, Z.div_small, (Z.add_comm (_ * 512)), Z.mod_add, Z.mod_small by lia.
  split; [|done]. rewrite u32_small by lia. lia.
Qed.

(** The pointers and the copy are moved to the block of the map the bit is in. *)
Lemma run_seek q c j w :
  bgood (S j) (S w) (bst s) -> in_map k m q ->
  exists σ,
    (if negb (q =? map_ptr k m) then
       _ ← set_master i (set_map_ptr k q);
       _ ← set_master i (set_map_bit k c);
       read_map k dev i
     else
       _ ← set_master i (set_map_bit k c);
       mret true) s = Ret (true, shape k i m row s σ q c (copy_of q)) /\
    bgood j (S w) σ /\ same_views σ (bst s).
Proof.
  intros Hg Hq. pose proof (srv_self k dev i m row x s Hsrv) as Eself.
  pose proof (srv_row_lt k dev i m row x s Hsrv) as Hlt. unfold copy_of. unfold_st.
  destruct Hsrv as [Htab _ _ Hrow Hmnt _ _ _ _].
  destruct (Z.eqb_spec q (map_ptr k m)) as [-> | Hne]; cbn [negb].
  - exists (bst s). split; [|split; [by eapply bgood_weaken; [| |exact Hg]; lia|by intros ???]].
    pose proof (run_set_master k i m row s (bst s) (map_ptr k m) (map_bit k m) x
      (map_ptr k m) c _ (set_bit_point _ _ _ _ _)) as E.
    rewrite Eself in E. by rewrite E.
  - pose proof (run_set_master k i m row s (bst s) (map_ptr k m) (map_bit k m) x
      q (map_bit k m) _ (set_ptr_point _ _ _ _ _)) as E.
    rewrite Eself in E. rewrite E. erewrite run_set_master by (done || apply set_bit_point).
    eapply run_read_map; [done|done|done|done|]. by apply (mnt_blocks _ _ _ Hmnt).
Qed.

Lemma run_free_block q c j w :
  bgood (S j) (S w) (bst s) -> in_map k m q -> 0 <= c < 512 ->
  exists σ y,
    inode_free_block k dev (block_of k m q c) s = Ret (INODE_OK, shape k i m row s σ q c y) /\
    bgood j (S w) σ /\ same_views σ (bst s) /\ length y = 512%nat /\
    forall c', 0 <= c' -> bit_of y c' = if c' =? c then false else bit_of (copy_of q) c'.
Proof.
  intros Hg Hq Hc. destruct (run_seek q c j w Hg Hq) as (σ & E & Hg' & Hs).
  destruct (copy_ok q _ _ Hg Hq) as [Hlen _]. destruct (block_bit q c Hq Hc) as [Eq Ec].
  pose proof (srv_row_lt k dev i m row x s Hsrv) as Hlt.
  assert (bit_in (copy_of q) c) as Hin by (unfold bit_in; lia).
  assert (master i s = Ret (m, s)) as Em.
  { unfold master. unfold_st. unfold get, checked. by rewrite (srv_tab _ _ _ _ _ _ _ Hsrv). }
  unfold inode_free_block, master_get, gets. unfold_st.
  rewrite (srv_dev _ _ _ _ _ _ _ Hsrv), (run_start_map k dev i m row x s Hsrv), Em.
  cbn zeta. rewrite Eq, Ec. unfold_st. unfold mbind, st_bind, mret, st_ret in E. rewrite E.
  pose proof (srv_tab _ _ _ _ _ _ _ Hsrv) as Htab. pose proof (srv_row _ _ _ _ _ _ _ Hsrv) as Hrow.
  rewrite run_master, point_mem, run_load by done. rewrite bit_get_spec by done. cbn [lift].
  rewrite b2z_zero. destruct (bit_of (copy_of q) c) eqn:Ebit; cbn [negb].
  - destruct (bit_set_spec (copy_of q) c 0 Hin) as (y & Ey & Hy & Hbits); [auto|].
    rewrite Ey. cbn [lift]. rewrite run_store by done.
    exists σ, y. split; [done|]. split; [done|]. split; [done|]. split; [lia|]. exact Hbits.
  - exists σ, (copy_of q). split; [done|]. split; [done|]. split; [done|]. split; [done|].
    intros c' _. by destruct (Z.eqb_spec c' c) as [-> | ].
Qed.

Lemma freed_serving σ q c y :
  same_views σ (bst s) -> length y = 512%nat -> in_map k m q -> 0 <= c < 512 ->
  (forall c', 0 <= c' -> bit_of y c' = if c' =? c then false else bit_of (copy_of q) c') ->
  serving k dev i (point k q c m) row y (shape k i m row s σ q c y).
Proof.
  intros Hs Hy Hq Hc Hbits. apply serving_shape with x; try done.
  rewrite Hs by by apply (mnt_blocks _ _ _ (srv_mounted _ _ _ _ _ _ _ Hsrv)).
  intros c' Hc'. rewrite Hbits by done. destruct (c' =? c); [done|].
  rewrite <- copy_in_use. by apply (in_use_disk k dev i m row x s Hsrv).
Qed.

Lemma freed_in_use σ q c y q' c' :
  same_views σ (bst s) -> in_map k m q' -> 0 <= c' ->
  (forall c', 0 <= c' -> bit_of y c' = if c' =? c then false else bit_of (copy_of q) c') ->
  in_use k dev (point k q c m) y (shape k i m row s σ q c y) q' c' =
    if q' =? q then if c' =? c then false else in_use k dev m x s q c'
    else bit_of (on_disk dev s q') c'.
Proof.
  intros Hs Hq' Hc' Hbits. unfold in_use at 1. rewrite point_ptr, shown_disk.
  destruct (Z.eqb_spec q' q) as [-> | ].
  - rewrite Hbits by done. by rewrite copy_in_use.
  - rewrite Hs by by apply (mnt_blocks _ _ _ (srv_mounted _ _ _ _ _ _ _ Hsrv)). done.
Qed.
End Freeing.

(** C2: freeing a block of the area always succeeds, writes nothing to disk,
    and leaves the allocator in service at that block's bit.  The block is no
    longer in use; the other bits of its block of the map are as they were, and
    every other block of the map is again what the disk holds. *)
Theorem inode_free_block_correct {D} `{BlockLaws D} k dev i m row x (s : fs D) q c j w :
  serving k dev i m row x s -> bgood (S j) (S w) (bst s) -> in_map k m q -> 0 <= c < 512 ->
  exists s' y,
    inode_free_block k dev (block_of k m q c) s = Ret (INODE_OK, s') /\ bgood j (S w) (bst s') /\
    same_views (bst s') (bst s) /\ serving k dev i (point k q c m) row y s' /\
    forall q' c', in_map k m q' -> 0 <= c' ->
      in_use k dev (point k q c m) y s' q' c' =
        if q' =? q then if c' =? c then false else in_use k dev m x s q c'
        else bit_of (on_disk dev s q') c'.
Proof.
  intros Hsrv Hg Hq Hc.
  destruct (run_free_block k dev i m row x s Hsrv q c j w Hg Hq Hc)
    as (σ & y & E & Hg' & Hs & Hy & Hbits).
  exists (shape k i m row s σ q c y), y. rewrite shape_bst. split_and!; try done.
  - by apply (freed_serving k dev i m row x s Hsrv).
  - intros q' c' Hq' Hc'. by eapply freed_in_use.
Qed.

(** A block that was just freed is the next one allocated. *)
Theorem free_then_get {D} `{BlockLaws D} k dev i m row x (s : fs D) q c j w blk0 :
  serving k dev i m row x s -> bgood (S (scan_cost k m + j)) (3 + w) (bst s) ->
  in_map k m q -> 0 <= c < 512 ->
  exists s', (_ ← inode_free_block k dev (block_of k m q c);
              inode_get_block k dev blk0) s = Ret ((INODE_OK, block_of k m q c), s').
Proof.
  intros Hsrv Hg Hq Hc.
  destruct (run_free_block k dev i m row x s Hsrv q c (scan_cost k m + j) (2 + w) Hg Hq Hc)
    as (σ & y & E & Hg' & Hs & Hy & Hbits).
  pose proof (freed_serving k dev i m row x s Hsrv σ q c y Hs Hy Hq Hc Hbits) as Hsrv'.
  set (s1 := shape k i m row s σ q c y) in *. unfold_st. rewrite E.
  unfold inode_get_block, master_get, gets. unfold_st.
  rewrite (srv_dev _ _ _ _ _ _ _ Hsrv'), (run_start_map _ _ _ _ _ _ _ Hsrv').
  assert (map_bit k (point k q c m) = c) as Ebit by by destruct k.
  rewrite point_ptr, Ebit. pose proof (srv_row_lt k dev i m row x s Hsrv) as Hlt.
  pose proof (srv_tab _ _ _ _ _ _ _ Hsrv) as Htab. pose proof (srv_row _ _ _ _ _ _ _ Hsrv) as Hrow.
  pose proof (srv_mounted _ _ _ _ _ _ _ Hsrv) as Hmnt. pose proof (mnt_start _ _ _ Hmnt).
  unfold s1. rewrite run_master by done.
  replace (alloc_fuel k (point k q c m)) with (S (alloc_fuel k m - 1)).
  2:{ unfold alloc_fuel. rewrite point_end, point_start. unfold DEV_BLOCK_SIZE. lia. }
  cbn [alloc_loop]. unfold_st. rewrite run_master, point_mem, run_load by done.
  rewrite bit_get_spec by (unfold bit_in; lia). cbn [lift].
  rewrite Hbits, Z.eqb_refl by lia. cbn [Z.b2z Z.eqb].
  destruct (run_take_bit k dev i m row s Htab Hlt Hrow Hmnt σ q c c y j w)
    as (σ' & y' & _ & E' & _); [|done..|].
  { eapply bgood_weaken; [| |exact Hg']; unfold scan_cost; lia. }
  rewrite E'. by eexists.
Qed.

(** Freeing is forgotten: after a block of another block of the map is freed
    too, a block freed before is in use again, for it is still set on disk. *)
Theorem free_forgotten {D} `{BlockLaws D} k dev i m row x (s : fs D) q c q' c' j w :
  serving k dev i m row x s -> bgood (S (S j)) (S w) (bst s) ->
  in_map k m q -> 0 <= c < 512 -> in_map k m q' -> 0 <= c' < 512 -> q <> q' ->
  bit_of (on_disk dev s q) c = true ->
  exists s' y,
    (_ ← inode_free_block k dev (block_of k m q c);
     inode_free_block k dev (block_of k m q' c')) s = Ret (INODE_OK, s') /\
    serving k dev i (point k q' c' m) row y s' /\
    in_use k dev (point k q' c' m) y s' q c = true.
Proof.
  intros Hsrv Hg Hq Hc Hq' Hc' Hne Hset.
  destruct (run_free_block k dev i m row x s Hsrv q c (S j) w Hg Hq Hc)
    as (σ & y & E & Hg1 & Hs & Hy & Hbits).
  pose proof (freed_serving k dev i m row x s Hsrv σ q c y Hs Hy Hq Hc Hbits) as Hsrv1.
  set (s1 := shape k i m row s σ q c y) in *. set (m1 := point k q c m) in *.
  assert (in_map k m1 q' /\ in_map k m1 q) as [Hq1 Hq2].
  { unfold in_map, m1 in *. rewrite point_start, point_end. done. }
  assert (block_of k m q' c' = block_of k m1 q' c') as Eb.
  { unfold block_of, m1. by rewrite point_start, point_area. }
  assert (bst s1 = σ) as Es1 by apply shape_bst.
  destruct (run_free_block k dev i m1 row y s1 Hsrv1 q' c' j w)
    as (σ' & y' & E' & _ & Hs' & Hy' & Hbits'); [by rewrite Es1|done..|].
  pose proof (freed_serving k dev i m1 row y s1 Hsrv1 σ' q' c' y' Hs' Hy' Hq1 Hc' Hbits') as Hsrv'.
  assert (point k q' c' m1 = point k q' c' m) as Em by (unfold m1; by destruct k).
  pose proof (freed_in_use k dev i m1 row y s1 Hsrv1 σ' q' c' y' q c Hs' Hq2 ltac:(lia) Hbits') as Eu.
  rewrite Em in Hsrv', Eu.
  exists (shape k i m1 row s1 σ' q' c' y'), y'. unfold_st. rewrite E, Eb, E'.
  split; [done|]. split; [done|]. rewrite Eu, (proj2 (Z.eqb_neq _ _)) by done.
  unfold s1. rewrite shown_disk, Hs; [done|].
  by apply (mnt_blocks _ _ _ (srv_mounted _ _ _ _ _ _ _ Hsrv)).
Qed.

(** ** The two allocators of a device *)

Section Both.
Context {D : Type} `{BlockLaws D}.
Context (k k' : kind) (dev : Z) (i : nat) (m : master_inode) (row row' : nat) (x x' : list Z) (s : fs D).
Hypothesis Hne : k <> k'.
Hypothesis Hsrv : serving k dev i m row x s.
Hypothesis Hsrv' : serving k' dev i m row' x' s.
Hypothesis Hapart : forall q, in_map k m q -> in_map k' m q -> False.

Lemma other_fields p b :
  map_ptr k' (point k p b m) = map_ptr k' m /\ map_bit k' (point k p b m) = map_bit k' m /\
  map_start k' (point k p b m) = map_start k' m /\ map_end k' (point k p b m) = map_end k' m /\
  area_start k' (point k p b m) = area_start k' m /\ map_mem k' (point k p b m) = map_mem k' m.
Proof. by destruct k, k'. Qed.

Lemma other_memory σ p b y : map_memory k' (shape k i m row s σ p b y) = map_memory k' s.
Proof. by destruct k, k'. Qed.

Lemma other_serving σ p b y :
  (forall q, in_map k' m q -> bview σ dev q = on_disk dev s q) ->
  serving k' dev i (point k p b m) row' x' (shape k i m row s σ p b y) /\
  forall q c, in_map k' m q ->
    in_use k' dev (point k p b m) x' (shape k i m row s σ p b y) q c = in_use k' dev m x' s q c.
Proof.
  intros Hv. destruct (other_fields p b) as (E1 & E2 & E3 & E4 & E5 & E6).
  destruct Hsrv' as [Htab Hdev Hmem Hrow [] Hptr Hbit Hx Hbelow]. split.
  - split; rewrite ?E1, ?E2; try done.
    + rewrite shape_tab. apply list_lookup_insert_eq. by eapply lookup_lt_Some.
    + rewrite shape_tab. erewrite find_dev_insert by (done || apply point_dev). done.
    + by rewrite other_memory.
    + by rewrite E6.
    + split; rewrite ?E3, ?E4, ?E5, ?point_block_start, ?point_pad; done.
    + unfold in_map. by rewrite E3, E4.
    + by rewrite shown_disk, Hv.
  - intros q c Hq. unfold in_use. rewrite E1, shown_disk, Hv by done. done.
Qed.

Lemma taken_elsewhere σ p b y q :
  taken k dev m (bst s) σ p b y -> in_map k m p -> in_map k' m q -> bview σ dev q = on_disk dev s q.
Proof.
  intros Ht Hp Hq. destruct Hsrv' as [_ _ _ _ Hmnt _ _ _ _].
  rewrite Ht by by apply (mnt_blocks _ _ _ Hmnt).
  rewrite decide_False.
  2:{ intros E. assert (q = p) as -> by congruence. by eapply Hapart. }
  rewrite decide_False; [done|].
  intros E. assert (q = m_block_start m) as -> by congruence. by apply (mnt_apart _ _ _ Hmnt).
Qed.

Lemma allocation_keeps_other blk0 j w :
  bgood (scan_cost k m + j) (2 + w) (bst s) ->
  exists r blk s' m' y,
    inode_get_block k dev blk0 s = Ret ((r, blk), s') /\ bgood j w (bst s') /\
    serving k dev i m' row y s' /\ serving k' dev i m' row' x' s' /\
    forall q c, in_map k' m q -> in_use k' dev m' x' s' q c = in_use k' dev m x' s q c.
Proof.
  intros Hg. pose proof (srv_mounted _ _ _ _ _ _ _ Hsrv) as Hmnt.
  pose proof (srv_mounted _ _ _ _ _ _ _ Hsrv') as Hmnt'.
  destruct (run_get_block k dev i m row x s Hsrv blk0 j w Hg)
    as (r & blk & σ & p & b & y & E & Hg' & Hpost).
  assert (serving k dev i (point k p b m) row y (shape k i m row s σ p b y) /\
    forall q, in_map k' m q -> bview σ dev q = on_disk dev s q) as [Hs1 Hv].
  { destruct Hpost as [(-> & Hf)|(-> & -> & _ & Hsame & -> & -> & ->)].
    - destruct (found_in_use k dev i m row x s Hsrv blk σ p b y _ _ Hg Hf) as (Hy & _).
      destruct Hf as (z & Hp & Hb & _ & _ & _ & _ & Ht). split.
      + apply serving_shape with x; try done.
        rewrite (taken_self k dev i m row x s Hsrv σ p b y Ht Hp). apply below_refl.
      + intros q Hq. by eapply taken_elsewhere.
    - assert (in_map k m (map_start k m)) as Hst
        by (pose proof (mnt_start _ _ _ Hmnt); unfold in_map; lia). split.
      + apply serving_shape with x; [done|done|lia|exact (on_disk_srv k dev i m row x s Hsrv _ _ _ Hg Hst)|].
        rewrite Hsame by (by apply (mnt_blocks _ _ _ Hmnt)). apply below_refl.
      + intros q Hq. apply Hsame. by apply (mnt_blocks _ _ _ Hmnt'). }
  destruct (other_serving σ p b y Hv) as [Hs2 Hu].
  eexists r, blk, _, _, y. split; [exact E|]. rewrite shape_bst.
  exact (conj Hg' (conj Hs1 (conj Hs2 Hu))).
Qed.
End Both.

(** The allocators of data and of inode blocks do not disturb each other:
    whatever one of them does, the other stays in service with exactly the same
    bits in use. *)
Theorem allocators_independent {D} `{BlockLaws D} k k' dev i m row row' x x' (s : fs D) blk0 j w :
  k <> k' -> serving k dev i m row x s -> serving k' dev i m row' x' s ->
  (forall q, in_map k m q -> in_map k' m q -> False) ->
  bgood (scan_cost k m + j) (2 + w) (bst s) ->
  exists r blk s' m' y,
    inode_get_block k dev blk0 s = Ret ((r, blk), s') /\ bgood j w (bst s') /\
    serving k dev i m' row y s' /\ serving k' dev i m' row' x' s' /\
    forall q c, in_map k' m q -> in_use k' dev m' x' s' q c = in_use k' dev m x' s q c.
Proof.
  intros Hne Hs Hs' Ha Hg.
  exact (allocation_keeps_other k k' dev i m row row' x x' s Hne Hs Hs' Ha blk0 j w Hg).
Qed.
