(* ===== verification/Mkfs.v ===== *)
(** * Making and opening a file system

    [inode_mkfs] followed by [inode_dev_open], on any drive that obeys the laws
    of [Device]: the medium ends up with the layout the formulas of
    [inode_create_fs] give, and both allocators are in service. *)

From S2P Require Import Prelude Bits Device Block Layout Alloc AllocSpec.

(** ** The layout *)

Lemma map_blocks_spec n : 0 <= n -> 1 <= map_blocks n /\ map_blocks n = Z.max 1 (n / 4096).
Proof.
  intros Hn. unfold map_blocks, DEV_BLOCK_SIZE. rewrite Z.div_div by lia. change (8 * 512) with 4096.
  assert (0 <= n / 4096) by (apply Z.div_pos; lia).
  destruct (Z.eqb_spec (n / 4096) 0); lia.
Qed.

(** The numbers [layout] computes, without the wrap-around. *)
Record layout_of (start nr : Z) (m : master_inode) : Prop := LayoutOf {
  lo_magic : magic m = INODE_MAGIC /\ init_fs m = 1 /\ m_block_start m = start;
  lo_inodes : inodes m = nr * 20 / 100 /\ blocks m = nr * 80 / 100;
  lo_imap : inode_map_start m = start + 1 /\
    inode_map_end m = inode_map_start m + Z.max 1 (inodes m / 4096);
  lo_bmap : bmap_map_start m = inode_map_end m /\
    bmap_map_end m = bmap_map_start m + Z.max 1 (blocks m / 4096);
  lo_area : inode_start m = bmap_map_end m /\ inode_end m = inode_start m + inodes m /\
    data_start m = inode_end m /\ data_end m = data_start m + blocks m;
  lo_ptrs : imap_ptr m = 0 /\ imap_bit m = 0 /\ bmap_ptr m = 0 /\ bmap_bit m = 0 /\
    m_imap m = 0 /\ m_bmap m = 0;
  lo_pad : m_pad m = replicate MNODE_PAD 0
}.

Lemma layout_spec start nr m :
  0 <= start <= 1048576 -> 0 <= nr <= 8388608 -> layout_of start nr (layout start nr m).
Proof.
  intros Hs Hn.
  assert (0 <= nr * 20 / 100 <= nr * 20) by (split; [apply Z.div_pos|apply Z.div_le_upper_bound]; lia).
  assert (0 <= nr * 80 / 100 <= nr * 80) by (split; [apply Z.div_pos|apply Z.div_le_upper_bound]; lia).
  assert (forall n, 0 <= n <= 671088640 -> 0 <= n / 4096 <= 163840) as Hdiv
    by (intros; split; [apply Z.div_pos|apply Z.div_le_upper_bound]; lia).
  pose proof (Hdiv (nr * 20 / 100) ltac:(lia)). pose proof (Hdiv (nr * 80 / 100) ltac:(lia)).
  unfold layout. rewrite (u32_small (nr * 20)), (u32_small (nr * 80)) by lia.
  destruct (map_blocks_spec (nr * 20 / 100)) as [? ->]; [lia|].
  destruct (map_blocks_spec (nr * 80 / 100)) as [? ->]; [lia|].
  rewrite (u32_small (start + 1)) by lia.
  rewrite (u32_small (start + 1 + _)) by lia. rewrite (u32_small (start + 1 + _ + Z.max 1 _)) by lia.
  rewrite !u32_small by lia. split; cbn -[Z.max Z.div Z.mul Z.add MNODE_PAD replicate]; try done.
Qed.

Section Mkfs.
Context {D : Type} `{DeviceLaws D}.

(** ** Writing to the medium *)

(** The state with another medium. *)
Definition on_medium (d : D) (s : fs D) : fs D := set_bst (BState (cache (bst s)) d) s.

Definition medium (s : fs D) : D := disk (bst s).

Lemma on_medium_twice d d' s : on_medium d (on_medium d' s) = on_medium d s.
Proof. done. Qed.

Lemma on_medium_self s : on_medium (medium s) s = s.
Proof. by destruct s as [[? ?]]. Qed.

Lemma run_device_write s dev b x :
  dvalid dev b -> length x = 512%nat ->
  exists d', cached (device_write dev b x) s = Ret (DEV_OK, on_medium d' s) /\
    forall b', dvalid dev b' -> content d' dev b' = if b' =? b then x else content (medium s) dev b'.
Proof.
  intros Hv Hx. destruct (dev_write_content (medium s) dev b x Hv Hx) as (d' & E & Hc & Ho).
  exists d'. split.
  - unfold cached, device_write. unfold medium in E. rewrite E. done.
  - intros b' Hb'. destruct (Z.eqb_spec b' b) as [-> | Hne]; [done|]. apply Ho; congruence.
Qed.

Lemma run_zero_blocks n dev : forall s from,
  (forall b, from <= b < from + Z.of_nat n -> dvalid dev b) ->
  exists d', zero_blocks n dev from s = Ret (tt, on_medium d' s) /\
    forall b, dvalid dev b ->
      content d' dev b = if (from <=? b) && (b <? from + Z.of_nat n) then replicate 512 0
                         else content (medium s) dev b.
Proof.
  induction n as [|n IH]; intros s from Hv.
  { exists (medium s). rewrite on_medium_self. split; [done|]. intros b _.
    by destruct (Z.leb_spec from b), (Z.ltb_spec b (from + Z.of_nat 0)); try lia. }
  destruct (run_device_write s dev from (replicate 512 0)) as (d1 & E1 & Hc1);
    [apply Hv; lia|apply length_replicate|].
  destruct (IH (on_medium d1 s) (from + 1)) as (d' & E & Hc); [intros; apply Hv; lia|].
  exists d'. rewrite on_medium_twice in E. split.
  - cbn [zero_blocks]. unfold_st. by rewrite E1, E.
  - intros b Hb. rewrite Hc by done. unfold medium at 1. cbn [bst on_medium set_bst disk].
    rewrite Hc1 by done.
    destruct (Z.leb_spec (from + 1) b), (Z.ltb_spec b (from + 1 + Z.of_nat n)),
      (Z.leb_spec from b), (Z.ltb_spec b (from + Z.of_nat (S n))), (Z.eqb_spec b from); cbn [andb];
      done || lia.
Qed.

Lemma run_zero_range s dev from to :
  from <= to -> (forall b, from <= b < to -> dvalid dev b) ->
  exists d', zero_range dev from to s = Ret (tt, on_medium d' s) /\
    forall b, dvalid dev b ->
      content d' dev b = if (from <=? b) && (b <? to) then replicate 512 0
                         else content (medium s) dev b.
Proof.
  intros Hle Hv. unfold zero_range.
  destruct (run_zero_blocks (Z.to_nat (to - from)) dev s from) as (d' & E & Hc).
  { intros b Hb. apply Hv. lia. }
  exists d'. split; [done|]. intros b Hb. rewrite Hc by done.
  replace (from + Z.of_nat (Z.to_nat (to - from))) with to by lia. done.
Qed.

(** ** The table of devices *)

Definition free_entry : master_inode := set_m_dev (u32 INODE_NOPOS) zero_master.

(** The table when only the first entry is taken. *)
Definition table (m : master_inode) : list master_inode := m :: replicate 15 free_entry.

Lemma free_entry_dev : m_dev free_entry = 4294967295.
Proof. vm_compute. done. Qed.

Lemma find_table m : m_dev m = 0 -> find_dev (table m) 0 = Some O.
Proof. intros E. cbn [find_dev table]. by rewrite E. Qed.

Lemma find_free n : find_dev (replicate n free_entry) 0 = None.
Proof. induction n as [|n IH]; [done|]. cbn [find_dev replicate]. rewrite free_entry_dev. change (u32 0) with 0. by rewrite IH. Qed.

(** A system whose tables are those of [master_init], with [m] in the first
    entry and the copies [x] and [y] of its maps. *)
Definition sys (σ : bstate D) (m : master_inode) (x y : list Z)
    (t : list (option (list Z) * Z)) (e : Z) : fs D :=
  Fs σ true (table m) (x :: replicate 15 (replicate 512 0)) (y :: replicate 15 (replicate 512 0)) t e.

Lemma sys_init (s : fs D) :
  init_master s = false ->
  master_init s = Ret (tt, sys (bst s) free_entry (replicate 512 0) (replicate 512 0)
                             (master_dev_tab s) (errno s)).
Proof. intros Hi. unfold master_init. unfold_st. unfold get. rewrite Hi. reflexivity. Qed.

Lemma sys_init_done σ m x y t e : master_init (sys σ m x y t e) = Ret (tt, sys σ m x y t e).
Proof. reflexivity. Qed.

Lemma sys_master σ m x y t e : master 0 (sys σ m x y t e) = Ret (m, sys σ m x y t e).
Proof. reflexivity. Qed.

Lemma sys_set f σ m x y t e : set_master 0 f (sys σ m x y t e) = Ret (tt, sys σ (f m) x y t e).
Proof. reflexivity. Qed.

Lemma sys_get σ m x y t e :
  m_dev m = 0 -> master_get 0 (sys σ m x y t e) = Ret (Some O, sys σ m x y t e).
Proof. intros Hd. unfold master_get, gets. cbn [master_tab sys]. by rewrite find_table. Qed.

Lemma sys_row σ m x y t e :
  m_dev m = 0 -> master_get_mem_ptr 0 (sys σ m x y t e) = Ret (0, sys σ m x y t e).
Proof. intros Hd. unfold master_get_mem_ptr, gets. cbn [master_tab sys]. by rewrite find_table. Qed.

Lemma sys_alloc σ x y t e :
  master_alloc 0 (sys σ free_entry x y t e) =
    Ret (Some O, sys σ (set_m_dev 0 free_entry) x y t e).
Proof.
  unfold master_alloc, master_get, gets. unfold_st. cbn [master_tab sys].
  change (table free_entry) with (replicate 16 free_entry). rewrite find_free.
  unfold get. cbn [master_tab sys table find_dev]. rewrite free_entry_dev. reflexivity.
Qed.

Lemma sys_free σ m x y t e :
  m_dev m = 0 -> master_free 0 (sys σ m x y t e) = Ret (tt, sys σ free_entry x y t e).
Proof. intros Hd. unfold master_free. unfold_st. rewrite sys_get by done. reflexivity. Qed.

Lemma sys_cached {A} (f : st (bstate D) A) a σ σ' m x y t e :
  f σ = Ret (a, σ') -> cached f (sys σ m x y t e) = Ret (a, sys σ' m x y t e).
Proof. intros E. unfold cached. cbn [bst sys]. by rewrite E. Qed.

(** ** inode_create_fs *)

Lemma dev_open_first cmos : (dev_open cmos 0).2 = 0.
Proof. unfold dev_open. by destruct (0 <? ata_nr_drives cmos). Qed.

(** The blocks a file system of [size] bytes may touch. *)
Hypothesis Hdrive : forall b, 0 <= b < 4194304 -> dvalid 0 b.

Definition fs_blocks (size : Z) : Z := (size - TWOMEG) / DEV_BLOCK_SIZE.

Definition size_ok (size : Z) : Prop :=
  TWOMEG <= size < 4294967296 /\ size mod DEV_BLOCK_SIZE = 0.

(** The master inode [inode_mkfs] writes. *)
Definition fresh_master (size : Z) : master_inode :=
  layout BLOCK_START (fs_blocks size) (set_m_dev 0 free_entry).

Lemma fs_blocks_range size : size_ok size ->
  0 <= fs_blocks size <= 8388608 /\ u32 (size - TWOMEG) / DEV_BLOCK_SIZE = fs_blocks size /\
  u32 (size - TWOMEG) mod DEV_BLOCK_SIZE = 0.
Proof.
  unfold size_ok, fs_blocks, TWOMEG, DEV_BLOCK_SIZE. intros [Hs Hm].
  rewrite u32_small by lia. split; [|split; [done|]].
  - split; [apply Z.div_pos|apply Z.div_le_upper_bound]; lia.
  - replace 2097152 with (4096 * 512) by lia. rewrite <- Zminus_mod_idemp_r.
    rewrite Z.mod_mul by lia. by rewrite Z.sub_0_r.
Qed.

Lemma fresh_layout size : size_ok size -> layout_of BLOCK_START (fs_blocks size) (fresh_master size).
Proof. intros Hs. apply layout_spec; [unfold BLOCK_START; lia|]. by apply fs_blocks_range. Qed.

Lemma layout_dev start nr m : m_dev (layout start nr m) = m_dev m.
Proof. reflexivity. Qed.

(** The areas of a fresh file system follow each other, within the blocks that
    may be touched. *)
Lemma fresh_bounds size : size_ok size ->
  let m := fresh_master size in
  m_block_start m = 4096 /\ inode_map_start m = 4097 /\
  4098 <= inode_map_end m /\ inode_map_end m = bmap_map_start m /\
  bmap_map_start m + 1 <= bmap_map_end m <= 8192 /\ bmap_map_end m = inode_start m /\
  inode_start m <= inode_end m <= 2097152 /\ inode_end m = data_start m /\
  inode_map_end m - inode_map_start m <= 410 /\ bmap_map_end m - bmap_map_start m <= 1639 /\
  data_start m <= data_end m <= 16777216.
Proof.
  intros Hs m. destruct (fresh_layout size Hs) as [(_ & _ & E1) [E2 E3] [E4 E5] [E6 E7] (E8 & E9 & E10 & E11) _ _].
  fold m in E1, E2, E3, E4, E5, E6, E7, E8, E9, E10, E11.
  destruct (fs_blocks_range size Hs) as [Hn _]. unfold BLOCK_START in *.
  assert (0 <= inodes m <= 1677722) as Hi
    by (rewrite E2; split; [apply Z.div_pos|apply Z.div_le_upper_bound]; lia).
  assert (0 <= blocks m <= 6710887) as Hb
    by (rewrite E3; split; [apply Z.div_pos|apply Z.div_le_upper_bound]; lia).
  assert (0 <= inodes m / 4096 <= 410) by (split; [apply Z.div_pos|apply Z.div_le_upper_bound]; lia).
  assert (0 <= blocks m / 4096 <= 1639) by (split; [apply Z.div_pos|apply Z.div_le_upper_bound]; lia).
  lia.
Qed.

Definition zeros : list Z := replicate 512 0.

(** The medium after [inode_mkfs]. *)
Definition made (size : Z) (d d' : D) : Prop :=
  let m := fresh_master size in
  forall b, dvalid 0 b ->
    content d' 0 b =
      if b =? BLOCK_START then enc master_inode_codec m
      else if (inode_map_start m <=? b) && (b <? inode_end m) then zeros
      else content d 0 b.

Definition reinit (c : bcache) : bcache :=
  {| init := false; curr := curr c; highest := highest c; slots := slots c |}.

Lemma sys_medium d σ m x y t e :
  on_medium d (sys σ m x y t e) = sys (BState (cache σ) d) m x y t e.
Proof. reflexivity. Qed.

Lemma sys_device_write σ m x y t e b z :
  dvalid 0 b -> length z = 512%nat ->
  exists d', cached (device_write 0 b z) (sys σ m x y t e) =
      Ret (DEV_OK, sys (BState (cache σ) d') m x y t e) /\
    forall b', dvalid 0 b' -> content d' 0 b' = if b' =? b then z else content (disk σ) 0 b'.
Proof. apply run_device_write. Qed.

Lemma sys_zero_range σ m x y t e from to :
  from <= to -> (forall b, from <= b < to -> dvalid 0 b) ->
  exists d', zero_range 0 from to (sys σ m x y t e) =
      Ret (tt, sys (BState (cache σ) d') m x y t e) /\
    forall b, dvalid 0 b ->
      content d' 0 b = if (from <=? b) && (b <? to) then zeros else content (disk σ) 0 b.
Proof. apply run_zero_range. Qed.

(** From any state that is the empty table once [master_init] has run. *)
Lemma run_mkfs cmos size s σ t e :
  master_init s = Ret (tt, sys σ free_entry zeros zeros t e) -> size_ok size ->
  exists d', inode_mkfs cmos size s =
      Ret (INODE_OK, sys (BState (reinit (cache σ)) d') free_entry zeros zeros t e) /\
    made size (disk σ) d'.
Proof.
  intros Hi Hs. destruct (fs_blocks_range size Hs) as (_ & En & Em).
  destruct (fresh_bounds size Hs) as (B1 & B2 & B3 & B4 & B5 & B6 & B7 & _).
  unfold inode_mkfs, inode_create_fs. unfold_st. rewrite Hi.
  rewrite Em, En. cbn [negb Z.eqb]. rewrite dev_open_first. cbn zeta.
  rewrite sys_alloc, sys_get by done. rewrite sys_set. fold (fresh_master size).
  set (m := fresh_master size) in *. rewrite sys_master.
  assert (length (enc master_inode_codec m) = 512%nat) as Hlen.
  { apply le_bytes_master. unfold m. rewrite (lo_pad _ _ _ (fresh_layout size Hs)). apply length_replicate. }
  destruct (sys_device_write σ m zeros zeros t e BLOCK_START
    (enc master_inode_codec m)) as (d1 & E1 & C1); [apply Hdrive; unfold BLOCK_START; lia|done|].
  rewrite E1.
  destruct (sys_zero_range (BState (cache σ) d1) m zeros zeros t e
    (inode_map_start m) (inode_map_end m)) as (d2 & E2 & C2); [lia|intros; apply Hdrive; lia|].
  rewrite E2.
  destruct (sys_zero_range (BState (cache σ) d2) m zeros zeros t e
    (bmap_map_start m) (bmap_map_end m)) as (d3 & E3 & C3); [lia|intros; apply Hdrive; lia|].
  cbn [cache]. rewrite E3.
  destruct (sys_zero_range (BState (cache σ) d3) m zeros zeros t e
    (inode_start m) (inode_end m)) as (d4 & E4 & C4); [lia|intros; apply Hdrive; lia|].
  cbn [cache]. rewrite E4. cbn [cache].
  erewrite sys_cached by reflexivity. rewrite sys_free by done.
  exists d4. split; [done|]. intros b Hb. fold m. cbn [disk] in *.
  rewrite C4, C3, C2, C1 by done. unfold BLOCK_START in *. zcases; cbn [andb]; done || lia.
Qed.

(** ** inode_dev_open *)

Definition data_copy (k : kind) (x y : list Z) : list Z := match k with Data => x | Inodes => y end.
Definition with_copy (k : kind) (z x y : list Z) : list Z * list Z :=
  match k with Data => (z, y) | Inodes => (x, z) end.

Lemma sys_load k σ m x y t e : load_map k 1 (sys σ m x y t e) = Ret (data_copy k x y, sys σ m x y t e).
Proof. by destruct k. Qed.

Lemma sys_store k z σ m x y t e :
  store_map k 1 z (sys σ m x y t e) =
    Ret (tt, sys σ m (with_copy k z x y).1 (with_copy k z x y).2 t e).
Proof. by destruct k. Qed.

Lemma sys_open_map k σ m x y t e j w :
  m_dev m = 0 -> map_ptr k m = 0 -> map_start k m <> 0 -> bvalid 0 (map_start k m) ->
  bgood (S j) (S w) σ ->
  exists σ', open_map k 0 0 0 (sys σ m x y t e) =
      Ret (true, let z := bview σ 0 (map_start k m) in
        sys σ' (point k (map_start k m) 0 (set_map_mem k 1 m))
          (with_copy k z x y).1 (with_copy k z x y).2 t e) /\
    bgood j (S w) σ' /\ same_views σ' σ.
Proof.
  intros Hd Hp Hs Hv Hg.
  destruct (block_read_ok j w σ 0 (map_start k m) (data_copy k x y) Hg Hv) as (σ' & E & Hg' & Hsame).
  exists σ'. split; [|done]. unfold open_map. unfold_st. rewrite sys_set, sys_master.
  change (0 + 1) with 1.
  assert (map_ptr k (set_map_mem k 1 m) = 0) as -> by (by destruct k).
  assert (map_start k (set_map_mem k 1 m) = map_start k m) as -> by (by destruct k).
  cbn [Z.eqb]. rewrite !sys_set.
  assert (set_map_bit k 0 (set_map_ptr k (map_start k m) (set_map_mem k 1 m)) =
    point k (map_start k m) 0 (set_map_mem k 1 m)) as -> by (by destruct k).
  unfold read_map. unfold_st. rewrite sys_master, point_ptr, point_mem.
  assert (map_mem k (set_map_mem k 1 m) = 1) as -> by (by destruct k).
  rewrite sys_load. erewrite sys_cached by exact E. cbn beta iota. by rewrite sys_store.
Qed.

(** The master inode in memory once a device with master [m] is open. *)
Definition opened_master (m : master_inode) : master_inode :=
  point Inodes (inode_map_start m) 0
    (set_map_mem Inodes 1 (point Data (bmap_map_start m) 0 (set_map_mem Data 1 m))).

(** A medium with a master inode that was never opened. *)
Record made_master (d : D) (m : master_inode) : Prop := MadeMaster {
  mm_content : content d 0 BLOCK_START = enc master_inode_codec m;
  mm_cok : cok master_inode_codec m;
  mm_magic : magic m = INODE_MAGIC /\ init_fs m = 1;
  mm_dev : m_dev m = 0;
  mm_ptrs : imap_ptr m = 0 /\ bmap_ptr m = 0;
  mm_maps : inode_map_start m <> 0 /\ bmap_map_start m <> 0;
  mm_valid : dvalid 0 BLOCK_START /\ dvalid 0 (inode_map_start m) /\ dvalid 0 (bmap_map_start m)
}.

Lemma run_open cmos path dev0 σ t e m j w :
  init (cache σ) = false -> 0 <= highest (cache σ) < BLOCK_MAX_LRU - Z.of_nat (3 + j) ->
  (w < 128)%nat -> (dev_open cmos dev0).2 = 0 -> made_master (disk σ) m ->
  exists σ', inode_dev_open cmos (Some path) (Some dev0) (sys σ free_entry zeros zeros t e) =
      Ret ((INODE_OK, Some 0),
           sys σ' (opened_master m) (content (disk σ) 0 (bmap_map_start m))
             (content (disk σ) 0 (inode_map_start m)) t e) /\
    bgood j (S w) σ' /\ forall b, dvalid 0 b -> bview σ' 0 b = content (disk σ) 0 b.
Proof.
  intros Hi Hh Hw Hdev [Hc Hok [Hmagic Hinit] Hd [Hp1 Hp2] [Hs1 Hs2] (Hv & Hv1 & Hv2)].
  destruct (block_open_spec σ cmos path dev0 (3 + j) Hi Hh) as (σ1 & E1 & _ & _ & Hinv & Hr & Hview).
  change (snd (dev_open cmos dev0)) with ((dev_open cmos dev0).2) in E1. rewrite Hdev in E1.
  assert (forall b, dvalid 0 b -> bview σ1 0 b = content (disk σ) 0 b) as Hview'
    by (intros b Hb; by apply Hview).
  assert (bgood (3 + j) (S w) σ1) as Hg1 by (split; [done|apply (ready_weaken _ 128); [done|lia]]).
  unfold inode_dev_open. unfold_st. erewrite sys_cached by exact E1. cbn [block_bad checked].
  rewrite sys_init_done, sys_alloc, sys_get by done. rewrite sys_master.
  destruct (block_read_ok (2 + j) w σ1 0 BLOCK_START (enc master_inode_codec (set_m_dev 0 free_entry))
    Hg1 Hv) as (σ2 & E2 & Hg2 & Hs2').
  erewrite sys_cached by exact E2. cbn beta iota. rewrite sys_set.
  rewrite Hview', Hc, dec_enc by done.
  cbn [block_bad]. rewrite sys_master, Hmagic. cbn [Z.eqb Pos.eqb negb INODE_MAGIC].
  unfold open_maps. unfold_st. rewrite sys_master, Hinit. cbn [Z.eqb Pos.eqb negb].
  rewrite sys_row by done. cbn [Z.eqb INODE_NOPOS].
  destruct (sys_open_map Data σ2 m zeros zeros t e (1 + j) w Hd Hp2 Hs2 Hv2 Hg2) as (σ3 & E3 & Hg3 & Hs3).
  rewrite E3. cbn [negb with_copy fst snd]. cbn zeta.
  set (m1 := point Data _ _ _).
  destruct (sys_open_map Inodes σ3 m1 (bview σ2 0 (map_start Data m)) zeros t e j w Hd Hp1 Hs1 Hv1 Hg3)
    as (σ4 & E4 & Hg4 & Hs4).
  rewrite E4. cbn [negb with_copy fst snd]. cbn zeta.
  assert (forall b, dvalid 0 b -> bview σ4 0 b = content (disk σ) 0 b) as Hfinal.
  { intros b Hb. rewrite (Hs4 0 b Hb), (Hs3 0 b Hb), (Hs2' 0 b Hb). by apply Hview'. }
  exists σ4. split; [|done]. do 2 f_equal.
  assert (bview σ2 0 (map_start Data m) = content (disk σ) 0 (bmap_map_start m)) as ->.
  { etrans; [exact (Hs2' 0 _ Hv2)|by apply Hview']. }
  assert (bview σ3 0 (map_start Inodes m1) = content (disk σ) 0 (inode_map_start m)) as ->.
  { change (map_start Inodes m1) with (inode_map_start m).
    rewrite (Hs3 0 _ Hv1), (Hs2' 0 _ Hv1). by apply Hview'. }
  done.
Qed.

(** ** The two together *)

Lemma fresh_cok size : size_ok size -> cok master_inode_codec (fresh_master size).
Proof.
  intros Hs. pose proof (fresh_bounds size Hs) as Hb. cbv zeta in Hb.
  pose proof (fresh_layout size Hs) as [[E1 [E2 E3]] [E4 E5] _ _ _ (E6 & E7 & E8 & E9 & E10 & E11) E12].
  assert (m_dev (fresh_master size) = 0) as E13 by done.
  destruct (fs_blocks_range size Hs) as [Hn _].
  assert (0 <= fs_blocks size * 20 / 100 < 4294967296) by (split; [apply Z.div_pos|apply Z.div_lt_upper_bound]; lia).
  assert (0 <= fs_blocks size * 80 / 100 < 4294967296) by (split; [apply Z.div_pos|apply Z.div_lt_upper_bound]; lia).
  destruct (fresh_master size).
  cbn -[MNODE_PAD replicate Z.mul Z.div] in E1, E2, E3, E4, E5, E6, E7, E8, E9, E10, E11, E12, E13, Hb.
  subst. change (INODE_MAGIC) with 1925.
  cbn -[MNODE_PAD replicate Z.mul Z.div Z.of_nat].
  change (256 ^ Z.of_nat 2 / 2) with 32768. change (256 ^ Z.of_nat 4) with 4294967296.
  repeat (split; [lia|]). split; [apply length_replicate|].
  apply Forall_replicate. unfold byte. lia.
Qed.

(** Both allocators of a device just opened, whose maps are the blocks [x] and
    [y] of the medium. *)
Lemma opened_serving k size σ x t e :
  size_ok size -> length x = 512%nat ->
  (forall p, in_map k (fresh_master size) p -> below x (bview σ 0 p)) ->
  serving k 0 0 (opened_master (fresh_master size)) 0 x (sys σ (opened_master (fresh_master size)) x x t e).
Proof.
  intros Hs Hx Hb.
  pose proof (fresh_bounds size Hs) as (B1 & B2 & B3 & B4 & B5 & B6 & B7 & B8 & B9 & B10 & B11).
  assert (m_pad (fresh_master size) = replicate MNODE_PAD 0) as Hpad by by apply fresh_layout.
  assert (m_dev (fresh_master size) = 0) as Hd by done.
  set (m := fresh_master size) in *. clearbody m. unfold in_map in Hb.
  split; [done|by apply find_table|by destruct k|by destruct k| |..|done|].
  - split.
    + destruct k; simpl; lia.
    + intros q Hq. apply Hdrive. destruct k; simpl in Hq; lia.
    + apply Hdrive. destruct k; simpl; lia.
    + destruct k; simpl; lia.
    + destruct k; simpl; lia.
    + change (length (m_pad m) = MNODE_PAD). rewrite Hpad. apply length_replicate.
  - unfold in_map. destruct k; simpl; lia.
  - destruct k; simpl; lia.
  - unfold on_disk. cbn [bst sys]. apply Hb. destruct k; simpl; lia.
Qed.

Lemma bit_of_zeros b : bit_of zeros b = false.
Proof.
  unfold bit_of, zeros. destruct (replicate 512 0 !! Z.to_nat (b / 8)) as [c|] eqn:E; [|done].
  apply lookup_replicate in E as [-> _]. apply Z.bits_0.
Qed.

Lemma run_mkfs_open cmos path dev0 size s σ0 t e j w :
  master_init s = Ret (tt, sys σ0 free_entry zeros zeros t e) -> size_ok size ->
  0 <= highest (cache σ0) < BLOCK_MAX_LRU - Z.of_nat (3 + j) -> (w < 128)%nat ->
  (dev_open cmos dev0).2 = 0 ->
  exists σ, (_ ← inode_mkfs cmos size; inode_dev_open cmos (Some path) (Some dev0)) s =
      Ret ((INODE_OK, Some 0), sys σ (opened_master (fresh_master size)) zeros zeros t e) /\
    bgood j (S w) σ /\
    forall b, inode_map_start (fresh_master size) <= b < inode_end (fresh_master size) ->
      bview σ 0 b = zeros.
Proof.
  intros Hi Hs Hh Hw Hd. destruct (run_mkfs cmos size s σ0 t e Hi Hs) as (d' & E & Hmade).
  pose proof (fresh_bounds size Hs) as (B1 & B2 & B3 & B4 & B5 & B6 & B7 & _).
  pose proof (fresh_layout size Hs) as [(E1 & E2 & _) _ _ _ _ (E6 & _ & E8 & _) _].
  assert (forall b, inode_map_start (fresh_master size) <= b < inode_end (fresh_master size) ->
    content d' 0 b = zeros) as Hzero.
  { intros b Hb. rewrite Hmade by (apply Hdrive; lia). unfold BLOCK_START. zcases; done || lia. }
  destruct (run_open cmos path dev0 (BState (reinit (cache σ0)) d') t e
    (fresh_master size) j w) as (σ & Eo & Hg & Hv); [done|done|done|done| |].
  { split; cbn [disk]; [|by apply fresh_cok|done|done|done|lia|].
    - rewrite Hmade by (apply Hdrive; unfold BLOCK_START; lia). by rewrite Z.eqb_refl.
    - split_and!; apply Hdrive; unfold BLOCK_START; lia. }
  exists σ. unfold_st. rewrite E, Eo. cbn [disk] in *. split; [|split; [done|]].
  - do 3 f_equal; apply Hzero; lia.
  - intros b Hb. rewrite Hv by (apply Hdrive; lia). by apply Hzero.
Qed.
End Mkfs.

Lemma mkfs_open_serving {D} `{DeviceLaws D} cmos path dev0 size (s : fs D) σ0 t e j w :
  (forall b, 0 <= b < 4194304 -> dvalid 0 b) -> master_init s = Ret (tt, sys σ0 free_entry zeros zeros t e) -> size_ok size ->
  0 <= highest (cache σ0) < BLOCK_MAX_LRU - Z.of_nat (3 + j) -> (w < 128)%nat ->
  (dev_open cmos dev0).2 = 0 ->
  let m := opened_master (fresh_master size) in
  exists s', (_ ← inode_mkfs cmos size; inode_dev_open cmos (Some path) (Some dev0)) s =
      Ret ((INODE_OK, Some 0), s') /\ bgood j (S w) (bst s') /\ master_dev_tab s' = t /\
    forall k, serving k 0 0 m 0 zeros s' /\
      forall p b, in_map k m p -> in_use k 0 m zeros s' p b = false.
Proof.
  intros Hdrive Hi Hs Hh Hw Hd m.
  destruct (run_mkfs_open Hdrive cmos path dev0 size s σ0 t e j w Hi Hs Hh Hw Hd) as (σ & E & Hg & Hz).
  eexists. split; [exact E|]. split; [exact Hg|]. split; [done|]. intros k.
  pose proof (fresh_bounds size Hs) as (B1 & B2 & B3 & B4 & B5 & B6 & B7 & _).
  assert (forall p, in_map k (fresh_master size) p -> bview σ 0 p = zeros) as Hp.
  { intros p Hp. apply Hz. unfold in_map in Hp. destruct k; cbn [map_start map_end] in Hp; lia. }
  split.
  - apply opened_serving; [done..| |]; [apply length_replicate|]. intros p Hin. rewrite Hp by done.
    apply below_refl.
  - intros p b Hin. unfold in_use, on_disk. cbn [bst sys]. rewrite Hp by by destruct k.
    rewrite bit_of_zeros. by destruct (p =? _).
Qed.

(** Making a file system on a working drive and opening it succeeds, puts
    the device in the first entry of the table, and leaves both allocators in
    service with every bit of both maps free. *)
Theorem mkfs_then_open {D} `{DeviceLaws D} cmos path dev0 size (s : fs D) j w :
  (forall b, 0 <= b < 4194304 -> dvalid 0 b) -> init_master s = false -> size_ok size ->
  0 <= highest (cache (bst s)) < BLOCK_MAX_LRU - Z.of_nat (3 + j) -> (w < 128)%nat ->
  (dev_open cmos dev0).2 = 0 ->
  let m := opened_master (fresh_master size) in
  exists s', (_ ← inode_mkfs cmos size; inode_dev_open cmos (Some path) (Some dev0)) s =
      Ret ((INODE_OK, Some 0), s') /\ bgood j (S w) (bst s') /\
    forall k, serving k 0 0 m 0 zeros s' /\
      forall p b, in_map k m p -> in_use k 0 m zeros s' p b = false.
Proof.
  intros Hdrive Hi Hs Hh Hw Hd m.
  destruct (mkfs_open_serving cmos path dev0 size s _ _ _ j w Hdrive (sys_init s Hi) Hs Hh Hw Hd) as (s' & E & Hg & _ & Hk).
  by exists s'.
Qed.

(** ** Capacity *)

Lemma map_capacity n : 0 <= n -> Z.max 1 (n / 4096) * 512 <= Z.max 512 (n / 8).
Proof.
  intros Hn. change 4096 with (8 * 512). rewrite <- Z.div_div by lia.
  pose proof (Z.div_mod (n / 8) 512). pose proof (Z.mod_pos_bound (n / 8) 512).
  assert (0 <= n / 8) by (apply Z.div_pos; lia). lia.
Qed.

(** The layout [inode_mkfs] computes: the master inode, the two maps, the
    inodes and the data follow each other without a gap; a bit of a map never
    stands for a block past the eighth of its area (or the first 512 blocks);
    and the areas end past the end of the disk. *)
Theorem mkfs_layout size :
  size_ok size -> let m := fresh_master size in
  layout_of BLOCK_START (fs_blocks size) m /\
  (forall p b, in_map Inodes m p -> 0 <= b < 512 ->
    inode_start m <= block_of Inodes m p b < inode_start m + Z.max 512 (inodes m / 8)) /\
  (forall p b, in_map Data m p -> 0 <= b < 512 ->
    data_start m <= block_of Data m p b < data_start m + Z.max 512 (blocks m / 8)) /\
  size / DEV_BLOCK_SIZE < data_end m.
Proof.
  intros Hs m. pose proof (fresh_layout size Hs) as Hl. split; [done|].
  pose proof (fresh_bounds size Hs) as (B1 & B2 & B3 & B4 & B5 & B6 & B7 & B8 & B9 & B10 & B11).
  destruct (fs_blocks_range size Hs) as (Hn & _).
  destruct Hl as [_ [E2 E3] [E4 E5] [E6 E7] (E8 & E9 & E10 & E11) _ _]. fold m in B1, B2, B3, B4, B5, B6, B7, B8, B9, B10, B11, E2, E3, E4, E5, E6, E7, E8, E9, E10, E11.
  assert (0 <= inodes m /\ 0 <= blocks m /\ fs_blocks size - 1 <= inodes m + blocks m) as (Hi & Hb & Hsum).
  { rewrite E2, E3. pose proof (Z.div_mod (fs_blocks size * 20) 100).
    pose proof (Z.mod_pos_bound (fs_blocks size * 20) 100).
    pose proof (Z.div_mod (fs_blocks size * 80) 100).
    pose proof (Z.mod_pos_bound (fs_blocks size * 80) 100). lia. }
  pose proof (map_capacity (inodes m) Hi). pose proof (map_capacity (blocks m) Hb).
  unfold in_map, block_of. cbn [map_start map_end area_start]. split_and!; [intros; nia..|].
  assert (size / DEV_BLOCK_SIZE = fs_blocks size + 4096) as ->; [|lia].
  unfold fs_blocks, TWOMEG, DEV_BLOCK_SIZE.
  replace size with (size - 2097152 + 4096 * 512) at 1 by lia. by rewrite Z.div_add.
Qed.

(** On a small disk the areas overlap: when there are fewer than 512
    inodes, the two allocators can give out the same block. *)
Theorem small_fs_overlaps size :
  size_ok size -> fs_blocks size * 20 / 100 < 512 -> let m := fresh_master size in
  exists p b q c, in_map Inodes m p /\ 0 <= b < 512 /\ in_map Data m q /\ 0 <= c < 512 /\
    block_of Inodes m p b = block_of Data m q c.
Proof.
  intros Hs Hsmall m. pose proof (fresh_bounds size Hs) as (B1 & B2 & B3 & B4 & B5 & B6 & B7 & B8 & B9 & B10 & B11).
  pose proof (fresh_layout size Hs) as [_ [E2 E3] _ _ (E8 & E9 & E10 & E11) _ _].
  fold m in B1, B2, B3, B4, B5, B6, B7, B8, B9, B10, B11, E2, E3, E8, E9, E10, E11.
  exists (inode_map_start m), (inodes m), (bmap_map_start m), 0.
  unfold in_map, block_of. cbn [map_start map_end area_start]. lia.
Qed.

(** ** Concrete runs *)

(** The system before any file system call, over a drive of zeros. *)
Definition boot : fs mem_drive :=
  Fs (bstate_boot ∅) false [] [] [] (replicate MAX_DEV (None, 0)) 0.

(** A disk of 7 megabytes. *)
Definition seven_meg : Z := TWOMEG + 512 * 10240.

Lemma seven_meg_ok : size_ok seven_meg.
Proof. unfold size_ok, seven_meg, TWOMEG, DEV_BLOCK_SIZE. split; [lia|done]. Qed.

Lemma mem_drive_blocks b : 0 <= b < 4194304 -> dvalid (D := mem_drive) 0 b.
Proof. intros Hb. apply dvalid_mem; [lia|]. change CHS_LIMIT with 66060288. lia. Qed.

Lemma boot_fresh : 0 <= highest (cache (bst boot)) < BLOCK_MAX_LRU - Z.of_nat (3 + 1000).
Proof. change (highest (cache (bst boot))) with 0. unfold BLOCK_MAX_LRU. lia. Qed.

Lemma mkfs_then_open_witness :
  exists s', (_ ← inode_mkfs 0xF0 seven_meg; inode_dev_open 0xF0 (Some [47]) (Some 0)) boot =
      Ret ((INODE_OK, Some 0), s') /\
    in_use Data 0 (opened_master (fresh_master seven_meg)) zeros s'
      (bmap_map_start (fresh_master seven_meg)) 5 = false.
Proof.
  destruct (mkfs_then_open 0xF0 [47] 0 seven_meg boot 1000 100)
    as (s' & E & _ & Hk); [exact mem_drive_blocks|reflexivity|exact seven_meg_ok|exact boot_fresh|lia|
      reflexivity|].
  exists s'. split; [exact E|]. destruct (Hk Data) as [_ Hfree]. apply Hfree.
  vm_compute. split; congruence.
Defined.

Lemma mkfs_layout_witness : seven_meg / DEV_BLOCK_SIZE < data_end (fresh_master seven_meg).
Proof. apply (mkfs_layout seven_meg seven_meg_ok). Defined.

Lemma small_fs_overlaps_witness :
  exists p b q c, in_map Inodes (fresh_master (TWOMEG + 512 * 2000)) p /\ 0 <= b < 512 /\
    in_map Data (fresh_master (TWOMEG + 512 * 2000)) q /\ 0 <= c < 512 /\
    block_of Inodes (fresh_master (TWOMEG + 512 * 2000)) p b =
    block_of Data (fresh_master (TWOMEG + 512 * 2000)) q c.
Proof.
  apply small_fs_overlaps; [unfold size_ok, TWOMEG, DEV_BLOCK_SIZE; split; [lia|reflexivity]|].
  vm_compute. reflexivity.
Defined.

(** The disk just made and opened. *)
Definition seven_master : master_inode := opened_master (fresh_master seven_meg).

Lemma seven_opened :
  exists s : fs mem_drive, bgood 1000 100 (bst s) /\ (forall k, serving k 0 0 seven_master 0 zeros s /\
    forall p b, in_map k seven_master p -> in_use k 0 seven_master zeros s p b = false).
Proof.
  destruct (mkfs_open_serving 0xF0 [47] 0 seven_meg boot (bst boot) (master_dev_tab boot) (errno boot) 1000 99) as (s' & _ & Hg & _ & Hk);
    [exact mem_drive_blocks|exact (sys_init boot eq_refl)|exact seven_meg_ok|exact boot_fresh|lia|reflexivity|].
  by exists s'.
Qed.

Lemma seven_map p : in_map Data seven_master p <-> p = 4098 \/ p = 4099.
Proof.
  unfold in_map. change (map_start Data seven_master) with 4098.
  change (map_end Data seven_master) with 4100. lia.
Qed.

Lemma inode_get_block_correct_witness :
  exists (s : fs mem_drive) blk s', inode_get_block Data 0 0 s = Ret ((INODE_OK, blk), s') /\
    in_use Data 0 seven_master zeros s 4098 0 = false /\ in_map Data seven_master 4098.
Proof.
  destruct seven_opened as (s & Hg & Hk). destruct (Hk Data) as [Hsrv Hfree].
  assert (in_map Data seven_master 4098) as Hp by (apply seven_map; auto).
  destruct (inode_get_block_correct Data 0 0 seven_master 0 zeros s 0 10 10)
    as (r & blk & s' & p & b & y & E & _ & _ & [(-> & _)|(_ & _ & Hall & _)]);
    [exact Hsrv|eapply bgood_weaken; [| |exact Hg]; vm_compute; lia| |].
  - exists s, blk, s'. split; [exact E|]. split; [apply Hfree, Hp|exact Hp].
  - exfalso. specialize (Hfree 4099 0 ltac:(apply seven_map; auto)).
    specialize (Hall 4099 0 ltac:(apply seven_map; auto) ltac:(lia)).
    change (in_use Data 0 seven_master zeros s 4099 0) with (bit_of (on_disk 0 s 4099) 0) in Hfree.
    rewrite Hfree in Hall. discriminate.
Defined.

Lemma inode_free_block_correct_witness :
  exists (s s' : fs mem_drive) y,
    inode_free_block Data 0 (block_of Data seven_master 4099 7) s = Ret (INODE_OK, s') /\
    in_use Data 0 (point Data 4099 7 seven_master) y s' 4099 7 = false.
Proof.
  destruct seven_opened as (s & Hg & Hk). destruct (Hk Data) as [Hsrv _].
  assert (in_map Data seven_master 4099) as Hp by (apply seven_map; auto).
  destruct (inode_free_block_correct Data 0 0 seven_master 0 zeros s 4099 7 10 10)
    as (s' & y & E & _ & _ & _ & Hu);
    [exact Hsrv|eapply bgood_weaken; [| |exact Hg]; lia|exact Hp|lia|].
  exists s, s', y. split; [exact E|]. rewrite Hu by (exact Hp || lia). reflexivity.
Defined.

Lemma free_then_get_witness :
  exists s s' : fs mem_drive, (_ ← inode_free_block Data 0 (block_of Data seven_master 4099 7);
    inode_get_block Data 0 0) s = Ret ((INODE_OK, block_of Data seven_master 4099 7), s').
Proof.
  destruct seven_opened as (s & Hg & Hk). destruct (Hk Data) as [Hsrv _]. exists s.
  apply (free_then_get Data 0 0 seven_master 0 zeros s 4099 7 10 10 0);
    [exact Hsrv|eapply bgood_weaken; [| |exact Hg]; vm_compute; lia|apply seven_map; auto|lia].
Defined.

(** A state in which a block was allocated. *)
Lemma seven_allocated :
  exists (s : fs mem_drive) m y q c q', bgood 10 10 (bst s) /\ serving Data 0 0 m 0 y s /\
    in_map Data m q /\ in_map Data m q' /\ q <> q' /\ 0 <= c < 512 /\
    bit_of (on_disk 0 s q) c = true.
Proof.
  destruct seven_opened as (s & Hg & Hk). destruct (Hk Data) as [Hsrv Hfree].
  destruct (get_block_ok Data 0 0 seven_master 0 zeros s 0 10 10 Hsrv)
    as (r & blk & s' & p & b & y & _ & Hg' & Hsrv' & [(_ & _ & Hp & Hb & _ & Hset & _)|(_ & _ & Hall & _)]).
  { eapply bgood_weaken; [| |exact Hg]; vm_compute; lia. }
  - assert (forall q, in_map Data (point Data p b seven_master) q <-> in_map Data seven_master q) as Hm.
    { intros q. unfold in_map. by rewrite point_start, point_end. }
    exists s', (point Data p b seven_master), y, p, b, (if p =? 4098 then 4099 else 4098).
    rewrite !Hm, !seven_map in *. destruct Hp as [-> | ->]; cbn [Z.eqb Pos.eqb]; split_and!; auto; lia.
  - specialize (Hfree 4099 0 ltac:(apply seven_map; auto)).
    specialize (Hall 4099 0 ltac:(apply seven_map; auto) ltac:(lia)).
    change (in_use Data 0 seven_master zeros s 4099 0) with (bit_of (on_disk 0 s 4099) 0) in Hfree.
    congruence.
Qed.

Lemma free_forgotten_witness :
  exists (s s' : fs mem_drive) m y q c q',
    (_ ← inode_free_block Data 0 (block_of Data m q c);
     inode_free_block Data 0 (block_of Data m q' 0)) s = Ret (INODE_OK, s') /\
    in_use Data 0 (point Data q' 0 m) y s' q c = true.
Proof.
  destruct seven_allocated as (s & m & y & q & c & q' & Hg & Hsrv & Hq & Hq' & Hne & Hc & Hset).
  destruct (free_forgotten Data 0 0 m 0 y s q c q' 0 8 9) as (s' & y' & E & _ & Hu);
    [exact Hsrv|exact Hg|exact Hq|exact Hc|exact Hq'|lia|exact Hne|exact Hset|].
  exists s, s', m, y', q, c, q'. split; [exact E|exact Hu].
Defined.

Lemma allocators_independent_witness :
  exists (s s' : fs mem_drive) r blk m',
    inode_get_block Data 0 0 s = Ret ((r, blk), s') /\ serving Inodes 0 0 m' 0 zeros s' /\
    in_use Inodes 0 m' zeros s' 4097 3 = in_use Inodes 0 seven_master zeros s 4097 3.
Proof.
  destruct seven_opened as (s & Hg & Hk). destruct (Hk Data) as [Hsrv _]. destruct (Hk Inodes) as [Hsrv' _].
  destruct (allocators_independent Data Inodes 0 0 seven_master 0 0 zeros zeros s 0 10 10)
    as (r & blk & s' & m' & y & E & _ & _ & Hs' & Hu);
    [discriminate|exact Hsrv|exact Hsrv'| |eapply bgood_weaken; [| |exact Hg]; vm_compute; lia|].
  - intros q Hq%seven_map. unfold in_map. change (map_start Inodes seven_master) with 4097.
    change (map_end Inodes seven_master) with 4098. lia.
  - exists s, s', r, blk, m'. split; [exact E|]. split; [exact Hs'|]. apply Hu. vm_compute. split; congruence.
Defined.
