(* ===== verification/Store.v ===== *)
(** * What the inode tree uses of the layers below

    The tree of inodes is a client of the buffer cache and of the block
    allocators; the interface [FsOps] names the operations it calls, and the
    instance on [fs D] is the code of [fs/block.c] and [fs/inode.c]. *)

From S2P Require Import Prelude Errno Bits Device Block Layout Alloc.

Class FsOps (S : Type) := {
  (** [master_get(dev)->inode_start]; [None] when there is no master inode. *)
  root_block : Z -> st S (option Z);
  (** [block_read(dev, block, data) == BLOCK_OK], and [data] after the call. *)
  read_block : Z -> Z -> list Z -> st S (bool * list Z);
  write_block : Z -> Z -> list Z -> st S bool;
  (** The status and [*block] after the call; the last argument is [*block] before. *)
  get_inode_block : Z -> Z -> st S (inode_rtvl * Z);
  get_data_block : Z -> Z -> st S (inode_rtvl * Z);
  free_inode_block : Z -> Z -> st S inode_rtvl;
  free_data_block : Z -> Z -> st S inode_rtvl;
  put_errno : Z -> st S unit;
  the_errno : S -> Z
}.

#[export] Instance fs_ops {D} `{PioDrive D} : FsOps (fs D) := {|
  root_block dev :=
    m ← master_get dev;
    match m with None => mret None | Some i => m ← master i; mret (Some (inode_start m)) end;
  read_block dev block data :=
    '(r, x) ← cached (block_read dev block (Some data)); mret (negb (block_bad r), default data x);
  write_block dev block data := r ← cached (block_write dev block data); mret (negb (block_bad r));
  get_inode_block := inode_get_inode_block;
  get_data_block := inode_get_data_block;
  free_inode_block := inode_free_inode_block;
  free_data_block := inode_free_data_block;
  put_errno e := modify (set_errno e);
  the_errno := errno
|}.

(** ** Structures read and written as blocks *)

Section Typed.
Context {S : Type} `{FsOps S} {A : Type} (c : codec A).

Definition read_as (dev block : Z) (a : A) : st S (bool * A) :=
  '(ok, x) ← read_block dev block (enc c a); mret (ok : bool, dec c x).

Definition write_as (dev block : Z) (a : A) : st S bool := write_block dev block (enc c a).
End Typed.

(** Leaving with an error number and a status. *)
Definition fail_with {S A} `{FsOps S} (e : Z) (r : A) : st S A := _ ← put_errno e; mret r.
