(* ===== verification/StoreSpec.v ===== *)
(** * What the store of blocks promises to the inode tree

    [StoreLaws] states the laws of the operations of [FsOps] on one mounted
    device: what a read shows, what a write changes, that an allocator gives a
    block that was not in use.  [good k w] is a state in which [k] more reads and
    [w] more writes can be made before the buffer cache has to be reopened.  The
    small store in memory of this file is an instance for concrete runs. *)

From stdpp Require Import gmap.
From S2P Require Import Prelude Errno Bits Device Block Layout Alloc Store.

Class StoreLaws (S : Type) `{FsOps S} (dev root : Z) := {
  (** The blocks of inodes and the blocks of data. *)
  area : kind -> Z -> Prop;
  view : S -> Z -> list Z;
  used : S -> Z -> Prop;
  good : nat -> nat -> S -> Prop;
  alloc_cost : nat;
  area_range κ b : area κ b -> 0 < b < 4294967296;
  areas_apart b : area Data b -> area Inodes b -> False;
  good_weaken k w k' w' s : (k' <= k)%nat -> (w' <= w)%nat -> good k w s -> good k' w' s;
  view_length k w s κ b : good k w s -> area κ b -> length (view s b) = 512%nat;
  root_area : area Inodes root;
  root_block_ok k w s : good k w s -> root_block dev s = Ret (Some root, s);
  put_errno_ok k w s e : good k w s -> exists s', put_errno e s = Ret (tt, s') /\ good k w s' /\
    the_errno s' = e /\ (forall κ b, area κ b -> view s' b = view s b) /\ (forall b, used s' b <-> used s b);
  read_block_ok k w s κ b data : good (Datatypes.S k) (Datatypes.S w) s -> area κ b ->
    exists s', read_block dev b data s = Ret ((true, view s b), s') /\ good k (Datatypes.S w) s' /\
      (forall κ b, area κ b -> view s' b = view s b) /\ (forall b, used s' b <-> used s b);
  write_block_ok k w s κ b data : good (Datatypes.S k) (Datatypes.S w) s -> area κ b ->
    length data = 512%nat ->
    exists s', write_block dev b data s = Ret (true, s') /\ good k w s' /\
      (forall κ c, area κ c -> view s' c = if c =? b then data else view s c) /\
      (forall b, used s' b <-> used s b);
  (** A block that was not in use, or block 0 and a failure. *)
  alloc_ok κ k w s b0 : good (alloc_cost + k) (2 + w) s ->
    exists r b s', (match κ with Data => get_data_block | Inodes => get_inode_block end) dev b0 s = Ret ((r, b), s') /\
      good k w s' /\ (forall κ c, area κ c -> view s' c = view s c) /\ (forall c, used s c -> used s' c) /\
      (r = INODE_OK /\ area κ b /\ ~ used s b /\ used s' b \/ r = INODE_FAIL /\ b = 0);
  (** The other blocks in use stay in use. *)
  free_ok κ k w s b : good (Datatypes.S k) (Datatypes.S w) s -> area κ b ->
    exists s', (match κ with Data => free_data_block | Inodes => free_inode_block end) dev b s = Ret (INODE_OK, s') /\
      good k (Datatypes.S w) s' /\ (forall κ c, area κ c -> view s' c = view s c) /\
      ~ used s' b /\ (forall c, used s c -> c <> b -> used s' c)
}.
Arguments area S {_} dev root {_}.
Arguments view {S _} dev root {_} _ _.
Arguments used {S _} dev root {_} _ _.
Arguments good {S _} dev root {_} _ _ _.
Arguments alloc_cost S {_} dev root {_}.

(** ** A store in memory *)

Record mem := Mem { cells : gmap Z (list Z); mem_used : gset Z; mem_errno : Z }.

Definition mem_root : Z := 100.
Definition mem_start (κ : kind) : Z := match κ with Data => 200 | Inodes => 100 end.
Definition mem_size (κ : kind) : Z := match κ with Data => 300 | Inodes => 100 end.
Definition mem_area (κ : kind) (b : Z) : Prop := mem_start κ <= b < mem_start κ + mem_size κ.
Definition mem_view (s : mem) (b : Z) : list Z := default (replicate 512 0) (cells s !! b).
(** Block 0, of no area, can be read as well. *)
Definition mem_valid (b : Z) : bool := (b =? 0) || (100 <=? b) && (b <? 500).

Definition mem_alloc (κ : kind) (s : mem) : outcome ((inode_rtvl * Z) * mem) :=
  match list_find (fun b => b ∉ mem_used s) (seqZ (mem_start κ) (mem_size κ)) with
  | Some (_, b) => Ret ((INODE_OK, b), Mem (cells s) ({[b]} ∪ mem_used s) (mem_errno s))
  | None => Ret ((INODE_FAIL, 0), s)
  end.
Definition mem_free (b : Z) (s : mem) : outcome (inode_rtvl * mem) :=
  Ret (INODE_OK, Mem (cells s) (mem_used s ∖ {[b]}) (mem_errno s)).

#[export] Instance mem_ops : FsOps mem := {|
  root_block dev s := Ret (Some mem_root, s);
  read_block dev b data s := Ret (if mem_valid b then (true, mem_view s b) else (false, data), s);
  write_block dev b data s :=
    if mem_valid b then Ret (true, Mem (<[b := data]> (cells s)) (mem_used s) (mem_errno s)) else Ret (false, s);
  get_inode_block dev b := mem_alloc Inodes;
  get_data_block dev b := mem_alloc Data;
  free_inode_block dev b := mem_free b;
  free_data_block dev b := mem_free b;
  put_errno e s := Ret (tt, Mem (cells s) (mem_used s) e);
  the_errno := mem_errno
|}.

Definition mem_good (s : mem) : Prop := forall b, length (mem_view s b) = 512%nat.

Lemma mem_valid_area κ b : mem_area κ b -> mem_valid b = true.
Proof. unfold mem_area, mem_valid. destruct κ; cbn; lia. Qed.

#[export] Program Instance mem_laws dev : StoreLaws mem dev mem_root := {|
  area := mem_area;
  view := mem_view;
  used s b := b ∈ mem_used s;
  good k w s := mem_good s;
  alloc_cost := 0
|}.
Next Obligation. intros dev κ b. unfold mem_area. destruct κ; cbn; lia. Qed.
Next Obligation. intros dev b. unfold mem_area. cbn. lia. Qed.
Next Obligation. done. Qed.
Next Obligation. intros dev k w s κ b Hg _. apply Hg. Qed.
Next Obligation. unfold mem_area, mem_root. cbn. lia. Qed.
Next Obligation. done. Qed.
Next Obligation. intros dev k w s e Hg. eexists. by split. Qed.
Next Obligation.
  intros dev k w s κ b data Hg Ha. cbn. rewrite (mem_valid_area κ b Ha). eexists. by split.
Qed.
Next Obligation.
  intros dev k w s κ b data Hg Ha Hl. cbn. rewrite (mem_valid_area κ b Ha). eexists. split; [done|].
  assert (forall c, mem_view (Mem (<[b := data]> (cells s)) (mem_used s) (mem_errno s)) c =
    if c =? b then data else mem_view s c) as Hv.
  { intros c. unfold mem_view. cbn [cells]. destruct (Z.eqb_spec c b) as [->|Hne].
    - by rewrite lookup_insert_eq.
    - by rewrite lookup_insert_ne. }
  split; [|split; [intros _ c _; apply Hv|done]].
  intros c. rewrite Hv. destruct (c =? b); [done|apply Hg].
Qed.
Next Obligation.
  intros dev κ k w s b0 Hg.
  assert ((match κ with Data => get_data_block | Inodes => get_inode_block end) 0 b0 s = mem_alloc κ s) as E
    by (by destruct κ).
  assert (exists r b s', mem_alloc κ s = Ret ((r, b), s') /\ mem_good s' /\
    (forall c, mem_view s' c = mem_view s c) /\ (forall c, (c ∈ mem_used s) -> (c ∈ mem_used s')) /\
    (r = INODE_OK /\ mem_area κ b /\ (b ∉ mem_used s) /\ (b ∈ mem_used s') \/ r = INODE_FAIL /\ b = 0))
    as (r & b & s' & E' & Hg' & Hv & Hu & Hr).
  { unfold mem_alloc. destruct (list_find _ _) as [[i b]|] eqn:Ef.
    - apply list_find_Some in Ef as (Hi & Hb & _). apply lookup_seqZ in Hi as [-> Hi].
      do 3 eexists. split; [done|]. split; [done|]. split; [done|]. cbn [mem_used].
      split; [set_solver|]. left. split; [done|]. split; [unfold mem_area; lia|]. set_solver.
    - do 3 eexists. split; [done|]. split; [done|]. split; [done|]. split; [done|]. by right. }
  exists r, b, s'. destruct κ; by repeat (split; [done|]).
Qed.
Next Obligation.
  intros dev κ k w s b Hg Ha. exists (Mem (cells s) (mem_used s ∖ {[b]}) (mem_errno s)).
  split; [by destruct κ|]. split; [done|]. split; [done|]. cbn [mem_used]. set_solver.
Qed.
