(* ===== verification/StoreFs.v ===== *)
(** * The file system as a store of blocks

    The buffer cache and the two allocators keep what [StoreLaws] promises to the
    inode tree, on a mounted device whose maps and areas do not overlap. *)

From S2P Require Import Prelude Errno Bits Device Block Layout Alloc AllocSpec Mkfs Store StoreSpec.

Lemma point_fields κ κ' p b m :
  map_start κ' (point κ p b m) = map_start κ' m /\ map_end κ' (point κ p b m) = map_end κ' m /\
  area_start κ' (point κ p b m) = area_start κ' m.
Proof. by destruct κ, κ'. Qed.

Lemma block_of_point κ p b m q c : block_of κ (point κ p b m) q c = block_of κ m q c.
Proof. unfold block_of. by rewrite point_start, point_area. Qed.

Section Fs.
Context {D : Type} `{BlockLaws D} (dev : Z) (m0 : master_inode).

(** The blocks the bits of a map stand for. *)
Definition fs_area (κ : kind) (b : Z) : Prop :=
  area_start κ m0 <= b < area_start κ m0 + (map_end κ m0 - map_start κ m0) * 512.

(** The maps, the areas and the master inode are apart. *)
Record laid_out : Prop := LaidOut {
  lay_maps q : in_map Data m0 q -> in_map Inodes m0 q -> False;
  lay_valid κ b : fs_area κ b -> bvalid dev b;
  lay_apart b : fs_area Data b -> fs_area Inodes b -> False;
  lay_off_maps κ κ' b : fs_area κ b -> in_map κ' m0 b -> False;
  lay_off_master κ : ~ fs_area κ (m_block_start m0);
  lay_start κ : 0 < area_start κ m0 /\ map_start κ m0 < map_end κ m0
}.
Hypothesis Hlay : laid_out.

(** The master inode in memory is this one but for the pointers into the maps. *)
Definition like (m : master_inode) : Prop :=
  m_block_start m = m_block_start m0 /\
  forall κ, map_start κ m = map_start κ m0 /\ map_end κ m = map_end κ m0 /\ area_start κ m = area_start κ m0.

Lemma like_point κ p b m : like m -> like (point κ p b m).
Proof.
  intros [Hb Hm]. split; [by rewrite point_block_start|]. intros κ'. pose proof (point_fields κ κ' p b m). 
  specialize (Hm κ'). intuition congruence.
Qed.

Lemma like_in_map κ m q : like m -> in_map κ m q <-> in_map κ m0 q.
Proof. intros [_ Hm]. unfold in_map. specialize (Hm κ) as (-> & -> & _). done. Qed.

(** Both allocators are in service. *)
Definition service (i : nat) (m : master_inode) (row : kind -> nat) (x : kind -> list Z) (s : fs D) : Prop :=
  like m /\ forall κ, serving κ dev i m (row κ) (x κ) s.

Definition fs_used (s : fs D) (b : Z) : Prop :=
  exists i m row x κ q c, service i m row x s /\ in_map κ m q /\ 0 <= c < 512 /\
    b = block_of κ m q c /\ in_use κ dev m (x κ) s q c = true.

Lemma service_unique i m row x i' m' row' x' s : service i m row x s -> service i' m' row' x' s ->
  m = m' /\ forall κ, x κ = x' κ.
Proof.
  intros [_ Hs] [_ Hs']. assert (i = i') as <-.
  { pose proof (srv_dev _ _ _ _ _ _ _ (Hs Data)) as E. rewrite (srv_dev _ _ _ _ _ _ _ (Hs' Data)) in E. congruence. }
  assert (m = m') as <-.
  { pose proof (srv_tab _ _ _ _ _ _ _ (Hs Data)) as E. rewrite (srv_tab _ _ _ _ _ _ _ (Hs' Data)) in E. congruence. }
  split; [done|]. intros κ. specialize (Hs κ). specialize (Hs' κ).
  pose proof (srv_row _ _ _ _ _ _ _ Hs) as Hr. rewrite (srv_row _ _ _ _ _ _ _ Hs') in Hr.
  pose proof (srv_memory _ _ _ _ _ _ _ Hs) as E. replace (row κ) with (row' κ) in E by lia.
  rewrite (srv_memory _ _ _ _ _ _ _ Hs') in E. congruence.
Qed.

Lemma block_area κ m q c : like m -> in_map κ m q -> 0 <= c < 512 -> fs_area κ (block_of κ m q c).
Proof.
  intros [_ Hm] Hq Hc. unfold block_of, fs_area, in_map in *. specialize (Hm κ) as (E1 & E2 & E3).
  rewrite E1, E2, ?E3 in *. lia.
Qed.

Lemma area_block κ m b : like m -> fs_area κ b ->
  exists q c, in_map κ m q /\ 0 <= c < 512 /\ b = block_of κ m q c.
Proof.
  intros [_ Hm] Hb. unfold block_of, fs_area, in_map in *. specialize (Hm κ) as (-> & -> & ->).
  pose proof (Z.div_mod (b - area_start κ m0) 512 ltac:(lia)) as Hd.
  pose proof (Z.mod_pos_bound (b - area_start κ m0) 512 ltac:(lia)) as Hr.
  exists (map_start κ m0 + (b - area_start κ m0) / 512), ((b - area_start κ m0) mod 512).
  split; [|split; [done|lia]].
  assert (0 <= (b - area_start κ m0) / 512 < map_end κ m0 - map_start κ m0); [|lia].
  split; [apply Z.div_pos; lia|]. apply Z.div_lt_upper_bound; lia.
Qed.

Lemma block_of_inj κ m q c q' c' : 0 <= c < 512 -> 0 <= c' < 512 ->
  block_of κ m q c = block_of κ m q' c' -> q = q' /\ c = c'.
Proof. unfold block_of. lia. Qed.

(** Both kinds of areas are apart, so that a block is in use exactly when its bit
    is. *)
Lemma used_bit i m row x s κ q c : service i m row x s -> in_map κ m q -> 0 <= c < 512 ->
  fs_used s (block_of κ m q c) <-> in_use κ dev m (x κ) s q c = true.
Proof.
  intros Hs Hq Hc. split.
  - intros (i' & m' & row' & x' & κ' & q' & c' & Hs' & Hq' & Hc' & Hb & Hu).
    destruct (service_unique _ _ _ _ _ _ _ _ _ Hs Hs') as [<- Hx].
    pose proof (block_area κ m q c (proj1 Hs) Hq Hc) as Ha. pose proof (block_area κ' m q' c' (proj1 Hs) Hq' Hc') as Ha'.
    rewrite <- Hb in Ha'. assert (κ = κ') as <-.
    { destruct κ, κ'; [done| | |done]; exfalso; by eapply lay_apart. }
    apply block_of_inj in Hb as [<- <-]; [|done|done]. by rewrite Hx.
  - intros Hu. exists i, m, row, x, κ, q, c. done.
Qed.

(** What an operation that keeps the service does to the blocks in use. *)
Lemma used_shift i m row x s i' m' row' x' s' (P : Z -> Prop) :
  service i m row x s -> service i' m' row' x' s' ->
  (forall κ q c, in_map κ m0 q -> 0 <= c < 512 -> in_use κ dev m (x κ) s q c = true -> P (block_of κ m0 q c) ->
    in_use κ dev m' (x' κ) s' q c = true) ->
  forall b, fs_used s b -> P b -> fs_used s' b.
Proof.
  intros Hs Hs' Hu b (i1 & m1 & row1 & x1 & κ & q & c & Hs1 & Hq & Hc & -> & Hb) HP.
  destruct (service_unique _ _ _ _ _ _ _ _ _ Hs Hs1) as [<- Hx]. rewrite <- Hx in Hb.
  pose proof (proj1 (like_in_map κ m q (proj1 Hs)) Hq) as Hq0.
  assert (forall m1, like m1 -> block_of κ m1 q c = block_of κ m0 q c) as Hbo.
  { intros m2 [_ Hm]. unfold block_of. by destruct (Hm κ) as (-> & _ & ->). }
  rewrite Hbo in HP |- * by apply Hs. rewrite <- (Hbo m') by apply Hs'.
  apply (used_bit i' m' row' x' s' κ q c Hs'); [by apply (like_in_map κ m' q (proj1 Hs'))|done|]. by apply Hu.
Qed.

Definition fs_good (k w : nat) (s : fs D) : Prop :=
  bgood k w (bst s) /\ exists i m row x, service i m row x s.

Definition fs_view (s : fs D) (b : Z) : list Z := bview (bst s) dev b.

(** ** The buffer cache *)

(** Another cache that shows the same blocks of the maps. *)
Lemma service_bst i m row x s σ : service i m row x s ->
  (forall κ q, in_map κ m0 q -> bview σ dev q = bview (bst s) dev q) ->
  service i m row x (set_bst σ s) /\
  forall κ q c, in_map κ m0 q -> in_use κ dev m (x κ) (set_bst σ s) q c = in_use κ dev m (x κ) s q c.
Proof.
  intros [Hm Hs] Hv. split.
  - split; [done|]. intros κ. destruct (Hs κ) as [H1 H2 H3 H4 H5 H6 H7 H8 H9].
    split; [done|done|by destruct κ|done|done|done|done|done|].
    unfold on_disk. cbn [bst set_bst]. rewrite (Hv κ); [exact H9|]. by apply (like_in_map κ m).
  - intros κ q c Hq. unfold in_use, on_disk. cbn [bst set_bst]. by rewrite (Hv κ).
Qed.

Lemma run_cache {A} (f : st (bstate D) A) a σ s : f (bst s) = Ret (a, σ) -> cached f s = Ret (a, set_bst σ s).
Proof. intros E. unfold cached. by rewrite E. Qed.

Lemma map_valid i m row x s κ q : service i m row x s -> in_map κ m0 q -> bvalid dev q.
Proof.
  intros [Hm Hs] Hq. destruct (srv_mounted _ _ _ _ _ _ _ (Hs κ)) as [_ Hb _ _ _ _].
  apply Hb. by apply (like_in_map κ m).
Qed.

Lemma used_same i m row x s i' m' row' x' s' :
  service i m row x s -> service i' m' row' x' s' ->
  (forall κ q c, in_map κ m0 q -> in_use κ dev m' (x' κ) s' q c = in_use κ dev m (x κ) s q c) ->
  forall b, fs_used s' b <-> fs_used s b.
Proof.
  intros Hs Hs' Hu b. split; intros Hb.
  - apply (used_shift _ _ _ _ _ _ _ _ _ _ (fun _ => True) Hs' Hs); [|done|done].
    intros κ q c Hq _ Hi _. by rewrite <- Hu.
  - apply (used_shift _ _ _ _ _ _ _ _ _ _ (fun _ => True) Hs Hs'); [|done|done].
    intros κ q c Hq _ Hi _. by rewrite Hu.
Qed.

Lemma fs_put_errno k w s e : fs_good k w s -> exists s', put_errno e s = Ret (tt, s') /\ fs_good k w s' /\
  the_errno s' = e /\ (forall κ b, fs_area κ b -> fs_view s' b = fs_view s b) /\ (forall b, fs_used s' b <-> fs_used s b).
Proof.
  intros [Hg (i & m & row & x & Hs)]. exists (set_errno e s).
  assert (service i m row x (set_errno e s)) as Hs'.
  { destruct Hs as [Hm Hs]. split; [done|]. intros κ. destruct (Hs κ) as [H1 H2 H3 H4 H5 H6 H7 H8 H9].
    split; try done. }
  split; [done|]. split; [split; [done|eauto]|]. split; [done|]. split; [done|].
  by apply (used_same _ _ _ _ _ _ _ _ _ _ Hs Hs').
Qed.

Lemma fs_read k w s κ b data : fs_good (S k) (S w) s -> fs_area κ b ->
  exists s', read_block dev b data s = Ret ((true, fs_view s b), s') /\ fs_good k (S w) s' /\
    (forall κ b, fs_area κ b -> fs_view s' b = fs_view s b) /\ (forall b, fs_used s' b <-> fs_used s b).
Proof.
  intros [Hg (i & m & row & x & Hs)] Hb.
  destruct (block_read_ok k w (bst s) dev b data Hg) as (σ & E & Hg' & Hv); [by eapply lay_valid|].
  destruct (service_bst i m row x s σ Hs) as [Hs' Hu].
  { intros κ' q Hq. apply Hv. by eapply map_valid. }
  exists (set_bst σ s). split; [|split; [split; [done|eauto]|split]].
  - cbn [read_block fs_ops]. unfold_st. by rewrite (run_cache _ _ _ _ E).
  - intros κ' c Hc. apply Hv. by eapply lay_valid.
  - by apply (used_same _ _ _ _ _ _ _ _ _ _ Hs Hs').
Qed.

Lemma fs_write k w s κ b data : fs_good (S k) (S w) s -> fs_area κ b -> length data = 512%nat ->
  exists s', write_block dev b data s = Ret (true, s') /\ fs_good k w s' /\
    (forall κ c, fs_area κ c -> fs_view s' c = if c =? b then data else fs_view s c) /\
    (forall b, fs_used s' b <-> fs_used s b).
Proof.
  intros [Hg (i & m & row & x & Hs)] Hb Hl.
  destruct (block_write_ok k w (bst s) dev b data Hg) as (σ & E & Hg' & Hv); [by eapply lay_valid|done|].
  assert (forall c, bvalid dev c -> bview σ dev c = if c =? b then data else bview (bst s) dev c) as Hv'.
  { intros c Hc. rewrite Hv by done. destruct (Z.eqb_spec c b) as [->|Hne]; [by rewrite decide_True|].
    rewrite decide_False by congruence. done. }
  destruct (service_bst i m row x s σ Hs) as [Hs' Hu].
  { intros κ' q Hq. rewrite Hv' by by eapply map_valid. destruct (Z.eqb_spec q b) as [->|]; [|done].
    exfalso. by eapply lay_off_maps. }
  exists (set_bst σ s). split; [|split; [split; [done|eauto]|split]].
  - cbn [write_block fs_ops]. unfold_st. by rewrite (run_cache _ _ _ _ E).
  - intros κ' c Hc. apply Hv'. by eapply lay_valid.
  - by apply (used_same _ _ _ _ _ _ _ _ _ _ Hs Hs').
Qed.

(** ** The allocators *)

#[local] Instance kind_eq_dec : EqDecision kind.
Proof. solve_decision. Defined.

(** The copy of one map in memory changes. *)
Definition one_copy (κ : kind) (y : list Z) (x : kind -> list Z) (κ' : kind) : list Z :=
  if decide (κ' = κ) then y else x κ'.

Lemma maps_apart i m row x s κ κ' q : service i m row x s -> κ <> κ' -> in_map κ m q -> in_map κ' m q -> False.
Proof.
  intros [Hm _] Hne Hq Hq'. apply (like_in_map κ m q Hm) in Hq. apply (like_in_map κ' m q Hm) in Hq'.
  destruct κ, κ'; [done| | |done]; by eapply lay_maps.
Qed.

Lemma service_shape κ i m row x s σ p b y : service i m row x s ->
  serving κ dev i (point κ p b m) (row κ) y (shape κ i m (row κ) s σ p b y) ->
  (forall κ' q, κ' <> κ -> in_map κ' m q -> bview σ dev q = on_disk dev s q) ->
  service i (point κ p b m) row (one_copy κ y x) (shape κ i m (row κ) s σ p b y) /\
  forall κ' q c, κ' <> κ -> in_map κ' m q ->
    in_use κ' dev (point κ p b m) (x κ') (shape κ i m (row κ) s σ p b y) q c = in_use κ' dev m (x κ') s q c.
Proof.
  intros Hs Hk Hv.
  assert (forall κ', κ' <> κ -> serving κ' dev i (point κ p b m) (row κ') (x κ') (shape κ i m (row κ) s σ p b y) /\
    forall q c, in_map κ' m q ->
      in_use κ' dev (point κ p b m) (x κ') (shape κ i m (row κ) s σ p b y) q c = in_use κ' dev m (x κ') s q c) as Ho.
  { intros κ' Hne. apply (other_serving κ κ' dev i m (row κ) (row κ') (x κ) (x κ') s);
      [done|apply Hs|apply Hs|by intros q; apply (maps_apart i m row x s κ κ' q Hs)|].
    intros q Hq. by apply (Hv κ'). }
  split; [|intros κ' q c Hne Hq; by apply Ho].
  split; [by apply like_point; apply Hs|]. intros κ'. unfold one_copy.
  destruct (decide (κ' = κ)) as [->|Hne]; [done|by apply Ho].
Qed.

Lemma block_of_like κ m q c : like m -> block_of κ m q c = block_of κ m0 q c.
Proof. intros [_ Hm]. unfold block_of. by destruct (Hm κ) as (-> & _ & ->). Qed.

(** After a step of one allocator: the blocks in use before that are still in use. *)
Lemma used_shape κ i m row x s σ p b y (P : Z -> Prop) : service i m row x s ->
  service i (point κ p b m) row (one_copy κ y x) (shape κ i m (row κ) s σ p b y) ->
  (forall κ' q c, κ' <> κ -> in_map κ' m q ->
    in_use κ' dev (point κ p b m) (x κ') (shape κ i m (row κ) s σ p b y) q c = in_use κ' dev m (x κ') s q c) ->
  (forall q c, in_map κ m q -> 0 <= c < 512 -> in_use κ dev m (x κ) s q c = true -> P (block_of κ m q c) ->
    in_use κ dev (point κ p b m) y (shape κ i m (row κ) s σ p b y) q c = true) ->
  forall c, fs_used s c -> P c -> fs_used (shape κ i m (row κ) s σ p b y) c.
Proof.
  intros Hs Hs' Ho Hk. apply (used_shift _ _ _ _ _ _ _ _ _ _ P Hs Hs'). intros κ' q c Hq Hc Hu HP.
  pose proof (proj2 (like_in_map κ' m q (proj1 Hs)) Hq) as Hqm. unfold one_copy.
  destruct (decide (κ' = κ)) as [->|Hne].
  - apply Hk; [done|done|done|]. by rewrite (block_of_like κ m) by apply Hs.
  - by rewrite Ho.
Qed.

Definition fs_cost : nat := scan_cost Data m0 + scan_cost Inodes m0.

Lemma scan_cost_le κ m : like m -> (scan_cost κ m <= fs_cost)%nat.
Proof.
  intros [_ Hm]. unfold fs_cost. pose proof (Hm κ) as (E1 & E2 & _).
  unfold scan_cost. rewrite E1, E2. destruct κ; lia.
Qed.

Lemma fs_alloc κ k w s b0 : fs_good (fs_cost + k) (2 + w) s ->
  exists r b s', inode_get_block κ dev b0 s = Ret ((r, b), s') /\ fs_good k w s' /\
    (forall κ c, fs_area κ c -> fs_view s' c = fs_view s c) /\ (forall c, fs_used s c -> fs_used s' c) /\
    (r = INODE_OK /\ fs_area κ b /\ ~ fs_used s b /\ fs_used s' b \/ r = INODE_FAIL /\ b = 0).
Proof.
  intros [Hg (i & m & row & x & Hs)]. pose proof (scan_cost_le κ m (proj1 Hs)) as Hcost.
  pose proof (proj2 Hs κ) as Hsrv. pose proof (srv_mounted _ _ _ _ _ _ _ Hsrv) as Hmnt.
  destruct (run_get_block κ dev i m (row κ) (x κ) s Hsrv b0 k w) as (r & blk & σ & p & b & y & E & Hg' & Hpost).
  { eapply bgood_weaken; [| |exact Hg]; lia. }
  exists r, blk, (shape κ i m (row κ) s σ p b y). split; [exact E|].
  destruct Hpost as [(-> & Hf)|(-> & -> & _ & Hsame & -> & -> & ->)].
  - destruct (found_in_use κ dev i m (row κ) (x κ) s Hsrv blk σ p b y _ _ Hg Hf) as (Hy & Hfree & Hnow).
    destruct Hf as (z & Hp & Hb & _ & _ & _ & Hblk & Ht).
    assert (serving κ dev i (point κ p b m) (row κ) y (shape κ i m (row κ) s σ p b y)) as Hk.
    { apply serving_shape with (x κ); try done.
      rewrite (taken_self κ dev i m (row κ) (x κ) s Hsrv σ p b y Ht Hp). apply below_refl. }
    destruct (service_shape κ i m row x s σ p b y Hs Hk) as [Hs' Ho].
    { intros κ' q Hne Hq. apply (taken_elsewhere κ κ' dev i m (row κ') (x κ') s (proj2 Hs κ')) with p b y; [|done|done|done].
      intros q' H1 H2. by eapply (maps_apart i m row x s κ κ'). }
    assert (blk = block_of κ m p b) as -> by (unfold block_of, position in *; lia).
    split; [split; [by rewrite shape_bst|eauto]|]. split.
    + intros κ' c Hc. unfold fs_view. rewrite shape_bst, Ht by by eapply lay_valid.
      rewrite !decide_False; [done| |].
      * intros [= Hcm]. apply (lay_off_master Hlay κ'). rewrite <- (proj1 (proj1 Hs)), <- Hcm. exact Hc.
      * intros [= Hcp]. apply (lay_off_maps Hlay κ' κ c Hc). rewrite Hcp. apply (like_in_map κ m p (proj1 Hs)). exact Hp.
    + split; [|left; split; [done|split; [|split]]].
      * intros c Hc. apply (used_shape κ i m row x s σ p b y (fun _ => True) Hs Hs' Ho); [|done|done].
        intros q c' Hq Hc' Hu _. apply (Hnow q c' Hq ltac:(lia)). by left.
      * apply block_area; [apply Hs|done|done].
      * rewrite (used_bit _ _ _ _ _ _ _ _ Hs Hp Hb). congruence.
      * rewrite <- (block_of_point κ p b m p b).
        rewrite (used_bit _ _ _ _ _ _ _ _ Hs'); [|by rewrite (like_in_map κ _ p (proj1 Hs')), <- (like_in_map κ m p (proj1 Hs))|done].
        unfold one_copy. rewrite decide_True by done. apply (Hnow p b Hp ltac:(lia)). by right.
  - assert (in_map κ m (map_start κ m)) as Hst by (pose proof (mnt_start _ _ _ Hmnt); unfold in_map; lia).
    pose proof (on_disk_srv κ dev i m (row κ) (x κ) s Hsrv _ _ _ Hg Hst) as Hlen.
    assert (forall κ' q, in_map κ' m q -> bview σ dev q = on_disk dev s q) as Hv.
    { intros κ' q Hq. apply Hsame. eapply (map_valid i m row x s κ' q Hs). by apply (like_in_map κ' m q (proj1 Hs)). }
    assert (serving κ dev i (point κ (map_start κ m) 0 m) (row κ) (on_disk dev s (map_start κ m))
      (shape κ i m (row κ) s σ (map_start κ m) 0 (on_disk dev s (map_start κ m)))) as Hk.
    { apply serving_shape with (x κ); [done|done|lia|exact Hlen|]. rewrite (Hv κ) by done. apply below_refl. }
    destruct (service_shape κ i m row x s σ _ _ _ Hs Hk) as [Hs' Ho]; [intros κ' q _ Hq; by apply (Hv κ')|].
    split; [split; [by rewrite shape_bst|eauto]|]. split; [|split; [|by right]].
    + intros κ' c Hc. unfold fs_view. rewrite shape_bst. apply Hsame. by eapply lay_valid.
    + intros c Hc. apply (used_shape κ i m row x s σ _ _ _ (fun _ => True) Hs Hs' Ho); [|done|done].
      intros q c' Hq Hc' Hu _. apply (in_use_disk κ dev i m (row κ) (x κ) s Hsrv) in Hu; [|lia].
      unfold in_use. rewrite point_ptr, shown_disk. destruct (Z.eqb_spec q (map_start κ m)) as [->|]; [done|].
      by rewrite (Hv κ) by done.
Qed.

Lemma fs_free κ k w s b : fs_good (S k) (S w) s -> fs_area κ b ->
  exists s', inode_free_block κ dev b s = Ret (INODE_OK, s') /\ fs_good k (S w) s' /\
    (forall κ c, fs_area κ c -> fs_view s' c = fs_view s c) /\ ~ fs_used s' b /\
    (forall c, fs_used s c -> c <> b -> fs_used s' c).
Proof.
  intros [Hg (i & m & row & x & Hs)] Hb. pose proof (proj2 Hs κ) as Hsrv.
  destruct (area_block κ m b (proj1 Hs) Hb) as (q & c & Hq & Hc & ->).
  destruct (run_free_block κ dev i m (row κ) (x κ) s Hsrv q c k w Hg Hq Hc) as (σ & y & E & Hg' & Hsame & Hy & Hbits).
  pose proof (freed_serving κ dev i m (row κ) (x κ) s Hsrv σ q c y Hsame Hy Hq Hc Hbits) as Hk.
  destruct (service_shape κ i m row x s σ q c y Hs Hk) as [Hs' Ho].
  { intros κ' q' _ Hq'. apply Hsame. eapply (map_valid i m row x s κ' q' Hs). by apply (like_in_map κ' m q' (proj1 Hs)). }
  exists (shape κ i m (row κ) s σ q c y). split; [exact E|]. split; [split; [by rewrite shape_bst|eauto]|].
  split; [|split].
  - intros κ' c' Hc'. unfold fs_view. rewrite shape_bst. apply Hsame. by eapply lay_valid.
  - rewrite <- (block_of_point κ q c m q c).
    rewrite (used_bit _ _ _ _ _ _ _ _ Hs'); [|by rewrite (like_in_map κ _ q (proj1 Hs')), <- (like_in_map κ m q (proj1 Hs))|done].
    unfold one_copy. rewrite decide_True by done.
    rewrite (freed_in_use κ dev i m (row κ) (x κ) s Hsrv σ q c y q c Hsame Hq ltac:(lia) Hbits).
    by rewrite !Z.eqb_refl.
  - apply (used_shape κ i m row x s σ q c y (fun c' => c' <> block_of κ m q c) Hs Hs' Ho).
    intros q' c' Hq' Hc' Hu Hne.
    rewrite (freed_in_use κ dev i m (row κ) (x κ) s Hsrv σ q c y q' c' Hsame Hq' ltac:(lia) Hbits).
    destruct (Z.eqb_spec q' q) as [->|].
    + destruct (Z.eqb_spec c' c) as [->|]; [done|exact Hu].
    + by apply (in_use_disk κ dev i m (row κ) (x κ) s Hsrv) in Hu; [|lia].
Qed.

(** ** The interface *)

#[export] Program Instance fs_laws : StoreLaws (fs D) dev (inode_start m0) := {|
  area := fs_area;
  view := fs_view;
  used := fs_used;
  good := fs_good;
  alloc_cost := fs_cost
|}.
Next Obligation.
  intros κ b Hb. pose proof (lay_valid Hlay κ b Hb) as Hv. apply bvalid_range in Hv as [_ ?].
  pose proof (lay_start Hlay κ). unfold fs_area in Hb. lia.
Qed.
Next Obligation. apply (lay_apart Hlay). Qed.
Next Obligation. intros k w k' w' s Hk Hw [Hg Hs]. split; [|done]. by eapply bgood_weaken. Qed.
Next Obligation. intros k w s κ b [Hg _] Hb. eapply bview_length; [exact Hg|]. by eapply (lay_valid Hlay). Qed.
Next Obligation. pose proof (lay_start Hlay Inodes). unfold fs_area. cbn in *. lia. Qed.
Next Obligation.
  intros k w s [Hg (i & m & row & x & Hm & Hs)]. specialize (Hs Inodes).
  cbn [root_block fs_ops]. unfold_st. unfold master_get, gets, master, get, checked. unfold_st.
  rewrite (srv_dev _ _ _ _ _ _ _ Hs), (srv_tab _ _ _ _ _ _ _ Hs).
  destruct Hm as [_ Hm]. specialize (Hm Inodes) as (_ & _ & Ha). cbn in Ha. by rewrite Ha.
Qed.
Next Obligation. exact fs_put_errno. Qed.
Next Obligation. exact fs_read. Qed.
Next Obligation. exact fs_write. Qed.
Next Obligation. intros κ k w s b0 Hg. destruct κ; by apply fs_alloc. Qed.
Next Obligation. intros κ k w s b Hg Hb. destruct κ; by apply fs_free. Qed.
End Fs.

(** ** A new file system *)

Lemma fresh_laid_out {D} `{DeviceLaws D} size : size_ok size -> 512 <= inodes (fresh_master size) ->
  (forall b, 0 <= b < 4194304 -> dvalid 0 b) -> laid_out (D := D) 0 (opened_master (fresh_master size)).
Proof.
  intros Hs Hi Hdrive. pose proof (fresh_bounds size Hs) as (B1 & B2 & B3 & B4 & B5 & B6 & B7 & B8 & B9 & B10 & B11).
  destruct (fresh_layout size Hs) as [_ [E2 E3] [_ E5] [_ E7] (E8 & E9 & E10 & E11) _ _].
  set (m := fresh_master size) in *. pose proof (map_capacity (inodes m) ltac:(lia)) as Hcap.
  assert (inodes m / 8 <= inodes m) by (apply Z.div_le_upper_bound; lia).
  assert (forall κ, map_start κ (opened_master m) = map_start κ m /\ map_end κ (opened_master m) = map_end κ m /\ area_start κ (opened_master m) = area_start κ m) as Hm by (by intros []).
  assert (m_block_start (opened_master m) = m_block_start m) as Hb by done.
  assert (forall κ b, fs_area (opened_master m) κ b ->
    area_start κ m <= b < area_start κ m + (map_end κ m - map_start κ m) * 512) as Ha.
  { intros κ b. unfold fs_area. by destruct (Hm κ) as (-> & -> & ->). }
  assert (forall κ q, in_map κ (opened_master m) q -> map_start κ m <= q < map_end κ m) as Hq.
  { intros κ q. unfold in_map. by destruct (Hm κ) as (-> & -> & _). }
  split.
  - intros q Hd%Hq Hn%Hq. cbn [map_start map_end] in *. lia.
  - intros κ b Hin%Ha. apply Hdrive. destruct κ; cbn [area_start map_start map_end] in Hin; lia.
  - intros b Hd%Ha Hn%Ha. cbn [area_start map_start map_end] in *. lia.
  - intros κ κ' b Hin%Ha Hn%Hq. destruct κ, κ'; cbn [area_start map_start map_end] in *; lia.
  - intros κ Hin%Ha. rewrite Hb in Hin. destruct κ; cbn [area_start map_start map_end] in *; lia.
  - intros κ. destruct (Hm κ) as (-> & -> & ->). destruct κ; cbn [area_start map_start map_end]; lia.
Qed.

(** A file system made and opened, from any state that is the empty table once
    [master_init] has run. *)
Lemma made_gives_store {D} `{DeviceLaws D} cmos path dev0 size (s : fs D) σ0 t e j w :
  (forall b, 0 <= b < 4194304 -> dvalid 0 b) -> master_init s = Ret (tt, sys σ0 free_entry zeros zeros t e) ->
  size_ok size -> 512 <= inodes (fresh_master size) ->
  0 <= highest (cache σ0) < BLOCK_MAX_LRU - Z.of_nat (3 + j) -> (w < 128)%nat ->
  (dev_open cmos dev0).2 = 0 ->
  let m := opened_master (fresh_master size) in
  exists s', (_ ← inode_mkfs cmos size; inode_dev_open cmos (Some path) (Some dev0)) s =
      Ret ((INODE_OK, Some 0), s') /\ master_dev_tab s' = t /\
    laid_out (D := D) 0 m /\ fs_good 0 m j (S w) s' /\ forall b, ~ fs_used 0 m s' b.
Proof.
  intros Hdrive Hi Hs Hn Hh Hw Hd m.
  destruct (mkfs_open_serving cmos path dev0 size s σ0 t e j w Hdrive Hi Hs Hh Hw Hd) as (s' & E & Hg & Ht & Hk).
  exists s'. split; [exact E|]. split; [exact Ht|]. pose proof (fresh_laid_out size Hs Hn Hdrive) as Hlay. split; [exact Hlay|].
  assert (service 0 m 0 m (fun _ => 0%nat) (fun _ => zeros) s') as Hsrv.
  { split; [by split|]. intros κ. apply Hk. }
  split; [split; [exact Hg|eauto]|].
  intros b (i & m' & row & x & κ & q & c & Hs' & Hq & Hc & _ & Hu).
  destruct (service_unique 0 m _ _ _ _ _ _ _ _ _ Hsrv Hs') as [<- Hx]. rewrite <- Hx in Hu.
  destruct (Hk κ) as [_ Hfree]. pose proof (Hfree q c Hq) as Hf. unfold m in *. cbv beta in Hu. congruence.
Qed.

(** A file system of at least 512 inodes, made and opened, implements the store of
    blocks the inode tree is built on: its maps, areas and master inode are apart,
    both allocators are in service, and no block is in use. *)
Theorem mkfs_gives_store {D} `{DeviceLaws D} cmos path dev0 size (s : fs D) j w :
  (forall b, 0 <= b < 4194304 -> dvalid 0 b) -> init_master s = false -> size_ok size ->
  512 <= inodes (fresh_master size) ->
  0 <= highest (cache (bst s)) < BLOCK_MAX_LRU - Z.of_nat (3 + j) -> (w < 128)%nat ->
  (dev_open cmos dev0).2 = 0 ->
  let m := opened_master (fresh_master size) in
  exists s', (_ ← inode_mkfs cmos size; inode_dev_open cmos (Some path) (Some dev0)) s =
      Ret ((INODE_OK, Some 0), s') /\
    laid_out (D := D) 0 m /\ fs_good 0 m j (S w) s' /\ forall b, ~ fs_used 0 m s' b.
Proof.
  intros Hdrive Hi Hs Hn Hh Hw Hd m.
  destruct (made_gives_store cmos path dev0 size s _ _ _ j w Hdrive (sys_init s Hi) Hs Hn Hh Hw Hd) as (s' & E & _ & Hr).
  exists s'. by split.
Qed.

Lemma mkfs_gives_store_witness :
  exists s' : fs mem_drive, (_ ← inode_mkfs 0xF0 seven_meg; inode_dev_open 0xF0 (Some [47]) (Some 0)) boot =
      Ret ((INODE_OK, Some 0), s') /\
    laid_out (D := mem_drive) 0 seven_master /\ fs_good 0 seven_master 1000 101 s'.
Proof.
  destruct (mkfs_gives_store 0xF0 [47] 0 seven_meg boot 1000 100) as (s' & E & Hl & Hg & _);
    [exact mem_drive_blocks|reflexivity|exact seven_meg_ok|vm_compute; discriminate|exact boot_fresh|lia|reflexivity|].
  exists s'. split; [exact E|]. split; [exact Hl|exact Hg].
Defined.
