(* ===== verification/Paths.v ===== *)
(** * Path names ([fs/paths.c], [fs/krealpath.c])

    A buffer is the list of its [MAX_PATH] bytes; an access outside is a fault.
    A string is the list of the bytes before the NUL; the buffers that strings
    are assembled in are cleared first, so that only the string matters and a
    string that leaves no room for its NUL is a fault. *)

From S2P Require Import Prelude Errno Layout Store.

Definition slash : Z := 47.
Definition dot : Z := 46.

(** ** Buffers *)

Definition rd (b : list Z) (i : Z) : outcome Z :=
  if i <? 0 then Fault else match b !! Z.to_nat i with Some c => Ret c | None => Fault end.
Definition wr (b : list Z) (i c : Z) : outcome (list Z) := _ ← rd b i; Ret (<[Z.to_nat i := c]> b).

(** The string at the start of a buffer. *)
Fixpoint cstr (b : list Z) : outcome (list Z) :=
  match b with
  | [] => Fault
  | c :: b => if c =? 0 then Ret [] else s ← cstr b; Ret (c :: s)
  end.

(** The string of a buffer from an offset on. *)
Definition cstr_at (b : list Z) (i : Z) : outcome (list Z) :=
  if i <? 0 then Fault else cstr (drop (Z.to_nat i) b).

(** A string in a cleared buffer. *)
Definition to_buffer (s : list Z) : outcome (list Z) :=
  if (length s <? MAX_PATH)%nat then Ret (s ++ replicate (MAX_PATH - length s) 0) else Fault.

(** ** Components *)

(** The search for a slash from [i] on, [n] places long. *)
Fixpoint find_slash (n : nat) (i : Z) (path : list Z) : outcome (option Z) :=
  match n with
  | O => Ret None
  | S n => c ← rd path i; if c =? slash then Ret (Some i) else find_slash n (i + 1) path
  end.

(** The next position past a NUL. *)
Fixpoint past_nul (n : nat) (i : Z) (path : list Z) : outcome Z :=
  match n with
  | O => NoFuel
  | S n => c ← rd path i; if c =? 0 then Ret (i + 1) else past_nul n (i + 1) path
  end.

(** [path[i] == '.' && path[i+1] == '\0'], and the same with two dots. *)
Definition last_dot (path : list Z) (i : Z) : outcome bool :=
  c ← rd path i;
  if c =? dot then d ← rd path (i + 1); Ret (d =? 0) else Ret false.

Definition last_dots (path : list Z) (i : Z) : outcome bool :=
  c ← rd path i;
  if c =? dot then
    d ← rd path (i + 1);
    if d =? dot then e ← rd path (i + 2); Ret (e =? 0) else Ret false
  else Ret false.

(** The offset of the component ([None] for [NULL]), [*start] and the buffer after
    the call. *)
Definition get_next_path (start : Z) (path : list Z) : outcome (option Z * Z * list Z) :=
  b ← last_dot path start;
  if b : bool then Ret (Some start, start + 1, path)
  else
    b ← last_dots path start;
    if b : bool then Ret (Some start, start + 2, path)
    else
      r ← find_slash (Z.to_nat (Z.of_nat MAX_PATH - start)) start path;
      match r with
      | Some i => path ← wr path i 0; Ret (Some start, i, path)
      | None =>
          c ← rd path start;
          if c =? 0 then Ret (None, start, path)
          else i ← past_nul (S MAX_PATH) start path; Ret (Some start, i, path)
      end.

(** The loops that collect the components. *)
Fixpoint offsets (fuel : nat) (start : Z) (path : list Z) : outcome (list Z * list Z) :=
  match fuel with
  | O => NoFuel
  | S fuel =>
      '(r, start, path) ← get_next_path start path;
      match r with
      | None => Ret ([], path)
      | Some j => '(js, path) ← offsets fuel (start + 1) path; Ret (j :: js, path)
      end
  end.

Fixpoint strings_at (path : list Z) (js : list Z) : outcome (list (list Z)) :=
  match js with
  | [] => Ret []
  | j :: js => s ← cstr_at path j; l ← strings_at path js; Ret (s :: l)
  end.

Definition components (path : list Z) : outcome (list (list Z)) :=
  '(js, path) ← offsets (S (S MAX_PATH)) 0 path; strings_at path js.

(** [None] when the result would be longer than [MAX_PATH]. *)
Definition push_front (dst src : list Z) : outcome (option (list Z)) :=
  if (MAX_PATH <? length dst + length src)%nat then Ret None
  else if (length dst + length src =? MAX_PATH)%nat then Fault
  else Ret (Some (src ++ dst)).

(** ** The canonical path *)

(** Dropping [.] and letting [..] drop the component before it. *)
Fixpoint resolve (l stack : list (list Z)) : list (list Z) :=
  match l with
  | [] => stack
  | c :: l =>
      if bool_decide (c = [dot]) then resolve l stack
      else if bool_decide (c = [dot; dot]) then resolve l (removelast stack)
      else resolve l (stack ++ [c])
  end.

(** The components with slashes between them. *)
Fixpoint assemble (l : list (list Z)) : list Z :=
  match l with
  | [] => []
  | [c] => c
  | c :: l => c ++ slash :: assemble l
  end.

(** What follows once the path is absolute. *)
Definition canonical (path : list Z) : outcome (list Z) :=
  b ← to_buffer path;
  l ← components b;
  let res := assemble (resolve l []) in
  if (length res <? MAX_PATH)%nat then Ret (match res with [] => [slash] | _ => res end) else Fault.

Section Code.
Context {S : Type} `{FsOps S}.

Definition zero_inode : inode := dec inode_codec (replicate 512 0).

(** The names of the directories above, in front of each other. *)
Fixpoint prefix_loop (fuel : nat) (dev root current_dir : Z) (tmp : list Z) : st S (option (list Z)) :=
  match fuel with
  | O => fun _ => NoFuel
  | Datatypes.S fuel =>
      if current_dir =? root then mret (Some tmp)
      else
        '(ok, i) ← read_as inode_codec dev current_dir zero_inode;
        if negb ok then fail_with EINVAL None
        else
          name ← lift (cstr (i_path i));
          r ← lift (push_front tmp name);
          match r with
          | None => fail_with EINVAL None
          | Some tmp =>
              r ← lift (push_front tmp [slash]);
              match r with
              | None => fail_with EINVAL None
              | Some tmp => prefix_loop fuel dev root (parent i) tmp
              end
          end
  end.

(** The path in front of a relative one; each turn makes it longer. *)
Definition path_prefix (dev current_dir : Z) (path : list Z) : st S (option (list Z)) :=
  if default 0 (head path) =? slash then mret (Some [])
  else
    root ← root_block dev;
    root ← checked root;
    r ← prefix_loop (2 + MAX_PATH) dev root current_dir [];
    match r with
    | None => mret None
    | Some tmp =>
        if (MAX_PATH <? length tmp + 1)%nat then fail_with ENAMETOOLONG None
        else if (length tmp + 1 =? MAX_PATH)%nat then fault
        else mret (Some (tmp ++ [slash]))
    end.

Definition krealpath (dev current_dir : Z) (path : list Z) : st S (option (list Z)) :=
  r ← path_prefix dev current_dir path;
  match r with
  | None => mret None
  | Some res =>
      if (MAX_PATH <? length res + length path)%nat then fail_with ENAMETOOLONG None
      else
        res ← lift (canonical (res ++ path));
        _ ← put_errno EOK;
        mret (Some res)
  end.
End Code.
