(* ===== verification/PathsSpec.v ===== *)
(** * Canonical paths

    What [get_next_path] makes of a path, and what [krealpath] makes of an
    absolute one: the usual canonical path as long as no [..] leaves the root. *)

From stdpp Require Import gmap.
From S2P Require Import Prelude Errno Layout Store StoreSpec Paths.

(** A component: not empty, no slash, no NUL. *)
Definition plain (c : Z) : Prop := c <> slash /\ c <> 0.
Definition name (n : list Z) : Prop := n <> [] /\ Forall plain n.

Lemma rd_suffix pre l (k : nat) :
  rd (pre ++ l) (Z.of_nat (length pre) + Z.of_nat k) = match l !! k with Some c => Ret c | None => Fault end.
Proof.
  unfold rd. rewrite (proj2 (Z.ltb_ge _ _)) by lia.
  replace (Z.to_nat _) with (length pre + k)%nat by lia.
  rewrite lookup_app_r by lia. by replace (length pre + k - length pre)%nat with k by lia.
Qed.

Lemma rd_app pre c rest : rd (pre ++ c :: rest) (Z.of_nat (length pre)) = Ret c.
Proof. etrans; [|apply (rd_suffix pre (c :: rest) 0)]. f_equal. lia. Qed.

Lemma rd_app1 pre c d rest : rd (pre ++ c :: d :: rest) (Z.of_nat (length pre) + 1) = Ret d.
Proof. apply (rd_suffix pre (c :: d :: rest) 1). Qed.

Lemma rd_app2 pre c d e rest : rd (pre ++ c :: d :: e :: rest) (Z.of_nat (length pre) + 2) = Ret e.
Proof. apply (rd_suffix pre (c :: d :: e :: rest) 2). Qed.

Lemma cstr_app n rest : Forall plain n -> cstr (n ++ 0 :: rest) = Ret n.
Proof.
  induction 1 as [|c n [_ Hc] _ IH]; cbn [cstr app]; [done|].
  rewrite (proj2 (Z.eqb_neq _ _) Hc), IH. done.
Qed.

(** The search for a slash. *)
Lemma find_slash_spec n : forall pre rest k, Forall plain n -> (length n < k)%nat ->
  find_slash k (Z.of_nat (length pre)) (pre ++ n ++ slash :: rest) =
    Ret (Some (Z.of_nat (length (pre ++ n)))).
Proof.
  induction n as [|c n IH]; intros pre rest k Hn Hk; (destruct k as [|k]; [lia|]); cbn [find_slash app].
  - rewrite rd_app, app_nil_r. done.
  - apply Forall_cons in Hn as [[Hc _] Hn]. cbn [length] in Hk. rewrite rd_app. cbn [mbind outcome_bind].
    rewrite (proj2 (Z.eqb_neq _ _) Hc).
    specialize (IH (pre ++ [c]) rest k Hn ltac:(lia)). rewrite length_app, <- !app_assoc in IH.
    cbn [length app] in IH. replace (Z.of_nat (length pre) + 1) with (Z.of_nat (length pre + 1)) by lia.
    rewrite IH. by rewrite length_app.
Qed.

Lemma find_slash_none l : forall pre, Forall (fun c => c <> slash) l ->
  find_slash (length l) (Z.of_nat (length pre)) (pre ++ l) = Ret None.
Proof.
  induction l as [|c l IH]; intros pre Hl; cbn [find_slash length]; [done|].
  apply Forall_cons in Hl as [Hc Hl]. rewrite rd_app. cbn [mbind outcome_bind].
  rewrite (proj2 (Z.eqb_neq _ _) Hc). specialize (IH (pre ++ [c]) Hl).
  rewrite length_app, <- app_assoc in IH. cbn [length app] in IH.
  replace (Z.of_nat (length pre) + 1) with (Z.of_nat (length pre + 1)) by lia. exact IH.
Qed.

Lemma past_nul_spec n : forall pre rest k, Forall plain n -> (length n < k)%nat ->
  past_nul k (Z.of_nat (length pre)) (pre ++ n ++ 0 :: rest) = Ret (Z.of_nat (length (pre ++ n)) + 1).
Proof.
  induction n as [|c n IH]; intros pre rest k Hn Hk; (destruct k as [|k]; [lia|]); cbn [past_nul app].
  - rewrite rd_app, app_nil_r. done.
  - apply Forall_cons in Hn as [[_ Hc] Hn]. cbn [length] in Hk. rewrite rd_app. cbn [mbind outcome_bind].
    rewrite (proj2 (Z.eqb_neq _ _) Hc).
    specialize (IH (pre ++ [c]) rest k Hn ltac:(lia)). rewrite length_app, <- !app_assoc in IH.
    cbn [length app] in IH. replace (Z.of_nat (length pre) + 1) with (Z.of_nat (length pre + 1)) by lia.
    rewrite IH. by rewrite length_app.
Qed.

(** The tests for a final dot only hold of [.] and [..] at the end. *)
Lemma last_dot_spec pre n d rest : Forall plain n -> d <> dot ->
  last_dot (pre ++ n ++ d :: rest) (Z.of_nat (length pre)) = Ret (bool_decide (n = [dot] /\ d = 0)).
Proof.
  intros Hn Hd. unfold last_dot. destruct n as [|c [|e n]]; cbn [app].
  - rewrite rd_app. cbn [mbind outcome_bind]. rewrite (proj2 (Z.eqb_neq _ _) Hd).
    rewrite bool_decide_eq_false_2; [done|]. by intros [? _].
  - rewrite rd_app, rd_app1. cbn [mbind outcome_bind]. destruct (Z.eqb_spec c dot) as [->|Hc].
    + f_equal. destruct (Z.eqb_spec d 0); [rewrite bool_decide_eq_true_2|rewrite bool_decide_eq_false_2]; naive_solver.
    + rewrite bool_decide_eq_false_2; [done|]. by intros [[=] _].
  - rewrite rd_app, rd_app1. cbn [mbind outcome_bind].
    rewrite bool_decide_eq_false_2 by (by intros [[=] _]).
    apply Forall_cons in Hn as [_ [[_ He] _]%Forall_cons]. rewrite (proj2 (Z.eqb_neq _ _) He).
    by destruct (c =? dot).
Qed.

Lemma last_dots_spec pre n d rest : Forall plain n -> d <> dot ->
  last_dots (pre ++ n ++ d :: rest) (Z.of_nat (length pre)) = Ret (bool_decide (n = [dot; dot] /\ d = 0)).
Proof.
  intros Hn Hd. unfold last_dots. destruct n as [|c [|e [|f n]]]; cbn [app].
  - rewrite rd_app. cbn [mbind outcome_bind]. rewrite (proj2 (Z.eqb_neq _ _) Hd).
    rewrite bool_decide_eq_false_2; [done|]. by intros [? _].
  - rewrite rd_app, rd_app1. cbn [mbind outcome_bind]. rewrite (proj2 (Z.eqb_neq _ _) Hd).
    rewrite bool_decide_eq_false_2 by (by intros [? _]). by destruct (c =? dot).
  - rewrite rd_app, rd_app1, rd_app2. cbn [mbind outcome_bind].
    destruct (Z.eqb_spec c dot) as [->|Hc].
    2: { rewrite bool_decide_eq_false_2; [done|]. by intros [[=] _]. }
    destruct (Z.eqb_spec e dot) as [->|He].
    2: { rewrite bool_decide_eq_false_2; [done|]. by intros [[=] _]. }
    f_equal. destruct (Z.eqb_spec d 0); [rewrite bool_decide_eq_true_2|rewrite bool_decide_eq_false_2]; naive_solver.
  - rewrite rd_app, rd_app1, rd_app2. cbn [mbind outcome_bind].
    rewrite bool_decide_eq_false_2 by (by intros [[=] _]).
    apply Forall_cons in Hn as [_ [_ [[_ Hf] _]%Forall_cons]%Forall_cons]. rewrite (proj2 (Z.eqb_neq _ _) Hf).
    by destruct (c =? dot), (e =? dot).
Qed.

(** ** The components of a path *)

Definition slashed (cs : list (list Z)) : list Z := flat_map (fun c => c ++ [slash]) cs.
Definition nulled (cs : list (list Z)) : list Z := flat_map (fun c => c ++ [0]) cs.

Fixpoint positions (p : nat) (cs : list (list Z)) : list Z :=
  match cs with [] => [] | c :: cs => Z.of_nat p :: positions (p + length c + 1) cs end.

Lemma wr_app pre c d rest : wr (pre ++ c :: rest) (Z.of_nat (length pre)) d = Ret (pre ++ d :: rest).
Proof.
  unfold wr. rewrite rd_app. cbn [mbind outcome_bind]. rewrite Nat2Z.id.
  f_equal. rewrite insert_app_r_alt by lia. by rewrite Nat.sub_diag.
Qed.

Lemma get_next_mid pre n rest : Forall plain n -> (length pre + length n < MAX_PATH)%nat ->
  get_next_path (Z.of_nat (length pre)) (pre ++ n ++ slash :: rest) =
    Ret (Some (Z.of_nat (length pre)), Z.of_nat (length (pre ++ n)), pre ++ n ++ 0 :: rest).
Proof.
  intros Hn Hl. unfold get_next_path. rewrite last_dot_spec, last_dots_spec by done.
  cbn [mbind outcome_bind]. rewrite !bool_decide_eq_false_2 by naive_solver.
  rewrite find_slash_spec by (done || lia). cbn [mbind outcome_bind].
  rewrite (app_assoc pre n), wr_app. cbn [mbind outcome_bind]. by rewrite <- app_assoc.
Qed.

Lemma find_slash_rest pre l : Forall (fun c => c <> slash) l -> length (pre ++ l) = MAX_PATH ->
  find_slash (Z.to_nat (Z.of_nat MAX_PATH - Z.of_nat (length pre))) (Z.of_nat (length pre)) (pre ++ l) = Ret None.
Proof.
  intros Hl Hlen. rewrite length_app in Hlen.
  replace (Z.to_nat _) with (length l) by lia. by apply find_slash_none.
Qed.

Lemma zeros_unslashed k : Forall (fun c => c <> slash) (replicate k 0).
Proof. by apply Forall_replicate. Qed.

Lemma plain_unslashed n : Forall plain n -> Forall (fun c => c <> slash) n.
Proof. intros Hn. eapply Forall_impl; [exact Hn|]. by intros c []. Qed.

Lemma get_next_end pre k : length (pre ++ replicate (S k) 0) = MAX_PATH ->
  get_next_path (Z.of_nat (length pre)) (pre ++ replicate (S k) 0) =
    Ret (None, Z.of_nat (length pre), pre ++ replicate (S k) 0).
Proof.
  intros Hlen. unfold get_next_path.
  pose proof (last_dot_spec pre [] 0 (replicate k 0) ltac:(constructor) ltac:(done)) as H1.
  pose proof (last_dots_spec pre [] 0 (replicate k 0) ltac:(constructor) ltac:(done)) as H2.
  cbn [app] in H1, H2. rewrite find_slash_rest by (done || apply zeros_unslashed).
  cbn [replicate] in *. rewrite H1, H2. cbn [mbind outcome_bind].
  rewrite !bool_decide_eq_false_2 by naive_solver. rewrite rd_app. done.
Qed.

(** The last component, without a slash behind it, is followed by the end. *)
Lemma get_next_last pre n k : name n -> length (pre ++ n ++ replicate (3 + k) 0) = MAX_PATH ->
  let b := pre ++ n ++ replicate (3 + k) 0 in
  exists s, get_next_path (Z.of_nat (length pre)) b = Ret (Some (Z.of_nat (length pre)), s, b) /\
    exists i, (i <= 2)%nat /\ s + 1 = Z.of_nat (length (pre ++ n) + i).
Proof.
  intros [Hne Hn] Hlen b. subst b. unfold get_next_path.
  replace (replicate (3 + k) 0) with (0 :: replicate (2 + k) 0) in * by done.
  rewrite last_dot_spec, last_dots_spec by done. cbn [mbind outcome_bind].
  destruct (decide (n = [dot])) as [->|Hd].
  { rewrite bool_decide_eq_true_2 by done. eexists. split; [done|]. exists 1%nat.
    rewrite length_app. cbn. lia. }
  rewrite (bool_decide_eq_false_2 (n = [dot] /\ _)) by tauto.
  destruct (decide (n = [dot; dot])) as [->|Hd'].
  { rewrite bool_decide_eq_true_2 by done. eexists. split; [done|]. exists 1%nat.
    rewrite length_app. cbn. lia. }
  rewrite bool_decide_eq_false_2 by tauto.
  rewrite find_slash_rest; [|apply Forall_app; split; [by apply plain_unslashed|]|done].
  2: { change (0 :: replicate (2 + k) 0) with (replicate (3 + k) 0). apply zeros_unslashed. }
  destruct n as [|c n]; [done|]. cbn [app]. rewrite rd_app. cbn [mbind outcome_bind].
  pose proof Hn as [[_ Hc] _]%Forall_cons. rewrite (proj2 (Z.eqb_neq _ _) Hc).
  pose proof (past_nul_spec (c :: n) pre (replicate (2 + k) 0) (S MAX_PATH) Hn) as Hp.
  rewrite !length_app in Hlen. cbn [app] in Hp. rewrite Hp by (cbn in *; lia). cbn [mbind outcome_bind].
  eexists. split; [done|]. exists 2%nat. rewrite !length_app. cbn [length]. lia.
Qed.

Definition final (last : list Z) : list (list Z) := if bool_decide (last = []) then [] else [last].

Lemma offsets_end fuel pre k : (0 < fuel)%nat -> length (pre ++ replicate (S k) 0) = MAX_PATH ->
  offsets fuel (Z.of_nat (length pre)) (pre ++ replicate (S k) 0) = Ret ([], pre ++ replicate (S k) 0).
Proof.
  intros Hf Hl. destruct fuel; [lia|]. cbn [offsets]. rewrite get_next_end by done. done.
Qed.

Lemma offsets_last fuel pre last k : (1 < fuel)%nat -> Forall plain last ->
  length (pre ++ last ++ replicate (3 + k) 0) = MAX_PATH ->
  offsets fuel (Z.of_nat (length pre)) (pre ++ last ++ replicate (3 + k) 0) =
    Ret (positions (length pre) (final last), pre ++ last ++ replicate (3 + k) 0).
Proof.
  intros Hf Hp Hl. unfold final. case_bool_decide as Hlast.
  - subst last. cbn [app]. apply offsets_end; [lia|]. done.
  - destruct (get_next_last pre last k ltac:(done) Hl) as (s & Hs & i & Hi & Hsi).
    destruct fuel as [|fuel]; [lia|]. cbn [offsets]. rewrite Hs. cbn [mbind outcome_bind]. rewrite Hsi.
    assert (pre ++ last ++ replicate (3 + k) 0 =
      (pre ++ last ++ replicate i 0) ++ replicate (S (2 - i + k)) 0) as Heq.
    { rewrite <- !app_assoc, <- replicate_add. do 3 f_equal. lia. }
    assert (length (pre ++ last) + i = length (pre ++ last ++ replicate i 0%Z))%nat as Hlen.
    { rewrite !length_app, length_replicate. lia. }
    rewrite Hlen, Heq, offsets_end by (lia || (rewrite <- Heq; exact Hl)). done.
Qed.

Lemma offsets_spec cs last k : Forall plain last -> forall fuel pre, Forall (Forall plain) cs ->
  (length cs + 2 <= fuel)%nat ->
  length (pre ++ slashed cs ++ last ++ replicate (3 + k) 0) = MAX_PATH ->
  offsets fuel (Z.of_nat (length pre)) (pre ++ slashed cs ++ last ++ replicate (3 + k) 0) =
    Ret (positions (length pre) (cs ++ final last), pre ++ nulled cs ++ last ++ replicate (3 + k) 0).
Proof.
  intros Hlast. induction cs as [|c cs IH]; intros fuel pre Hcs Hf Hl.
  - cbn [slashed nulled flat_map app length] in *. apply offsets_last; [lia|done|done].
  - apply Forall_cons in Hcs as [Hc Hcs]. destruct fuel as [|fuel]; [cbn in Hf; lia|].
    cbn [length] in Hf.
    cbn [slashed nulled flat_map positions offsets app]. fold (slashed cs) (nulled cs).
    cbn [slashed flat_map] in Hl. fold (slashed cs) in Hl.
    rewrite <- !app_assoc in *. cbn [app] in *.
    rewrite get_next_mid; [|done|rewrite !length_app in Hl; cbn in *; lia].
    cbn [mbind outcome_bind].
    specialize (IH fuel (pre ++ c ++ [0]) Hcs ltac:(lia)).
    rewrite <- !app_assoc in IH. cbn [app] in IH.
    assert (Z.of_nat (length (pre ++ c)) + 1 = Z.of_nat (length (pre ++ c ++ [0]))) as ->.
    { rewrite !length_app. cbn. lia. }
    rewrite IH; [|rewrite !length_app in *; cbn in *; lia].
    cbn [mbind outcome_bind]. do 3 f_equal. rewrite !length_app. cbn [length]. by rewrite Nat.add_assoc.
Qed.

Lemma strings_spec cs last k : Forall plain last -> forall pre, Forall (Forall plain) cs ->
  strings_at (pre ++ nulled cs ++ last ++ replicate (S k) 0) (positions (length pre) (cs ++ final last)) =
    Ret (cs ++ final last).
Proof.
  intros Hlast. induction cs as [|c cs IH]; intros pre Hcs.
  - cbn [nulled flat_map app]. unfold final. case_bool_decide; [done|]. cbn [positions strings_at].
    unfold cstr_at. rewrite (proj2 (Z.ltb_ge _ _)), Nat2Z.id, drop_app_length by lia.
    cbn [replicate]. rewrite cstr_app by done. done.
  - apply Forall_cons in Hcs as [Hc Hcs]. cbn [nulled flat_map app positions strings_at].
    fold (nulled cs). unfold cstr_at. rewrite (proj2 (Z.ltb_ge _ _)), Nat2Z.id, drop_app_length by lia.
    rewrite <- !app_assoc. cbn [app]. rewrite cstr_app by done. cbn [mbind outcome_bind].
    specialize (IH (pre ++ c ++ [0]) Hcs). rewrite <- !app_assoc in IH. cbn [app] in IH.
    replace (length pre + length c + 1)%nat with (length (pre ++ c ++ [0%Z])) by (rewrite !length_app; cbn; lia).
    rewrite IH. done.
Qed.

Lemma slashed_length cs : (length cs <= length (slashed cs))%nat.
Proof.
  induction cs as [|c cs IH]; [done|]. cbn [slashed flat_map length]. fold (slashed cs).
  rewrite !length_app. cbn. lia.
Qed.

(** The components of a path are what lies between the slashes; a slash at the end
    adds none.  Two bytes past the NUL of the path belong to the buffer. *)
Lemma components_spec cs last b : Forall (Forall plain) cs -> Forall plain last ->
  (length (slashed cs ++ last) + 3 <= MAX_PATH)%nat ->
  to_buffer (slashed cs ++ last) = Ret b -> components b = Ret (cs ++ final last).
Proof.
  intros Hcs Hlast Hl Hb. unfold to_buffer in Hb.
  rewrite (proj2 (Nat.ltb_lt _ _)) in Hb by lia. apply (f_equal (fun o => match o with Ret x => x | _ => [] end)) in Hb.
  cbn [app] in Hb. subst b. pose proof (slashed_length cs) as Hs. rewrite length_app in Hl. rewrite length_app.
  set (k := (MAX_PATH - (length (slashed cs) + length last) - 3)%nat).
  replace (MAX_PATH - (length (slashed cs) + length last))%nat with (3 + k)%nat by (unfold k; lia).
  unfold components. rewrite <- app_assoc.
  pose proof (offsets_spec cs last k Hlast (S (S MAX_PATH)) [] Hcs ltac:(lia)) as Ho.
  cbn [app length] in Ho. change (Z.of_nat 0) with 0 in Ho. rewrite Ho.
  - cbn [mbind outcome_bind]. apply (strings_spec cs last (2 + k) Hlast [] Hcs).
  - rewrite !length_app, length_replicate. unfold k. lia.
Qed.

(** ** The reference *)

(** The names a path leads through, [.] and [..] resolved; [up] are those so far,
    the last one first, and [..] stays at the root. *)
Fixpoint climb (ns up : list (list Z)) : list (list Z) :=
  match ns with
  | [] => rev up
  | c :: ns =>
      if bool_decide (c = [dot]) then climb ns up
      else if bool_decide (c = [dot; dot]) then climb ns (tail up)
      else climb ns (c :: up)
  end.

(** No [..] leaves the root, [d] levels above. *)
Fixpoint inside (ns : list (list Z)) (d : nat) : bool :=
  match ns with
  | [] => true
  | c :: ns =>
      if bool_decide (c = [dot]) then inside ns d
      else if bool_decide (c = [dot; dot]) then match d with O => false | S d => inside ns d end
      else inside ns (S d)
  end.

(** The absolute path of names, and names with no dots among them. *)
Definition rooted (ns : list (list Z)) : list Z := slash :: assemble ns.
Definition proper (n : list Z) : Prop := name n /\ n <> [dot] /\ n <> [dot; dot].

Lemma resolve_climb ns : forall a up, inside ns (length up) = true ->
  resolve ns (a :: rev up) = a :: climb ns up.
Proof.
  induction ns as [|c ns IH]; intros a up Hin; cbn [resolve climb inside] in *; [done|].
  case_bool_decide; [by apply IH|]. case_bool_decide.
  - destruct up as [|u up]; [done|]. cbn [length tail rev] in *.
    rewrite app_comm_cons, removelast_last. by apply IH.
  - rewrite <- app_comm_cons. change (rev up ++ [c]) with (rev (c :: up)). by apply (IH a (c :: up)).
Qed.

Lemma climb_proper ns : forall up, Forall proper ns -> climb ns up = rev up ++ ns.
Proof.
  induction ns as [|c ns IH]; intros up Hns; cbn [climb]; [by rewrite app_nil_r|].
  apply Forall_cons in Hns as [(_ & H1 & H2) Hns]. rewrite !bool_decide_eq_false_2 by done.
  rewrite IH by done. cbn [rev]. by rewrite <- app_assoc.
Qed.

Lemma inside_proper ns : forall d, Forall proper ns -> inside ns d = true.
Proof.
  induction ns as [|c ns IH]; intros d Hns; cbn [inside]; [done|].
  apply Forall_cons in Hns as [(_ & H1 & H2) Hns]. rewrite !bool_decide_eq_false_2 by done. by apply IH.
Qed.

Lemma climb_names ns : forall up, Forall name ns -> Forall proper up -> Forall proper (climb ns up).
Proof.
  induction ns as [|c ns IH]; intros up Hns Hup; cbn [climb]; [by apply Forall_rev|].
  apply Forall_cons in Hns as [Hc Hns]. case_bool_decide; [by apply IH|]. case_bool_decide; apply IH; try done.
  - destruct Hup; [constructor|done].
  - by constructor.
Qed.

Lemma climb_size ns : forall up,
  (length (slashed (climb ns up)) <= length (slashed ns) + length (slashed up))%nat.
Proof.
  assert (forall a b, length (slashed (a ++ b)) = (length (slashed a) + length (slashed b))%nat) as Happ.
  { intros. unfold slashed. by rewrite flat_map_app, length_app. }
  assert (forall c l, length (slashed (c :: l)) = (length c + 1 + length (slashed l))%nat) as Hcons.
  { intros. unfold slashed. cbn [flat_map]. by rewrite !length_app. }
  induction ns as [|c ns IH]; intros up; cbn [climb].
  - change (length (slashed [])) with 0%nat. induction up as [|u up IH]; [done|].
    cbn [rev]. rewrite Happ, !Hcons. change (length (slashed [])) with 0%nat. lia.
  - rewrite Hcons. case_bool_decide; [pose proof (IH up); lia|]. case_bool_decide.
    + pose proof (IH (tail up)). destruct up; cbn [tail] in *; rewrite ?Hcons; lia.
    + pose proof (IH (c :: up)). rewrite Hcons in *. lia.
Qed.

Lemma assemble_slashed ns : (length (assemble ns) <= length (slashed ns))%nat.
Proof.
  induction ns as [|c [|d ns] IH]; [done|cbn; rewrite !length_app; lia|].
  change (assemble (c :: d :: ns)) with (c ++ slash :: assemble (d :: ns)).
  change (slashed (c :: d :: ns)) with ((c ++ [slash]) ++ slashed (d :: ns)).
  rewrite !length_app. cbn [length]. lia.
Qed.

Lemma assemble_last cs last : last <> [] \/ cs = [] -> assemble (cs ++ final last) = slashed cs ++ last.
Proof.
  intros Hl. destruct (decide (last = [])) as [->|Hlast].
  { destruct Hl as [?|Hcs]; [done|]. by rewrite Hcs. }
  unfold final. rewrite bool_decide_eq_false_2 by done.
  clear Hl. induction cs as [|c cs IH]; [done|]. destruct cs as [|d cs]; cbn [app].
  - cbn. by rewrite app_nil_r, <- app_assoc.
  - change (assemble (c :: d :: cs ++ [last])) with (c ++ slash :: assemble ((d :: cs) ++ [last])).
    rewrite IH. cbn [slashed flat_map]. by rewrite <- !app_assoc.
Qed.

Lemma proper_names ns : Forall proper ns -> Forall name ns.
Proof. intros H. eapply Forall_impl; [exact H|]. intros n [Hn _]. exact Hn. Qed.

Lemma name_plain n : name n -> Forall plain n.
Proof. by intros []. Qed.

Lemma names_plain ns : Forall name ns -> Forall (Forall plain) ns.
Proof. intros H. eapply Forall_impl; [exact H|]. by intros n []. Qed.

(** An absolute path is [slash :: slashed cs ++ last]. *)
Lemma absolute_components cs last b : Forall name cs -> last = [] \/ name last ->
  (length (slash :: slashed cs ++ last) + 3 <= MAX_PATH)%nat ->
  to_buffer (slash :: slashed cs ++ last) = Ret b -> components b = Ret ([] :: cs ++ final last).
Proof.
  intros Hcs Hlast Hl Hb. apply (components_spec ([] :: cs) last b); [|by destruct Hlast as [->|[]]|done|done].
  constructor; [constructor|]. by apply names_plain.
Qed.

Lemma rooted_absolute ns : Forall name ns ->
  exists cs last, ns = cs ++ final last /\ rooted ns = slash :: slashed cs ++ last /\
    Forall name cs /\ (last = [] \/ name last).
Proof.
  intros Hns. destruct ns as [|n l _] using rev_ind; [by exists [], []; repeat split; [constructor|left]|].
  apply Forall_app in Hns as [Hl [Hn _]%Forall_cons]. exists l, n.
  unfold final. rewrite bool_decide_eq_false_2 by apply Hn. repeat split; [|done|by right].
  unfold rooted. f_equal. pose proof (assemble_last l n (or_introl (proj1 Hn))) as Ha. unfold final in Ha.
  rewrite bool_decide_eq_false_2 in Ha by apply Hn. exact Ha.
Qed.

Lemma to_buffer_ok s : (length s < MAX_PATH)%nat -> exists b, to_buffer s = Ret b.
Proof. intros Hs. unfold to_buffer. rewrite (proj2 (Nat.ltb_lt _ _)) by done. eauto. Qed.

(** The components of an absolute path, as [inode_get] and [inode_create] take it apart. *)
Lemma rooted_components ns b : Forall name ns -> (length (rooted ns) + 3 <= MAX_PATH)%nat ->
  to_buffer (rooted ns) = Ret b -> components b = Ret ([] :: ns).
Proof.
  intros Hns Hl Hb. destruct (rooted_absolute ns Hns) as (cs & last & -> & Heq & Hcs & Hlast).
  rewrite Heq in *. by apply absolute_components.
Qed.

Lemma canonical_spec cs last : Forall name cs -> last = [] \/ name last ->
  (length (slash :: slashed cs ++ last) + 3 <= MAX_PATH)%nat ->
  inside (cs ++ final last) 0 = true ->
  canonical (slash :: slashed cs ++ last) = Ret (rooted (climb (cs ++ final last) [])).
Proof.
  intros Hcs Hlast Hl Hin. unfold canonical.
  destruct (to_buffer_ok (slash :: slashed cs ++ last)) as [b Hb]; [lia|].
  rewrite Hb. cbn [mbind outcome_bind]. rewrite (absolute_components cs last b) by done.
  cbn [mbind outcome_bind]. cbn [resolve]. rewrite !bool_decide_eq_false_2 by done.
  rewrite (resolve_climb _ [] []) by done.
  pose proof (climb_size (cs ++ final last) []) as Hs. pose proof (assemble_slashed (climb (cs ++ final last) [])) as Ha.
  assert (length (slashed (cs ++ final last)) <= length (slashed cs) + length last + 1)%nat as Hf.
  { unfold slashed. rewrite flat_map_app, length_app. unfold final. case_bool_decide; cbn; rewrite ?length_app; cbn; lia. }
  change (length (slashed [])) with 0%nat in Hs. cbn [length] in Hl. rewrite length_app in Hl.
  set (r := climb _ _) in *. destruct r as [|c r]; [done|].
  change (assemble ([] :: c :: r)) with (slash :: assemble (c :: r)).
  rewrite (proj2 (Nat.ltb_lt _ _)) by (cbn [length] in *; lia). done.
Qed.

Section Code.
Context {S : Type} `{FsOps S}.

Lemma krealpath_absolute dev current_dir path (s : S) : (length path <= MAX_PATH)%nat -> head path = Some slash ->
  krealpath dev current_dir path s =
    match canonical path with
    | Ret r => (_ ← put_errno EOK; mret (Some r)) s
    | Panic => Panic | Fault => Fault | NoFuel => NoFuel
    end.
Proof.
  intros Hl Hh. unfold krealpath, path_prefix. rewrite Hh. unfold_st. cbn [default].
  rewrite Z.eqb_refl. cbn [length app Nat.add]. rewrite (proj2 (Nat.ltb_ge _ _)) by lia.
  unfold lift. destruct (canonical path); done.
Qed.

(** C7: An absolute path of names separated by single slashes, at most 253 bytes long
    (the last component is looked for two bytes past its NUL) and with no [..] that
    leaves the root, becomes its canonical path: dots resolved, no slash at the end. *)
Theorem krealpath_correct dev current_dir cs last (s : S) : Forall name cs -> last = [] \/ name last ->
  (length (slash :: slashed cs ++ last) + 3 <= MAX_PATH)%nat -> inside (cs ++ final last) 0 = true ->
  krealpath dev current_dir (slash :: slashed cs ++ last) s =
    (_ ← put_errno EOK; mret (Some (rooted (climb (cs ++ final last) [])))) s.
Proof.
  intros Hcs Hlast Hl Hin. rewrite krealpath_absolute; [|lia|done]. by rewrite canonical_spec.
Qed.

(** A canonical path stays as it is. *)
Lemma krealpath_rooted dev current_dir ns (s : S) : Forall proper ns ->
  (length (rooted ns) + 3 <= MAX_PATH)%nat ->
  krealpath dev current_dir (rooted ns) s = (_ ← put_errno EOK; mret (Some (rooted ns))) s.
Proof.
  intros Hns Hl. assert (Forall name ns) as Hn by (by apply proper_names).
  rewrite krealpath_absolute; [|lia|done].
  destruct (rooted_absolute ns Hn) as (cs & last & -> & Heq & Hcs & Hlast). rewrite Heq in *.
  rewrite canonical_spec; [|done|done|done|by apply inside_proper].
  rewrite climb_proper by done. cbn [rev app]. by rewrite Heq.
Qed.

(** A [..] above the root drops the empty component in front of the first slash:
    the path [/../a/b] becomes the relative [a/b], of which the callers skip [a]. *)
Theorem krealpath_above_root dev current_dir ns (s : S) : ns <> [] -> Forall proper ns ->
  (length (assemble ns) + 7 <= MAX_PATH)%nat ->
  krealpath dev current_dir (rooted ([dot; dot] :: ns)) s = (_ ← put_errno EOK; mret (Some (assemble ns))) s.
Proof.
  intros Hne Hns Hl. assert (Forall name ([dot; dot] :: ns)) as Hn.
  { constructor; [split; [done|]|by apply proper_names].
    repeat constructor; done. }
  assert (rooted ([dot; dot] :: ns) = slash :: dot :: dot :: slash :: assemble ns) as Hr by (by destruct ns).
  rewrite krealpath_absolute; [|rewrite Hr; cbn [length]; lia|done].
  unfold canonical. destruct (to_buffer_ok (rooted ([dot; dot] :: ns))) as [b Hb]; [rewrite Hr; cbn [length]; lia|].
  rewrite Hb. cbn [mbind outcome_bind]. rewrite (rooted_components _ b Hn); [|rewrite Hr; cbn [length]; lia|done].
  cbn [mbind outcome_bind resolve removelast].
  rewrite !bool_decide_eq_false_2, bool_decide_eq_true_2 by done.
  destruct ns as [|n ns]; [done|]. apply Forall_cons in Hns as [(Hn1 & H1 & H2) Hns].
  cbn [app resolve]. rewrite !bool_decide_eq_false_2 by done.
  pose proof (resolve_climb ns n [] ltac:(by apply inside_proper)) as Hc.
  rewrite climb_proper in Hc by done. cbn [rev app] in Hc.
  change (removelast [[]] ++ [n]) with [n]. rewrite Hc.
  rewrite (proj2 (Nat.ltb_lt _ _)) by lia. destruct (assemble (n :: ns)) eqn:Ha; [|done].
  destruct Hn1 as [Hn1 _]. destruct n, ns; done.
Qed.
End Code.

(** ** Concrete paths *)

#[export] Instance name_dec n : Decision (name n).
Proof. unfold name, plain. apply _. Defined.
#[export] Instance proper_dec n : Decision (proper n).
Proof. unfold proper. apply _. Defined.

(** [/a/./b/../cd/] *)
Lemma krealpath_correct_witness :
  krealpath 0 mem_root (slash :: slashed [[97]; [dot]; [98]; [dot; dot]; [99; 100]] ++ []) (Mem ∅ ∅ 7) =
    Ret (Some [slash; 97; slash; 99; 100], Mem ∅ ∅ 0).
Proof.
  rewrite (krealpath_correct 0 mem_root [[97]; [dot]; [98]; [dot; dot]; [99; 100]] []).
  - reflexivity.
  - by apply (bool_decide_eq_true_1 _).
  - by left.
  - cbn. unfold MAX_PATH. lia.
  - reflexivity.
Defined.

(** [/../a/b] *)
Lemma krealpath_above_root_witness :
  krealpath 0 mem_root [slash; dot; dot; slash; 97; slash; 98] (Mem ∅ ∅ 7) =
    Ret (Some [97; slash; 98], Mem ∅ ∅ 0).
Proof.
  assert (Forall proper [[97]; [98]]) as Hp by (by apply (bool_decide_eq_true_1 _)).
  exact (krealpath_above_root 0 mem_root [[97]; [98]] (Mem ∅ ∅ 7) ltac:(done) Hp ltac:(cbn; unfold MAX_PATH; lia)).
Defined.
