(* ===== verification/ParentPath.v ===== *)
(** * Parent directories ([get_parent_dir] and [get_parent_path] of [fs/paths.c])

    Both take a path and leave a string in the caller's buffer, which is large
    enough; the result is that string, [None] when nothing is stored.  Only the
    tests of [fs/paths.c] call them. *)

From S2P Require Import Prelude Layout Store Paths PathsSpec.

(** The loop from [n - 1] down to the first slash it meets. *)
Fixpoint slash_below (n : nat) (path : list Z) : option nat :=
  match n with O => None | S i => if nth i path 0 =? slash then Some i else slash_below i path end.

(** The loop from the start. *)
Fixpoint slash_from (i : nat) (path : list Z) : option nat :=
  match path with [] => None | c :: path => if c =? slash then Some i else slash_from (S i) path end.

Definition dots (path : list Z) : bool := bool_decide (path = [dot] \/ path = [dot; dot]).

Definition get_parent_dir (path : list Z) : option (list Z) :=
  if dots path then Some path
  else
    let last := slash_below (length path) path in
    match slash_from 0 path, last with
    | Some prev, Some last =>
        if (prev =? last)%nat then Some [slash]
        else
          match slash_below last path with
          | Some i => Some (take (last - (i + 1)) (drop (i + 1) path))
          | None => None
          end
    | _, _ => None
    end.

(** The copy [tmp] has [MAX_PATH] bytes. *)
Definition get_parent_path (path : list Z) : outcome (option (list Z)) :=
  if (length path <? MAX_PATH)%nat then
    if dots path then Ret (Some path)
    else
      let first := default 0%nat (slash_from 0 path) in
      match slash_below (length path) path with
      | None => Ret None
      | Some i => if (i =? first)%nat then Ret (Some [slash]) else Ret (Some (take i path))
      end
  else Fault.

(** ** The slashes that are found *)

Lemma slash_below_app n : forall pre rest, Forall (fun c => c <> slash) n ->
  slash_below (length pre + S (length n)) (pre ++ slash :: n ++ rest) = Some (length pre).
Proof.
  induction n as [|c n IH] using rev_ind; intros pre rest Hn.
  - cbn [length app]. rewrite Nat.add_1_r. cbn [slash_below].
    rewrite app_nth2, Nat.sub_diag by lia. by rewrite Z.eqb_refl.
  - apply Forall_app in Hn as [Hn [Hc _]%Forall_cons]. rewrite length_app. cbn [length].
    replace (length pre + S (length n + 1))%nat with (S (length pre + S (length n))) by lia. cbn [slash_below].
    rewrite app_nth2 by lia. replace (length pre + S (length n) - length pre)%nat with (S (length n)) by lia. cbn [nth].
    rewrite <- app_assoc, app_nth2, Nat.sub_diag by lia. cbn [nth app]. rewrite (proj2 (Z.eqb_neq _ _) Hc). by apply IH.
Qed.

Lemma slash_from_app pre rest : forall i, Forall (fun c => c <> slash) pre ->
  slash_from i (pre ++ slash :: rest) = Some (i + length pre)%nat.
Proof.
  induction pre as [|c pre IH]; intros i Hp; cbn [slash_from app length].
  - by rewrite Z.eqb_refl, Nat.add_0_r.
  - apply Forall_cons in Hp as [Hc Hp]. rewrite (proj2 (Z.eqb_neq _ _) Hc), IH by done. f_equal. lia.
Qed.

Lemma slash_from_bound pre rest : forall i, exists f,
  slash_from i (pre ++ slash :: rest) = Some f /\ (f <= i + length pre)%nat.
Proof.
  induction pre as [|c pre IH]; intros i; cbn [slash_from app length].
  - exists i. rewrite Z.eqb_refl. split; [done|lia].
  - destruct (c =? slash); [exists i; split; [done|lia]|].
    destruct (IH (S i)) as (f & Ef & Hf). exists f. split; [done|lia].
Qed.

Lemma no_slash_below n : forall path, Forall (fun c => c <> slash) path -> slash_below n path = None.
Proof.
  induction n as [|n IH]; intros path Hp; [done|]. cbn [slash_below]. rewrite IH by done.
  destruct (path !! n) as [c|] eqn:E.
  - rewrite (nth_lookup_Some _ _ _ _ E), (proj2 (Z.eqb_neq _ _)); [done|]. exact (Forall_lookup_1 _ _ _ _ Hp E).
  - rewrite nth_overflow by (by apply lookup_ge_None). done.
Qed.

Lemma slashed_no_dots pre n : dots (pre ++ slash :: n) = false.
Proof.
  unfold dots. apply bool_decide_eq_false. intros [E | E]; destruct pre as [|? [|? [|? ?]]]; discriminate E || (injection E; discriminate).
Qed.

(** ** What they leave *)

(** A path of three parts: all of it but the last, and the part in the middle. *)
Theorem parents_of_deep pre d n : Forall (fun c => c <> slash) d -> Forall (fun c => c <> slash) n ->
  (length (pre ++ slash :: d ++ slash :: n) < MAX_PATH)%nat ->
  get_parent_path (pre ++ slash :: d ++ slash :: n) = Ret (Some (pre ++ slash :: d)) /\
  get_parent_dir (pre ++ slash :: d ++ slash :: n) = Some d.
Proof.
  intros Hd Hn Hl. unfold get_parent_path, get_parent_dir. rewrite (proj2 (Nat.ltb_lt _ _)) by done.
  rewrite slashed_no_dots.
  pose proof (slash_below_app n (pre ++ slash :: d) [] Hn) as E. rewrite app_nil_r in E.
  rewrite <- app_assoc in E. cbn [app] in E.
  replace (length (pre ++ slash :: d) + S (length n))%nat with (length (pre ++ slash :: d ++ slash :: n)) in E
    by (rewrite !length_app; cbn [length]; rewrite length_app; cbn [length]; lia).
  rewrite E.
  destruct (slash_from_bound pre (d ++ slash :: n) 0) as (f & Ef & Hf).
  rewrite Ef. cbn [default from_option id]. rewrite length_app. cbn [length].
  rewrite (proj2 (Nat.eqb_neq (length pre + S (length d)) f)), (proj2 (Nat.eqb_neq f (length pre + S (length d)))) by lia.
  split.
  - do 2 f_equal. replace (pre ++ slash :: d ++ slash :: n) with ((pre ++ slash :: d) ++ slash :: n) by by rewrite <- app_assoc.
    apply take_app_length'. by rewrite length_app.
  - rewrite (slash_below_app d pre (slash :: n) Hd).
    replace (drop (length pre + 1) (pre ++ slash :: d ++ slash :: n)) with (d ++ slash :: n).
    { f_equal. apply take_app_length'. lia. }
    symmetry. rewrite drop_app_ge by lia. by replace (length pre + 1 - length pre)%nat with 1%nat by lia.
Qed.

(** With one slash only, the parent is the root, whether or not the path begins
    with the slash; without one nothing is stored. *)
Theorem parents_of_shallow pre n : Forall (fun c => c <> slash) pre -> Forall (fun c => c <> slash) n ->
  (length (pre ++ slash :: n) < MAX_PATH)%nat ->
  get_parent_path (pre ++ slash :: n) = Ret (Some [slash]) /\ get_parent_dir (pre ++ slash :: n) = Some [slash].
Proof.
  intros Hp Hn Hl. unfold get_parent_path, get_parent_dir. rewrite (proj2 (Nat.ltb_lt _ _)) by done.
  rewrite slashed_no_dots, slash_from_app by done.
  pose proof (slash_below_app n pre [] Hn) as E. rewrite app_nil_r in E. rewrite length_app. cbn [length]. rewrite E.
  cbn [Nat.add default from_option id]. by rewrite Nat.eqb_refl.
Qed.

Lemma parents_of_name n : Forall (fun c => c <> slash) n -> dots n = false -> (length n < MAX_PATH)%nat ->
  get_parent_path n = Ret None /\ get_parent_dir n = None.
Proof.
  intros Hn Hd Hl. unfold get_parent_path, get_parent_dir. rewrite (proj2 (Nat.ltb_lt _ _)), Hd by done.
  rewrite no_slash_below by done. split; [done|]. by destruct (slash_from 0 n).
Qed.
