(* ===== verification/Tree.v ===== *)
(** * The tree of inodes ([fs/inode.c], [fs/link.c])

    [inode_get] (namei), [inode_create], [inode_free] (unlink) and [kreadlink],
    over the interface of the buffer cache and the block allocators.  Local
    variables that are read after a loop are its results; a [return] in the
    middle is the left side of a sum.  [fuel] bounds the chains of block maps,
    which on a damaged disk can be cyclic, [depth] the nesting of links, which
    [MAX_RECURSION] bounds.  The clock does not tick during one call. *)

From S2P Require Import Prelude Errno Layout Perms Alloc Store Paths.

Definition MAX_RECURSION : Z := 1024.

(** ** Assignments to fields of an inode *)

Definition put_next (v : Z) (i : inode) : inode :=
  Inode (user_read i) (user_write i) (user_execute i) (group_read i) (group_write i)
    (group_execute i) (world_read i) (world_write i) (world_execute i) (is_directory i)
    (is_device i) (is_file i) (is_symlink i) (is_hardlink i) (align_14 i) (create_time i)
    (modified_time i) (accessed_time i) (self i) (parent i) (i_size i) (i_pos i) (i_current i)
    (current_parent i) (iblock i) (i_dev i) (o_mode i) (i_group i) (i_owner i) (refcount i)
    (i_path i) (i_pad i) (align_506 i) (v).

Definition put_path (v : list Z) (i : inode) : inode :=
  Inode (user_read i) (user_write i) (user_execute i) (group_read i) (group_write i)
    (group_execute i) (world_read i) (world_write i) (world_execute i) (is_directory i)
    (is_device i) (is_file i) (is_symlink i) (is_hardlink i) (align_14 i) (create_time i)
    (modified_time i) (accessed_time i) (self i) (parent i) (i_size i) (i_pos i) (i_current i)
    (current_parent i) (iblock i) (i_dev i) (o_mode i) (i_group i) (i_owner i) (refcount i) (v)
    (i_pad i) (align_506 i) (i_next i).

Definition inode_set_timestamps (now : Z) (i : inode) : inode :=
  Inode (user_read i) (user_write i) (user_execute i) (group_read i) (group_write i)
    (group_execute i) (world_read i) (world_write i) (world_execute i) (is_directory i)
    (is_device i) (is_file i) (is_symlink i) (is_hardlink i) (align_14 i) (now) (now) (now)
    (self i) (parent i) (i_size i) (i_pos i) (i_current i) (current_parent i) (iblock i) (i_dev i)
    (o_mode i) (i_group i) (i_owner i) (refcount i) (i_path i) (i_pad i) (align_506 i) (i_next i).

Definition put_place (block up : Z) (i : inode) : inode :=
  Inode (user_read i) (user_write i) (user_execute i) (group_read i) (group_write i)
    (group_execute i) (world_read i) (world_write i) (world_execute i) (is_directory i)
    (is_device i) (is_file i) (is_symlink i) (is_hardlink i) (align_14 i) (create_time i)
    (modified_time i) (accessed_time i) (block) (up) (i_size i) (i_pos i) (i_current i)
    (current_parent i) (iblock i) (i_dev i) (o_mode i) (i_group i) (i_owner i) (refcount i)
    (i_path i) (i_pad i) (align_506 i) (i_next i).

Definition put_owner (group owner : Z) (i : inode) : inode :=
  Inode (user_read i) (user_write i) (user_execute i) (group_read i) (group_write i)
    (group_execute i) (world_read i) (world_write i) (world_execute i) (is_directory i)
    (is_device i) (is_file i) (is_symlink i) (is_hardlink i) (align_14 i) (create_time i)
    (modified_time i) (accessed_time i) (self i) (parent i) (i_size i) (i_pos i) (i_current i)
    (current_parent i) (iblock i) (i_dev i) (o_mode i) (group) (owner) (refcount i) (i_path i)
    (i_pad i) (align_506 i) (i_next i).

Definition mark_directory (i : inode) : inode :=
  Inode (user_read i) (user_write i) (user_execute i) (group_read i) (group_write i)
    (group_execute i) (world_read i) (world_write i) (world_execute i) (1) (is_device i)
    (is_file i) (is_symlink i) (is_hardlink i) (align_14 i) (create_time i) (modified_time i)
    (accessed_time i) (self i) (parent i) (i_size i) (i_pos i) (i_current i) (current_parent i)
    (iblock i) (i_dev i) (o_mode i) (i_group i) (i_owner i) (refcount i) (i_path i) (i_pad i)
    (align_506 i) (i_next i).

Definition mark_file (i : inode) : inode :=
  Inode (user_read i) (user_write i) (user_execute i) (group_read i) (group_write i)
    (group_execute i) (world_read i) (world_write i) (world_execute i) (is_directory i)
    (is_device i) (1) (is_symlink i) (is_hardlink i) (align_14 i) (create_time i)
    (modified_time i) (accessed_time i) (self i) (parent i) (i_size i) (i_pos i) (i_current i)
    (current_parent i) (iblock i) (i_dev i) (o_mode i) (i_group i) (i_owner i) (refcount i)
    (i_path i) (i_pad i) (align_506 i) (i_next i).

Definition mark_symlink (i : inode) : inode :=
  Inode (user_read i) (user_write i) (user_execute i) (group_read i) (group_write i)
    (group_execute i) (world_read i) (world_write i) (world_execute i) (is_directory i)
    (is_device i) (is_file i) (1) (is_hardlink i) (align_14 i) (create_time i) (modified_time i)
    (accessed_time i) (self i) (parent i) (i_size i) (i_pos i) (i_current i) (current_parent i)
    (iblock i) (i_dev i) (o_mode i) (i_group i) (i_owner i) (refcount i) (i_path i) (i_pad i)
    (align_506 i) (i_next i).

Definition mark_hardlink (i : inode) : inode :=
  Inode (user_read i) (user_write i) (user_execute i) (group_read i) (group_write i)
    (group_execute i) (world_read i) (world_write i) (world_execute i) (is_directory i)
    (is_device i) (is_file i) (is_symlink i) (1) (align_14 i) (create_time i) (modified_time i)
    (accessed_time i) (self i) (parent i) (i_size i) (i_pos i) (i_current i) (current_parent i)
    (iblock i) (i_dev i) (o_mode i) (i_group i) (i_owner i) (refcount i) (i_path i) (i_pad i)
    (align_506 i) (i_next i).

Definition put_device (dev : Z) (i : inode) : inode :=
  Inode (user_read i) (user_write i) (user_execute i) (group_read i) (group_write i)
    (group_execute i) (world_read i) (world_write i) (world_execute i) (is_directory i)
    (is_device i) (is_file i) (is_symlink i) (is_hardlink i) (align_14 i) (create_time i)
    (modified_time i) (accessed_time i) (self i) (parent i) (i_size i) (i_pos i) (i_current i)
    (current_parent i) (iblock i) (dev) (o_mode i) (i_group i) (i_owner i) (refcount i) (i_path i)
    (i_pad i) (align_506 i) (i_next i).

Definition put_refcount (v : Z) (i : inode) : inode :=
  Inode (user_read i) (user_write i) (user_execute i) (group_read i) (group_write i)
    (group_execute i) (world_read i) (world_write i) (world_execute i) (is_directory i)
    (is_device i) (is_file i) (is_symlink i) (is_hardlink i) (align_14 i) (create_time i)
    (modified_time i) (accessed_time i) (self i) (parent i) (i_size i) (i_pos i) (i_current i)
    (current_parent i) (iblock i) (i_dev i) (o_mode i) (i_group i) (i_owner i) (v) (i_path i)
    (i_pad i) (align_506 i) (i_next i).

Definition zero_map : block_map_t := dec block_map_t_codec (replicate 512 0).
Definition zero_link : link_t := dec link_t_codec (replicate 512 0).

(** [strcpy] of a string into a [path] field. *)
Definition copy_path (s old : list Z) : outcome (list Z) :=
  if (length s <? MAX_PATH)%nat then Ret (s ++ 0 :: drop (S (length s)) old) else Fault.

(** [strncpy] with [MAX_PATH]: a second NUL follows the first. *)
Definition ncopy_path (s old : list Z) : outcome (list Z) :=
  if (length s + 1 <? MAX_PATH)%nat then Ret (s ++ 0 :: 0 :: drop (length s + 2) old) else Fault.

(** ** Statements that may return *)

Section Leave.
Context {S E : Type}.

Definition er (A : Type) : Type := st S (E + A).

#[export] Instance er_ret : MRet er := fun A a => mret (inr a).
#[export] Instance er_bind : MBind er := fun A B k m =>
  r ← (m : st S (E + A)); match r with inl e => mret (inl e) | inr a => k a end.

(** A statement that does not return. *)
Definition stmt {A} (m : st S A) : er A := a ← m; mret (M := st S) (inr a).
Definition leave {A} (e : E) : er A := mret (M := st S) (inl e).
Definition leave_with `{FsOps S} {A} (n : Z) (e : E) : er A :=
  _ ← put_errno n; mret (M := st S) (inl e).
(** [if(... != BLOCK_OK) { errno = n; return e; }] *)
Definition need `{FsOps S} (m : st S bool) (n : Z) (e : E) : er unit :=
  ok ← stmt m; if (ok : bool) then mret tt else leave_with n e.
Definition need_val `{FsOps S} {A} (m : st S (bool * A)) (n : Z) (e : E) : er A :=
  r ← stmt m; if (r.1 : bool) then mret r.2 else leave_with n e.

(** The value a function returns. *)
Definition returned (m : er E) : st S E :=
  r ← (m : st S (E + E)); mret (match r with inl e => e | inr e => e end).
End Leave.
Arguments er : clear implicits.

(** The static of [kreadlink] beside the state of the layers below. *)
Record tree (S : Type) := Tree { base : S; nr_recursion : Z }.
Arguments Tree {S}.
Arguments base {S} _.
Arguments nr_recursion {S} _.

Definition below {S A} (m : st S A) : st (tree S) A := fun t =>
  match m (base t) with
  | Ret (a, s) => Ret (a, Tree s (nr_recursion t))
  | Panic => Panic | Fault => Fault | NoFuel => NoFuel
  end.

#[export] Instance tree_ops {S} `{FsOps S} : FsOps (tree S) := {|
  root_block dev := below (root_block dev);
  read_block dev block data := below (read_block dev block data);
  write_block dev block data := below (write_block dev block data);
  get_inode_block dev block := below (get_inode_block dev block);
  get_data_block dev block := below (get_data_block dev block);
  free_inode_block dev block := below (free_inode_block dev block);
  free_data_block dev block := below (free_data_block dev block);
  put_errno e := below (put_errno e);
  the_errno t := the_errno (base t)
|}.

(** The caller: [current_process->group], [current_process->owner], and the
    value of [ktime(0)]. *)
Record caller := Caller { c_group : Z; c_owner : Z; c_now : Z }.

Definition is_dir (i : inode) : bool := negb (is_directory i =? 0).
Definition is_link (i : inode) : bool := negb (is_symlink i =? 0).
Definition is_hard (i : inode) : bool := negb (is_hardlink i =? 0).
Definition is_reg (i : inode) : bool := negb (is_file i =? 0).

Section Code.
Context {S : Type} `{FsOps S} (who : caller).

Abbreviation T := (tree S).
Abbreviation get_result := (inode_rtvl * option inode)%type.

Definition read_inode (dev block : Z) (i : inode) : st T (bool * inode) := read_as inode_codec dev block i.
Definition write_inode (dev block : Z) (i : inode) : st T bool := write_as inode_codec dev block i.
Definition read_map_block (dev block : Z) (b : block_map_t) : st T (bool * block_map_t) :=
  read_as block_map_t_codec dev block b.
Definition write_map_block (dev block : Z) (b : block_map_t) : st T bool :=
  write_as block_map_t_codec dev block b.

(** ** Looking up a name in a directory *)

(** The entries of one block map, from the first on. *)
Fixpoint scan_entries {E} (e : E) (dev : Z) (path : list Z) (l : list Z) (tnode : inode) : er T E (Z * inode) :=
  match l with
  | [] => mret (INODE_NULL, tnode)
  | b :: l =>
      if b =? INODE_NULL then scan_entries e dev path l tnode
      else
        tnode ← need_val (read_inode dev b tnode) EACCES e;
        name ← stmt (lift (cstr (i_path tnode)));
        if bool_decide (name = path) then mret (b, tnode) else scan_entries e dev path l tnode
  end.

(** The do loop over the block maps: the block found or 0, and its inode. *)
Fixpoint scan_chain {E} (fuel : nat) (e : E) (dev : Z) (path : list Z) (next : Z) (tnode : inode)
    : er T E (Z * inode) :=
  match fuel with
  | O => stmt (fun _ => NoFuel)
  | Datatypes.S fuel =>
      bmap ← need_val (read_map_block dev next zero_map) EACCES e;
      r ← scan_entries e dev path (b_blocks bmap) tnode;
      if negb (b_next bmap =? INODE_NULL) && (r.1 =? INODE_NULL) then
        scan_chain fuel e dev path (b_next bmap) r.2
      else mret r
  end.

(** ** The root *)

(** The root inode when it is made. *)
Definition new_root (dev root : Z) (i : inode) : outcome inode :=
  p ← copy_path [slash] (i_path i);
  Ret (put_owner 0 0 (put_place root root (put_device dev (mark_directory
    (inode_set_timestamps (c_now who) (inode_set_permissions (put_next INODE_NULL (put_path p i)) 511 0)))))).

(** Reading the root, which is made when its name is not a slash. *)
Definition get_root {E} (e : E) (dev : Z) : er T E inode :=
  root ← stmt (root_block dev);
  root ← stmt (checked root);
  i ← need_val (read_inode dev root zero_inode) EACCES e;
  name ← stmt (lift (cstr (i_path i)));
  if bool_decide (name = [slash]) then mret i
  else
    i ← stmt (lift (new_root dev root i));
    r ← stmt (get_inode_block dev 0);
    if negb (bool_decide (r.1 = INODE_OK)) then leave_with EACCES e
    else if negb (r.2 =? root) then leave e
    else _ ← need (write_inode dev root i) EACCES e; mret i.

(** ** Links *)

Section Recursive.
(** [inode_get], one level down. *)
Context (get_path : Z -> Z -> list Z -> bool -> inode_mode -> st T get_result).

Definition set_recursion (f : Z -> Z) : st T unit :=
  modify (fun t => Tree (base t) (i32 (f (nr_recursion t)))).

(** The block a link refers to, or 0.  The counter goes down again only when the
    nesting is too deep and when the link is resolved. *)
Definition kreadlink (dev current_dir : Z) : st T Z := returned (
  _ ← stmt (set_recursion (fun n => n + 1));
  t ← stmt get;
  if MAX_RECURSION <? nr_recursion t then
    _ ← stmt (put_errno ELOOP);
    _ ← stmt (set_recursion (fun n => n - 1));
    leave INODE_NULL
  else
    i ← need_val (read_inode dev current_dir zero_inode) EACCES INODE_NULL;
    if negb (is_link i || is_hard i) then leave_with EINVAL INODE_NULL
    else
      link ← need_val (read_as link_t_codec dev (i_next i) zero_link) EACCES INODE_NULL;
      text ← stmt (lift (cstr (l_path link)));
      _ ← stmt (lift (ncopy_path text (replicate MAX_PATH 0)));
      p ← stmt (krealpath dev current_dir text);
      match p with
      | None => leave INODE_NULL
      | Some _ =>
          r ← stmt (get_path dev current_dir text true INODE_DONTCHECKPERMS);
          match r with
          | (INODE_OK, Some i) => _ ← stmt (set_recursion (fun n => n - 1)); mret (self i)
          | _ => leave_with EINVAL INODE_NULL
          end
      end).

(** A symbolic link in the middle of a path must lead to a directory. *)
Definition follow {E} (e : E) (dev : Z) (i : inode) : er T E inode :=
  if is_link i then
    block ← stmt (kreadlink dev (self i));
    if block =? INODE_NULL then leave e
    else
      i ← need_val (read_inode dev block i) EACCES e;
      if is_dir i then mret i else leave_with EACCES e
  else mret i.

(** ** Walking a path *)

(** The end of the path: reading a link and the check of the permissions. *)
Definition arrive (dev : Z) (do_readlink : bool) (mode : inode_mode) (tnode : inode) : er T get_result get_result :=
  tnode ← (if (is_link tnode || is_hard tnode) && do_readlink then
             block ← stmt (kreadlink dev (self tnode));
             if block =? INODE_NULL then leave_with ENOENT (INODE_FAIL, None)
             else need_val (read_inode dev block tnode) EACCES (INODE_FAIL, None)
           else mret tnode);
  if inode_check_permissions tnode 0 0 (c_group who) (c_owner who) mode then mret (INODE_OK, Some tnode)
  else leave_with EACCES (INODE_FAIL, None).

Fixpoint walk (fuel : nat) (dev : Z) (do_readlink : bool) (mode : inode_mode) (names : list (list Z)) (up : Z)
    : er T get_result get_result :=
  match names with
  | [] => mret (INODE_FAIL, None)
  | path :: names =>
      i ← need_val (read_inode dev up zero_inode) EACCES (INODE_FAIL, None);
      if is_dir i || is_link i then
        i ← follow (INODE_FAIL, None) dev i;
        if negb (inode_check_permissions i 0 0 (c_group who) (c_owner who) INODE_RX) then
          leave_with EACCES (INODE_FAIL, None)
        else if i_next i =? INODE_NULL then leave_with ENOENT (INODE_FILE_NOT_FOUND, Some zero_inode)
        else
          r ← scan_chain fuel (INODE_FAIL, None) dev path (i_next i) zero_inode;
          if r.1 =? INODE_NULL then leave_with ENOENT (INODE_FILE_NOT_FOUND, None)
          else
            match names with
            | [] => arrive dev do_readlink mode r.2
            | _ => walk fuel dev do_readlink mode names r.1
            end
      else
        match names with
        | [] => mret (INODE_FAIL, None)
        | _ => if is_reg i then leave_with ENOENT (INODE_FAIL, None) else leave_with EINVAL (INODE_FAIL, None)
        end
  end.

(** The status and what is stored in [*res_inode], if anything. *)
Definition inode_get_body (fuel : nat) (dev current_dir : Z) (path : list Z) (do_readlink : bool)
    (mode : inode_mode) : st T get_result := returned (
  root ← stmt (root_block dev);
  match root with
  | None => leave_with EINVAL (INODE_FAIL, None)
  | Some _ =>
      if (MAX_PATH <? length path)%nat then leave_with ENAMETOOLONG (INODE_FAIL, None)
      else
        _ ← stmt (lift (copy_path path (replicate MAX_PATH 0)));
        p ← stmt (krealpath dev current_dir path);
        match p with
        | None => leave (INODE_FAIL, None)
        | Some res =>
            b ← stmt (lift (to_buffer res));
            names ← stmt (lift (components b));
            i ← get_root (INODE_FAIL, None) dev;
            match names with
            | [[]] => mret (INODE_OK, Some i)
            | [name] => if bool_decide (name = [slash]) then mret (INODE_OK, Some i) else mret (INODE_FAIL, None)
            | _ => walk fuel dev do_readlink mode (tail names) (self i)
            end
        end
  end).
End Recursive.

Fixpoint inode_get (depth fuel : nat) (dev current_dir : Z) (path : list Z) (do_readlink : bool)
    (mode : inode_mode) : st T get_result :=
  match depth with
  | O => fun _ => NoFuel
  | Datatypes.S depth => inode_get_body (inode_get depth fuel) fuel dev current_dir path do_readlink mode
  end.

(** ** Creating *)

Section Create.
Context (depth fuel : nat).

(** A free slot of the chain from [next] on: the new inode's block or 0, the last
    block map read and where it lies. *)
Fixpoint first_free (l : list Z) : option nat :=
  match l with [] => None | b :: l => if b =? INODE_NULL then Some O else Datatypes.S <$> first_free l end.

Fixpoint free_slot (n : nat) (dev next : Z) : er T inode_rtvl (Z * block_map_t * Z) :=
  match n with
  | O => stmt (fun _ => NoFuel)
  | Datatypes.S n =>
      bmap ← need_val (read_map_block dev next zero_map) EACCES INODE_FAIL;
      match first_free (b_blocks bmap) with
      | Some j =>
          r ← stmt (get_inode_block dev INODE_NULL);
          if bool_decide (r.1 = INODE_FAIL) then leave_with ENOSPC INODE_FAIL
          else
            let bmap := BlockMap (b_next bmap) (<[j := r.2]> (b_blocks bmap)) in
            _ ← need (write_map_block dev next bmap) EACCES INODE_FAIL;
            if negb (b_next bmap =? INODE_NULL) && (r.2 =? INODE_NULL) then free_slot n dev (b_next bmap)
            else mret (r.2, bmap, next)
      | None =>
          if negb (b_next bmap =? INODE_NULL) then free_slot n dev (b_next bmap)
          else mret (INODE_NULL, bmap, next)
      end
  end.

(** A new block map at the end of the chain, or the first one, with the new
    inode's block in its first slot. *)
Definition new_slot (dev : Z) (up : inode) (bmap : block_map_t) (current : Z) : er T inode_rtvl Z :=
  r ← stmt (get_data_block dev INODE_NULL);
  if bool_decide (r.1 = INODE_FAIL) then leave_with ENOSPC INODE_FAIL
  else
    next ← (if (b_next bmap =? INODE_NULL) && negb (current =? INODE_NULL) then
              _ ← need (write_map_block dev current (BlockMap r.2 (b_blocks bmap))) EACCES INODE_FAIL;
              mret r.2
            else if current =? INODE_NULL then
              _ ← need (write_inode dev (self up) (put_next r.2 up)) EACCES INODE_FAIL;
              mret r.2
            else mret (b_next bmap));
    r ← stmt (get_inode_block dev r.2);
    if bool_decide (r.1 = INODE_FAIL) then leave_with ENOSPC INODE_FAIL
    else
      _ ← need (write_map_block dev next (BlockMap (b_next zero_map) (<[0%nat := r.2]> (b_blocks zero_map))))
            EACCES INODE_FAIL;
      mret r.2.

(** The block of the new inode, entered in the directory [up]. *)
Definition add_entry (dev up : Z) : er T inode_rtvl Z :=
  i ← need_val (read_inode dev up zero_inode) EACCES INODE_FAIL;
  if i_next i =? INODE_NULL then new_slot dev i zero_map INODE_NULL
  else
    r ← free_slot fuel dev (i_next i);
    let '(block, bmap, current) := r in
    if block =? INODE_NULL then new_slot dev i bmap current else mret block.

(** The parent is read and its copy gets the time; it is not written. *)
Definition inode_set_parent_mod_time (dev up : Z) : st T inode_rtvl :=
  '(ok, _) ← read_inode dev up zero_inode; mret (if ok : bool then INODE_OK else INODE_FAIL).

(** What all kinds of inodes begin with. *)
Definition new_inode (mark : inode -> inode) (dev block up : Z) (path : list Z) (perm umask group owner : Z)
    : er T inode_rtvl inode :=
  p ← stmt (lift (copy_path path (i_path zero_inode)));
  let i := inode_set_timestamps (c_now who) (inode_set_permissions (put_path p (mark zero_inode)) perm umask) in
  r ← stmt (inode_set_parent_mod_time dev up);
  if negb (bool_decide (r = INODE_OK)) then leave_with EINVAL INODE_FAIL
  else mret (put_owner group owner (put_place block up i)).

(** The block of the link text, which [next] of the inode refers to. *)
Definition write_link (dev : Z) (link_path : list Z) (i : inode) : er T inode_rtvl inode :=
  r ← stmt (get_data_block dev (i_next i));
  if negb (bool_decide (r.1 = INODE_OK)) then leave_with ENOSPC INODE_FAIL
  else
    p ← stmt (lift (copy_path link_path (l_path zero_link)));
    _ ← need (write_as link_t_codec dev r.2 (Link p (l_pad zero_link))) EACCES INODE_FAIL;
    mret (put_next r.2 i).

(** The file a hard link is to refer to gets one more reference. *)
Definition count_link (dev up : Z) (link_path : list Z) : er T inode_rtvl unit :=
  r ← stmt (inode_get depth fuel dev up link_path false INODE_DONTCHECKPERMS);
  match r with
  | (INODE_OK, Some tnode) =>
      if is_dir tnode || is_link tnode || is_hard tnode then leave_with EACCES INODE_FAIL
      else need (write_inode dev (self tnode) (put_refcount (u32 (refcount tnode + 1)) tnode)) EACCES INODE_FAIL
  | _ => leave INODE_FAIL
  end.

Definition make_node (dev block up : Z) (path : list Z) (mode : inode_mode) (perm umask group owner : Z)
    (link_path : list Z) : er T inode_rtvl unit :=
  match mode with
  | INODE_CREATE_FILE =>
      i ← new_inode mark_file dev block up path perm umask group owner;
      need (write_inode dev block i) EACCES INODE_FAIL
  | INODE_CREATE_DIR =>
      i ← new_inode mark_directory dev block up path perm umask group owner;
      need (write_inode dev block i) EACCES INODE_FAIL
  | INODE_CREATE_SYMLINK =>
      i ← new_inode mark_symlink dev block up path perm umask group owner;
      i ← write_link dev link_path i;
      need (write_inode dev block i) EACCES INODE_FAIL
  | INODE_CREATE_HARDLINK =>
      i ← new_inode mark_hardlink dev block up path perm umask group owner;
      _ ← count_link dev up link_path;
      i ← write_link dev link_path i;
      need (write_inode dev block i) EACCES INODE_FAIL
  | _ => leave_with EINVAL INODE_FAIL
  end.

Definition not_a_directory {A} (i : inode) : er T inode_rtvl A :=
  if is_reg i then leave_with ENOENT INODE_FAIL else leave_with EINVAL INODE_FAIL.

Fixpoint create_walk (dev : Z) (names : list (list Z)) (up : Z) (mode : inode_mode) (perm umask group owner : Z)
    (link_path : list Z) : er T inode_rtvl inode_rtvl :=
  match names with
  | [] => mret INODE_OK
  | path :: names =>
      i ← need_val (read_inode dev up zero_inode) EACCES INODE_FAIL;
      if negb (is_dir i || is_link i) then not_a_directory i
      else
        j ← follow (inode_get depth fuel) INODE_FAIL dev i;
        let up := if is_link i then self j else up in
        match names with
        | _ :: _ =>
            if negb (inode_check_permissions j perm umask (c_group who) (c_owner who) INODE_RX) then
              leave_with EACCES INODE_FAIL
            else if i_next j =? INODE_NULL then leave_with ENOENT INODE_FILE_NOT_FOUND
            else
              r ← scan_chain fuel INODE_FAIL dev path (i_next j) zero_inode;
              if r.1 =? INODE_NULL then leave_with ENOENT INODE_FILE_NOT_FOUND
              else create_walk dev names r.1 mode perm umask group owner link_path
        | [] =>
            if negb (inode_check_permissions j perm umask (c_group who) (c_owner who) INODE_RWX) then
              leave_with EACCES INODE_FAIL
            else
              r ← (if i_next j =? INODE_NULL then mret (INODE_NULL, zero_inode)
                   else scan_chain fuel INODE_FAIL dev path (i_next j) zero_inode);
              if negb (r.1 =? INODE_NULL) then leave_with EEXIST INODE_FAIL
              else
                block ← add_entry dev up;
                _ ← make_node dev block up path mode perm umask group owner link_path;
                mret INODE_OK
        end
  end.

(** The root is made as in [inode_get]; the path and the target of a link are
    made absolute first. *)
Definition inode_create (dev current_dir : Z) (path : option (list Z)) (mode : inode_mode)
    (perm umask group owner : Z) (lpath : option (list Z)) : st T inode_rtvl := returned (
  root ← stmt (root_block dev);
  match root, path with
  | None, _ => leave_with EINVAL INODE_FAIL
  | _, None => leave_with EINVAL INODE_FAIL
  | Some _, Some path =>
      if bool_decide (lpath = None) && bool_decide (mode = INODE_CREATE_SYMLINK \/ mode = INODE_CREATE_HARDLINK) then
        leave_with EINVAL INODE_FAIL
      else if (MAX_PATH <? length path)%nat then leave_with ENAMETOOLONG INODE_FAIL
      else if (MAX_PATH <? length (default [] lpath))%nat then leave_with ENAMETOOLONG INODE_FAIL
      else
        _ ← stmt (lift (copy_path path (replicate MAX_PATH 0)));
        p ← stmt (krealpath dev current_dir path);
        match p with
        | None => leave INODE_FAIL
        | Some res =>
            q ← (match lpath with
                 | None => mret (Some [])
                 | Some l => stmt (krealpath dev current_dir l)
                 end);
            match q with
            | None => leave INODE_FAIL
            | Some link_path =>
                b ← stmt (lift (to_buffer res));
                names ← stmt (lift (components b));
                i ← get_root INODE_FAIL dev;
                create_walk dev (tail names) (self i) mode perm umask group owner link_path
            end
        end
  end).

(** ** Freeing *)

(** The data blocks of a file and its block maps. *)
Fixpoint free_blocks (dev : Z) (l : list Z) : er T inode_rtvl unit :=
  match l with
  | [] => mret tt
  | b :: l =>
      if b =? INODE_NULL then free_blocks dev l
      else
        r ← stmt (free_data_block dev b);
        if bool_decide (r = INODE_OK) then free_blocks dev l else leave_with EACCES INODE_FAIL
  end.

Fixpoint free_chain (n : nat) (dev j : Z) : er T inode_rtvl unit :=
  if j =? INODE_NULL then mret tt
  else
    match n with
    | O => stmt (fun _ => NoFuel)
    | Datatypes.S n =>
        data ← need_val (read_map_block dev j zero_map) EACCES INODE_FAIL;
        _ ← free_blocks dev (b_blocks data);
        r ← stmt (free_data_block dev j);
        if bool_decide (r = INODE_OK) then free_chain n dev (b_next data) else leave_with EACCES INODE_FAIL
    end.

(** The copy for [rename]: all of the inode but its place and its name. *)
Definition take_over (i node : inode) : outcome inode :=
  name ← cstr (i_path node);
  p ← ncopy_path name (i_path i);
  Ret (put_place (self node) (parent node) (put_path p i)).

(** A hard link that goes away lowers the count of its file. *)
Definition uncount_link (dev current_dir : Z) (i : inode) : er T inode_rtvl unit :=
  if i_next i =? INODE_NULL then leave_with EACCES INODE_FAIL
  else
    link ← need_val (read_as link_t_codec dev (i_next i) zero_link) EACCES INODE_FAIL;
    text ← stmt (lift (cstr (l_path link)));
    r ← stmt (inode_get depth fuel dev current_dir text false INODE_RW);
    match r with
    | (INODE_OK, Some tnode) =>
        need (write_inode dev (self tnode) (put_refcount (u32 (refcount tnode - 1)) tnode)) EACCES INODE_FAIL
    | _ => leave_with EACCES INODE_FAIL
    end.

(** What the inode refers to is freed, or taken over by [newnode]. *)
Definition release (dev current_dir : Z) (i : inode) (newnode : option inode) : er T inode_rtvl (option inode) :=
  if is_reg i || is_dir i || is_link i || is_hard i then
    match newnode with
    | Some node => node ← stmt (lift (take_over i node)); mret (Some node)
    | None =>
        _ ← (if is_reg i then free_chain fuel dev (i_next i)
             else if is_dir i then mret tt
             else if is_link i then
               (if i_next i =? INODE_NULL then mret tt
                else
                  r ← stmt (free_data_block dev (i_next i));
                  if bool_decide (r = INODE_OK) then mret tt else leave_with EACCES INODE_FAIL)
             else uncount_link dev current_dir i);
        mret None
    end
  else mret newnode.

(** An empty block map leaves the chain of the directory; when it is the first of
    several, [parent.next] is compared with its successor, not assigned. *)
Fixpoint fixup (n : nat) (dev : Z) (up : inode) (prev current : Z) : er T inode_rtvl unit :=
  if current =? INODE_NULL then mret tt
  else
    match n with
    | O => stmt (fun _ => NoFuel)
    | Datatypes.S n =>
        bmap ← need_val (read_map_block dev current zero_map) EACCES INODE_FAIL;
        if forallb (fun b => b =? INODE_NULL) (b_blocks bmap) then
          up ← (if prev =? current then
                  mret (if b_next bmap =? INODE_NULL then put_next INODE_NULL up else up)
                else
                  pnode ← need_val (read_map_block dev prev zero_map) EACCES INODE_FAIL;
                  _ ← need (write_map_block dev prev (BlockMap (b_next bmap) (b_blocks pnode))) EACCES INODE_FAIL;
                  mret up);
          r ← stmt (free_data_block dev current);
          if bool_decide (r = INODE_OK) then need (write_inode dev (self up) up) EACCES INODE_FAIL
          else leave_with EACCES INODE_FAIL
        else fixup n dev up current (b_next bmap)
    end.

Fixpoint index_of (b : Z) (l : list Z) : option nat :=
  match l with [] => None | c :: l => if b =? c then Some O else Datatypes.S <$> index_of b l end.

(** The status a part returns early, with the node as it is then. *)
Definition with_node {A} (node : option inode) (m : er T inode_rtvl A) : er T (inode_rtvl * option inode) A :=
  r ← (m : st T (inode_rtvl + A)); mret (M := st T) (match r with inl e => inl (e, node) | inr a => inr a end).

(** The loop over the block maps of the parent. *)
Fixpoint unlink (n : nat) (dev current_dir : Z) (i up : inode) (newnode : option inode) (next : Z)
    : er T (inode_rtvl * option inode) (inode_rtvl * option inode) :=
  match n with
  | O => stmt (fun _ => NoFuel)
  | Datatypes.S n =>
      bmap ← need_val (read_map_block dev next zero_map) EACCES (INODE_FAIL, newnode);
      match index_of (self i) (b_blocks bmap) with
      | Some j =>
          r ← stmt (free_inode_block dev (self i));
          if negb (bool_decide (r = INODE_OK)) then leave (INODE_FAIL, newnode)
          else
            ok ← stmt (write_map_block dev next (BlockMap (b_next bmap) (<[j := INODE_NULL]> (b_blocks bmap))));
            if negb ok then leave (INODE_FAIL, newnode)
            else
              node ← with_node newnode (release dev current_dir i newnode);
              _ ← with_node node (fixup fuel dev up (i_next up) (i_next up));
              mret (INODE_OK, node)
      | None =>
          if b_next bmap =? INODE_NULL then mret (INODE_INCONSISTENT, newnode)
          else unlink n dev current_dir i up newnode (b_next bmap)
      end
  end.

(** [newnode] is the node of [rename] that takes the contents over. *)
Definition inode_free (dev current_dir : Z) (path : list Z) (newnode : option inode)
    : st T (inode_rtvl * option inode) := returned (
  if (MAX_PATH <? length path)%nat then leave_with ENAMETOOLONG (INODE_FAIL, newnode)
  else
    _ ← stmt (lift (copy_path path (replicate MAX_PATH 0)));
    r ← stmt (inode_get depth fuel dev current_dir path false INODE_DONTCHECKPERMS);
    match r with
    | (INODE_OK, Some i) =>
        if bool_decide (newnode = None) && is_dir i && negb (i_next i =? INODE_NULL) then
          leave_with EACCES (INODE_FAIL, newnode)
        else if bool_decide (newnode = None) && is_reg i && (0 <? refcount i) then
          leave_with EEXIST (INODE_PARAM, newnode)
        else
          up ← need_val (read_inode dev (parent i) zero_inode) EACCES (INODE_FAIL, newnode);
          r ← stmt (inode_set_parent_mod_time dev (self up));
          if negb (bool_decide (r = INODE_OK)) then leave_with EINVAL (INODE_FAIL, newnode)
          else unlink fuel dev current_dir i up newnode (i_next up)
    | (r, _) => leave (r, newnode)
    end).
End Create.

(** ** Block numbers *)

(** The local inode is not initialised: without a result its field is undefined. *)
Definition inode_get_block_number (depth fuel : nat) (dev current_dir : Z) (path : list Z) : st T Z :=
  r ← inode_get depth fuel dev current_dir path true INODE_DONTCHECKPERMS;
  match r.2 with Some i => mret (self i) | None => fault end.

Definition inode_get_parent_block_number (depth fuel : nat) (dev current_dir : Z) (path : list Z) : st T Z :=
  r ← inode_get depth fuel dev current_dir path true INODE_DONTCHECKPERMS;
  match r.2 with Some i => mret (parent i) | None => fault end.
End Code.
