(* ===== verification/TreeSpec.v ===== *)
(** * Looking up paths in the inode tree

    What [inode_get] finds, in terms of the blocks the store shows: a directory
    lists the inodes its chain of block maps refers to, and a path leads from
    directory to directory. *)

From S2P Require Import Prelude Errno Layout Perms Alloc Store StoreSpec Paths PathsSpec Tree.

(** ** The tree a view of the blocks shows *)

Section View.
Context (v : Z -> list Z) (valid : kind -> Z -> Prop) (who : caller).

Definition node (b : Z) : inode := dec inode_codec (v b).
Definition map_at (b : Z) : block_map_t := dec block_map_t_codec (v b).
Definition label (b : Z) : outcome (list Z) := cstr (i_path (node b)).
Definition entries (bmap : block_map_t) : list Z := filter (fun b => b <> INODE_NULL) (b_blocks bmap).

(** The first entry of that name. *)
Fixpoint find_name (name : list Z) (l : list Z) : outcome (option Z) :=
  match l with
  | [] => Ret None
  | b :: l => n ← label b; if bool_decide (n = name) then Ret (Some b) else find_name name l
  end.

(** The entries of a directory: those of the chain of the block maps [bs] from [b]
    on. *)
Inductive listing : list Z -> Z -> list Z -> Prop :=
| listing_last b : valid Data b -> Forall (valid Inodes) (entries (map_at b)) ->
    b_next (map_at b) = INODE_NULL -> listing [b] b (entries (map_at b))
| listing_more bs b l : valid Data b -> Forall (valid Inodes) (entries (map_at b)) ->
    b_next (map_at b) <> INODE_NULL -> listing bs (b_next (map_at b)) l ->
    listing (b :: bs) b (entries (map_at b) ++ l).

(** A directory the caller may search, with its entries; [c] reads are made. *)
Definition directory (fuel c : nat) (d : Z) (l : list Z) : Prop :=
  valid Inodes d /\ is_dir (node d) = true /\ is_link (node d) = false /\
  inode_check_permissions (node d) 0 0 (c_group who) (c_owner who) INODE_RX = true /\
  i_next (node d) <> INODE_NULL /\
  exists bs, (length bs <= fuel)%nat /\ listing bs (i_next (node d)) l /\ c = (1 + length bs + length l)%nat.

(** The names lead from [d] to [b]. *)
Inductive leads (fuel : nat) : nat -> Z -> list (list Z) -> Z -> Prop :=
| leads_last c d l n b : directory fuel c d l -> find_name n l = Ret (Some b) -> leads fuel c d [n] b
| leads_more c c' d l n e ns b : directory fuel c d l -> find_name n l = Ret (Some e) ->
    leads fuel c' e ns b -> leads fuel (c + c') d (n :: ns) b.

(** The names from the root [r] down to a directory, by the [parent] fields. *)
Inductive place (r : Z) : Z -> list (list Z) -> Prop :=
| place_root : place r r []
| place_below d ns n : d <> r -> valid Inodes d -> label d = Ret n ->
    place r (parent (node d)) ns -> place r d (ns ++ [n]).

(** A name on the way is missing. *)
Inductive misses (fuel : nat) : nat -> Z -> list (list Z) -> Prop :=
| misses_empty d n ns : valid Inodes d -> is_dir (node d) = true -> is_link (node d) = false ->
    inode_check_permissions (node d) 0 0 (c_group who) (c_owner who) INODE_RX = true ->
    i_next (node d) = INODE_NULL -> misses fuel 1 d (n :: ns)
| misses_here c d l n ns : directory fuel c d l -> find_name n l = Ret None -> misses fuel c d (n :: ns)
| misses_below c c' d l n e ns : directory fuel c d l -> find_name n l = Ret (Some e) ->
    misses fuel c' e ns -> misses fuel (c + c') d (n :: ns).
End View.

Lemma find_name_in v name l b : find_name v name l = Ret (Some b) -> (b ∈ l) /\ label v b = Ret name.
Proof.
  induction l as [|c l IH]; cbn [find_name]; [done|].
  destruct (label v c) as [n| | |] eqn:E; cbn [mbind outcome_bind]; try done.
  case_bool_decide as Hn; [intros [= ->]; subst; split; [left|done]|].
  intros H. destruct (IH H). split; [by right|done].
Qed.

Lemma find_name_app v name l1 l2 :
  find_name v name (l1 ++ l2) = o ← find_name v name l1; match o with Some b => Ret (Some b) | None => find_name v name l2 end.
Proof.
  induction l1 as [|c l IH]; cbn [find_name app]; [done|].
  destruct (label v c); cbn [mbind outcome_bind]; try done. case_bool_decide; [done|]. by rewrite IH.
Qed.

(** ** Runs *)

(** Running the steps of the monads. *)
Lemma er_step {S E A B} (m : er S E A) (k : A -> er S E B) t t' a :
  m t = Ret (inr a, t') -> (a ← m; k a) t = k a t'.
Proof. intros Hm. unfold mbind, er_bind, st_bind, mbind. by rewrite Hm. Qed.

Lemma er_exit {S E A B} (m : er S E A) (k : A -> er S E B) t t' e :
  m t = Ret (inl e, t') -> (a ← m; k a) t = Ret (inl e, t').
Proof. intros Hm. unfold mbind, er_bind, st_bind, mbind. by rewrite Hm. Qed.

Lemma stmt_run {S E A} (m : st S A) t t' a : m t = Ret (a, t') -> stmt (E := E) m t = Ret (inr a, t').
Proof. intros Hm. unfold stmt, mbind, st_bind. by rewrite Hm. Qed.

Lemma st_step {S A B} (m : st S A) (k : A -> st S B) t t' a : m t = Ret (a, t') -> (a ← m; k a) t = k a t'.
Proof. intros Hm. unfold mbind, st_bind. by rewrite Hm. Qed.

Section Runs.
Context {S : Type} `{HF : FsOps S} {dev root : Z} {HL : StoreLaws S dev root}.

Abbreviation blocks t := (view dev root (base t)).
Abbreviation valid := (area S dev root).

(** Nothing a lookup depends on differs. *)
Definition kept (t t' : tree S) : Prop :=
  (forall κ b, valid κ b -> blocks t' b = blocks t b) /\
  (forall b, used dev root (base t') b <-> used dev root (base t) b) /\
  nr_recursion t' = nr_recursion t.

Lemma kept_refl t : kept t t.
Proof. done. Qed.

Lemma kept_trans t t' t'' : kept t t' -> kept t' t'' -> kept t t''.
Proof.
  intros (Hv & Hu & Hn) (Hv' & Hu' & Hn'). split; [|split; [|congruence]].
  - intros κ b Hb. by rewrite (Hv' κ b), (Hv κ b).
  - intros b. by rewrite Hu', Hu.
Qed.

Lemma kept_node t t' κ b : kept t t' -> valid κ b -> node (blocks t') b = node (blocks t) b.
Proof. intros (Hv & _ & _) Hb. unfold node. by rewrite (Hv κ b). Qed.

Lemma kept_find t t' name l : kept t t' -> Forall (valid Inodes) l ->
  find_name (blocks t') name l = find_name (blocks t) name l.
Proof.
  intros Ht. induction 1 as [|b l Hb Hl IH]; cbn [find_name]; [done|]. unfold label.
  rewrite (kept_node t t' Inodes b) by done. destruct (cstr _); cbn [mbind outcome_bind]; try done.
  by rewrite IH.
Qed.

Lemma kept_map t t' κ b : kept t t' -> valid κ b -> map_at (blocks t') b = map_at (blocks t) b.
Proof. intros (Hv & _ & _) Hb. unfold map_at. by rewrite (Hv κ b). Qed.

Lemma kept_listing t t' bs b l : kept t t' -> listing (blocks t) valid bs b l -> listing (blocks t') valid bs b l.
Proof.
  intros Ht. induction 1 as [b Hb Hl Hn|bs b l Hb Hl Hn _ IH]; pose proof (kept_map t t' _ b Ht Hb) as E.
  - rewrite <- E in *. by constructor.
  - rewrite <- E in *. by constructor.
Qed.

Lemma listing_valid t bs b l : listing (blocks t) valid bs b l -> Forall (valid Inodes) l.
Proof. induction 1; [done|]. by apply Forall_app. Qed.

Lemma kept_directory t t' who fuel c d l : kept t t' ->
  directory (blocks t) valid who fuel c d l -> directory (blocks t') valid who fuel c d l.
Proof.
  intros Ht (Hd & H1 & H2 & H3 & H4 & n & Hn & Hl & Hc). pose proof (kept_node t t' _ d Ht Hd) as E.
  unfold directory. rewrite E. repeat (split; [done|]). exists n. split; [done|]. split; [|done].
  by apply (kept_listing t).
Qed.

Lemma directory_valid t who fuel c d l : directory (blocks t) valid who fuel c d l -> Forall (valid Inodes) l.
Proof. intros (_ & _ & _ & _ & _ & n & _ & Hl & _). by eapply listing_valid. Qed.

Lemma kept_leads t t' who fuel c d ns b : kept t t' ->
  leads (blocks t) valid who fuel c d ns b -> leads (blocks t') valid who fuel c d ns b.
Proof.
  intros Ht. induction 1 as [c d l n b Hd Hf|c c' d l n e ns b Hd Hf _ IH].
  - eapply leads_last; [by eapply kept_directory|]. rewrite (kept_find t) by (done || by eapply directory_valid). done.
  - eapply leads_more; [by eapply kept_directory| |done].
    rewrite (kept_find t) by (done || by eapply directory_valid). done.
Qed.

Lemma leads_target t who fuel c d ns b : leads (blocks t) valid who fuel c d ns b -> valid Inodes b.
Proof.
  induction 1 as [c d l n b Hd Hf|]; [|done]. apply find_name_in in Hf as [Hb _].
  pose proof (directory_valid _ _ _ _ _ _ Hd) as Hl. rewrite Forall_forall in Hl. by apply Hl.
Qed.

(** Runs that start where nothing differs from a state [o], in terms of the blocks
    of [o]. *)
Lemma run_read_as {A} (c : codec A) o t k w κ b a : kept o t ->
  good dev root (1 + k) (1 + w) (base t) -> valid κ b ->
  exists t', read_as c dev b a t = Ret ((true, dec c (blocks o b)), t') /\
    good dev root k (1 + w) (base t') /\ kept o t'.
Proof.
  intros Ho Hg Hb. destruct (read_block_ok k w (base t) κ b (enc c a) Hg Hb) as (s' & E & Hg' & Hv & Hu).
  exists (Tree s' (nr_recursion t)). split; [|split; [done|]].
  - unfold read_as. unfold_st. cbn [read_block tree_ops]. unfold below. rewrite E.
    by rewrite (proj1 Ho κ b Hb).
  - by apply (kept_trans o t).
Qed.

Lemma run_put_errno o t k w e : kept o t -> good dev root k w (base t) ->
  exists t', put_errno e t = Ret (tt, t') /\ good dev root k w (base t') /\ kept o t' /\ the_errno t' = e.
Proof.
  intros Ho Hg. destruct (put_errno_ok k w (base t) e Hg) as (s' & E & Hg' & He & Hv & Hu).
  exists (Tree s' (nr_recursion t)). split; [|split; [done|split; [by apply (kept_trans o t)|done]]].
  cbn [put_errno tree_ops]. unfold below. by rewrite E.
Qed.

Lemma run_leave_with {E A} o t k w n (e : E) : kept o t -> good dev root k w (base t) ->
  exists t', leave_with (A := A) n e t = Ret (inl e, t') /\ good dev root k w (base t') /\ kept o t' /\ the_errno t' = n.
Proof.
  intros Ho Hg. destruct (run_put_errno o t k w n Ho Hg) as (t' & Et & ?). exists t'. split; [|done].
  unfold leave_with. erewrite st_step by exact Et. done.
Qed.

Lemma run_need_val {E A} (m : st (tree S) (bool * A)) n (e : E) t t' a :
  m t = Ret ((true, a), t') -> need_val m n e t = Ret (inr a, t').
Proof. intros Hm. unfold need_val. erewrite er_step by (apply stmt_run; exact Hm). done. Qed.

Lemma run_root_block t k w : good dev root k w (base t) -> root_block dev t = Ret (Some root, t).
Proof. intros Hg. cbn [root_block tree_ops]. unfold below. rewrite (root_block_ok k w) by done. by destruct t. Qed.

Lemma run_inode {E} o t k w b i n (e : E) : kept o t ->
  good dev root (1 + k) (1 + w) (base t) -> valid Inodes b ->
  exists t', need_val (read_inode dev b i) n e t = Ret (inr (node (blocks o) b), t') /\
    good dev root k (1 + w) (base t') /\ kept o t'.
Proof.
  intros Ho Hg Hb. destruct (run_read_as inode_codec o t k w _ b i Ho Hg Hb) as (t' & Et & ?).
  exists t'. split; [|done]. by apply run_need_val.
Qed.

Lemma run_map {E} o t k w b i n (e : E) : kept o t ->
  good dev root (1 + k) (1 + w) (base t) -> valid Data b ->
  exists t', need_val (read_map_block dev b i) n e t = Ret (inr (map_at (blocks o) b), t') /\
    good dev root k (1 + w) (base t') /\ kept o t'.
Proof.
  intros Ho Hg Hb. destruct (run_read_as block_map_t_codec o t k w _ b i Ho Hg Hb) as (t' & Et & ?).
  exists t'. split; [|done]. by apply run_need_val.
Qed.

(** ** A lookup in a directory *)

(** The block found, or 0, and the inode in it. *)
Definition hit (o : tree S) (r : option Z) (p : Z * inode) : Prop :=
  match r with Some b => p = (b, node (blocks o) b) | None => p.1 = INODE_NULL end.

Lemma run_scan_entries {E} (e : E) o path l r : forall t k w tn, kept o t ->
  good dev root (length (filter (fun b => b <> INODE_NULL) l) + k) (1 + w) (base t) ->
  Forall (valid Inodes) (filter (fun b => b <> INODE_NULL) l) ->
  find_name (blocks o) path (filter (fun b => b <> INODE_NULL) l) = Ret r ->
  exists p t', scan_entries e dev path l tn t = Ret (inr p, t') /\
    good dev root k (1 + w) (base t') /\ kept o t' /\ hit o r p.
Proof.
  induction l as [|b l IH]; intros t k w tn Ho Hg Hv Hf; cbn [scan_entries].
  { cbn in Hf. injection Hf as <-. by exists (INODE_NULL, tn), t. }
  destruct (decide (b = INODE_NULL)) as [->|Hb].
  { rewrite filter_cons_False in Hg, Hv, Hf by (intros H; by apply H). rewrite Z.eqb_refl. by apply IH. }
  rewrite filter_cons_True in Hg, Hv, Hf by done. apply Forall_cons in Hv as [Hvb Hv]. cbn [length] in Hg.
  rewrite (proj2 (Z.eqb_neq _ _) Hb).
  destruct (run_inode o t (length (filter (fun b => b <> INODE_NULL) l) + k) w b tn EACCES e Ho Hg Hvb)
    as (t1 & E1 & Hg1 & Ho1).
  erewrite er_step by exact E1. cbn [find_name] in Hf. unfold label in Hf.
  destruct (cstr (i_path (node (blocks o) b))) as [n| | |]; try done.
  cbn [mbind outcome_bind] in Hf. erewrite er_step by reflexivity.
  destruct (bool_decide (n = path)).
  - injection Hf as <-. exists (b, node (blocks o) b), t1. split; [done|]. split; [|split; [done|]].
    + eapply good_weaken; [| |exact Hg1]; lia.
    + done.
  - by apply IH.
Qed.

Lemma find_name_nonzero v name bmap b : find_name v name (entries bmap) = Ret (Some b) -> b <> INODE_NULL.
Proof.
  intros Hf. apply find_name_in in Hf as [Hb _]. unfold entries in Hb. by apply list_elem_of_filter in Hb as [? _].
Qed.

Lemma run_scan_chain {E} (e : E) o path bs b l r : listing (blocks o) valid bs b l ->
  find_name (blocks o) path l = Ret r ->
  forall fuel t k w tn, kept o t -> (length bs <= fuel)%nat ->
  good dev root (length bs + length l + k) (1 + w) (base t) ->
  exists p t', scan_chain fuel e dev path b tn t = Ret (inr p, t') /\
    good dev root k (1 + w) (base t') /\ kept o t' /\ hit o r p.
Proof.
  induction 1 as [b Hb He Hz|bs b l Hb He Hz Hl IH]; intros Hf fuel t k w tn Ho Hfuel Hg;
    cbn [length] in Hfuel, Hg; (destruct fuel as [|fuel]; [lia|]); cbn [scan_chain].
  - destruct (run_map o t (length (entries (map_at (blocks o) b)) + k) w b zero_map EACCES e Ho) as (t1 & E1 & Hg1 & Ho1);
      [eapply good_weaken; [| |exact Hg]; lia|done|].
    erewrite er_step by exact E1.
    destruct (run_scan_entries e o path _ r t1 k w tn Ho1 Hg1 He Hf) as (p & t' & E' & Hr).
    erewrite er_step by exact E'. rewrite Hz. by exists p, t'.
  - rewrite length_app in Hg. rewrite find_name_app in Hf.
    destruct (run_map o t (length (entries (map_at (blocks o) b)) + (length bs + length l + k)) w b zero_map EACCES e Ho)
      as (t1 & E1 & Hg1 & Ho1); [eapply good_weaken; [| |exact Hg]; lia|done|].
    erewrite er_step by exact E1.
    destruct (find_name (blocks o) path (entries (map_at (blocks o) b))) as [r1| | |] eqn:Hf1; try done.
    cbn [mbind outcome_bind] in Hf.
    destruct (run_scan_entries e o path _ r1 t1 (length bs + length l + k) w tn Ho1 Hg1 He Hf1)
      as (p & t' & E' & Hg' & Ho' & Hp).
    erewrite er_step by exact E'. rewrite (proj2 (Z.eqb_neq _ _) Hz). cbn [negb andb].
    destruct r1 as [c|]; cbn [hit] in Hp.
    + injection Hf as <-. pose proof (find_name_nonzero _ _ _ _ Hf1) as Hc.
      rewrite Hp. cbn [fst]. rewrite (proj2 (Z.eqb_neq _ _) Hc).
      eexists _, t'. split; [done|]. split; [eapply good_weaken; [| |exact Hg']; lia|done].
    + rewrite Hp, Z.eqb_refl. apply IH; [done|done|lia|done].
Qed.

(** ** Relative paths *)

Lemma slashed_app a b : slashed (a ++ b) = slashed a ++ slashed b.
Proof. apply flat_map_app. Qed.

(** The slashes in front of the names. *)
Definition prefixed (ns : list (list Z)) : list Z := flat_map (cons slash) ns.

Lemma prefixed_slashed ns : prefixed ns ++ [slash] = slash :: slashed ns.
Proof.
  induction ns as [|n ns IH]; [done|]. cbn [prefixed slashed flat_map app]. f_equal.
  rewrite <- !app_assoc. f_equal. exact IH.
Qed.

Lemma push_front_ok dst s : (length dst + length s < MAX_PATH)%nat -> push_front dst s = Ret (Some (s ++ dst)).
Proof.
  intros Hl. unfold push_front. rewrite (proj2 (Nat.ltb_ge _ _)), (proj2 (Nat.eqb_neq _ _)) by lia. done.
Qed.

Lemma run_prefix_loop o d ns : place (blocks o) valid root d ns -> forall fuel t k w tmp,
  kept o t -> good dev root (length ns + k) (1 + w) (base t) -> (length ns < fuel)%nat ->
  (length (prefixed ns ++ tmp) < MAX_PATH)%nat ->
  exists t', prefix_loop fuel dev root d tmp t = Ret (Some (prefixed ns ++ tmp), t') /\
    good dev root k (1 + w) (base t') /\ kept o t'.
Proof.
  induction 1 as [|d ns n Hd Hv Hn _ IH]; intros fuel t k w tmp Ho Hg Hfuel Hlen;
    (destruct fuel as [|fuel]; [lia|]); cbn [prefix_loop].
  - rewrite Z.eqb_refl. by exists t.
  - rewrite (proj2 (Z.eqb_neq _ _) Hd). rewrite length_app in Hg, Hfuel. cbn [length] in Hg, Hfuel.
    destruct (run_read_as inode_codec o t (length ns + k) w Inodes d zero_inode Ho) as (t1 & E1 & Hg1 & Ho1);
      [eapply good_weaken; [| |exact Hg]; lia|done|].
    erewrite st_step by exact E1. cbn [negb]. unfold label in Hn. unfold node in Hn. rewrite Hn.
    erewrite st_step by reflexivity.
    assert (prefixed (ns ++ [n]) ++ tmp = prefixed ns ++ slash :: n ++ tmp) as Heq.
    { unfold prefixed. rewrite flat_map_app, <- app_assoc. cbn [flat_map app]. by rewrite app_nil_r. }
    rewrite Heq in *. pose proof Hlen as Hlen'. rewrite length_app in Hlen'. cbn [length] in Hlen'.
    rewrite length_app in Hlen'.
    erewrite st_step by (rewrite push_front_ok by lia; reflexivity). cbv beta iota.
    erewrite st_step by (rewrite push_front_ok by (rewrite length_app; cbn [length]; lia); reflexivity).
    apply (IH fuel t1 k w (slash :: n ++ tmp)); [done|done|lia|done].
Qed.

(** A path that does not begin with a slash is taken from the directory the caller
    is in: [krealpath] puts the names up to the root in front of it, one read for each,
    and resolves the dots of the whole. *)
Theorem krealpath_relative o d ns cs last k w : place (blocks o) valid root d ns ->
  Forall name (ns ++ cs) -> last = [] \/ name last -> good dev root (length ns + k) (1 + w) (base o) ->
  (length (slash :: slashed (ns ++ cs) ++ last) + 3 <= MAX_PATH)%nat ->
  inside (ns ++ cs ++ final last) 0 = true ->
  exists t', krealpath dev d (slashed cs ++ last) o = Ret (Some (rooted (climb (ns ++ cs ++ final last) [])), t') /\
    good dev root k (1 + w) (base t') /\ kept o t' /\ the_errno t' = EOK.
Proof.
  intros Hp Hns Hlast Hg Hlen Hin.
  pose proof (slashed_length ns) as Hsl. pose proof (f_equal length (prefixed_slashed ns)) as Hpl.
  rewrite length_app in Hpl. cbn [length] in Hpl, Hlen. rewrite slashed_app, !length_app in Hlen.
  destruct (run_prefix_loop o d ns Hp (2 + MAX_PATH) o k w [] (kept_refl o) Hg) as (t1 & E1 & Hg1 & Ho1);
    [lia|rewrite app_nil_r; lia|]. rewrite app_nil_r in E1.
  destruct (run_put_errno o t1 _ _ EOK Ho1 Hg1) as (t' & E' & Hg' & Ho' & He).
  exists t'. split; [|done].
  assert ((default 0 (head (slashed cs ++ last)) =? slash) = false) as Hhead.
  { apply Z.eqb_neq. apply Forall_app in Hns as [_ Hcs]. destruct cs as [|[|c n] cs]; cbn.
    - destruct last as [|c last]; [done|]. destruct Hlast as [?|[_ Hl]]; [done|]. cbn. inversion Hl as [|?? [Hc _]]; done.
    - apply Forall_cons in Hcs as [[? _] _]. done.
    - apply Forall_cons in Hcs as [[_ Hc] _]. inversion Hc as [|?? [Hc' _]]; done. }
  unfold krealpath, path_prefix. rewrite Hhead.
  assert (forall (f : option (list Z) -> st (tree S) (option (list Z))), (f (Some (prefixed ns ++ [slash]))) t1 =
    (r ← (root ← root_block dev; root ← checked root; r ← prefix_loop (2 + MAX_PATH) dev root d [];
      match r with None => mret None | Some tmp => if (MAX_PATH <? length tmp + 1)%nat then fail_with ENAMETOOLONG None
        else if (length tmp + 1 =? MAX_PATH)%nat then fault else mret (Some (tmp ++ [slash])) end); f r) o) as Hpre.
  { intros f. symmetry. apply st_step. erewrite st_step by (by eapply run_root_block).
    erewrite st_step by reflexivity. erewrite st_step by exact E1. cbv beta iota.
    rewrite (proj2 (Nat.ltb_ge _ _)), (proj2 (Nat.eqb_neq _ _)) by lia. done. }
  rewrite <- Hpre. rewrite prefixed_slashed. cbn [length]. rewrite !length_app.
  rewrite (proj2 (Nat.ltb_ge _ _)) by lia. rewrite <- app_comm_cons, app_assoc, <- slashed_app.
  erewrite st_step.
  2: { rewrite canonical_spec; [reflexivity|done|done| |by rewrite <- app_assoc].
       cbn [length]. rewrite slashed_app, !length_app. lia. }
  erewrite st_step by exact E'. by rewrite <- app_assoc.
Qed.

(** ** [inode_get] *)

Lemma stmt_lift {E A} (x : outcome A) (t : tree S) a : x = Ret a -> stmt (E := E) (lift x) t = Ret (inr a, t).
Proof. intros ->. done. Qed.

Context (who : caller).

(** The root exists: it has its name and knows its place. *)
Definition rooted_at (o : tree S) : Prop :=
  label (blocks o) root = Ret [slash] /\ self (node (blocks o) root) = root.

Lemma run_get_root {E} (e : E) o t k w : rooted_at o -> kept o t -> good dev root (1 + k) (1 + w) (base t) ->
  exists t', get_root who e dev t = Ret (inr (node (blocks o) root), t') /\
    good dev root k (1 + w) (base t') /\ kept o t'.
Proof.
  intros [Hl _] Ho Hg. unfold get_root.
  erewrite er_step by (apply stmt_run; by eapply run_root_block). erewrite er_step by reflexivity.
  destruct (run_inode o t k w root zero_inode EACCES e Ho Hg root_area) as (t1 & E1 & Hg1 & Ho1).
  erewrite er_step by exact E1. unfold label in Hl. erewrite er_step by (apply stmt_lift; exact Hl).
  exists t1. rewrite bool_decide_eq_true_2 by done. done.
Qed.

Section Walk.
Context (get_path : Z -> Z -> list Z -> bool -> inode_mode -> st (tree S) (inode_rtvl * option inode)).

(** One step into a directory. *)
Lemma run_enter o rl mode fuel c d l n ns t k w r : directory (blocks o) valid who fuel c d l ->
  find_name (blocks o) n l = Ret r -> kept o t -> good dev root (c + k) (1 + w) (base t) ->
  exists p t', kept o t' /\ good dev root k (1 + w) (base t') /\ hit o r p /\
    walk who get_path fuel dev rl mode (n :: ns) d t =
      (if p.1 =? INODE_NULL then leave_with ENOENT (INODE_FILE_NOT_FOUND, None)
       else match ns with
            | [] => arrive who get_path dev rl mode p.2
            | _ => walk who get_path fuel dev rl mode ns p.1
            end) t'.
Proof.
  intros (Hd & Hdir & Hlink & Hperm & Hnext & bs & Hm & Hl & ->) Hf Ho Hg.
  destruct (run_inode o t (length bs + length l + k) w d zero_inode EACCES (INODE_FAIL, None : option inode) Ho)
    as (t1 & E1 & Hg1 & Ho1); [eapply good_weaken; [| |exact Hg]; lia|done|].
  destruct (run_scan_chain (INODE_FAIL, None : option inode) o n bs _ l r Hl Hf fuel t1 k w zero_inode Ho1 Hm Hg1)
    as (p & t' & E' & Hg' & Ho' & Hp).
  exists p, t'. split; [done|]. split; [done|]. split; [done|]. cbn [walk].
  erewrite er_step by exact E1. rewrite Hdir. cbn [orb]. unfold follow. rewrite Hlink.
  erewrite er_step by reflexivity. rewrite Hperm, (proj2 (Z.eqb_neq _ _) Hnext). cbn [negb].
  by erewrite er_step by exact E'.
Qed.

Lemma find_nonzero o fuel c d l n b : directory (blocks o) valid who fuel c d l ->
  find_name (blocks o) n l = Ret (Some b) -> (b =? INODE_NULL) = false.
Proof.
  intros Hd Hf. apply find_name_in in Hf as [Hb _]. pose proof (directory_valid _ _ _ _ _ _ Hd) as Hv.
  rewrite Forall_forall in Hv. specialize (Hv b Hb). apply area_range in Hv. unfold INODE_NULL. lia.
Qed.

Lemma run_walk o rl mode fuel c d ns b t k w : leads (blocks o) valid who fuel c d ns b -> kept o t ->
  good dev root (c + k) (1 + w) (base t) ->
  exists t', kept o t' /\ good dev root k (1 + w) (base t') /\
    walk who get_path fuel dev rl mode ns d t = arrive who get_path dev rl mode (node (blocks o) b) t'.
Proof.
  intros Hl. revert t. induction Hl as [c d l n b Hd Hf|c c' d l n e ns b Hd Hf Hl IH]; intros t Ho Hg.
  - destruct (run_enter o rl mode fuel c d l n [] t k w _ Hd Hf Ho Hg) as (p & t' & Ho' & Hg' & Hp & ->).
    exists t'. rewrite Hp. cbn [fst snd]. by rewrite (find_nonzero _ _ _ _ _ _ _ Hd Hf).
  - destruct (run_enter o rl mode fuel c d l n ns t (c' + k) w _ Hd Hf Ho) as (p & t1 & Ho1 & Hg1 & Hp & ->).
    { eapply good_weaken; [| |exact Hg]; lia. }
    destruct (IH t1 Ho1 Hg1) as (t' & Ho' & Hg' & E'). exists t'. split; [done|]. split; [done|].
    rewrite Hp. cbn [fst snd]. rewrite (find_nonzero _ _ _ _ _ _ _ Hd Hf). by destruct Hl.
Qed.

Lemma run_walk_missing o rl mode fuel c d ns t k w : misses (blocks o) valid who fuel c d ns -> kept o t ->
  good dev root (c + k) (1 + w) (base t) ->
  exists t' i, kept o t' /\ good dev root k (1 + w) (base t') /\ the_errno t' = ENOENT /\
    walk who get_path fuel dev rl mode ns d t = Ret (inl (INODE_FILE_NOT_FOUND, i), t').
Proof.
  intros Hl. revert t. induction Hl as [d n ns Hd Hdir Hlink Hperm Hnext|c d l n ns Hd Hf|c c' d l n e ns Hd Hf Hl IH];
    intros t Ho Hg.
  - destruct (run_inode o t k w d zero_inode EACCES (INODE_FAIL, None : option inode) Ho Hg Hd)
      as (t1 & E1 & Hg1 & Ho1).
    destruct (run_leave_with (A := inode_rtvl * option inode) o t1 _ _ ENOENT (INODE_FILE_NOT_FOUND, Some zero_inode) Ho1 Hg1)
      as (t' & E' & Hg' & Ho' & He).
    exists t', (Some zero_inode). split; [done|]. split; [done|]. split; [done|]. cbn [walk].
    erewrite er_step by exact E1. rewrite Hdir. cbn [orb]. unfold follow. rewrite Hlink.
    erewrite er_step by reflexivity. by rewrite Hperm, Hnext.
  - destruct (run_enter o rl mode fuel c d l n ns t k w _ Hd Hf Ho Hg) as (p & t1 & Ho1 & Hg1 & Hp & ->).
    destruct (run_leave_with (A := inode_rtvl * option inode) o t1 _ _ ENOENT
      (INODE_FILE_NOT_FOUND, None : option inode) Ho1 Hg1)
      as (t' & E' & Hg' & Ho' & He).
    exists t', None. cbn [hit] in Hp. rewrite Hp. done.
  - destruct (run_enter o rl mode fuel c d l n ns t (c' + k) w _ Hd Hf Ho) as (p & t1 & Ho1 & Hg1 & Hp & ->).
    { eapply good_weaken; [| |exact Hg]; lia. }
    destruct (IH t1 Ho1 Hg1) as (t' & i & Ho' & Hg' & He & E'). exists t', i.
    split; [done|]. split; [done|]. split; [done|].
    rewrite Hp. cbn [fst snd]. rewrite (find_nonzero _ _ _ _ _ _ _ Hd Hf). by destruct Hl.
Qed.
End Walk.

Lemma returned_run {T E} (m : er T E E) t t' e : m t = Ret (inr e, t') \/ m t = Ret (inl e, t') ->
  returned m t = Ret (e, t').
Proof. intros [Hm|Hm]; unfold returned; by erewrite st_step by exact Hm. Qed.

Lemma copy_path_ok s old : (length s < MAX_PATH)%nat -> exists p, copy_path s old = Ret p.
Proof. intros Hs. unfold copy_path. rewrite (proj2 (Nat.ltb_lt _ _)) by done. eauto. Qed.

(** What happens before the walk, for the path of proper names. *)
Lemma run_inode_get_body get_path o fuel cwd ns rl mode t k w :
  ns <> [] -> Forall proper ns -> (length (rooted ns) + 3 <= MAX_PATH)%nat -> rooted_at o -> kept o t ->
  good dev root (1 + k) (1 + w) (base t) ->
  exists t', kept o t' /\ good dev root k (1 + w) (base t') /\
    forall e t'', walk who get_path fuel dev rl mode ns root t' = Ret (inr e, t'') \/
      walk who get_path fuel dev rl mode ns root t' = Ret (inl e, t'') ->
      inode_get_body who get_path fuel dev cwd (rooted ns) rl mode t = Ret (e, t'').
Proof.
  intros Hne Hns Hlen Hroot Ho Hg. destruct (run_put_errno o t _ _ EOK Ho Hg) as (t1 & E1 & Hg1 & Ho1 & _).
  destruct (run_get_root (INODE_FAIL, None : option inode) o t1 k w Hroot Ho1 Hg1) as (t2 & E2 & Hg2 & Ho2).
  destruct (copy_path_ok (rooted ns) (replicate MAX_PATH 0)) as [q Hq]; [lia|].
  destruct (to_buffer_ok (rooted ns)) as [b Hb]; [lia|].
  exists t2. split; [done|]. split; [done|]. intros e t'' Hw. unfold inode_get_body. apply returned_run.
  erewrite er_step by (apply stmt_run; by eapply run_root_block).
  rewrite (proj2 (Nat.ltb_ge _ _)) by lia. erewrite er_step by (apply stmt_lift; exact Hq).
  erewrite er_step. 2: { apply stmt_run. rewrite krealpath_rooted by done. by erewrite st_step by exact E1. }
  cbv beta iota.
  erewrite er_step by (apply stmt_lift; exact Hb).
  erewrite er_step by (apply stmt_lift; by apply (rooted_components ns); [apply proper_names| |]).
  erewrite er_step by exact E2. destruct ns; [done|]. cbn [tail]. by rewrite (proj2 Hroot).
Qed.

Lemma get_found o t depth fuel cwd ns rl mode c b k w : kept o t ->
  Forall proper ns -> (length (rooted ns) + 3 <= MAX_PATH)%nat -> rooted_at o ->
  good dev root (1 + c + k) (1 + w) (base t) -> leads (blocks o) valid who fuel c root ns b ->
  rl = false \/ is_link (node (blocks o) b) = false /\ is_hard (node (blocks o) b) = false ->
  inode_check_permissions (node (blocks o) b) 0 0 (c_group who) (c_owner who) mode = true ->
  exists t', inode_get who (1 + depth) fuel dev cwd (rooted ns) rl mode t =
      Ret ((INODE_OK, Some (node (blocks o) b)), t') /\
    good dev root k (1 + w) (base t') /\ kept o t'.
Proof.
  intros Ho Hns Hlen Hroot Hg Hl Hrl Hperm.
  destruct (run_inode_get_body (inode_get who depth fuel) o fuel cwd ns rl mode t (c + k) w) as (t1 & Ho1 & Hg1 & Hbody);
    [by destruct Hl|done..|].
  destruct (run_walk (inode_get who depth fuel) o rl mode fuel c root ns b t1 k w Hl Ho1 Hg1) as (t' & Ho' & Hg' & Hw).
  exists t'. split; [|done]. cbn [inode_get Nat.add]. apply Hbody. left. rewrite Hw. unfold arrive.
  replace ((_ || _) && rl) with false by (destruct Hrl as [->|[-> ->]]; [by rewrite andb_false_r|done]).
  erewrite er_step by reflexivity. by rewrite Hperm.
Qed.

Lemma get_missing o t depth fuel cwd ns rl mode c k w : kept o t ->
  Forall proper ns -> (length (rooted ns) + 3 <= MAX_PATH)%nat -> rooted_at o ->
  good dev root (1 + c + k) (1 + w) (base t) -> misses (blocks o) valid who fuel c root ns ->
  exists t' i, inode_get who (1 + depth) fuel dev cwd (rooted ns) rl mode t =
      Ret ((INODE_FILE_NOT_FOUND, i), t') /\ the_errno t' = ENOENT /\
    good dev root k (1 + w) (base t') /\ kept o t'.
Proof.
  intros Ho Hns Hlen Hroot Hg Hl.
  destruct (run_inode_get_body (inode_get who depth fuel) o fuel cwd ns rl mode t (c + k) w) as (t1 & Ho1 & Hg1 & Hbody);
    [by destruct Hl|done..|].
  destruct (run_walk_missing (inode_get who depth fuel) o rl mode fuel c root ns t1 k w Hl Ho1 Hg1)
    as (t' & i & Ho' & Hg' & He & Hw).
  exists t', i. split; [|done]. cbn [inode_get Nat.add]. apply Hbody. by right.
Qed.

(** C5: [inode_get] of an absolute path finds the inode its names lead to, directory
    by directory, when the caller may search them all and has the permission asked
    for, and changes no block. *)
Theorem inode_get_found o depth fuel cwd ns rl mode c b k w :
  Forall proper ns -> (length (rooted ns) + 3 <= MAX_PATH)%nat -> rooted_at o ->
  good dev root (1 + c + k) (1 + w) (base o) -> leads (blocks o) valid who fuel c root ns b ->
  rl = false \/ is_link (node (blocks o) b) = false /\ is_hard (node (blocks o) b) = false ->
  inode_check_permissions (node (blocks o) b) 0 0 (c_group who) (c_owner who) mode = true ->
  exists t', inode_get who (1 + depth) fuel dev cwd (rooted ns) rl mode o =
      Ret ((INODE_OK, Some (node (blocks o) b)), t') /\
    good dev root k (1 + w) (base t') /\ kept o t'.
Proof. by apply get_found. Qed.

(** C6: when a name on the way is missing, [inode_get] returns [INODE_FILE_NOT_FOUND]
    with [ENOENT], and changes no block. *)
Theorem inode_get_missing o depth fuel cwd ns rl mode c k w :
  Forall proper ns -> (length (rooted ns) + 3 <= MAX_PATH)%nat -> rooted_at o ->
  good dev root (1 + c + k) (1 + w) (base o) -> misses (blocks o) valid who fuel c root ns ->
  exists t' i, inode_get who (1 + depth) fuel dev cwd (rooted ns) rl mode o =
      Ret ((INODE_FILE_NOT_FOUND, i), t') /\ the_errno t' = ENOENT /\
    good dev root k (1 + w) (base t') /\ kept o t'.
Proof. by apply get_missing. Qed.
End Runs.
