(* ===== verification/CreateSpec.v ===== *)
(** * Making inodes

    [inode_create] of a file or a directory adds one entry to one directory: the
    tree stays well formed, every path leads where it led, and the new path leads
    to the new inode. *)

From S2P Require Import Prelude Errno Layout Perms Alloc Store StoreSpec Paths PathsSpec Tree TreeSpec.

(** ** Chains of block maps *)

Section Chains.
Context (valid : kind -> Z -> Prop).

Lemma listing_det v bs b l bs' l' : listing v valid bs b l -> listing v valid bs' b l' -> bs = bs' /\ l = l'.
Proof.
  intros Hl. revert bs' l'. induction Hl as [b Hb He Hz|bs b l Hb He Hz Hl IH]; intros bs' l' Hl';
    inversion Hl' as [? ? ? Hz'|? ? ? ? ? Hz' Hl'' ]; subst; try done.
  destruct (IH _ _ Hl'') as [-> ->]. done.
Qed.

Lemma listing_agree v v' bs b l : listing v valid bs b l -> (forall q, q ∈ bs -> v' q = v q) ->
  listing v' valid bs b l.
Proof.
  induction 1 as [b Hb He Hz|bs b l Hb He Hz Hl IH]; intros Hv;
    assert (map_at v' b = map_at v b) as E by (unfold map_at; rewrite Hv by (by left); done).
  - rewrite <- E in *. by constructor.
  - rewrite <- E in *. constructor; [done|done|done|]. apply IH. intros q Hq. apply Hv. by right.
Qed.

Lemma listing_first v bs b l : listing v valid bs b l -> head bs = Some b.
Proof. by intros []. Qed.

Lemma listing_maps v bs b l : listing v valid bs b l -> Forall (valid Data) bs.
Proof. induction 1; by constructor. Qed.

Lemma listing_entries v bs b l : listing v valid bs b l -> Forall (valid Inodes) l.
Proof. induction 1; [done|]. by apply Forall_app. Qed.

(** A free slot of a block map is filled. *)
Lemma entries_insert bm j x : b_blocks bm !! j = Some INODE_NULL -> x <> INODE_NULL ->
  exists e1 e2, entries bm = e1 ++ e2 /\
    forall nx, entries (BlockMap nx (<[j := x]> (b_blocks bm))) = e1 ++ x :: e2.
Proof.
  intros Hj Hx. exists (filter (fun b => b <> INODE_NULL) (take j (b_blocks bm))),
    (filter (fun b => b <> INODE_NULL) (drop (S j) (b_blocks bm))).
  unfold entries. cbn [b_blocks]. split.
  - rewrite <- (take_drop_middle _ _ _ Hj) at 1. rewrite filter_app, filter_cons_False; [done|]. intros H. by apply H.
  - intros nx. rewrite insert_take_drop by (by eapply lookup_lt_Some).
    by rewrite filter_app, filter_cons_True.
Qed.

Lemma listing_insert v v' bs b l cur j x : listing v valid bs b l -> NoDup bs -> (cur ∈ bs) ->
  (forall q, q ∈ bs -> q <> cur -> v' q = v q) ->
  map_at v' cur = BlockMap (b_next (map_at v cur)) (<[j := x]> (b_blocks (map_at v cur))) ->
  b_blocks (map_at v cur) !! j = Some INODE_NULL -> valid Inodes x -> x <> INODE_NULL ->
  exists l1 l2, l = l1 ++ l2 /\ listing v' valid bs b (l1 ++ x :: l2).
Proof.
  intros Hl Hnd Hcur Hv Hm Hj Hx Hx0.
  assert (forall b, b = cur -> Forall (valid Inodes) (entries (map_at v b)) -> exists e1 e2,
    entries (map_at v b) = e1 ++ e2 /\ entries (map_at v' b) = e1 ++ x :: e2 /\
    b_next (map_at v' b) = b_next (map_at v b) /\ Forall (valid Inodes) (entries (map_at v' b))) as Hins.
  { intros c -> He. destruct (entries_insert (map_at v cur) j x Hj Hx0) as (e1 & e2 & E1 & E2).
    exists e1, e2. rewrite Hm, E2. rewrite E1 in He. apply Forall_app in He as [He1 He2].
    split; [done|]. split; [done|]. split; [done|]. apply Forall_app. by split; [|constructor]. }
  induction Hl as [b Hb He Hz|bs b l Hb He Hz Hl IH].
  - apply list_elem_of_singleton in Hcur as ->. destruct (Hins b eq_refl He) as (e1 & e2 & E1 & E2 & En & He').
    exists e1, e2. split; [done|]. rewrite <- E2. constructor; [done|done|by rewrite En].
  - apply NoDup_cons in Hnd as [Hnb Hnd]. destruct (decide (cur = b)) as [->|Hne].
    + destruct (Hins b eq_refl He) as (e1 & e2 & E1 & E2 & En & He').
      exists e1, (e2 ++ l). split; [by rewrite E1, <- app_assoc|].
      rewrite app_comm_cons, app_assoc, <- E2. constructor; [done|done|by rewrite En|].
      rewrite En. apply (listing_agree v); [done|]. intros q Hq. apply Hv; [by right|]. intros ->. done.
    + apply elem_of_cons in Hcur as [?|Hcur]; [done|].
      destruct (IH Hnd Hcur) as (l1 & l2 & -> & Hl'); [intros q Hq; apply Hv; by right|].
      assert (map_at v' b = map_at v b) as E by (unfold map_at; rewrite Hv; [done|by left|done]).
      exists (entries (map_at v b) ++ l1), l2. split; [by rewrite app_assoc|].
      rewrite <- app_assoc. rewrite <- E in *. by constructor.
Qed.

(** A block map is added behind the last. *)
Lemma listing_extend v v' bs b l last m x : listing v valid (bs ++ [last]) b l -> NoDup (bs ++ [last; m]) ->
  (forall q, q ∈ bs -> v' q = v q) ->
  map_at v' last = BlockMap m (b_blocks (map_at v last)) ->
  valid Data m -> m <> INODE_NULL -> b_next (map_at v' m) = INODE_NULL -> entries (map_at v' m) = [x] ->
  valid Inodes x ->
  listing v' valid (bs ++ [last; m]) b (l ++ [x]).
Proof.
  intros Hl Hnd Hv Hlast Hm Hm0 Hnext Hent Hx. remember (bs ++ [last]) as bs' eqn:Ebs. revert bs Hnd Hv Ebs.
  assert (listing v' valid [m] m [x]) as Hone.
  { rewrite <- Hent. constructor; [done|rewrite Hent; by constructor|done]. }
  induction Hl as [b Hb He Hz|bs' b l Hb He Hz Hl IH]; intros bs Hnd Hv Ebs.
  - destruct bs as [|? [|? bs]]; try done. cbn [app] in Ebs. injection Ebs as ->. cbn [app].
    assert (entries (map_at v last) = entries (map_at v' last)) as -> by (by rewrite Hlast).
    apply listing_more; [done| |by rewrite Hlast|by rewrite Hlast]. by rewrite Hlast.
  - destruct bs as [|c bs]; cbn [app] in Ebs; injection Ebs as -> Ebs.
    { subst bs'. inversion Hl. }
    cbn [app] in Hnd |- *. apply NoDup_cons in Hnd as [_ Hnd].
    assert (map_at v' c = map_at v c) as E by (unfold map_at; rewrite Hv; [done|by left]).
    rewrite <- app_assoc. rewrite <- E in *. constructor; [done|done|done|].
    apply IH; [done| |done]. intros q Hq. apply Hv. by right.
Qed.
End Chains.

(** ** The tree as a whole *)

Section Tree.
Context (valid : kind -> Z -> Prop) (root : Z).

(** The entries of a directory, which may have no block maps yet. *)
Definition lists (v : Z -> list Z) (d : Z) (bs l : list Z) : Prop :=
  i_next (node v d) = INODE_NULL /\ bs = [] /\ l = [] \/
  i_next (node v d) <> INODE_NULL /\ listing v valid bs (i_next (node v d)) l.

Lemma lists_det v d bs l bs' l' : lists v d bs l -> lists v d bs' l' -> bs = bs' /\ l = l'.
Proof.
  intros [(H & -> & ->)|(H & Hl)] [(H' & -> & ->)|(H' & Hl')]; try done. by eapply listing_det.
Qed.

Lemma lists_entries v d bs l : lists v d bs l -> Forall (valid Inodes) l.
Proof. intros [(_ & _ & ->)|(_ & Hl)]; [done|by eapply listing_entries]. Qed.

Lemma lists_maps v d bs l : lists v d bs l -> Forall (valid Data) bs.
Proof. intros [(_ & -> & _)|(_ & Hl)]; [done|by eapply listing_maps]. Qed.

(** The inodes the directories lead to. *)
Inductive reach (v : Z -> list Z) : Z -> Prop :=
| reach_root : reach v root
| reach_entry d bs l e : reach v d -> is_dir (node v d) = true -> lists v d bs l -> (e ∈ l) -> reach v e.

(** Every inode is well formed, in use and has a name; every directory has a chain
    of well formed block maps of its own. *)
Record tree_ok (v : Z -> list Z) (used : Z -> Prop) : Prop := TreeOk {
  ok_inode b : reach v b -> valid Inodes b /\ used b /\ cok inode_codec (node v b) /\
    self (node v b) = b /\ exists n, label v b = Ret n;
  ok_maps d : reach v d -> is_dir (node v d) = true -> exists bs l, lists v d bs l /\ NoDup bs /\
    Forall (fun m => used m /\ cok block_map_t_codec (map_at v m)) bs;
  ok_own d d' bs bs' l l' m : reach v d -> reach v d' -> is_dir (node v d) = true -> is_dir (node v d') = true ->
    lists v d bs l -> lists v d' bs' l' -> (m ∈ bs) -> (m ∈ bs') -> d = d'
}.

(** What one new entry [x] of the directory [d] does to the blocks; [bs] and [bs']
    are the block maps before and after. *)
Record added (v : Z -> list Z) (used : Z -> Prop) (v' : Z -> list Z) (used' : Z -> Prop)
    (d x : Z) (n : list Z) : Prop := Added {
  add_fresh : ~ used x;
  add_used b : used b -> used' b;
  add_node : valid Inodes x /\ x <> INODE_NULL /\ used' x /\ cok inode_codec (node v' x) /\ label v' x = Ret n /\
    i_next (node v' x) = INODE_NULL /\ self (node v' x) = x;
  add_dir : node v' d = put_next (i_next (node v' d)) (node v d) /\ cok inode_codec (node v' d);
  add_maps : exists bs bs' l1 l2, lists v d bs (l1 ++ l2) /\ lists v' d bs' (l1 ++ x :: l2) /\ NoDup bs' /\
    (length bs' <= S (length bs))%nat /\
    Forall (fun m => (m ∈ bs \/ ~ used m) /\ used' m /\ cok block_map_t_codec (map_at v' m)) bs' /\
    forall κ q, valid κ q -> used q -> q <> d -> (q ∉ bs) -> v' q = v q
}.
End Tree.

Section Added.
Context (valid : kind -> Z -> Prop) (root : Z) (v v' : Z -> list Z) (used used' : Z -> Prop) (d x : Z) (n : list Z).
Hypothesis areas_apart : forall b, valid Data b -> valid Inodes b -> False.
Hypothesis Hok : tree_ok valid root v used.
Hypothesis Hd : reach valid root v d.
Hypothesis Hdir : is_dir (node v d) = true.
Hypothesis Hadd : added valid v used v' used' d x n.

(** Inodes that were there keep everything but [next], and that too unless they are
    the directory. *)
Lemma added_inode b : reach valid root v b -> b <> d -> v' b = v b.
Proof.
  intros Hb Hne. destruct (ok_inode _ _ _ _ Hok b Hb) as (Hv & Hu & _).
  destruct (add_maps _ _ _ _ _ _ _ _ Hadd) as (bs & bs' & l1 & l2 & Hl & _ & _ & _ & _ & Hq).
  apply (Hq Inodes); [done|done|done|]. intros Hin.
  pose proof (lists_maps _ _ _ _ _ Hl) as Hm. rewrite Forall_forall in Hm. by apply (areas_apart b); [apply Hm|].
Qed.

Lemma added_node b : reach valid root v b -> exists z, node v' b = put_next z (node v b).
Proof.
  intros Hb. destruct (decide (b = d)) as [->|Hne].
  - destruct (add_dir _ _ _ _ _ _ _ _ Hadd) as [E _]. eauto.
  - exists (i_next (node v b)). unfold node. rewrite added_inode by done. by destruct (dec inode_codec (v b)).
Qed.

Lemma added_label b : reach valid root v b -> label v' b = label v b.
Proof. intros Hb. destruct (added_node b Hb) as [z E]. unfold label. rewrite E. by destruct (node v b). Qed.

(** The block maps of the other directories do not change. *)
Lemma added_map e bs l q : reach valid root v e -> is_dir (node v e) = true -> e <> d ->
  lists valid v e bs l -> (q ∈ bs) -> v' q = v q.
Proof.
  intros He Hde Hne Hl Hq.
  destruct (add_maps _ _ _ _ _ _ _ _ Hadd) as (bd & bs' & l1 & l2 & Hld & _ & _ & _ & _ & Hother).
  pose proof (lists_maps _ _ _ _ _ Hl) as Hm. rewrite Forall_forall in Hm. specialize (Hm q Hq).
  destruct (ok_maps _ _ _ _ Hok e He Hde) as (bs1 & l3 & Hle1 & _ & Hu).
  destruct (lists_det _ _ _ _ _ _ _ Hl Hle1) as [<- <-]. rewrite Forall_forall in Hu.
  apply (Hother Data); [done|by apply Hu| |].
  - intros ->. destruct (ok_inode _ _ _ _ Hok d Hd) as (Hv & _). by eapply areas_apart.
  - intros Hqd. apply Hne. symmetry. by apply (ok_own _ _ _ _ Hok d e bd bs (l1 ++ l2) l q).
Qed.

(** The other directories list what they listed. *)
Lemma added_lists e bs l : reach valid root v e -> is_dir (node v e) = true -> e <> d ->
  lists valid v e bs l -> lists valid v' e bs l.
Proof.
  intros He Hde Hne Hl. unfold lists, node. rewrite (added_inode e) by done.
  pose proof Hl as Hle. destruct Hl as [?|(Hz & Hl)]; [by left|right; split; [done|]].
  apply (listing_agree valid v); [done|]. intros q Hq. by eapply added_map.
Qed.

Lemma find_name_same name l : (forall b, b ∈ l -> label v' b = label v b) -> find_name v' name l = find_name v name l.
Proof.
  induction l as [|b l IH]; intros Hl; cbn [find_name]; [done|]. rewrite Hl by (by left).
  destruct (label v b); cbn [mbind outcome_bind]; try done. case_bool_decide; [done|].
  apply IH. intros c Hc. apply Hl. by right.
Qed.

(** Lookups in the directory. *)
Lemma added_find bs l bs' l' name y : lists valid v d bs l -> lists valid v' d bs' l' ->
  find_name v n l = Ret None -> find_name v name l = Ret (Some y) -> find_name v' name l' = Ret (Some y).
Proof.
  intros Hl Hl' Hn Hy. destruct (add_maps _ _ _ _ _ _ _ _ Hadd) as (bd & bd' & l1 & l2 & Hld & Hld' & _).
  destruct (lists_det _ _ _ _ _ _ _ Hl Hld) as [<- ->]. destruct (lists_det _ _ _ _ _ _ _ Hl' Hld') as [<- ->].
  assert (forall b, b ∈ l1 ++ l2 -> label v' b = label v b) as Hlab.
  { intros b Hb. apply added_label. by eapply reach_entry. }
  rewrite <- (find_name_same name (l1 ++ l2)) in Hy by done. rewrite <- (find_name_same n (l1 ++ l2)) in Hn by done.
  rewrite find_name_app in Hy |- *. destruct (find_name v' name l1) as [[z|]| | |]; cbn [mbind outcome_bind] in *; try done.
  cbn [find_name]. destruct (add_node _ _ _ _ _ _ _ _ Hadd) as (_ & _ & _ & _ & -> & _).
  cbn [mbind outcome_bind]. rewrite bool_decide_eq_false_2; [done|]. intros <-.
  rewrite find_name_app in Hn. destruct (find_name v' n l1) as [[?|]| | |]; cbn [mbind outcome_bind] in Hn; try done.
  by rewrite Hy in Hn.
Qed.

Lemma added_find_new bs l bs' l' : lists valid v d bs l -> lists valid v' d bs' l' ->
  find_name v n l = Ret None -> find_name v' n l' = Ret (Some x).
Proof.
  intros Hl Hl' Hn. destruct (add_maps _ _ _ _ _ _ _ _ Hadd) as (bd & bd' & l1 & l2 & Hld & Hld' & _).
  destruct (lists_det _ _ _ _ _ _ _ Hl Hld) as [<- ->]. destruct (lists_det _ _ _ _ _ _ _ Hl' Hld') as [<- ->].
  rewrite <- (find_name_same n (l1 ++ l2)) in Hn.
  2: { intros b Hb. apply added_label. by eapply reach_entry. }
  rewrite find_name_app in Hn |- *. destruct (find_name v' n l1) as [[?|]| | |]; cbn [mbind outcome_bind] in *; try done.
  cbn [find_name]. destruct (add_node _ _ _ _ _ _ _ _ Hadd) as (_ & _ & _ & _ & -> & _).
  cbn [mbind outcome_bind]. by rewrite bool_decide_eq_true_2.
Qed.

Lemma put_next_fields z i : is_dir (put_next z i) = is_dir i /\ is_link (put_next z i) = is_link i /\
  (forall p u g o m, inode_check_permissions (put_next z i) p u g o m = inode_check_permissions i p u g o m) /\
  i_next (put_next z i) = z.
Proof. by destruct i. Qed.

Lemma added_is_dir b : reach valid root v b -> is_dir (node v' b) = is_dir (node v b).
Proof. intros Hb. destruct (added_node b Hb) as [z ->]. apply put_next_fields. Qed.

(** *** Reachable inodes *)

Lemma added_reach b : reach valid root v' b -> reach valid root v b \/ b = x.
Proof.
  destruct (add_node _ _ _ _ _ _ _ _ Hadd) as (_ & _ & _ & _ & _ & Hx & _).
  induction 1 as [|e bs l b He IH Hde Hl Hb]; [left; constructor|]. destruct IH as [IH| ->].
  2: { destruct Hl as [(_ & _ & ->)|(Hz & _)]; [by apply elem_of_nil in Hb|done]. }
  pose proof Hde as Hde'. rewrite added_is_dir in Hde' by done.
  destruct (decide (e = d)) as [->|Hne].
  - destruct (add_maps _ _ _ _ _ _ _ _ Hadd) as (bd & bd' & l1 & l2 & Hld & Hld' & _).
    destruct (lists_det _ _ _ _ _ _ _ Hl Hld') as [-> ->].
    apply elem_of_app in Hb as [Hb|[Hb|Hb]%elem_of_cons]; [left|by right|left];
      (eapply reach_entry; [exact Hd|exact Hdir|exact Hld|apply elem_of_app]); [by left|by right].
  - left. destruct (ok_maps _ _ _ _ Hok e IH Hde') as (bs1 & l1 & Hl1 & _).
    destruct (lists_det _ _ _ _ _ _ _ Hl (added_lists e bs1 l1 IH Hde' Hne Hl1)) as [-> ->].
    by eapply reach_entry.
Qed.

Lemma added_ok : tree_ok valid root v' used'.
Proof.
  destruct (add_node _ _ _ _ _ _ _ _ Hadd) as (Hxv & Hx0 & Hxu & Hxc & Hxl & Hxn & Hxs).
  destruct (add_maps _ _ _ _ _ _ _ _ Hadd) as (bd & bd' & l1 & l2 & Hld & Hld' & Hnd & _ & Hmaps & _).
  assert (forall e bs l, reach valid root v e -> is_dir (node v' e) = true -> e <> d -> lists valid v' e bs l ->
    is_dir (node v e) = true /\ lists valid v e bs l /\
    NoDup bs /\ Forall (fun m => used m /\ cok block_map_t_codec (map_at v m)) bs) as Hother.
  { intros e bs l He Hde Hne Hl. rewrite added_is_dir in Hde by done. split; [done|].
    destruct (ok_maps _ _ _ _ Hok e He Hde) as (bs1 & l3 & Hl1 & Hn1 & Hm1).
    by destruct (lists_det _ _ _ _ _ _ _ Hl (added_lists e bs1 l3 He Hde Hne Hl1)) as [-> ->]. }
  assert (forall bs l m, lists valid v' x bs l -> (m ∈ bs) -> False) as Hnox.
  { intros bs l m [(_ & -> & _)|(Hz & _)] Hm; [by apply elem_of_nil in Hm|done]. }
  split.
  - intros b [Hb| ->]%added_reach; [|by eauto 8].
    destruct (ok_inode _ _ _ _ Hok b Hb) as (Hv & Hu & Hc & Hs & Hl). split; [done|].
    split; [by apply (add_used _ _ _ _ _ _ _ _ Hadd)|]. rewrite added_label by done. split; [|split; [|done]].
    + destruct (decide (b = d)) as [->|Hne]; [apply Hadd|]. unfold node. by rewrite added_inode.
    + destruct (added_node b Hb) as [z ->]. by destruct (node v b).
  - intros e [He| ->]%added_reach Hde.
    2: { exists [], []. split; [by left|]. split; [constructor|constructor]. }
    destruct (decide (e = d)) as [->|Hne].
    + exists bd', (l1 ++ x :: l2). split; [done|]. split; [done|].
      eapply Forall_impl; [exact Hmaps|]. by intros m (_ & ? & ?).
    + rewrite added_is_dir in Hde by done. destruct (ok_maps _ _ _ _ Hok e He Hde) as (bs & l & Hl & Hn & Hm).
      exists bs, l. split; [by apply added_lists|]. split; [done|]. rewrite Forall_forall in Hm |- *.
      intros m Hin. destruct (Hm m Hin) as [Hu Hc]. split; [by apply (add_used _ _ _ _ _ _ _ _ Hadd)|].
      unfold map_at. by rewrite (added_map e bs l m).
  - intros e e' bs bs' l l' m [He| ->]%added_reach [He'| ->]%added_reach Hde Hde' Hl Hl' Hm Hm';
      [|exfalso; by eapply Hnox|exfalso; by eapply Hnox|done].
    destruct (decide (e = d)) as [->|Hne], (decide (e' = d)) as [->|Hne']; [done| | |].
    + destruct (lists_det _ _ _ _ _ _ _ Hl Hld') as [-> ->].
      destruct (Hother e' bs' l' He' Hde' Hne' Hl') as (Hde1 & Hl1 & _ & Hu1). rewrite Forall_forall in Hu1, Hmaps.
      destruct (Hmaps m Hm) as ([Hmd|Hmd] & _); [|by destruct Hmd; apply Hu1].
      by apply (ok_own _ _ _ _ Hok d e' bd bs' (l1 ++ l2) l' m).
    + destruct (lists_det _ _ _ _ _ _ _ Hl' Hld') as [-> ->].
      destruct (Hother e bs l He Hde Hne Hl) as (Hde1 & Hl1 & _ & Hu1). rewrite Forall_forall in Hu1, Hmaps.
      destruct (Hmaps m Hm') as ([Hmd|Hmd] & _); [|by destruct Hmd; apply Hu1].
      by apply (ok_own _ _ _ _ Hok e d bs bd l (l1 ++ l2) m).
    + destruct (Hother e bs l He Hde Hne Hl) as (Hde1 & Hl1 & _).
      destruct (Hother e' bs' l' He' Hde' Hne' Hl') as (Hde1' & Hl1' & _).
      by apply (ok_own _ _ _ _ Hok e e' bs bs' l l' m).
Qed.

(** *** Paths *)

Context (who : caller).
Hypothesis Hmiss : exists bs l, lists valid v d bs l /\ find_name v n l = Ret None.

Lemma added_directory fuel c e l : reach valid root v e -> directory v valid who fuel c e l ->
  exists c' l', directory v' valid who (S fuel) c' e l' /\
    forall name y, find_name v name l = Ret (Some y) -> find_name v' name l' = Ret (Some y).
Proof.
  intros He (Hv & Hde & Hlk & Hp & Hz & bs & Hbs & Hl & ->).
  assert (lists valid v e bs l) as Hle by (by right).
  destruct (added_node e He) as [z Ez]. destruct (put_next_fields z (node v e)) as (F1 & F2 & F3 & F4).
  assert (exists bs' l', lists valid v' e bs' l' /\ (length bs' <= S fuel)%nat /\ i_next (node v' e) <> INODE_NULL /\
    forall name y, find_name v name l = Ret (Some y) -> find_name v' name l' = Ret (Some y))
    as (bs' & l' & Hl' & Hlen & Hz' & Hfind).
  { destruct (decide (e = d)) as [->|Hne].
    - destruct (add_maps _ _ _ _ _ _ _ _ Hadd) as (bd & bd' & l1 & l2 & Hld & Hld' & _ & Hlen & _).
      destruct (lists_det _ _ _ _ _ _ _ Hle Hld) as [-> ->]. exists bd', (l1 ++ x :: l2).
      split; [done|]. split; [lia|]. split.
      + destruct Hld' as [(_ & _ & Hnil)|[? _]]; [by destruct l1|done].
      + intros name y Hy. destruct Hmiss as (b1 & l3 & Hl3 & Hn).
        destruct (lists_det _ _ _ _ _ _ _ Hl3 Hld) as [-> ->]. by eapply added_find.
    - exists bs, l. split; [by apply added_lists|]. split; [lia|]. split.
      + unfold node. by rewrite added_inode.
      + intros name y Hy. rewrite find_name_same; [done|]. intros b Hb. apply added_label.
        by eapply reach_entry. }
  exists (1 + length bs' + length l')%nat, l'. split; [|done]. unfold directory. rewrite Ez, F1, F2, F3, F4.
  rewrite Ez, F4 in Hz'. split; [done|]. split; [done|]. split; [done|]. split; [done|]. split; [done|].
  destruct Hl' as [[Hz0 _]|[_ Hl']]; rewrite Ez, F4 in *; [done|]. by exists bs'.
Qed.

Lemma reach_find e fuel c l name y : reach valid root v e -> directory v valid who fuel c e l ->
  find_name v name l = Ret (Some y) -> reach valid root v y.
Proof.
  intros He (_ & Hde & _ & _ & Hz & bs & _ & Hl & _) Hf. apply find_name_in in Hf as [Hin _].
  eapply reach_entry; [done|done| |done]. by right.
Qed.

(** Every path leads where it led. *)
Lemma added_leads fuel c e ns y : reach valid root v e -> leads v valid who fuel c e ns y ->
  exists c', leads v' valid who (S fuel) c' e ns y.
Proof.
  intros He Hl. revert He. induction Hl as [c e l name y Hde Hf|c c' e l name e' ns y Hde Hf Hl IH]; intros He;
    destruct (added_directory fuel c e l He Hde) as (c1 & l1 & Hde1 & Hf1).
  - exists c1. eapply leads_last; [exact Hde1|by apply Hf1].
  - destruct IH as [c2 Hl2]; [by eapply reach_find|].
    exists (c1 + c2)%nat. eapply leads_more; [exact Hde1|by apply Hf1|done].
Qed.

(** The new entry can be looked up. *)
Lemma added_entry fuel : is_link (node v d) = false ->
  inode_check_permissions (node v d) 0 0 (c_group who) (c_owner who) INODE_RX = true ->
  (forall bs l, lists valid v d bs l -> (length bs <= fuel)%nat) ->
  exists c, leads v' valid who (S fuel) c d [n] x.
Proof.
  intros Hlk Hp Hfuel. destruct Hmiss as (bs & l & Hl & Hn).
  destruct (add_maps _ _ _ _ _ _ _ _ Hadd) as (bd & bd' & l1 & l2 & Hld & Hld' & _ & Hlen & _).
  destruct (lists_det _ _ _ _ _ _ _ Hl Hld) as [-> ->]. specialize (Hfuel _ _ Hld).
  pose proof (added_find_new _ _ _ _ Hld Hld' Hn) as Hf.
  destruct (added_node d Hd) as [z Ez]. destruct (put_next_fields z (node v d)) as (F1 & F2 & F3 & F4).
  exists (1 + length bd' + length (l1 ++ x :: l2))%nat. apply leads_last with (l1 ++ x :: l2); [|done].
  destruct Hld' as [(_ & _ & Hnil)|[Hz Hll]]; [by destruct l1|].
  split; [apply (ok_inode _ _ _ _ Hok d Hd)|]. rewrite Ez, F1, F2, F3, F4 in *.
  split; [done|]. split; [done|]. split; [done|]. split; [done|]. exists bd'. split; [lia|]. done.
Qed.
End Added.

Lemma leads_app v valid who fuel c c' d ns e ms b : leads v valid who fuel c d ns e ->
  leads v valid who fuel c' e ms b -> leads v valid who fuel (c + c') d (ns ++ ms) b.
Proof.
  induction 1 as [c d l n e Hd Hf|c1 c d l n e0 ns e Hd Hf Hl IH]; intros Hm.
  - by eapply leads_more.
  - rewrite <- Nat.add_assoc. eapply leads_more; [done|done|]. by apply IH.
Qed.

(** ** Writing *)

Section Runs.
Context {S : Type} `{HF : FsOps S} {dev root : Z} {HL : StoreLaws S dev root}.

Abbreviation blocks t := (view dev root (base t)).
Abbreviation in_use t := (used dev root (base t)).
Abbreviation valid := (area S dev root).

(** One block written since [o]. *)
Definition wrote (o : tree S) (b : Z) (data : list Z) (t : tree S) : Prop :=
  (forall κ q, valid κ q -> blocks t q = if q =? b then data else blocks o q) /\ (forall q, in_use t q <-> in_use o q).

Lemma run_write_as {E A} (c : codec A) `{!Lawful c} o t k w κ b a n (e : E) : csize c = 512%nat -> cok c a ->
  kept o t -> good dev root (1 + k) (1 + w) (base t) -> valid κ b ->
  exists t', need (write_as c dev b a) n e t = Ret (inr tt, t') /\ good dev root k w (base t') /\
    wrote o b (enc c a) t'.
Proof.
  intros Hsize Ha Ho Hg Hb.
  destruct (write_block_ok k w (base t) κ b (enc c a) Hg Hb) as (s' & E' & Hg' & Hv & Hu);
    [by rewrite enc_length|].
  exists (Tree s' (nr_recursion t)). split; [|split; [done|split]].
  - assert (write_as c dev b a t = Ret (true, Tree s' (nr_recursion t))) as Ew.
    { unfold write_as. cbn [write_block tree_ops]. unfold below. by rewrite E'. }
    unfold need. by erewrite er_step by (apply stmt_run; exact Ew).
  - intros κ' q Hq. cbn [base]. rewrite (Hv κ' q Hq). by rewrite (proj1 Ho κ' q Hq).
  - intros q. cbn [base]. rewrite Hu. apply (proj1 (proj2 Ho)).
Qed.

(** What an allocator gives. *)
Definition gave (κ : kind) (o : tree S) (r : inode_rtvl) (b : Z) (t : tree S) : Prop :=
  (forall κ q, valid κ q -> blocks t q = blocks o q) /\ (forall q, in_use o q -> in_use t q) /\
  (r = INODE_OK /\ valid κ b /\ ~ in_use o b /\ in_use t b \/ r = INODE_FAIL /\ b = 0).

Lemma run_alloc κ o t k w b0 : kept o t -> good dev root (alloc_cost S dev root + k) (2 + w) (base t) ->
  exists r b t', (match κ with Data => get_data_block | Inodes => get_inode_block end) dev b0 t = Ret ((r, b), t') /\
    good dev root k w (base t') /\ gave κ o r b t'.
Proof.
  intros (Hv0 & Hu0 & _) Hg. destruct (alloc_ok κ k w (base t) b0 Hg) as (r & b & s' & E & Hg' & Hv & Hu & Hr).
  exists r, b, (Tree s' (nr_recursion t)). split; [|split; [done|split; [|split]]].
  - destruct κ; cbn [get_inode_block get_data_block tree_ops]; unfold below; by rewrite E.
  - intros κ' q Hq. cbn [base]. by rewrite (Hv κ' q Hq), (Hv0 κ' q Hq).
  - intros q Hq. cbn [base]. apply Hu. by apply Hu0.
  - cbn [base]. destruct Hr as [(-> & Ha & Hn & Hy)|?]; [left|by right]. split; [done|]. split; [done|].
    split; [|done]. intros H. apply Hn. by apply Hu0.
Qed.

Lemma first_free_spec l : match first_free l with Some j => l !! j = Some INODE_NULL | None => True end.
Proof.
  induction l as [|b l IH]; cbn [first_free]; [done|]. destruct (Z.eqb_spec b INODE_NULL) as [->|]; [done|].
  by destruct (first_free l).
Qed.

(** *** Well formed structures *)

Lemma cok_map_slot bm j x : cok block_map_t_codec bm -> 0 <= x < 4294967296 ->
  cok block_map_t_codec (BlockMap (b_next bm) (<[j := x]> (b_blocks bm))).
Proof.
  destruct bm as [nx l]. intros (Hn & Hl & Hb) Hx. cbn [b_next b_blocks]. split; [exact Hn|].
  split; cbn [b_blocks]; [rewrite length_insert; exact Hl|]. apply Forall_insert; [exact Hb|exact Hx].
Qed.

Lemma cok_map_next bm z : cok block_map_t_codec bm -> 0 <= z < 4294967296 ->
  cok block_map_t_codec (BlockMap z (b_blocks bm)).
Proof. destruct bm as [nx l]. intros (Hn & Hb) Hz. split; [exact Hz|exact Hb]. Qed.

Lemma cok_put_next z i : cok inode_codec i -> 0 <= z < 4294967296 -> cok inode_codec (put_next z i).
Proof.
  intros Hi Hz. destruct i. cbn -[MAX_PATH INODE_PAD] in *.
  repeat match goal with H : _ /\ _ |- _ => destruct H end. by repeat (split; [assumption|]).
Qed.

Lemma zero_map_spec : zero_map = BlockMap 0 (replicate BMAP_BLOCKS 0).
Proof. vm_compute. reflexivity. Qed.

Lemma cok_zero_map : cok block_map_t_codec zero_map.
Proof. rewrite zero_map_spec. split; [done|]. split; [done|]. by apply Forall_replicate. Qed.

Lemma area_bounds κ b : valid κ b -> 0 <= b < 4294967296 /\ b <> INODE_NULL.
Proof. intros Hb. apply area_range in Hb. unfold INODE_NULL. lia. Qed.

(** *** A free slot of a chain *)

(** The three ways the search ends: no inode is left, a slot was filled, or there is
    no free slot. *)
Inductive slot (o : tree S) (bs : list Z) (k w : nat) : outcome ((inode_rtvl + Z * block_map_t * Z) * tree S) -> Prop :=
| slot_full t : the_errno t = ENOSPC -> good dev root k w (base t) -> slot o bs k w (Ret (inl INODE_FAIL, t))
| slot_taken cur j x t1 t : (cur ∈ bs) -> b_blocks (map_at (blocks o) cur) !! j = Some INODE_NULL ->
    gave Inodes o INODE_OK x t1 ->
    let bm := BlockMap (b_next (map_at (blocks o) cur)) (<[j := x]> (b_blocks (map_at (blocks o) cur))) in
    wrote t1 cur (enc block_map_t_codec bm) t -> good dev root k w (base t) ->
    slot o bs k w (Ret (inr (x, bm, cur), t))
| slot_none bs0 last t : bs = bs0 ++ [last] -> kept o t -> b_next (map_at (blocks o) last) = INODE_NULL ->
    good dev root (alloc_cost S dev root + 1 + k) (3 + w) (base t) ->
    slot o bs k w (Ret (inr (INODE_NULL, map_at (blocks o) last, last), t)).

Lemma slot_cons o b bs k w r : slot o bs k w r -> slot o (b :: bs) k w r.
Proof.
  intros [t He Hg|cur j x t1 t Hcur Hj Hga bm Hw Hg|bs0 last t -> Ho Hn Hg].
  - by constructor.
  - by apply slot_taken with (t1 := t1); [right|..].
  - by apply slot_none with (bs0 := b :: bs0).
Qed.

Lemma run_free_slot o bs b l : listing (blocks o) valid bs b l ->
  Forall (fun m => cok block_map_t_codec (map_at (blocks o) m)) bs ->
  forall n t k w, kept o t -> (length bs <= n)%nat ->
  good dev root (length bs + (alloc_cost S dev root + 1 + k)) (3 + w) (base t) ->
  slot o bs k w (free_slot n dev b t).
Proof.
  intros Hl. induction Hl as [b Hb He Hz|bs b l Hb He Hz Hl IH]; intros Hc n t k w Ho Hn Hg;
    apply Forall_cons in Hc as [Hcb Hc]; cbn [length] in Hn, Hg; (destruct n as [|n]; [lia|]); cbn [free_slot].
  1: pose (K := 0%nat). 2: pose (K := length bs).
  all: destruct (run_map o t (K + (alloc_cost S dev root + 1 + k)) (2 + w) b zero_map EACCES INODE_FAIL Ho)
      as (t1 & E1 & Hg1 & Ho1); [eapply good_weaken; [| |exact Hg]; unfold K; lia|exact Hb|];
    erewrite er_step by exact E1; clear E1.
  all: pose proof (first_free_spec (b_blocks (map_at (blocks o) b))) as Hj;
    destruct (first_free (b_blocks (map_at (blocks o) b))) as [j|].
  1, 3: destruct (run_alloc Inodes o t1 (1 + k) (1 + w) INODE_NULL Ho1) as (r & x & t2 & E2 & Hg2 & Hga);
    [eapply good_weaken; [| |exact Hg1]; lia|]; erewrite er_step by (apply stmt_run; exact E2);
    clear E2; pose proof Hga as (_ & _ & [(-> & Hx & _)|(-> & ->)]); cbn [fst snd].
  2, 4: rewrite bool_decide_eq_true_2 by done;
    destruct (run_leave_with (A := Z * block_map_t * Z) t2 t2 _ _ ENOSPC INODE_FAIL (kept_refl t2) Hg2)
      as (t3 & E3 & Hg3 & _ & He3);
    rewrite E3; apply slot_full; [exact He3|]; eapply good_weaken; [| |exact Hg3]; lia.
  1, 2: rewrite bool_decide_eq_false_2 by done; cbn zeta;
    destruct (area_bounds _ _ Hx) as [Hxr Hx0];
    pose proof (cok_map_slot (map_at (blocks o) b) j x Hcb Hxr) as Hcok;
    destruct (run_write_as block_map_t_codec t2 t2 k w Data b _ EACCES INODE_FAIL eq_refl Hcok (kept_refl t2) Hg2 Hb)
      as (t3 & E3 & Hg3 & Hw3);
    erewrite er_step by exact E3; cbn [b_next]; rewrite (proj2 (Z.eqb_neq _ _) Hx0), andb_false_r;
    apply slot_taken with (t1 := t2); [by left|done|done|done|done].
  - rewrite Hz. apply slot_none with (bs0 := []); [done|done|done|]. eapply good_weaken; [| |exact Hg1]; lia.
  - rewrite (proj2 (Z.eqb_neq _ _) Hz). cbn [negb]. apply slot_cons. apply IH; [done|done|lia|].
    eapply good_weaken; [| |exact Hg1]; unfold K; lia.
Qed.

(** *** A new block map *)

(** The block that is to refer to the new block map [m]: the last block map of the
    directory, or the directory itself. *)
Definition hook (o : tree S) (d cur m : Z) : Z * list Z :=
  if cur =? INODE_NULL then (d, enc inode_codec (put_next m (node (blocks o) d)))
  else (cur, enc block_map_t_codec (BlockMap m (b_blocks (map_at (blocks o) cur)))).

Definition first_slot (x : Z) : block_map_t := BlockMap (b_next zero_map) (<[0%nat := x]> (b_blocks zero_map)).

Inductive extended (o : tree S) (d cur : Z) (k w : nat) : outcome ((inode_rtvl + Z) * tree S) -> Prop :=
| extended_full t : the_errno t = ENOSPC -> good dev root k w (base t) -> extended o d cur k w (Ret (inl INODE_FAIL, t))
| extended_by m x t : valid Data m -> valid Inodes x -> ~ in_use o m -> ~ in_use o x -> in_use t m -> in_use t x ->
    (forall q, in_use o q -> in_use t q) ->
    (forall κ q, valid κ q -> blocks t q = if q =? m then enc block_map_t_codec (first_slot x)
       else if q =? (hook o d cur m).1 then (hook o d cur m).2 else blocks o q) ->
    good dev root k w (base t) -> extended o d cur k w (Ret (inr x, t)).

Lemma run_new_slot o t d cur k w :
  kept o t -> valid Inodes d -> cok inode_codec (node (blocks o) d) -> self (node (blocks o) d) = d ->
  (cur = INODE_NULL \/ valid Data cur /\ cok block_map_t_codec (map_at (blocks o) cur) /\
    b_next (map_at (blocks o) cur) = INODE_NULL) ->
  good dev root (2 * alloc_cost S dev root + 2 + k) (6 + w) (base t) ->
  extended o d cur k w
    (new_slot dev (node (blocks o) d) (if cur =? INODE_NULL then zero_map else map_at (blocks o) cur) cur t).
Proof.
  intros Ho Hd Hc Hself Hcur Hg. unfold new_slot.
  destruct (run_alloc Data o t (alloc_cost S dev root + 2 + k) (4 + w) INODE_NULL Ho) as (r & m & t1 & E1 & Hg1 & Hv1 & Hu1 & Hr);
    [eapply good_weaken; [| |exact Hg]; lia|].
  erewrite er_step by (apply stmt_run; exact E1). destruct Hr as [(-> & Hm & Hmf & Hmu)|(-> & ->)]; cbn [fst snd].
  2: { rewrite bool_decide_eq_true_2 by done.
       destruct (run_leave_with (A := Z) t1 t1 _ _ ENOSPC INODE_FAIL (kept_refl t1) Hg1) as (t3 & E3 & Hg3 & _ & He3).
       rewrite E3. apply extended_full; [done|]. eapply good_weaken; [| |exact Hg3]; lia. }
  rewrite bool_decide_eq_false_2 by done. destruct (area_bounds _ _ Hm) as [Hmr Hm0].
  assert (exists t2, (forall K : Z -> er (tree S) inode_rtvl Z,
      (next ← (if (b_next (if cur =? INODE_NULL then zero_map else map_at (blocks o) cur) =? INODE_NULL) &&
                   negb (cur =? INODE_NULL) then
                 _ ← need (write_map_block dev cur (BlockMap m (b_blocks (if cur =? INODE_NULL then zero_map
                   else map_at (blocks o) cur)))) EACCES INODE_FAIL; mret m
               else if cur =? INODE_NULL then
                 _ ← need (write_inode dev (self (node (blocks o) d)) (put_next m (node (blocks o) d))) EACCES INODE_FAIL;
                 mret m
               else mret (b_next (if cur =? INODE_NULL then zero_map else map_at (blocks o) cur))); K next) t1 = K m t2) /\
    good dev root (alloc_cost S dev root + 1 + k) (3 + w) (base t2) /\
    wrote t1 (hook o d cur m).1 (hook o d cur m).2 t2) as (t2 & E2 & Hg2 & Hw2).
  { unfold hook. destruct (Z.eqb_spec cur INODE_NULL) as [->|Hne].
    - rewrite andb_false_r.
      destruct (run_write_as inode_codec t1 t1 (alloc_cost S dev root + 1 + k) (3 + w) Inodes d
        (put_next m (node (blocks o) d)) EACCES INODE_FAIL eq_refl (cok_put_next _ _ Hc Hmr) (kept_refl t1))
        as (t2 & E2 & Hg2 & Hw2); [eapply good_weaken; [| |exact Hg1]; lia|done|].
      exists t2. split; [|done]. intros K. rewrite Hself. erewrite er_step; [done|]. cbv beta iota.
      etrans; [apply er_step; exact E2|done].
    - destruct Hcur as [?|(Hcv & Hcc & Hcn)]; [done|]. rewrite Hcn. cbn [Z.eqb negb andb].
      destruct (run_write_as block_map_t_codec t1 t1 (alloc_cost S dev root + 1 + k) (3 + w) Data cur
        (BlockMap m (b_blocks (map_at (blocks o) cur))) EACCES INODE_FAIL eq_refl (cok_map_next _ _ Hcc Hmr) (kept_refl t1))
        as (t2 & E2 & Hg2 & Hw2); [eapply good_weaken; [| |exact Hg1]; lia|done|].
      exists t2. split; [|done]. intros K. erewrite er_step; [done|]. etrans; [apply er_step; exact E2|done]. }
  rewrite E2. clear E2. destruct Hw2 as [Hv2 Hu2].
  destruct (run_alloc Inodes t2 t2 (1 + k) (1 + w) m (kept_refl t2)) as (r & x & t3 & E3 & Hg3 & Hv3 & Hu3 & Hr);
    [eapply good_weaken; [| |exact Hg2]; lia|].
  erewrite er_step by (apply stmt_run; exact E3). destruct Hr as [(-> & Hx & Hxf & Hxu)|(-> & ->)]; cbn [fst snd].
  2: { rewrite bool_decide_eq_true_2 by done.
       destruct (run_leave_with (A := Z) t3 t3 _ _ ENOSPC INODE_FAIL (kept_refl t3) Hg3) as (t4 & E4 & Hg4 & _ & He4).
       rewrite E4. apply extended_full; [done|]. eapply good_weaken; [| |exact Hg4]; lia. }
  rewrite bool_decide_eq_false_2 by done. destruct (area_bounds _ _ Hx) as [Hxr _].
  destruct (run_write_as block_map_t_codec t3 t3 k w Data m (first_slot x) EACCES INODE_FAIL eq_refl
    (cok_map_slot zero_map 0 x cok_zero_map Hxr) (kept_refl t3) Hg3 Hm) as (t4 & E4 & Hg4 & Hv4 & Hu4).
  erewrite er_step by exact E4. apply (extended_by o d cur k w m x t4); try done.
  - intros H. apply Hxf. apply Hu2. by apply Hu1.
  - apply Hu4, Hu3, Hu2, Hmu.
  - apply Hu4, Hxu.
  - intros q Hq. by apply Hu4, Hu3, Hu2, Hu1.
  - intros κ q Hq. rewrite (Hv4 κ q Hq). destruct (q =? m); [done|]. rewrite (Hv3 κ q Hq), (Hv2 κ q Hq).
    destruct (q =? _); [done|]. by apply (Hv1 κ).
Qed.

(** *** The entry of the new inode *)

(** The block [x] is entered in the directory [d]: whatever inode is written there
    later, it is an added entry. *)
Definition linked (o t : tree S) (d x : Z) : Prop :=
  valid Inodes x /\ ~ in_use o x /\ in_use t x /\
  forall (v : Z -> list Z) (u : Z -> Prop) n,
    (forall κ q, valid κ q -> q <> x -> v q = blocks t q) -> (forall q, in_use t q -> u q) ->
    cok inode_codec (node v x) -> label v x = Ret n -> i_next (node v x) = INODE_NULL -> self (node v x) = x ->
    added valid (blocks o) (in_use o) v u d x n.

Lemma put_next_self i : put_next (i_next i) i = i.
Proof. by destruct i. Qed.

Lemma dec_map bm : cok block_map_t_codec bm -> dec block_map_t_codec (enc block_map_t_codec bm) = bm.
Proof. apply dec_enc. Qed.

Lemma dec_inode i : cok inode_codec i -> dec inode_codec (enc inode_codec i) = i.
Proof. apply dec_enc. Qed.

Context (o : tree S) (d : Z) (bs l : list Z).
Hypothesis Hok : tree_ok valid root (blocks o) (in_use o).
Hypothesis Hd : reach valid root (blocks o) d.
Hypothesis Hdir : is_dir (node (blocks o) d) = true.
Hypothesis Hl : lists valid (blocks o) d bs l.

Lemma dir_maps : NoDup bs /\ Forall (fun m => in_use o m /\ cok block_map_t_codec (map_at (blocks o) m)) bs.
Proof.
  destruct (ok_maps _ _ _ _ Hok d Hd Hdir) as (bs' & l' & Hl' & H).
  by destruct (lists_det _ _ _ _ _ _ _ Hl Hl') as [-> ->].
Qed.

Lemma map_not_inode m b : (m ∈ bs) -> valid Inodes b -> m <> b.
Proof.
  intros Hm Hb ->. pose proof (lists_maps _ _ _ _ _ Hl) as Hv. rewrite Forall_forall in Hv.
  eapply areas_apart; [by apply Hv|exact Hb].
Qed.

(** A slot of a block map was filled. *)
Lemma linked_slot cur j x t1 t : (cur ∈ bs) -> b_blocks (map_at (blocks o) cur) !! j = Some INODE_NULL ->
  gave Inodes o INODE_OK x t1 ->
  wrote t1 cur (enc block_map_t_codec (BlockMap (b_next (map_at (blocks o) cur))
    (<[j := x]> (b_blocks (map_at (blocks o) cur))))) t ->
  linked o t d x.
Proof.
  intros Hcur Hj (Hv1 & Hu1 & [(_ & Hx & Hxf & Hxu)|[? _]]) [Hv Hu]; [|done].
  destruct (ok_inode _ _ _ _ Hok d Hd) as (Hdv & Hdu & Hdc & _).
  destruct dir_maps as [Hnd Hmaps]. pose proof Hmaps as Hmaps'. rewrite Forall_forall in Hmaps'.
  destruct (area_bounds _ _ Hx) as [Hxr Hx0].
  split; [done|]. split; [done|]. split; [by apply Hu|].
  intros v u n Hvx Hut Hxc Hxl Hxn Hxs.
  assert (forall κ q, valid κ q -> q <> x -> q <> cur -> v q = blocks o q) as Hvo.
  { intros κ q Hq Hqx Hqc. rewrite (Hvx κ), (Hv κ) by done. rewrite (proj2 (Z.eqb_neq _ _) Hqc). by apply (Hv1 κ). }
  assert (d <> x) as Hdx by (intros ->; done).
  assert (v d = blocks o d) as Ed.
  { apply (Hvo Inodes); [done|done|]. intros E. by apply (map_not_inode cur d Hcur Hdv). }
  pose proof (lists_maps _ _ _ _ _ Hl) as Hbv. rewrite Forall_forall in Hbv.
  pose proof (cok_map_slot _ j x (proj2 (Hmaps' cur Hcur)) Hxr) as Hcok.
  assert (map_at v cur = BlockMap (b_next (map_at (blocks o) cur)) (<[j := x]> (b_blocks (map_at (blocks o) cur)))) as Ecur.
  { unfold map_at. rewrite (Hvx Data), (Hv Data), Z.eqb_refl by (try apply Hbv; try done; by apply map_not_inode).
    by apply dec_map. }
  split; [done|intros b Hb; by apply Hut, Hu, Hu1| | |].
  - split; [done|]. split; [done|]. split; [by apply Hut, Hu|done].
  - unfold node. rewrite Ed. by rewrite put_next_self.
  - assert (i_next (node (blocks o) d) <> INODE_NULL /\ listing (blocks o) valid bs (i_next (node (blocks o) d)) l)
      as [Hz Hll].
    { destruct Hl as [(_ & E & _)|?]; [|done]. rewrite E in Hcur. by apply elem_of_nil in Hcur. }
    destruct (listing_insert valid (blocks o) v bs _ l cur j x Hll Hnd Hcur) as (l1 & l2 & El & Hll'); [|done..|].
    { intros q Hq Hne. apply (Hvo Data); [by apply Hbv|by apply map_not_inode|done]. }
    exists bs, bs, l1, l2. split; [rewrite <- El; by right|]. split; [right; unfold node; by rewrite Ed|]. split; [done|]. split; [lia|].
    split.
    + apply Forall_forall. intros m Hm. split; [by left|]. split; [apply Hut, Hu, Hu1; by apply Hmaps'|].
      destruct (decide (m = cur)) as [->|Hne]; [by rewrite Ecur|].
      unfold map_at. rewrite (Hvo Data m); [by apply Hmaps'|by apply Hbv|by apply map_not_inode|done].
    + intros κ q Hq Hqu Hqd Hqm. apply (Hvo κ); [done|by intros ->|by intros ->].
Qed.

Lemma first_slot_spec x : x <> INODE_NULL -> b_next (first_slot x) = INODE_NULL /\ entries (first_slot x) = [x].
Proof.
  intros Hx. unfold first_slot. rewrite zero_map_spec. split; [done|]. unfold entries. cbn [b_blocks].
  change BMAP_BLOCKS with (Datatypes.S (BMAP_BLOCKS - 1)). cbn [replicate list_insert insert].
  rewrite filter_cons_True by done. f_equal.
Qed.

(** A block map was added. *)
Lemma linked_extended cur m x t :
  cur = INODE_NULL /\ bs = [] /\ l = [] \/ valid Data cur /\ (exists bs0, bs = bs0 ++ [cur]) ->
  valid Data m -> valid Inodes x -> ~ in_use o m -> ~ in_use o x -> in_use t m -> in_use t x ->
  (forall q, in_use o q -> in_use t q) ->
  (forall κ q, valid κ q -> blocks t q = if q =? m then enc block_map_t_codec (first_slot x)
     else if q =? (hook o d cur m).1 then (hook o d cur m).2 else blocks o q) ->
  linked o t d x.
Proof.
  intros Hcur Hm Hx Hmf Hxf Hmu Hxu Hu Hv.
  destruct (ok_inode _ _ _ _ Hok d Hd) as (Hdv & Hdu & Hdc & _).
  destruct dir_maps as [Hnd Hmaps]. pose proof Hmaps as Hmaps'. rewrite Forall_forall in Hmaps'.
  destruct (area_bounds _ _ Hx) as [Hxr Hx0]. destruct (area_bounds _ _ Hm) as [Hmr Hm0].
  destruct (first_slot_spec x Hx0) as [Hfn Hfe].
  assert (m <> x) as Hmx by (intros E; rewrite E in Hm; by eapply areas_apart).
  assert (m <> d) as Hmd by (intros E; rewrite E in Hm; by eapply areas_apart).
  assert (d <> x) as Hdx by (intros E; rewrite <- E in Hxf; done).
  pose proof (lists_maps _ _ _ _ _ Hl) as Hbv. rewrite Forall_forall in Hbv.
  assert (m ∉ bs) as Hmbs by (intros Hin; apply Hmf; by apply Hmaps').
  split; [done|]. split; [done|]. split; [done|].
  intros v u n Hvx Hut Hxc Hxl Hxn Hxs.
  assert (map_at v m = first_slot x) as Em.
  { unfold map_at. rewrite (Hvx Data), (Hv Data), Z.eqb_refl by done. apply dec_map.
    by apply cok_map_slot; [apply cok_zero_map|]. }
  assert (cok block_map_t_codec (map_at v m)) as Ecm.
  { rewrite Em. by apply cok_map_slot; [apply cok_zero_map|]. }
  assert (forall κ q, valid κ q -> q <> x -> q <> m -> q <> (hook o d cur m).1 -> v q = blocks o q) as Hvo.
  { intros κ q Hq Hqx Hqm Hqh. rewrite (Hvx κ), (Hv κ) by done.
    rewrite (proj2 (Z.eqb_neq _ _) Hqm), (proj2 (Z.eqb_neq _ _) Hqh). done. }
  assert (valid Inodes x /\ x <> INODE_NULL /\ u x /\ cok inode_codec (node v x) /\ label v x = Ret n /\
    i_next (node v x) = INODE_NULL /\ self (node v x) = x) as Hnode by (split_and!; auto).
  assert (forall q, in_use o q -> u q) as Huo by auto.
  destruct Hcur as [(Ec & Ebs & El)|(Hcv & bs0 & Ebs)].
  - assert (hook o d cur m = (d, enc inode_codec (put_next m (node (blocks o) d)))) as Eh by (unfold hook; by rewrite Ec).
    rewrite Eh in Hv, Hvo. cbn [fst snd] in Hv, Hvo.
    assert (node v d = put_next m (node (blocks o) d)) as Ed.
    { unfold node at 1. rewrite (Hvx Inodes), (Hv Inodes), (proj2 (Z.eqb_neq d m)), Z.eqb_refl by auto.
      apply dec_inode. by apply cok_put_next. }
    assert (i_next (node v d) = m) as Edn by (rewrite Ed; by destruct (node (blocks o) d)).
    split; [done|done|done| |].
    + rewrite Edn, Ed. split; [done|]. by apply cok_put_next.
    + exists [], [m], [], []. split.
      { left. pose proof Hl as Hl1. destruct Hl1 as [(Hz & _)|(_ & Hll)]; [done|]. rewrite Ebs in Hll. inversion Hll. }
      split; [|split; [by apply NoDup_singleton|split; [cbn; lia|split]]].
      * right. rewrite Edn. split; [done|]. cbn [app]. rewrite <- Hfe, <- Em.
        constructor; [done| |by rewrite Em]. rewrite Em, Hfe. by constructor.
      * constructor; [|done]. split; [by right|]. split; [by auto|done].
      * intros κ q Hq Hqu Hqd _. apply (Hvo κ); [done|intros E; by rewrite E in Hqu|intros E; by rewrite E in Hqu|done].
  - destruct (area_bounds _ _ Hcv) as [_ Hc0].
    assert (hook o d cur m = (cur, enc block_map_t_codec (BlockMap m (b_blocks (map_at (blocks o) cur))))) as Eh.
    { unfold hook. by rewrite (proj2 (Z.eqb_neq _ _) Hc0). }
    rewrite Eh in Hv, Hvo. cbn [fst snd] in Hv, Hvo.
    assert (cur ∈ bs) as Hcb by (rewrite Ebs; apply elem_of_app; right; by left).
    assert (cur <> m) as Hcm by (intros E; by rewrite E in Hcb).
    assert (v d = blocks o d) as Ed.
    { apply (Hvo Inodes); [done|done|done|]. intros E. by apply (map_not_inode cur d Hcb Hdv). }
    pose proof (cok_map_next _ m (proj2 (Hmaps' cur Hcb)) Hmr) as Hcok.
    assert (map_at v cur = BlockMap m (b_blocks (map_at (blocks o) cur))) as Ecur.
    { unfold map_at. rewrite (Hvx Data), (Hv Data), (proj2 (Z.eqb_neq _ _) Hcm), Z.eqb_refl by (try done; by apply map_not_inode).
      by apply dec_map. }
    assert (i_next (node (blocks o) d) <> INODE_NULL /\ listing (blocks o) valid (bs0 ++ [cur]) (i_next (node (blocks o) d)) l)
      as [Hz Hll].
    { destruct Hl as [(_ & E & _)|[? ?]]; [|by rewrite <- Ebs]. rewrite E in Hcb. by apply elem_of_nil in Hcb. }
    assert (NoDup (bs0 ++ [cur; m])) as Hnd'.
    { change [cur; m] with ([cur] ++ [m]). rewrite app_assoc, <- Ebs. apply NoDup_app. split; [done|].
      split; [|by apply NoDup_singleton]. intros q Hq ->%list_elem_of_singleton. done. }
    split; [done|done|done|unfold node; rewrite Ed; by rewrite put_next_self|].
    exists bs, (bs0 ++ [cur; m]), l, []. rewrite app_nil_r. split; [done|].
    assert (forall q, q ∈ bs0 ++ [cur; m] -> (q ∈ bs) \/ q = m) as Hin.
    { intros q Hq. rewrite Ebs. apply elem_of_app in Hq as [Hq|[->|[->|Hq]%elem_of_cons]%elem_of_cons].
      - left. apply elem_of_app. by left.
      - left. apply elem_of_app. right. by left.
      - by right.
      - by apply elem_of_nil in Hq. }
    split; [|split; [done|split; [|split]]].
    + right. unfold node. rewrite Ed. split; [done|].
      apply (listing_extend valid (blocks o) v bs0 _ l cur m x Hll Hnd'); [|done|done|done|by rewrite Em|by rewrite Em|done].
      intros q Hq. assert (q ∈ bs) as Hqb by (rewrite Ebs; apply elem_of_app; by left).
      apply (Hvo Data); [by apply Hbv|by apply map_not_inode|intros E; by rewrite E in Hqb|].
      intros E. rewrite Ebs in Hnd. apply NoDup_app in Hnd as (_ & Hdis & _). apply (Hdis q Hq). rewrite E. by left.
    + rewrite Ebs, !length_app. cbn [length]. lia.
    + apply Forall_forall. intros q Hq. destruct (Hin q Hq) as [Hqb| ->].
      * split; [by left|]. split; [by apply Huo, Hmaps'|]. destruct (decide (q = cur)) as [->|Hne]; [by rewrite Ecur|].
        unfold map_at. rewrite (Hvo Data q); [by apply Hmaps'|by apply Hbv|by apply map_not_inode| |done].
        intros E. by rewrite E in Hqb.
      * split; [by right|]. split; [by auto|done].
    + intros κ q Hq Hqu Hqd Hqm. apply (Hvo κ); [done|intros E; by rewrite E in Hqu|intros E; by rewrite E in Hqu|].
      intros E. by rewrite E in Hqm.
Qed.

(** No inode or no block is left, or the entry is made. *)
Inductive entered (k w : nat) : outcome ((inode_rtvl + Z) * tree S) -> Prop :=
| entered_full t : the_errno t = ENOSPC -> good dev root k w (base t) -> entered k w (Ret (inl INODE_FAIL, t))
| entered_at x t : linked o t d x -> good dev root k w (base t) -> entered k w (Ret (inr x, t)).

Lemma extended_entered cur k w r : cur = INODE_NULL /\ bs = [] /\ l = [] \/ valid Data cur /\ (exists bs0, bs = bs0 ++ [cur]) ->
  extended o d cur k w r -> entered k w r.
Proof.
  intros Hc [t He Hg|m x t H1 H2 H3 H4 H5 H6 H7 H8 Hg]; [by apply entered_full|].
  apply entered_at; [|done]. by apply (linked_extended cur m x t).
Qed.

Lemma run_add_entry fuel t k w : kept o t -> (length bs <= fuel)%nat ->
  good dev root (1 + length bs + (2 * alloc_cost S dev root + 2 + k)) (6 + w) (base t) ->
  entered k w (add_entry fuel dev d t).
Proof.
  intros Ho Hfuel Hg. destruct (ok_inode _ _ _ _ Hok d Hd) as (Hdv & Hdu & Hdc & Hds & _).
  destruct dir_maps as [Hnd Hmaps]. pose proof Hmaps as Hmaps'. rewrite Forall_forall in Hmaps'.
  unfold add_entry.
  destruct (run_inode o t (length bs + (2 * alloc_cost S dev root + 2 + k)) (5 + w) d zero_inode EACCES INODE_FAIL Ho)
    as (t1 & E1 & Hg1 & Ho1); [eapply good_weaken; [| |exact Hg]; lia|done|].
  erewrite er_step by exact E1. pose proof Hl as Hl'. destruct Hl' as [(Hz & Eb & El)|(Hz & Hll)].
  - rewrite Hz. cbn [Z.eqb]. apply (extended_entered INODE_NULL); [by left|].
    rewrite Z.eqb_refl. apply (run_new_slot o t1 d INODE_NULL k w); [done..|by left|].
    eapply good_weaken; [| |exact Hg1]; lia.
  - rewrite (proj2 (Z.eqb_neq _ _) Hz).
    assert (Forall (fun m => cok block_map_t_codec (map_at (blocks o) m)) bs) as Hc.
    { eapply Forall_impl; [exact Hmaps|]. by intros m []. }
    pose proof (run_free_slot o bs _ l Hll Hc fuel t1 (alloc_cost S dev root + 1 + k) (3 + w) Ho1 Hfuel) as Hs.
    specialize (Hs ltac:(eapply good_weaken; [| |exact Hg1]; lia)).
    destruct (free_slot fuel dev _ t1) eqn:Es in Hs; inversion Hs as [t2 He Hg2 Er|cur j x t2 t3 Hcur Hj Hga bm Hw Hg2 Er|bs0 last t2 Eb Ho2 Hn Hg2 Er]; subst a.
    + erewrite er_exit by exact Es. apply entered_full; [done|]. eapply good_weaken; [| |exact Hg2]; lia.
    + erewrite er_step by exact Es. pose proof Hga as (_ & _ & [(_ & Hx & _)|[? _]]); [|done].
      destruct (area_bounds _ _ Hx) as [_ Hx0]. rewrite (proj2 (Z.eqb_neq _ _) Hx0).
      apply entered_at; [by eapply linked_slot|]. eapply good_weaken; [| |exact Hg2]; lia.
    + erewrite er_step by exact Es. cbv beta iota. rewrite Z.eqb_refl.
      assert (last ∈ bs) as Hlb by (rewrite Eb; apply elem_of_app; right; by left).
      pose proof (lists_maps _ _ _ _ _ Hl) as Hbv. rewrite Forall_forall in Hbv.
      destruct (area_bounds _ _ (Hbv last Hlb)) as [_ Hl0].
      apply (extended_entered last); [right; split; [by apply Hbv|by exists bs0]|].
      pose proof (run_new_slot o t2 d last k w Ho2 Hdv Hdc Hds) as Hn2. rewrite (proj2 (Z.eqb_neq _ _) Hl0) in Hn2.
      apply Hn2; [right; split; [by apply Hbv|split; [by apply Hmaps'|done]]|].
      eapply good_weaken; [| |exact Hg2]; lia.
Qed.
End Runs.

(** ** The new inode *)

(** The inode [inode_create] writes for a file or a directory. *)
Definition made (mark : inode -> inode) (now x d : Z) (p : list Z) (perm umask group owner : Z) : inode :=
  put_owner group owner (put_place x d (inode_set_timestamps now
    (inode_set_permissions (put_path p (mark zero_inode)) perm umask))).

Lemma zero_inode_spec : zero_inode = Inode 0 0 0 0 0 0 0 0 0 0 0 0 0 0 [0; 0] 0 0 0 0 0 0 0 0 0 0 0 0 0 0 0
  (replicate MAX_PATH 0) (replicate INODE_PAD 0) [0; 0] 0.
Proof. vm_compute. reflexivity. Qed.

Lemma zeros_bytes k : Forall byte (replicate k 0).
Proof. by apply Forall_replicate. Qed.

Definition file_or_dir (mark : inode -> inode) : Prop := mark = mark_file \/ mark = mark_directory.

Lemma cok_made mark now x d p perm umask group owner : file_or_dir mark ->
  0 <= now < 4294967296 -> 0 <= x < 4294967296 -> 0 <= d < 4294967296 ->
  0 <= group < 4294967296 -> 0 <= owner < 4294967296 ->
  length p = MAX_PATH -> Forall byte p -> cok inode_codec (made mark now x d p perm umask group owner).
Proof.
  intros Hm Hn Hx Hd Hg Ho Hl Hp. unfold made. rewrite set_permissions_flags. cbv zeta.
  assert (forall b, - (256 ^ Z.of_nat 1 / 2) <= Z.b2z b < 256 ^ Z.of_nat 1 / 2) as Hb by (by intros []).
  rewrite zero_inode_spec.
  destruct Hm as [-> | ->]; cbn -[MAX_PATH INODE_PAD Z.pow Z.div Z.of_nat replicate class_bit].
  all: repeat first [apply Hb | split]; first [exact Hp | exact Hl | lia | done | apply (zeros_bytes 2) | apply zeros_bytes].
Qed.

Lemma made_fields mark now x d p perm umask group owner : file_or_dir mark ->
  let i := made mark now x d p perm umask group owner in
  i_path i = p /\ i_next i = INODE_NULL /\ self i = x /\ parent i = d /\ i_group i = group /\ i_owner i = owner /\
  is_reg i = is_reg (mark zero_inode) /\ is_dir i = is_dir (mark zero_inode) /\ is_link i = false /\ is_hard i = false /\
  i_size i = 0 /\ refcount i = 0.
Proof.
  intros Hm. cbv zeta. unfold made. rewrite set_permissions_flags. cbv zeta. rewrite zero_inode_spec.
  destruct Hm as [-> | ->]; repeat split.
Qed.

(** The name in its field. *)
Definition padded (n : list Z) : list Z := n ++ 0 :: drop (S (length n)) (i_path zero_inode).

Lemma padded_spec n : name n -> Forall byte n -> (length n < MAX_PATH)%nat ->
  copy_path n (i_path zero_inode) = Ret (padded n) /\ length (padded n) = MAX_PATH /\ Forall byte (padded n) /\
  cstr (padded n) = Ret n.
Proof.
  intros Hn Hb Hl. unfold copy_path, padded. rewrite (proj2 (Nat.ltb_lt _ _)) by done. split; [done|].
  assert (i_path zero_inode = replicate MAX_PATH 0) as -> by (rewrite zero_inode_spec; done).
  split; [rewrite length_app; cbn [length]; rewrite length_drop, length_replicate; lia|]. split.
  - apply Forall_app. split; [done|]. constructor; [done|]. apply Forall_drop, zeros_bytes.
  - apply cstr_app. by apply name_plain.
Qed.

(** ** [inode_create] *)

Definition mark_of (mode : inode_mode) : inode -> inode :=
  match mode with INODE_CREATE_DIR => mark_directory | _ => mark_file end.

(** The arguments of a call: a file or a directory with these owners and this name
    is to be made now. *)
Record request (who : caller) (mode : inode_mode) (group owner : Z) (n : list Z) : Prop := Request {
  req_mode : mode = INODE_CREATE_FILE \/ mode = INODE_CREATE_DIR;
  req_now : 0 <= c_now who < 4294967296;
  req_group : 0 <= group < 4294967296;
  req_owner : 0 <= owner < 4294967296;
  req_name : proper n;
  req_bytes : Forall byte n;
  req_length : (length n < MAX_PATH)%nat
}.

Section Create.
Context {S : Type} `{HF : FsOps S} {dev root : Z} {HL : StoreLaws S dev root}.
Context (who : caller) (depth fuel : nat) (mode : inode_mode) (perm umask group owner : Z) (n : list Z).
Hypothesis Hreq : request who mode group owner n.

Abbreviation blocks t := (view dev root (base t)).
Abbreviation in_use t := (used dev root (base t)).
Abbreviation valid := (area S dev root).

Lemma mark_file_or_dir : file_or_dir (mark_of mode).
Proof. destruct (req_mode _ _ _ _ _ Hreq) as [-> | ->]; [by left|by right]. Qed.

(** Either no block is left, or the entry is there with the new inode. *)
Inductive created (o : tree S) (d : Z) (k w : nat) {E} (ok : E) : outcome ((inode_rtvl + E) * tree S) -> Prop :=
| created_full t : the_errno t = ENOSPC -> good dev root k w (base t) -> created o d k w ok (Ret (inl INODE_FAIL, t))
| created_at x t : added valid (blocks o) (in_use o) (blocks t) (in_use t) d x n ->
    node (blocks t) x = made (mark_of mode) (c_now who) x d (padded n) perm umask group owner ->
    good dev root k w (base t) -> created o d k w ok (Ret (inr ok, t)).

Lemma run_make_node o t d x link_path k w : linked o t d x -> valid Inodes d ->
  good dev root (2 + k) (1 + w) (base t) ->
  exists t', make_node who depth fuel dev x d n mode perm umask group owner link_path t = Ret (inr tt, t') /\
    good dev root k w (base t') /\ added valid (blocks o) (in_use o) (blocks t') (in_use t') d x n /\
    node (blocks t') x = made (mark_of mode) (c_now who) x d (padded n) perm umask group owner.
Proof.
  intros (Hx & Hxf & Hxu & Hlink) Hd Hg. destruct Hreq as [Hmode Hnow Hgr How Hn Hb Hlen].
  destruct (padded_spec n (proj1 Hn) Hb Hlen) as (Hp & Hpl & Hpb & Hpc).
  destruct (area_bounds _ _ Hx) as [Hxr Hx0]. destruct (area_bounds _ _ Hd) as [Hdr _].
  set (i := made (mark_of mode) (c_now who) x d (padded n) perm umask group owner).
  assert (cok inode_codec i) as Hi by (by apply cok_made; [apply mark_file_or_dir|..]).
  destruct (run_read_as inode_codec t t (1 + k) w Inodes d zero_inode (kept_refl t)) as (t1 & E1 & Hg1 & Ht1);
    [eapply good_weaken; [| |exact Hg]; lia|done|].
  destruct (run_write_as inode_codec t1 t1 k w Inodes x i EACCES INODE_FAIL eq_refl Hi (kept_refl t1) Hg1 Hx)
    as (t2 & E2 & Hg2 & Hv2 & Hu2).
  assert (inode_set_parent_mod_time dev d t = Ret (INODE_OK, t1)) as Em.
  { unfold inode_set_parent_mod_time, read_inode. by erewrite st_step by exact E1. }
  assert (new_inode who (mark_of mode) dev x d n perm umask group owner t = Ret (inr i, t1)) as En.
  { unfold new_inode. erewrite er_step by (apply stmt_lift; exact Hp).
    erewrite er_step by (apply stmt_run; exact Em). done. }
  exists t2. split.
  { unfold make_node, mark_of in *.
    destruct Hmode as [-> | ->]; erewrite er_step by exact En; exact E2. }
  split; [done|].
  assert (node (blocks t2) x = i) as Ex.
  { unfold node. rewrite (Hv2 Inodes), Z.eqb_refl by done. by apply dec_inode. }
  split; [|done].
  destruct (made_fields (mark_of mode) (c_now who) x d (padded n) perm umask group owner mark_file_or_dir)
    as (Fp & Fn & Fs & _). fold i in Fp, Fn, Fs.
  apply Hlink; [|intros q Hq; apply Hu2; by apply (proj1 (proj2 Ht1))|by rewrite Ex|unfold label; by rewrite Ex, Fp|by rewrite Ex|by rewrite Ex].
  intros κ q Hq Hne. rewrite (Hv2 κ q Hq), (proj2 (Z.eqb_neq _ _) Hne). by apply (proj1 Ht1 κ).
Qed.

(** The target directory and what the caller may do with it. *)
Definition target (o : tree S) (d : Z) (bs l : list Z) : Prop :=
  reach valid root (blocks o) d /\ is_dir (node (blocks o) d) = true /\ is_link (node (blocks o) d) = false /\
  inode_check_permissions (node (blocks o) d) 0 0 (c_group who) (c_owner who) INODE_RWX = true /\
  lists valid (blocks o) d bs l /\ find_name (blocks o) n l = Ret None /\ (length bs <= fuel)%nat.

Definition create_cost (bs l : list Z) : nat :=
  1 + (length bs + length l) + (1 + length bs) + 2 * alloc_cost S dev root + 4.

Lemma run_create_last o t d bs l link_path k w : tree_ok valid root (blocks o) (in_use o) -> target o d bs l ->
  kept o t -> good dev root (create_cost bs l + k) (7 + w) (base t) ->
  created o d k w INODE_OK (create_walk who depth fuel dev [n] d mode perm umask group owner link_path t).
Proof.
  intros Hok (Hd & Hdir & Hlk & Hp & Hl & Hf & Hfuel) Ho Hg. unfold create_cost in Hg.
  destruct (ok_inode _ _ _ _ Hok d Hd) as (Hdv & _). cbn [create_walk].
  destruct (run_inode o t (length bs + length l + (1 + length bs + (2 * alloc_cost S dev root + 2 + (2 + k)))) (6 + w)
    d zero_inode EACCES INODE_FAIL Ho) as (t1 & E1 & Hg1 & Ho1); [eapply good_weaken; [| |exact Hg]; lia|done|].
  erewrite er_step by exact E1. rewrite Hdir. cbn [orb negb]. unfold follow. rewrite Hlk.
  erewrite er_step by reflexivity.
  change (inode_check_permissions (node (blocks o) d) perm umask (c_group who) (c_owner who) INODE_RWX)
    with (inode_check_permissions (node (blocks o) d) 0 0 (c_group who) (c_owner who) INODE_RWX).
  rewrite Hp. cbn [negb].
  assert (exists p t2, (if i_next (node (blocks o) d) =? INODE_NULL then mret (INODE_NULL, zero_inode)
      else scan_chain fuel INODE_FAIL dev n (i_next (node (blocks o) d)) zero_inode) t1 = Ret (inr p, t2) /\
    good dev root (1 + length bs + (2 * alloc_cost S dev root + 2 + (2 + k))) (7 + w) (base t2) /\ kept o t2 /\
    p.1 = INODE_NULL) as (p & t2 & E2 & Hg2 & Ho2 & Hp2).
  { destruct Hl as [(Hz & -> & ->)|(Hz & Hll)].
    - rewrite Hz. exists (INODE_NULL, zero_inode), t1. split; [done|]. split; [|done].
      eapply good_weaken; [| |exact Hg1]; lia.
    - rewrite (proj2 (Z.eqb_neq _ _) Hz).
      destruct (run_scan_chain INODE_FAIL o n bs _ l None Hll Hf fuel t1
        (1 + length bs + (2 * alloc_cost S dev root + 2 + (2 + k))) (6 + w) zero_inode Ho1 Hfuel Hg1) as (p & t2 & E2 & Hg2 & Ho2 & Hh).
      exists p, t2. done. }
  erewrite er_step by exact E2. rewrite Hp2, Z.eqb_refl. cbn [negb].
  pose proof (run_add_entry o d bs l Hok Hd Hdir Hl fuel t2 (2 + k) (1 + w) Ho2 Hfuel Hg2) as He.
  destruct (add_entry fuel dev d t2) as [[r t3]| | |] eqn:Ea; inversion He as [t3' Hfull Hg3|x t3' Hlink Hg3]; subst.
  - erewrite er_exit by exact Ea. apply created_full; [done|]. eapply good_weaken; [| |exact Hg3]; lia.
  - erewrite er_step by exact Ea.
    destruct (run_make_node o t3 d x link_path k w Hlink Hdv Hg3) as (t4 & E4 & Hg4 & Hadd & Hx).
    erewrite er_step by exact E4. by apply created_at with x.
Qed.

(** The way to the directory. *)
Lemma run_create_walk o c d0 ns d link_path : leads (blocks o) valid who fuel c d0 ns d -> forall t k w,
  kept o t -> good dev root (c + k) (1 + w) (base t) ->
  exists t', kept o t' /\ good dev root k (1 + w) (base t') /\
    create_walk who depth fuel dev (ns ++ [n]) d0 mode perm umask group owner link_path t =
      create_walk who depth fuel dev [n] d mode perm umask group owner link_path t'.
Proof.
  assert (forall c d l m ms e t k w, directory (blocks o) valid who fuel c d l -> find_name (blocks o) m l = Ret (Some e) ->
    ms <> [] -> kept o t -> good dev root (c + k) (1 + w) (base t) ->
    exists t', kept o t' /\ good dev root k (1 + w) (base t') /\
      create_walk who depth fuel dev (m :: ms) d mode perm umask group owner link_path t =
        create_walk who depth fuel dev ms e mode perm umask group owner link_path t') as Hstep.
  { intros c1 d1 l m ms e t k w Hde Hf Hms Ho Hg. pose proof (find_nonzero _ _ _ _ _ _ _ _ Hde Hf) as Hne.
    destruct Hde as (Hd & Hdir & Hlink & Hperm & Hnext & bs & Hm & Hl & ->).
    destruct (run_inode o t (length bs + length l + k) w d1 zero_inode EACCES INODE_FAIL Ho)
      as (t1 & E1 & Hg1 & Ho1); [eapply good_weaken; [| |exact Hg]; lia|done|].
    destruct (run_scan_chain INODE_FAIL o m bs _ l (Some e) Hl Hf fuel t1 k w zero_inode Ho1 Hm Hg1)
      as (p & t' & E' & Hg' & Ho' & Hp).
    exists t'. split; [done|]. split; [done|]. cbn [create_walk].
    erewrite er_step by exact E1. rewrite Hdir. cbn [orb negb]. unfold follow. rewrite Hlink.
    erewrite er_step by reflexivity. destruct ms as [|m' ms]; [done|].
    change (inode_check_permissions (node (blocks o) d1) perm umask (c_group who) (c_owner who) INODE_RX)
      with (inode_check_permissions (node (blocks o) d1) 0 0 (c_group who) (c_owner who) INODE_RX).
    rewrite Hperm, (proj2 (Z.eqb_neq _ _) Hnext). cbn [negb].
    erewrite er_step by exact E'. cbn [hit] in Hp. rewrite Hp. cbn [fst]. by rewrite Hne. }
  induction 1 as [c d0 l m d Hde Hf|c c' d0 l m e ns d Hde Hf Hl IH]; intros t k w Ho Hg.
  - by apply (Hstep c d0 l m [n] d t k w).
  - destruct (Hstep c d0 l m (ns ++ [n]) e t (c' + k)%nat w) as (t1 & Ho1 & Hg1 & E1); [done|done|by destruct ns|done| |].
    { eapply good_weaken; [| |exact Hg]; lia. }
    destruct (IH t1 k w Ho1 Hg1) as (t' & Ho' & Hg' & E'). exists t'. split; [done|]. split; [done|].
    rewrite <- app_comm_cons, E1. exact E'.
Qed.

Lemma rwx_rx i group' owner' : inode_check_permissions i 0 0 group' owner' INODE_RWX = true ->
  inode_check_permissions i 0 0 group' owner' INODE_RX = true.
Proof.
  unfold inode_check_permissions, check_classes. intros H.
  destruct (owner' =? i_owner i), (truth (user_read i)), (truth (user_write i)), (truth (user_execute i));
  destruct (group' =? i_group i), (truth (group_read i)), (truth (group_write i)), (truth (group_execute i));
  destruct (truth (world_read i)), (truth (world_write i)), (truth (world_execute i)); done.
Qed.

(** The new tree. *)
Definition made_entry (o t : tree S) (ns : list (list Z)) (d : Z) : Prop :=
  exists x, ~ in_use o x /\
    node (blocks t) x = made (mark_of mode) (c_now who) x d (padded n) perm umask group owner /\
    tree_ok valid root (blocks t) (in_use t) /\
    (exists c, leads (blocks t) valid who (1 + fuel) c root (ns ++ [n]) x) /\
    (forall c ms y, leads (blocks o) valid who fuel c root ms y ->
       exists c', leads (blocks t) valid who (1 + fuel) c' root ms y).

Lemma added_made_entry o t ns d bs l x c : tree_ok valid root (blocks o) (in_use o) -> target o d bs l ->
  ns = [] /\ d = root \/ leads (blocks o) valid who fuel c root ns d ->
  added valid (blocks o) (in_use o) (blocks t) (in_use t) d x n ->
  node (blocks t) x = made (mark_of mode) (c_now who) x d (padded n) perm umask group owner ->
  made_entry o t ns d.
Proof.
  intros Hok (Hd & Hdir & Hlk & Hp & Hl & Hf & Hfuel) Hns Hadd Hx.
  assert (exists bs l, lists valid (blocks o) d bs l /\ find_name (blocks o) n l = Ret None) as Hmiss by (by exists bs, l).
  exists x. split; [apply Hadd|]. split; [done|].
  split; [exact (added_ok valid root (blocks o) (blocks t) _ _ d x n areas_apart Hok Hd Hdir Hadd)|]. split.
  - destruct (added_entry valid root (blocks o) (blocks t) _ _ d x n areas_apart Hok Hd Hdir Hadd who Hmiss fuel Hlk (rwx_rx _ _ _ Hp))
      as [c1 Hlast].
    { intros bs' l' Hl'. by destruct (lists_det _ _ _ _ _ _ _ Hl' Hl) as [-> _]. }
    destruct Hns as [[-> ->]|Hns]; [by exists c1|].
    destruct (added_leads valid root (blocks o) (blocks t) _ _ d x n areas_apart Hok Hd Hdir Hadd who Hmiss fuel c root ns d
      (reach_root _ _ _) Hns) as [c2 Hway].
    exists (c2 + c1)%nat. by eapply leads_app.
  - intros c1 ms y Hy.
    by apply (added_leads valid root (blocks o) (blocks t) _ _ d x n areas_apart Hok Hd Hdir Hadd who Hmiss fuel c1 root ms y
      (reach_root _ _ _)).
Qed.

End Create.
