(* ===== verification/LinkSpec.v ===== *)
(** * Links and the clean-up of directories

    [kreadlink] follows a link to an inode; its counter comes back to what it was
    only when it succeeds.  The clean-up of [inode_free] forgets to move the head
    of a chain. *)

From S2P Require Import Prelude Errno Layout Perms Alloc Store StoreSpec Paths PathsSpec Tree TreeSpec CreateSpec.

Section Runs.
Context {S : Type} `{HF : FsOps S} {dev root : Z} {HL : StoreLaws S dev root}.
Context (who : caller).

Abbreviation blocks t := (view dev root (base t)).
Abbreviation in_use t := (used dev root (base t)).
Abbreviation valid := (area S dev root).

(** A link in block [b] with the absolute path of [ns] as its text. *)
Definition links_to (o : tree S) (b : Z) (ns : list (list Z)) : Prop :=
  valid Inodes b /\ (is_link (node (blocks o) b) || is_hard (node (blocks o) b)) = true /\
  valid Data (i_next (node (blocks o) b)) /\
  cstr (l_path (dec link_t_codec (blocks o (i_next (node (blocks o) b))))) = Ret (rooted ns).

(** The counter is [k] higher, the blocks are the same. *)
Definition counted (k : Z) (o t : tree S) : Prop :=
  (forall κ b, valid κ b -> blocks t b = blocks o b) /\ (forall b, in_use t b <-> in_use o b) /\
  nr_recursion t = nr_recursion o + k.

Definition deeper (o : tree S) : tree S := Tree (base o) (i32 (nr_recursion o + 1)).

(** What [kreadlink] does before it looks the target up. *)
Lemma run_kreadlink get_path o b ns k w : links_to o b ns -> Forall proper ns ->
  (length (rooted ns) + 3 <= MAX_PATH)%nat -> 0 <= nr_recursion o < MAX_RECURSION ->
  good dev root (2 + k) (1 + w) (base o) ->
  exists t, kept (deeper o) t /\ good dev root k (1 + w) (base t) /\
    forall e t', (r ← stmt (get_path dev b (rooted ns) true INODE_DONTCHECKPERMS);
        match r with
        | (INODE_OK, Some i) => _ ← stmt (set_recursion (fun n => n - 1)); mret (self i)
        | _ => leave_with EINVAL INODE_NULL
        end) t = Ret (inr e, t') \/
      (r ← stmt (get_path dev b (rooted ns) true INODE_DONTCHECKPERMS);
        match r with
        | (INODE_OK, Some i) => _ ← stmt (set_recursion (fun n => n - 1)); mret (self i)
        | _ => leave_with EINVAL INODE_NULL
        end) t = Ret (inl e, t') ->
      kreadlink get_path dev b o = Ret (e, t').
Proof.
  intros (Hb & Hlk & Hn & Htext) Hns Hlen Hnr Hg. change (base o) with (base (deeper o)) in Hg, Hlk, Hn, Htext.
  destruct (run_inode (deeper o) (deeper o) (1 + k) w b zero_inode EACCES INODE_NULL (kept_refl _) Hg Hb) as (t1 & E1 & Hg1 & Ho1).
  destruct (run_read_as link_t_codec (deeper o) t1 k w Data _ zero_link Ho1 Hg1 Hn) as (t2 & E2 & Hg2 & Ho2).
  destruct (run_put_errno (deeper o) t2 _ _ EOK Ho2 Hg2) as (t3 & E3 & Hg3 & Ho3 & _).
  exists t3. split; [done|]. split; [done|]. intros e t' Hr. unfold kreadlink. apply returned_run.
  assert (i32 (nr_recursion o + 1) = nr_recursion o + 1) as Hi by (apply i32_small; unfold MAX_RECURSION in Hnr; lia).
  erewrite er_step by (apply stmt_run; reflexivity). erewrite er_step by reflexivity.
  change (Tree (base o) (i32 (nr_recursion o + 1))) with (deeper o).
  rewrite (proj2 (Z.ltb_ge _ _)) by (cbn [nr_recursion deeper]; rewrite Hi; lia).
  erewrite er_step by exact E1. rewrite Hlk. cbn [negb].
  erewrite er_step by (apply run_need_val; exact E2).
  erewrite er_step by (apply stmt_lift; exact Htext).
  assert (exists q, ncopy_path (rooted ns) (replicate MAX_PATH 0) = Ret q) as [q Hq].
  { unfold ncopy_path. rewrite (proj2 (Nat.ltb_lt _ _)) by lia. eauto. }
  erewrite er_step by (apply stmt_lift; exact Hq).
  erewrite er_step. 2: { apply stmt_run. rewrite krealpath_rooted by done. by erewrite st_step by exact E3. }
  exact Hr.
Qed.

(** [kreadlink] of a link whose target exists gives the target's block number, and
    the counter of the recursion is back where it was. *)
Theorem kreadlink_correct o depth fuel b ns y c k w : links_to o b ns -> Forall proper ns ->
  (length (rooted ns) + 3 <= MAX_PATH)%nat -> rooted_at o -> 0 <= nr_recursion o < MAX_RECURSION ->
  good dev root (3 + c + k) (1 + w) (base o) -> leads (blocks o) valid who fuel c root ns y ->
  is_link (node (blocks o) y) = false /\ is_hard (node (blocks o) y) = false ->
  exists t', kreadlink (inode_get who (1 + depth) fuel) dev b o = Ret (self (node (blocks o) y), t') /\
    good dev root k (1 + w) (base t') /\ counted 0 o t'.
Proof.
  intros Hl Hns Hlen Hroot Hnr Hg Hy Hno.
  destruct (run_kreadlink (inode_get who (1 + depth) fuel) o b ns (1 + c + k) w Hl Hns Hlen Hnr) as (t & Ho & Hgt & Hrun);
    [eapply good_weaken; [| |exact Hg]; lia|].
  assert (rooted_at (deeper o)) as Hroot' by exact Hroot.
  destruct (get_found who (deeper o) t depth fuel b ns true INODE_DONTCHECKPERMS c y k w Ho Hns Hlen Hroot' Hgt Hy)
    as (t1 & E1 & Hg1 & Ho1); [by right|done|].
  exists (Tree (base t1) (i32 (nr_recursion t1 - 1))). split; [|split; [done|]].
  - apply Hrun. left. erewrite er_step by (apply stmt_run; exact E1). cbv beta iota.
    erewrite er_step by (apply stmt_run; reflexivity). done.
  - destruct Ho1 as (Hv & Hu & Hn). split; [exact Hv|]. split; [exact Hu|]. cbn [nr_recursion]. rewrite Hn.
    cbn [nr_recursion deeper]. unfold MAX_RECURSION in Hnr. rewrite !i32_small by (rewrite ?i32_small; lia). lia.
Qed.

(** [kreadlink] of a link whose target does not exist fails with [EINVAL] and leaves
    the counter of the recursion one higher, for good. *)
Theorem kreadlink_leaks o depth fuel b ns c k w : links_to o b ns -> Forall proper ns ->
  (length (rooted ns) + 3 <= MAX_PATH)%nat -> rooted_at o -> 0 <= nr_recursion o < MAX_RECURSION ->
  good dev root (3 + c + k) (1 + w) (base o) -> misses (blocks o) valid who fuel c root ns ->
  exists t', kreadlink (inode_get who (1 + depth) fuel) dev b o = Ret (INODE_NULL, t') /\
    the_errno t' = EINVAL /\ counted 1 o t'.
Proof.
  intros Hl Hns Hlen Hroot Hnr Hg Hy.
  destruct (run_kreadlink (inode_get who (1 + depth) fuel) o b ns (1 + c + k) w Hl Hns Hlen Hnr) as (t & Ho & Hgt & Hrun);
    [eapply good_weaken; [| |exact Hg]; lia|].
  assert (rooted_at (deeper o)) as Hroot' by exact Hroot.
  destruct (get_missing who (deeper o) t depth fuel b ns true INODE_DONTCHECKPERMS c k w Ho Hns Hlen Hroot' Hgt Hy)
    as (t1 & i & E1 & _ & Hg1 & Ho1).
  destruct (run_leave_with (A := Z) (deeper o) t1 _ _ EINVAL INODE_NULL Ho1 Hg1) as (t2 & E2 & Hg2 & Ho2 & He).
  exists t2. split; [|split; [done|]].
  - apply Hrun. right. erewrite er_step by (apply stmt_run; exact E1). exact E2.
  - destruct Ho2 as (Hv & Hu & Hn). split; [exact Hv|]. split; [exact Hu|]. rewrite Hn.
    cbn [nr_recursion deeper]. unfold MAX_RECURSION in Hnr. apply i32_small. lia.
Qed.

(** C99: when every [kreadlink] so far has come back with the counter one too high, the
    1025th is refused with [ELOOP], whatever the link. *)
Theorem kreadlink_refuses get_path b (o : tree S) k w : nr_recursion o = MAX_RECURSION ->
  good dev root k w (base o) ->
  exists t', kreadlink get_path dev b o = Ret (INODE_NULL, t') /\ the_errno t' = ELOOP /\ counted 0 o t'.
Proof.
  intros Hn Hg. destruct (run_put_errno (deeper o) (deeper o) k w ELOOP (kept_refl _) Hg) as (t & E & _ & (Hv & Hu & Hc) & He).
  exists (Tree (base t) (i32 (nr_recursion t - 1))). split; [|split; [exact He|]].
  - unfold kreadlink. apply returned_run. right.
    erewrite er_step by (apply stmt_run; reflexivity). erewrite er_step by reflexivity.
    change (Tree (base o) (i32 (nr_recursion o + 1))) with (deeper o).
    rewrite (proj2 (Z.ltb_lt _ _)) by (cbn [nr_recursion deeper]; rewrite Hn; done).
    erewrite er_step by (apply stmt_run; exact E). by erewrite er_step by (apply stmt_run; reflexivity).
  - split; [exact Hv|]. split; [exact Hu|]. cbn [nr_recursion]. rewrite Hc. cbn [nr_recursion deeper]. by rewrite Hn.
Qed.

(** ** The clean-up of a directory *)

Lemma run_free κ o t k w b : kept o t -> good dev root (1 + k) (1 + w) (base t) -> valid κ b ->
  exists t', (match κ with Data => free_data_block | Inodes => free_inode_block end) dev b t = Ret (INODE_OK, t') /\
    good dev root k (1 + w) (base t') /\ (forall κ q, valid κ q -> blocks t' q = blocks o q) /\
    ~ in_use t' b /\ (forall q, in_use o q -> q <> b -> in_use t' q).
Proof.
  intros (Hv0 & Hu0 & _) Hg Hb. destruct (free_ok κ k w (base t) b Hg Hb) as (s' & E & Hg' & Hv & Hn & Hu).
  exists (Tree s' (nr_recursion t)). split; [|split; [done|split; [|split; [done|]]]].
  - destruct κ; cbn [free_inode_block free_data_block tree_ops]; unfold below; by rewrite E.
  - intros κ' q Hq. cbn [base]. by rewrite (Hv κ' q Hq), (Hv0 κ' q Hq).
  - intros q Hq Hne. cbn [base]. apply Hu; [by apply Hu0|done].
Qed.

(** When the first of several block maps of a directory is empty, it is freed, but
    the directory, which is written back, still refers to it. *)
Theorem fixup_dangling n o d cur k w : valid Inodes d -> cok inode_codec (node (blocks o) d) ->
  self (node (blocks o) d) = d -> i_next (node (blocks o) d) = cur -> valid Data cur ->
  entries (map_at (blocks o) cur) = [] -> b_next (map_at (blocks o) cur) <> INODE_NULL ->
  good dev root (3 + k) (2 + w) (base o) ->
  exists t', fixup (1 + n) dev (node (blocks o) d) cur cur o = Ret (inr tt, t') /\ ~ in_use t' cur /\
    node (blocks t') d = node (blocks o) d.
Proof.
  intros Hd Hc Hs Hz Hcur Hent Hnext Hg. destruct (area_bounds _ _ Hcur) as [_ Hc0].
  destruct (run_map o o (2 + k) (1 + w) cur zero_map EACCES INODE_FAIL (kept_refl o) Hg Hcur) as (t1 & E1 & Hg1 & Ho1).
  destruct (run_free Data o t1 (1 + k) (1 + w) cur Ho1 Hg1 Hcur) as (t2 & E2 & Hg2 & Hv2 & Hn2 & _).
  destruct (run_write_as inode_codec t2 t2 k (1 + w) Inodes d (node (blocks o) d) EACCES INODE_FAIL eq_refl Hc (kept_refl t2))
    as (t3 & E3 & _ & Hv3 & Hu3); [exact Hg2|exact Hd|].
  exists t3. split; [|split].
  - cbn [fixup Nat.add]. rewrite (proj2 (Z.eqb_neq _ _) Hc0). erewrite er_step by exact E1.
    assert (forallb (fun b => b =? INODE_NULL) (b_blocks (map_at (blocks o) cur)) = true) as ->.
    { unfold entries in Hent. induction (b_blocks (map_at (blocks o) cur)) as [|b l IH]; [done|].
      destruct (decide (b = INODE_NULL)) as [->|Hb].
      - rewrite filter_cons_False in Hent by (intros H; by apply H). cbn [forallb]. rewrite Z.eqb_refl. by apply IH.
      - by rewrite filter_cons_True in Hent. }
    rewrite Z.eqb_refl, (proj2 (Z.eqb_neq _ _) Hnext). erewrite er_step by reflexivity.
    erewrite er_step by (apply stmt_run; exact E2). rewrite bool_decide_eq_true_2 by done. rewrite Hs. exact E3.
  - rewrite Hu3. exact Hn2.
  - unfold node at 1. rewrite (Hv3 Inodes), Z.eqb_refl by done. by apply dec_inode.
Qed.
End Runs.
