(* ===== verification/TreeRuns.v ===== *)
(** * Concrete trees of inodes

    A store in memory with a directory [/a], a file [/a/b], a symbolic link [/c]
    to [/a], a hard link [/d] to [/a/b] and a symbolic link [/e] to [/z], which does
    not exist, made by [inode_create], and what the operations do with it. *)

From stdpp Require Import gmap.
From S2P Require Import Prelude Errno Layout Perms Alloc Store StoreSpec Paths PathsSpec Tree TreeSpec CreateSpec LinkSpec.

Definition me : caller := Caller 0 0 1000.
Definition blank : tree mem := Tree (Mem ∅ ∅ 0) 0.

Definition make (path : list (list Z)) (mode : inode_mode) (target : option (list (list Z))) : st (tree mem) inode_rtvl :=
  inode_create me 3 5 0 mem_root (Some (rooted path)) mode 511 0 0 0 (rooted <$> target).

Definition populate : st (tree mem) (list inode_rtvl) :=
  r1 ← make [[97]] INODE_CREATE_DIR None;
  r2 ← make [[97]; [98]] INODE_CREATE_FILE None;
  r3 ← make [[99]] INODE_CREATE_SYMLINK (Some [[97]]);
  r4 ← make [[100]] INODE_CREATE_HARDLINK (Some [[97]; [98]]);
  r5 ← make [[101]] INODE_CREATE_SYMLINK (Some [[122]]);
  mret [r1; r2; r3; r4; r5].

Definition small : tree mem := Eval vm_compute in final_state populate blank.

Example small_made : populate blank = Ret ([INODE_OK; INODE_OK; INODE_OK; INODE_OK; INODE_OK], small).
Proof. vm_compute. reflexivity. Qed.

Lemma mem_good_of s : map_Forall (fun _ l => length l = 512%nat) (cells s) -> mem_good s.
Proof.
  intros Hs b. unfold mem_view. destruct (cells s !! b) as [l|] eqn:E; [|done]. by apply (Hs b).
Qed.

Lemma small_good k w : good (S := mem) 0 mem_root k w (base small).
Proof. apply mem_good_of. apply (bool_decide_eq_true_1 _). vm_compute. reflexivity. Qed.

Abbreviation shown := (view 0 mem_root (base small)).
Abbreviation there := (area mem 0 mem_root).

#[local] Instance mem_area_dec κ b : Decision (mem_area κ b).
Proof. unfold mem_area. apply _. Defined.

(** A directory with one block map. *)
Definition one_map_dir (v : Z -> list Z) (d : Z) : bool :=
  is_dir (node v d) && negb (is_link (node v d)) &&
    inode_check_permissions (node v d) 0 0 (c_group me) (c_owner me) INODE_RX &&
    bool_decide (mem_area Data (i_next (node v d))) &&
    bool_decide (Forall (mem_area Inodes) (entries (map_at v (i_next (node v d))))) &&
    (b_next (map_at v (i_next (node v d))) =? 0).

Lemma one_map v d : mem_area Inodes d -> one_map_dir v d = true ->
  directory v there me 5 (2 + length (entries (map_at v (i_next (node v d))))) d
    (entries (map_at v (i_next (node v d)))).
Proof.
  intros Hd H. unfold one_map_dir in H. repeat rewrite andb_true_iff in H. destruct H as [[[[[H1 H2] H3] H4] H5] H6].
  apply bool_decide_eq_true in H4. apply bool_decide_eq_true in H5. apply negb_true_iff in H2. apply Z.eqb_eq in H6.
  split; [done|]. split; [done|]. split; [done|]. split; [done|].
  split; [intros Hz; rewrite Hz in H4; by destruct H4|].
  exists [i_next (node v d)]. split; [cbn; lia|]. split; [by constructor|]. done.
Qed.

Lemma small_rooted : rooted_at (HL := mem_laws 0) small.
Proof. split; vm_compute; reflexivity. Qed.

Lemma small_root : directory shown there me 5 (2 + length (entries (map_at shown (i_next (node shown 100))))) 100
    (entries (map_at shown (i_next (node shown 100)))).
Proof. apply one_map; [by vm_compute|vm_compute; reflexivity]. Qed.

Lemma small_a : directory shown there me 5 (2 + length (entries (map_at shown (i_next (node shown 101))))) 101
    (entries (map_at shown (i_next (node shown 101)))).
Proof. apply one_map; [by vm_compute|vm_compute; reflexivity]. Qed.

Lemma small_ab : leads shown there me 5 (2 + length (entries (map_at shown (i_next (node shown 100)))) +
  (2 + length (entries (map_at shown (i_next (node shown 101)))))) 100 [[97]; [98]] 102.
Proof.
  eapply leads_more; [apply small_root|vm_compute; reflexivity|].
  apply leads_last with (entries (map_at shown (i_next (node shown 101)))); [apply small_a|vm_compute; reflexivity].
Qed.

Lemma proper_ab : Forall proper [[97]; [98]].
Proof. by apply (bool_decide_eq_true_1 _). Qed.

Lemma inode_get_found_witness :
  exists t', inode_get me 3 5 0 mem_root (rooted [[97]; [98]]) false INODE_RW small =
    Ret ((INODE_OK, Some (node shown 102)), t').
Proof.
  destruct (inode_get_found me small 2 5 mem_root [[97]; [98]] false INODE_RW _ 102 0 0 proper_ab
    ltac:(cbn; unfold MAX_PATH; lia) small_rooted (small_good _ _) small_ab (or_introl eq_refl)
    ltac:(vm_compute; reflexivity)) as (t' & E & _).
  exists t'. exact E.
Defined.

(** [/a/zz/y] *)
Lemma inode_get_missing_witness :
  exists t' i, inode_get me 3 5 0 mem_root (rooted [[97]; [122; 122]; [121]]) false INODE_RW small =
    Ret ((INODE_FILE_NOT_FOUND, i), t').
Proof.
  assert (Forall proper [[97]; [122; 122]; [121]]) as Hp by (by apply (bool_decide_eq_true_1 _)).
  assert (exists c, misses shown there me 5 c 100 [[97]; [122; 122]; [121]]) as [c Hm].
  { eexists. eapply misses_below; [apply small_root|vm_compute; reflexivity|].
    eapply misses_here; [apply small_a|vm_compute; reflexivity]. }
  destruct (inode_get_missing me small 2 5 mem_root [[97]; [122; 122]; [121]] false INODE_RW c 0 0 Hp
    ltac:(cbn; unfold MAX_PATH; lia) small_rooted (small_good _ _) Hm) as (t' & i & E & _).
  exists t', i. exact E.
Defined.

(** [./b], in [/a] *)
Lemma krealpath_relative_witness :
  exists t', krealpath 0 101 [dot; slash; 98] small = Ret (Some (rooted [[97]; [98]]), t').
Proof.
  assert (place shown there mem_root 101 [[97]]) as Hpl.
  { apply (place_below shown there mem_root 101 [] [97]); [done|by vm_compute|vm_compute; reflexivity|].
    assert (parent (node shown 101) = mem_root) as -> by (vm_compute; reflexivity). constructor. }
  assert (Forall name ([[97]] ++ [[dot]])) as Hn by (by apply (bool_decide_eq_true_1 _)).
  assert (name [98]) as Hl by (by apply (bool_decide_eq_true_1 _)).
  destruct (krealpath_relative small 101 [[97]] [[dot]] [98] 0 0 Hpl Hn (or_intror Hl) (small_good _ _)
    ltac:(cbn; unfold MAX_PATH; lia) eq_refl) as (t' & E & _).
  exists t'. exact E.
Defined.

(** ** The small tree is well formed *)

Lemma one_list d : mem_area Inodes d -> bool_decide (mem_area Data (i_next (node shown d))) &&
    bool_decide (Forall (mem_area Inodes) (entries (map_at shown (i_next (node shown d))))) &&
    (b_next (map_at shown (i_next (node shown d))) =? 0) = true ->
  lists there shown d [i_next (node shown d)] (entries (map_at shown (i_next (node shown d)))).
Proof.
  intros Hd H. repeat rewrite andb_true_iff in H. destruct H as [[H4 H5] H6].
  apply bool_decide_eq_true in H4. apply bool_decide_eq_true in H5. apply Z.eqb_eq in H6.
  right. split; [intros Hz; rewrite Hz in H4; by destruct H4|]. by constructor.
Qed.

Lemma small_lists d : d = 100 \/ d = 101 ->
  lists there shown d [i_next (node shown d)] (entries (map_at shown (i_next (node shown d)))).
Proof. intros [-> | ->]; apply one_list; (by vm_compute) || (vm_compute; reflexivity). Qed.

Lemma small_reach b : reach there 100 shown b -> b = 100 \/ b = 101 \/ b = 102 \/ b = 103 \/ b = 104 \/ b = 105.
Proof.
  induction 1 as [|d bs l e _ IH Hdir Hl He]; [by left|].
  assert (d = 100 \/ d = 101) as Hd.
  { destruct IH as [-> |[-> |[-> |[-> |[-> | ->]]]]]; [by left|by right|..]; vm_compute in Hdir; discriminate. }
  destruct (lists_det _ _ _ _ _ _ _ Hl (small_lists d Hd)) as [_ ->].
  assert (entries (map_at shown (i_next (node shown 100))) = [101; 103; 104; 105]) as E1 by (vm_compute; reflexivity).
  assert (entries (map_at shown (i_next (node shown 101))) = [102]) as E2 by (vm_compute; reflexivity).
  destruct Hd as [-> | ->]; rewrite ?E1, ?E2 in He; rewrite !elem_of_cons, elem_of_nil in He; tauto.
Qed.

#[local] Instance byte_dec b : Decision (byte b).
Proof. unfold byte. apply _. Defined.

Lemma small_block {A} (c : codec A) `{!Lawful c} b : csize c = 512%nat ->
  bool_decide (Forall byte (shown b)) = true -> cok c (dec c (shown b)).
Proof.
  intros Hs Hb%bool_decide_eq_true. apply dec_ok; [|done]. rewrite Hs. by apply (small_good 0 0).
Qed.

Lemma small_ok : tree_ok there 100 shown (used 0 mem_root (base small)).
Proof.
  split.
  - intros b Hb. apply small_reach in Hb.
    assert (there Inodes b /\ (b ∈ mem_used (base small)) /\ bool_decide (Forall byte (shown b)) = true /\
      self (node shown b) = b /\ exists n, label shown b = Ret n) as (H1 & H2 & H3 & H4 & H5).
    { destruct Hb as [-> |[-> |[-> |[-> |[-> | ->]]]]]; (split; [by vm_compute|]; split; [by vm_compute|];
        split; [vm_compute; reflexivity|]; split; [vm_compute; reflexivity|eexists; vm_compute; reflexivity]). }
    split; [done|]. split; [done|]. split; [|by split]. apply (small_block inode_codec b); [reflexivity|exact H3].
  - intros d Hd Hdir. apply small_reach in Hd.
    assert (d = 100 \/ d = 101) as Hd'.
    { destruct Hd as [-> |[-> |[-> |[-> |[-> | ->]]]]]; [by left|by right|..]; vm_compute in Hdir; discriminate. }
    exists [i_next (node shown d)], (entries (map_at shown (i_next (node shown d)))).
    split; [by apply small_lists|]. split; [apply NoDup_singleton|]. constructor; [|constructor].
    assert ((i_next (node shown d) ∈ mem_used (base small)) /\
      bool_decide (Forall byte (shown (i_next (node shown d)))) = true) as [H1 H2].
    { destruct Hd' as [-> | ->]; (split; [by vm_compute|vm_compute; reflexivity]). }
    split; [done|]. apply (small_block block_map_t_codec); [reflexivity|exact H2].
  - intros d d' bs bs' l l' m Hd Hd' Hdir Hdir' Hl Hl' Hm Hm'. apply small_reach in Hd, Hd'.
    assert (d = 100 \/ d = 101) as Hd1.
    { destruct Hd as [-> |[-> |[-> |[-> |[-> | ->]]]]]; [by left|by right|..]; vm_compute in Hdir; discriminate. }
    assert (d' = 100 \/ d' = 101) as Hd2.
    { destruct Hd' as [-> |[-> |[-> |[-> |[-> | ->]]]]]; [by left|by right|..]; vm_compute in Hdir'; discriminate. }
    destruct (lists_det _ _ _ _ _ _ _ Hl (small_lists d Hd1)) as [-> _].
    destruct (lists_det _ _ _ _ _ _ _ Hl' (small_lists d' Hd2)) as [-> _].
    apply list_elem_of_singleton in Hm as ->. apply list_elem_of_singleton in Hm'.
    assert (i_next (node shown 100) = 200 /\ i_next (node shown 101) = 201) as [E1 E2] by (vm_compute; split; reflexivity).
    destruct Hd1 as [-> | ->], Hd2 as [-> | ->]; rewrite ?E1, ?E2 in Hm'; done.
Qed.


(** ** Links *)

Lemma small_link b ns : mem_area Inodes b ->
  (is_link (node shown b) || is_hard (node shown b)) && bool_decide (mem_area Data (i_next (node shown b))) = true ->
  cstr (l_path (dec link_t_codec (shown (i_next (node shown b))))) = Ret (rooted ns) ->
  links_to (HL := mem_laws 0) small b ns.
Proof. intros Hb [H1 H2%bool_decide_eq_true]%andb_true_iff Ht. by split. Qed.

Lemma root_a : leads shown there me 5 (2 + length (entries (map_at shown (i_next (node shown 100))))) 100 [[97]] 101.
Proof. apply leads_last with (entries (map_at shown (i_next (node shown 100)))); [apply small_root|vm_compute; reflexivity]. Qed.

Lemma kreadlink_correct_witness :
  exists t', kreadlink (inode_get me 2 5) 0 103 small = Ret (self (node shown 101), t') /\ nr_recursion t' = 0.
Proof.
  assert (links_to (HL := mem_laws 0) small 103 [[97]]) as Hl by (apply small_link; [by vm_compute|vm_compute; reflexivity..]).
  destruct (kreadlink_correct me small 1 5 103 [[97]] 101 _ 0 0 Hl ltac:(by apply (bool_decide_eq_true_1 _))
    ltac:(cbn; unfold MAX_PATH; lia) small_rooted ltac:(vm_compute; split; congruence) (small_good _ _) root_a
    ltac:(split; vm_compute; reflexivity)) as (t' & E & _ & _ & _ & Hn).
  exists t'. split; [exact E|exact Hn].
Defined.

Lemma kreadlink_leaks_witness :
  exists t', kreadlink (inode_get me 2 5) 0 105 small = Ret (INODE_NULL, t') /\ nr_recursion t' = 1.
Proof.
  assert (links_to (HL := mem_laws 0) small 105 [[122]]) as Hl by (apply small_link; [by vm_compute|vm_compute; reflexivity..]).
  assert (exists c, misses shown there me 5 c 100 [[122]]) as [c Hm].
  { eexists. eapply misses_here; [apply small_root|vm_compute; reflexivity]. }
  destruct (kreadlink_leaks me small 1 5 105 [[122]] c 0 0 Hl ltac:(by apply (bool_decide_eq_true_1 _))
    ltac:(cbn; unfold MAX_PATH; lia) small_rooted ltac:(vm_compute; split; congruence) (small_good _ _) Hm)
    as (t' & E & _ & _ & _ & Hn).
  exists t'. split; [exact E|exact Hn].
Defined.

Lemma kreadlink_refuses_witness :
  exists t', kreadlink (inode_get me 2 5) 0 103 (Tree (base small) 1024) = Ret (INODE_NULL, t').
Proof.
  destruct (kreadlink_refuses (HL := mem_laws 0) (inode_get me 2 5) 103 (Tree (base small) 1024) 0 0 eq_refl (small_good _ _))
    as (t' & E & _).
  exists t'. exact E.
Defined.

(** [/a] with two block maps, the first of them empty. *)
Definition two_maps : tree mem := Tree (Mem
  (<[101 := enc inode_codec (put_next 250 (node shown 101))]>
    (<[250 := enc block_map_t_codec (BlockMap 251 (b_blocks zero_map))]>
      (<[251 := enc block_map_t_codec (first_slot 102)]> (cells (base small))))) (mem_used (base small)) 0) 0.

Lemma two_maps_good k w : good (S := mem) 0 mem_root k w (base two_maps).
Proof. apply mem_good_of. apply (bool_decide_eq_true_1 _). vm_compute. reflexivity. Qed.

Lemma fixup_dangling_witness :
  exists t', fixup 5 0 (node (view 0 mem_root (base two_maps)) 101) 250 250 two_maps = Ret (inr tt, t') /\
    (250 ∉ mem_used (base t')) /\ i_next (node (view 0 mem_root (base t')) 101) = 250.
Proof.
  assert (cok inode_codec (node (view 0 mem_root (base two_maps)) 101)) as Hc.
  { apply dec_ok; [by apply (two_maps_good 0 0)|]. apply (bool_decide_eq_true_1 _). vm_compute. reflexivity. }
  destruct (fixup_dangling (HL := mem_laws 0) 4 two_maps 101 250 0 0 ltac:(by vm_compute) Hc
    ltac:(vm_compute; reflexivity) ltac:(vm_compute; reflexivity) ltac:(by vm_compute) ltac:(vm_compute; reflexivity)
    ltac:(vm_compute; discriminate) (two_maps_good _ _)) as (t' & E & Hu & Hn).
  exists t'. split; [exact E|]. split; [exact Hu|]. rewrite Hn. vm_compute. reflexivity.
Defined.
