(* ===== verification/FileIO.v ===== *)
(** * Reading and writing files ([fs/file.c])

    [file_read_write] and its helpers, over the interface of the buffer cache and
    the block allocators.  A file is a chain of block maps of 127 data blocks each.
    A buffer is the list of its bytes; an access outside is a fault.  The status a
    function returns comes with the structures it wrote through its pointers. *)

From S2P Require Import Prelude Errno Device Layout Alloc Store Paths Tree.

Inductive file_rtvl := FILE_OK | FILE_FAIL.

#[export] Instance file_rtvl_eq_dec : EqDecision file_rtvl.
Proof. solve_decision. Defined.

(** [BMAP_BLOCKS] as a [block_t]. *)
Definition MAP_BLOCKS : Z := 127.

(** ** Assignments to fields of an inode *)

Definition put_accessed (v : Z) (i : inode) : inode :=
  Inode (user_read i) (user_write i) (user_execute i) (group_read i) (group_write i)
    (group_execute i) (world_read i) (world_write i) (world_execute i) (is_directory i)
    (is_device i) (is_file i) (is_symlink i) (is_hardlink i) (align_14 i) (create_time i)
    (modified_time i) v (self i) (parent i) (i_size i) (i_pos i) (i_current i) (current_parent i)
    (iblock i) (i_dev i) (o_mode i) (i_group i) (i_owner i) (refcount i) (i_path i) (i_pad i)
    (align_506 i) (i_next i).

Definition put_modified (v : Z) (i : inode) : inode :=
  Inode (user_read i) (user_write i) (user_execute i) (group_read i) (group_write i)
    (group_execute i) (world_read i) (world_write i) (world_execute i) (is_directory i)
    (is_device i) (is_file i) (is_symlink i) (is_hardlink i) (align_14 i) (create_time i) v
    (accessed_time i) (self i) (parent i) (i_size i) (i_pos i) (i_current i) (current_parent i)
    (iblock i) (i_dev i) (o_mode i) (i_group i) (i_owner i) (refcount i) (i_path i) (i_pad i)
    (align_506 i) (i_next i).

Definition put_size (v : Z) (i : inode) : inode :=
  Inode (user_read i) (user_write i) (user_execute i) (group_read i) (group_write i)
    (group_execute i) (world_read i) (world_write i) (world_execute i) (is_directory i)
    (is_device i) (is_file i) (is_symlink i) (is_hardlink i) (align_14 i) (create_time i)
    (modified_time i) (accessed_time i) (self i) (parent i) v (i_pos i) (i_current i)
    (current_parent i) (iblock i) (i_dev i) (o_mode i) (i_group i) (i_owner i) (refcount i)
    (i_path i) (i_pad i) (align_506 i) (i_next i).

Definition put_pos (v : Z) (i : inode) : inode :=
  Inode (user_read i) (user_write i) (user_execute i) (group_read i) (group_write i)
    (group_execute i) (world_read i) (world_write i) (world_execute i) (is_directory i)
    (is_device i) (is_file i) (is_symlink i) (is_hardlink i) (align_14 i) (create_time i)
    (modified_time i) (accessed_time i) (self i) (parent i) (i_size i) v (i_current i)
    (current_parent i) (iblock i) (i_dev i) (o_mode i) (i_group i) (i_owner i) (refcount i)
    (i_path i) (i_pad i) (align_506 i) (i_next i).

Definition put_iblock (v : Z) (i : inode) : inode :=
  Inode (user_read i) (user_write i) (user_execute i) (group_read i) (group_write i)
    (group_execute i) (world_read i) (world_write i) (world_execute i) (is_directory i)
    (is_device i) (is_file i) (is_symlink i) (is_hardlink i) (align_14 i) (create_time i)
    (modified_time i) (accessed_time i) (self i) (parent i) (i_size i) (i_pos i) (i_current i)
    (current_parent i) v (i_dev i) (o_mode i) (i_group i) (i_owner i) (refcount i) (i_path i)
    (i_pad i) (align_506 i) (i_next i).

Definition put_o_mode (v : Z) (i : inode) : inode :=
  Inode (user_read i) (user_write i) (user_execute i) (group_read i) (group_write i)
    (group_execute i) (world_read i) (world_write i) (world_execute i) (is_directory i)
    (is_device i) (is_file i) (is_symlink i) (is_hardlink i) (align_14 i) (create_time i)
    (modified_time i) (accessed_time i) (self i) (parent i) (i_size i) (i_pos i) (i_current i)
    (current_parent i) (iblock i) (i_dev i) v (i_group i) (i_owner i) (refcount i) (i_path i)
    (i_pad i) (align_506 i) (i_next i).

(** Where the next read or write continues. *)
Definition put_where (current map block : Z) (i : inode) : inode :=
  Inode (user_read i) (user_write i) (user_execute i) (group_read i) (group_write i)
    (group_execute i) (world_read i) (world_write i) (world_execute i) (is_directory i)
    (is_device i) (is_file i) (is_symlink i) (is_hardlink i) (align_14 i) (create_time i)
    (modified_time i) (accessed_time i) (self i) (parent i) (i_size i) (i_pos i) current map block
    (i_dev i) (o_mode i) (i_group i) (i_owner i) (refcount i) (i_path i) (i_pad i) (align_506 i)
    (i_next i).

(** [a[i]] and [a[i] = v]. *)
Definition peek (a : list Z) (i : Z) : outcome Z :=
  if i <? 0 then Fault else match a !! Z.to_nat i with Some v => Ret v | None => Fault end.
Definition poke (a : list Z) (i v : Z) : outcome (list Z) :=
  if (0 <=? i) && (i <? Z.of_nat (length a)) then Ret (<[Z.to_nat i := v]> a) else Fault.

(** ** Growing the chain *)

Section Code.
Context {S : Type} `{FsOps S}.

Definition read_bmap (dev block : Z) (b : block_map_t) : st S (bool * block_map_t) :=
  read_as block_map_t_codec dev block b.
Definition write_bmap (dev block : Z) (b : block_map_t) : st S bool := write_as block_map_t_codec dev block b.

Definition file_add_one_bmap_block (dev current : Z) (bmap : block_map_t) : st S (file_rtvl * block_map_t) := returned (
  r ← stmt (get_data_block dev 0);
  if negb (bool_decide (r.1 = INODE_OK)) then leave_with ENOSPC (FILE_FAIL, bmap)
  else
    let bmap := BlockMap r.2 (b_blocks bmap) in
    _ ← need (write_bmap dev r.2 zero_map) EACCES (FILE_FAIL, bmap);
    _ ← need (write_bmap dev current bmap) EACCES (FILE_FAIL, bmap);
    mret (FILE_OK, bmap)).

Definition zero_data : list Z := replicate 512 0.

Definition file_add_one_data_block (dev current : Z) (bmap : block_map_t) (iblock : Z)
    : st S (file_rtvl * block_map_t) := returned (
  r ← stmt (get_data_block dev 0);
  if negb (bool_decide (r.1 = INODE_OK)) then leave_with ENOSPC (FILE_FAIL, bmap)
  else
    l ← stmt (lift (poke (b_blocks bmap) iblock r.2));
    let bmap := BlockMap (b_next bmap) l in
    _ ← need (write_block dev r.2 zero_data) EACCES (FILE_FAIL, bmap);
    _ ← need (write_bmap dev current bmap) EACCES (FILE_FAIL, bmap);
    mret (FILE_OK, bmap)).

(** ** One transfer *)

(** The status, [*inode], [data] and [*bytes_processed] after the call. *)
Record transfer := Transfer { x_status : file_rtvl; x_inode : inode; x_data : list Z; x_bytes : Z }.

(** The block map in memory, the block it was read from, the index in it and the
    data block there. *)
Record cursor := At { at_map : block_map_t; at_current : Z; at_iblock : Z; at_start : Z }.

(** [iter] and the first value of [iblock]. *)
Definition maps_to_scan (pos : Z) : Z :=
  let block := u32 (u32 (pos / DEV_BLOCK_SIZE) + (if pos mod DEV_BLOCK_SIZE =? 0 then 0 else 1) +
    (if pos =? 0 then 1 else 0)) in
  block / MAP_BLOCKS + (if block mod MAP_BLOCKS =? 0 then 0 else 1).
Definition first_iblock (pos : Z) : Z := u32 (pos / DEV_BLOCK_SIZE) mod MAP_BLOCKS.

Section Start.
(** [*inode], [data] and [*bytes_processed] before the call. *)
Context (ino : inode) (data : list Z) (bytes : Z).

(** The first block map and the first data block of an empty file. *)
Definition first_blocks (dev : Z) : er S transfer (inode * cursor) :=
  r ← stmt (get_data_block dev 0);
  if negb (bool_decide (r.1 = INODE_OK)) then leave (Transfer FILE_FAIL ino data bytes)
  else
    let map := r.2 in
    let ino := put_next map ino in
    let fail := Transfer FILE_FAIL ino data bytes in
    _ ← need (write_as inode_codec dev (self ino) ino) EACCES fail;
    _ ← need (write_block dev map zero_data) EACCES fail;
    bmap ← need_val (read_bmap dev map zero_map) EACCES fail;
    r ← stmt (get_data_block dev map);
    if negb (bool_decide (r.1 = INODE_OK)) then leave_with EACCES fail
    else
      l ← stmt (lift (poke (b_blocks bmap) 0 r.2));
      let bmap := BlockMap (b_next bmap) l in
      _ ← need (write_bmap dev map bmap) EACCES fail;
      mret (ino, At bmap map 0 r.2).

(** The loop over the block maps: the last one read and where it lies. *)
Fixpoint scan_maps (n : nat) (dev : Z) (bmap : block_map_t) (current : Z) : er S transfer (block_map_t * Z) :=
  match n with
  | O => mret (bmap, current)
  | Datatypes.S n =>
      tmp ← need_val (read_bmap dev (b_next bmap) zero_map) EACCES (Transfer FILE_FAIL ino data bytes);
      scan_maps n dev tmp (b_next bmap)
  end.

(** The four cases in front of the loop. *)
Definition find_start (pos : Z) : er S transfer (inode * cursor) :=
  let dev := i_dev ino in
  let fail := Transfer FILE_FAIL ino data bytes in
  if i_next ino =? INODE_NULL then first_blocks dev
  else if (i_pos ino =? 0) && (i_current ino =? INODE_NULL) then
    bmap ← need_val (read_bmap dev (i_next ino) zero_map) EACCES fail;
    start ← stmt (lift (peek (b_blocks bmap) 0));
    mret (ino, At bmap (i_next ino) 0 start)
  else if (i_pos ino =? pos) && negb (i_current ino =? INODE_NULL) && negb (iblock ino =? INODE_NOPOS) then
    bmap ← need_val (read_bmap dev (current_parent ino) zero_map) EACCES fail;
    mret (ino, At bmap (current_parent ino) (u32 (iblock ino)) (i_current ino))
  else
    r ← scan_maps (Z.to_nat (maps_to_scan pos)) dev (BlockMap (i_next ino) (b_blocks zero_map)) 0;
    start ← stmt (lift (peek (b_blocks r.1) (first_iblock pos)));
    mret (ino, At r.1 r.2 (first_iblock pos) start).
End Start.

(** The loop over the bytes: [i], [byte], [data], [dptr], the place in the file,
    [write_flag]. *)
Record io := Io { io_i : Z; io_byte : Z; io_data : list Z; io_dptr : list Z; io_at : cursor; io_dirty : bool }.

Definition copy_byte (reading : bool) (size : Z) (s : io) : outcome io :=
  if reading then
    if size <=? io_i s then
      data ← poke (io_data s) (io_i s) 0;
      dptr ← poke (io_dptr s) (io_byte s) 0;
      Ret (Io (io_i s) (io_byte s) data dptr (io_at s) (io_dirty s))
    else
      v ← peek (io_dptr s) (io_byte s);
      data ← poke (io_data s) (io_i s) v;
      Ret (Io (io_i s) (io_byte s) data (io_dptr s) (io_at s) (io_dirty s))
  else
    v ← peek (io_data s) (io_i s);
    dptr ← poke (io_dptr s) (io_byte s) v;
    Ret (Io (io_i s) (io_byte s) (io_data s) dptr (io_at s) true).

Section Loop.
Context (dev : Z) (ino : inode) (reading : bool).

Definition failed (s : io) : transfer := Transfer FILE_FAIL ino (io_data s) (io_i s).

(** The next block map of the chain, which is made when there is none. *)
Definition next_map (s : io) : er S transfer (block_map_t * Z) :=
  let c := io_at s in
  bmap ← (if b_next (at_map c) =? INODE_NULL then
            r ← stmt (file_add_one_bmap_block dev (at_current c) (at_map c));
            if bool_decide (r.1 = FILE_OK) then mret r.2 else leave (failed s)
          else mret (at_map c));
  tmp ← need_val (read_bmap dev (b_next bmap) zero_map) EACCES (failed s);
  mret (tmp, b_next bmap).

(** The data block of an entry, which is made when there is none. *)
Definition next_data (s : io) (bmap : block_map_t) (current iblock : Z) : er S transfer (block_map_t * Z) :=
  start ← stmt (lift (peek (b_blocks bmap) iblock));
  bmap ← (if start =? INODE_NULL then
            q ← stmt (file_add_one_data_block dev current bmap iblock);
            if bool_decide (q.1 = FILE_OK) then mret q.2 else leave (failed s)
          else mret bmap);
  start ← stmt (lift (peek (b_blocks bmap) iblock));
  mret (bmap, start).

(** On to the next data block. *)
Definition advance (s : io) : er S transfer io :=
  let c := io_at s in
  let iblock := u32 (at_iblock c + 1) mod MAP_BLOCKS in
  r ← (if iblock =? 0 then next_map s else mret (at_map c, at_current c));
  q ← next_data s r.1 r.2 iblock;
  dptr ← need_val (read_block dev q.2 (io_dptr s)) EACCES (failed s);
  mret (Io (io_i s) (io_byte s) (io_data s) dptr (At q.1 r.2 iblock q.2) (io_dirty s)).

(** The end of a data block: what was changed is written and the next one read. *)
Definition next_block (s : io) : er S transfer io :=
  if negb reading || (i_size ino <=? io_i s) then
    _ ← need (write_block dev (at_start (io_at s)) (io_dptr s)) EACCES (failed s);
    advance (Io (io_i s) (io_byte s) (io_data s) (io_dptr s) (io_at s) false)
  else advance s.

Definition rw_step (s : io) : er S transfer io :=
  s ← stmt (lift (copy_byte reading (i_size ino) s));
  let s := Io (u32 (io_i s + 1)) (u32 (io_byte s + 1) mod DEV_BLOCK_SIZE) (io_data s) (io_dptr s) (io_at s) (io_dirty s) in
  if io_byte s =? 0 then next_block s else mret s.

(** [length] turns. *)
Fixpoint rw_loop (length : nat) (s : io) : er S transfer io :=
  match length with
  | O => mret s
  | Datatypes.S length => s ← rw_step s; rw_loop length s
  end.
End Loop.

(** The position, the size and the place for the next call. *)
Definition settle (pos bytes : Z) (c : cursor) (ino : inode) : inode :=
  let ino := put_pos (u64 (pos + bytes)) ino in
  let ino := if i_size ino <? u64 (pos + bytes) then put_size (u64 (pos + bytes)) ino else ino in
  put_where (at_start c) (at_current c) (i32 (at_iblock c)) ino.

(** The part from the first block on. *)
Definition transfer_from (ino : inode) (c : cursor) (pos length : Z) (data : list Z) (reading : bool) (bytes : Z)
    : er S transfer transfer :=
  let dev := i_dev ino in
  dptr ← need_val (read_block dev (at_start c) zero_data) EACCES (Transfer FILE_FAIL ino data bytes);
  s ← rw_loop dev ino reading (Z.to_nat length) (Io 0 (u32 pos mod DEV_BLOCK_SIZE) data dptr c false);
  _ ← (if io_dirty s then need (write_block dev (at_start (io_at s)) (io_dptr s)) EACCES (failed ino s) else mret tt);
  let ino := settle pos (io_i s) (io_at s) ino in
  _ ← need (write_as inode_codec dev (self ino) ino) EACCES (Transfer FILE_FAIL ino (io_data s) (io_i s));
  mret (Transfer FILE_OK ino (io_data s) (io_i s)).

Definition file_read_write (ino : inode) (pos length : Z) (data : list Z) (reading : bool) (bytes : Z)
    : st S transfer := returned (
  if length =? 0 then leave (Transfer FILE_OK ino data 0)
  else
    r ← find_start ino data bytes pos;
    transfer_from r.1 r.2 pos length data reading bytes).
End Code.
