(* ===== verification/FileSpec.v ===== *)
(** * The bytes of files

    A file is a chain of block maps; the entries that are not 0, in order, are its
    data blocks, and its contents the first [size] bytes they hold.  Reading and
    writing at a position are what they should be on the contents, from any place
    [file_read_write] finds again: the start, where the last transfer ended, and a
    seek, except to a multiple of 65024, the bytes one block map covers. *)

From stdpp Require Import gmap.
From S2P Require Import Prelude Errno Device Layout Alloc Store StoreSpec Paths Tree TreeSpec CreateSpec FileIO.

(** ** Lists of blocks *)

(** [data] in place of what [l] holds from [pos] on. *)
Definition overlay (pos : nat) (data l : list Z) : list Z :=
  take pos l ++ data ++ drop (pos + length data) l.

Lemma overlay_nil pos l : overlay pos [] l = l.
Proof. unfold overlay. cbn. rewrite Nat.add_0_r. apply take_drop. Qed.

Lemma overlay_length pos data l : (pos + length data <= length l)%nat -> length (overlay pos data l) = length l.
Proof. intros H. unfold overlay. rewrite !length_app, length_take, length_drop. lia. Qed.

(** One more byte. *)
Lemma overlay_snoc pos data l v : (pos + length data < length l)%nat ->
  overlay pos (data ++ [v]) l = <[(pos + length data)%nat := v]> (overlay pos data l).
Proof.
  intros H. unfold overlay. rewrite length_app. cbn [length].
  rewrite insert_app_r_alt by (rewrite length_take; lia).
  rewrite insert_app_r_alt by (rewrite length_take; lia).
  rewrite length_take. replace (pos + length data - pos `min` length l - length data)%nat with 0%nat by lia.
  destruct (lookup_lt_is_Some_2 l (pos + length data) H) as [x Hx].
  rewrite (drop_S _ _ _ Hx). cbn. rewrite <- app_assoc. do 3 f_equal. f_equal. lia.
Qed.

Lemma overlay_app pos data l l' : (pos + length data <= length l)%nat ->
  overlay pos data (l ++ l') = overlay pos data l ++ l'.
Proof.
  intros H. unfold overlay. rewrite take_app_le, drop_app_le by lia. by rewrite <- !app_assoc.
Qed.

Section Pieces.
Context (sz : nat) (L : list (list Z)).
Hypothesis Hsz : Forall (fun l => length l = sz) L.

Lemma concat_length : length (concat L) = (sz * length L)%nat.
Proof. induction Hsz as [|l L' Hl HL' IH]; cbn [concat length]; [lia|]. rewrite length_app, IH by done. nia. Qed.

Lemma concat_take q : take (sz * q) (concat L) = concat (take q L).
Proof.
  revert q. induction Hsz as [|l L' Hl HL' IH]; intros q; [cbn [concat]; by rewrite !take_nil|].
  destruct q as [|q]; [by rewrite Nat.mul_0_r|]. cbn [concat take].
  rewrite take_app_ge by nia. replace (sz * S q - length l)%nat with (sz * q)%nat by nia. f_equal. by apply IH.
Qed.

Lemma concat_drop q : drop (sz * q) (concat L) = concat (drop q L).
Proof.
  revert q. induction Hsz as [|l L' Hl HL' IH]; intros q; [cbn [concat]; by rewrite !drop_nil|].
  destruct q as [|q]; [by rewrite Nat.mul_0_r|]. cbn [concat drop].
  rewrite drop_app_ge by nia. replace (sz * S q - length l)%nat with (sz * q)%nat by nia. by apply IH.
Qed.

(** The byte [r] of piece [q]. *)
Lemma concat_lookup q r l : L !! q = Some l -> (r < sz)%nat -> concat L !! (sz * q + r)%nat = l !! r.
Proof.
  intros Hl Hr. rewrite <- lookup_drop, concat_drop, (drop_S _ _ _ Hl). cbn [concat].
  apply lookup_app_l. rewrite Forall_forall in Hsz. rewrite (Hsz l); [done|by eapply list_elem_of_lookup_2].
Qed.

Lemma concat_insert q r l v : L !! q = Some l -> (r < sz)%nat ->
  concat (<[q := <[r := v]> l]> L) = <[(sz * q + r)%nat := v]> (concat L).
Proof.
  intros Hl Hr. pose proof (lookup_lt_Some _ _ _ Hl) as Hq.
  assert (length l = sz) as Hlen by (rewrite Forall_forall in Hsz; apply Hsz; by eapply list_elem_of_lookup_2).
  rewrite insert_take_drop by done. rewrite <- (take_drop_middle L q l Hl) at 3.
  rewrite !concat_app. cbn [concat].
  assert (length (concat (take q L)) = (sz * q)%nat) as Ht.
  { rewrite <- concat_take, length_take, concat_length. nia. }
  rewrite insert_app_r_alt by lia. rewrite Ht. replace (sz * q + r - sz * q)%nat with r by lia.
  by rewrite insert_app_l by lia.
Qed.
End Pieces.

(** ** Chains of block maps *)

Definition no_map (m : block_map_t) : Prop := length (b_blocks m) = BMAP_BLOCKS.

Lemma cok_no_map m : cok block_map_t_codec m -> length (b_blocks m) = BMAP_BLOCKS.
Proof. destruct m as [nx l]. by intros (_ & Hl & _). Qed.

Section File.
Context (valid : kind -> Z -> Prop).

Inductive chain (v : Z -> list Z) : Z -> list Z -> Prop :=
| chain_last b : valid Data b -> b_next (map_at v b) = INODE_NULL -> chain v b [b]
| chain_more b bs : valid Data b -> b_next (map_at v b) <> INODE_NULL -> chain v (b_next (map_at v b)) bs ->
    chain v b (b :: bs).

Definition numbers (v : Z -> list Z) (bs : list Z) : list Z := concat (map (fun b => b_blocks (map_at v b)) bs).

(** The file whose chain begins at [first]: its block maps and its data blocks. *)
Record file (v : Z -> list Z) (used : Z -> Prop) (first : Z) (bs ds : list Z) : Prop := File {
  f_chain : chain v first bs;
  f_numbers : exists z, numbers v bs = ds ++ replicate z INODE_NULL;
  f_data : Forall (valid Data) ds;
  f_apart : NoDup (bs ++ ds);
  f_used : Forall used (bs ++ ds);
  f_maps : Forall (fun b => cok block_map_t_codec (map_at v b)) bs
}.

Definition bytes (v : Z -> list Z) (ds : list Z) : list Z := concat (map v ds).

Lemma chain_valid v f bs : chain v f bs -> Forall (valid Data) bs.
Proof. induction 1; by constructor. Qed.

Lemma chain_first v f bs : chain v f bs -> bs !! 0%nat = Some f.
Proof. by intros []. Qed.

Lemma map_next v f bs k m : chain v f bs -> bs !! k = Some m -> b_next (map_at v m) = default INODE_NULL (bs !! S k).
Proof.
  intros Hc. revert k. induction Hc as [b Hb Hz|b bs Hb Hz Hc IH]; intros k Hk.
  - destruct k as [|k]; [|done]. injection Hk as <-. by rewrite Hz.
  - destruct k as [|k]; [|by apply IH]. injection Hk as <-. change ((b :: bs) !! 1%nat) with (bs !! 0%nat).
    by rewrite (chain_first _ _ _ Hc).
Qed.

Lemma chain_agree v v' f bs : chain v f bs -> (forall b, b ∈ bs -> b_next (map_at v' b) = b_next (map_at v b)) ->
  chain v' f bs.
Proof.
  induction 1 as [b Hb Hz|b bs Hb Hz Hc IH]; intros Hv;
    assert (b_next (map_at v' b) = b_next (map_at v b)) as E by (apply Hv; by left).
  - constructor; [done|by rewrite E].
  - rewrite <- E in *. constructor; [done|done|]. apply IH. intros q Hq. apply Hv. by right.
Qed.

Lemma chain_extend v v' f bs last m : chain v f (bs ++ [last]) -> (last ∉ bs) ->
  (forall b, b ∈ bs -> b_next (map_at v' b) = b_next (map_at v b)) ->
  b_next (map_at v' last) = m -> valid Data m -> m <> INODE_NULL -> b_next (map_at v' m) = INODE_NULL ->
  chain v' f (bs ++ [last; m]).
Proof.
  intros Hc Hl Hv Hlast Hm Hm0 Hnext. remember (bs ++ [last]) as bs' eqn:E. revert bs Hl Hv E.
  induction Hc as [b Hb Hz|b bs' Hb Hz Hc IH]; intros bs Hl Hv E.
  - destruct bs as [|? [|? bs]]; try done. injection E as ->. cbn [app].
    constructor; [done|by rewrite Hlast|]. rewrite Hlast. by constructor.
  - destruct bs as [|c bs]; cbn [app] in E; injection E as -> E; [subst bs'; inversion Hc|].
    cbn [app]. assert (b_next (map_at v' c) = b_next (map_at v c)) as Ec by (apply Hv; by left).
    rewrite <- Ec in *. constructor; [done|done|]. apply IH; [|intros q Hq; apply Hv; by right|done].
    intros H. apply Hl. by right.
Qed.

Section At.
Context (v : Z -> list Z) (used : Z -> Prop) (first : Z) (bs ds : list Z).
Hypothesis Hf : file v used first bs ds.

Lemma file_pieces : Forall (fun l : list Z => length l = BMAP_BLOCKS) (map (fun b => b_blocks (map_at v b)) bs).
Proof.
  rewrite Forall_map. eapply Forall_impl; [apply (f_maps _ _ _ _ _ Hf)|]. intros b. apply cok_no_map.
Qed.

(** Entry [j] of block map [k]. *)
Lemma file_slot k j m : bs !! k = Some m -> (j < BMAP_BLOCKS)%nat ->
  b_blocks (map_at v m) !! j = Some (default INODE_NULL (ds !! (BMAP_BLOCKS * k + j)%nat)).
Proof.
  intros Hk Hj.
  assert (map (fun b => b_blocks (map_at v b)) bs !! k = Some (b_blocks (map_at v m))) as Hm.
  { by rewrite list_lookup_fmap, Hk. }
  rewrite <- (concat_lookup _ _ file_pieces k j _ Hm Hj).
  pose proof (concat_length _ _ file_pieces) as Hlen. change (concat _) with (numbers v bs) in *.
  destruct (f_numbers _ _ _ _ _ Hf) as [z Hz]. rewrite Hz in Hlen |- *. pose proof (lookup_lt_Some _ _ _ Hk) as Hkl.
  rewrite length_app, length_replicate, length_map in Hlen.
  destruct (Nat.lt_ge_cases (BMAP_BLOCKS * k + j) (length ds)) as [Hlt|Hge].
  - rewrite lookup_app_l by done. by destruct (lookup_lt_is_Some_2 ds _ Hlt) as [x ->].
  - rewrite lookup_app_r by done. rewrite (lookup_ge_None_2 ds) by done. apply lookup_replicate_2. nia.
Qed.

Lemma file_length : (length ds <= BMAP_BLOCKS * length bs)%nat.
Proof.
  pose proof (concat_length _ _ file_pieces) as Hlen. change (concat _) with (numbers v bs) in *.
  destruct (f_numbers _ _ _ _ _ Hf) as [z Hz]. rewrite Hz, length_app, length_map in Hlen. lia.
Qed.

Lemma file_valid b : (b ∈ bs) \/ (b ∈ ds) -> valid Data b.
Proof.
  pose proof (chain_valid _ _ _ (f_chain _ _ _ _ _ Hf)) as H1. pose proof (f_data _ _ _ _ _ Hf) as H2.
  rewrite Forall_forall in H1, H2. intros [?|?]; eauto.
Qed.

Lemma file_in_use b : (b ∈ bs) \/ (b ∈ ds) -> used b.
Proof.
  pose proof (f_used _ _ _ _ _ Hf) as H. rewrite Forall_forall in H. intros Hb. apply H. by apply elem_of_app.
Qed.

Lemma file_apart b : (b ∈ bs) -> (b ∈ ds) -> False.
Proof. pose proof (f_apart _ _ _ _ _ Hf) as H. apply NoDup_app in H as (_ & H & _). intros ??. by apply (H b). Qed.

(** The block maps are as they were. *)
Lemma file_agree v' used' : (forall b, b ∈ bs -> v' b = v b) -> (forall b, used b -> used' b) ->
  file v' used' first bs ds.
Proof.
  intros Hv Hu. destruct Hf as [H1 H2 H3 H4 H5 H6].
  assert (forall b, b ∈ bs -> map_at v' b = map_at v b) as Hm by (intros b Hb; unfold map_at; by rewrite Hv).
  split; [| |done|done|by eapply Forall_impl|].
  - apply (chain_agree v); [done|]. intros b Hb. by rewrite Hm.
  - destruct H2 as [z Hz]. exists z. rewrite <- Hz. unfold numbers. f_equal. apply list_fmap_ext. intros i b Hb.
    rewrite Hm; [done|by eapply list_elem_of_lookup_2].
  - rewrite Forall_forall in H6 |- *. intros b Hb. rewrite Hm by done. by apply H6.
Qed.
End At.

(** *** Growing *)

Section Grow.
Context (v v' : Z -> list Z) (used used' : Z -> Prop) (first b : Z) (ds : list Z).
Hypothesis Hb : valid Data b.
Hypothesis Hb0 : b <> INODE_NULL.
Hypothesis Hfresh : ~ used b.
Hypothesis Hused : forall c, used c -> used' c.
Hypothesis Hb' : used' b.

(** One more block map, of no data blocks. *)
Lemma grow_map bs last : file v used first (bs ++ [last]) ds ->
  (forall c, c ∈ bs -> v' c = v c) -> map_at v' last = BlockMap b (b_blocks (map_at v last)) ->
  cok block_map_t_codec (map_at v' last) -> map_at v' b = zero_map ->
  file v' used' first (bs ++ [last; b]) ds.
Proof.
  intros Hf Hv Hlast Hcok Hm. pose proof (file_in_use _ _ _ _ _ Hf) as Hin. destruct Hf as [H1 [z H2] H3 H4 H5 H6].
  assert (forall c, c ∈ bs -> map_at v' c = map_at v c) as Hmap by (intros c Hc; unfold map_at; by rewrite Hv).
  assert ((b ∉ (bs ++ [last]) ++ ds)) as Hnb.
  { intros [H|H]%elem_of_app; apply Hfresh, Hin; auto. }
  split; [|exists (z + BMAP_BLOCKS)%nat|done| | |].
  - apply (chain_extend v); [done| |by intros c Hc; rewrite Hmap|by rewrite Hlast|done|done|by rewrite Hm].
    apply NoDup_app in H4 as (H4 & _ & _). apply NoDup_app in H4 as (_ & H4 & _). intros H. apply (H4 last H). by left.
  - rewrite replicate_add, app_assoc, <- H2. unfold numbers. rewrite !map_app, !concat_app. cbn [map concat].
    rewrite Hlast, Hm, zero_map_spec, !app_nil_r, app_assoc. cbn [b_blocks]. do 2 f_equal. f_equal.
    apply list_fmap_ext. intros i c Hc. rewrite Hmap; [done|by eapply list_elem_of_lookup_2].
  - change [last; b] with ([last] ++ [b]). rewrite app_assoc, <- app_assoc.
    rewrite (Permutation_app_comm [b] ds), app_assoc. apply NoDup_app.
    split; [done|]. split; [|apply NoDup_singleton]. intros c Hc ->%list_elem_of_singleton. done.
  - apply (Forall_impl _ used') in H5; [|done]. rewrite !Forall_app in *. destruct H5 as [[??]?].
    repeat split; try done. constructor; [|by constructor]. by eapply Forall_inv.
  - rewrite !Forall_app in *. destruct H6 as [H6 _]. split; [|constructor; [done|constructor; [|done]]].
    + rewrite Forall_forall in H6 |- *. intros c Hc. rewrite Hmap by done. by apply H6.
    + rewrite Hm. apply cok_zero_map.
Qed.

(** One more data block, in the first free entry. *)
Lemma grow_data bs k j m : file v used first bs ds -> bs !! k = Some m -> (j < BMAP_BLOCKS)%nat ->
  length ds = (BMAP_BLOCKS * k + j)%nat -> (forall c, c ∈ bs -> c <> m -> v' c = v c) ->
  map_at v' m = BlockMap (b_next (map_at v m)) (<[j := b]> (b_blocks (map_at v m))) ->
  cok block_map_t_codec (map_at v' m) ->
  file v' used' first bs (ds ++ [b]).
Proof.
  intros Hf Hk Hj Hlen Hv Hm Hcok. pose proof (file_in_use _ _ _ _ _ Hf) as Hin.
  pose proof (file_pieces _ _ _ _ _ Hf) as Hp.
  destruct Hf as [H1 [z H2] H3 H4 H5 H6]. pose proof (list_elem_of_lookup_2 _ _ _ Hk) as Hmb.
  assert (forall c, c ∈ bs -> c <> m -> map_at v' c = map_at v c) as Hmap by (intros c Hc Hn; unfold map_at; by rewrite Hv).
  assert ((b ∉ bs ++ ds)) as Hnb.
  { intros [H|H]%elem_of_app; apply Hfresh, Hin; auto. }
  split.
  - apply (chain_agree v); [done|]. intros c Hc. destruct (decide (c = m)) as [->|Hne]; [by rewrite Hm|by rewrite Hmap].
  - assert (map (fun b => b_blocks (map_at v b)) bs !! k = Some (b_blocks (map_at v m))) as Hmk.
    { by rewrite list_lookup_fmap, Hk. }
    assert (numbers v' bs = <[(BMAP_BLOCKS * k + j)%nat := b]> (numbers v bs)) as E.
    { unfold numbers. rewrite <- (concat_insert _ _ Hp k j _ b Hmk Hj). f_equal. apply list_eq. intros i.
      destruct (decide (i = k)) as [->|Hne].
      - rewrite list_lookup_insert_eq by (rewrite length_map; by eapply lookup_lt_Some).
        rewrite list_lookup_fmap, Hk. unfold fmap, option_fmap, option_map. by rewrite Hm.
      - rewrite list_lookup_insert_ne by done. rewrite !list_lookup_fmap.
        destruct (bs !! i) as [c|] eqn:Hi; [|done]. unfold fmap, option_fmap, option_map. rewrite Hmap; [done|by eapply list_elem_of_lookup_2|].
        intros ->. apply Hne. apply NoDup_app in H4 as (H4 & _). by eapply NoDup_lookup. }
    pose proof (concat_length _ _ Hp) as Hl. change (concat _) with (numbers v bs) in Hl.
    rewrite H2, length_app, length_replicate, length_map in Hl. pose proof (lookup_lt_Some _ _ _ Hk) as Hkl.
    destruct z as [|z]; [nia|]. exists z. rewrite E, H2, <- Hlen.
    rewrite insert_app_r_alt by lia. rewrite Nat.sub_diag. cbn. by rewrite <- app_assoc.
  - apply Forall_app. split; [done|]. by constructor.
  - rewrite app_assoc. apply NoDup_app. split; [done|]. split; [|apply NoDup_singleton].
    intros c Hc ->%list_elem_of_singleton. done.
  - rewrite app_assoc. apply Forall_app. split; [by eapply Forall_impl|by constructor].
  - rewrite Forall_forall in H6 |- *. intros c Hc. destruct (decide (c = m)) as [->|Hne]; [done|].
    rewrite Hmap by done. by apply H6.
Qed.
End Grow.
End File.

(** ** Runs *)

Section Runs.
Context {S : Type} `{HF : FsOps S} {dev root : Z} {HL : StoreLaws S dev root}.

Abbreviation blk s := (view dev root s).
Abbreviation in_use s := (used dev root s).
Abbreviation valid := (area S dev root).
Abbreviation good := (good dev root).
Abbreviation cost := (alloc_cost S dev root).

Definition same (s s' : S) : Prop :=
  (forall κ b, valid κ b -> blk s' b = blk s b) /\ (forall b, in_use s' b <-> in_use s b).

Definition stored (s : S) (b : Z) (data : list Z) (s' : S) : Prop :=
  (forall κ q, valid κ q -> blk s' q = if q =? b then data else blk s q) /\ (forall q, in_use s' q <-> in_use s q).

Lemma run_read_block {E} s k w κ b a n (e : E) : good (1 + k) (1 + w) s -> valid κ b ->
  exists s', need_val (read_block dev b a) n e s = Ret (inr (blk s b), s') /\ good k (1 + w) s' /\ same s s'.
Proof.
  intros Hg Hb. destruct (read_block_ok k w s κ b a Hg Hb) as (s' & E' & Hg' & Hs). exists s'. split; [|done].
  unfold need_val. by erewrite er_step by (apply stmt_run; exact E').
Qed.

Lemma run_read_bmap {E} s k w b a n (e : E) : good (1 + k) (1 + w) s -> valid Data b ->
  exists s', need_val (read_bmap dev b a) n e s = Ret (inr (map_at (blk s) b), s') /\ good k (1 + w) s' /\ same s s'.
Proof.
  intros Hg Hb. destruct (read_block_ok k w s Data b (enc block_map_t_codec a) Hg Hb) as (s' & E' & Hg' & Hs).
  exists s'. split; [|done].
  assert (read_bmap dev b a s = Ret ((true, map_at (blk s) b), s')) as Er.
  { unfold read_bmap, read_as. unfold_st. by rewrite E'. }
  unfold need_val. by erewrite er_step by (apply stmt_run; exact Er).
Qed.

Lemma run_write_block {E} s k w κ b d n (e : E) : good (1 + k) (1 + w) s -> valid κ b -> length d = 512%nat ->
  exists s', need (write_block dev b d) n e s = Ret (inr tt, s') /\ good k w s' /\ stored s b d s'.
Proof.
  intros Hg Hb Hd. destruct (write_block_ok k w s κ b d Hg Hb Hd) as (s' & E' & Hg' & Hs). exists s'. split; [|done].
  unfold need. by erewrite er_step by (apply stmt_run; exact E').
Qed.

Lemma run_write_codec {A E} (c : codec A) `{!Lawful c} s k w κ b a n (e : E) : csize c = 512%nat -> cok c a ->
  good (1 + k) (1 + w) s -> valid κ b ->
  exists s', need (write_as c dev b a) n e s = Ret (inr tt, s') /\ good k w s' /\ stored s b (enc c a) s'.
Proof. intros Hc Ha Hg Hb. apply (run_write_block s k w κ b (enc c a)); [done|done|]. by rewrite enc_length. Qed.

Lemma run_errno {E A} s k w n (e : E) : good k w s ->
  exists s', leave_with (A := A) n e s = Ret (inl e, s') /\ good k w s' /\ same s s' /\ the_errno s' = n.
Proof.
  intros Hg. destruct (put_errno_ok k w s n Hg) as (s' & E' & Hg' & He & Hs). exists s'. split; [|done].
  unfold leave_with. by erewrite st_step by exact E'.
Qed.

Lemma stored_map s b m s' : cok block_map_t_codec m -> valid Data b -> stored s b (enc block_map_t_codec m) s' ->
  map_at (blk s') b = m.
Proof.
  intros Hm Hb (Hv & _). unfold map_at. rewrite (Hv Data b Hb), Z.eqb_refl. by apply dec_map.
Qed.

Lemma zero_data_map : zero_data = enc block_map_t_codec zero_map.
Proof. vm_compute. reflexivity. Qed.

(** What a step of a transfer does to the blocks of other files, and to the
    allocators; [b] is what the file had before. *)
Definition apart (s : S) (b : list Z) (s' : S) : Prop :=
  (forall κ c, valid κ c -> in_use s c -> (c ∉ b) -> blk s' c = blk s c) /\ (forall c, in_use s c -> in_use s' c).

Lemma apart_trans s b s1 b1 s2 : apart s b s1 -> apart s1 b1 s2 -> (forall c, c ∈ b1 -> (c ∈ b) \/ ~ in_use s c) ->
  apart s b s2.
Proof.
  intros (Hv1 & Hu1) (Hv2 & Hu2) Hb. split; [|by auto]. intros κ c Hc Hu Hn.
  rewrite (Hv2 κ c Hc), (Hv1 κ c Hc); auto. intros H. by destruct (Hb c H).
Qed.

Lemma same_apart s b s' : same s s' -> apart s b s'.
Proof. intros (Hv & Hu). split; [eauto|]. intros c. apply Hu. Qed.

(** No room is left. *)
Definition no_room {A} (k w : nat) (e : A) (r : outcome (A * S)) : Prop :=
  exists s', r = Ret (e, s') /\ the_errno s' = ENOSPC /\ good k w s'.

Lemma run_add_map s k w first bs last ds : file valid (blk s) (in_use s) first (bs ++ [last]) ds ->
  good (cost + 2 + k) (4 + w) s ->
  (exists b s', file_add_one_bmap_block dev last (map_at (blk s) last) s =
     Ret ((FILE_OK, BlockMap b (b_blocks (map_at (blk s) last))), s') /\ good k w s' /\
     file valid (blk s') (in_use s') first (bs ++ [last; b]) ds /\ apart s [last] s' /\ ~ in_use s b /\ valid Data b) \/
  no_room k w (FILE_FAIL, map_at (blk s) last) (file_add_one_bmap_block dev last (map_at (blk s) last) s).
Proof.
  intros Hf Hg. unfold file_add_one_bmap_block.
  destruct (alloc_ok Data (2 + k) (2 + w) s 0) as (r & b & s1 & E1 & Hg1 & Hv1 & Hu1 & Hr);
    [eapply good_weaken; [| |exact Hg]; lia|].
  assert (valid Data last) as Hlast by (apply (file_valid _ _ _ _ _ _ Hf); left; apply elem_of_app; right; by left).
  assert (cok block_map_t_codec (map_at (blk s) last)) as Hcl.
  { pose proof (f_maps _ _ _ _ _ _ Hf) as H. rewrite Forall_forall in H. apply H. apply elem_of_app. right. by left. }
  destruct Hr as [(-> & Hb & Hnb & Hub)|(-> & ->)].
  - left. destruct (area_bounds Data b Hb) as [Hbr Hb0].
    destruct (run_write_codec block_map_t_codec s1 (1 + k) (1 + w) Data b zero_map EACCES
      (FILE_FAIL, BlockMap b (b_blocks (map_at (blk s) last))) eq_refl cok_zero_map Hg1 Hb) as (s2 & E2 & Hg2 & Hs2).
    pose proof (cok_map_next _ b Hcl Hbr) as Hcok.
    destruct (run_write_codec block_map_t_codec s2 k w Data last _ EACCES
      (FILE_FAIL, BlockMap b (b_blocks (map_at (blk s) last))) eq_refl Hcok Hg2 Hlast) as (s3 & E3 & Hg3 & Hs3).
    exists b, s3. split; [|split; [done|]].
    { apply returned_run. left. erewrite er_step by (apply stmt_run; exact E1). cbn [fst snd].
      rewrite bool_decide_eq_true_2 by done. cbn [negb].
      erewrite er_step by exact E2. erewrite er_step by exact E3. done. }
    assert (last <> b) as Hne.
    { intros ->. apply Hnb. apply (file_in_use _ _ _ _ _ _ Hf). left. apply elem_of_app. right. by left. }
    assert (forall c κ, valid κ c -> c <> last -> c <> b -> blk s3 c = blk s c) as Hv.
    { intros c κ Hc H1 H2. rewrite (proj1 Hs3 κ c Hc), (proj1 Hs2 κ c Hc), (Hv1 κ c Hc).
      by rewrite !(proj2 (Z.eqb_neq _ _)). }
    assert (forall c, in_use s c -> in_use s3 c) as Hu.
    { intros c Hc. apply (proj2 Hs3), (proj2 Hs2). auto. }
    split; [|split; [|done]].
    + pose proof (stored_map _ _ _ _ Hcok Hlast Hs3) as Em.
      apply (grow_map valid (blk s) _ (in_use s)); [done|done|done|done| |done| |done|by rewrite Em|].
      * apply (proj2 Hs3), (proj2 Hs2). done.
      * intros c Hc. apply (Hv c Data); [apply (file_valid _ _ _ _ _ _ Hf); left; by apply elem_of_app; left| |].
        -- intros ->. pose proof (f_apart _ _ _ _ _ _ Hf) as H. apply NoDup_app in H as (H & _).
           apply NoDup_app in H as (_ & H & _). apply (H last Hc). by left.
        -- intros ->. apply Hnb, (file_in_use _ _ _ _ _ _ Hf). left. apply elem_of_app. by left.
      * rewrite <- (stored_map s1 b zero_map s2) by (done || apply cok_zero_map). unfold map_at.
        by rewrite (proj1 Hs3 Data b Hb), (proj2 (Z.eqb_neq _ _)).
    + split; [|done]. intros κ c Hc Hin Hn. apply (Hv c κ Hc).
      * intros ->. apply Hn. by left.
      * intros ->. done.
  - right. destruct (run_errno (A := file_rtvl * block_map_t) s1 (2 + k) (2 + w) ENOSPC (FILE_FAIL, map_at (blk s) last) Hg1) as (s2 & E2 & Hg2 & _ & He).
    exists s2. split; [|split; [done|eapply good_weaken; [| |exact Hg2]; lia]].
    apply returned_run. right. erewrite er_step by (apply stmt_run; exact E1). exact E2.
Qed.

Lemma peek_nat (l : list Z) (j : nat) v : l !! j = Some v -> peek l (Z.of_nat j) = Ret v.
Proof. intros Hj. unfold peek. rewrite (proj2 (Z.ltb_ge _ _)) by lia. by rewrite Nat2Z.id, Hj. Qed.

Lemma poke_nat (l : list Z) (j : nat) v : (j < length l)%nat -> poke l (Z.of_nat j) v = Ret (<[j := v]> l).
Proof.
  intros Hj. unfold poke. rewrite (proj2 (Z.leb_le _ _)), (proj2 (Z.ltb_lt _ _)) by lia. by rewrite Nat2Z.id.
Qed.

Lemma run_add_data s k w first bs ds q j m : file valid (blk s) (in_use s) first bs ds -> bs !! q = Some m ->
  (j < BMAP_BLOCKS)%nat -> length ds = (BMAP_BLOCKS * q + j)%nat -> good (cost + 2 + k) (4 + w) s ->
  (exists b s', file_add_one_data_block dev m (map_at (blk s) m) (Z.of_nat j) s =
     Ret ((FILE_OK, map_at (blk s') m), s') /\ good k w s' /\
     file valid (blk s') (in_use s') first bs (ds ++ [b]) /\ apart s [m] s' /\ ~ in_use s b /\ blk s' b = zero_data) \/
  no_room k w (FILE_FAIL, map_at (blk s) m) (file_add_one_data_block dev m (map_at (blk s) m) (Z.of_nat j) s).
Proof.
  intros Hf Hq Hj Hlen Hg. unfold file_add_one_data_block.
  destruct (alloc_ok Data (2 + k) (2 + w) s 0) as (r & b & s1 & E1 & Hg1 & Hv1 & Hu1 & Hr);
    [eapply good_weaken; [| |exact Hg]; lia|].
  pose proof (list_elem_of_lookup_2 _ _ _ Hq) as Hin.
  assert (valid Data m) as Hm by (apply (file_valid _ _ _ _ _ _ Hf); by left).
  assert (cok block_map_t_codec (map_at (blk s) m)) as Hcm.
  { pose proof (f_maps _ _ _ _ _ _ Hf) as H. rewrite Forall_forall in H. by apply H. }
  destruct Hr as [(-> & Hb & Hnb & Hub)|(-> & ->)].
  - left. destruct (area_bounds Data b Hb) as [Hbr Hb0].
    pose proof (cok_map_slot _ j b Hcm Hbr) as Hcok. set (m' := BlockMap _ _) in Hcok.
    destruct (run_write_block s1 (1 + k) (1 + w) Data b zero_data EACCES (FILE_FAIL, m') Hg1 Hb eq_refl)
      as (s2 & E2 & Hg2 & Hs2).
    destruct (run_write_codec block_map_t_codec s2 k w Data m m' EACCES (FILE_FAIL, m') eq_refl Hcok Hg2 Hm)
      as (s3 & E3 & Hg3 & Hs3).
    pose proof (stored_map _ _ _ _ Hcok Hm Hs3) as Em.
    assert (m <> b) as Hne.
    { intros ->. apply Hnb. apply (file_in_use _ _ _ _ _ _ Hf). by left. }
    assert (forall c κ, valid κ c -> c <> m -> c <> b -> blk s3 c = blk s c) as Hv.
    { intros c κ Hc H1 H2. rewrite (proj1 Hs3 κ c Hc), (proj1 Hs2 κ c Hc), (Hv1 κ c Hc).
      by rewrite !(proj2 (Z.eqb_neq _ _)). }
    assert (forall c, in_use s c -> in_use s3 c) as Hu.
    { intros c Hc. apply (proj2 Hs3), (proj2 Hs2). auto. }
    exists b, s3. split; [|split; [done|split; [|split; [|split; [done|]]]]].
    + apply returned_run. left. erewrite er_step by (apply stmt_run; exact E1). cbn [fst snd].
      rewrite bool_decide_eq_true_2 by done. cbn [negb].
      rewrite poke_nat by (by rewrite (cok_no_map _ Hcm)).
      erewrite er_step by reflexivity. erewrite er_step by exact E2. erewrite er_step by exact E3. by rewrite Em.
    + apply (grow_data valid (blk s) _ (in_use s)) with q j m; try done; [| |by rewrite Em].
      * apply (proj2 Hs3), (proj2 Hs2). done.
      * intros c Hc Hn. apply (Hv c Data); [apply (file_valid _ _ _ _ _ _ Hf); by left|done|].
        intros ->. apply Hnb, (file_in_use _ _ _ _ _ _ Hf). by left.
    + split; [|done]. intros κ c Hc Hi Hn. apply (Hv c κ Hc).
      * intros ->. apply Hn. by left.
      * intros ->. done.
    + rewrite (proj1 Hs3 Data b Hb), (proj2 (Z.eqb_neq _ _)) by done.
      by rewrite (proj1 Hs2 Data b Hb), Z.eqb_refl.
  - right. destruct (run_errno (A := file_rtvl * block_map_t) s1 (2 + k) (2 + w) ENOSPC (FILE_FAIL, map_at (blk s) m) Hg1)
      as (s2 & E2 & Hg2 & _ & He).
    exists s2. split; [|split; [done|eapply good_weaken; [| |exact Hg2]; lia]].
    apply returned_run. right. erewrite er_step by (apply stmt_run; exact E1). exact E2.
Qed.

(** ** From one data block to the next *)

(** The cursor is at data block [q] of the file. *)
Definition placed (s : S) (bs ds : list Z) (q : nat) (c : cursor) : Prop :=
  exists k j, q = (BMAP_BLOCKS * k + j)%nat /\ (j < BMAP_BLOCKS)%nat /\ bs !! k = Some (at_current c) /\
    at_map c = map_at (blk s) (at_current c) /\ at_iblock c = Z.of_nat j /\ ds !! q = Some (at_start c).

(** The file [bs], [ds] has become [bs'], [ds'], with zeros at the end. *)
Definition extends (s : S) (first : Z) (bs ds : list Z) (s' : S) (bs' ds' : list Z) : Prop :=
  file valid (blk s') (in_use s') first bs' ds' /\ apart s bs s' /\ (length ds <= length ds')%nat /\
  bytes (blk s') ds' = bytes (blk s) ds ++ replicate (512 * (length ds' - length ds)) 0 /\
  (forall c, (c ∈ bs') -> (c ∈ bs) \/ ~ in_use s c) /\ (forall c, (c ∈ ds') -> (c ∈ ds) \/ ~ in_use s c).

Lemma extends_refl s first bs ds s' : file valid (blk s) (in_use s) first bs ds -> same s s' ->
  extends s first bs ds s' bs ds.
Proof.
  intros Hf Hs. split; [|split; [by apply same_apart|split; [lia|split; [|split; by left]]]].
  - apply (file_agree _ _ _ _ _ _ Hf); [|intros b; apply (proj2 Hs)]. intros b Hb. apply (proj1 Hs Data).
    apply (file_valid _ _ _ _ _ _ Hf). by left.
  - rewrite Nat.sub_diag, app_nil_r. unfold bytes. f_equal. apply list_fmap_ext. intros i b Hb.
    apply (proj1 Hs Data). apply (file_valid _ _ _ _ _ _ Hf). right. by eapply list_elem_of_lookup_2.
Qed.

Lemma extends_trans s first bs ds s1 bs1 ds1 s2 bs2 ds2 : extends s first bs ds s1 bs1 ds1 ->
  extends s1 first bs1 ds1 s2 bs2 ds2 -> extends s first bs ds s2 bs2 ds2.
Proof.
  intros (H1 & H2 & H3 & H4 & H5 & H6) (J1 & J2 & J3 & J4 & J5 & J6). split; [done|]. split; [by eapply apart_trans|].
  split; [lia|]. split.
  - rewrite J4, H4, <- app_assoc, <- replicate_add. do 2 f_equal. lia.
  - split; intros c Hc.
    + destruct (J5 c Hc) as [?|Hn]; [auto|right]. intros Hu. apply Hn. by apply (proj2 H2).
    + destruct (J6 c Hc) as [?|Hn]; [auto|right]. intros Hu. apply Hn. by apply (proj2 H2).
Qed.

(** Data blocks are not block maps. *)
Lemma file_bytes_apart s first bs ds m s' : file valid (blk s) (in_use s) first bs ds -> (m ∈ bs) -> apart s [m] s' ->
  bytes (blk s') ds = bytes (blk s) ds.
Proof.
  intros Hf Hm (Hv & _). unfold bytes. f_equal. apply list_fmap_ext. intros i b Hb.
  apply list_elem_of_lookup_2 in Hb. apply (Hv Data).
  - apply (file_valid _ _ _ _ _ _ Hf). by right.
  - apply (file_in_use _ _ _ _ _ _ Hf). by right.
  - intros ->%list_elem_of_singleton. by apply (file_apart _ _ _ _ _ _ Hf m).
Qed.

Lemma apart_in s bs m s' : (m ∈ bs) -> apart s [m] s' -> apart s bs s'.
Proof.
  intros Hm (Hv & Hu). split; [|done]. intros κ c Hc Hi Hn. apply (Hv κ); [done|done|].
  by intros ->%list_elem_of_singleton.
Qed.

Lemma run_next_map ino io s k w first bs ds i : file valid (blk s) (in_use s) first bs ds ->
  bs !! i = Some (at_current (io_at io)) -> at_map (io_at io) = map_at (blk s) (at_current (io_at io)) ->
  good (cost + 3 + k) (5 + w) s ->
  (exists m s' bs', next_map dev ino io s = Ret (inr (map_at (blk s') m, m), s') /\ good k w s' /\
     extends s first bs ds s' bs' ds /\ bs' !! Datatypes.S i = Some m /\
     ((Datatypes.S i < length bs)%nat -> same s s' /\ bs' = bs) /\ (length bs' <= 1 + length bs)%nat) \/
  no_room k w (inl (failed ino io)) (next_map dev ino io s) /\ length bs = Datatypes.S i.
Proof.
  intros Hf Hi Hm Hg. unfold next_map. pose proof (map_next _ _ _ _ _ _ (f_chain _ _ _ _ _ _ Hf) Hi) as Hn.
  rewrite Hm, Hn. destruct (bs !! Datatypes.S i) as [m|] eqn:Hi'; cbn [default from_option id].
  - left. pose proof (list_elem_of_lookup_2 _ _ _ Hi') as Hin.
    assert (valid Data m) as Hv by (apply (file_valid _ _ _ _ _ _ Hf); by left).
    rewrite (proj2 (Z.eqb_neq _ _)) by (by apply area_bounds in Hv as [_ ?]).
    destruct (run_read_bmap s (cost + 2 + k) (4 + w) m zero_map EACCES (failed ino io)) as (s1 & E1 & Hg1 & Hs1);
      [eapply good_weaken; [| |exact Hg]; lia|done|].
    exists m, s1, bs. split; [|split; [eapply good_weaken; [| |exact Hg1]; lia|split; [by apply extends_refl|]]].
    2: { split; [done|]. split; [done|lia]. }
    erewrite er_step by reflexivity. rewrite Hn. cbn [default from_option id]. erewrite er_step by exact E1.
    assert (map_at (blk s1) m = map_at (blk s) m) as -> by (unfold map_at; by rewrite (proj1 Hs1 Data)). done.
  - rewrite Z.eqb_refl.
    assert (exists bs0, bs = bs0 ++ [at_current (io_at io)] /\ length bs0 = i) as (bs0 & Ebs & Hlen).
    { exists (take i bs). rewrite length_take. apply lookup_ge_None_1 in Hi'. pose proof (lookup_lt_Some _ _ _ Hi) as Hlt.
      split; [|lia]. rewrite <- (take_drop_middle bs i _ Hi) at 1. rewrite (drop_ge bs (Datatypes.S i)) by lia. done. }
    rewrite Ebs in Hf. destruct (run_add_map s (1 + k) (1 + w) first bs0 (at_current (io_at io)) ds Hf)
      as [(b & s1 & E1 & Hg1 & Hf1 & Ha1 & Hb & Hvb)|(s1 & E1 & He1 & Hg1)];
      [eapply good_weaken; [| |exact Hg]; lia| |].
    + left. destruct (run_read_bmap s1 k w b zero_map EACCES (failed ino io) Hg1 Hvb) as (s2 & E2 & Hg2 & Hs2).
      exists b, s2, (bs0 ++ [at_current (io_at io); b]). split; [|split; [eapply good_weaken; [| |exact Hg2]; lia|split]].
      * erewrite er_step. 2: { erewrite er_step by (apply stmt_run; exact E1). reflexivity. }
        cbn [b_next snd]. erewrite er_step by exact E2.
        assert (map_at (blk s2) b = map_at (blk s1) b) as -> by (unfold map_at; by rewrite (proj1 Hs2 Data)). done.
      * apply (extends_trans _ _ _ _ s1 (bs0 ++ [at_current (io_at io); b]) ds); [|by apply extends_refl].
        assert (at_current (io_at io) ∈ bs0 ++ [at_current (io_at io)]) as Hcur by (apply elem_of_app; right; by left).
        rewrite Ebs. split; [done|]. split; [by eapply apart_in|]. split; [done|]. split; [|split].
        -- rewrite Nat.sub_diag, app_nil_r. by eapply file_bytes_apart.
        -- intros c [Hc|[-> | ->%list_elem_of_singleton]%elem_of_cons]%elem_of_app;
             [left; by apply elem_of_app; left|by left|by right].
        -- intros c Hc. by left.
      * change [at_current (io_at io); b] with ([at_current (io_at io)] ++ [b]). rewrite app_assoc.
        split; [apply list_lookup_middle; rewrite length_app, Hlen; cbn; lia|].
        rewrite Ebs, !length_app. cbn [length]. lia.
    + right. split; [|rewrite Ebs, length_app; cbn; lia]. exists s1.
      split; [|split; [done|eapply good_weaken; [| |exact Hg1]; lia]].
      erewrite er_exit; [reflexivity|]. erewrite er_step by (apply stmt_run; exact E1). reflexivity.
Qed.

Lemma run_next_data ino io s k w first bs ds i j m : file valid (blk s) (in_use s) first bs ds ->
  bs !! i = Some m -> (j < BMAP_BLOCKS)%nat -> (BMAP_BLOCKS * i + j <= length ds)%nat -> good (cost + 2 + k) (4 + w) s ->
  (exists b s' ds', next_data dev ino io (map_at (blk s) m) m (Z.of_nat j) s = Ret (inr (map_at (blk s') m, b), s') /\
     good k w s' /\ extends s first bs ds s' bs ds' /\ ds' !! (BMAP_BLOCKS * i + j)%nat = Some b /\
     ((BMAP_BLOCKS * i + j < length ds)%nat -> same s s' /\ ds' = ds) /\ (length ds' <= 1 + length ds)%nat) \/
  no_room k w (inl (failed ino io)) (next_data dev ino io (map_at (blk s) m) m (Z.of_nat j) s) /\
    length ds = (BMAP_BLOCKS * i + j)%nat.
Proof.
  intros Hf Hi Hj Hq Hg. unfold next_data. pose proof (file_slot _ _ _ _ _ _ Hf i j m Hi Hj) as Hslot.
  rewrite (peek_nat _ _ _ Hslot). erewrite er_step by reflexivity.
  destruct (ds !! (BMAP_BLOCKS * i + j)%nat) as [b|] eqn:Hb; cbn [default from_option id] in *.
  - left. exists b, s, ds.
    assert (valid Data b) as Hv by (apply (file_valid _ _ _ _ _ _ Hf); right; by eapply list_elem_of_lookup_2).
    rewrite (proj2 (Z.eqb_neq _ _)) by (by apply area_bounds in Hv as [_ ?]).
    split; [|split; [eapply good_weaken; [| |exact Hg]; lia|split; [by apply extends_refl|]]].
    2: { split; [done|]. split; [done|lia]. }
    erewrite er_step by reflexivity. rewrite (peek_nat _ _ _ Hslot). by erewrite er_step by reflexivity.
  - rewrite Z.eqb_refl. apply lookup_ge_None_1 in Hb.
    assert (length ds = (BMAP_BLOCKS * i + j)%nat) as Hlen by lia.
    destruct (run_add_data s k w first bs ds i j m Hf Hi Hj Hlen Hg) as [(b & s1 & E1 & Hg1 & Hf1 & Ha1 & Hb1 & Hz)|(s1 & E1 & He1 & Hg1)].
    + left. exists b, s1, (ds ++ [b]).
      assert (b_blocks (map_at (blk s1) m) !! j = Some b) as Hslot1.
      { rewrite (file_slot _ _ _ _ _ _ Hf1 i j m Hi Hj), <- Hlen. by rewrite list_lookup_middle. }
      split; [|split; [done|split; [|split; [by rewrite <- Hlen, list_lookup_middle|split; [intros ?; lia|rewrite length_app; cbn; lia]]]]].
      * erewrite er_step. 2: { erewrite er_step by (apply stmt_run; exact E1). reflexivity. }
        cbn [snd]. rewrite (peek_nat _ _ _ Hslot1). by erewrite er_step by reflexivity.
      * pose proof (list_elem_of_lookup_2 _ _ _ Hi) as Hm. split; [done|]. split; [by eapply apart_in|].
        rewrite length_app. cbn [length]. split; [lia|]. split; [|split; [by left|]].
        -- unfold bytes. rewrite map_app, concat_app. fold (bytes (blk s1) ds).
           rewrite (file_bytes_apart _ _ _ _ _ _ Hf Hm Ha1). cbn [map concat]. rewrite Hz, app_nil_r.
           unfold bytes, zero_data. do 2 f_equal. lia.
        -- intros c [Hc| ->%list_elem_of_singleton]%elem_of_app; [by left|by right].
    + right. split; [|done]. exists s1. split; [|done].
      erewrite er_exit; [reflexivity|]. erewrite er_step by (apply stmt_run; exact E1). reflexivity.
Qed.

Lemma next_iblock j : (j < BMAP_BLOCKS)%nat ->
  u32 (Z.of_nat j + 1) mod MAP_BLOCKS = if decide (Datatypes.S j = BMAP_BLOCKS) then 0 else Z.of_nat (Datatypes.S j).
Proof.
  unfold BMAP_BLOCKS, MAP_BLOCKS. intros Hj. rewrite u32_small by lia. case_decide as E.
  - by replace (Z.of_nat j + 1) with 127 by lia.
  - rewrite Z.mod_small; lia.
Qed.

Definition at_block (s : S) (io : io) (c : cursor) : FileIO.io :=
  Io (io_i io) (io_byte io) (io_data io) (blk s (at_start c)) c (io_dirty io).

Lemma run_advance ino io s k w first bs ds q : file valid (blk s) (in_use s) first bs ds ->
  placed s bs ds q (io_at io) -> good (2 * cost + 6 + k) (10 + w) s ->
  (exists c s' bs' ds', advance dev ino io s = Ret (inr (at_block s' io c), s') /\ good k w s' /\
     extends s first bs ds s' bs' ds' /\ placed s' bs' ds' (Datatypes.S q) c /\
     ((Datatypes.S q < length ds)%nat -> same s s' /\ bs' = bs /\ ds' = ds) /\
     (length bs' + length ds' <= 2 + length bs + length ds)%nat) \/
  no_room k w (inl (failed ino io)) (advance dev ino io s) /\ length ds = Datatypes.S q.
Proof.
  intros Hf (i & j & Hq & Hj & Hi & Hm & Hb & Hd) Hg. unfold advance. rewrite Hb, (next_iblock j Hj).
  pose proof (lookup_lt_Some _ _ _ Hd) as Hlt. pose proof (file_length _ _ _ _ _ _ Hf) as Hfl.
  (* what follows once the block map is there *)
  assert (forall s1 bs1 i' j' m, extends s first bs ds s1 bs1 ds -> bs1 !! i' = Some m -> (j' < BMAP_BLOCKS)%nat ->
    (BMAP_BLOCKS * i' + j')%nat = Datatypes.S q -> good (cost + 3 + k) (5 + w) s1 ->
    ((Datatypes.S q < length ds)%nat -> same s s1 /\ bs1 = bs) -> (length bs1 <= 1 + length bs)%nat ->
    let run := (q ← next_data dev ino io (map_at (blk s1) m) m (Z.of_nat j');
      dptr ← need_val (read_block dev q.2 (io_dptr io)) EACCES (failed ino io);
      mret (Io (io_i io) (io_byte io) (io_data io) dptr (At q.1 m (Z.of_nat j') q.2) (io_dirty io))) s1 in
    (exists c s' bs' ds', run = Ret (inr (at_block s' io c), s') /\ good k w s' /\
      extends s first bs ds s' bs' ds' /\ placed s' bs' ds' (Datatypes.S q) c /\
      ((Datatypes.S q < length ds)%nat -> same s s' /\ bs' = bs /\ ds' = ds) /\
     (length bs' + length ds' <= 2 + length bs + length ds)%nat) \/
    no_room k w (inl (failed ino io)) run /\ length ds = Datatypes.S q) as Hrest.
  { intros s1 bs1 i' j' m He Hi' Hj' Hq' Hg1 Hsame Hl1 run. subst run. pose proof (proj1 He) as Hf1.
    destruct (run_next_data ino io s1 (1 + k) (1 + w) first bs1 ds i' j' m Hf1 Hi' Hj' ltac:(lia))
      as [(b & s2 & ds2 & E2 & Hg2 & He2 & Hb2 & Hs2 & Hl2)|((s2 & E2 & He2 & Hg2) & Hlen)];
      [eapply good_weaken; [| |exact Hg1]; lia| |].
    - left. pose proof (proj1 He2) as Hf2.
      assert (valid Data b) as Hvb.
      { apply (file_valid _ _ _ _ _ _ Hf2). right. by eapply list_elem_of_lookup_2. }
      destruct (run_read_block s2 k w Data b (io_dptr io) EACCES (failed ino io) Hg2 Hvb) as (s3 & E3 & Hg3 & Hs3).
      exists (At (map_at (blk s2) m) m (Z.of_nat j') b), s3, bs1, ds2.
      split; [|split; [eapply good_weaken; [| |exact Hg3]; lia|split; [|split; [|split; [|lia]]]]].
      + erewrite er_step by exact E2. cbn [fst snd]. erewrite er_step by exact E3. unfold at_block. cbn [at_start].
        by rewrite (proj1 Hs3 Data b Hvb).
      + apply (extends_trans _ _ _ _ s1 bs1 ds); [done|]. apply (extends_trans _ _ _ _ s2 bs1 ds2); [done|].
        by apply extends_refl.
      + exists i', j'. cbn [at_map at_current at_iblock at_start]. rewrite <- Hq'. repeat (split; [done|]).
        split; [|done]. unfold map_at. rewrite (proj1 Hs3 Data); [done|]. apply (file_valid _ _ _ _ _ _ Hf2).
        left. by eapply list_elem_of_lookup_2.
      + intros H. destruct (Hsame H) as [Ha ->]. rewrite <- Hq' in H. destruct (Hs2 H) as [Hc ->].
        split; [|done]. split.
        * intros κ c Hc'. by rewrite (proj1 Hs3 κ c), (proj1 Hc κ c), (proj1 Ha κ c).
        * intros c. by rewrite (proj2 Hs3), (proj2 Hc), (proj2 Ha).
    - right. split; [|lia]. exists s2. split; [|split; [done|eapply good_weaken; [| |exact Hg2]; lia]].
      by erewrite er_exit by exact E2. }
  case_decide as Ej.
  - rewrite Z.eqb_refl.
    destruct (run_next_map ino io s (cost + 3 + k) (5 + w) first bs ds i Hf Hi Hm)
      as [(m & s1 & bs1 & E1 & Hg1 & He1 & Hi1 & Hs1 & Hl1)|((s1 & E1 & He1 & Hg1) & Hlen)];
      [eapply good_weaken; [| |exact Hg]; lia| |].
    + erewrite er_step by exact E1. cbn [fst snd].
      apply (Hrest s1 bs1 (Datatypes.S i) 0%nat m); [done|done|unfold BMAP_BLOCKS; lia|lia|done| |done].
      intros H. apply Hs1. nia.
    + right. split; [|nia]. exists s1. split; [|split; [done|eapply good_weaken; [| |exact Hg1]; lia]].
      by erewrite er_exit by exact E1.
  - rewrite (proj2 (Z.eqb_neq _ _)) by lia. erewrite er_step by reflexivity. cbn [fst snd]. rewrite Hm.
    apply (Hrest s bs i (Datatypes.S j) (at_current (io_at io))); [by apply extends_refl|done|lia|lia| |done|lia].
    eapply good_weaken; [| |exact Hg]; lia.
Qed.

(** ** Writing *)

(** The bytes of the file with the block in memory in place of block [q]. *)
Definition held (s : S) (ds : list Z) (q : nat) (dptr : list Z) : list Z := concat (<[q := dptr]> (map (blk s) ds)).

Lemma file_sectors s k w first bs ds : file valid (blk s) (in_use s) first bs ds -> good k w s ->
  Forall (fun l : list Z => length l = 512%nat) (map (blk s) ds).
Proof.
  intros Hf Hg. rewrite Forall_map. eapply Forall_impl; [apply (f_data _ _ _ _ _ _ Hf)|]. intros b Hb.
  by apply (view_length k w s Data).
Qed.

Lemma held_sectors s k w first bs ds q dptr : file valid (blk s) (in_use s) first bs ds -> good k w s ->
  length dptr = 512%nat -> Forall (fun l : list Z => length l = 512%nat) (<[q := dptr]> (map (blk s) ds)).
Proof. intros Hf Hg Hd. apply Forall_insert; [by eapply file_sectors|done]. Qed.

Lemma held_length s k w first bs ds q dptr : file valid (blk s) (in_use s) first bs ds -> good k w s ->
  length dptr = 512%nat -> length (held s ds q dptr) = (512 * length ds)%nat.
Proof.
  intros Hf Hg Hd. unfold held. rewrite (concat_length 512) by (by eapply held_sectors).
  by rewrite length_insert, length_map.
Qed.

Lemma held_same s ds q b : ds !! q = Some b -> held s ds q (blk s b) = bytes (blk s) ds.
Proof. intros Hb. unfold held, bytes. rewrite list_insert_id; [done|]. by rewrite list_lookup_fmap, Hb. Qed.

(** The block in memory goes back to the disk. *)
Lemma stored_held s s1 k w first bs ds q b dptr : file valid (blk s) (in_use s) first bs ds -> good k w s ->
  ds !! q = Some b -> stored s b dptr s1 ->
  file valid (blk s1) (in_use s1) first bs ds /\ bytes (blk s1) ds = held s ds q dptr /\ apart s [b] s1.
Proof.
  intros Hf Hg Hb (Hv & Hu). pose proof (list_elem_of_lookup_2 _ _ _ Hb) as Hin. split; [|split; [|split]].
  - apply (file_agree _ _ _ _ _ _ Hf); [|intros c; apply Hu]. intros c Hc.
    rewrite (Hv Data c) by (apply (file_valid _ _ _ _ _ _ Hf); by left). rewrite (proj2 (Z.eqb_neq _ _)); [done|].
    intros ->. by eapply (file_apart _ _ _ _ _ _ Hf).
  - unfold bytes, held. f_equal. apply list_eq. intros i. rewrite list_lookup_fmap.
    destruct (decide (i = q)) as [->|Hne].
    + rewrite Hb, list_lookup_insert_eq by (rewrite length_map; by eapply lookup_lt_Some).
      unfold fmap, option_fmap, option_map. rewrite (Hv Data b) by (apply (file_valid _ _ _ _ _ _ Hf); by right).
      by rewrite Z.eqb_refl.
    + rewrite list_lookup_insert_ne, list_lookup_fmap by done. destruct (ds !! i) as [c|] eqn:Hc; [|done].
      unfold fmap, option_fmap, option_map. f_equal.
      rewrite (Hv Data c) by (apply (file_valid _ _ _ _ _ _ Hf); right; by eapply list_elem_of_lookup_2).
      rewrite (proj2 (Z.eqb_neq _ _)); [done|]. intros ->. apply Hne.
      pose proof (f_apart _ _ _ _ _ _ Hf) as Hn. apply NoDup_app in Hn as (_ & _ & Hn). by eapply NoDup_lookup.
  - intros κ c Hc _ Hn. rewrite (Hv κ c Hc), (proj2 (Z.eqb_neq _ _)); [done|]. intros ->. apply Hn. by left.
  - intros c. apply Hu.
Qed.

Lemma placed_agree s s' bs ds q c : (forall b, b ∈ bs -> blk s' b = blk s b) -> placed s bs ds q c -> placed s' bs ds q c.
Proof.
  intros Hv (i & j & Hq & Hj & Hi & Hm & Hr). exists i, j. repeat (split; [done|]). split; [|done].
  rewrite Hm. unfold map_at. rewrite Hv; [done|by eapply list_elem_of_lookup_2].
Qed.

Lemma held_step s k w first bs ds q r dptr v : file valid (blk s) (in_use s) first bs ds -> good k w s ->
  length dptr = 512%nat -> (r < 512)%nat -> (q < length ds)%nat ->
  held s ds q (<[r := v]> dptr) = <[(512 * q + r)%nat := v]> (held s ds q dptr).
Proof.
  intros Hf Hg Hd Hr Hq. unfold held.
  rewrite <- (concat_insert 512 _ (held_sectors _ _ _ _ _ _ q dptr Hf Hg Hd) q r dptr v); [|rewrite list_lookup_insert_eq; [done|by rewrite length_map]|done].
  by rewrite list_insert_insert_eq.
Qed.

Definition stepped (io1 : FileIO.io) (i r : nat) : FileIO.io :=
  Io (Z.of_nat i) (Z.of_nat r) (io_data io1) (io_dptr io1) (io_at io1) (io_dirty io1).

Lemma step_within ino io io1 s i r : copy_byte false (i_size ino) io = Ret io1 -> io_i io1 = Z.of_nat i ->
  io_byte io1 = Z.of_nat r -> (r + 1 < 512)%nat -> Z.of_nat i + 1 < 4294967296 ->
  rw_step dev ino false io s = Ret (inr (stepped io1 (Datatypes.S i) (Datatypes.S r)), s).
Proof.
  intros Hc Hi Hr Hlt Hb. unfold rw_step. erewrite er_step by (unfold stmt, mbind, st_bind, lift; rewrite Hc; reflexivity).
  unfold DEV_BLOCK_SIZE. rewrite Hi, Hr, !u32_small, Z.mod_small by lia. cbn [io_byte].
  rewrite (proj2 (Z.eqb_neq _ _)) by lia. unfold stepped. by rewrite !Nat2Z.inj_succ, !Z.add_1_r.
Qed.

Lemma step_across ino reading io io1 s i : copy_byte reading (i_size ino) io = Ret io1 -> io_i io1 = Z.of_nat i ->
  io_byte io1 = 511 -> Z.of_nat i + 1 < 4294967296 ->
  rw_step dev ino reading io s = next_block dev ino reading (stepped io1 (Datatypes.S i) 0) s.
Proof.
  intros Hc Hi Hr Hb. unfold rw_step. erewrite er_step by (unfold stmt, mbind, st_bind, lift; rewrite Hc; reflexivity).
  unfold DEV_BLOCK_SIZE. rewrite Hi, Hr, !u32_small by lia. change ((511 + 1) mod 512) with 0. cbn [io_byte].
  rewrite Z.eqb_refl. unfold stepped. by rewrite Nat2Z.inj_succ, Z.add_1_r.
Qed.

Section Write.
Context (s0 : S) (first : Z) (bs0 ds0 : list Z) (pos : nat) (data : list Z) (ino : inode).
Hypothesis Hdata : Z.of_nat (length data) < 4294967296.
Hypothesis Hold : length (bytes (blk s0) ds0) = (512 * length ds0)%nat.

(** After [i] bytes; [old] is what the file held. *)
Record writing (s : S) (bs ds : list Z) (q r i : nat) (io : FileIO.io) : Prop := Writing {
  w_file : file valid (blk s) (in_use s) first bs ds;
  w_place : placed s bs ds q (io_at io);
  w_i : io_i io = Z.of_nat i;
  w_byte : io_byte io = Z.of_nat r;
  w_block : (r < 512)%nat /\ (pos + i = 512 * q + r)%nat;
  w_dptr : length (io_dptr io) = 512%nat;
  w_data : io_data io = data;
  w_held : held s ds q (io_dptr io) =
    overlay pos (take i data) (bytes (blk s0) ds0 ++ replicate (512 * (length ds - length ds0)) 0);
  w_clean : io_dirty io = false -> io_dptr io = blk s (at_start (io_at io));
  w_longer : (length ds0 <= length ds)%nat;
  w_apart : apart s0 (bs0 ++ ds0) s;
  w_new : forall c, (c ∈ bs ++ ds) -> (c ∈ bs0 ++ ds0) \/ ~ in_use s0 c
}.

Lemma writing_copy s k w bs ds q r i io : writing s bs ds q r i io -> (i < length data)%nat -> good k w s ->
  exists io1, copy_byte false (i_size ino) io = Ret io1 /\ io_i io1 = io_i io /\ io_byte io1 = io_byte io /\
    io_data io1 = data /\ io_at io1 = io_at io /\ io_dirty io1 = true /\ length (io_dptr io1) = 512%nat /\
    held s ds q (io_dptr io1) =
      overlay pos (take (Datatypes.S i) data) (bytes (blk s0) ds0 ++ replicate (512 * (length ds - length ds0)) 0).
Proof.
  intros [Hf (a & j & Hq & Hj & Ha & Hm & Hb & Hd) Hi Hbyte (Hr & Hpos) Hl Hda Hheld _ Hlong _ _] Hlt Hg.
  destruct (lookup_lt_is_Some_2 data i Hlt) as [v Hv]. pose proof (lookup_lt_Some _ _ _ Hd) as Hqd.
  exists (Io (io_i io) (io_byte io) (io_data io) (<[r := v]> (io_dptr io)) (io_at io) true).
  split; [|cbn; repeat (split; [done|]); split; [by rewrite length_insert|]].
  - unfold copy_byte. rewrite Hda, Hi, Hbyte, (peek_nat _ _ _ Hv). cbn [mbind outcome_bind].
    rewrite poke_nat by lia. done.
  - rewrite (held_step s k w first bs ds q r _ v Hf Hg Hl Hr Hqd), Hheld.
    assert (length (take i data) = i) as Hti by (rewrite length_take; lia).
    rewrite (take_S_r _ _ _ Hv), overlay_snoc; rewrite Hti; [by rewrite Hpos|].
    rewrite length_app, length_replicate, Hold. lia.
Qed.

Lemma writing_within s k w bs ds q r i io : writing s bs ds q r i io -> (i < length data)%nat -> good k w s ->
  (r + 1 < 512)%nat ->
  exists io', rw_step dev ino false io s = Ret (inr io', s) /\ writing s bs ds q (Datatypes.S r) (Datatypes.S i) io'.
Proof.
  intros Hw Hi Hg Hr. destruct (writing_copy s k w bs ds q r i io Hw Hi Hg) as (io1 & E1 & Ei & Er & Ed & Ea & Et & El & Eh).
  rewrite (w_i _ _ _ _ _ _ _ Hw) in Ei. rewrite (w_byte _ _ _ _ _ _ _ Hw) in Er.
  exists (stepped io1 (Datatypes.S i) (Datatypes.S r)). split; [apply (step_within ino io io1); [done|done|done|done|lia]|].
  destruct Hw as [Hf Hp _ _ (Hr' & Hpos) _ _ _ _ Hlong Hap Hnew]. split; cbn; try done.
  - by rewrite Ea.
  - lia.
  - by rewrite Et.
Qed.

Lemma writing_across s k w bs ds q i io : writing s bs ds q 511 i io -> (i < length data)%nat ->
  good (2 * cost + 7 + k) (11 + w) s ->
  (exists io' s' bs' ds', rw_step dev ino false io s = Ret (inr io', s') /\ good k w s' /\
     writing s' bs' ds' (Datatypes.S q) 0 (Datatypes.S i) io' /\
     (length bs' + length ds' <= 2 + length bs + length ds)%nat) \/
  (exists x, no_room k w (inl x) (rw_step dev ino false io s) /\ x_status x = FILE_FAIL) /\ length ds = Datatypes.S q.
Proof.
  intros Hw Hi Hg.
  destruct (writing_copy s _ _ bs ds q 511 i io Hw Hi Hg) as (io1 & E1 & Ei & Er & Ed & Ea & Et & El & Eh).
  rewrite (w_i _ _ _ _ _ _ _ Hw) in Ei. rewrite (w_byte _ _ _ _ _ _ _ Hw) in Er.
  destruct Hw as [Hf Hp _ _ (_ & Hpos) _ _ _ _ Hlong Hap Hnew].
  rewrite (step_across ino false io io1 s i E1 Ei Er) by lia. unfold next_block. cbn [negb orb stepped io_at io_dptr].
  pose proof Hp as (a & j & Hq & Hj & Ha & Hm & Hb & Hd). rewrite Ea.
  assert (valid Data (at_start (io_at io))) as Hvs.
  { apply (file_valid _ _ _ _ _ _ Hf). right. by eapply list_elem_of_lookup_2. }
  destruct (run_write_block s (2 * cost + 6 + k) (10 + w) Data (at_start (io_at io)) (io_dptr io1) EACCES
    (failed ino (stepped io1 (Datatypes.S i) 0))) as (s1 & E2 & Hg1 & Hs1);
    [eapply good_weaken; [| |exact Hg]; lia|done|done|].
  destruct (stored_held s s1 _ _ first bs ds q _ _ Hf Hg Hd Hs1) as (Hf1 & Hb1 & Ha1).
  assert (placed s1 bs ds q (io_at io)) as Hp1.
  { apply (placed_agree s); [|done]. intros c Hc. apply (proj1 Ha1 Data).
    - apply (file_valid _ _ _ _ _ _ Hf). by left.
    - apply (file_in_use _ _ _ _ _ _ Hf). by left.
    - intros ->%list_elem_of_singleton. eapply (file_apart _ _ _ _ _ _ Hf); [done|]. by eapply list_elem_of_lookup_2. }
  erewrite er_step. 2: exact E2.
  set (io2 := Io _ _ _ _ _ false). assert (io_at io2 = io_at io) as Ea2 by (cbn; done). rewrite <- Ea2 in Hp1.
  destruct (run_advance ino io2 s1 k w first bs ds q Hf1 Hp1 Hg1)
    as [(c & s2 & bs' & ds' & E3 & Hg2 & He & Hp2 & _ & Hcount)|((s2 & E3 & He & Hg2) & Hlen)].
  - left. exists (at_block s2 io2 c), s2, bs', ds'. split; [exact E3|]. split; [done|].
    destruct He as (Hf2 & Ha2 & Hlen & Hb2 & Hn1 & Hn2).
    assert (apart s0 (bs0 ++ ds0) s1) as Hap1.
    { apply (apart_trans _ _ s [at_start (io_at io)]); [done|done|]. intros c' ->%list_elem_of_singleton.
      apply Hnew, elem_of_app. right. by eapply list_elem_of_lookup_2. }
    assert (forall c', (c' ∈ bs' ++ ds') -> (c' ∈ bs0 ++ ds0) \/ ~ in_use s0 c') as Hnew'.
    { intros c' Hc'. assert ((c' ∈ bs ++ ds) \/ ~ in_use s1 c') as [H|H]; [|by apply Hnew|].
      - apply elem_of_app in Hc' as [Hc'|Hc']; [destruct (Hn1 c' Hc')|destruct (Hn2 c' Hc')]; auto;
          left; apply elem_of_app; auto.
      - right. intros H'. apply H. by apply (proj2 Hap1). }
    pose proof Hp2 as (a' & j' & _ & _ & _ & _ & _ & Hd'). split; [|done].
    split; cbn [at_block io_at io_i io_byte io_data io_dptr io_dirty io2 stepped]; try done; try lia.
    + apply (view_length k w s2 Data); [done|]. apply (file_valid _ _ _ _ _ _ Hf2). right.
      by eapply list_elem_of_lookup_2.
    + rewrite (held_same s2 ds' _ _ Hd'), Hb2, Hb1, Eh.
      rewrite <- overlay_app.
      * rewrite <- app_assoc, <- replicate_add. do 3 f_equal. lia.
      * rewrite length_take, length_app, length_replicate, Hold.
        pose proof (lookup_lt_Some _ _ _ Hd). lia.
    + apply (apart_trans _ _ s1 bs); [done|done|]. intros c' Hc'. apply Hnew, elem_of_app. by left.
  - right. split; [|done]. eexists. split; [exists s2; split; [exact E3|done]|done].
Qed.

(** [c] ends of blocks lie ahead. *)
Lemma writing_loop n c : forall s k w bs ds q r i io, writing s bs ds q r i io -> (i + n)%nat = length data ->
  (r + n < 512 * Datatypes.S c)%nat -> good ((2 * cost + 7) * c + k) (11 * c + w) s ->
  (exists io' s' bs' ds' q' r', rw_loop dev ino false n io s = Ret (inr io', s') /\ good k w s' /\
     writing s' bs' ds' q' r' (length data) io' /\ (length bs' + length ds' <= 2 * c + length bs + length ds)%nat) \/
  (exists x, no_room k w (inl x) (rw_loop dev ino false n io s) /\ x_status x = FILE_FAIL) /\
    (512 * length ds0 <= pos + length data)%nat.
Proof.
  revert c. induction n as [|n IH]; intros c s k w bs ds q r i io Hw Hn Hc Hg; cbn [rw_loop].
  { left. exists io, s, bs, ds, q, r. split; [done|]. split; [eapply good_weaken; [| |exact Hg]; lia|].
    replace (length data) with i by lia. split; [done|lia]. }
  pose proof (w_block _ _ _ _ _ _ _ Hw) as [Hr Hpos].
  destruct (Nat.lt_ge_cases (r + 1) 512) as [Hlt|Hge].
  - destruct (writing_within s _ _ bs ds q r i io Hw ltac:(lia) Hg Hlt) as (io1 & E1 & Hw1).
    rewrite (er_step _ _ _ _ _ E1). apply (IH c s k w bs ds q (Datatypes.S r) (Datatypes.S i)); [done|lia|lia|done].
  - assert (r = 511%nat) as -> by lia. destruct c as [|c]; [lia|].
    destruct (writing_across s ((2 * cost + 7) * c + k) (11 * c + w) bs ds q i io Hw ltac:(lia))
      as [(io1 & s1 & bs1 & ds1 & E1 & Hg1 & Hw1 & Hl1)|((x & (s1 & E1 & He & Hg1) & Hx) & Hlen)];
      [eapply good_weaken; [| |exact Hg]; nia| |].
    + rewrite (er_step _ _ _ _ _ E1).
      destruct (IH c s1 k w bs1 ds1 (Datatypes.S q) 0%nat (Datatypes.S i) io1 Hw1 ltac:(lia) ltac:(lia) Hg1)
        as [(io' & s' & bs' & ds' & q' & r' & E' & Hg' & Hw' & Hl')|?]; [|by right].
      left. exists io', s', bs', ds', q', r'. split; [done|]. split; [done|]. split; [done|lia].
    + right. split; [|pose proof (w_longer _ _ _ _ _ _ _ Hw); lia]. exists x. split; [|done]. exists s1.
      split; [by rewrite (er_exit _ _ _ _ _ E1)|]. split; [done|]. eapply good_weaken; [| |exact Hg1]; lia.
Qed.

(** The last block is written. *)
Lemma writing_flush {E} (e : E) s k w bs ds q r io : writing s bs ds q r (length data) io -> good (1 + k) (1 + w) s ->
  exists s1, (if io_dirty io then need (write_block dev (at_start (io_at io)) (io_dptr io)) EACCES e
              else mret tt) s = Ret (inr tt, s1) /\ good k w s1 /\
    file valid (blk s1) (in_use s1) first bs ds /\ placed s1 bs ds q (io_at io) /\ apart s0 (bs0 ++ ds0) s1 /\
    bytes (blk s1) ds = overlay pos data (bytes (blk s0) ds0 ++ replicate (512 * (length ds - length ds0)) 0).
Proof.
  intros [Hf Hp _ _ _ Hl _ Hheld Hclean _ Hap Hnew] Hg. pose proof Hp as (a & j & _ & _ & _ & _ & _ & Hd).
  rewrite firstn_all in Hheld. destruct (io_dirty io).
  - assert (valid Data (at_start (io_at io))) as Hvs.
    { apply (file_valid _ _ _ _ _ _ Hf). right. by eapply list_elem_of_lookup_2. }
    destruct (run_write_block s k w Data (at_start (io_at io)) (io_dptr io) EACCES e Hg Hvs Hl) as (s1 & E1 & Hg1 & Hs1).
    exists s1. split; [done|]. split; [done|].
    destruct (stored_held s s1 _ _ first bs ds q _ _ Hf Hg Hd Hs1) as (Hf1 & Hb1 & Ha1). split; [done|].
    split; [|split; [|by rewrite Hb1]].
    + apply (placed_agree s); [|done]. intros c Hc. apply (proj1 Ha1 Data).
      * apply (file_valid _ _ _ _ _ _ Hf). by left.
      * apply (file_in_use _ _ _ _ _ _ Hf). by left.
      * intros ->%list_elem_of_singleton. eapply (file_apart _ _ _ _ _ _ Hf); [done|]. by eapply list_elem_of_lookup_2.
    + apply (apart_trans _ _ s [at_start (io_at io)]); [done|done|]. intros c ->%list_elem_of_singleton.
      apply Hnew, elem_of_app. right. by eapply list_elem_of_lookup_2.
  - exists s. split; [done|]. split; [eapply good_weaken; [| |exact Hg]; lia|]. split; [done|]. split; [done|].
    split; [done|]. rewrite <- Hheld, Hclean by done. symmetry. by apply held_same.
Qed.
End Write.

(** ** Where a transfer starts *)

(** The place is at the start of the file, where the last transfer ended, or is
    looked up; a multiple of 65024 is looked up in the wrong block map. *)
Inductive findable (s : S) (bs ds : list Z) (ino : inode) (pos : Z) : Prop :=
| find_first : i_pos ino = 0 -> i_current ino = INODE_NULL -> pos = 0 -> findable s bs ds ino pos
| find_last : i_pos ino = pos -> i_current ino <> INODE_NULL -> 0 <= iblock ino ->
    placed s bs ds (Z.to_nat (pos / 512))
      (At (map_at (blk s) (current_parent ino)) (current_parent ino) (iblock ino) (i_current ino)) ->
    findable s bs ds ino pos
| find_seek : i_pos ino <> 0 \/ i_current ino <> INODE_NULL ->
    i_pos ino <> pos \/ i_current ino = INODE_NULL \/ iblock ino = INODE_NOPOS ->
    pos = 0 \/ pos mod 65024 <> 0 -> findable s bs ds ino pos.

Lemma maps_to_scan_spec pos : 0 <= pos < 4294967296 -> pos = 0 \/ pos mod 65024 <> 0 ->
  maps_to_scan pos = pos / 512 / 127 + 1 /\ first_iblock pos = pos / 512 mod 127.
Proof.
  intros Hpos Hm. unfold maps_to_scan, first_iblock, DEV_BLOCK_SIZE, MAP_BLOCKS.
  assert (0 <= pos / 512 < 8388608) as Hd by (split; [apply Z.div_pos; lia|apply Z.div_lt_upper_bound; lia]).
  rewrite (u32_small (pos / 512)) by lia. split; [|done].
  pose proof (Z.div_mod pos 512 ltac:(lia)) as Hdm. pose proof (Z.mod_pos_bound pos 512 ltac:(lia)) as Hr.
  set (q := pos / 512) in *. set (r := pos mod 512) in *.
  assert (r = 0 -> q <> 0 -> q mod 127 <> 0) as Hq.
  { intros Hr0 Hq0 Hz. destruct Hm as [Hm|Hm]; [lia|]. apply Hm.
    pose proof (Z.div_mod q 127 ltac:(lia)) as Hq'. replace pos with (q / 127 * 65024) by lia. apply Z.mod_mul. lia. }
  pose proof (Z.div_mod q 127 ltac:(lia)) as Hdq. pose proof (Z.mod_pos_bound q 127 ltac:(lia)) as Hrq.
  set (a := q / 127) in *. set (b := q mod 127) in *.
  assert (exists x, u32 (q + (if r =? 0 then 0 else 1) + (if pos =? 0 then 1 else 0)) = x /\
    x = q + (if r =? 0 then 0 else 1) + (if pos =? 0 then 1 else 0) /\ 127 * a < x <= 127 * a + 127) as (x & Ex & Ex' & Hx).
  { eexists. split; [apply u32_small|split; [done|]]; destruct (Z.eqb_spec r 0), (Z.eqb_spec pos 0); lia. }
  rewrite Ex. destruct (decide (x = 127 * a + 127)) as [->|Hne].
  - replace (127 * a + 127) with ((a + 1) * 127) by lia. rewrite Z.div_mul, Z.mod_mul by lia. cbn. lia.
  - replace x with ((x - 127 * a) + a * 127) by lia. rewrite Z.div_add, Z.mod_add by lia.
    rewrite Z.div_small, Z.mod_small by lia. rewrite (proj2 (Z.eqb_neq _ _)) by lia. lia.
Qed.

Lemma run_scan_maps ino data b0 s k w first bs ds n : file valid (blk s) (in_use s) first bs ds ->
  forall i m cur s1, same s s1 -> b_next m = default INODE_NULL (bs !! i) -> (i + n < length bs)%nat ->
  good (Datatypes.S n + k) (1 + w) s1 ->
  exists b s2, scan_maps ino data b0 (Datatypes.S n) dev m cur s1 = Ret (inr (map_at (blk s) b, b), s2) /\
    bs !! (i + n)%nat = Some b /\ same s s2 /\ good k (1 + w) s2.
Proof.
  intros Hf. induction n as [|n IH]; intros i m cur s1 Hs Hm Hn Hg;
    destruct (lookup_lt_is_Some_2 bs i ltac:(lia)) as [b Hb]; rewrite Hb in Hm; cbn [default from_option id] in Hm;
    assert (valid Data b) as Hv by (apply (file_valid _ _ _ _ _ _ Hf); left; by eapply list_elem_of_lookup_2).
  - destruct (run_read_bmap s1 k w b zero_map EACCES (Transfer FILE_FAIL ino data b0) Hg Hv) as (s2 & E2 & Hg2 & Hs2).
    assert (same s s2) as Hss.
    { split; [intros κ c Hc; by rewrite (proj1 Hs2 κ c), (proj1 Hs κ c)|intros c; by rewrite (proj2 Hs2), (proj2 Hs)]. }
    exists b, s2. rewrite Nat.add_0_r. split; [|done]. cbn [scan_maps]. rewrite Hm, (er_step _ _ _ _ _ E2).
    unfold map_at. by rewrite (proj1 Hs Data).
  - destruct (run_read_bmap s1 (Datatypes.S n + k) w b zero_map EACCES (Transfer FILE_FAIL ino data b0) Hg Hv) as (s2 & E2 & Hg2 & Hs2).
    assert (same s s2) as Hss.
    { split; [intros κ c Hc; by rewrite (proj1 Hs2 κ c), (proj1 Hs κ c)|intros c; by rewrite (proj2 Hs2), (proj2 Hs)]. }
    destruct (IH (Datatypes.S i) (map_at (blk s1) b) b s2 Hss) as (b' & s3 & E3 & Hb' & Hr); [|lia|done|].
    { rewrite <- (map_next _ _ _ _ _ _ (f_chain _ _ _ _ _ _ Hf) Hb). unfold map_at. by rewrite (proj1 Hs Data). }
    exists b', s3. replace (i + Datatypes.S n)%nat with (Datatypes.S i + n)%nat by lia. split; [|done].
    change (scan_maps ino data b0 (Datatypes.S (Datatypes.S n)) dev m cur) with
      (tmp ← need_val (read_bmap dev (b_next m) zero_map) EACCES (Transfer FILE_FAIL ino data b0);
       scan_maps ino data b0 (Datatypes.S n) dev tmp (b_next m)). rewrite Hm. by rewrite (er_step _ _ _ _ _ E2).
Qed.

Lemma run_find_start ino data b0 s k w bs ds pos : file valid (blk s) (in_use s) (i_next ino) bs ds ->
  i_dev ino = dev -> findable s bs ds ino (Z.of_nat pos) -> (pos < 512 * length ds)%nat -> Z.of_nat pos < 4294967296 ->
  good (length bs + 1 + k) (1 + w) s ->
  exists c s', find_start ino data b0 (Z.of_nat pos) s = Ret (inr (ino, c), s') /\ good k (1 + w) s' /\ same s s' /\
    placed s' bs ds (pos / 512) c.
Proof.
  intros Hf Hdev Hfind Hpos Hpr Hg. pose proof (chain_first _ _ _ _ (f_chain _ _ _ _ _ _ Hf)) as Hfirst.
  assert (valid Data (i_next ino)) as Hvf by (apply (file_valid _ _ _ _ _ _ Hf); left; by eapply list_elem_of_lookup_2).
  assert (forall s', same s s' -> forall c, (placed s bs ds (pos / 512) c) -> placed s' bs ds (pos / 512) c) as Hkeep.
  { intros s' Hs c. apply placed_agree. intros b Hb. apply (proj1 Hs Data). apply (file_valid _ _ _ _ _ _ Hf). by left. }
  unfold find_start. rewrite Hdev, (proj2 (Z.eqb_neq (i_next ino) _)) by (by apply area_bounds in Hvf as [_ ?]).
  pose proof (file_length _ _ _ _ _ _ Hf) as Hlen.
  assert (Z.to_nat (Z.of_nat pos / 512) = (pos / 512)%nat) as Eq.
  { transitivity (Z.to_nat (Z.of_nat (pos / 512))); [|apply Nat2Z.id]. f_equal. symmetry. apply (Nat2Z.inj_div pos 512). }
  destruct Hfind as [Hp Hc Hz|Hp Hc Hi Hpl|Hp Hl Hm].
  - rewrite Hp, Hc, !Z.eqb_refl. cbn [andb]. assert (pos = 0%nat) as -> by lia.
    destruct (run_read_bmap s (length bs + k) w (i_next ino) zero_map EACCES (Transfer FILE_FAIL ino data b0))
      as (s1 & E1 & Hg1 & Hs1); [eapply good_weaken; [| |exact Hg]; lia|done|].
    destruct (lookup_lt_is_Some_2 ds 0 ltac:(lia)) as [b Hb].
    assert (b_blocks (map_at (blk s) (i_next ino)) !! 0%nat = Some b) as Hslot.
    { rewrite (file_slot _ _ _ _ _ _ Hf 0 0 _ Hfirst) by (unfold BMAP_BLOCKS; lia). cbn. by rewrite Hb. }
    eexists _, s1. split; [|split; [eapply good_weaken; [| |exact Hg1]; lia|split; [done|]]].
    + rewrite (er_step _ _ _ _ _ E1), (peek_nat _ 0 _ Hslot : peek _ 0 = _). erewrite er_step by reflexivity. reflexivity.
    + apply Hkeep; [done|]. exists 0%nat, 0%nat. split; [done|]. split; [unfold BMAP_BLOCKS; lia|]. by repeat (split; [done|]).
  - rewrite Hp, Z.eqb_refl, (proj2 (Z.eqb_neq (i_current ino) _)) by done. rewrite andb_false_r. cbn [andb negb].
    rewrite (proj2 (Z.eqb_neq (iblock ino) _)) by (unfold INODE_NOPOS; lia). cbn [negb].
    rewrite Eq in Hpl. pose proof Hpl as (a & j & _ & Hj & Ha & _ & Hib & _). cbn [at_current at_iblock] in Ha, Hib.
    destruct (run_read_bmap s (length bs + k) w (current_parent ino) zero_map EACCES (Transfer FILE_FAIL ino data b0))
      as (s1 & E1 & Hg1 & Hs1).
    { eapply good_weaken; [| |exact Hg]; lia. }
    { apply (file_valid _ _ _ _ _ _ Hf). left. by eapply list_elem_of_lookup_2. }
    eexists _, s1. split; [|split; [eapply good_weaken; [| |exact Hg1]; lia|split; [done|by apply Hkeep]]].
    rewrite (er_step _ _ _ _ _ E1), u32_small by (unfold BMAP_BLOCKS in Hj; lia). reflexivity.
  - assert ((i_pos ino =? 0) && (i_current ino =? INODE_NULL) = false) as ->.
    { destruct Hp; [by rewrite (proj2 (Z.eqb_neq _ _))|]. by rewrite andb_comm, (proj2 (Z.eqb_neq _ _)). }
    assert ((i_pos ino =? Z.of_nat pos) && negb (i_current ino =? INODE_NULL) && negb (iblock ino =? INODE_NOPOS) = false) as ->.
    { destruct Hl as [H|[H|H]]; [by rewrite (proj2 (Z.eqb_neq _ _))|rewrite H, Z.eqb_refl; by rewrite andb_false_r|].
      rewrite H, Z.eqb_refl. by rewrite andb_false_r. }
    destruct (maps_to_scan_spec (Z.of_nat pos) ltac:(lia) Hm) as [-> ->].
    assert (Z.of_nat pos / 512 = Z.of_nat (pos / 512)) as -> by (symmetry; apply (Nat2Z.inj_div pos 512)).
    assert (Z.of_nat (pos / 512) / 127 = Z.of_nat (pos / 512 / BMAP_BLOCKS)) as ->
      by (symmetry; apply (Nat2Z.inj_div (pos / 512) BMAP_BLOCKS)).
    assert (Z.of_nat (pos / 512) mod 127 = Z.of_nat ((pos / 512) mod BMAP_BLOCKS)) as ->
      by (symmetry; apply (Nat2Z.inj_mod (pos / 512) BMAP_BLOCKS)).
    set (q := (pos / 512)%nat). replace (Z.to_nat (Z.of_nat (q / BMAP_BLOCKS) + 1)) with (Datatypes.S (q / BMAP_BLOCKS)) by lia.
    assert (q < length ds)%nat as Hq by (apply Nat.Div0.div_lt_upper_bound; lia).
    assert (q / BMAP_BLOCKS < length bs)%nat as Hqb.
    { apply Nat.Div0.div_lt_upper_bound. lia. }
    assert (q mod BMAP_BLOCKS < BMAP_BLOCKS)%nat as Hj by (apply Nat.mod_upper_bound; unfold BMAP_BLOCKS; lia).
    assert (q = BMAP_BLOCKS * (q / BMAP_BLOCKS) + q mod BMAP_BLOCKS)%nat as Edm by (apply Nat.div_mod_eq).
    destruct (run_scan_maps ino data b0 s (length bs - Datatypes.S (q / BMAP_BLOCKS) + 1 + k) w _ bs ds (q / BMAP_BLOCKS)
      Hf 0%nat (BlockMap (i_next ino) (b_blocks zero_map)) 0 s) as (b & s1 & E1 & Hb & Hs1 & Hg1).
    { done. } { by rewrite Hfirst. } { lia. } { eapply good_weaken; [| |exact Hg]; lia. }
    cbn [Nat.add] in Hb. destruct (lookup_lt_is_Some_2 ds q Hq) as [d Hd].
    assert (b_blocks (map_at (blk s) b) !! (q mod BMAP_BLOCKS)%nat = Some d) as Hslot.
    { rewrite (file_slot _ _ _ _ _ _ Hf _ _ _ Hb Hj), <- Edm. by rewrite Hd. }
    eexists _, s1. split; [|split; [eapply good_weaken; [| |exact Hg1]; lia|split; [done|]]].
    + rewrite (er_step _ _ _ _ _ E1). cbn [fst snd]. rewrite (peek_nat _ _ _ Hslot).
      erewrite er_step by reflexivity. reflexivity.
    + apply Hkeep; [done|]. exists (q / BMAP_BLOCKS)%nat, (q mod BMAP_BLOCKS)%nat. by repeat (split; [done|]).
Qed.

(** ** Reading *)

Lemma same_trans s s1 s2 : same s s1 -> same s1 s2 -> same s s2.
Proof.
  intros (Hv & Hu) (Hv' & Hu'). split; [intros κ b Hb; by rewrite (Hv' κ b), (Hv κ b)|].
  intros b. by rewrite Hu'.
Qed.

Lemma same_file s s1 first bs ds : same s s1 -> file valid (blk s) (in_use s) first bs ds ->
  file valid (blk s1) (in_use s1) first bs ds.
Proof. intros Hs Hf. by apply (extends_refl s first bs ds s1). Qed.

Lemma stored_same s s1 κ b : valid κ b -> stored s b (blk s b) s1 -> same s s1.
Proof.
  intros Hb (Hv & Hu). split; [|done]. intros κ' c Hc. rewrite (Hv κ' c Hc). by destruct (Z.eqb_spec c b) as [->|].
Qed.

Section Read.
Context (s0 : S) (first : Z) (bs ds : list Z) (pos len : nat) (data : list Z) (ino : inode).
Hypothesis Hf : file valid (blk s0) (in_use s0) first bs ds.
Hypothesis Hlen : (len <= length data)%nat /\ Z.of_nat len <= i_size ino /\ Z.of_nat len < 4294967296.
Hypothesis Hroom : (pos + len < 512 * length ds)%nat.
Hypothesis Hsec : Forall (fun l : list Z => length l = 512%nat) (map (blk s0) ds).

Record reading (s : S) (q r i : nat) (io : FileIO.io) : Prop := Reading {
  r_same : same s0 s;
  r_place : placed s bs ds q (io_at io);
  r_i : io_i io = Z.of_nat i;
  r_byte : io_byte io = Z.of_nat r;
  r_block : (r < 512)%nat /\ (pos + i = 512 * q + r)%nat;
  r_dptr : io_dptr io = blk s0 (at_start (io_at io));
  r_data : io_data io = overlay 0 (take i (drop pos (bytes (blk s0) ds))) data;
  r_clean : io_dirty io = false
}.

Lemma reading_copy s q r i io : reading s q r i io -> (i < len)%nat ->
  copy_byte true (i_size ino) io = Ret (Io (io_i io) (io_byte io)
    (overlay 0 (take (Datatypes.S i) (drop pos (bytes (blk s0) ds))) data) (io_dptr io) (io_at io) false).
Proof.
  intros [Hs (a & j & Hq & Hj & Ha & Hm & Hb & Hd) Hi Hr (Hr' & Hpos) Hdp Hda Hcl] Hlt. unfold copy_byte.
  rewrite Hi, Hr, Hdp, Hcl. rewrite (proj2 (Z.leb_gt _ _)) by lia.
  assert (map (blk s0) ds !! q = Some (blk s0 (at_start (io_at io)))) as Hq' by (by rewrite list_lookup_fmap, Hd).
  assert (length (blk s0 (at_start (io_at io))) = 512%nat) as Hl.
  { rewrite Forall_forall in Hsec. apply Hsec. by eapply list_elem_of_lookup_2. }
  destruct (lookup_lt_is_Some_2 (blk s0 (at_start (io_at io))) r ltac:(lia)) as [v Hv].
  rewrite (peek_nat _ _ _ Hv). cbn [mbind outcome_bind]. rewrite Hda.
  pose proof (concat_length 512 _ Hsec) as Hbl. change (concat _) with (bytes (blk s0) ds) in Hbl. rewrite length_map in Hbl.
  assert (length (take i (drop pos (bytes (blk s0) ds))) = i) as Hti by (rewrite length_take, length_drop; lia).
  assert (drop pos (bytes (blk s0) ds) !! i = Some v) as Hlk.
  { rewrite lookup_drop, Hpos. unfold bytes. rewrite (concat_lookup 512 _ Hsec q r _ Hq' Hr'). done. }
  rewrite poke_nat by (rewrite overlay_length by (rewrite Hti; lia); lia). cbn [mbind outcome_bind].
  rewrite (take_S_r _ _ _ Hlk), overlay_snoc by (rewrite Hti; lia). by rewrite Hti.
Qed.

Lemma reading_within s q r i io : reading s q r i io -> (i < len)%nat -> (r + 1 < 512)%nat ->
  exists io', rw_step dev ino true io s = Ret (inr io', s) /\ reading s q (Datatypes.S r) (Datatypes.S i) io'.
Proof.
  intros Hw Hi Hr. pose proof (reading_copy s q r i io Hw Hi) as E1.
  destruct Hw as [Hs Hp Hi' Hr' (Hr'' & Hpos) Hdp Hda Hcl].
  eexists. split.
  - unfold rw_step. erewrite er_step by (unfold stmt, mbind, st_bind, lift; rewrite E1; reflexivity).
    cbn [io_i io_byte io_data io_dptr io_at io_dirty]. unfold DEV_BLOCK_SIZE.
    rewrite Hi', Hr', !u32_small, Z.mod_small by lia. rewrite (proj2 (Z.eqb_neq _ _)) by lia. reflexivity.
  - split; cbn; try done; lia.
Qed.

Lemma reading_across s k w q i io : reading s q 511 i io -> (i < len)%nat ->
  good (2 * cost + 7 + k) (11 + w) s ->
  exists io' s', rw_step dev ino true io s = Ret (inr io', s') /\ good k w s' /\ reading s' (Datatypes.S q) 0 (Datatypes.S i) io'.
Proof.
  intros Hw Hi Hg. pose proof (reading_copy s q 511 i io Hw Hi) as E1.
  destruct Hw as [Hs Hp Hi' Hr' (Hr'' & Hpos) Hdp Hda Hcl].
  rewrite (step_across ino true io _ s i E1 Hi' Hr') by lia.
  cbn [stepped io_data io_dptr io_at io_dirty]. set (io2 := stepped _ _ _). unfold next_block. cbn [negb orb].
  pose proof Hp as (a & j & Hq & Hj & Ha & Hm & Hb & Hd).
  assert (valid Data (at_start (io_at io))) as Hvs.
  { apply (file_valid _ _ _ _ _ _ Hf). right. by eapply list_elem_of_lookup_2. }
  (* the block goes back unchanged when the end of the file is reached *)
  assert (exists s1, same s s1 /\ good (2 * cost + 6 + k) (10 + w) s1 /\
    (if i_size ino <=? io_i io2 then
       _ ← need (write_block dev (at_start (io_at io2)) (io_dptr io2)) EACCES (failed ino io2);
       advance dev ino (Io (io_i io2) (io_byte io2) (io_data io2) (io_dptr io2) (io_at io2) false)
     else advance dev ino io2) s = advance dev ino io2 s1) as (s1 & Hs1 & Hg1 & ->).
  { destruct (i_size ino <=? io_i io2).
    - destruct (run_write_block s (2 * cost + 6 + k) (10 + w) Data (at_start (io_at io2)) (io_dptr io2) EACCES
        (failed ino io2)) as (s1 & E2 & Hg1 & Hst); [eapply good_weaken; [| |exact Hg]; lia|done| |].
      { cbn. rewrite Hdp, <- (proj1 Hs Data) by done. by apply (view_length _ _ s Data _ Hg). }
      exists s1. split; [|split; [done|by rewrite (er_step _ _ _ _ _ E2)]].
      apply (stored_same s s1 Data (at_start (io_at io2))); [done|]. cbn in Hst |- *.
      rewrite Hdp, <- (proj1 Hs Data) in Hst by done. done.
    - exists s. split; [done|]. split; [eapply good_weaken; [| |exact Hg]; lia|done]. }
  pose proof (same_trans _ _ _ Hs Hs1) as Hs01. pose proof (same_file _ _ _ _ _ Hs01 Hf) as Hf1.
  assert (placed s1 bs ds q (io_at io2)) as Hp1.
  { apply (placed_agree s); [|done]. intros c Hc. apply (proj1 Hs1 Data). apply (file_valid _ _ _ _ _ _ Hf). by left. }
  destruct (run_advance ino io2 s1 k w first bs ds q Hf1 Hp1 Hg1)
    as [(c & s2 & bs' & ds' & E3 & Hg2 & _ & Hp2 & Hsame & _)|(_ & Hl)]; [|lia].
  destruct Hsame as (Hs2 & -> & ->); [lia|]. pose proof (same_trans _ _ _ Hs01 Hs2) as Hs02.
  eexists _, s2. split; [exact E3|]. split; [done|]. split; cbn; try done; try lia.
  apply (proj1 Hs02 Data). pose proof Hp2 as (a' & j' & _ & _ & _ & _ & _ & Hd').
  apply (file_valid _ _ _ _ _ _ Hf). right. by eapply list_elem_of_lookup_2.
Qed.

Lemma reading_loop n c : forall s k w q r i io, reading s q r i io -> (i + n)%nat = len ->
  (r + n < 512 * Datatypes.S c)%nat -> good ((2 * cost + 7) * c + k) (11 * c + w) s ->
  exists io' s' q' r', rw_loop dev ino true n io s = Ret (inr io', s') /\ good k w s' /\ reading s' q' r' len io'.
Proof.
  revert c. induction n as [|n IH]; intros c s k w q r i io Hw Hn Hc Hg; cbn [rw_loop].
  { exists io, s, q, r. split; [done|]. split; [eapply good_weaken; [| |exact Hg]; lia|]. by replace len with i by lia. }
  pose proof (r_block _ _ _ _ _ Hw) as [Hr Hpos].
  destruct (Nat.lt_ge_cases (r + 1) 512) as [Hlt|Hge].
  - destruct (reading_within s q r i io Hw ltac:(lia) Hlt) as (io1 & E1 & Hw1).
    rewrite (er_step _ _ _ _ _ E1). apply (IH c s k w q (Datatypes.S r) (Datatypes.S i)); [done|lia|lia|done].
  - assert (r = 511%nat) as -> by lia. destruct c as [|c]; [lia|].
    destruct (reading_across s ((2 * cost + 7) * c + k) (11 * c + w) q i io Hw ltac:(lia)) as (io1 & s1 & E1 & Hg1 & Hw1);
      [eapply good_weaken; [| |exact Hg]; nia|].
    rewrite (er_step _ _ _ _ _ E1). apply (IH c s1 k w (Datatypes.S q) 0%nat (Datatypes.S i)); [done|lia|lia|done].
Qed.
End Read.
End Runs.
