(* ===== verification/FileCorrect.v ===== *)
(** * What reading and writing a file do to its contents

    The theorems about [file_read_write], in terms of the contents of a file. *)

From stdpp Require Import gmap.
From S2P Require Import Prelude Errno Device Layout Alloc Store StoreSpec Paths Tree TreeSpec CreateSpec FileIO FileSpec.

Section Correct.
Context {S : Type} `{HF : FsOps S} {dev root : Z} {HL : StoreLaws S dev root}.

Abbreviation blk s := (view dev root s).
Abbreviation in_use s := (used dev root s).
Abbreviation valid := (area S dev root).
Abbreviation good := (good dev root).
Abbreviation cost := (alloc_cost S dev root).

(** An inode of the device, as [file_tab] holds it. *)
Definition opened (ino : inode) : Prop := i_dev ino = dev /\ valid Inodes (self ino) /\ cok inode_codec ino.

(** The file of [ino] has the contents [C] and the blocks [own]; a transfer at [pos]
    finds its place. *)
Inductive stands (s : S) (ino : inode) (C : list Z) (pos : nat) (own : list Z) : Prop :=
| stands_empty : i_next ino = INODE_NULL -> i_size ino = 0 -> C = [] -> pos = 0%nat -> own = [] ->
    stands s ino C pos own
| stands_file bs ds : file valid (blk s) (in_use s) (i_next ino) bs ds -> i_size ino < Z.of_nat (512 * length ds) ->
    C = take (Z.to_nat (i_size ino)) (bytes (blk s) ds) -> findable s bs ds ino (Z.of_nat pos) -> own = bs ++ ds ->
    stands s ino C pos own.

(** ** The inode after a transfer *)

Lemma cok_split i : cok inode_codec i -> 0 <= i_size i /\ 0 <= i_next i.
Proof.
  destruct i. cbn -[MAX_PATH INODE_PAD]. intros H. repeat match goal with H : _ /\ _ |- _ => destruct H end. lia.
Qed.

Lemma settle_fields pos n c i :
  i_size (settle pos n c i) = (if i_size i <? u64 (pos + n) then u64 (pos + n) else i_size i) /\
  i_pos (settle pos n c i) = u64 (pos + n) /\ i_current (settle pos n c i) = at_start c /\
  current_parent (settle pos n c i) = at_current c /\ iblock (settle pos n c i) = i32 (at_iblock c) /\
  i_next (settle pos n c i) = i_next i /\ self (settle pos n c i) = self i /\ i_dev (settle pos n c i) = i_dev i.
Proof. unfold settle. destruct i. cbn. destruct (_ <? _); by repeat (split; [done|]). Qed.

Lemma cok_settle pos n c i : cok inode_codec i -> 0 <= at_start c < 4294967296 -> 0 <= at_current c < 4294967296 ->
  cok inode_codec (settle pos n c i).
Proof.
  intros Hi Hs Hc. pose proof (uwrap_range 64 (pos + n) ltac:(lia)) as Hu. pose proof (swrap_range 32 (at_iblock c) ltac:(lia)) as Hb.
  unfold settle. destruct i. cbn -[MAX_PATH INODE_PAD] in *. change (2 ^ 64) with 18446744073709551616 in Hu.
  change (2 ^ (32 - 1)) with 2147483648 in Hb.
  repeat match goal with H : _ /\ _ |- _ => destruct H end.
  destruct (_ <? _); cbn -[MAX_PATH INODE_PAD]; repeat match goal with |- _ /\ _ => split end; first [assumption|lia].
Qed.

Lemma take_overlay (n pos : nat) (data B Z0 : list Z) : (pos <= n <= length B)%nat ->
  take (Nat.max n (pos + length data)) (overlay pos data (B ++ Z0)) = overlay pos data (take n B).
Proof.
  intros Hn. unfold overlay. rewrite (take_app_le B) by lia. rewrite take_take, Nat.min_l by lia.
  rewrite take_app_ge by (rewrite length_take; lia). rewrite length_take, Nat.min_l by lia. f_equal.
  rewrite take_app_ge by lia. f_equal. destruct (Nat.le_gt_cases n (pos + length data)).
  - rewrite Nat.max_r by lia. rewrite (drop_ge (take n B)) by (rewrite length_take; lia).
    by replace (pos + length data - pos - length data)%nat with 0%nat by lia.
  - rewrite Nat.max_l by lia. rewrite drop_app_le by lia. rewrite take_app_le by (rewrite length_drop; lia).
    rewrite skipn_firstn_comm. f_equal. lia.
Qed.

Lemma stored_inode s s' i : valid Inodes (self i) -> cok inode_codec i -> stored s (self i) (enc inode_codec i) s' ->
  node (blk s') (self i) = i /\ (forall b, valid Data b -> blk s' b = blk s b) /\ (forall b, in_use s' b <-> in_use s b).
Proof.
  intros Hv Hi (Hs & Hu). split; [|split; [|done]].
  - unfold node. rewrite (Hs Inodes) by done. rewrite Z.eqb_refl. by apply dec_inode.
  - intros b Hb. rewrite (Hs Data) by done. rewrite (proj2 (Z.eqb_neq _ _)); [done|]. intros ->. by eapply areas_apart.
Qed.

(** The place a transfer leaves in the inode. *)
Lemma settle_stands s s' ino c bs ds q r pos n : file valid (blk s) (in_use s) (i_next ino) bs ds ->
  placed s bs ds q c -> (r < 512)%nat -> (pos + n = 512 * q + r)%nat -> Z.of_nat (pos + n) < 4294967296 ->
  i_size ino < Z.of_nat (512 * length ds) -> 0 <= i_size ino ->
  (forall b, valid Data b -> blk s' b = blk s b) -> (forall b, in_use s' b <-> in_use s b) ->
  stands s' (settle (Z.of_nat pos) (Z.of_nat n) c ino)
    (take (Nat.max (Z.to_nat (i_size ino)) (pos + n)) (bytes (blk s) ds)) (pos + n) (bs ++ ds).
Proof.
  intros Hf (i & j & Hq & Hj & Hi & Hm & Hb & Hd) Hr Hpn Hlt Hsz Hsz0 Hv Hu.
  destruct (settle_fields (Z.of_nat pos) (Z.of_nat n) c ino) as (F1 & F2 & F3 & F4 & F5 & F6 & _).
  assert (u64 (Z.of_nat pos + Z.of_nat n) = Z.of_nat (pos + n)) as Eu.
  { rewrite Nat2Z.inj_add. apply (uwrap_small 64). change (2 ^ 64) with 18446744073709551616. lia. }
  assert (i32 (at_iblock c) = Z.of_nat j) as Eb by (rewrite Hb; apply i32_small; unfold BMAP_BLOCKS in Hj; lia).
  rewrite Eu in F1, F2. rewrite Eb in F5. pose proof (lookup_lt_Some _ _ _ Hd) as Hql.
  assert (i_size (settle (Z.of_nat pos) (Z.of_nat n) c ino) = Z.of_nat (Nat.max (Z.to_nat (i_size ino)) (pos + n))) as Es.
  { rewrite F1. destruct (Z.ltb_spec (i_size ino) (Z.of_nat (pos + n))); lia. }
  assert (forall b, (b ∈ bs) \/ (b ∈ ds) -> blk s' b = blk s b) as Hv'.
  { intros b Hin. apply Hv. by apply (file_valid _ _ _ _ _ _ Hf). }
  apply (stands_file _ _ _ _ _ bs ds).
  - rewrite F6. apply (file_agree _ _ _ _ _ _ Hf); [intros b Hin; apply Hv'; by left|intros b; apply Hu].
  - rewrite Es. lia.
  - rewrite Es, Nat2Z.id. f_equal. unfold bytes. f_equal. apply list_fmap_ext. intros a b Hb'. symmetry.
    apply Hv'. right. by eapply list_elem_of_lookup_2.
  - apply find_last; [done| |rewrite F5; lia|].
    + rewrite F3. apply (area_bounds (S := S) (dev := dev) (root := root) Data). apply (file_valid _ _ _ _ _ _ Hf).
      right. by eapply list_elem_of_lookup_2.
    + assert (Z.to_nat (Z.of_nat (pos + n) / 512) = q) as ->.
      { rewrite Hpn. replace (Z.of_nat (512 * q + r)) with (Z.of_nat r + Z.of_nat q * 512) by lia.
        rewrite Z.div_add, Z.div_small by lia. lia. }
      rewrite F3, F4, F5. exists i, j. by repeat (split; [done|]).
  - done.
Qed.

(** ** Writing *)

(** A bound on the reads and writes of [n] bytes from the first block on. *)
Definition turns (n : nat) : nat := Datatypes.S (n / 512).

Lemma turns_enough r n : (r < 512)%nat -> (r + n < 512 * Datatypes.S (turns n))%nat.
Proof.
  intros Hr. unfold turns. pose proof (Nat.div_mod_eq n 512). pose proof (Nat.mod_upper_bound n 512 ltac:(lia)). lia.
Qed.

(** The file has at most [most] blocks then. *)
Definition wrote_file (s : S) (ino : inode) (C : list Z) (pos : nat) (data own : list Z) (most : nat) (x : transfer) (s' : S) : Prop :=
  x_status x = FILE_OK /\ x_bytes x = Z.of_nat (length data) /\ opened (x_inode x) /\
  self (x_inode x) = self ino /\ i_pos (x_inode x) = Z.of_nat (pos + length data) /\
  node (blk s') (self ino) = x_inode x /\
  (exists own', stands s' (x_inode x) (overlay pos data C) (pos + length data) own' /\
    (length own' <= most)%nat) /\
  apart s (self ino :: own) s'.

Lemma first_byte pos : Z.of_nat pos < 4294967296 -> u32 (Z.of_nat pos) mod DEV_BLOCK_SIZE = Z.of_nat (pos mod 512).
Proof. intros Hp. rewrite u32_small by lia. symmetry. apply (Nat2Z.inj_mod pos 512). Qed.

Lemma run_transfer_write s k w ino c bs ds pos data b0 : file valid (blk s) (in_use s) (i_next ino) bs ds ->
  placed s bs ds (pos / 512) c -> opened ino -> Z.of_nat (pos + length data) < 4294967296 ->
  (pos <= Z.to_nat (i_size ino))%nat -> i_size ino < Z.of_nat (512 * length ds) ->
  good ((2 * cost + 7) * turns (length data) + 3 + k) (11 * turns (length data) + 3 + w) s ->
  exists x s', good k w s' /\
    (transfer_from ino c (Z.of_nat pos) (Z.of_nat (length data)) data false b0 s = Ret (inr x, s') /\
     wrote_file s ino (take (Z.to_nat (i_size ino)) (bytes (blk s) ds)) pos data (bs ++ ds)
       (2 * turns (length data) + length (bs ++ ds)) x s' \/
     transfer_from ino c (Z.of_nat pos) (Z.of_nat (length data)) data false b0 s = Ret (inl x, s') /\
     x_status x = FILE_FAIL /\ the_errno s' = ENOSPC /\ (512 * length ds <= pos + length data)%nat).
Proof.
  intros Hf Hp (Hdev & Hself & Hcok) Hlt Hpos Hsz Hg. unfold transfer_from. rewrite Hdev.
  destruct (cok_split ino Hcok) as [Hsz0 _]. pose proof Hp as (i & j & _ & _ & _ & _ & _ & Hd).
  assert (valid Data (at_start c)) as Hvs.
  { apply (file_valid _ _ _ _ _ _ Hf). right. by eapply list_elem_of_lookup_2. }
  destruct (run_read_block s ((2 * cost + 7) * turns (length data) + 2 + k) (11 * turns (length data) + 2 + w) Data
    (at_start c) zero_data EACCES (Transfer FILE_FAIL ino data b0)) as (s1 & E1 & Hg1 & Hs1);
    [eapply good_weaken; [| |exact Hg]; lia|done|].
  rewrite (er_step _ _ _ _ _ E1), Nat2Z.id, first_byte by lia.
  pose proof (file_sectors _ _ _ _ _ _ Hf Hg) as Hsec. pose proof (concat_length 512 _ Hsec) as Hold.
  change (concat _) with (bytes (blk s) ds) in Hold. rewrite length_map in Hold.
  pose proof (same_file _ _ _ _ _ Hs1 Hf) as Hf1.
  assert (blk s1 (at_start c) = blk s (at_start c)) as Ed by (by apply (proj1 Hs1 Data)).
  assert (Forall (fun b => blk s1 b = blk s b) (bs ++ ds)) as Hsame.
  { rewrite Forall_forall. intros b Hb%elem_of_app. apply (proj1 Hs1 Data). by apply (file_valid _ _ _ _ _ _ Hf). }
  rewrite Forall_forall in Hsame.
  pose proof (Nat.mod_upper_bound pos 512 ltac:(lia)) as Hr. pose proof (Nat.div_mod_eq pos 512) as Hdm.
  set (q := (pos / 512)%nat) in *. set (r := (pos mod 512)%nat) in *.
  assert (writing (dev := dev) (root := root) s (i_next ino) bs ds pos data s1 bs ds q r 0
    (Io 0 (Z.of_nat r) data (blk s (at_start c)) c false)) as Hw.
  { split; cbn [io_at io_i io_byte io_data io_dptr io_dirty]; try done.
    - apply (placed_agree s); [|done]. intros b Hb. apply Hsame, elem_of_app. by left.
    - lia.
    - by apply (view_length _ _ s Data _ Hg).
    - rewrite <- Ed, (held_same s1 ds q _ Hd), overlay_nil, Nat.sub_diag, app_nil_r. unfold bytes. f_equal.
      apply list_fmap_ext. intros a b Hb. apply Hsame, elem_of_app. right. by eapply list_elem_of_lookup_2.
    - by apply same_apart.
    - by left. }
  destruct (writing_loop s (i_next ino) bs ds pos data ino ltac:(lia) Hold (length data) (turns (length data)) s1 (2 + k) (2 + w)
    bs ds q r 0 _ Hw eq_refl (turns_enough r _ Hr)) as [(io' & s2 & bs' & ds' & q' & r' & E2 & Hg2 & Hw2 & Hcount)|((x & (s2 & E2 & He & Hg2) & Hx) & Hl)];
    [eapply good_weaken; [| |exact Hg1]; lia| |].
  2: { exists x, s2. split; [eapply good_weaken; [| |exact Hg2]; lia|]. right. split; [by rewrite (er_exit _ _ _ _ _ E2)|].
    by split. }
  rewrite (er_step _ _ _ _ _ E2).
  destruct (writing_flush s (i_next ino) bs ds pos data Hold (failed ino io') s2 (1 + k) (1 + w) bs' ds' q' r' io' Hw2 Hg2)
    as (s3 & E3 & Hg3 & Hf3 & Hp3 & Ha3 & Hb3).
  rewrite (er_step _ _ _ _ _ E3). pose proof (w_i _ _ _ _ _ _ _ _ _ _ _ _ _ Hw2) as Hi. rewrite Hi.
  set (ino' := settle (Z.of_nat pos) (Z.of_nat (length data)) (io_at io') ino).
  destruct (settle_fields (Z.of_nat pos) (Z.of_nat (length data)) (io_at io') ino) as (_ & F2 & _ & _ & _ & _ & F7 & F8).
  pose proof Hp3 as (i3 & j3 & _ & _ & Hi3 & _ & _ & Hd3).
  assert (forall b, (b ∈ bs') \/ (b ∈ ds') -> valid Data b) as Hv3 by apply (file_valid _ _ _ _ _ _ Hf3).
  assert (cok inode_codec ino') as Hcok'.
  { apply cok_settle; [done| |].
    - apply (area_bounds (S := S) (dev := dev) (root := root) Data), Hv3. right. by eapply list_elem_of_lookup_2.
    - apply (area_bounds (S := S) (dev := dev) (root := root) Data), Hv3. left. by eapply list_elem_of_lookup_2. }
  assert (self ino' = self ino) as Eself by done. assert (i_dev ino' = dev) as Edev by (by rewrite <- Hdev; apply F8).
  destruct (run_write_codec inode_codec s3 k w Inodes (self ino') ino' EACCES (Transfer FILE_FAIL ino' (io_data io') (Z.of_nat (length data)))
    eq_refl Hcok' Hg3) as (s4 & E4 & Hg4 & Hs4); [by rewrite Eself|].
  rewrite (er_step _ _ _ _ _ E4). destruct (stored_inode s3 s4 ino' ltac:(by rewrite Eself) Hcok' Hs4) as (Hn4 & Hv4 & Hu4).
  eexists _, s4. split; [done|]. left. split; [reflexivity|].
  destruct (w_block _ _ _ _ _ _ _ _ _ _ _ _ _ Hw2) as [Hr' Hpos'].
  assert (length ds <= length ds')%nat as Hlong by apply (w_longer _ _ _ _ _ _ _ _ _ _ _ _ _ Hw2).
  split; [done|]. split; [done|]. split; [split; [exact Edev|split; [change (valid Inodes (self ino')); by rewrite Eself|exact Hcok']]|].
  split; [exact Eself|]. rewrite (uwrap_small 64) in F2 by (change (2 ^ 64) with 18446744073709551616; lia).
  split; [unfold x_inode, ino'; rewrite F2; lia|]. split; [by rewrite <- Eself|].
  split.
  - exists (bs' ++ ds'). split; [|rewrite !length_app; lia]. rewrite <- (take_overlay _ pos data (bytes (blk s) ds) (replicate (512 * (length ds' - length ds)) 0)) by lia.
    rewrite <- Hb3. apply (settle_stands s3 s4 ino _ bs' ds' q' r'); try done; lia.
  - split.
    + intros κ b Hb Hin Hn. apply not_elem_of_cons in Hn as [Hn1 Hn2].
      rewrite (proj1 Hs4 κ b Hb), Eself, (proj2 (Z.eqb_neq _ _)) by done. by apply (proj1 Ha3 κ).
    + intros b Hb. apply Hu4. by apply (proj2 Ha3).
Qed.

(** The first block map and the first data block. *)
Lemma run_first_blocks s k w ino data b0 : opened ino -> good (2 * cost + 4 + k) (7 + w) s ->
  (exists m b s', first_blocks ino data b0 dev s =
     Ret (inr (put_next m ino, At (map_at (blk s') m) m 0 b), s') /\ good k w s' /\
     file valid (blk s') (in_use s') m [m] [b] /\ apart s [self ino] s' /\ opened (put_next m ino) /\
     ~ in_use s m /\ ~ in_use s b) \/
  (exists x s', first_blocks ino data b0 dev s = Ret (inl x, s') /\ x_status x = FILE_FAIL /\ good k w s').
Proof.
  intros (Hdev & Hself & Hcok) Hg. unfold first_blocks.
  destruct (alloc_ok Data (cost + 4 + k) (5 + w) s 0) as (r & m & s1 & E1 & Hg1 & Hv1 & Hu1 & Hr);
    [eapply good_weaken; [| |exact Hg]; lia|].
  erewrite er_step by (apply stmt_run; exact E1). cbn [fst snd].
  destruct Hr as [(-> & Hm & Hnm & Hum)|(-> & ->)].
  2: { right. eexists _, s1. split; [done|]. split; [done|]. eapply good_weaken; [| |exact Hg1]; lia. }
  rewrite bool_decide_eq_true_2 by done. cbn [negb].
  destruct (area_bounds (S := S) (dev := dev) (root := root) Data m Hm) as [Hmr Hm0].
  set (ino' := put_next m ino). assert (self ino' = self ino) as Eself by (by destruct ino).
  pose proof (cok_put_next m ino Hcok Hmr) as Hcok'. fold ino' in Hcok'.
  destruct (run_write_codec inode_codec s1 (cost + 3 + k) (4 + w) Inodes (self ino') ino' EACCES
    (Transfer FILE_FAIL ino' data b0) eq_refl Hcok') as (s2 & E2 & Hg2 & Hs2);
    [eapply good_weaken; [| |exact Hg1]; lia|by rewrite Eself|].
  rewrite (er_step _ _ _ _ _ E2).
  destruct (run_write_block s2 (cost + 2 + k) (3 + w) Data m zero_data EACCES (Transfer FILE_FAIL ino' data b0))
    as (s3 & E3 & Hg3 & Hs3); [eapply good_weaken; [| |exact Hg2]; lia|done|done|].
  rewrite (er_step _ _ _ _ _ E3).
  assert (map_at (blk s3) m = zero_map) as Em3.
  { apply (stored_map s2 m zero_map s3); [apply cok_zero_map|done|by rewrite <- zero_data_map]. }
  destruct (run_read_bmap s3 (cost + 1 + k) (2 + w) m zero_map EACCES (Transfer FILE_FAIL ino' data b0))
    as (s4 & E4 & Hg4 & Hs4); [eapply good_weaken; [| |exact Hg3]; lia|done|].
  rewrite (er_step _ _ _ _ _ E4), Em3.
  destruct (alloc_ok Data (1 + k) (1 + w) s4 m) as (r & b & s5 & E5 & Hg5 & Hv5 & Hu5 & Hr);
    [eapply good_weaken; [| |exact Hg4]; lia|].
  erewrite er_step by (apply stmt_run; exact E5). cbn [fst snd].
  destruct Hr as [(-> & Hb & Hnb & Hub)|(-> & ->)].
  2: { right. destruct (run_errno (A := inode * cursor) s5 (1 + k) (1 + w) EACCES (Transfer FILE_FAIL ino' data b0) Hg5)
         as (s6 & E6 & Hg6 & _). eexists _, s6. split; [exact E6|]. split; [done|]. eapply good_weaken; [| |exact Hg6]; lia. }
  rewrite bool_decide_eq_true_2 by done. cbn [negb].
  destruct (area_bounds (S := S) (dev := dev) (root := root) Data b Hb) as [Hbr Hb0].
  assert (poke (b_blocks zero_map) 0 b = Ret (<[0%nat := b]> (b_blocks zero_map))) as ->.
  { apply (poke_nat _ 0). rewrite zero_map_spec. cbn. lia. }
  erewrite er_step by reflexivity. set (m' := BlockMap _ _).
  assert (cok block_map_t_codec m') as Hcm by apply (cok_map_slot zero_map 0 b cok_zero_map Hbr).
  destruct (run_write_codec block_map_t_codec s5 k w Data m m' EACCES (Transfer FILE_FAIL ino' data b0) eq_refl Hcm Hg5 Hm)
    as (s6 & E6 & Hg6 & Hs6).
  rewrite (er_step _ _ _ _ _ E6). pose proof (stored_map _ _ _ _ Hcm Hm Hs6) as Em.
  assert (in_use s4 m) as Hum4.
  { apply (proj2 Hs4), (proj2 Hs3), (proj2 Hs2). done. }
  assert (b <> m) as Hne by (intros ->; done).
  assert (forall c, in_use s c -> in_use s4 c) as Hu4.
  { intros c Hc. apply (proj2 Hs4), (proj2 Hs3), (proj2 Hs2). auto. }
  left. exists m, b, s6. split; [by rewrite Em|]. split; [done|]. split; [|split; [|split]].
  - split.
    + by constructor; [|rewrite Em].
    + exists 126%nat. unfold numbers. cbn [map concat]. rewrite Em, app_nil_r. unfold m'. by rewrite zero_map_spec.
    + by constructor.
    + apply NoDup_cons. split; [by intros ->%list_elem_of_singleton|apply NoDup_singleton].
    + constructor; [apply (proj2 Hs6); by apply Hu5|]. constructor; [by apply (proj2 Hs6)|done].
    + constructor; [by rewrite Em|done].
  - split.
    + intros κ c Hc Hin Hn. rewrite (proj1 Hs6 κ c Hc), (proj2 (Z.eqb_neq _ _)) by (by intros ->).
      rewrite (Hv5 κ c Hc), (proj1 Hs4 κ c Hc), (proj1 Hs3 κ c Hc), (proj2 (Z.eqb_neq _ _)) by (by intros ->).
      rewrite (proj1 Hs2 κ c Hc), Eself, (proj2 (Z.eqb_neq _ _)), (Hv1 κ c Hc); [done|].
      intros ->. apply Hn. by left.
    + intros c Hc. apply (proj2 Hs6). auto.
  - split; [exact Hdev|split; [exact Hself|exact Hcok']].
  - split; [done|]. intros Hub0. apply Hnb. apply Hu4. done.
Qed.

(** The reads and writes a transfer of [n] bytes to a file of [m] blocks may need. *)
Definition reads_for (m n : nat) : nat := (2 * cost + 7) * turns n + 2 * cost + 8 + m.
Definition writes_for (n : nat) : nat := 11 * turns n + 11.

Lemma run_file_write s ino C pos data own b0 k w : opened ino -> stands s ino C pos own -> data <> [] ->
  (pos <= length C)%nat -> Z.of_nat (pos + length data) < 4294967296 ->
  good (reads_for (length own) (length data) + k) (writes_for (length data) + w) s ->
  exists x s', file_read_write ino (Z.of_nat pos) (Z.of_nat (length data)) data false b0 s = Ret (x, s') /\ good k w s' /\
    (wrote_file s ino C pos data own (2 + 2 * turns (length data) + length own) x s' \/
     x_status x = FILE_FAIL /\ (length C < pos + length data)%nat).
Proof.
  intros Hop Hst Hdata Hpos Hlt Hg. destruct (cok_split ino (proj2 (proj2 Hop))) as [Hsz0 _].
  assert (length data <> 0%nat) as Hd0 by (by destruct data). unfold reads_for, writes_for in Hg.
  destruct Hst as [Hn Hz -> -> ->|bs ds Hf Hsz HC Hfind ->].
  - destruct (run_first_blocks s ((2 * cost + 7) * turns (length data) + 3 + k) (11 * turns (length data) + 3 + w) ino data b0 Hop)
      as [(m & b & s1 & E1 & Hg1 & Hf1 & Ha1 & Hop1 & Hnm & Hnb)|(x & s1 & E1 & Hx & Hg1)]; [eapply good_weaken; [| |exact Hg]; lia| |].
    2: { exists x, s1. split; [|split; [eapply good_weaken; [| |exact Hg1]; lia|right; cbn; split; [done|lia]]].
         unfold file_read_write. apply returned_run. right. rewrite (proj2 (Z.eqb_neq _ _)) by lia.
         apply er_exit. unfold find_start. by rewrite Hn, (proj1 Hop). }
    assert (placed (dev := dev) (root := root) s1 [m] [b] (0 / 512) (At (map_at (blk s1) m) m 0 b)) as Hp1.
    { exists 0%nat, 0%nat. split; [done|]. split; [unfold BMAP_BLOCKS; lia|]. by repeat (split; [done|]). }
    assert (i_size (put_next m ino) = i_size ino) as Esz by (by destruct ino).
    assert (self (put_next m ino) = self ino) as Eself by (by destruct ino).
    destruct (run_transfer_write s1 k w (put_next m ino) _ [m] [b] 0 data b0 Hf1 Hp1 Hop1 Hlt) as (x & s2 & Hg2 & Hr);
      [lia|cbn; lia|done|].
    assert (file_read_write ino 0 (Z.of_nat (length data)) data false b0 s = Ret (x, s2)) as Erun.
    { unfold file_read_write. apply returned_run. rewrite (proj2 (Z.eqb_neq _ _)) by lia.
      assert (find_start ino data b0 0 s = Ret (inr (put_next m ino, At (map_at (blk s1) m) m 0 b), s1)) as E.
      { unfold find_start. by rewrite Hn, (proj1 Hop). }
      destruct Hr as [[E2 _]|[E2 _]]; [left|right]; rewrite (er_step _ _ _ _ _ E); exact E2. }
    exists x, s2. split; [done|]. split; [done|].
    destruct Hr as [(_ & Hr)|(_ & Hx & _)]; [left|right; cbn; split; [done|lia]].
    destruct Hr as (H1 & H2 & H3 & H4 & H4p & H5 & (own' & H6 & H6l) & H7). rewrite Esz, Hz in H6. rewrite Eself in *.
    do 6 (split; [done|]). split; [exists own'; split; [done|cbn [length app] in H6l |- *; lia]|].
    apply (apart_trans _ _ s1 (self ino :: [m] ++ [b])); [|done|].
    + split; [|apply Ha1]. intros κ c Hc Hu Hnc. apply (proj1 Ha1 κ); [done|done|]. intros H. apply Hnc.
      apply list_elem_of_singleton in H as ->. by left.
    + intros c [->|Hc]%elem_of_cons; [left; by left|]. right.
      apply elem_of_cons in Hc as [->|Hc]; [done|]. by apply list_elem_of_singleton in Hc as ->.
  - rewrite length_app in Hg.
    pose proof (file_sectors _ _ _ _ _ _ Hf Hg) as Hsec. pose proof (concat_length 512 _ Hsec) as Hold.
    change (concat _) with (bytes (blk s) ds) in Hold. rewrite length_map in Hold.
    assert (length C = Z.to_nat (i_size ino)) as HlC by (rewrite HC, length_take; lia).
    destruct (run_find_start ino data b0 s ((2 * cost + 7) * turns (length data) + 3 + k) (11 * turns (length data) + 3 + w)
      bs ds pos Hf (proj1 Hop) Hfind) as (c & s1 & E1 & Hg1 & Hs1 & Hp1); [lia|lia|eapply good_weaken; [| |exact Hg]; lia|].
    assert (forall b, (b ∈ bs) \/ (b ∈ ds) -> blk s1 b = blk s b) as Hv.
    { intros b Hb. apply (proj1 Hs1 Data). by apply (file_valid _ _ _ _ _ _ Hf). }
    destruct (run_transfer_write s1 k w ino c bs ds pos data b0 (same_file _ _ _ _ _ Hs1 Hf) Hp1 Hop Hlt)
      as (x & s2 & Hg2 & Hr); [lia|done|eapply good_weaken; [| |exact Hg1]; lia|].
    assert (bytes (blk s1) ds = bytes (blk s) ds) as Eb.
    { unfold bytes. f_equal. apply list_fmap_ext. intros a b Hb. apply Hv. right. by eapply list_elem_of_lookup_2. }
    assert (file_read_write ino (Z.of_nat pos) (Z.of_nat (length data)) data false b0 s = Ret (x, s2)) as Erun.
    { unfold file_read_write. apply returned_run. rewrite (proj2 (Z.eqb_neq _ _)) by lia.
      destruct Hr as [[E2 _]|[E2 _]]; [left|right]; rewrite (er_step _ _ _ _ _ E1); exact E2. }
    exists x, s2. split; [done|]. split; [done|].
    destruct Hr as [(_ & Hr)|(_ & Hx & _ & Hl)]; [left|right; split; [done|lia]].
    rewrite Eb, <- HC in Hr. destruct Hr as (H1 & H2 & H3 & H4 & H4p & H5 & (own' & H6 & H6l) & H7).
    do 6 (split; [done|]). split; [exists own'; split; [done|lia]|].
    apply (apart_trans _ _ s1 (self ino :: bs ++ ds)); [by apply same_apart|done|by left].
Qed.


(** ** Reading *)

Definition read_file (s : S) (ino : inode) (C : list Z) (pos len : nat) (data own : list Z) (x : transfer) (s' : S) : Prop :=
  x_status x = FILE_OK /\ x_bytes x = Z.of_nat len /\ x_data x = take len (drop pos C) ++ drop len data /\
  opened (x_inode x) /\ self (x_inode x) = self ino /\ i_pos (x_inode x) = Z.of_nat (pos + len) /\
  node (blk s') (self ino) = x_inode x /\ stands s' (x_inode x) C (pos + len) own /\ apart s [self ino] s'.

(** The contents grow to the end of what is read. *)
Lemma run_read s ino bs ds pos len data b0 k w : file valid (blk s) (in_use s) (i_next ino) bs ds ->
  opened ino -> findable s bs ds ino (Z.of_nat pos) -> i_size ino < Z.of_nat (512 * length ds) ->
  (0 < len)%nat -> (pos + len < 512 * length ds)%nat -> (len <= length data)%nat -> Z.of_nat len <= i_size ino ->
  Z.of_nat (pos + len) < 4294967296 ->
  good (reads_for (length (bs ++ ds)) len + k) (writes_for len + w) s ->
  exists x s', file_read_write ino (Z.of_nat pos) (Z.of_nat len) data true b0 s = Ret (x, s') /\ good k w s' /\
    i_size (x_inode x) = Z.max (i_size ino) (Z.of_nat (pos + len)) /\
    read_file s ino (take (Nat.max (Z.to_nat (i_size ino)) (pos + len)) (bytes (blk s) ds)) pos len data (bs ++ ds) x s'.
Proof.
  intros Hf (Hdev & Hself & Hcok) Hfind Hsz Hlen Hroom Hdata Hls Hlt Hg. unfold reads_for, writes_for in Hg. rewrite length_app in Hg.
  destruct (cok_split ino Hcok) as [Hsz0 _]. pose proof (file_sectors _ _ _ _ _ _ Hf Hg) as Hsec.
  pose proof (concat_length 512 _ Hsec) as Hold. change (concat _) with (bytes (blk s) ds) in Hold. rewrite length_map in Hold.
  destruct (run_find_start ino data b0 s ((2 * cost + 7) * turns len + 3 + k) (11 * turns len + 3 + w)
    bs ds pos Hf Hdev Hfind) as (c & s1 & E1 & Hg1 & Hs1 & Hp1); [lia|lia|eapply good_weaken; [| |exact Hg]; lia|].
  pose proof Hp1 as (i & j & _ & _ & _ & _ & _ & Hd).
  assert (valid Data (at_start c)) as Hvs.
  { apply (file_valid _ _ _ _ _ _ Hf). right. by eapply list_elem_of_lookup_2. }
  destruct (run_read_block s1 ((2 * cost + 7) * turns len + 2 + k) (11 * turns len + 2 + w) Data
    (at_start c) zero_data EACCES (Transfer FILE_FAIL ino data b0)) as (s2 & E2 & Hg2 & Hs2);
    [eapply good_weaken; [| |exact Hg1]; lia|done|].
  pose proof (same_trans _ _ _ Hs1 Hs2) as Hs02.
  pose proof (Nat.mod_upper_bound pos 512 ltac:(lia)) as Hr. pose proof (Nat.div_mod_eq pos 512) as Hdm.
  set (q := (pos / 512)%nat) in *. set (r := (pos mod 512)%nat) in *.
  assert (reading (dev := dev) (root := root) s bs ds pos data s2 q r 0
    (Io 0 (Z.of_nat r) data (blk s1 (at_start c)) c false)) as Hw.
  { split; cbn [io_at io_i io_byte io_data io_dptr io_dirty]; try done.
    - apply (placed_agree s1); [|done]. intros b Hb. apply (proj1 Hs2 Data). apply (file_valid _ _ _ _ _ _ Hf). by left.
    - lia.
    - by apply (proj1 Hs1 Data). }
  destruct (reading_loop s (i_next ino) bs ds pos len data ino Hf ltac:(lia) Hroom Hsec len (turns len) s2 (2 + k) (2 + w)
    q r 0 _ Hw eq_refl (turns_enough r _ Hr)) as (io' & s3 & q' & r' & E3 & Hg3 & Hw3);
    [eapply good_weaken; [| |exact Hg2]; lia|].
  destruct Hw3 as [Hs3 Hp3 Hi3 _ (Hr3 & Hpos3) _ Hd3 Hc3].
  set (ino' := settle (Z.of_nat pos) (Z.of_nat len) (io_at io') ino).
  destruct (settle_fields (Z.of_nat pos) (Z.of_nat len) (io_at io') ino) as (F1 & F2 & _ & _ & _ & _ & F7 & F8).
  pose proof Hp3 as (i3 & j3 & _ & _ & Hi3' & _ & _ & Hd3').
  assert (forall b, (b ∈ bs) \/ (b ∈ ds) -> valid Data b) as Hv3 by apply (file_valid _ _ _ _ _ _ Hf).
  assert (cok inode_codec ino') as Hcok'.
  { apply cok_settle; [done| |].
    - apply (area_bounds (S := S) (dev := dev) (root := root) Data), Hv3. right. by eapply list_elem_of_lookup_2.
    - apply (area_bounds (S := S) (dev := dev) (root := root) Data), Hv3. left. by eapply list_elem_of_lookup_2. }
  assert (self ino' = self ino) as Eself by done. assert (i_dev ino' = dev) as Edev by (by rewrite <- Hdev; apply F8).
  assert (valid Inodes (self ino')) as Hself' by (by rewrite Eself).
  destruct (run_write_codec inode_codec s3 (1 + k) (1 + w) Inodes (self ino') ino' EACCES (Transfer FILE_FAIL ino' (io_data io') (io_i io'))
    eq_refl Hcok' Hg3 Hself') as (s4 & E4 & Hg4 & Hs4).
  destruct (stored_inode s3 s4 ino' Hself' Hcok' Hs4) as (Hn4 & Hv4 & Hu4).
  exists (Transfer FILE_OK ino' (io_data io') (io_i io')), s4. split; [|split; [eapply good_weaken; [| |exact Hg4]; lia|split; [|split; [done|split; [done|split; [|split; [|split; [exact Eself|split; [|split; [by rewrite <- Eself|split]]]]]]]]]].
  - unfold file_read_write. apply returned_run. left. rewrite (proj2 (Z.eqb_neq _ _)) by lia.
    rewrite (er_step _ _ _ _ _ E1). unfold transfer_from. cbn [fst snd]. rewrite Hdev, (er_step _ _ _ _ _ E2), Nat2Z.id, first_byte by lia.
    rewrite (er_step _ _ _ _ _ E3), Hc3. erewrite er_step by reflexivity. rewrite Hi3.
    fold ino'. rewrite Hi3 in E4. by rewrite (er_step _ _ _ _ _ E4).
  - cbn [x_inode]. unfold ino'. rewrite F1. rewrite (uwrap_small 64) by (change (2 ^ 64) with 18446744073709551616; lia).
    destruct (Z.ltb_spec (i_size ino) (Z.of_nat pos + Z.of_nat len)); lia.
  - cbn [x_data]. rewrite Hd3. unfold overlay. change (take 0 data) with (@nil Z). rewrite app_nil_l. rewrite length_take, length_drop.
    rewrite Hold. replace (0 + len `min` (512 * length ds - pos))%nat with len by lia. f_equal.
    rewrite skipn_firstn_comm, take_take. f_equal. lia.
  - by split.
  - unfold x_inode, ino'. rewrite F2, (uwrap_small 64) by (change (2 ^ 64) with 18446744073709551616; lia). lia.
  - cbn [x_inode].
    assert (bytes (blk s) ds = bytes (blk s3) ds) as ->.
    { unfold bytes. f_equal. apply list_fmap_ext. intros a b Hb. symmetry. apply (proj1 Hs3 Data). apply Hv3. right.
      by eapply list_elem_of_lookup_2. }
    apply (settle_stands s3 s4 ino _ bs ds q' r'); try done. by apply (same_file _ _ _ _ _ Hs3).
  - split; [|intros b Hb; apply Hu4; by apply (proj2 Hs3)]. intros κ b Hb Hin Hn.
    rewrite (proj1 Hs4 κ b Hb), Eself, (proj2 (Z.eqb_neq _ _)).
    + by apply (proj1 Hs3 κ).
    + intros ->. apply Hn. by left.
Qed.

Lemma run_file_read s ino C pos len data own b0 k w : opened ino -> stands s ino C pos own -> (0 < len)%nat ->
  (pos + len <= length C)%nat -> (len <= length data)%nat -> Z.of_nat (pos + len) < 4294967296 ->
  good (reads_for (length own) len + k) (writes_for len + w) s ->
  exists x s', file_read_write ino (Z.of_nat pos) (Z.of_nat len) data true b0 s = Ret (x, s') /\ good k w s' /\
    read_file s ino C pos len data own x s'.
Proof.
  intros Hop Hst Hlen Hpos Hdata Hlt Hg. destruct (cok_split ino (proj2 (proj2 Hop))) as [Hsz0 _].
  destruct Hst as [Hn Hz -> -> ->|bs ds Hf Hsz HC Hfind ->]; [cbn in Hpos; lia|].
  pose proof (file_sectors _ _ _ _ _ _ Hf Hg) as Hsec. pose proof (concat_length 512 _ Hsec) as Hold.
  change (concat _) with (bytes (blk s) ds) in Hold. rewrite length_map in Hold.
  assert (length C = Z.to_nat (i_size ino)) as HlC by (rewrite HC, length_take; lia).
  destruct (run_read s ino bs ds pos len data b0 k w Hf Hop Hfind Hsz Hlen ltac:(lia) Hdata ltac:(lia) Hlt Hg)
    as (x & s' & E & Hg' & _ & Hx).
  exists x, s'. split; [done|]. split; [done|]. by rewrite Nat.max_l, <- HC in Hx by lia.
Qed.

(** C9: a read of part of the contents of a file gives those bytes, changes no block
    but the one of the inode, and leaves the place behind them in the inode; it never
    fails. *)
Theorem file_read_correct s ino C pos len data own b0 k w : opened ino -> stands s ino C pos own -> (0 < len)%nat ->
  (pos + len <= length C)%nat -> (len <= length data)%nat -> Z.of_nat (pos + len) < 4294967296 ->
  good (reads_for (length own) len + k) (writes_for len + w) s ->
  exists x s', file_read_write ino (Z.of_nat pos) (Z.of_nat len) data true b0 s = Ret (x, s') /\ good k w s' /\
    read_file s ino C pos len data own x s'.
Proof. apply run_file_read. Qed.

(** A read at the end of a file does not give 0 bytes: it succeeds with the
    full count, gives what the last block holds behind the contents, and makes the
    file longer. *)
Theorem file_read_past_end s ino bs ds len data b0 k w : file valid (blk s) (in_use s) (i_next ino) bs ds -> opened ino ->
  findable s bs ds ino (i_size ino) -> (0 < len)%nat -> Z.of_nat len <= i_size ino ->
  i_size ino + Z.of_nat len < Z.of_nat (512 * length ds) -> (len <= length data)%nat ->
  i_size ino + Z.of_nat len < 4294967296 ->
  good (reads_for (length (bs ++ ds)) len + k) (writes_for len + w) s ->
  exists x s', file_read_write ino (i_size ino) (Z.of_nat len) data true b0 s = Ret (x, s') /\
    x_status x = FILE_OK /\ x_bytes x = Z.of_nat len /\ i_size (x_inode x) = i_size ino + Z.of_nat len /\
    node (blk s') (self ino) = x_inode x.
Proof.
  intros Hf Hop Hfind Hlen Hls Hroom Hdata Hlt Hg. destruct (cok_split ino (proj2 (proj2 Hop))) as [Hsz0 _].
  rewrite <- (Z2Nat.id (i_size ino)) in Hfind by done.
  destruct (run_read s ino bs ds (Z.to_nat (i_size ino)) len data b0 k w Hf Hop Hfind) as (x & s' & E & _ & Es & H1 & H2 & _ & _ & _ & _ & H3 & _);
    [lia|lia|lia|done|done|lia|done|].
  rewrite Z2Nat.id in E by done. exists x, s'. split; [done|]. split; [done|]. split; [done|]. split; [lia|done].
Qed.

(** ** Seeking to the end of a block map *)

Lemma maps_to_scan_wraps n : (0 < n)%nat -> 65024 * Z.of_nat n < 4294967296 ->
  maps_to_scan (65024 * Z.of_nat n) = Z.of_nat n /\ first_iblock (65024 * Z.of_nat n) = 0.
Proof.
  intros Hn Hlt. unfold maps_to_scan, first_iblock, DEV_BLOCK_SIZE, MAP_BLOCKS.
  replace (65024 * Z.of_nat n) with (Z.of_nat n * 127 * 512) by lia. rewrite Z.div_mul, Z.mod_mul by lia.
  rewrite (proj2 (Z.eqb_neq (Z.of_nat n * 127 * 512) 0)) by lia. rewrite Z.eqb_refl, !Z.add_0_r.
  rewrite !(u32_small (Z.of_nat n * 127)) by lia. rewrite Z.div_mul, Z.mod_mul by lia. cbn. lia.
Qed.

(** After a seek to the first byte of a block map but the first, 65024 times [n],
    the transfer starts 65024 bytes too early, at the first byte of the block map
    before. *)
Theorem seek_wraps s ino bs ds n data b0 k w : file valid (blk s) (in_use s) (i_next ino) bs ds -> opened ino ->
  (0 < n)%nat -> 65024 * Z.of_nat n < i_size ino -> i_size ino < Z.of_nat (512 * length ds) ->
  i_pos ino = 65024 * Z.of_nat n -> iblock ino = INODE_NOPOS -> i_size ino < 4294967296 ->
  good (length bs + 1 + k) (1 + w) s ->
  exists c s', find_start ino data b0 (i_pos ino) s = Ret (inr (ino, c), s') /\
    placed s' bs ds (127 * (n - 1)) c /\ ~ placed s' bs ds (127 * n) c.
Proof.
  intros Hf (Hdev & _) Hn Hin Hsz Hp Hib Hlt Hg.
  pose proof (chain_first _ _ _ _ (f_chain _ _ _ _ _ _ Hf)) as Hfirst. pose proof (file_length _ _ _ _ _ _ Hf) as Hlen.
  assert (valid Data (i_next ino)) as Hvf by (apply (file_valid _ _ _ _ _ _ Hf); left; by eapply list_elem_of_lookup_2).
  destruct (area_bounds (S := S) (dev := dev) (root := root) Data _ Hvf) as [_ Hn0].
  unfold find_start. rewrite Hdev, (proj2 (Z.eqb_neq (i_next ino) _)) by done.
  rewrite (proj2 (Z.eqb_neq (i_pos ino) 0)) by lia. rewrite Z.eqb_refl, Hib, Z.eqb_refl, andb_false_r. cbn [andb].
  rewrite Hp. destruct (maps_to_scan_wraps n Hn ltac:(lia)) as [-> ->]. rewrite Nat2Z.id.
  destruct n as [|n]; [lia|]. unfold BMAP_BLOCKS in Hlen.
  destruct (run_scan_maps ino data b0 s (length bs - n + k) w _ bs ds n Hf 0%nat (BlockMap (i_next ino) (b_blocks zero_map)) 0 s)
    as (b & s1 & E1 & Hb & Hs1 & Hg1); [done|by rewrite Hfirst|lia|eapply good_weaken; [| |exact Hg]; lia|].
  cbn [Nat.add] in Hb. replace (Datatypes.S n - 1)%nat with n by lia.
  destruct (lookup_lt_is_Some_2 ds (127 * n) ltac:(lia)) as [d Hd].
  assert (b_blocks (map_at (blk s) b) !! 0%nat = Some d) as Hslot.
  { rewrite (file_slot _ _ _ _ _ _ Hf n 0 b Hb) by (unfold BMAP_BLOCKS; lia). rewrite Nat.add_0_r.
    change (ds !! (127 * n)%nat = Some d) in Hd. unfold BMAP_BLOCKS. by rewrite Hd. }
  assert (peek (b_blocks (map_at (blk s) b)) 0 = Ret d) as Ep by apply (peek_nat _ 0 _ Hslot).
  eexists _, s1. split; [|split].
  - rewrite (er_step _ _ _ _ _ E1). cbn [fst snd]. rewrite Ep. erewrite er_step by reflexivity. reflexivity.
  - exists n, 0%nat. unfold BMAP_BLOCKS. cbn [at_map at_current at_iblock at_start]. split; [lia|]. split; [lia|].
    split; [done|]. split; [|split; [done|done]].
    unfold map_at. rewrite (proj1 Hs1 Data); [done|]. apply (file_valid _ _ _ _ _ _ Hf). left. by eapply list_elem_of_lookup_2.
  - intros (a & j & Ha & Hj & Hab & _ & _ & _). unfold BMAP_BLOCKS in *. cbn [at_current] in Hab.
    assert (a = Datatypes.S n) as -> by lia. pose proof (f_apart _ _ _ _ _ _ Hf) as Hnd.
    apply NoDup_app in Hnd as (Hnd & _). pose proof (NoDup_lookup _ _ _ _ Hnd Hab Hb). lia.
Qed.
End Correct.
