(* ===== verification/File.v ===== *)
(** * System calls on files ([fs/file.c], [fs/link.c])

    The open files of a process: [file_tab] holds inodes, [file_desc] refers to its
    entries, so that duplicated descriptors share one.  A pointer into [file_tab] is
    the index of its entry; an index past the end of a table is a fault.  The clock
    does not tick during one call.  A C string is the list of its bytes, a buffer
    the list of what it holds. *)

From S2P Require Import Prelude Errno Device Block Layout Perms Alloc Store Paths Tree FileIO.

(** What the calls use besides [FsOps]: [master_get_dev] and
    [block_sync(dev) == BLOCK_OK]. *)
Class DevOps (S : Type) := {
  get_dev : option (list Z) -> st S Z;
  sync_dev : Z -> st S bool
}.

#[export] Instance fs_dev_ops {D} `{PioDrive D} : DevOps (fs D) := {|
  get_dev := master_get_dev;
  sync_dev dev := r ← cached (block_sync dev); mret (negb (block_bad r))
|}.

Definition MAX_FILES : nat := 1024.
Definition O_RDONLY : Z := 1.
Definition O_WRONLY : Z := 2.
Definition O_RDWR : Z := 4.
Definition O_CREAT : Z := 64.
Definition O_TRUNC : Z := 512.
Definition O_APPEND : Z := 1024.
Definition SEEK_SET : Z := 0.
Definition SEEK_CUR : Z := 1.
Definition SEEK_END : Z := 2.
Definition SSIZE_MAX : Z := 2147483647.

Record stat := Stat {
  st_dev : Z; st_ino : Z; st_mode : Z; st_nlink : Z; st_uid : Z; st_gid : Z; st_rdev : Z; st_size : Z;
  st_blksize : Z; st_blocks : Z; st_atime : Z; st_mtime : Z; st_ctime : Z
}.

(** The state of the file system and of the current process. *)
Record files (S : Type) := Files {
  f_tree : tree S;
  file_tab : list inode;
  file_desc : list (option nat);
  cwd : Z
}.
Arguments Files {S}.
Arguments f_tree {S} _.
Arguments file_tab {S} _.
Arguments file_desc {S} _.
Arguments cwd {S} _.

Section Code.
Context {S : Type} `{FsOps S} `{DevOps S} (who : caller) (umask : Z) (depth fuel : nat).

Abbreviation F := (files S).

Definition on_tree {A} (m : st (tree S) A) : st F A := fun s =>
  match m (f_tree s) with
  | Ret (a, t) => Ret (a, Files t (file_tab s) (file_desc s) (cwd s))
  | Panic => Panic | Fault => Fault | NoFuel => NoFuel
  end.

Definition fails {A} (n : Z) (a : A) : st F A := _ ← on_tree (put_errno n); mret a.
Definition device (path : option (list Z)) : st F Z := on_tree (below (get_dev path)).
Definition write_node (dev : Z) (i : inode) : st F bool := on_tree (write_inode dev (self i) i).
(** [inode_get(...) == INODE_OK], and what it stored. *)
Definition find_path (dev : Z) (path : list Z) (do_readlink : bool) (mode : inode_mode) : st F (option inode) :=
  s ← get;
  r ← on_tree (inode_get who depth fuel dev (cwd s) path do_readlink mode);
  mret (match r with (INODE_OK, Some i) => Some i | _ => None end).
Definition create_path (dev : Z) (path : list Z) (mode : inode_mode) (perm : Z) (target : option (list Z)) : st F bool :=
  s ← get;
  r ← on_tree (inode_create who depth fuel dev (cwd s) (Some path) mode perm umask (c_group who) (c_owner who) target);
  mret (bool_decide (r = INODE_OK)).

(** ** Descriptors *)

(** [fd < 0 || fd > MAX_FILES ? NULL : file_desc[fd]] *)
Definition entry_of (fd : Z) : st F (option nat) :=
  if (fd <? 0) || (Z.of_nat MAX_FILES <? fd) then mret None
  else s ← get; checked (file_desc s !! Z.to_nat fd).

Definition get_entry (j : nat) : st F inode := s ← get; checked (file_tab s !! j).
Definition set_entry (j : nat) (i : inode) : st F unit :=
  modify (fun s => Files (f_tree s) (<[j := i]> (file_tab s)) (file_desc s) (cwd s)).
Definition set_desc (fd : nat) (e : option nat) : st F unit :=
  modify (fun s => Files (f_tree s) (file_tab s) (<[fd := e]> (file_desc s)) (cwd s)).
Definition set_cwd (b : Z) : st F unit := modify (fun s => Files (f_tree s) (file_tab s) (file_desc s) b).

(** An entry of [file_tab] without a name is free. *)
Fixpoint free_entry (l : list inode) : outcome (option nat) :=
  match l with
  | [] => Ret None
  | i :: l =>
      name ← cstr (i_path i);
      if bool_decide (name = []) then Ret (Some O) else j ← free_entry l; Ret (option_map Datatypes.S j)
  end.

Fixpoint free_desc (l : list (option nat)) : option nat :=
  match l with [] => None | None :: _ => Some O | Some _ :: l => Datatypes.S <$> free_desc l end.

(** A free descriptor for a free entry, when there are both. *)
Definition take_desc : st F (option (nat * nat)) :=
  s ← get;
  j ← lift (free_entry (file_tab s));
  match j, free_desc (file_desc s) with
  | Some j, Some fd => _ ← set_desc fd (Some j); mret (Some (fd, j))
  | _, _ => mret None
  end.

(** ** Opening *)

(** [imode], which is 0, a value no mode has, without any of the flags. *)
Definition open_mode (flags : Z) : inode_mode :=
  if truth (Z.land flags O_RDWR) || truth (Z.land flags O_TRUNC) then INODE_RW
  else if truth (Z.land flags O_WRONLY) then INODE_WRITE
  else if truth (Z.land flags O_RDONLY) then INODE_READ
  else INODE_INVALID_MODE.

Definition open_perm (flags : Z) : Z :=
  let rw := truth (Z.land flags O_RDWR) || truth (Z.land flags O_TRUNC) in
  Z.lor (if truth (Z.land flags O_RDONLY) || rw then S_IRUSR else 0)
    (if truth (Z.land flags O_WRONLY) || rw then S_IWUSR else 0).

(** The data blocks of a block map; the status is not looked at. *)
Fixpoint free_all (dev : Z) (l : list Z) : st F unit :=
  match l with
  | [] => mret tt
  | b :: l => _ ← (if b =? INODE_NULL then mret tt else _ ← on_tree (free_data_block dev b); mret tt); free_all dev l
  end.

(** The loop of the truncation: it goes on with block 0 behind the last block map. *)
Fixpoint truncate (n : nat) (dev : Z) (bmap : block_map_t) (current : Z) : st F unit :=
  if current =? INODE_NULL then mret tt
  else
    match n with
    | O => fun _ => NoFuel
    | Datatypes.S n =>
        let current := b_next bmap in
        r ← on_tree (read_map_block dev current bmap);
        _ ← free_all dev (b_blocks r.2);
        _ ← (if current =? INODE_NULL then mret tt else _ ← on_tree (free_data_block dev current); mret tt);
        truncate n dev r.2 current
    end.

Definition open_fields (dev flags : Z) (i : inode) : inode :=
  let m := o_mode i in
  let i := put_o_mode (u32 (if truth (Z.land flags O_RDONLY) then Z.lor m O_RDONLY
                            else if truth (Z.land flags O_WRONLY) then Z.lor m O_WRONLY
                            else if truth (Z.land flags O_RDWR) then Z.lor m O_RDWR else m)) i in
  put_device dev (put_where INODE_NULL INODE_NULL 0
    (put_pos (if truth (Z.land flags O_APPEND) then i_size i else 0) i)).

(** The inode of the path, which is made with [O_CREAT] when it cannot be opened. *)
Definition find_or_create (dev : Z) (path : list Z) (flags perm : Z) : st F (option inode) :=
  let mode := open_mode flags in
  r ← find_path dev path true mode;
  match r with
  | Some i => mret (Some i)
  | None =>
      if truth (Z.land flags O_CREAT) then
        ok ← create_path dev path INODE_CREATE_FILE perm None;
        if negb ok then fails EACCES None
        else
          r ← find_path dev path true mode;
          match r with Some i => mret (Some i) | None => fails EACCES None end
      else fails EACCES None
  end.

Definition open_file (path : list Z) (flags perm : Z) : st F Z :=
  dev ← device (Some path);
  r ← find_or_create dev path flags perm;
  match r with
  | None => mret (-1)
  | Some i =>
      let i := put_accessed (c_now who) i in
      i ← (if truth (Z.land flags O_TRUNC) then
             let i := put_modified (c_now who) i in
             _ ← truncate fuel dev (BlockMap (i_next i) (b_blocks zero_map)) (i_next i);
             let i := put_next INODE_NULL (put_size 0 (put_pos 0 i)) in
             _ ← write_node dev i;
             mret i
           else mret i);
      let i := open_fields dev flags i in
      r ← take_desc;
      match r with
      | None => fails EMFILE (-1)
      | Some (fd, j) => _ ← set_entry j i; mret (Z.of_nat fd)
      end
  end.

Definition kopen (path : list Z) (flags : Z) : st F Z := open_file path flags (open_perm flags).
Definition kopen2 (path : list Z) (flags mode : Z) : st F Z := open_file path flags mode.

(** The descriptor is taken before the inode is read, and kept when that fails. *)
Definition kcreat (path : list Z) (mode : Z) : st F Z :=
  dev ← device (Some path);
  let imode := inode_get_mode mode umask in
  ok ← create_path dev path INODE_CREATE_FILE mode None;
  if negb ok then fails EACCES (-1)
  else
    r ← take_desc;
    match r with
    | None => fails EMFILE (-1)
    | Some (fd, j) =>
        r ← find_path dev path true imode;
        match r with
        | None => fails EMFILE (-1)
        | Some i =>
            _ ← set_entry j (put_device dev (put_where INODE_NULL INODE_NULL 0 (put_pos 0 i)));
            mret (Z.of_nat fd)
        end
    end.

Definition kunlink (path : list Z) : st F Z :=
  dev ← device (Some path);
  s ← get;
  r ← on_tree (inode_free who depth fuel dev (cwd s) path None);
  mret (if bool_decide (r.1 = INODE_OK) then 0 else -1).

(** ** Closing *)

(** Another descriptor than [fd] refers to entry [j]. *)
Definition shared (fd j : nat) (l : list (option nat)) : bool :=
  existsb (fun '(i, e) => bool_decide (e = Some j) && negb (Nat.eqb i fd)) (imap pair l).

Definition kclose (fd : Z) : st F Z :=
  e ← entry_of fd;
  match e with
  | None => fails EBADF (-1)
  | Some j =>
      s ← get;
      if shared (Z.to_nat fd) j (file_desc s) then _ ← set_desc (Z.to_nat fd) None; mret 0
      else
        i ← get_entry j;
        ok ← on_tree (below (sync_dev (i_dev i)));
        if negb ok then fails EACCES (-1)
        else
          let i := put_accessed (c_now who) (put_pos 0 (put_where INODE_NULL INODE_NULL 0 (put_o_mode 0 i))) in
          _ ← set_entry j i;
          ok ← write_node (i_dev i) i;
          if negb ok then fails EACCES (-1)
          else
            _ ← set_entry j zero_inode;
            _ ← set_desc (Z.to_nat fd) None;
            mret 0
  end.

(** ** Reading and writing *)

(** [file_read_write] on an open file; the entry keeps what it did to the inode. *)
Definition transfer_entry (j : nat) (pos : inode -> Z) (count : Z) (data : list Z) (reading : bool) (bytes : Z)
    : st F transfer :=
  i ← get_entry j;
  x ← on_tree (file_read_write i (pos i) count data reading bytes);
  _ ← set_entry j (x_inode x);
  mret x.

(** [while(iter--)]: [zero_data], [tmp] and [bytes_processed1] after the loop. *)
Fixpoint fill_blocks (iter : nat) (j : nat) (reading : bool) (zeros : list Z) (tmp sum : Z)
    : er F Z (list Z * Z * Z) :=
  match iter with
  | O => mret (zeros, tmp, sum)
  | Datatypes.S iter =>
      x ← stmt (transfer_entry j i_size DEV_BLOCK_SIZE zeros reading tmp);
      if bool_decide (x_status x = FILE_OK) then
        fill_blocks iter j reading (x_data x) (x_bytes x) (u64 (sum + x_bytes x))
      else leave (-1)
  end.

(** A position past the end is reached block by block, in both directions. *)
Definition fill (j : nat) (reading : bool) : er F Z Z :=
  i ← stmt (get_entry j);
  if i_size i <? i_pos i then
    let gap := u64 (i_pos i - i_size i) in
    r ← fill_blocks (Z.to_nat (u32 (gap / DEV_BLOCK_SIZE))) j reading zero_data 0 0;
    let '(zeros, tmp, sum) := r in
    let rest := u32 (gap mod DEV_BLOCK_SIZE) in
    if rest =? 0 then mret sum
    else
      x ← stmt (transfer_entry j i_size rest zeros reading tmp);
      if bool_decide (x_status x = FILE_OK) then mret (u64 (sum + x_bytes x)) else leave (-1)
  else mret 0.

(** The part of [kread] and [kwrite] they share: the value and the buffer. *)
Definition transfer_fd (reading : bool) (stamp : inode -> inode) (fd : Z) (buf : list Z) (count : Z)
    : st F (Z * list Z) :=
  e ← entry_of fd;
  match e with
  | None => mret (-1, buf)
  | Some j =>
      i ← get_entry j;
      _ ← set_entry j (stamp i);
      r ← (fill j reading : st F (Z + Z));
      match r with
      | inl v => mret (v, buf)
      | inr sum =>
          x ← transfer_entry j i_pos count buf reading 0;
          mret (if bool_decide (x_status x = FILE_OK) then i32 (u64 (x_bytes x + sum)) else -1, x_data x)
      end
  end.

Definition kread (fd : Z) (buf : list Z) (count : Z) : st F (Z * list Z) :=
  transfer_fd true (put_accessed (c_now who)) fd buf count.
Definition kwrite (fd : Z) (buf : list Z) (count : Z) : st F Z :=
  r ← transfer_fd false (put_modified (c_now who)) fd buf count; mret r.1.

(** [off_t] is unsigned: an offset is never negative. *)
Definition klseek (fd offset whence : Z) : st F Z :=
  e ← entry_of fd;
  match e with
  | None => mret (u32 (-1))
  | Some j =>
      i ← get_entry j;
      let pos :=
        if whence =? SEEK_SET then Some offset
        else if whence =? SEEK_CUR then
          let pos := u64 (i_pos i + offset) in Some (if SSIZE_MAX <? pos then SSIZE_MAX else pos)
        else if whence =? SEEK_END then Some (u64 (i_size i + offset))
        else None in
      match pos with
      | None => mret (u32 (-1))
      | Some pos =>
          let i := put_iblock INODE_NOPOS (put_pos pos i) in
          _ ← set_entry j i;
          ok ← write_node (i_dev i) i;
          if negb ok then fails EACCES (u32 (-1)) else mret (u32 pos)
      end
  end.

Definition kdup (fd : Z) : st F Z :=
  e ← entry_of fd;
  match e with
  | None => fails EBADF (-1)
  | Some j =>
      s ← get;
      match free_desc (file_desc s) with
      | Some i => _ ← set_desc i (Some j); mret (Z.of_nat i)
      | None => fails EMFILE (-1)
      end
  end.

(** The result of closing [newfd] is not looked at. *)
Definition kdup2 (fd newfd : Z) : st F Z :=
  e ← entry_of fd;
  match e with
  | None => fails EBADF (-1)
  | Some j =>
      if (newfd <? 0) || (Z.of_nat MAX_FILES <? newfd) then fails EBADF (-1)
      else
        s ← get;
        n ← checked (file_desc s !! Z.to_nat newfd);
        if bool_decide (n = Some j) then mret newfd
        else
          _ ← (if bool_decide (n = None) then mret 0 else kclose newfd);
          _ ← set_desc (Z.to_nat newfd) (Some j);
          mret newfd
  end.

(** ** The status of a file; [buf] says whether the pointer is not [NULL]. *)

Definition stat_of (dev : Z) (i : inode) : stat :=
  Stat (u32 dev) (self i) (inode_get_permissions i) (refcount i) (i_owner i) (i_group i) 0 (u32 (i_size i))
    DEV_BLOCK_SIZE (u32 (i_size i / DEV_BLOCK_SIZE + (if i_size i mod DEV_BLOCK_SIZE =? 0 then 0 else 1)))
    (accessed_time i) (modified_time i) (create_time i).

Definition stat_path (do_readlink : bool) (path : list Z) (buf : bool) : st F (Z * option stat) :=
  dev ← device (Some path);
  if negb buf then fails EINVAL (-1, None)
  else
    r ← find_path dev path do_readlink INODE_DONTCHECKPERMS;
    match r with
    | None => fails EMFILE (-1, None)
    | Some i => mret (0, Some (stat_of dev i))
    end.

Definition kstat := stat_path true.
Definition klstat := stat_path false.

Definition kfstat (fd : Z) (buf : bool) : st F (Z * option stat) :=
  e ← entry_of fd;
  dev ← device None;
  match e with
  | None => fails EBADF (-1, None)
  | Some j =>
      if negb buf then fails EINVAL (-1, None)
      else i ← get_entry j; mret (0, Some (stat_of dev i))
  end.

Definition ksync : st F unit :=
  dev ← device None;
  ok ← on_tree (below (sync_dev dev));
  if negb ok then fails EACCES tt else mret tt.

(** ** Mode, owner and times *)

(** An inode is looked up, changed and written. *)
Definition change_path (do_readlink : bool) (path : list Z) (f : inode -> inode) : st F Z :=
  dev ← device None;
  r ← find_path dev path do_readlink INODE_DONTCHECKPERMS;
  match r with
  | None => fails EMFILE (-1)
  | Some i =>
      ok ← write_node dev (f i);
      if negb ok then fails EACCES (-1) else mret 0
  end.

Definition change_fd (fd : Z) (f : inode -> inode) : st F Z :=
  e ← entry_of fd;
  match e with
  | None => fails EBADF (-1)
  | Some j =>
      i ← get_entry j;
      let i := f i in
      _ ← set_entry j i;
      ok ← write_node (i_dev i) i;
      if negb ok then fails EACCES (-1) else mret 0
  end.

Definition kchmod (path : list Z) (mode : Z) : st F Z :=
  change_path true path (fun i => put_modified (c_now who) (inode_set_permissions i mode umask)).
Definition kfchmod (fd mode : Z) : st F Z :=
  change_fd fd (fun i => inode_set_permissions (put_modified (c_now who) i) mode umask).
Definition kchown (path : list Z) (owner group : Z) : st F Z :=
  change_path true path (fun i => put_modified (c_now who) (put_owner group owner i)).
Definition kfchown (fd owner group : Z) : st F Z :=
  change_fd fd (fun i => put_modified (c_now who) (put_owner group owner i)).
Definition klchown (path : list Z) (owner group : Z) : st F Z :=
  change_path false path (fun i => put_modified (c_now who) (put_owner group owner i)).

(** [buf] holds the two times, [None] is [NULL]; [errno] is that of [inode_get]. *)
Definition kutime (path : list Z) (buf : option (Z * Z)) : st F Z :=
  dev ← device (Some path);
  match buf with
  | None => fails EINVAL (-1)
  | Some (actime, modtime) =>
      r ← find_path dev path true INODE_DONTCHECKPERMS;
      match r with
      | None => mret (-1)
      | Some i =>
          ok ← write_node dev (put_modified modtime (put_accessed actime i));
          if negb ok then fails EACCES (-1) else mret 0
      end
  end.

(** ** The current directory *)

(** The name of the directory, taken as a path from the root. *)
Definition kget_current_dir_name : st F (option (list Z)) :=
  dev ← device None;
  s ← get;
  r ← on_tree (read_inode dev (cwd s) zero_inode);
  if negb r.1 then fails EACCES None
  else
    root ← on_tree (root_block dev);
    root ← checked root;
    name ← lift (cstr (i_path r.2));
    p ← on_tree (krealpath dev root name);
    match p with None => fails EACCES None | Some p => mret (Some p) end.

(** The string stored in [buf]. *)
Definition kgetcwd (buf : bool) (size : Z) : st F (option (list Z)) :=
  tmp ← kget_current_dir_name;
  match tmp with
  | None => fails EFAULT None
  | Some tmp =>
      if negb buf || (size =? 0) then fails EFAULT None
      else if size <=? Z.of_nat (length tmp) then fails ERANGE None
      else mret (Some tmp)
  end.

Definition kgetwd : st F (option (list Z)) :=
  tmp ← kget_current_dir_name;
  match tmp with None => fails EFAULT None | Some tmp => mret (Some tmp) end.

Definition kchdir (path : list Z) : st F Z :=
  dev ← device (Some path);
  r ← find_path dev path true INODE_DONTCHECKPERMS;
  match r with
  | None => fails EMFILE (-1)
  | Some i => if is_dir i then _ ← set_cwd (self i); mret 0 else mret (-1)
  end.

Definition kfchdir (fd : Z) : st F Z :=
  e ← entry_of fd;
  match e with
  | None => fails EBADF (-1)
  | Some j => i ← get_entry j; _ ← set_cwd (self i); mret 0
  end.

(** ** Names *)

(** The new name is made as a file, then takes over the old inode. *)
Definition krename (oldpath newpath : list Z) : st F Z :=
  dev ← device (Some oldpath);
  r ← find_path dev oldpath true INODE_DONTCHECKPERMS;
  match r with
  | None => mret (-1)
  | Some i =>
      ok ← create_path dev newpath INODE_CREATE_FILE (inode_get_permissions i) None;
      if negb ok then mret (-1)
      else
        r ← find_path dev newpath true INODE_DONTCHECKPERMS;
        match r with
        | None => mret (-1)
        | Some newnode =>
            s ← get;
            r ← on_tree (inode_free who depth fuel dev (cwd s) oldpath (Some newnode));
            if negb (bool_decide (r.1 = INODE_OK)) then mret (-1)
            else
              ok ← write_node dev (default newnode r.2);
              if negb ok then fails EACCES (-1) else mret 0
        end
  end.

(** A symbolic link; a path is [None] when its pointer is [NULL]. *)
Definition klink (oldpath newpath : option (list Z)) : st F Z :=
  dev ← device oldpath;
  match oldpath, newpath with
  | Some oldpath, Some newpath =>
      ok ← create_path dev newpath INODE_CREATE_SYMLINK 511 (Some oldpath);
      mret (if ok : bool then 0 else -1)
  | _, _ => fails EINVAL (-1)
  end.
End Code.
