(* ===== verification/FdSpec.v ===== *)
(** * Descriptors

    What the calls on an open file do, in terms of the contents of the file and the
    position of the descriptor. *)

From stdpp Require Import gmap.
From S2P Require Import Prelude Errno Device Layout Perms Alloc Store StoreSpec.
From S2P Require Import Paths PathsSpec Tree TreeSpec CreateSpec FileIO FileSpec FileCorrect File.

(** The store below a tree keeps its laws. *)
#[export] Program Instance tree_laws {S} `{HF : FsOps S} dev root {HL : StoreLaws S dev root} : StoreLaws (tree S) dev root := {|
  area := area S dev root;
  view t := view dev root (base t);
  used t := used dev root (base t);
  good k w t := good dev root k w (base t);
  alloc_cost := alloc_cost S dev root
|}.
Next Obligation. intros S HF dev root HL. apply area_range. Qed.
Next Obligation. intros S HF dev root HL. apply areas_apart. Qed.
Next Obligation. intros S HF dev root HL k w k' w' t. apply good_weaken. Qed.
Next Obligation. intros S HF dev root HL k w t. apply view_length. Qed.
Next Obligation. intros S HF dev root HL. apply root_area. Qed.
Next Obligation. intros S HF dev root HL k w t. apply run_root_block. Qed.
Next Obligation.
  intros S HF dev root HL k w t e Hg. destruct (put_errno_ok k w (base t) e Hg) as (s' & E & Hr).
  exists (Tree s' (nr_recursion t)). split; [|done]. cbn. unfold below. by rewrite E.
Qed.
Next Obligation.
  intros S HF dev root HL k w t κ b data Hg Hb. destruct (read_block_ok k w (base t) κ b data Hg Hb) as (s' & E & Hr).
  exists (Tree s' (nr_recursion t)). split; [|done]. cbn. unfold below. by rewrite E.
Qed.
Next Obligation.
  intros S HF dev root HL k w t κ b data Hg Hb Hl. destruct (write_block_ok k w (base t) κ b data Hg Hb Hl) as (s' & E & Hr).
  exists (Tree s' (nr_recursion t)). split; [|done]. cbn. unfold below. by rewrite E.
Qed.
Next Obligation.
  intros S HF dev root HL κ k w t b0 Hg. destruct (alloc_ok κ k w (base t) b0 Hg) as (r & b & s' & E & Hr).
  exists r, b, (Tree s' (nr_recursion t)). split; [|done]. destruct κ; cbn; unfold below; by rewrite E.
Qed.
Next Obligation.
  intros S HF dev root HL κ k w t b Hg Hb. destruct (free_ok κ k w (base t) b Hg Hb) as (s' & E & Hr).
  exists (Tree s' (nr_recursion t)). split; [|done]. destruct κ; cbn; unfold below; by rewrite E.
Qed.

Lemma put_times_keep i v : 0 <= v < 4294967296 -> cok inode_codec i ->
  cok inode_codec (put_accessed v i) /\ cok inode_codec (put_modified v i).
Proof.
  intros Hv Hi. destruct i. cbn -[MAX_PATH INODE_PAD] in *.
  repeat match goal with H : _ /\ _ |- _ => destruct H end.
  split; cbn -[MAX_PATH INODE_PAD]; repeat match goal with |- _ /\ _ => split end; first [assumption|lia].
Qed.

Section Fd.
Context {S : Type} `{HF : FsOps S} `{HD : DevOps S} {dev root : Z} {HL : StoreLaws S dev root}.
Context (who : caller) (umask : Z) (depth fuel : nat).
Hypothesis Hnow : 0 <= c_now who < 4294967296.

Abbreviation F := (files S).
Abbreviation good := (good (S := tree S) dev root).

(** Descriptor [fd] refers to entry [j], an open file with the contents [C] at
    position [pos]. *)
Record descriptor (s : F) (fd : Z) (j : nat) (i : inode) (C : list Z) (pos : nat) (own : list Z) : Prop := Descriptor {
  d_range : 0 <= fd < Z.of_nat MAX_FILES;
  d_entry : file_desc s !! Z.to_nat fd = Some (Some j);
  d_inode : file_tab s !! j = Some i;
  d_opened : opened (S := tree S) (dev := dev) (root := root) i;
  d_pos : i_pos i = Z.of_nat pos;
  d_stands : stands (S := tree S) (dev := dev) (root := root) (f_tree s) i C pos own
}.

(** The call changed nothing of the process but entry [j]. *)
Definition entry_only (s s' : F) (j : nat) (i : inode) : Prop :=
  file_desc s' = file_desc s /\ file_tab s' = <[j := i]> (file_tab s) /\ cwd s' = cwd s.

(** ** Fields a transfer does not look at *)

Lemma stands_same_fields t i i' C pos own : i_next i' = i_next i -> i_size i' = i_size i -> i_pos i' = i_pos i ->
  i_current i' = i_current i -> current_parent i' = current_parent i -> iblock i' = iblock i ->
  stands (S := tree S) (dev := dev) (root := root) t i C pos own ->
  stands (S := tree S) (dev := dev) (root := root) t i' C pos own.
Proof.
  intros E1 E2 E3 E4 E5 E6 [Hn Hz HC Hp Ho|bs ds Hf Hsz HC Hfind Ho].
  - apply stands_empty; congruence.
  - apply (stands_file _ _ _ _ _ bs ds); [by rewrite E1|by rewrite E2|by rewrite E2| |done].
    destruct Hfind as [H1 H2 H3|H1 H2 H3 H4|H1 H2 H3].
    + apply find_first; congruence.
    + apply find_last; [congruence|congruence|by rewrite E6|by rewrite E4, E5, E6].
    + apply find_seek; [by rewrite E3, E4|by rewrite E3, E4, E6|done].
Qed.

Lemma entry_of_some (s : F) fd e : 0 <= fd < Z.of_nat MAX_FILES -> file_desc s !! Z.to_nat fd = Some e ->
  entry_of fd s = Ret (e, s).
Proof.
  intros Hr He. unfold entry_of. rewrite (proj2 (Z.ltb_ge fd 0)), (proj2 (Z.ltb_ge _ fd)) by lia. cbn [orb].
  rewrite (st_step _ _ s s s) by done. unfold checked. by rewrite He.
Qed.

Lemma get_entry_some (s : F) j i : file_tab s !! j = Some i -> get_entry j s = Ret (i, s).
Proof. intros Hi. unfold get_entry. rewrite (st_step _ _ s s s) by done. unfold checked. by rewrite Hi. Qed.

(** One transfer on an entry. *)
Lemma run_transfer_entry (s : F) j i pos count data reading b0 x t : file_tab s !! j = Some i ->
  file_read_write i (pos i) count data reading b0 (f_tree s) = Ret (x, t) ->
  transfer_entry j pos count data reading b0 s = Ret (x, Files t (<[j := x_inode x]> (file_tab s)) (file_desc s) (cwd s)).
Proof.
  intros Hi Hx. unfold transfer_entry. rewrite (st_step _ _ _ _ _ (get_entry_some s j i Hi)).
  rewrite (st_step _ _ s (Files t (file_tab s) (file_desc s) (cwd s)) x) by (unfold on_tree; by rewrite Hx). done.
Qed.

(** The part of reading and writing in front of the transfer, at a position inside
    the file. *)
Lemma run_transfer_fd reading stamp (s : F) fd j i buf count x t : 0 <= fd < Z.of_nat MAX_FILES ->
  file_desc s !! Z.to_nat fd = Some (Some j) -> file_tab s !! j = Some i ->
  i_pos (stamp i) <= i_size (stamp i) ->
  file_read_write (stamp i) (i_pos (stamp i)) count buf reading 0 (f_tree s) = Ret (x, t) ->
  transfer_fd reading stamp fd buf count s =
    Ret ((if bool_decide (x_status x = FILE_OK) then i32 (u64 (x_bytes x + 0)) else -1, x_data x),
      Files t (<[j := x_inode x]> (file_tab s)) (file_desc s) (cwd s)).
Proof.
  intros Hr He Hi Hpos Hx. unfold transfer_fd. rewrite (st_step _ _ _ _ _ (entry_of_some s fd _ Hr He)).
  rewrite (st_step _ _ _ _ _ (get_entry_some s j i Hi)).
  set (s1 := Files (f_tree s) (<[j := stamp i]> (file_tab s)) (file_desc s) (cwd s)).
  rewrite (st_step _ _ s s1 tt) by done.
  assert (file_tab s1 !! j = Some (stamp i)) as Hi1.
  { cbn. apply list_lookup_insert_eq. by eapply lookup_lt_Some. }
  assert ((fill j reading : st F (Z + Z)) s1 = Ret (inr 0, s1)) as Ef.
  { unfold fill. erewrite er_step by (apply stmt_run, get_entry_some; exact Hi1).
    by rewrite (proj2 (Z.ltb_ge _ _)). }
  rewrite (st_step _ _ _ _ _ Ef). cbv beta iota.
  rewrite (st_step _ _ _ _ _ (run_transfer_entry s1 j (stamp i) i_pos count buf reading 0 x t Hi1 Hx)).
  cbn [s1 file_tab file_desc cwd]. by rewrite list_insert_insert_eq.
Qed.

(** ** Reading, writing and seeking *)

Lemma descriptor_stamped s fd j i C pos own stamp : descriptor s fd j i C pos own ->
  (stamp = put_accessed (c_now who) \/ stamp = put_modified (c_now who)) ->
  opened (S := tree S) (dev := dev) (root := root) (stamp i) /\
  stands (S := tree S) (dev := dev) (root := root) (f_tree s) (stamp i) C pos own /\
  i_pos (stamp i) = i_pos i /\ i_size (stamp i) = i_size i /\ self (stamp i) = self i.
Proof.
  intros [_ _ _ (H1 & H2 & H3) _ H4] Hs. destruct (put_times_keep i _ Hnow H3) as [Ha Hm].
  split; [|split; [|by destruct Hs as [->| ->]; destruct i]].
  - destruct Hs as [->| ->]; (split; [by destruct i|split; [by destruct i|done]]).
  - apply (stands_same_fields _ i); try done; destruct Hs as [->| ->]; by destruct i.
Qed.

Lemma stands_length t i C pos own : opened (S := tree S) (dev := dev) (root := root) i ->
  stands (S := tree S) (dev := dev) (root := root) t i C pos own -> Z.of_nat (length C) <= i_size i.
Proof.
  intros (_ & _ & Hc) [Hn Hz -> _ _|bs ds _ _ -> _ _]; [cbn; lia|]. destruct (cok_split i Hc) as [? _].
  rewrite length_take. lia.
Qed.

Lemma after_transfer (s : F) fd j i t x C pos own : 0 <= fd < Z.of_nat MAX_FILES ->
  file_desc s !! Z.to_nat fd = Some (Some j) -> file_tab s !! j = Some i ->
  opened (S := tree S) (dev := dev) (root := root) x -> i_pos x = Z.of_nat pos ->
  stands (S := tree S) (dev := dev) (root := root) t x C pos own ->
  descriptor (Files t (<[j := x]> (file_tab s)) (file_desc s) (cwd s)) fd j x C pos own.
Proof.
  intros Hr He Hi Ho Hp Hs. split; try done. cbn. apply list_lookup_insert_eq. by eapply lookup_lt_Some.
Qed.

Lemma sum_small n : Z.of_nat n < 2147483648 -> i32 (u64 (Z.of_nat n + 0)) = Z.of_nat n.
Proof.
  intros Hn. rewrite (uwrap_small 64) by (change (2 ^ 64) with 18446744073709551616; lia).
  rewrite Z.add_0_r. apply i32_small. lia.
Qed.

(** Reading from an open file gives the bytes of its contents from the position of
    the descriptor on, and moves the position behind them. *)
Lemma run_kread s fd j i C pos own buf count k w : descriptor s fd j i C pos own -> (0 < count)%nat ->
  (pos + count <= length C)%nat -> (count <= length buf)%nat -> Z.of_nat (pos + count) < 2147483648 ->
  good (reads_for (S := tree S) (dev := dev) (root := root) (length own) count + k) (writes_for count + w) (f_tree s) ->
  exists s' i', kread who fd buf (Z.of_nat count) s =
      Ret ((Z.of_nat count, take count (drop pos C) ++ drop count buf), s') /\
    descriptor s' fd j i' C (pos + count) own /\ entry_only s s' j i' /\
    apart (S := tree S) (dev := dev) (root := root) (f_tree s) [self i] (f_tree s') /\ good k w (f_tree s').
Proof.
  intros Hd Hc Hpc Hb Hlt Hg. pose proof Hd as [Hr He Hi Hop Hp Hst].
  destruct (descriptor_stamped s fd j i C pos own _ Hd (or_introl eq_refl)) as (Hop' & Hst' & Ep & Es & Eself).
  pose proof (stands_length _ _ _ _ _ Hop Hst) as Hl.
  destruct (run_file_read (S := tree S) (f_tree s) _ C pos count buf own 0 k w Hop' Hst' Hc Hpc Hb ltac:(lia) Hg)
    as (x & t & Ex & Hg' & Hx).
  destruct Hx as (H1 & H2 & H3 & H4 & H5 & H6 & _ & H8 & H9).
  exists (Files t (<[j := x_inode x]> (file_tab s)) (file_desc s) (cwd s)), (x_inode x).
  split; [|split; [by eapply after_transfer|split; [done|split; [by rewrite <- Eself|done]]]].
  unfold kread. rewrite (run_transfer_fd true _ s fd j i buf _ x t Hr He Hi); [|rewrite Ep, Es; lia|by rewrite Ep, Hp].
  by rewrite H1, H2, H3, bool_decide_eq_true_2, sum_small by (done || lia).
Qed.

(** Writing to an open file at a position up to its end replaces the bytes there,
    makes the file longer when it has to and moves the position behind them, or
    returns -1 when there is no room. *)
Lemma run_kwrite s fd j i C pos own buf k w : descriptor s fd j i C pos own -> buf <> [] ->
  (pos <= length C)%nat -> Z.of_nat (pos + length buf) < 2147483648 ->
  good (reads_for (S := tree S) (dev := dev) (root := root) (length own) (length buf) + k) (writes_for (length buf) + w) (f_tree s) ->
  exists s' i', entry_only s s' j i' /\ good k w (f_tree s') /\
    (kwrite who fd buf (Z.of_nat (length buf)) s = Ret (Z.of_nat (length buf), s') /\
     (exists own', descriptor s' fd j i' (overlay pos buf C) (pos + length buf) own' /\
       (length own' <= 2 + 2 * turns (length buf) + length own)%nat) /\
     apart (S := tree S) (dev := dev) (root := root) (f_tree s) (self i :: own) (f_tree s') \/
     kwrite who fd buf (Z.of_nat (length buf)) s = Ret (-1, s') /\ (length C < pos + length buf)%nat).
Proof.
  intros Hd Hb Hpc Hlt Hg. pose proof Hd as [Hr He Hi Hop Hp Hst].
  destruct (descriptor_stamped s fd j i C pos own _ Hd (or_intror eq_refl)) as (Hop' & Hst' & Ep & Es & Eself).
  pose proof (stands_length _ _ _ _ _ Hop Hst) as Hl.
  destruct (run_file_write (S := tree S) (f_tree s) _ C pos buf own 0 k w Hop' Hst' Hb Hpc ltac:(lia) Hg)
    as (x & t & Ex & Hg' & Hx).
  exists (Files t (<[j := x_inode x]> (file_tab s)) (file_desc s) (cwd s)), (x_inode x).
  split; [done|]. split; [done|].
  assert (kwrite who fd buf (Z.of_nat (length buf)) s = Ret (if bool_decide (x_status x = FILE_OK) then i32 (u64 (x_bytes x + 0)) else -1,
    Files t (<[j := x_inode x]> (file_tab s)) (file_desc s) (cwd s))) as E.
  { unfold kwrite. by rewrite (st_step _ _ _ _ _ (run_transfer_fd false _ s fd j i buf _ x t Hr He Hi ltac:(rewrite Ep, Es; lia)
      ltac:(by rewrite Ep, Hp))). }
  rewrite E. destruct Hx as [(H1 & H2 & H4 & H5 & H6 & _ & (own' & H8 & H8l) & H9)|(H1 & H2)]; rewrite H1; [left|right].
  - rewrite bool_decide_eq_true_2, H2, sum_small by (done || lia). split; [done|].
    split; [exists own'; split; [by eapply after_transfer|done]|by rewrite <- Eself].
  - by rewrite bool_decide_eq_false_2.
Qed.

Lemma run_write_node (s : F) i k w : opened (S := tree S) (dev := dev) (root := root) i -> good (1 + k) (1 + w) (f_tree s) ->
  exists t, write_node (i_dev i) i s = Ret (true, Files t (file_tab s) (file_desc s) (cwd s)) /\ good k w t /\
    stored (S := tree S) (dev := dev) (root := root) (f_tree s) (self i) (enc inode_codec i) t.
Proof.
  intros (Hd & Hv & Hc) Hg.
  destruct (write_block_ok (S := tree S) (dev := dev) (root := root) k w (f_tree s) Inodes (self i) (enc inode_codec i) Hg Hv)
    as (t & E & Hg' & Hs); [by rewrite enc_length|].
  exists t. split; [|done]. unfold write_node, on_tree, write_inode, write_as. by rewrite Hd, E.
Qed.

(** Seeking to a position of the file, but for the multiples of 65024, moves the
    position there and changes no contents. *)
Lemma run_klseek s fd j i C pos own off k w : descriptor s fd j i C pos own -> (off <= length C)%nat ->
  Z.of_nat off < 4294967296 -> Z.of_nat off = 0 \/ Z.of_nat off mod 65024 <> 0 -> good (1 + k) (1 + w) (f_tree s) ->
  exists s' i', klseek fd (Z.of_nat off) SEEK_SET s = Ret (Z.of_nat off, s') /\
    descriptor s' fd j i' C off own /\ entry_only s s' j i' /\
    apart (S := tree S) (dev := dev) (root := root) (f_tree s) [self i] (f_tree s') /\ good k w (f_tree s').
Proof.
  intros Hd Hoff Hlt Hm Hg. pose proof Hd as [Hr He Hi (Hdev & Hv & Hc) Hp Hst].
  set (i' := put_iblock INODE_NOPOS (put_pos (Z.of_nat off) i)).
  assert (self i' = self i /\ i_dev i' = i_dev i /\ i_next i' = i_next i /\ i_size i' = i_size i /\
    i_pos i' = Z.of_nat off /\ i_current i' = i_current i /\ iblock i' = INODE_NOPOS)
    as (Eself & Edev & En & Esz & Ep & Ec & Eb) by (by destruct i).
  assert (opened (S := tree S) (dev := dev) (root := root) i') as Hop'.
  { split; [by rewrite Edev|]. rewrite Eself. split; [done|]. clear - Hc Hlt. unfold i', INODE_NOPOS. destruct i.
    cbn -[MAX_PATH INODE_PAD] in *. repeat match goal with H : _ /\ _ |- _ => destruct H end.
    repeat match goal with |- _ /\ _ => split end; first [assumption|lia]. }
  set (s1 := Files (f_tree s) (<[j := i']> (file_tab s)) (file_desc s) (cwd s)).
  destruct (run_write_node s1 i' k w Hop' Hg) as (t & Ew & Hg' & Hs).
  exists (Files t (<[j := i']> (file_tab s)) (file_desc s) (cwd s)), i'. split; [|split; [|split; [done|split; [|done]]]].
  - unfold klseek. rewrite (st_step _ _ _ _ _ (entry_of_some s fd _ Hr He)).
    rewrite (st_step _ _ _ _ _ (get_entry_some s j i Hi)). cbn [Z.eqb SEEK_SET]. fold i'.
    rewrite (st_step _ _ s s1 tt) by done. rewrite (st_step _ _ _ _ _ Ew). cbn [negb]. by rewrite u32_small by lia.
  - eapply after_transfer; try done. destruct (stored_inode (S := tree S) (f_tree s) t i') as (_ & Hv' & Hu'); [apply Hop'|apply Hop'|done|].
    destruct Hst as [H1 H2 H3 H4 H5|bs ds Hf Hsz HC Hfind Ho].
    + apply stands_empty; [by rewrite En|by rewrite Esz|done| |done]. subst C. cbn in Hoff. lia.
    + apply (stands_file _ _ _ _ _ bs ds); [|by rewrite Esz| | |done].
      * rewrite En. apply (file_agree _ _ _ _ _ _ Hf); [|intros b; apply Hu']. intros b Hb. apply Hv'.
        apply (file_valid _ _ _ _ _ _ Hf). by left.
      * rewrite Esz, HC. f_equal. unfold bytes. f_equal. apply list_fmap_ext. intros a b Hb. symmetry. apply Hv'.
        apply (file_valid _ _ _ _ _ _ Hf). right. by eapply list_elem_of_lookup_2.
      * destruct (decide (Z.of_nat off = 0 /\ i_current i = INODE_NULL)) as [[H1 H2]|Hne].
        -- apply find_first; [by rewrite Ep|by rewrite Ec|done].
        -- apply find_seek; [rewrite Ep, Ec|rewrite Eb; auto|done].
           destruct (decide (Z.of_nat off = 0)); [right; intros ?; by apply Hne|by left].
  - split; [|intros b; apply (proj2 Hs)]. intros κ b Hb _ Hn. cbn [f_tree]. rewrite (proj1 Hs κ b Hb), Eself.
    rewrite (proj2 (Z.eqb_neq _ _)); [done|]. intros ->. apply Hn. by left.
Qed.

(** ** Writing and reading back *)

Lemma overlay_read pos data C : (pos <= length C)%nat -> take (length data) (drop pos (overlay pos data C)) = data.
Proof.
  intros Hp. unfold overlay. rewrite drop_app_ge, length_take by (rewrite length_take; lia).
  replace (pos - pos `min` length C)%nat with 0%nat by lia. rewrite drop_0. apply take_app_length.
Qed.

(** What is written at a position of an open file is read back after seeking to it
    again, unless the file had to grow and there was no room. *)
Theorem write_then_read s fd j i C pos own data buf k w : descriptor s fd j i C pos own -> data <> [] ->
  (pos <= length C)%nat -> Z.of_nat pos = 0 \/ Z.of_nat pos mod 65024 <> 0 ->
  Z.of_nat (pos + length data) < 2147483648 -> length buf = length data ->
  good (reads_for (S := tree S) (dev := dev) (root := root) (length own) (length data) +
    (1 + (reads_for (S := tree S) (dev := dev) (root := root) (2 + 2 * turns (length data) + length own) (length data) + k)))
    (writes_for (length data) + (1 + (writes_for (length data) + w))) (f_tree s) ->
  exists s',
    (_ ← kwrite who fd data (Z.of_nat (length data)); _ ← klseek fd (Z.of_nat pos) SEEK_SET;
     kread who fd buf (Z.of_nat (length data))) s = Ret ((Z.of_nat (length data), data), s') \/
    kwrite who fd data (Z.of_nat (length data)) s = Ret (-1, s') /\ (length C < pos + length data)%nat.
Proof.
  intros Hd Hdata Hpos Hm Hlt Hbuf Hg.
  destruct (run_kwrite s fd j i C pos own data _ _ Hd Hdata Hpos Hlt Hg) as (s1 & i1 & _ & Hg1 & [(E1 & (own1 & Hd1 & Ho1) & _)|(E1 & H1)]);
    [|exists s1; by right].
  assert (length (overlay pos data C) = Nat.max (length C) (pos + length data)) as Hl.
  { unfold overlay. rewrite !length_app, length_take, length_drop. lia. }
  destruct (run_klseek s1 fd j i1 _ _ own1 pos _ _ Hd1 ltac:(lia) ltac:(lia) Hm Hg1) as (s2 & i2 & E2 & Hd2 & _ & _ & Hg2).
  destruct (run_kread s2 fd j i2 _ pos own1 buf (length data) k w Hd2) as (s3 & i3 & E3 & _); [by destruct data; cbn; [|lia]|lia|lia|done| |].
  { eapply good_weaken; [| |exact Hg2]; unfold reads_for; lia. }
  exists s3. left. rewrite (st_step _ _ _ _ _ E1), (st_step _ _ _ _ _ E2), E3, overlay_read by done.
  by rewrite drop_ge, app_nil_r by lia.
Qed.

(** ** Opening *)

Lemma free_desc_spec l fd : free_desc l = Some fd ->
  l !! fd = Some None /\ forall n, (n < fd)%nat -> exists e, l !! n = Some (Some e).
Proof.
  revert fd. induction l as [|[e|] l IH]; intros fd; cbn [free_desc]; [done| |].
  - destruct (free_desc l) as [fd'|] eqn:E; [|done]. intros [= <-]. destruct (IH fd' eq_refl) as [H1 H2].
    split; [done|]. intros [|n] Hn; [by exists e|]. apply H2. lia.
  - intros [= <-]. split; [done|]. lia.
Qed.

Lemma free_entry_spec l j : free_entry l = Ret (Some j) -> exists i, l !! j = Some i /\ cstr (i_path i) = Ret [].
Proof.
  revert j. induction l as [|i l IH]; intros j; cbn [free_entry]; [done|].
  destruct (cstr (i_path i)) as [n| | |] eqn:E; cbn [mbind outcome_bind]; try done.
  case_bool_decide as Hn; [intros [= <-]; exists i; by subst|].
  destruct (free_entry l) as [[j'|]| | |]; cbn; try done. intros [= <-]. destruct (IH j' eq_refl) as (i' & ? & ?).
  by exists i'.
Qed.

(** The descriptor a call gives: the lowest free one, for an entry that was free. *)
Lemma run_take_desc (s : F) fd j : free_desc (file_desc s) = Some fd -> free_entry (file_tab s) = Ret (Some j) ->
  take_desc s = Ret (Some (fd, j), Files (f_tree s) (file_tab s) (<[fd := Some j]> (file_desc s)) (cwd s)).
Proof.
  intros Hfd Hj. unfold take_desc. rewrite (st_step _ _ s s s) by done.
  rewrite (st_step _ _ s s (Some j)) by (unfold lift; by rewrite Hj). by rewrite Hfd.
Qed.

(** [path] leads to the file of inode [b], whose data blocks are [ds]. *)
Record openable (s : F) (ns : list (list Z)) (mode : inode_mode) (c : nat) (b : Z) (bs ds : list Z) : Prop := Openable {
  o_names : Forall proper ns /\ (length (rooted ns) + 3 <= MAX_PATH)%nat;
  o_root : rooted_at (HL := HL) (f_tree s);
  o_leads : leads (view dev root (base (f_tree s))) (area S dev root) who fuel c root ns b;
  o_file : is_link (node (view dev root (base (f_tree s))) b) = false /\ is_hard (node (view dev root (base (f_tree s))) b) = false;
  o_mode : inode_check_permissions (node (view dev root (base (f_tree s))) b) 0 0 (c_group who) (c_owner who) mode = true;
  o_self : self (node (view dev root (base (f_tree s))) b) = b /\ cok inode_codec (node (view dev root (base (f_tree s))) b);
  o_blocks : file (area S dev root) (view dev root (base (f_tree s))) (used dev root (base (f_tree s)))
    (i_next (node (view dev root (base (f_tree s))) b)) bs ds /\
    i_size (node (view dev root (base (f_tree s))) b) < Z.of_nat (512 * length ds)
}.

Lemma open_fields_keep flags i : -2147483648 <= dev < 2147483648 -> cok inode_codec i ->
  truth (Z.land flags O_APPEND) = false ->
  cok inode_codec (open_fields dev flags i) /\ i_dev (open_fields dev flags i) = dev /\
  self (open_fields dev flags i) = self i /\ i_next (open_fields dev flags i) = i_next i /\
  i_size (open_fields dev flags i) = i_size i /\ i_pos (open_fields dev flags i) = 0 /\
  i_current (open_fields dev flags i) = INODE_NULL.
Proof.
  intros Hdev Hc Hap. unfold open_fields. rewrite Hap. cbv zeta. set (m := u32 _). pose proof (u32_range _ : 0 <= m < _) as Hm.
  clearbody m. clear Hnow. split; [|by destruct i]. destruct i. cbn -[MAX_PATH INODE_PAD] in *. unfold INODE_NULL.
  repeat match goal with H : _ /\ _ |- _ => destruct H end.
  repeat match goal with |- _ /\ _ => split end; first [assumption|lia].
Qed.

(** Opening a file that is there, for reading or writing from its start. *)
Lemma run_kopen (s : F) ns flags fd j c b bs ds k w :
  openable s ns (open_mode flags) c b bs ds ->
  truth (Z.land flags O_TRUNC) = false -> truth (Z.land flags O_APPEND) = false ->
  get_dev (Some (rooted ns)) (base (f_tree s)) = Ret (dev, base (f_tree s)) -> -2147483648 <= dev < 2147483648 ->
  free_desc (file_desc s) = Some fd -> free_entry (file_tab s) = Ret (Some j) -> length (file_desc s) = MAX_FILES ->
  good (1 + c + k) (1 + w) (f_tree s) ->
  exists s' i, kopen who umask (1 + depth) fuel (rooted ns) flags s = Ret (Z.of_nat fd, s') /\
    descriptor s' (Z.of_nat fd) j i
      (take (Z.to_nat (i_size i)) (bytes (view dev root (base (f_tree s))) ds)) 0 (bs ++ ds) /\
    i_size i = i_size (node (view dev root (base (f_tree s))) b) /\
    file_desc s' = <[fd := Some j]> (file_desc s) /\ file_tab s' = <[j := i]> (file_tab s) /\ cwd s' = cwd s /\
    kept (HL := HL) (f_tree s) (f_tree s') /\ good k (1 + w) (f_tree s').
Proof.
  intros [[Hns Hlen] Hroot Hl [Hlk Hhd] Hperm [Hself Hcok] [Hf Hsz]] Htr Hap Hget Hdev Hfd Hj Hld Hg.
  set (i0 := node (view dev root (base (f_tree s))) b) in *.
  destruct (get_found who (f_tree s) (f_tree s) depth fuel (cwd s) ns true (open_mode flags) c b k w (kept_refl _)
    Hns Hlen Hroot Hg Hl (or_intror (conj Hlk Hhd)) Hperm) as (t & Et & Hg' & Hk). fold i0 in Et.
  destruct (put_times_keep i0 (c_now who) Hnow Hcok) as [Hca _].
  destruct (open_fields_keep flags (put_accessed (c_now who) i0) Hdev Hca Hap) as (F1 & F2 & F3 & F4 & F5 & F6 & F7).
  set (i := open_fields dev flags (put_accessed (c_now who) i0)) in *.
  assert (self i = b /\ i_next i = i_next i0 /\ i_size i = i_size i0) as (E1 & E2 & E3).
  { rewrite F3, F4, F5, <- Hself. by destruct i0. }
  exists (Files t (<[j := i]> (file_tab s)) (<[fd := Some j]> (file_desc s)) (cwd s)), i.
  split; [|split; [|by repeat (split; [done|])]].
  - unfold kopen, open_file.
    rewrite (st_step _ _ s s dev).
    2: { unfold device, on_tree, below. rewrite Hget. by destruct s as [[? ?] ? ? ?]. }
    set (s1 := Files t (file_tab s) (file_desc s) (cwd s)).
    rewrite (st_step _ _ s s1 (Some i0)).
    2: { unfold find_or_create.
         rewrite (st_step _ _ s s1 (Some i0)); [done|]. unfold find_path. rewrite (st_step _ _ s s s) by done.
         rewrite (st_step _ _ s s1 (INODE_OK, Some i0)) by (unfold on_tree; by rewrite Et). done. }
    cbv beta iota. rewrite Htr. rewrite (st_step _ _ s1 s1 (put_accessed (c_now who) i0)) by done. fold i.
    rewrite (st_step _ _ _ _ _ (run_take_desc s1 fd j Hfd Hj)). cbv beta iota.
    by rewrite (st_step _ _ _ (Files t (<[j := i]> (file_tab s)) (<[fd := Some j]> (file_desc s)) (cwd s)) tt) by done.
  - destruct (free_desc_spec _ _ Hfd) as [Hfd1 _]. destruct (free_entry_spec _ _ Hj) as (i1 & Hj1 & _).
    pose proof (lookup_lt_Some _ _ _ Hfd1) as Hfl. pose proof (lookup_lt_Some _ _ _ Hj1) as Hjl.
    split; cbn [file_desc file_tab f_tree].
    + lia.
    + rewrite Nat2Z.id. by apply list_lookup_insert_eq.
    + by apply list_lookup_insert_eq.
    + split; [done|]. split; [|done]. rewrite E1. change (area S dev root Inodes b). by eapply leads_target.
    + by rewrite F6.
    + apply (stands_file _ _ _ _ _ bs ds); [|by rewrite E3| |by apply find_first|done].
      * rewrite E2. apply (file_agree _ _ _ _ _ _ Hf); [|intros q; apply (proj1 (proj2 Hk))].
        intros q Hq. apply (proj1 Hk Data). apply (file_valid _ _ _ _ _ _ Hf). by left.
      * f_equal. unfold bytes. f_equal. apply list_fmap_ext. intros a q Hq. symmetry. apply (proj1 Hk Data).
        apply (file_valid _ _ _ _ _ _ Hf). right. by eapply list_elem_of_lookup_2.
Qed.

(** Opening the path of a file and reading gives the first bytes of the file. *)
Theorem open_then_read (s : F) ns fd j c b bs ds count buf k w :
  openable s ns INODE_READ c b bs ds ->
  get_dev (Some (rooted ns)) (base (f_tree s)) = Ret (dev, base (f_tree s)) -> -2147483648 <= dev < 2147483648 ->
  free_desc (file_desc s) = Some fd -> free_entry (file_tab s) = Ret (Some j) -> length (file_desc s) = MAX_FILES ->
  (0 < count)%nat -> Z.of_nat count <= i_size (node (view dev root (base (f_tree s))) b) ->
  Z.of_nat count < 2147483648 -> (count <= length buf)%nat ->
  good (1 + c + (reads_for (S := tree S) (dev := dev) (root := root) (length (bs ++ ds)) count + k))
    (1 + (writes_for count + w)) (f_tree s) ->
  exists s', (n ← kopen who umask (1 + depth) fuel (rooted ns) O_RDONLY; kread who n buf (Z.of_nat count)) s =
    Ret ((Z.of_nat count, take count (bytes (view dev root (base (f_tree s))) ds) ++ drop count buf), s').
Proof.
  intros Ho Hget Hdev Hfd Hj Hld Hc Hsz Hlt Hbuf Hg.
  destruct (run_kopen s ns O_RDONLY fd j c b bs ds _ _ Ho eq_refl eq_refl Hget Hdev Hfd Hj Hld Hg)
    as (s1 & i & E1 & Hd & Es & _ & _ & _ & _ & Hg1).
  assert (good (reads_for (S := tree S) (dev := dev) (root := root) (length (bs ++ ds)) count + k) (writes_for count + w) (f_tree s1))
    as Hg2 by (eapply good_weaken; [| |exact Hg1]; lia).
  pose proof (o_blocks _ _ _ _ _ _ _ Ho) as [Hf Hsz'].
  pose proof (file_sectors (S := tree S) _ _ _ _ _ _ Hf Hg) as Hsec. pose proof (concat_length 512 _ Hsec) as Hold.
  change (concat _) with (bytes (view dev root (base (f_tree s))) ds) in Hold. rewrite length_map in Hold.
  destruct (run_kread s1 (Z.of_nat fd) j i _ 0 _ buf count k w Hd Hc) as (s2 & i2 & E2 & _);
    [rewrite length_take; lia|done|lia|done|].
  exists s2. rewrite (st_step _ _ _ _ _ E1), E2, drop_0, take_take. by rewrite Nat.min_l by lia.
Qed.

(** C10: a duplicate is the lowest free descriptor and shares file and position; it
    stays open when the original is closed. *)
Theorem dup_survives_close s fd j i C pos own n : descriptor s fd j i C pos own -> length (file_desc s) = MAX_FILES ->
  free_desc (file_desc s) = Some n ->
  exists s1 s2, kdup fd s = Ret (Z.of_nat n, s1) /\ descriptor s1 (Z.of_nat n) j i C pos own /\
    kclose who fd s1 = Ret (0, s2) /\ descriptor s2 (Z.of_nat n) j i C pos own /\
    file_desc s2 !! Z.to_nat fd = Some None.
Proof.
  intros [Hr He Hi Hop Hp Hst] Hlen Hn. destruct (free_desc_spec _ _ Hn) as [Hn1 _].
  pose proof (lookup_lt_Some _ _ _ Hn1) as Hnl. pose proof (lookup_lt_Some _ _ _ He) as Hfl.
  assert (n <> Z.to_nat fd) as Hne by (intros ->; congruence).
  set (s1 := Files (f_tree s) (file_tab s) (<[n := Some j]> (file_desc s)) (cwd s)).
  set (s2 := Files (f_tree s) (file_tab s) (<[Z.to_nat fd := None]> (<[n := Some j]> (file_desc s))) (cwd s)).
  exists s1, s2. split; [|split; [|split; [|split]]].
  - unfold kdup. rewrite (st_step _ _ _ _ _ (entry_of_some s fd _ Hr He)). cbv beta iota.
    rewrite (st_step _ _ s s s) by done. by rewrite Hn.
  - split; cbn; try done; [lia|]. rewrite Nat2Z.id. by apply list_lookup_insert_eq.
  - assert (file_desc s1 !! Z.to_nat fd = Some (Some j)) as He1 by (cbn; by rewrite list_lookup_insert_ne).
    unfold kclose. rewrite (st_step _ _ _ _ _ (entry_of_some s1 fd _ Hr He1)). cbv beta iota.
    rewrite (st_step _ _ s1 s1 s1) by done.
    assert (shared (Z.to_nat fd) j (file_desc s1) = true) as ->.
    { apply existsb_exists. exists (n, Some j). split.
      - apply list_elem_of_In, elem_of_lookup_imap. exists n, (Some j). split; [done|]. cbn. by apply list_lookup_insert_eq.
      - rewrite bool_decide_eq_true_2 by done. by rewrite (proj2 (Nat.eqb_neq _ _)). }
    done.
  - split; cbn; try done; [lia|]. rewrite Nat2Z.id, list_lookup_insert_ne by done. by apply list_lookup_insert_eq.
  - cbn. apply list_lookup_insert_eq. by rewrite length_insert.
Qed.

(** Descriptor 1024 passes the check of the range, and every call then reads past
    the end of the table. *)
Theorem descriptor_1024 (s : F) buf count : length (file_desc s) = MAX_FILES ->
  kread who 1024 buf count s = Fault /\ kwrite who 1024 buf count s = Fault /\ kclose who 1024 s = Fault /\
  kdup 1024 s = Fault /\ (forall off whence, klseek 1024 off whence s = Fault) /\ kfchdir 1024 s = Fault.
Proof.
  intros Hl. assert (entry_of 1024 s = Fault) as E.
  { unfold entry_of. change ((1024 <? 0) || (Z.of_nat MAX_FILES <? 1024)) with false. cbv iota.
    rewrite (st_step _ _ s s s) by done. unfold checked.
    rewrite lookup_ge_None_2; [done|]. rewrite Hl. unfold MAX_FILES. lia. }
  unfold kwrite, kread, transfer_fd, kclose, kdup, klseek, kfchdir, mbind, st_bind. rewrite E. done.
Qed.

(** No seek goes back: an offset that is negative as a signed number moves the
    position to 2147483647. *)
Theorem seek_never_back s fd j i C pos own off k w : descriptor s fd j i C pos own -> -2147483648 <= off < 0 ->
  Z.of_nat pos < 4294967296 -> good (1 + k) (1 + w) (f_tree s) ->
  exists s' i', klseek fd (u32 off) SEEK_CUR s = Ret (2147483647, s') /\ file_tab s' !! j = Some i' /\
    i_pos i' = 2147483647.
Proof.
  intros Hd Hoff Hps Hg. pose proof Hd as [Hr He Hi (Hdev & Hv & Hc) Hp _].
  set (i' := put_iblock INODE_NOPOS (put_pos SSIZE_MAX i)).
  assert (self i' = self i /\ i_dev i' = i_dev i /\ i_pos i' = SSIZE_MAX) as (Eself & Edev & Ep) by (by destruct i).
  assert (opened (S := tree S) (dev := dev) (root := root) i') as Hop'.
  { split; [by rewrite Edev|]. rewrite Eself. split; [done|]. clear - Hc. unfold i', INODE_NOPOS, SSIZE_MAX. destruct i.
    cbn -[MAX_PATH INODE_PAD] in *. repeat match goal with H : _ /\ _ |- _ => destruct H end.
    repeat match goal with |- _ /\ _ => split end; first [assumption|lia]. }
  set (s1 := Files (f_tree s) (<[j := i']> (file_tab s)) (file_desc s) (cwd s)).
  destruct (run_write_node s1 i' k w Hop' Hg) as (t & Ew & _ & _).
  exists (Files t (<[j := i']> (file_tab s)) (file_desc s) (cwd s)), i'. split; [|split; [|done]].
  - unfold klseek. rewrite (st_step _ _ _ _ _ (entry_of_some s fd _ Hr He)).
    rewrite (st_step _ _ _ _ _ (get_entry_some s j i Hi)). 
    assert (u64 (i_pos i + u32 off) = Z.of_nat pos + (4294967296 + off)) as Eu.
    { assert (u32 off = 4294967296 + off) as ->.
      { unfold uwrap. rewrite <- (Z.mod_add off 1) by done. rewrite Z.mod_small; change (2 ^ 32) with 4294967296; lia. }
      rewrite Hp. apply (uwrap_small 64). change (2 ^ 64) with 18446744073709551616. lia. }
    change (SEEK_CUR =? SEEK_SET) with false. change (SEEK_CUR =? SEEK_CUR) with true. cbv beta iota zeta.
    rewrite Eu, (proj2 (Z.ltb_lt SSIZE_MAX _)) by (unfold SSIZE_MAX; lia). fold i'.
    rewrite (st_step _ _ s s1 tt) by done. by rewrite (st_step _ _ _ _ _ Ew).
  - cbn. apply list_lookup_insert_eq. by eapply lookup_lt_Some.
Qed.

(** ** Truncating *)

Abbreviation used_in s := (used dev root (base (f_tree s))).
Abbreviation shown s := (view dev root (base (f_tree s))).

Lemma run_free_data (s : F) b k w : good (1 + k) (1 + w) (f_tree s) -> area S dev root Data b ->
  exists t, on_tree (free_data_block dev b) s = Ret (INODE_OK, Files t (file_tab s) (file_desc s) (cwd s)) /\
    good k (1 + w) t /\ (forall κ c, area S dev root κ c -> view dev root (base t) c = shown s c) /\
    ~ used dev root (base t) b /\ (forall c, used_in s c -> c <> b -> used dev root (base t) c).
Proof.
  intros Hg Hb. destruct (free_ok (S := tree S) (dev := dev) (root := root) Data k w (f_tree s) b Hg Hb) as (t & E & Hr).
  exists t. split; [|exact Hr]. unfold on_tree. by rewrite E.
Qed.

Lemma run_free_all l : forall (s : F) k w, Forall (area S dev root Data) (filter (fun b => b <> INODE_NULL) l) ->
  good (length (filter (fun b => b <> INODE_NULL) l) + k) (1 + w) (f_tree s) ->
  exists t, free_all dev l s = Ret (tt, Files t (file_tab s) (file_desc s) (cwd s)) /\ good k (1 + w) t /\
    (forall κ c, area S dev root κ c -> view dev root (base t) c = shown s c) /\
    (forall c, used_in s c -> (c ∉ filter (fun b => b <> INODE_NULL) l) -> used dev root (base t) c) /\
    (filter (fun b => b <> INODE_NULL) l = [] -> t = f_tree s) /\
    (forall b, filter (fun b => b <> INODE_NULL) l = [b] -> ~ used dev root (base t) b).
Proof.
  induction l as [|b l IH]; intros s k w Hv Hg; cbn [free_all].
  { exists (f_tree s). split; [by destruct s|]. split; [eapply good_weaken; [| |exact Hg]; cbn; lia|]. by split. }
  destruct (decide (b = INODE_NULL)) as [->|Hb].
  - rewrite filter_cons_False in * by (intros H; by apply H). rewrite Z.eqb_refl. rewrite (st_step _ _ s s tt) by done.
    by apply IH.
  - rewrite filter_cons_True in * by done. apply Forall_cons in Hv as [Hvb Hv]. cbn [length] in Hg.
    rewrite (proj2 (Z.eqb_neq _ _)) by done.
    destruct (run_free_data s b (length (filter (fun b => b <> INODE_NULL) l) + k) w) as (t1 & E1 & Hg1 & Hv1 & Hn1 & Hu1);
      [eapply good_weaken; [| |exact Hg]; lia|done|].
    set (s1 := Files t1 (file_tab s) (file_desc s) (cwd s)). rewrite (st_step _ _ s s1 tt).
    2: { by rewrite (st_step _ _ _ _ _ E1). }
    destruct (IH s1 k w Hv Hg1) as (t2 & E2 & Hg2 & Hv2 & Hu2 & Hn2). exists t2. split; [done|]. split; [done|].
    split; [|split; [|split; [done|]]].
    + intros κ c Hc. rewrite (Hv2 κ c Hc). by apply (Hv1 κ).
    + intros c Hc Hn. apply not_elem_of_cons in Hn as [Hn3 Hn4]. apply Hu2; [by apply Hu1|done].
    + intros c [= -> Hnil]. by rewrite (proj1 Hn2 Hnil).
Qed.

Lemma run_read_map_block (s : F) b a k w : good (1 + k) (1 + w) (f_tree s) -> area S dev root Data b ->
  exists t, on_tree (read_map_block dev b a) s = Ret ((true, map_at (shown s) b), Files t (file_tab s) (file_desc s) (cwd s)) /\
    good k (1 + w) t /\ kept (HL := HL) (f_tree s) t.
Proof.
  intros Hg Hb. destruct (run_read_as block_map_t_codec (f_tree s) (f_tree s) k w Data b a (kept_refl _) Hg Hb) as (t & E & Hr).
  exists t. split; [|done]. unfold on_tree, read_map_block. by rewrite E.
Qed.

(** The states in [R], which the calls keep, show the block map [m0] in block 0. *)
Record block_zero (R : tree S -> Prop) (m0 : block_map_t) : Prop := BlockZero {
  z_read t b a r t' : R t -> read_map_block dev b a t = Ret (r, t') -> R t';
  z_free t b r t' : R t -> free_data_block dev b t = Ret (r, t') -> R t';
  z_shown t a k w : R t -> good (1 + k) (1 + w) t ->
    exists t', read_map_block dev INODE_NULL a t = Ret ((true, m0), t') /\ good k (1 + w) t'
}.

Lemma free_all_keeps R m0 l : forall s s', block_zero R m0 -> R (f_tree s) -> free_all dev l s = Ret (tt, s') -> R (f_tree s').
Proof.
  induction l as [|b l IH]; intros s s' HR Hs; cbn [free_all]; [by intros [= <-]|].
  destruct (b =? INODE_NULL); [exact (IH s s' HR Hs)|].
  destruct (free_data_block dev b (f_tree s)) as [[r t]| | |] eqn:E; unfold mbind, st_bind, on_tree; rewrite E; try done.
  apply IH; [done|]. by eapply (z_free R m0 HR).
Qed.

Lemma on_tree_ret {A} (f : st (tree S) A) (s s' : F) r : on_tree f s = Ret (r, s') -> f (f_tree s) = Ret (r, f_tree s').
Proof. unfold on_tree. destruct (f (f_tree s)) as [[a t]| | |]; [|done..]. by intros [= <- <-]. Qed.

(** Truncating a file goes on with block 0 behind the last block map: it frees the
    data block that the words of block 0 happen to name, whatever file it belongs
    to. *)
Theorem truncate_frees_foreign (s : F) R m ds x m0 n k w : file (area S dev root) (shown s) (used_in s) m [m] ds ->
  block_zero R m0 -> R (f_tree s) -> entries m0 = [x] -> area S dev root Data x ->
  good (length ds + (4 + k)) (1 + w) (f_tree s) ->
  exists s', truncate (2 + n) dev (BlockMap m (b_blocks zero_map)) m s = Ret (tt, s') /\ ~ used_in s' x.
Proof.
  intros Hf H0 HR Hx Hvx Hg.
  assert (area S dev root Data m) as Hm by (apply (file_valid _ _ _ _ _ _ Hf); left; by left).
  pose proof (area_bounds (S := S) (dev := dev) (root := root) Data m Hm) as [_ Hm0].
  assert (filter (fun b => b <> INODE_NULL) (b_blocks (map_at (shown s) m)) = ds) as Eds.
  { destruct (f_numbers _ _ _ _ _ _ Hf) as [z Hz]. unfold numbers in Hz. cbn [map concat] in Hz. rewrite app_nil_r in Hz.
    rewrite Hz, filter_app. assert (filter (fun b => b <> INODE_NULL) (replicate z INODE_NULL) = []) as ->.
    { clear. induction z as [|z IH]; [done|]. cbn [replicate]. by rewrite filter_cons_False by (intros H; by apply H). }
    rewrite app_nil_r. clear - Hf. pose proof (f_data _ _ _ _ _ _ Hf) as Hd. clear Hf.
    induction Hd as [|d l Hd _ IH]; [done|]. rewrite filter_cons_True, IH; [done|].
    by apply (area_bounds (S := S) (dev := dev) (root := root) Data) in Hd as [_ ?]. }
  cbn [truncate Nat.add]. rewrite (proj2 (Z.eqb_neq m _)) by done. cbn [b_next].
  destruct (run_read_map_block s m (BlockMap m (b_blocks zero_map)) (length ds + (3 + k)) w) as (t1 & E1 & Hg1 & Hk1);
    [eapply good_weaken; [| |exact Hg]; lia|done|].
  assert (R t1) as HR1.
  { eapply (z_read R m0 H0 (f_tree s)); [done|]. exact (on_tree_ret _ _ _ _ E1). }
  rewrite (st_step _ _ _ _ _ E1). set (s1 := Files t1 _ _ _). cbn [snd].
  destruct (run_free_all (b_blocks (map_at (shown s) m)) s1 (3 + k) w) as (t2 & E2 & Hg2 & Hv2 & Hu2 & _).
  { rewrite Eds. apply (f_data _ _ _ _ _ _ Hf). } { by rewrite Eds. }
  pose proof (free_all_keeps R m0 _ _ _ H0 (HR1 : R (f_tree s1)) E2) as HR2. cbn [f_tree] in HR2.
  rewrite (st_step _ _ _ _ _ E2). set (s2 := Files t2 _ _ _).
  destruct (run_free_data s2 m (2 + k) w Hg2 Hm) as (t3 & E3 & Hg3 & _ & _ & Hu3). set (s3 := Files t3 (file_tab s2) (file_desc s2) (cwd s2)).
  rewrite (st_step _ _ s2 s3 tt).
  2: { rewrite (proj2 (Z.eqb_neq m INODE_NULL)) by done. by rewrite (st_step _ _ _ _ _ E3). }
  assert (b_next (map_at (shown s) m) = INODE_NULL) as -> by apply (map_next _ _ _ _ 0 _ (f_chain _ _ _ _ _ _ Hf) eq_refl).
  assert (R t3) as HR3.
  { eapply (z_free R m0 H0 t2); [done|]. exact (on_tree_ret _ _ _ _ E3). }
  destruct (z_shown R m0 H0 t3 (map_at (shown s) m) (1 + k) w HR3 Hg3) as (t4 & E4 & Hg4).
  rewrite (proj2 (Z.eqb_neq m INODE_NULL)) by done.
  rewrite (st_step _ _ s3 (Files t4 (file_tab s) (file_desc s) (cwd s)) (true, m0)) by (unfold on_tree; cbn [s3 f_tree]; by rewrite E4).
  set (s4 := Files t4 _ _ _). cbn [snd].
  destruct (run_free_all (b_blocks m0) s4 k w) as (t5 & E5 & _ & _ & _ & _ & Hn5).
  { fold (entries m0). rewrite Hx. by constructor. } { fold (entries m0). by rewrite Hx. }
  rewrite (st_step _ _ _ _ _ E5). set (s5 := Files t5 _ _ _). exists s5. split; [|by apply (Hn5 x)].
  rewrite (st_step _ _ s5 s5 tt) by done. by destruct n.
Qed.
End Fd.
