(* ===== verification/FileRuns.v ===== *)
(** * Concrete files

    The small tree with a file [/f] that holds [hello], opened again, and a long file
    of two block maps. *)

From stdpp Require Import gmap.
From S2P Require Import Prelude Errno Layout Perms Alloc Store StoreSpec Paths PathsSpec.
From S2P Require Import Tree TreeSpec CreateSpec FileIO FileSpec FileCorrect File FdSpec TreeRuns.

#[export] Instance mem_dev_ops : DevOps mem := {|
  get_dev _ := mret 0;
  sync_dev _ := mret true
|}.

Definition hello : list Z := [104; 101; 108; 108; 111].
Definition path_f : list (list Z) := [[102]].
Definition idle : files mem := Files small (replicate 2 zero_inode) (replicate MAX_FILES None) mem_root.

Definition make_f : st (files mem) (Z * Z * Z) :=
  fd ← kopen me 0 3 5 (rooted path_f) (Z.lor O_CREAT O_RDWR);
  n ← kwrite me fd hello 5;
  r ← kclose me fd;
  mret (fd, n, r).

Definition stored_f : tree mem := Eval vm_compute in f_tree (final_state make_f idle).
Definition closed_f : files mem := Files stored_f (replicate 2 zero_inode) (replicate MAX_FILES None) mem_root.

Example made_f : make_f idle = Ret ((0, 5, 0), closed_f).
Proof. vm_compute. reflexivity. Qed.

Abbreviation shown_f := (view 0 mem_root (base stored_f)).

(** ** Checking structures by running *)

Definition is_byte (b : Z) : bool := (0 <=? b) && (b <? 256).

Lemma cok_check {A} (c : codec A) `{!Lawful c} a : dec c (enc c a) = a -> length (enc c a) = csize c ->
  forallb is_byte (enc c a) = true -> cok c a.
Proof.
  intros Hd Hl Hb. rewrite <- Hd. apply dec_ok; [done|]. apply Forall_forall. intros b Hin.
  rewrite forallb_forall in Hb. specialize (Hb b (proj1 (list_elem_of_In _ _) Hin)). unfold is_byte in Hb. unfold byte. lia.
Qed.

(** A file of one block map. *)
Lemma one_map_file s m ds z : mem_area Data m -> b_next (map_at (mem_view s) m) = INODE_NULL ->
  b_blocks (map_at (mem_view s) m) = ds ++ replicate z INODE_NULL ->
  forallb (fun b => (200 <=? b) && (b <? 500)) ds = true -> bool_decide (NoDup (m :: ds)) = true ->
  bool_decide (Forall (fun b => b ∈ mem_used s) (m :: ds)) = true -> cok block_map_t_codec (map_at (mem_view s) m) ->
  file mem_area (mem_view s) (fun b => b ∈ mem_used s) m [m] ds.
Proof.
  intros Hm Hn Hb Hd Hnd Hu Hc. apply bool_decide_eq_true in Hnd. apply bool_decide_eq_true in Hu. split.
  - by constructor.
  - exists z. unfold numbers. cbn [map concat]. by rewrite app_nil_r.
  - apply Forall_forall. intros b Hin. rewrite forallb_forall in Hd.
    specialize (Hd b (proj1 (list_elem_of_In _ _) Hin)). unfold mem_area. cbn. lia.
  - done.
  - done.
  - by constructor.
Qed.

Lemma file_f : file mem_area shown_f (fun b => b ∈ mem_used (base stored_f)) 205 [205] [206].
Proof.
  apply one_map_file with 126%nat; [by unfold mem_area|vm_compute; reflexivity..|].
  apply cok_check; [apply _|vm_compute; reflexivity..].
Qed.

Lemma stored_good k w : good (S := mem) 0 mem_root k w (base stored_f).
Proof. apply mem_good_of. apply (bool_decide_eq_true_1 _). vm_compute. reflexivity. Qed.

(** ** The open file *)

Definition inode_f : inode := Eval vm_compute in
  match file_tab (final_state (kopen me 0 3 5 (rooted path_f) O_RDWR) closed_f) !! 0%nat with Some i => i | None => zero_inode end.
Definition opened_f : files mem := Files stored_f [inode_f; zero_inode] (Some 0%nat :: replicate 1023 None) mem_root.

Example opens_f : kopen me 0 3 5 (rooted path_f) O_RDWR closed_f = Ret (0, opened_f).
Proof. vm_compute. reflexivity. Qed.

Lemma inode_f_opened : opened (S := mem) (dev := 0) (root := mem_root) inode_f.
Proof.
  split; [done|]. split; [by vm_compute|]. apply cok_check; [apply _|vm_compute; reflexivity..].
Qed.

Lemma inode_f_stands : stands (S := mem) (dev := 0) (root := mem_root) (base stored_f) inode_f hello 0 [205; 206].
Proof.
  apply (stands_file _ _ _ _ _ [205] [206]); [apply file_f|done|vm_compute; reflexivity|by apply find_first|done].
Qed.

Lemma descriptor_f : descriptor (HL := mem_laws 0) opened_f 0 0 inode_f hello 0 [205; 206].
Proof.
  split; [done|done|done|apply inode_f_opened|done|].
  apply (stands_file _ _ _ _ _ [205] [206]); [apply file_f|done|vm_compute; reflexivity|by apply find_first|done].
Qed.

(** ** Transfers *)


Lemma file_read_correct_witness :
  exists x s', file_read_write inode_f 0 3 [0; 0; 0; 9] true 0 (base stored_f) = Ret (x, s') /\
    x_status x = FILE_OK /\ x_data x = [104; 101; 108; 9].
Proof.
  destruct (file_read_correct (base stored_f) inode_f hello 0 3 [0; 0; 0; 9] [205; 206] 0 0 0 inode_f_opened inode_f_stands
    ltac:(lia) ltac:(cbn; lia) ltac:(cbn; lia) ltac:(cbn; lia) (stored_good _ _)) as (x & s' & E & _ & H1 & _ & H2 & _).
  exists x, s'. split; [exact E|]. split; [exact H1|exact H2].
Defined.

Lemma file_read_past_end_witness :
  exists x s', file_read_write (put_pos 5 inode_f) 5 4 [0; 0; 0; 0] true 0 (base stored_f) = Ret (x, s') /\
    x_bytes x = 4 /\ i_size (x_inode x) = 9.
Proof.
  assert (opened (S := mem) (dev := 0) (root := mem_root) (put_pos 5 inode_f)) as Hop.
  { split; [done|]. split; [by vm_compute|]. apply cok_check; [apply _|vm_compute; reflexivity..]. }
  assert (findable (dev := 0) (root := mem_root) (base stored_f) [205] [206] (put_pos 5 inode_f) 5) as Hf.
  { apply find_seek; [left; by vm_compute|by right; left|right; by vm_compute]. }
  destruct (file_read_past_end (HL := mem_laws 0) (base stored_f) (put_pos 5 inode_f) [205] [206] 4 [0; 0; 0; 0] 0 0 0 file_f Hop Hf
    ltac:(lia) ltac:(cbn; lia) ltac:(cbn; lia) ltac:(cbn; lia) ltac:(cbn; lia) (stored_good _ _))
    as (x & s' & E & _ & H1 & H2 & _).
  exists x, s'. split; [exact E|]. split; [exact H1|exact H2].
Defined.

(** ** The calls *)

Lemma opened_f_good k w : good (S := tree mem) 0 mem_root k w (f_tree opened_f).
Proof. apply stored_good. Qed.

Lemma now_small : 0 <= c_now me < 4294967296.
Proof. by vm_compute. Qed.

Lemma write_then_read_witness :
  exists s', (_ ← kwrite me 0 [97; 98] 2; _ ← klseek 0 0 SEEK_SET; kread me 0 [0; 0] 2) opened_f = Ret ((2, [97; 98]), s').
Proof.
  destruct (write_then_read me now_small opened_f 0 0 inode_f hello 0 [205; 206] [97; 98] [0; 0] 0 0 descriptor_f ltac:(done)
    ltac:(cbn; lia) (or_introl eq_refl) ltac:(cbn; lia) eq_refl (opened_f_good _ _)) as (s' & [E|[_ H]]); [|cbn in H; lia].
  exists s'. exact E.
Defined.

Lemma dup_survives_close_witness :
  exists s1 s2, kdup 0 opened_f = Ret (1, s1) /\ kclose me 0 s1 = Ret (0, s2) /\ file_desc s2 !! 1%nat = Some (Some 0%nat).
Proof.
  destruct (dup_survives_close me opened_f 0 0 inode_f hello 0 [205; 206] 1 descriptor_f ltac:(by vm_compute) eq_refl)
    as (s1 & s2 & E1 & _ & E2 & Hd & _).
  exists s1, s2. split; [exact E1|]. split; [exact E2|]. exact (d_entry _ _ _ _ _ _ _ Hd).
Defined.

Lemma descriptor_1024_witness : kread me 1024 [0] 1 opened_f = Fault.
Proof.
  destruct (descriptor_1024 me opened_f [0] 1 ltac:(by vm_compute)) as [E _]. exact E.
Defined.

Lemma seek_never_back_witness :
  exists s' i', klseek 0 (u32 (-1)) SEEK_CUR opened_f = Ret (2147483647, s') /\ file_tab s' !! 0%nat = Some i' /\ i_pos i' = 2147483647.
Proof.
  exact (seek_never_back opened_f 0 0 inode_f hello 0 [205; 206] (-1) 0 0 descriptor_f ltac:(lia) ltac:(lia) (opened_f_good _ _)).
Defined.

Lemma open_then_read_witness :
  exists s', (n ← kopen me 0 3 5 (rooted path_f) O_RDONLY; kread me n [0; 0] 2) closed_f = Ret ((2, [104; 101]), s').
Proof.
  assert (openable (HL := mem_laws 0) me 5 closed_f path_f INODE_READ
    (2 + length (entries (map_at shown_f (i_next (node shown_f 100))))) 106 [205] [206]) as Ho.
  { split.
    - split; [by apply (bool_decide_eq_true_1 _)|cbn; unfold MAX_PATH; lia].
    - split; vm_compute; reflexivity.
    - apply leads_last with (entries (map_at shown_f (i_next (node shown_f 100)))); [|vm_compute; reflexivity].
      apply one_map; [by vm_compute|vm_compute; reflexivity].
    - split; vm_compute; reflexivity.
    - vm_compute. reflexivity.
    - split; [vm_compute; reflexivity|]. apply cok_check; [apply _|vm_compute; reflexivity..].
    - assert (i_next (node (view 0 mem_root (base (f_tree closed_f))) 106) = 205) as -> by (vm_compute; reflexivity).
      split; [exact file_f|vm_compute; reflexivity]. }
  destruct (open_then_read (HD := mem_dev_ops) (HL := mem_laws 0) me 0 2 5 now_small closed_f path_f 0 0 _ 106 [205] [206] 2 [0; 0] 0 0 Ho eq_refl ltac:(lia)
    ltac:(by vm_compute) ltac:(vm_compute; reflexivity) ltac:(by vm_compute) ltac:(lia) ltac:(vm_compute; congruence) ltac:(lia) ltac:(cbn; lia)
    (stored_good _ _)) as (s' & E).
  exists s'. exact E.
Defined.

(** A block 0 that names data block 206. *)
Definition names_f : block_map_t := BlockMap 0 (206 :: replicate 126 0).
Definition shows_f (t : tree mem) : Prop := mem_view (base t) 0 = enc block_map_t_codec names_f.
Definition bare_f : files mem :=
  Files (Tree (Mem {[0 := enc block_map_t_codec names_f; 210 := enc block_map_t_codec (BlockMap 0 (211 :: replicate 126 0))]}
    {[206; 210; 211]} 0) 0) (replicate 2 zero_inode) (replicate MAX_FILES None) mem_root.

Lemma block_zero_f : block_zero (dev := 0) (root := mem_root) shows_f names_f.
Proof.
  assert (cok block_map_t_codec names_f) as Hc by (apply cok_check; [apply _|vm_compute; reflexivity..]).
  split.
  - intros [b q] c a r t' Hs. unfold read_map_block, read_as, below. cbn.
    destruct (mem_valid c); intros [= _ <-]; exact Hs.
  - intros [b q] c r t' Hs. unfold below. cbn. by intros [= _ <-].
  - intros [b q] a k w Hs Hg. exists (Tree b q). split; [|exact Hg].
    assert (read_block 0 0 (enc block_map_t_codec a) (Tree b q) = Ret ((true, mem_view b 0), Tree b q)) as E by done.
    unfold read_map_block, read_as. change INODE_NULL with 0. rewrite (st_step _ _ _ _ _ E).
    unfold shows_f in Hs. cbn [base] in Hs. cbn [fst snd]. by rewrite Hs, dec_enc.
Qed.

Lemma truncate_frees_foreign_witness :
  exists s', truncate 2 0 (BlockMap 210 (b_blocks zero_map)) 210 bare_f = Ret (tt, s') /\ (206 ∉ mem_used (base (f_tree s'))).
Proof.
  assert (file (area mem 0 mem_root) (view 0 mem_root (base (f_tree bare_f))) (used 0 mem_root (base (f_tree bare_f))) 210 [210] [211]) as Hf.
  { apply one_map_file with 126%nat; [by unfold mem_area|vm_compute; reflexivity..|].
    apply cok_check; [apply _|vm_compute; reflexivity..]. }
  destruct (truncate_frees_foreign (HL := mem_laws 0) bare_f shows_f 210 [211] 206 names_f 0 0 0 Hf block_zero_f
    ltac:(vm_compute; reflexivity) ltac:(vm_compute; reflexivity) ltac:(by vm_compute)
    ltac:(apply mem_good_of; apply (bool_decide_eq_true_1 _); vm_compute; reflexivity)) as (s' & E & H).
  exists s'. split; [exact E|exact H].
Defined.

(** ** A file of two block maps *)

Definition data_l : list Z := seqZ 300 128.
Definition long : mem :=
  Mem {[200 := enc block_map_t_codec (BlockMap 201 (seqZ 300 127)); 201 := enc block_map_t_codec (BlockMap 0 (427 :: replicate 126 0))]}
    (list_to_set (200 :: 201 :: data_l)) 0.
Definition inode_l : inode :=
  put_iblock INODE_NOPOS (put_pos 65024 (put_size 65025 (put_next 200 (put_device 0 inode_f)))).

Lemma file_l : file mem_area (mem_view long) (fun b => b ∈ mem_used long) 200 [200; 201] data_l.
Proof.
  assert (map_at (mem_view long) 200 = BlockMap 201 (seqZ 300 127)) as E0 by (vm_compute; reflexivity).
  assert (map_at (mem_view long) 201 = BlockMap 0 (427 :: replicate 126 0)) as E1 by (vm_compute; reflexivity).
  split.
  - constructor; [by unfold mem_area|by rewrite E0|]. rewrite E0. by constructor; [unfold mem_area|rewrite E1].
  - exists 126%nat. unfold numbers. cbn [map concat]. rewrite E0, E1. vm_compute. reflexivity.
  - apply Forall_forall. intros b Hb%elem_of_seqZ. unfold mem_area. cbn. lia.
  - apply (bool_decide_eq_true_1 _). vm_compute. reflexivity.
  - apply Forall_forall. intros b Hb. unfold long. cbn [mem_used]. by apply elem_of_list_to_set.
  - constructor; [|constructor; [|constructor]]; (apply cok_check; [apply _|vm_compute; reflexivity..]).
Qed.

Lemma seek_wraps_witness :
  exists c s', find_start inode_l [] 0 65024 long = Ret (inr (inode_l, c), s') /\ at_start c = 300.
Proof.
  assert (opened (S := mem) (dev := 0) (root := mem_root) inode_l) as Hop.
  { split; [done|]. split; [by vm_compute|]. apply cok_check; [apply _|vm_compute; reflexivity..]. }
  destruct (seek_wraps (HL := mem_laws 0) long inode_l [200; 201] data_l 1 [] 0 0 0 file_l Hop ltac:(lia) ltac:(by vm_compute)
    ltac:(by vm_compute) eq_refl eq_refl ltac:(by vm_compute)
    ltac:(apply mem_good_of; apply (bool_decide_eq_true_1 _); vm_compute; reflexivity)) as (c & s' & E & (k & j & _ & _ & _ & _ & _ & H) & _).
  exists c, s'. split; [exact E|]. cbn in H. by injection H.
Defined.
