(* ===== verification/Dir.v ===== *)
(** * Directories ([fs/dir.c])

    The open directories of a process: [dir_tab], whose entries are also what the
    calls return pointers to.  A [DIR *] is the index of its entry, or [None] for
    [NULL]; a [struct dirent *] is the contents of the entry it points to.  A
    directory shows [.] and [..] at the offsets 0 and 1, then the entries of its
    block maps that are not 0. *)

From S2P Require Import Prelude Errno Device Layout Perms Alloc Store Paths Tree FileIO File.

Definition MAX_DIR : nat := 1024.

Record dirent := Dirent { d_ino : Z; d_off : Z; d_reclen : Z; d_type : Z; d_name : list Z }.

Record DIR := Dir {
  __fd : Z; __data : inode; __allocation : Z; __offset : Z; __block_ptr : Z; __block : Z;
  __path : list Z; __entry : dirent
}.

Definition zero_entry : dirent := Dirent 0 0 0 0 (replicate MAX_PATH 0).
Definition zero_dir : DIR := Dir 0 zero_inode 0 0 0 0 (replicate MAX_PATH 0) zero_entry.

(** ** Assignments to fields *)

Definition put_fd (fd allocation : Z) (d : DIR) : DIR :=
  Dir fd (__data d) allocation (__offset d) (__block_ptr d) (__block d) (__path d) (__entry d).
Definition put_data (i : inode) (d : DIR) : DIR :=
  Dir (__fd d) i (__allocation d) (__offset d) (__block_ptr d) (__block d) (__path d) (__entry d).
Definition put_offset (n : Z) (d : DIR) : DIR :=
  Dir (__fd d) (__data d) (__allocation d) n (__block_ptr d) (__block d) (__path d) (__entry d).
Definition put_block (ptr b : Z) (d : DIR) : DIR :=
  Dir (__fd d) (__data d) (__allocation d) (__offset d) ptr b (__path d) (__entry d).
Definition put_dir_path (p : list Z) (d : DIR) : DIR :=
  Dir (__fd d) (__data d) (__allocation d) (__offset d) (__block_ptr d) (__block d) p (__entry d).
Definition put_entry (e : dirent) (d : DIR) : DIR :=
  Dir (__fd d) (__data d) (__allocation d) (__offset d) (__block_ptr d) (__block d) (__path d) e.

(** [strncat(buf, src, n)] in a buffer of [MAX_PATH] bytes: a string shorter than [n]
    gets two NULs. *)
Definition append (src : list Z) (n : nat) (buf : list Z) : outcome (list Z) :=
  s ← cstr buf;
  let new := s ++ take n src ++ (if (length src <? n)%nat then [0; 0] else [0]) in
  if (length new <=? MAX_PATH)%nat then Ret (new ++ drop (length new) buf) else Fault.

Definition CHAR_D : Z := 68.
Definition CHAR_F : Z := 70.
Definition CHAR_S : Z := 83.
Definition CHAR_H : Z := 72.

Definition type_of (i : inode) : Z :=
  if is_hard i then CHAR_H else if is_link i then CHAR_S else if is_reg i then CHAR_F
  else if is_dir i then CHAR_D else 0.

(** The state of the file system, the current process and its directories. *)
Record dirs (S : Type) := Dirs { d_files : files S; dir_tab : list DIR }.
Arguments Dirs {S}.
Arguments d_files {S} _.
Arguments dir_tab {S} _.

Section Code.
Context {S : Type} `{FsOps S} `{DevOps S} (who : caller) (umask : Z) (depth fuel : nat).

Abbreviation D := (dirs S).

Definition on_files {A} (m : st (files S) A) : st D A := fun s =>
  match m (d_files s) with
  | Ret (a, f) => Ret (a, Dirs f (dir_tab s))
  | Panic => Panic | Fault => Fault | NoFuel => NoFuel
  end.

Definition dir_fails {A} (n : Z) (a : A) : st D A := on_files (fails n a).
Definition get_dir (j : nat) : st D DIR := s ← get; checked (dir_tab s !! j).
Definition set_dir (j : nat) (d : DIR) : st D unit :=
  modify (fun s => Dirs (d_files s) (<[j := d]> (dir_tab s))).
(** An assignment to a field of [dir_tab[j]]. *)
Definition update_dir (j : nat) (f : DIR -> DIR) : st D unit := d ← get_dir j; set_dir j (f d).
(** The index of [dir_tab[fd]]. *)
Definition dir_index (fd : Z) : st D nat := if fd <? 0 then fault else mret (Z.to_nat fd).

Fixpoint free_dir (l : list DIR) : option nat :=
  match l with
  | [] => None
  | d :: l => if __allocation d =? 0 then Some O else Datatypes.S <$> free_dir l
  end.

(** What [inode_get] stores goes into the entry even when it fails; the inode need
    not be one of a directory. *)
Definition kopendir (path : list Z) : st D (option nat) :=
  dev ← on_files (device (Some path));
  s ← get;
  match free_dir (dir_tab s) with
  | None => mret None
  | Some i =>
      _ ← update_dir i (put_fd (Z.of_nat i) DEV_BLOCK_SIZE);
      r ← on_files (on_tree (inode_get who depth fuel dev (cwd (d_files s)) path false INODE_RX));
      _ ← update_dir i (fun d => put_data (default (__data d) r.2) d);
      if negb (bool_decide (r.1 = INODE_OK)) then
        _ ← update_dir i (put_fd 0 0); mret None
      else
        _ ← update_dir i (fun d => put_data (put_accessed (c_now who) (__data d)) d);
        d ← get_dir i;
        p ← lift (ncopy_path path (__path d));
        _ ← set_dir i (put_dir_path p d);
        mret (Some i)
  end.

(** [master_get_dev(dir->__path)]: of a [NULL] pointer this is only an address. *)
Definition dir_device (dir : option nat) : st D Z :=
  p ← (match dir with Some j => d ← get_dir j; mret (__path d) | None => mret [] end);
  on_files (device (Some p)).

(** [!dir || dir->__fd < 0 || dir->__fd >= MAX_DIR]: the entry when it is valid. *)
Definition valid_dir (dir : option nat) : st D (option DIR) :=
  match dir with
  | None => mret None
  | Some j => d ← get_dir j; mret (if (__fd d <? 0) || (Z.of_nat MAX_DIR <=? __fd d) then None else Some d)
  end.

(** A failure to write the inode is only reported. *)
Definition kclosedir (dir : option nat) : st D Z :=
  dev ← dir_device dir;
  v ← valid_dir dir;
  match v with
  | None => dir_fails EINVAL (-1)
  | Some d =>
      let i := Z.to_nat (__fd d) in
      _ ← update_dir i (fun d => put_data (put_accessed (c_now who) (__data d)) d);
      e ← get_dir i;
      ok ← on_files (write_node dev (__data e));
      _ ← (if (ok : bool) then mret tt else dir_fails EACCES tt);
      _ ← set_dir i zero_dir;
      mret 0
  end.

Definition krewinddir (dir : option nat) : st D unit :=
  v ← valid_dir dir;
  match v, dir with
  | Some _, Some j => update_dir j (put_offset 0)
  | _, _ => dir_fails EINVAL tt
  end.

(** ** Reading a directory *)

(** The names of [.] and [..]. *)
Definition dot_entry (d : DIR) : outcome dirent :=
  path ← cstr (__path d);
  name ← append path MAX_PATH (d_name zero_entry);
  name ← append [slash] 1 name;
  name ← (if __offset d =? 0 then append [dot] 1 name else append [dot; dot] 2 name);
  Ret (Dirent 0 0 0 0 name).

Definition entry_for (d : DIR) (b offset : Z) (i : inode) : outcome dirent :=
  path ← cstr (__path d);
  name ← append path MAX_PATH (d_name zero_entry);
  name ← append [slash] 1 name;
  label ← cstr (i_path i);
  name ← append label MAX_PATH name;
  Ret (Dirent b (u32 offset) (uwrap 16 (i_size i)) (type_of i) name).

(** [errno = n; return NULL;] *)
Definition gives_up {A} (n : Z) : er D (option dirent) A := _ ← stmt (dir_fails n tt); leave None.

Definition read_map_at (dev b : Z) : st D (bool * block_map_t) :=
  on_files (on_tree (read_map_block dev b zero_map)).

(** The loop that looks for the block map of number [block]: [return NULL] at the end
    of the chain. *)
Fixpoint seek_map (n : nat) (dev : Z) (j : nat) (block : Z) : er D (option dirent) unit :=
  match n with
  | O => stmt (fun _ => NoFuel)
  | Datatypes.S n =>
      d ← stmt (get_dir j);
      if __block_ptr d <? u32 block then
        if __block d =? INODE_NULL then leave None
        else
          r ← stmt (read_map_at dev (__block d));
          if negb r.1 then gives_up EACCES
          else
            _ ← stmt (set_dir j (put_block (u32 (__block_ptr d + 1)) (b_next r.2) d));
            seek_map n dev j block
      else mret tt
  end.

(** From [RETRY] on. *)
Fixpoint retry (n : nat) (dev : Z) (j : nat) : er D (option dirent) (option dirent) :=
  match n with
  | O => stmt (fun _ => NoFuel)
  | Datatypes.S n =>
      d ← stmt (get_dir j);
      let block := i32 (u32 (__offset d - 2) / MAP_BLOCKS) in
      let offset := u32 (__offset d - 2) mod MAP_BLOCKS in
      if (__block_ptr d =? u32 block) && negb (__block d =? INODE_NULL) then
        r ← stmt (read_map_at dev (__block d));
        if negb r.1 then gives_up EACCES
        else
          b ← stmt (lift (peek (b_blocks r.2) offset));
          if b =? INODE_NULL then
            _ ← stmt (set_dir j (put_offset (u32 (__offset d + 1)) d));
            retry n dev j
          else
            q ← stmt (on_files (on_tree (read_inode dev b zero_inode)));
            if negb q.1 then gives_up ENOENT
            else
              e ← stmt (lift (entry_for d b offset q.2));
              _ ← stmt (set_dir j (put_offset (u32 (__offset d + 1)) (put_entry e d)));
              mret (Some e)
      else
        _ ← stmt (set_dir j (put_block 0 (i_next (__data d)) d));
        _ ← seek_map fuel dev j block;
        d ← stmt (get_dir j);
        if (__block_ptr d =? u32 block) && (__block d =? INODE_NULL) then leave None
        else retry n dev j
  end.

(** [steps] bounds the jumps to [RETRY]. *)
Definition kreaddir (steps : nat) (dir : option nat) : st D (option dirent) := returned (
  dev ← stmt (dir_device dir);
  j ← stmt (match dir with Some j => mret j | None => fault end);
  d ← stmt (get_dir j);
  i ← stmt (dir_index (__fd d));
  _ ← stmt (update_dir i (fun d => put_data (put_accessed (c_now who) (__data d)) d));
  d ← stmt (get_dir j);
  if (__offset d =? 0) || (__offset d =? 1) then
    e ← stmt (lift (dot_entry d));
    _ ← stmt (set_dir j (put_offset (u32 (__offset d + 1)) (put_entry e d)));
    mret (Some e)
  else retry steps dev j).

(** ** Making and removing *)

Definition krmdir (path : list Z) : st D Z :=
  dev ← on_files (device (Some path));
  s ← get;
  r ← on_files (on_tree (inode_free who depth fuel dev (cwd (d_files s)) path None));
  mret (if bool_decide (r.1 = INODE_OK) then 0 else -1).

Definition kmkdir (path : list Z) (mode : Z) : st D Z :=
  dev ← on_files (device (Some path));
  ok ← on_files (create_path who umask depth fuel dev path INODE_CREATE_DIR mode None);
  mret (if ok : bool then 0 else -1).
End Code.
