(* ===== verification/DirSpec.v ===== *)
(** * What reading a directory gives

    The calls on an open directory in terms of its block maps: [.], [..], then the
    entries that are not 0 in order, and [NULL] from there on. *)

From stdpp Require Import gmap.
From S2P Require Import Prelude Errno Device Layout Perms Alloc Store StoreSpec Paths PathsSpec Tree TreeSpec.
From S2P Require Import CreateSpec FileIO FileSpec File FdSpec Dir.

(** ** Strings in buffers *)

Lemma cstr_nonzero b s : cstr b = Ret s -> Forall (fun c => c <> 0) s.
Proof.
  revert s. induction b as [|c b IH]; intros s; cbn [cstr]; [done|].
  destruct (Z.eqb_spec c 0) as [->|Hc]; [by intros [= <-]|].
  destruct (cstr b) as [s'| | |]; cbn; try done. intros [= <-]. constructor; [done|]. by apply IH.
Qed.

Lemma cstr_end s rest : Forall (fun c => c <> 0) s -> cstr (s ++ 0 :: rest) = Ret s.
Proof. induction 1 as [|c s Hc _ IH]; [done|]. cbn [cstr app]. by rewrite (proj2 (Z.eqb_neq _ _) Hc), IH. Qed.

Lemma append_ok src n buf s : cstr buf = Ret s -> Forall (fun c => c <> 0) src ->
  (length s + length src + 2 <= MAX_PATH)%nat ->
  exists buf', append src n buf = Ret buf' /\ cstr buf' = Ret (s ++ take n src).
Proof.
  intros Hs Hsrc Hl. pose proof (cstr_nonzero _ _ Hs) as Hsn. unfold append. rewrite Hs. cbn [mbind outcome_bind].
  rewrite (proj2 (Nat.leb_le _ _)).
  - eexists. split; [reflexivity|]. rewrite <- !app_assoc, app_assoc.
    assert (Forall (fun c => c <> 0) (s ++ take n src)) as Hn by (apply Forall_app; split; [done|by apply Forall_take]).
    destruct (_ <? _)%nat; cbn [app]; by apply cstr_end.
  - rewrite !length_app, length_take. destruct (_ <? _)%nat; cbn [length]; lia.
Qed.

(** What an entry of the directory of path [path] shows of the inode [i] in block [b]. *)
Definition shows (path : list Z) (b : Z) (i : inode) (e : dirent) : Prop :=
  d_ino e = b /\ d_type e = type_of i /\ d_reclen e = uwrap 16 (i_size i) /\
  exists label, cstr (i_path i) = Ret label /\ cstr (d_name e) = Ret (path ++ slash :: label).

(** The name fits behind the path. *)
Definition fits (path : list Z) (i : inode) : Prop :=
  exists label, cstr (i_path i) = Ret label /\ (length path + length label + 3 <= MAX_PATH)%nat.

Lemma entry_for_ok d path b offset i : cstr (__path d) = Ret path -> fits path i ->
  exists e, entry_for d b offset i = Ret e /\ shows path b i e.
Proof.
  intros Hp (label & Hl & Hlen). pose proof (cstr_nonzero _ _ Hp) as Hpn. pose proof (cstr_nonzero _ _ Hl) as Hln.
  unfold entry_for. rewrite Hp. cbn [mbind outcome_bind].
  destruct (append_ok path MAX_PATH (d_name zero_entry) [] eq_refl Hpn) as (n1 & -> & H1); [cbn [length]; lia|].
  cbn [mbind outcome_bind].
  destruct (append_ok [slash] 1 n1 _ H1) as (n2 & -> & H2); [by repeat constructor|rewrite length_app, length_take; cbn [length]; lia|].
  cbn [mbind outcome_bind]. rewrite Hl. cbn [mbind outcome_bind].
  destruct (append_ok label MAX_PATH n2 _ H2) as (n3 & -> & H3); [done|rewrite !length_app, length_take; cbn [length take]; lia|].
  cbn [mbind outcome_bind]. eexists. split; [reflexivity|]. split; [done|]. split; [done|]. split; [done|].
  exists label. split; [done|]. cbn [d_name]. rewrite H3. rewrite !take_ge by (cbn [length]; lia).
  by rewrite <- app_assoc.
Qed.

(** The virtual entries: [.] and [..]. *)
Definition shows_dot (path : list Z) (n : Z) (e : dirent) : Prop :=
  d_ino e = 0 /\ d_type e = 0 /\
  cstr (d_name e) = Ret (path ++ slash :: (if n =? 0 then [dot] else [dot; dot])).

Lemma dot_entry_ok d path : cstr (__path d) = Ret path -> (length path + 5 <= MAX_PATH)%nat ->
  exists e, dot_entry d = Ret e /\ shows_dot path (__offset d) e.
Proof.
  intros Hp Hlen. pose proof (cstr_nonzero _ _ Hp) as Hpn.
  unfold dot_entry. rewrite Hp. cbn [mbind outcome_bind].
  destruct (append_ok path MAX_PATH (d_name zero_entry) [] eq_refl Hpn) as (n1 & -> & H1); [cbn [length]; lia|].
  cbn [mbind outcome_bind].
  destruct (append_ok [slash] 1 n1 _ H1) as (n2 & -> & H2); [by repeat constructor|rewrite length_app, length_take; cbn [length]; lia|].
  cbn [mbind outcome_bind].
  destruct (Z.eqb_spec (__offset d) 0) as [Ho|Ho].
  - destruct (append_ok [dot] 1 n2 _ H2) as (n3 & -> & H3); [by repeat constructor|rewrite !length_app, length_take; cbn [length take]; lia|].
    eexists. split; [reflexivity|]. split; [done|]. split; [done|]. cbn [d_name]. rewrite H3, Ho.
    rewrite !take_ge by (cbn [length]; lia). by rewrite <- app_assoc.
  - destruct (append_ok [dot; dot] 2 n2 _ H2) as (n3 & -> & H3); [by repeat constructor|rewrite !length_app, length_take; cbn [length take]; lia|].
    eexists. split; [reflexivity|]. split; [done|]. split; [done|]. cbn [d_name]. rewrite H3, (proj2 (Z.eqb_neq _ _) Ho).
    rewrite !take_ge by (cbn [length]; lia). by rewrite <- app_assoc.
Qed.

(** ** Block maps *)

Lemma dec_array_length {A} (c : codec A) n l : length (dec_array c n l) = n.
Proof. revert l. induction n as [|n IH]; intros l; cbn; [done|]. by rewrite IH. Qed.

Lemma map_at_length v b : length (b_blocks (map_at v b)) = BMAP_BLOCKS.
Proof. apply (dec_array_length (uint 4) BMAP_BLOCKS). Qed.

(** The block maps from block [b] on. *)
Inductive maps_from (valid : kind -> Z -> Prop) (v : Z -> list Z) : Z -> list Z -> Prop :=
| maps_end : maps_from valid v INODE_NULL []
| maps_more b bs : valid Data b -> maps_from valid v (b_next (map_at v b)) bs -> maps_from valid v b (b :: bs).

Lemma listing_maps_from valid v bs b l : listing v valid bs b l ->
  maps_from valid v b bs /\ l = filter (fun x => x <> INODE_NULL) (numbers v bs) /\ Forall (valid Inodes) l.
Proof.
  induction 1 as [b Hb Hl Hn|bs b l Hb Hl Hn _ (IH1 & IH2 & IH3)].
  - split; [apply maps_more; [done|rewrite Hn; constructor]|]. split; [|done].
    unfold numbers. cbn [map concat]. by rewrite app_nil_r.
  - split; [by apply maps_more|]. split; [|by apply Forall_app].
    unfold numbers. cbn [map concat]. rewrite filter_app. f_equal. exact IH2.
Qed.

Lemma maps_head valid v b bs : maps_from valid v b bs -> default INODE_NULL (bs !! 0%nat) = b.
Proof. by intros []. Qed.

Lemma maps_at valid v first bs k b : maps_from valid v first bs -> bs !! k = Some b ->
  valid Data b /\ b_next (map_at v b) = default INODE_NULL (bs !! S k).
Proof.
  intros Hm. revert k. induction Hm as [|c bs Hc Hm IH]; intros k Hk; [done|].
  destruct k as [|k]; [|by apply IH]. injection Hk as <-. split; [done|]. symmetry. by eapply maps_head.
Qed.

Lemma slot_at v bs k j b : bs !! k = Some b -> (j < BMAP_BLOCKS)%nat ->
  numbers v bs !! (BMAP_BLOCKS * k + j)%nat = b_blocks (map_at v b) !! j.
Proof.
  intros Hk Hj. unfold numbers.
  apply (concat_lookup BMAP_BLOCKS (map (fun b => b_blocks (map_at v b)) bs)); [|by rewrite list_lookup_fmap, Hk|done].
  apply Forall_forall. intros l (c & -> & _)%list_elem_of_fmap. apply map_at_length.
Qed.

Lemma numbers_length v bs : length (numbers v bs) = (BMAP_BLOCKS * length bs)%nat.
Proof.
  unfold numbers. rewrite (concat_length BMAP_BLOCKS); [by rewrite length_map|].
  apply Forall_forall. intros l (c & -> & _)%list_elem_of_fmap. apply map_at_length.
Qed.

(** The device of every path, with one device mounted. *)
Class DevLaws (S : Type) `{HL : StoreLaws S dev root} `{DevOps S} : Prop :=
  get_dev_ok p k w s : good dev root k w s -> get_dev p s = Ret (dev, s).

(** What is left to read of a directory. *)
Inductive item := Dot | DotDot | Entry (b : Z).

(** ** Runs *)

Section Runs.
Context {S : Type} `{HF : FsOps S} `{HD : DevOps S} {dev root : Z} {HL : StoreLaws S dev root}.
Context (who : caller) (fuel : nat).

Abbreviation blocks t := (view dev root (base t)).
Abbreviation valid := (area S dev root).
Abbreviation good k w t := (StoreSpec.good dev root k w (base t)).

(** The states while entry [j] is read: the tree and the entry change. *)
Section Entry.
Context (s0 : dirs S) (j : nat).
Hypothesis Hj : (j < length (dir_tab s0))%nat.

Definition at_entry (t : tree S) (d : DIR) : dirs S :=
  Dirs (Files t (file_tab (d_files s0)) (file_desc (d_files s0)) (cwd (d_files s0))) (<[j := d]> (dir_tab s0)).

Lemma run_get_dir t d : get_dir j (at_entry t d) = Ret (d, at_entry t d).
Proof.
  unfold get_dir. rewrite (st_step _ _ (at_entry t d) (at_entry t d) (at_entry t d)) by done.
  unfold checked. cbn [dir_tab at_entry]. by rewrite list_lookup_insert_eq.
Qed.

Lemma run_set_dir t d d' : set_dir j d' (at_entry t d) = Ret (tt, at_entry t d').
Proof.
  unfold set_dir, modify, at_entry. cbn [d_files dir_tab]. by rewrite list_insert_insert_eq.
Qed.

Lemma run_update_dir t d f : update_dir j f (at_entry t d) = Ret (tt, at_entry t (f d)).
Proof. unfold update_dir. rewrite (st_step _ _ _ _ _ (run_get_dir t d)). apply run_set_dir. Qed.

Lemma run_on_tree {A} (m : st (tree S) A) t t' d a : m t = Ret (a, t') ->
  on_files (on_tree m) (at_entry t d) = Ret (a, at_entry t' d).
Proof. intros Hm. unfold on_files, on_tree. cbn [d_files f_tree at_entry]. by rewrite Hm. Qed.

Lemma run_map_at o t d k w b : kept (HL := HL) o t -> good (1 + k) (1 + w) t -> valid Data b ->
  exists t', read_map_at dev b (at_entry t d) = Ret ((true, map_at (blocks o) b), at_entry t' d) /\
    good k (1 + w) t' /\ kept (HL := HL) o t'.
Proof.
  intros Ho Hg Hb. destruct (run_read_as block_map_t_codec o t k w Data b zero_map Ho Hg Hb) as (t' & E & Hr).
  exists t'. split; [|done]. by apply run_on_tree.
Qed.

(** ** Looking for a block map *)

(** The entry is at block map [k] of the chain [bs]. *)
Definition at_map_no (d : DIR) (bs : list Z) (k : nat) : Prop :=
  __block_ptr d = Z.of_nat k /\ __block d = default INODE_NULL (bs !! k).

Lemma run_seek_map o first bs K : maps_from valid (blocks o) first bs -> (K <= length bs)%nat -> Z.of_nat K < 2147483648 ->
  forall m k t d r w n, kept (HL := HL) o t -> at_map_no d bs k -> (K = k + m)%nat -> (m < n)%nat ->
  good (m + r) (1 + w) t ->
  exists t' d', seek_map n dev j (Z.of_nat K) (at_entry t d) = Ret (inr tt, at_entry t' d') /\
    d' = put_block (Z.of_nat K) (default INODE_NULL (bs !! K)) d /\ good r (1 + w) t' /\ kept (HL := HL) o t'.
Proof.
  intros Hm HK HKs. assert (u32 (Z.of_nat K) = Z.of_nat K) as EK by (apply u32_small; lia).
  induction m as [|m IH]; intros k t d r w n Ho [Hp Hb] Hk Hn Hg; (destruct n as [|n]; [lia|]); cbn [seek_map].
  - erewrite er_step by (apply stmt_run, run_get_dir). rewrite EK, Hp, (proj2 (Z.ltb_ge _ _)) by lia.
    exists t, d. split; [done|]. split; [|done]. assert (k = K) as -> by lia. destruct d. cbn in *. by rewrite Hp, Hb.
  - erewrite er_step by (apply stmt_run, run_get_dir). rewrite EK, Hp, (proj2 (Z.ltb_lt _ _)) by lia.
    destruct (lookup_lt_is_Some_2 bs k ltac:(lia)) as [b Hbk]. rewrite Hbk in Hb. cbn [default] in Hb.
    destruct (maps_at _ _ _ _ _ _ Hm Hbk) as [Hv Hnext].
    rewrite Hb, (proj2 (Z.eqb_neq b _)) by (apply (area_bounds (S := S) (dev := dev) (root := root) Data b Hv)).
    destruct (run_map_at o t d (m + r) w b Ho Hg Hv) as (t1 & E1 & Hg1 & Ho1).
    erewrite er_step by (apply stmt_run; exact E1). cbn [fst snd negb].
    erewrite er_step by (apply stmt_run, run_set_dir).
    assert (u32 (Z.of_nat k + 1) = Z.of_nat (Datatypes.S k)) as -> by (rewrite u32_small; lia).
    rewrite Hnext.
    destruct (IH (Datatypes.S k) t1 (put_block (Z.of_nat (Datatypes.S k)) (default INODE_NULL (bs !! Datatypes.S k)) d) r w n)
      as (t2 & d2 & E2 & -> & Hr); [done|by split|lia|lia|done|].
    exists t2, (put_block (Z.of_nat K) (default INODE_NULL (bs !! K)) d). split; [exact E2|]. by split.
Qed.

(** ** Looking for an entry *)

Context (o : tree S) (first : Z) (bs : list Z) (path : list Z) (i0 : inode).
Hypothesis Hmaps : maps_from valid (blocks o) first bs.

Abbreviation slots := (numbers (blocks o) bs).
Abbreviation shown_in l := (filter (fun b => b <> INODE_NULL) l).

Hypothesis Hsmall : Z.of_nat (length slots) < 2147483000.
Hypothesis Hfuel : (length bs < fuel)%nat.
Hypothesis Hfits : Forall (fun b => valid Inodes b /\ fits path (node (blocks o) b)) (shown_in slots).

(** The entry is open for this directory and [p] places have been read; the block map
    it remembers is one of the chain. *)
Record placed_at (d : DIR) (p : nat) : Prop := PlacedAt {
  p_fd : __fd d = Z.of_nat j;
  p_path : cstr (__path d) = Ret path;
  p_first : i_next (__data d) = first;
  p_data : put_accessed (c_now who) (__data d) = i0;
  p_offset : __offset d = 2 + Z.of_nat p;
  p_bound : (p <= length slots)%nat;
  p_block : __block d <> INODE_NULL -> exists k, __block_ptr d = Z.of_nat k /\ bs !! k = Some (__block d)
}.

Lemma place_numbers p : (p <= length slots)%nat ->
  u32 (2 + Z.of_nat p - 2) = Z.of_nat p /\ i32 (Z.of_nat p / MAP_BLOCKS) = Z.of_nat (p / 127) /\
  Z.of_nat p mod MAP_BLOCKS = Z.of_nat (p mod 127) /\ u32 (Z.of_nat (p / 127)) = Z.of_nat (p / 127) /\
  (p / 127 <= length bs)%nat /\ u32 (2 + Z.of_nat p + 1) = 2 + Z.of_nat (1 + p) /\ Z.of_nat (p / 127) < 2147483648.
Proof.
  intros Hp. pose proof (numbers_length (blocks o) bs) as HL'. unfold BMAP_BLOCKS in HL'.
  assert (p / 127 <= length bs)%nat as Hk by (apply Nat.Div0.div_le_upper_bound; lia).
  replace (2 + Z.of_nat p - 2) with (Z.of_nat p) by lia. unfold MAP_BLOCKS.
  pose proof (Nat2Z.inj_div p 127) as E1. pose proof (Nat2Z.inj_mod p 127) as E2. change (Z.of_nat 127) with 127 in E1, E2.
  rewrite <- E1, <- E2. split; [apply u32_small; lia|]. split; [apply i32_small; lia|]. split; [done|].
  split; [apply u32_small; lia|]. split; [done|]. split; [rewrite u32_small by lia; lia|lia].
Qed.

Lemma retry_seek n p t d k w : placed_at d p -> kept (HL := HL) o t -> good (length bs + k) (1 + w) t ->
  (__block_ptr d =? Z.of_nat (p / 127)) && negb (__block d =? INODE_NULL) = false ->
  exists t' d', retry fuel (1 + n) dev j (at_entry t d) =
      (if (p / 127 =? length bs)%nat then Ret (inl None, at_entry t' d') else retry fuel n dev j (at_entry t' d')) /\
    placed_at d' p /\ good k (1 + w) t' /\ kept (HL := HL) o t' /\
    ((p / 127 < length bs)%nat -> (__block_ptr d' =? Z.of_nat (p / 127)) && negb (__block d' =? INODE_NULL) = true).
Proof.
  intros [P1 P2 P3 P0 P4 P5 P6] Ho Hg Hne. destruct (place_numbers p P5) as (N1 & N2 & N3 & N4 & N5 & N6 & N7).
  set (d1 := put_block 0 (i_next (__data d)) d).
  destruct (run_seek_map o first bs (p / 127) Hmaps N5 N7 (p / 127) 0 t d1 k w fuel Ho) as (t' & d' & E & -> & Hg' & Ho');
    [split; [done|]; cbn [d1 __block put_block]; rewrite P3; symmetry; by eapply maps_head|lia|lia|eapply good_weaken; [| |exact Hg]; lia|].
  set (d' := put_block (Z.of_nat (p / 127)) (default INODE_NULL (bs !! (p / 127)%nat)) d1) in *.
  exists t', d'. split; [|split; [|split; [done|split; [done|]]]].
  - cbn [retry Nat.add]. erewrite er_step by (apply stmt_run, run_get_dir). rewrite P4, N1, N2, N4, Hne.
    erewrite er_step by (apply stmt_run, run_set_dir). fold d1.
    rewrite (er_step _ _ _ _ _ E). erewrite er_step by (apply stmt_run, run_get_dir).
    cbn [d' __block_ptr __block put_block]. rewrite Z.eqb_refl. cbn [andb].
    destruct (Nat.eqb_spec (p / 127) (length bs)) as [Heq|Hneq].
    + rewrite Heq, lookup_ge_None_2 by done. done.
    + destruct (lookup_lt_is_Some_2 bs (p / 127) ltac:(lia)) as [b Hb]. rewrite Hb. cbn [default].
      destruct (maps_at _ _ _ _ _ _ Hmaps Hb) as [Hv _].
      by rewrite (proj2 (Z.eqb_neq b _)) by (apply (area_bounds (S := S) (dev := dev) (root := root) Data b Hv)).
  - split; try done. cbn [d' __block_ptr __block put_block]. intros Hnz. exists (p / 127)%nat. split; [done|].
    by destruct (bs !! (p / 127)%nat).
  - intros Hlt. destruct (lookup_lt_is_Some_2 bs (p / 127) Hlt) as [b Hb]. cbn [d' __block_ptr __block put_block].
    rewrite Z.eqb_refl, Hb. cbn [default andb]. destruct (maps_at _ _ _ _ _ _ Hmaps Hb) as [Hv _].
    by rewrite (proj2 (Z.eqb_neq b _)) by (apply (area_bounds (S := S) (dev := dev) (root := root) Data b Hv)).
Qed.

Lemma placed_next d p e : placed_at d p -> (p < length slots)%nat ->
  placed_at (put_offset (2 + Z.of_nat (1 + p)) d) (1 + p) /\
  placed_at (put_offset (2 + Z.of_nat (1 + p)) (put_entry e d)) (1 + p).
Proof. intros [P1 P2 P3 P0 P4 P5 P6] Hp. by split; split. Qed.

Lemma retry_read n p t d b k w : placed_at d p -> kept (HL := HL) o t -> good (2 + k) (1 + w) t ->
  (__block_ptr d =? Z.of_nat (p / 127)) && negb (__block d =? INODE_NULL) = true -> slots !! p = Some b ->
  exists t' d', placed_at d' (1 + p) /\ good k (1 + w) t' /\ kept (HL := HL) o t' /\
    if b =? INODE_NULL then retry fuel (1 + n) dev j (at_entry t d) = retry fuel n dev j (at_entry t' d')
    else exists e, retry fuel (1 + n) dev j (at_entry t d) = Ret (inr (Some e), at_entry t' d') /\
      shows path b (node (blocks o) b) e.
Proof.
  intros Hpl Ho Hg Hm Hb. pose proof Hpl as [P1 P2 P3 P0 P4 P5 P6].
  destruct (place_numbers p P5) as (N1 & N2 & N3 & N4 & N5 & N6 & N7). pose proof (lookup_lt_Some _ _ _ Hb) as Hp.
  pose proof Hm as [Hm1 Hm2]%andb_true_iff. apply Z.eqb_eq in Hm1. apply negb_true_iff, Z.eqb_neq in Hm2.
  destruct (P6 Hm2) as (k' & Hk1 & Hk2). assert (k' = p / 127)%nat as -> by lia.
  destruct (maps_at _ _ _ _ _ _ Hmaps Hk2) as [Hv _].
  assert (b_blocks (map_at (blocks o) (__block d)) !! (p mod 127)%nat = Some b) as Hslot.
  { rewrite <- (slot_at (blocks o) bs (p / 127) (p mod 127)) by (done || apply (Nat.mod_upper_bound p 127); lia).
    rewrite <- Hb. f_equal. symmetry. apply (Nat.div_mod_eq p 127). }
  destruct (run_map_at o t d (1 + k) w _ Ho Hg Hv) as (t1 & E1 & Hg1 & Ho1).
  destruct (placed_next d p zero_entry Hpl Hp) as [Hd1 _].
  assert (forall a, retry fuel (1 + n) dev j (at_entry t d) = a <->
    (if b =? INODE_NULL then retry fuel n dev j (at_entry t1 (put_offset (2 + Z.of_nat (1 + p)) d))
     else (q ← stmt (on_files (on_tree (read_inode dev b zero_inode)));
            if negb q.1 then gives_up ENOENT
            else
              e ← stmt (lift (entry_for d b (Z.of_nat (p mod 127)) q.2));
              _ ← stmt (set_dir j (put_offset (2 + Z.of_nat (1 + p)) (put_entry e d)));
              mret (Some e) : er (dirs S) (option dirent) (option dirent)) (at_entry t1 d)) = a) as Estep.
  { intros a. cbn [retry Nat.add]. erewrite er_step by (apply stmt_run, run_get_dir).
    rewrite P4, N1, N2, N4, N3, Hm, N6. erewrite er_step by (apply stmt_run; exact E1). cbn [fst snd negb].
    rewrite (peek_nat _ _ _ Hslot). erewrite er_step by reflexivity.
    destruct (b =? INODE_NULL); [|done]. by erewrite er_step by (apply stmt_run, run_set_dir). }
  destruct (Z.eqb_spec b INODE_NULL) as [->|Hb0].
  - exists t1, (put_offset (2 + Z.of_nat (1 + p)) d). split; [done|]. split; [eapply good_weaken; [| |exact Hg1]; lia|].
    split; [done|]. by apply Estep.
  - assert (b ∈ shown_in slots) as Hin by (apply list_elem_of_filter; split; [done|by eapply list_elem_of_lookup_2]).
    rewrite Forall_forall in Hfits. destruct (Hfits b Hin) as [Hvb Hfb].
    destruct (entry_for_ok d path b (Z.of_nat (p mod 127)) _ P2 Hfb) as (e & Ee & He).
    destruct (run_read_as inode_codec o t1 k w Inodes b zero_inode Ho1 Hg1 Hvb) as (t2 & E2 & Hg2 & Ho2).
    destruct (placed_next d p e Hpl Hp) as [_ Hd2].
    exists t2, (put_offset (2 + Z.of_nat (1 + p)) (put_entry e d)). split; [done|]. split; [done|]. split; [done|].
    exists e. split; [|done]. apply Estep.
    erewrite er_step by (apply stmt_run, run_on_tree; exact E2). cbn [fst snd negb].
    unfold node in Ee. rewrite Ee. erewrite er_step by reflexivity.
    by erewrite er_step by (apply stmt_run, run_set_dir).
Qed.

(** The reads up to the end of the directory. *)
Definition dir_reads (p : nat) : nat := ((length slots - p + 1) * (length bs + 2))%nat.

(** In front of the end the block map is looked for first, when it has to. *)
Lemma retry_matched n p t d k w : placed_at d p -> (p < length slots)%nat -> kept (HL := HL) o t ->
  good (length bs + k) (1 + w) t ->
  exists n' t' d', retry fuel (1 + n) dev j (at_entry t d) = retry fuel n' dev j (at_entry t' d') /\ (n <= n')%nat /\
    placed_at d' p /\ good k (1 + w) t' /\ kept (HL := HL) o t' /\
    (__block_ptr d' =? Z.of_nat (p / 127)) && negb (__block d' =? INODE_NULL) = true.
Proof.
  intros Hpl Hp Ho Hg. destruct ((__block_ptr d =? Z.of_nat (p / 127)) && negb (__block d =? INODE_NULL)) eqn:Em.
  - exists (1 + n)%nat, t, d. split; [done|]. split; [lia|]. split; [done|]. split; [eapply good_weaken; [| |exact Hg]; lia|done].
  - pose proof (numbers_length (blocks o) bs) as HL'. unfold BMAP_BLOCKS in HL'.
    assert (p / 127 < length bs)%nat as Hlt by (pose proof (Nat.div_mod_eq p 127); pose proof (Nat.mod_upper_bound p 127 ltac:(lia)); lia).
    destruct (retry_seek n p t d k w Hpl Ho Hg Em) as (t' & d' & E & Hpl' & Hg' & Ho' & Hm').
    rewrite (proj2 (Nat.eqb_neq _ _)) in E by lia. exists n, t', d'. do 5 (split; [done|]). by apply Hm'.
Qed.

Lemma shown_drop p b : slots !! p = Some b ->
  shown_in (drop p slots) = (if b =? INODE_NULL then [] else [b]) ++ shown_in (drop (1 + p) slots).
Proof.
  intros Hb. rewrite (drop_S _ _ _ Hb), filter_cons. cbn [Nat.add].
  destruct (Z.eqb_spec b INODE_NULL); by case_decide.
Qed.

(** From a place on: the next entry, or the end. *)
Lemma run_retry m : forall p n t d k w, placed_at d p -> (length slots - p = m)%nat -> (2 * m + 1 <= n)%nat ->
  kept (HL := HL) o t -> good (dir_reads p + k) (1 + w) t ->
  exists t' d' p', placed_at d' p' /\ (p <= p')%nat /\ kept (HL := HL) o t' /\
    match shown_in (drop p slots) with
    | [] => retry fuel n dev j (at_entry t d) = Ret (inl None, at_entry t' d') /\ good k (1 + w) t' /\
        shown_in (drop p' slots) = []
    | b :: l => exists e, retry fuel n dev j (at_entry t d) = Ret (inr (Some e), at_entry t' d') /\
        good (dir_reads p' + k) (1 + w) t' /\ shows path b (node (blocks o) b) e /\ shown_in (drop p' slots) = l
    end.
Proof.
  induction m as [|m IH]; intros p n t d k w Hpl Hm Hn Ho Hg; pose proof (p_bound _ _ Hpl) as Hp; unfold dir_reads in Hg;
    (destruct n as [|n]; [lia|]).
  - assert (p = length slots) as -> by lia. rewrite drop_all. cbn [filter list_filter].
    assert (length slots / 127 = length bs)%nat as Ek.
    { rewrite numbers_length. unfold BMAP_BLOCKS. rewrite Nat.mul_comm. by apply Nat.div_mul. }
    assert ((__block_ptr d =? Z.of_nat (length slots / 127)) && negb (__block d =? INODE_NULL) = false) as Hne.
    { apply not_true_is_false. intros [H1%Z.eqb_eq H2%negb_true_iff]%andb_true_iff. apply Z.eqb_neq in H2.
      destruct (p_block _ _ Hpl H2) as (k' & Hk & Hb%lookup_lt_Some). lia. }
    destruct (retry_seek n (length slots) t d k w Hpl Ho) as (t' & d' & E & Hpl' & Hg' & Ho' & _);
      [eapply good_weaken; [| |exact Hg]; lia|done|].
    rewrite Ek, Nat.eqb_refl in E. exists t', d', (length slots). rewrite drop_all. by repeat (split; [done|]).
  - destruct (lookup_lt_is_Some_2 slots p ltac:(lia)) as [b Hb].
    destruct (retry_matched n p t d (2 + (dir_reads (1 + p) + k)) w Hpl ltac:(lia) Ho) as (n1 & t1 & d1 & E1 & Hn1 & Hpl1 & Hg1 & Ho1 & Hm1);
      [eapply good_weaken; [| |exact Hg]; unfold dir_reads; nia|].
    cbn [Nat.add] in E1. rewrite E1, (shown_drop p b Hb). destruct n1 as [|n1]; [lia|].
    destruct (retry_read n1 p t1 d1 b (dir_reads (1 + p) + k) w Hpl1 Ho1 Hg1 Hm1 Hb) as (t2 & d2 & Hpl2 & Hg2 & Ho2 & Hr).
    cbn [Nat.add] in Hr. destruct (b =? INODE_NULL); cbn [app].
    + rewrite Hr. destruct (IH (1 + p)%nat n1 t2 d2 k w Hpl2 ltac:(lia) ltac:(lia) Ho2 Hg2) as (t3 & d3 & p3 & H1 & H2 & H3 & H4).
      exists t3, d3, p3. split; [done|]. split; [lia|]. by split.
    + destruct Hr as (e & E & He). exists t2, d2, (1 + p)%nat. split; [done|]. split; [lia|]. split; [done|].
      exists e. by repeat (split; [done|]).
Qed.

(** ** The calls *)

Context {HDL : DevLaws S}.

Inductive stream (d : DIR) : list item -> Prop :=
| stream_dot : __offset d = 0 -> placed_at (put_offset 2 d) 0 ->
    stream d (Dot :: DotDot :: map Entry (shown_in slots))
| stream_dots : __offset d = 1 -> placed_at (put_offset 2 d) 0 -> stream d (DotDot :: map Entry (shown_in slots))
| stream_entries p : placed_at d p -> stream d (map Entry (shown_in (drop p slots))).

Definition item_shows (i : item) (e : dirent) : Prop :=
  match i with
  | Dot => shows_dot path 0 e
  | DotDot => shows_dot path 1 e
  | Entry b => shows path b (node (blocks o) b) e
  end.

(** The reads that are left. *)
Definition stream_reads (d : DIR) : nat := dir_reads (Z.to_nat (__offset d - 2)).

Lemma run_dir_device t d k w : good k w t -> dir_device (Some j) (at_entry t d) = Ret (dev, at_entry t d).
Proof.
  intros Hg. unfold dir_device.
  rewrite (st_step _ _ (at_entry t d) (at_entry t d) (__path d)) by (by rewrite (st_step _ _ _ _ _ (run_get_dir t d))).
  unfold on_files, device, on_tree, below. cbn [d_files f_tree at_entry]. rewrite (get_dev_ok _ _ _ _ Hg).
  by destruct t.
Qed.

(** The part in front of [RETRY]. *)
Lemma kreaddir_start n t d k w : __fd d = Z.of_nat j -> good k w t ->
  let d1 := put_data (put_accessed (c_now who) (__data d)) d in
  kreaddir who fuel n (Some j) (at_entry t d) = returned (
    if (__offset d =? 0) || (__offset d =? 1) then
      e ← stmt (lift (dot_entry d1));
      _ ← stmt (set_dir j (put_offset (u32 (__offset d + 1)) (put_entry e d1)));
      mret (Some e)
    else retry fuel n dev j : er (dirs S) (option dirent) (option dirent)) (at_entry t d1).
Proof.
  intros Hfd Hg d1. unfold kreaddir.
  assert (forall (m m' : er (dirs S) (option dirent) (option dirent)) s s', m s = m' s' ->
    returned m s = returned m' s') as Hr by (intros m m' s s' E; unfold returned, mbind, st_bind; by rewrite E).
  apply (Hr _ _ (at_entry t d) (at_entry t d1)).
  erewrite er_step by (apply stmt_run; eapply run_dir_device; exact Hg). erewrite er_step by reflexivity.
  erewrite er_step by (apply stmt_run, run_get_dir). rewrite Hfd.
  assert (dir_index (Z.of_nat j) (at_entry t d) = Ret (j, at_entry t d)) as Ei.
  { unfold dir_index. by rewrite (proj2 (Z.ltb_ge _ _)), Nat2Z.id by lia. }
  erewrite er_step by (apply stmt_run; exact Ei).
  erewrite er_step by (apply stmt_run, run_update_dir). fold d1.
  by erewrite er_step by (apply stmt_run, run_get_dir).
Qed.

Hypothesis Hlen : (length path + 5 <= MAX_PATH)%nat.

Lemma placed_data d p : placed_at d p -> placed_at (put_data (put_accessed (c_now who) (__data d)) d) p.
Proof. intros [P1 P2 P3 P0 P4 P5 P6]. by split. Qed.

(** One of the two virtual entries. *)
Lemma kreaddir_dots n t d k w : placed_at (put_offset 2 d) 0 -> __offset d = 0 \/ __offset d = 1 ->
  good k w t ->
  exists d' e, kreaddir who fuel n (Some j) (at_entry t d) = Ret (Some e, at_entry t d') /\
    shows_dot path (__offset d) e /\ __offset d' = __offset d + 1 /\ placed_at (put_offset 2 d') 0.
Proof.
  intros Hpl Ho Hg. rewrite (kreaddir_start n t d k w (p_fd _ _ Hpl) Hg).
  set (d1 := put_data (put_accessed (c_now who) (__data d)) d).
  assert (placed_at (put_offset 2 d1) 0) as Hpl1 by (by apply (placed_data (put_offset 2 d))).
  destruct (dot_entry_ok d1 path (p_path _ _ Hpl1) Hlen) as (e & Ee & He).
  exists (put_offset (u32 (__offset d + 1)) (put_entry e d1)), e. split; [|split; [done|split]].
  - apply returned_run. left. assert ((__offset d =? 0) || (__offset d =? 1) = true) as -> by (destruct Ho as [-> | ->]; done).
    rewrite Ee. erewrite er_step by reflexivity. by erewrite er_step by (apply stmt_run, run_set_dir).
  - cbn [__offset put_offset]. by destruct Ho as [-> | ->].
  - destruct Hpl1 as [P1 P2 P3 P0 P4 P5 P6]. by split.
Qed.

(** One call takes the first of what is left. *)
Lemma run_kreaddir items n t d k w : stream d items -> (2 * length slots + 1 <= n)%nat -> kept (HL := HL) o t ->
  good (stream_reads d + k) (1 + w) t ->
  exists t' d', kept (HL := HL) o t' /\
    match items with
    | [] => kreaddir who fuel n (Some j) (at_entry t d) = Ret (None, at_entry t' d') /\ good k (1 + w) t' /\
        exists p, placed_at d' p
    | i :: items => exists e, kreaddir who fuel n (Some j) (at_entry t d) = Ret (Some e, at_entry t' d') /\
        item_shows i e /\ stream d' items /\ good (stream_reads d' + k) (1 + w) t'
    end.
Proof.
  intros Hs Hn Ho Hg. destruct Hs as [H0 Hpl|H1 Hpl|p Hpl].
  - destruct (kreaddir_dots n t d _ _ Hpl (or_introl H0) Hg) as (d' & e & E & He & Ho' & Hpl'). rewrite H0 in *.
    exists t, d'. split; [done|]. exists e. split; [done|]. split; [done|]. split; [by apply stream_dots|].
    unfold stream_reads in *. by rewrite Ho', H0 in *.
  - destruct (kreaddir_dots n t d _ _ Hpl (or_intror H1) Hg) as (d' & e & E & He & Ho' & Hpl'). rewrite H1 in *.
    exists t, d'. split; [done|]. exists e. split; [done|]. split; [done|].
    assert (placed_at d' 0) as Hd' by (destruct Hpl'; by split).
    split; [apply (stream_entries d' 0 Hd')|].
    unfold stream_reads in *. by rewrite Ho', H1 in *.
  - rewrite (kreaddir_start n t d _ _ (p_fd _ _ Hpl) Hg).
    set (d1 := put_data (put_accessed (c_now who) (__data d)) d).
    assert (placed_at d1 p) as Hpl1 by (by apply placed_data).
    assert (forall q x, placed_at x q -> stream_reads x = dir_reads q) as Hsr.
    { intros q x Hx. unfold stream_reads. rewrite (p_offset _ _ Hx). f_equal. lia. }
    rewrite (Hsr p d Hpl) in Hg. rewrite (p_offset _ _ Hpl).
    assert ((2 + Z.of_nat p =? 0) || (2 + Z.of_nat p =? 1) = false) as -> by (rewrite !(proj2 (Z.eqb_neq _ _)) by lia; done).
    destruct (run_retry (length slots - p) p n t d1 k w Hpl1 eq_refl ltac:(lia) Ho Hg) as (t' & d' & p' & Hpl' & _ & Ho' & Hr).
    exists t', d'. split; [done|]. destruct (shown_in (drop p slots)) as [|b l]; cbn [map].
    + destruct Hr as (E & Hg' & _). split; [apply returned_run; by right|]. split; [done|]. by exists p'.
    + destruct Hr as (e & E & Hg' & He & Hl). exists e. split; [apply returned_run; by left|]. split; [done|].
      split; [|by rewrite (Hsr p' d' Hpl')]. rewrite <- Hl. by apply stream_entries.
Qed.

(** [n] calls. *)
Fixpoint read_entries (steps n : nat) : st (dirs S) (list (option dirent)) :=
  match n with
  | O => mret []
  | Datatypes.S n => e ← kreaddir who fuel steps (Some j); l ← read_entries steps n; mret (e :: l)
  end.

Lemma run_read_entries items : forall n t d k w, stream d items -> (2 * length slots + 1 <= n)%nat -> kept (HL := HL) o t ->
  good (stream_reads d + k) (1 + w) t ->
  exists t' d' es, kept (HL := HL) o t' /\ good k (1 + w) t' /\
    read_entries n (length items + 1) (at_entry t d) = Ret (map Some es ++ [None], at_entry t' d') /\
    Forall2 item_shows items es /\ exists p, placed_at d' p.
Proof.
  induction items as [|i items IH]; intros n t d k w Hs Hn Ho Hg;
    destruct (run_kreaddir _ n t d k w Hs Hn Ho Hg) as (t1 & d1 & Ho1 & Hr).
  - destruct Hr as (E & Hg1 & Hp). exists t1, d1, []. split; [done|]. split; [done|]. split; [|by split].
    cbn [read_entries length Nat.add]. by rewrite (st_step _ _ _ _ _ E).
  - destruct Hr as (e & E & He & Hs1 & Hg1). destruct (IH n t1 d1 k w Hs1 Hn Ho1 Hg1) as (t2 & d2 & es & Ho2 & Hg2 & E2 & Hes & Hp).
    exists t2, d2, (e :: es). split; [done|]. split; [done|]. split; [|split; [by constructor|done]].
    cbn [read_entries length Nat.add]. rewrite (st_step _ _ _ _ _ E). by rewrite (st_step _ _ _ _ _ E2).
Qed.
End Entry.

Lemma at_entry_self (s : dirs S) j d : dir_tab s !! j = Some d -> s = at_entry s j (f_tree (d_files s)) d.
Proof. intros Hd. destruct s as [[t ft fd c] tab]. unfold at_entry. cbn in *. by rewrite list_insert_id. Qed.

Lemma free_dir_spec l j : free_dir l = Some j -> exists d, l !! j = Some d /\ __allocation d = 0.
Proof.
  revert j. induction l as [|d l IH]; intros j; cbn [free_dir]; [done|].
  destruct (Z.eqb_spec (__allocation d) 0) as [Ha|Ha]; [intros [= <-]; by exists d|].
  destruct (free_dir l) as [j'|]; [|done]. intros [= <-]. by apply IH.
Qed.

Lemma ncopy_path_ok s old : Forall (fun c => c <> 0) s -> (length s + 1 < MAX_PATH)%nat ->
  exists b, ncopy_path s old = Ret b /\ cstr b = Ret s.
Proof.
  intros Hs Hl. unfold ncopy_path. rewrite (proj2 (Nat.ltb_lt _ _)) by done. eexists. split; [done|]. by apply cstr_end.
Qed.

Lemma rooted_nonzero ns : Forall proper ns -> Forall (fun c => c <> 0) (rooted ns).
Proof.
  intros Hns. unfold rooted. constructor; [done|]. induction Hns as [|n ns [[_ Hn] _] _ IH]; [constructor|].
  assert (Forall (fun c => c <> 0) n) as Hn0 by (eapply Forall_impl; [exact Hn|by intros c [_ ?]]).
  destruct ns as [|n' ns]; [done|]. apply Forall_app. split; [done|]. by constructor.
Qed.

(** The directory of inode [b] has the entries [l]. *)
Definition dir_lists (v : Z -> list Z) (b : Z) (bs l : list Z) : Prop :=
  maps_from valid v (i_next (node v b)) bs /\ l = filter (fun x => x <> INODE_NULL) (numbers v bs).

Context (depth : nat) {HDL : DevLaws S}.

(** Opening a directory gives the first free entry, with everything left to read. *)
Lemma run_kopendir (s : dirs S) j d0 ns c b bs l k w : dir_tab s !! j = Some d0 -> free_dir (dir_tab s) = Some j ->
  __offset d0 = 0 -> __block d0 = INODE_NULL ->
  Forall proper ns -> (length (rooted ns) + 3 <= MAX_PATH)%nat -> rooted_at (HL := HL) (f_tree (d_files s)) ->
  leads (blocks (f_tree (d_files s))) valid who fuel c root ns b ->
  inode_check_permissions (node (blocks (f_tree (d_files s))) b) 0 0 (c_group who) (c_owner who) INODE_RX = true ->
  dir_lists (blocks (f_tree (d_files s))) b bs l ->
  good (1 + c + k) (1 + w) (f_tree (d_files s)) ->
  exists t d, kopendir who (1 + depth) fuel (rooted ns) s = Ret (Some j, at_entry s j t d) /\
    kept (HL := HL) (f_tree (d_files s)) t /\ good k (1 + w) t /\
    __data d = put_accessed (c_now who) (node (blocks (f_tree (d_files s))) b) /\
    stream j (f_tree (d_files s)) (i_next (node (blocks (f_tree (d_files s))) b)) bs (rooted ns)
      (put_accessed (c_now who) (node (blocks (f_tree (d_files s))) b)) d (Dot :: DotDot :: map Entry l) /\ __offset d = 0.
Proof.
  set (o := f_tree (d_files s)). intros Hd0 Hfree Hoff Hblk Hns Hlen Hroot Hl Hperm [Hmaps ->] Hg.
  pose proof (lookup_lt_Some _ _ _ Hd0) as Hj.
  pose proof (at_entry_self s j d0 Hd0) as Hs. fold o in Hs.
  set (d1 := put_fd (Z.of_nat j) DEV_BLOCK_SIZE d0).
  destruct (get_found who o o depth fuel (cwd (d_files s)) ns false INODE_RX c b k w (kept_refl _) Hns Hlen Hroot Hg Hl
    (or_introl eq_refl) Hperm) as (t & Et & Hg' & Hk).
  set (i := put_accessed (c_now who) (node (blocks o) b)).
  assert (Forall (fun c => c <> 0) (rooted ns)) as Hnz by (by apply rooted_nonzero).
  destruct (ncopy_path_ok (rooted ns) (__path d1) Hnz ltac:(lia)) as (p & Ep & Hp).
  exists t, (put_dir_path p (put_data i d1)). split; [|split; [done|split; [done|split; [done|split]]]].
  - unfold kopendir. rewrite (st_step _ _ s s dev).
    2: { unfold on_files, device, on_tree, below. fold o. change (base (f_tree (d_files s))) with (base o).
         rewrite (get_dev_ok _ _ _ _ Hg). by destruct s as [[[? ?] ? ? ?] ?]. }
    rewrite (st_step _ _ s s s) by done. rewrite Hfree.
    assert (forall f, update_dir j f s = Ret (tt, at_entry s j o (f d0))) as Eu.
    { intros f. rewrite <- (run_update_dir s j Hj o d0 f). f_equal. exact Hs. }
    rewrite (st_step _ _ _ _ _ (Eu _)). fold d1.
    rewrite (st_step _ _ _ _ _ (run_on_tree s j _ _ _ _ _ Et)). cbn [fst snd].
    rewrite (st_step _ _ _ _ _ (run_update_dir s j Hj t d1 _)). cbn [default].
    rewrite bool_decide_eq_true_2 by done. cbn [negb].
    rewrite (st_step _ _ _ _ _ (run_update_dir s j Hj t _ _)).
    rewrite (st_step _ _ _ _ _ (run_get_dir s j Hj t _)).
    erewrite st_step by exact (f_equal (fun r => lift r _) Ep).
    by rewrite (st_step _ _ _ _ _ (run_set_dir s j t _ _)).
  - apply stream_dot; [done|]. split; cbn [put_offset put_dir_path put_data put_fd d1 __fd __path __data __offset __block]; try done.
    lia.
  - done.
Qed.

(** Closing writes the inode and gives the entry back. *)
Lemma run_kclosedir (s : dirs S) j t d k w : (j < length (dir_tab s))%nat -> (j < MAX_DIR)%nat -> __fd d = Z.of_nat j ->
  valid Inodes (self (__data d)) -> cok inode_codec (put_accessed (c_now who) (__data d)) -> good (1 + k) (1 + w) t ->
  exists t', kclosedir who (Some j) (at_entry s j t d) = Ret (0, at_entry s j t' zero_dir) /\ good k w t'.
Proof.
  intros Hj Hmax Hfd Hv Hc Hg. set (i := put_accessed (c_now who) (__data d)) in *.
  assert (StoreSpec.good (S := tree S) dev root (1 + k) (1 + w) t) as HgT by exact Hg.
  destruct (write_block_ok (S := tree S) (dev := dev) (root := root) k w t Inodes (self i) (enc inode_codec i) HgT) as (t' & E & Hg' & _);
    [by destruct (__data d)|by rewrite enc_length|].
  exists t'. split; [|done]. unfold kclosedir.
  rewrite (st_step _ _ _ _ _ (run_dir_device s j Hj t d _ _ Hg)).
  assert (valid_dir (Some j) (at_entry s j t d) = Ret (Some d, at_entry s j t d)) as Ev.
  { unfold valid_dir. rewrite (st_step _ _ _ _ _ (run_get_dir s j Hj t d)). rewrite Hfd.
    by rewrite (proj2 (Z.ltb_ge _ _)), (proj2 (Z.leb_gt _ _)) by lia. }
  rewrite (st_step _ _ _ _ _ Ev), Hfd, Nat2Z.id.
  rewrite (st_step _ _ _ _ _ (run_update_dir s j Hj t d _)). rewrite (st_step _ _ _ _ _ (run_get_dir s j Hj t _)).
  cbn [__data put_data]. fold i.
  assert (on_tree (write_inode dev (self i) i) (d_files (at_entry s j t d)) =
    Ret (true, Files t' (file_tab (d_files s)) (file_desc (d_files s)) (cwd (d_files s)))) as Ew.
  { unfold on_tree, write_inode, write_as. cbn [d_files at_entry f_tree]. by rewrite E. }
  assert (on_files (write_node dev i) (at_entry s j t (put_data i d)) = Ret (true, at_entry s j t' (put_data i d))) as Ef.
  { unfold on_files, write_node. cbn [d_files at_entry]. cbn [d_files at_entry] in Ew. by rewrite Ew. }
  rewrite (st_step _ _ _ _ _ Ef). rewrite (st_step _ _ _ (at_entry s j t' (put_data i d)) tt) by done.
  rewrite (st_step _ _ _ _ _ (run_set_dir s j t' _ _)). done.
Qed.

(** A program that lists a directory: open, [n] reads, close. *)
Definition list_directory (steps n : nat) (dirname : list Z) : st (dirs S) (option (list (option dirent) * Z)) :=
  d ← kopendir who (1 + depth) fuel dirname;
  match d with
  | None => mret None
  | Some j => l ← read_entries j steps n; r ← kclosedir who (Some j); mret (Some (l, r))
  end.

Hypothesis Hnow : 0 <= c_now who < 4294967296.

(** C11: opening a directory and reading it gives [.], [..], then every entry of its
    block maps once and in order, with its block, type, size and path, and [NULL] when
    and only when all have been given; closing it then succeeds and changes no other
    entry of the process. *)
Theorem readdir_lists (s : dirs S) j d0 ns c b bs l steps k w : dir_tab s !! j = Some d0 -> free_dir (dir_tab s) = Some j ->
  (j < MAX_DIR)%nat -> __offset d0 = 0 -> __block d0 = INODE_NULL ->
  Forall proper ns -> (length (rooted ns) + 5 <= MAX_PATH)%nat -> rooted_at (HL := HL) (f_tree (d_files s)) ->
  leads (blocks (f_tree (d_files s))) valid who fuel c root ns b ->
  let i := node (blocks (f_tree (d_files s))) b in
  inode_check_permissions i 0 0 (c_group who) (c_owner who) INODE_RX = true -> self i = b -> cok inode_codec i ->
  dir_lists (blocks (f_tree (d_files s))) b bs l -> Z.of_nat (127 * length bs) < 2147483000 -> (length bs < fuel)%nat ->
  Forall (fun x => valid Inodes x /\ fits (rooted ns) (node (blocks (f_tree (d_files s))) x)) l ->
  (254 * length bs + 1 <= steps)%nat ->
  good (1 + c + (dir_reads (f_tree (d_files s)) bs 0 + (1 + k))) (2 + w) (f_tree (d_files s)) ->
  exists es t, list_directory steps (length l + 3) (rooted ns) s = Ret (Some (map Some es ++ [None], 0), at_entry s j t zero_dir) /\
    Forall2 (item_shows (f_tree (d_files s)) (rooted ns)) (Dot :: DotDot :: map Entry l) es /\ good k (1 + w) t.
Proof.
  intros Hd0 Hfree Hmax Hoff Hblk Hns Hlen Hroot Hl i Hperm Hself Hcok Hlists Hsmall Hfuel Hfits Hsteps Hg.
  pose proof (lookup_lt_Some _ _ _ Hd0) as Hj. pose proof Hlists as [Hmaps El].
  pose proof (numbers_length (blocks (f_tree (d_files s))) bs) as HL'. unfold BMAP_BLOCKS in HL'.
  destruct (run_kopendir s j d0 ns c b bs l _ _ Hd0 Hfree Hoff Hblk Hns ltac:(lia) Hroot Hl Hperm Hlists Hg)
    as (t1 & d1 & E1 & Ho1 & Hg1 & Hdata & Hs1 & Hoff1).
  assert (Forall (fun x => valid Inodes x /\ fits (rooted ns) (node (blocks (f_tree (d_files s))) x))
    (filter (fun x => x <> INODE_NULL) (numbers (blocks (f_tree (d_files s))) bs))) as Hfits' by (by rewrite <- El).
  destruct (run_read_entries s j Hj (f_tree (d_files s)) _ bs (rooted ns) (put_accessed (c_now who) i) Hmaps ltac:(lia) Hfuel Hfits' Hlen
    _ steps t1 d1 (1 + k) (1 + w) Hs1 ltac:(lia) Ho1) as (t2 & d2 & es & Ho2 & Hg2 & E2 & Hes & p & Hp).
  { unfold stream_reads. by rewrite Hoff1. }
  destruct (put_times_keep i (c_now who) Hnow Hcok) as [Hca _].
  destruct (run_kclosedir s j t2 d2 k (1 + w) Hj Hmax (p_fd _ _ _ _ _ _ _ _ Hp)) as (t3 & E3 & Hg3);
    [|by rewrite (p_data _ _ _ _ _ _ _ _ Hp)|done|].
  { assert (self (__data d2) = self i) as -> by exact (f_equal self (p_data _ _ _ _ _ _ _ _ Hp)).
    rewrite Hself. by eapply leads_target. }
  exists es, t3. split; [|by split]. unfold list_directory. rewrite (st_step _ _ _ _ _ E1).
  replace (length l + 3)%nat with (length (Dot :: DotDot :: map Entry l) + 1)%nat by (cbn [length]; rewrite length_map; lia).
  rewrite (st_step _ _ _ _ _ E2). by rewrite (st_step _ _ _ _ _ E3).
Qed.
End Runs.
