(* ===== verification/DirRuns.v ===== *)
(** * A concrete directory

    Listing [/a] of the small tree, which holds the file [b]. *)

From stdpp Require Import gmap.
From S2P Require Import Prelude Errno Layout Perms Alloc Store StoreSpec Paths PathsSpec Tree TreeSpec CreateSpec.
From S2P Require Import FileIO FileSpec FileCorrect File FdSpec TreeRuns FileRuns Dir DirSpec.

#[export] Instance mem_dev_laws : DevLaws (HL := mem_laws 0) mem.
Proof. by intros p k w s _. Qed.

Definition idle_dirs : dirs mem :=
  Dirs (Files small (replicate 2 zero_inode) (replicate MAX_FILES None) mem_root) [zero_dir; zero_dir].


Lemma idle_good k w : good (S := mem) 0 mem_root k w (base (f_tree (d_files idle_dirs))).
Proof. apply small_good. Qed.

Lemma small_lists_a : dir_lists (dev := 0) (root := mem_root) shown 101 [i_next (node shown 101)]
  (entries (map_at shown (i_next (node shown 101)))).
Proof.
  destruct small_a as (_ & _ & _ & _ & _ & bs & _ & Hl & _).
  assert (bs = [i_next (node shown 101)]) as ->.
  { inversion Hl as [? ? ? ? Hb|? ? ? ? ? Hn]; [by subst|]. exfalso. apply Hn. vm_compute. reflexivity. }
  destruct (listing_maps_from _ _ _ _ _ Hl) as (H1 & H2 & _). by split.
Qed.

Lemma readdir_lists_witness :
  exists es s', list_directory me 5 2 300 4 (rooted [[97]]) idle_dirs = Ret (Some (map Some es ++ [None], 0), s') /\ length es = 3%nat.
Proof.
  assert (cok inode_codec (node shown 101)) as Hc by (apply cok_check; [apply _|vm_compute; reflexivity..]).
  assert (entries (map_at shown (i_next (node shown 101))) = [102]) as El by (vm_compute; reflexivity).
  assert (Forall (fun x => area mem 0 mem_root Inodes x /\ fits (rooted [[97]]) (node shown x))
    (entries (map_at shown (i_next (node shown 101))))) as Hf.
  { rewrite El. constructor; [|constructor]. split; [by vm_compute|]. exists [98]. split; [by vm_compute|]. cbn; unfold MAX_PATH; lia. }
  destruct (readdir_lists (HL := mem_laws 0) me 5 2 now_small idle_dirs 0 zero_dir [[97]] _ 101 [i_next (node shown 101)]
    (entries (map_at shown (i_next (node shown 101)))) 300 0 0 eq_refl eq_refl ltac:(unfold MAX_DIR; lia) eq_refl eq_refl
    ltac:(by apply (bool_decide_eq_true_1 _)) ltac:(cbn; unfold MAX_PATH; lia) small_rooted root_a ltac:(by vm_compute)
    ltac:(by vm_compute) Hc small_lists_a ltac:(cbn; lia) ltac:(cbn; lia)
    Hf
    ltac:(cbn; lia) (idle_good _ _)) as (es & t & E & Hes & _).
  exists es, (at_entry idle_dirs 0 t zero_dir). split; [exact E|].
  apply Forall2_length in Hes. rewrite <- Hes. vm_compute. reflexivity.
Defined.
