(* ===== verification/Page.v ===== *)
(** * The page allocator ([mm/page.c])

    Physical memory in pages of 4096 bytes, a bitmap of the pages in use, the
    user and the kernel allocator over it, the identity page tables and the
    table of free GDT descriptors.  Interrupts are disabled around the
    operations that change the bitmap, so each is one step here.  The bytes of
    the bitmap are kept by block and offset, as [mem_map[block].page[byte]]; a
    pair that is absent lies outside the array. *)

From S2P Require Import Prelude.

Definition PAGE_SIZE : Z := 4096.
Definition PAGE_BITS : Z := 32768.
Definition BITS_PER_BYTE : Z := 8.
Definition ONE_MEG : Z := Z.shiftl 1 20.
Definition PAGE_TABLE_SIZE : Z := 1024.
Definition ONE_FULL_PAGE_TABLE_BYTES : Z := 4194304.
Definition KERNEL_END : Z := 2 * ONE_MEG.
Definition Nr_GDT : Z := 8192.

(** What [mem_init] computes once. *)
Record mem_params := MemParams {
  MEM_SIZE : Z; NR_PAGES : Z; NR_KPAGES : Z; NR_MEM_MAP : Z;
  START_KMEM : Z; START_UMEM : Z; END_KMEM : Z; END_UMEM : Z;
  KBYTES_FREE : Z; UBYTES_FREE : Z; NR_PAGE_TABLES : Z;
  REAL_KERNEL_END : Z; PAGE_TABLE_BYTES : Z;
  mem_map_base : Z; KERNEL_PAGE_TABLE : Z; KERNEL_PAGE_DIR : Z
}.

Abbreviation bitmap := (gmap (Z * Z) Z).

Record mem := Mem {
  params : mem_params;
  mem_map : bitmap;
  ALLOC_PAGES : Z;
  KALLOC_PAGES : Z;
  KLAST_PAGE : Z;
  ULAST_PAGE : Z;
  page_table : gmap Z Z;
  page_dir : gmap Z Z;
  GDT_MAP : list Z
}.

Definition set_user (b : bitmap) (alloc last : Z) (m : mem) : mem :=
  {| params := params m; mem_map := b; ALLOC_PAGES := alloc; KALLOC_PAGES := KALLOC_PAGES m;
     KLAST_PAGE := KLAST_PAGE m; ULAST_PAGE := last; page_table := page_table m;
     page_dir := page_dir m; GDT_MAP := GDT_MAP m |}.

Definition set_kernel (b : bitmap) (alloc last : Z) (m : mem) : mem :=
  {| params := params m; mem_map := b; ALLOC_PAGES := ALLOC_PAGES m; KALLOC_PAGES := alloc;
     KLAST_PAGE := last; ULAST_PAGE := ULAST_PAGE m; page_table := page_table m;
     page_dir := page_dir m; GDT_MAP := GDT_MAP m |}.

Definition set_page_table (pt : gmap Z Z) (m : mem) : mem :=
  {| params := params m; mem_map := mem_map m; ALLOC_PAGES := ALLOC_PAGES m;
     KALLOC_PAGES := KALLOC_PAGES m; KLAST_PAGE := KLAST_PAGE m; ULAST_PAGE := ULAST_PAGE m;
     page_table := pt; page_dir := page_dir m; GDT_MAP := GDT_MAP m |}.

Definition set_gdt_map (g : list Z) (m : mem) : mem :=
  {| params := params m; mem_map := mem_map m; ALLOC_PAGES := ALLOC_PAGES m;
     KALLOC_PAGES := KALLOC_PAGES m; KLAST_PAGE := KLAST_PAGE m; ULAST_PAGE := ULAST_PAGE m;
     page_table := page_table m; page_dir := page_dir m; GDT_MAP := g |}.

(** ** The bitmap *)

Definition mem_set_bit (b : bitmap) (page : Z) : outcome bitmap :=
  let block := page / PAGE_BITS in
  let byte := page mod PAGE_BITS / BITS_PER_BYTE in
  let bit := page mod PAGE_BITS mod BITS_PER_BYTE in
  match b !! (block, byte) with
  | Some c => Ret (<[(block, byte) := u8 (Z.lor (i8 c) (Z.shiftl 1 bit))]> b)
  | None => Fault
  end.

Definition mem_clear_bit (b : bitmap) (page : Z) : outcome bitmap :=
  let block := page / PAGE_BITS in
  let byte := page mod PAGE_BITS / BITS_PER_BYTE in
  let bit := page mod PAGE_BITS mod BITS_PER_BYTE in
  match b !! (block, byte) with
  | Some c => Ret (<[(block, byte) := u8 (Z.land (i8 c) (Z.lnot (Z.shiftl 1 bit)))]> b)
  | None => Fault
  end.

Definition mem_test_bit (b : bitmap) (page : Z) : outcome Z :=
  let block := page / PAGE_BITS in
  let byte := page mod PAGE_BITS / BITS_PER_BYTE in
  let bit := page mod PAGE_BITS mod BITS_PER_BYTE in
  match b !! (block, byte) with
  | Some c => Ret (u32 (Z.shiftr (Z.land (i8 c) (Z.shiftl 1 bit)) bit))
  | None => Fault
  end.

(** ** Allocation

    The loops that the four scans of the source share.  [free_run] is the
    inner loop over [run], with [k] = [nr_pages - run]. *)

Fixpoint free_run (b : bitmap) (page : Z) (k : nat) (run : Z) : outcome Z :=
  match k with
  | O => Ret run
  | S k =>
      t ← mem_test_bit b (u32 (page + run));
      if t =? 1 then Ret run else free_run b page k (run + 1)
  end.

Fixpoint set_run (b : bitmap) (page : Z) (k : nat) (run : Z) : outcome bitmap :=
  match k with
  | O => Ret b
  | S k => b ← mem_set_bit b (u32 (page + run)); set_run b page k (run + 1)
  end.

Fixpoint clear_run (b : bitmap) (page : Z) (k : nat) (run : Z) : outcome bitmap :=
  match k with
  | O => Ret b
  | S k => b ← mem_clear_bit b (u32 (page + run)); clear_run b page k (run + 1)
  end.

(** [for(page = from; page < limit; ++page)]: the page where a run of
    [nr_pages] free pages starts.  Every turn advances [page], so [limit - from]
    turns are enough. *)
Fixpoint find_run (fuel : nat) (b : bitmap) (page limit nr_pages : Z) : outcome (option Z) :=
  if page <? limit then
    match fuel with
    | O => NoFuel
    | S fuel =>
        t ← mem_test_bit b page;
        if t =? 0 then
          run ← free_run b page (Z.to_nat nr_pages) 0;
          if run =? nr_pages then Ret (Some page)
          else find_run fuel b (u32 (u32 (page + run) + 1)) limit nr_pages
        else find_run fuel b (u32 (page + 1)) limit nr_pages
    end
  else Ret None.

Definition scan (b : bitmap) (from limit nr_pages : Z) : outcome (option Z) :=
  find_run (Z.to_nat (limit - from)) b from limit nr_pages.

(** What both scans of [page_alloc] do when they find a run. *)
Definition take_user (page nr_pages : Z) : st mem Z :=
  m ← get;
  b ← lift (set_run (mem_map m) page (Z.to_nat nr_pages) 0);
  _ ← put (set_user b (i32 (ALLOC_PAGES m + nr_pages)) (u32 (page + nr_pages + 1)) m);
  mret (u32 (page * PAGE_SIZE)).

Definition page_alloc (nr_pages : Z) : st mem Z :=
  m ← get;
  if UBYTES_FREE (params m) <=? u32 (ALLOC_PAGES m * PAGE_SIZE) then mret 0
  else
    let first := START_UMEM (params m) / PAGE_SIZE in
    let last := if ULAST_PAGE m =? 0 then first else ULAST_PAGE m in
    _ ← put (set_user (mem_map m) (ALLOC_PAGES m) last m);
    r ← lift (scan (mem_map m) last (NR_PAGES (params m)) nr_pages);
    match r with
    | Some page => take_user page nr_pages
    | None =>
        r ← lift (scan (mem_map m) first last nr_pages);
        match r with
        | Some page => take_user page nr_pages
        | None => mret 0
        end
    end.

Definition page_free (addr nr_pages : Z) : st mem unit :=
  m ← get;
  let page := addr / PAGE_SIZE in
  if (page <? NR_KPAGES (params m)) || (NR_PAGES (params m) <? page) then panic
  else
    b ← lift (clear_run (mem_map m) page (Z.to_nat nr_pages) 0);
    let alloc := i32 (ALLOC_PAGES m - nr_pages) in
    _ ← put (set_user b alloc page m);
    if alloc <? 0 then panic else mret tt.

Definition take_kernel (page nr_pages : Z) : st mem Z :=
  m ← get;
  b ← lift (set_run (mem_map m) page (Z.to_nat nr_pages) 0);
  _ ← put (set_kernel b (i32 (KALLOC_PAGES m + nr_pages)) (u32 (page + nr_pages + 1)) m);
  mret (u32 (page * PAGE_SIZE)).

Definition kpage_alloc (nr_pages : Z) : st mem Z :=
  m ← get;
  if KBYTES_FREE (params m) <=? u32 (KALLOC_PAGES m * PAGE_SIZE) then mret 0
  else
    let first := START_KMEM (params m) / PAGE_SIZE in
    let last := if KLAST_PAGE m =? 0 then first else KLAST_PAGE m in
    _ ← put (set_kernel (mem_map m) (KALLOC_PAGES m) last m);
    r ← lift (scan (mem_map m) last (NR_KPAGES (params m)) nr_pages);
    match r with
    | Some page => take_kernel page nr_pages
    | None =>
        r ← lift (scan (mem_map m) first last nr_pages);
        match r with
        | Some page => take_kernel page nr_pages
        | None => mret 0
        end
    end.

Definition kpage_free (addr nr_pages : Z) : st mem unit :=
  m ← get;
  let page := addr / PAGE_SIZE in
  if NR_KPAGES (params m) <? page then panic
  else
    b ← lift (clear_run (mem_map m) page (Z.to_nat nr_pages) 0);
    let alloc := i32 (KALLOC_PAGES m - nr_pages) in
    _ ← put (set_kernel b alloc page m);
    if alloc <? 0 then panic else mret tt.

Definition get_nr_pages : st mem Z := gets (fun m => NR_PAGES (params m)).
Definition get_nr_kpages : st mem Z := gets (fun m => NR_KPAGES (params m)).
Definition get_nr_allocated_pages : st mem Z := gets (fun m => u32 (ALLOC_PAGES m)).
Definition get_nr_kallocated_pages : st mem Z := gets (fun m => u32 (KALLOC_PAGES m)).
Definition get_user_bytes_free : st mem Z :=
  gets (fun m => u32 (UBYTES_FREE (params m) - ALLOC_PAGES m * PAGE_SIZE)).
Definition get_kernel_bytes_free : st mem Z :=
  gets (fun m => u32 (KBYTES_FREE (params m) - KALLOC_PAGES m * PAGE_SIZE)).

(** ** Page table entries ([include/ox/mm/page.h]) *)

Definition PTE_PRESENT : Z := 1.
Definition PTE_READ_WRITE : Z := 2.
Definition PTE_USER : Z := 4.

Definition PT_SET_READ_ONLY (entry : Z) : Z := Z.land entry (u32 (Z.lnot 2)).
Definition PT_SET_ATTRIB (entry attrib : Z) : Z := Z.lor entry attrib.
Definition PT_SET_FRAME (entry addr : Z) : Z :=
  Z.lor (Z.land entry (u32 (Z.lnot 0xFFFFF000))) addr.
Definition PT_INDEX (virt : Z) : Z := Z.land (Z.shiftr virt 12) 0x3FF.
Definition PD_INDEX (virt : Z) : Z := Z.land (Z.shiftr virt 22) 0x3FF.

(** The loops of [mem_set_read_only] and [mem_unset_read_only]; [k] counts the
    pages left. *)
Fixpoint read_only_loop (pt : gmap Z Z) (i : Z) (k : nat) : outcome (gmap Z Z) :=
  match k with
  | O => Ret pt
  | S k =>
      match pt !! i with
      | Some page => read_only_loop (<[i := PT_SET_READ_ONLY page]> pt) (i + 1) k
      | None => Fault
      end
  end.

Fixpoint read_write_loop (pt : gmap Z Z) (i : Z) (k : nat) : outcome (gmap Z Z) :=
  match k with
  | O => Ret pt
  | S k =>
      match pt !! i with
      | Some page => read_write_loop (<[i := PT_SET_ATTRIB page PTE_READ_WRITE]> pt) (i + 1) k
      | None => Fault
      end
  end.

(** The number of turns of [for(i = start; i < start + nr; ++i)] on 32-bit
    unsigned values. *)
Definition nr_turns (start nr : Z) : nat := Z.to_nat (u32 (start + nr) - start).

Definition mem_set_read_only (addr nr_pages : Z) : st mem unit :=
  m ← get;
  let page_start := addr / PAGE_SIZE in
  let nr_pages := if NR_PAGES (params m) <? nr_pages then NR_PAGES (params m) else nr_pages in
  pt ← lift (read_only_loop (page_table m) page_start (nr_turns page_start nr_pages));
  put (set_page_table pt m).

Definition mem_unset_read_only (addr nr_pages : Z) : st mem unit :=
  m ← get;
  let page_start := addr / PAGE_SIZE in
  let nr_pages := if NR_PAGES (params m) <? nr_pages then NR_PAGES (params m) else nr_pages in
  pt ← lift (read_write_loop (page_table m) page_start (nr_turns page_start nr_pages));
  put (set_page_table pt m).

(** ** Start-up *)

(** The probe of [mem_size]: [present a] tells whether a word at address [a]
    keeps the two patterns written to it. [memkb] is an [unsigned short]. *)
Fixpoint mem_size_loop (fuel : nat) (present : Z -> bool) (memkb mem_count : Z) : outcome Z :=
  match fuel with
  | O => NoFuel
  | S fuel =>
      let memkb := u16 (memkb + 1) in
      let mem_count := u32 (mem_count + ONE_MEG) in
      let mem_count := if present mem_count then mem_count else 0 in
      if (memkb <? 4096) && negb (mem_count =? 0) then mem_size_loop fuel present memkb mem_count
      else Ret memkb
  end.

Definition mem_size (present : Z -> bool) : outcome Z :=
  memkb ← mem_size_loop 4096 present 0 0;
  mret (u32 (Z.shiftl memkb 20)).

(** [while(END_KMEM <= START_KMEM) END_KMEM += ONE_FULL_PAGE_TABLE_BYTES] *)
Fixpoint end_kmem_loop (fuel : nat) (end_kmem start_kmem : Z) : outcome Z :=
  if end_kmem <=? start_kmem then
    match fuel with
    | O => NoFuel
    | S fuel => end_kmem_loop fuel (u32 (end_kmem + ONE_FULL_PAGE_TABLE_BYTES)) start_kmem
    end
  else Ret end_kmem.

Definition page_round_up (x : Z) : Z :=
  if x mod PAGE_SIZE =? 0 then x else u32 (u32 (x / PAGE_SIZE + 1) * PAGE_SIZE).

Definition mem_parameters (mem_bytes : Z) : outcome mem_params :=
  let nr_pages := mem_bytes / PAGE_SIZE in
  let nr_mem_map := nr_pages / BITS_PER_BYTE / PAGE_SIZE +
    (if nr_pages / BITS_PER_BYTE mod PAGE_SIZE =? 0 then 0 else 1) in
  let nr_page_tables := nr_pages / PAGE_TABLE_SIZE in
  let page_table_bytes := u32 (nr_page_tables * PAGE_SIZE) in
  let real_kernel_end := page_round_up (u32 (KERNEL_END + (nr_pages * 4 + PAGE_SIZE))) in
  let base := u32 (page_table_bytes + real_kernel_end) in
  let start_kmem := page_round_up (u32 (base + nr_mem_map * PAGE_SIZE)) in
  end_kmem ← end_kmem_loop 1024 (4 * ONE_FULL_PAGE_TABLE_BYTES) start_kmem;
  mret {| MEM_SIZE := mem_bytes; NR_PAGES := nr_pages; NR_KPAGES := end_kmem / PAGE_SIZE;
          NR_MEM_MAP := nr_mem_map; START_KMEM := start_kmem; START_UMEM := end_kmem;
          END_KMEM := end_kmem; END_UMEM := mem_bytes;
          KBYTES_FREE := u32 (end_kmem - start_kmem); UBYTES_FREE := u32 (mem_bytes - end_kmem);
          NR_PAGE_TABLES := nr_page_tables; REAL_KERNEL_END := real_kernel_end;
          PAGE_TABLE_BYTES := page_table_bytes; mem_map_base := base;
          KERNEL_PAGE_TABLE := u32 (KERNEL_END + PAGE_SIZE); KERNEL_PAGE_DIR := KERNEL_END |}.

(** The loop that clears the bitmap: [k] bytes from offset [bit] of a block. *)
Fixpoint clear_bytes (b : bitmap) (page bit : Z) (k : nat) : bitmap :=
  match k with
  | O => b
  | S k => clear_bytes (<[(page, bit) := 0]> b) page (bit + 1) k
  end.

Fixpoint clear_blocks (b : bitmap) (page : Z) (k : nat) : bitmap :=
  match k with
  | O => b
  | S k => clear_blocks (clear_bytes b page 0 (Z.to_nat PAGE_SIZE)) (page + 1) k
  end.

(** One entry of the page table, and of the page directory. *)
Definition kernel_entry (frame : Z) : Z :=
  PT_SET_FRAME (PT_SET_ATTRIB (PT_SET_ATTRIB 0 PTE_PRESENT) PTE_READ_WRITE) frame.

Definition user_entry (frame : Z) : Z :=
  PT_SET_FRAME (PT_SET_ATTRIB (PT_SET_ATTRIB (PT_SET_ATTRIB 0 PTE_PRESENT) PTE_READ_WRITE)
    PTE_USER) frame.

(** [k] entries from index [i]: kernel entries below [page_limit], user
    entries from there on.  Both tables are filled this way. *)
Fixpoint fill_table (t : gmap Z Z) (i frame page_limit : Z) (k : nat) : gmap Z Z :=
  match k with
  | O => t
  | S k =>
      fill_table (<[i := if i <? page_limit then kernel_entry frame else user_entry frame]> t)
        (i + 1) (u32 (frame + PAGE_SIZE)) page_limit k
  end.

(** [mem_init] with paging enabled, as the kernel is built. *)
Definition mem_init (mem_bytes : Z) : outcome mem :=
  p ← mem_parameters mem_bytes;
  let map := clear_blocks ∅ 0 (Z.to_nat (NR_MEM_MAP p)) in
  let pt := fill_table ∅ 0 0 (END_KMEM p / PAGE_SIZE) (Z.to_nat (NR_PAGES p)) in
  let pd := fill_table ∅ 0 (KERNEL_PAGE_TABLE p) (END_KMEM p / ONE_FULL_PAGE_TABLE_BYTES)
              (Z.to_nat (NR_PAGE_TABLES p)) in
  map ← set_run map 0 (Z.to_nat (START_KMEM p / PAGE_SIZE)) 0;
  mret {| params := p; mem_map := map; ALLOC_PAGES := 0; KALLOC_PAGES := 0;
          KLAST_PAGE := 0; ULAST_PAGE := 0; page_table := pt; page_dir := pd;
          GDT_MAP := replicate 6 1 ++ replicate (Z.to_nat Nr_GDT - 6) 0 |}.

(** [idpaging]: the entries written from [first_pte] on. [size] is an [int]. *)
Fixpoint idpaging_loop (fuel : nat) (from size : Z) : outcome (list Z) :=
  if 0 <? size then
    match fuel with
    | O => NoFuel
    | S fuel =>
        l ← idpaging_loop fuel (u32 (from + 4096)) (i32 (size - 4096));
        mret (Z.lor from 1 :: l)
    end
  else Ret [].

Definition idpaging (from size : Z) : outcome (list Z) :=
  idpaging_loop (Z.to_nat size) (Z.land from 0xfffff000) size.

(** ** GDT descriptors *)

Fixpoint alloc_gdt_loop (i : Z) (g : list Z) : option (Z * list Z) :=
  match g with
  | [] => None
  | c :: g =>
      if c =? 0 then Some (i, 1 :: g)
      else match alloc_gdt_loop (i + 1) g with
           | Some (r, g) => Some (r, c :: g)
           | None => None
           end
  end.

Definition alloc_gdt : st mem Z :=
  m ← get;
  match alloc_gdt_loop 0 (GDT_MAP m) with
  | Some (i, g) => _ ← put (set_gdt_map g m); mret i
  | None => panic
  end.

(** ** The bitmap as a set of pages *)

Definition page_key (page : Z) : Z * Z :=
  (page / PAGE_BITS, page mod PAGE_BITS / BITS_PER_BYTE).

Definition page_bit (page : Z) : Z := page mod PAGE_BITS mod BITS_PER_BYTE.

(** The page is marked in use. *)
Definition in_use (b : bitmap) (page : Z) : bool :=
  match b !! page_key page with Some c => Z.testbit c (page_bit page) | None => false end.

(** The bitmap has a bit for every page below [cap]. *)
Definition covers (b : bitmap) (cap : Z) : Prop :=
  0 <= cap <= 4294967296 /\ forall page, 0 <= page < cap -> is_Some (b !! page_key page).

(** The [n] pages from [page] on are free. *)
Definition run_free (b : bitmap) (page n : Z) : Prop :=
  forall i, page <= i < page + n -> in_use b i = false.

(** [b'] is [b] with the pages of the run marked [v]. *)
Definition marks (v : bool) (page n : Z) (b b' : bitmap) : Prop :=
  forall i, 0 <= i ->
    in_use b' i = if (page <=? i) && (i <? page + n) then v else in_use b i.

Lemma page_bit_range page : 0 <= page_bit page < 8.
Proof. apply Z.mod_pos_bound. done. Qed.

Lemma page_key_inj p q : page_key p = page_key q -> page_bit p = page_bit q -> p = q.
Proof.
  unfold page_key, page_bit, PAGE_BITS, BITS_PER_BYTE. intros [= E1 E2] E3.
  rewrite (Z.div_mod p 32768), (Z.div_mod q 32768) by lia.
  rewrite (Z.div_mod (p mod 32768) 8), (Z.div_mod (q mod 32768) 8) by lia. lia.
Qed.

Lemma in_use_insert b page c i :
  in_use (<[page_key page := c]> b) i =
    if decide (page_key i = page_key page) then Z.testbit c (page_bit i) else in_use b i.
Proof.
  unfold in_use. case_decide as E.
  - by rewrite E, lookup_insert_eq.
  - by rewrite lookup_insert_ne by congruence.
Qed.

Lemma covers_insert b cap page c : covers b cap -> covers (<[page_key page := c]> b) cap.
Proof.
  intros [Hc H]. split; [done|]. intros p Hp. destruct (decide (page_key page = page_key p)) as [-> | ].
  - rewrite lookup_insert_eq. eauto.
  - rewrite lookup_insert_ne by done. auto.
Qed.

Lemma mem_test_bit_spec b cap page :
  covers b cap -> 0 <= page < cap -> mem_test_bit b page = Ret (Z.b2z (in_use b page)).
Proof.
  intros [_ H] Hp. destruct (H _ Hp) as [c Hc]. unfold mem_test_bit, in_use.
  fold (page_key page) (page_bit page). rewrite Hc. pose proof (page_bit_range page).
  rewrite land_bit, swrap_testbit by lia. destruct (Z.testbit c (page_bit page)); simpl.
  - rewrite Z.shiftr_div_pow2, Z.div_same by (try apply Z.pow_nonzero; lia). done.
  - by rewrite Z.shiftr_0_l.
Qed.

(** What setting and clearing one bit share. *)
Lemma update_bit_spec b cap page c x v :
  covers b cap -> 0 <= page -> b !! page_key page = Some c ->
  (forall i, 0 <= i < 8 ->
     Z.testbit x i = if i =? page_bit page then v else Z.testbit c i) ->
  covers (<[page_key page := x]> b) cap /\ marks v page 1 b (<[page_key page := x]> b).
Proof.
  intros Hb Hp Hc Hx. split; [by apply covers_insert|]. intros i Hi.
  rewrite in_use_insert. case_decide as E.
  - rewrite Hx by apply page_bit_range. destruct (Z.eqb_spec (page_bit i) (page_bit page)).
    + rewrite (page_key_inj i page) by done.
      by rewrite (proj2 (Z.leb_le _ _)), (proj2 (Z.ltb_lt _ _)) by lia.
    + destruct (Z.leb_spec page i), (Z.ltb_spec i (page + 1)); simpl;
        [replace i with page in * by lia; done|..]; unfold in_use; by rewrite E, Hc.
  - destruct (Z.leb_spec page i), (Z.ltb_spec i (page + 1)); simpl; try done.
    by replace i with page in E by lia.
Qed.

Lemma mem_set_bit_spec b cap page :
  covers b cap -> 0 <= page < cap ->
  exists b', mem_set_bit b page = Ret b' /\ covers b' cap /\ marks true page 1 b b'.
Proof.
  intros Hb Hp. destruct (proj2 Hb _ Hp) as [c Hc]. unfold mem_set_bit.
  fold (page_key page) (page_bit page). rewrite Hc. eexists. split; [reflexivity|].
  pose proof (page_bit_range page).
  eapply update_bit_spec; [done|lia|done|]. intros i Hi.
  rewrite uwrap_testbit, Z.lor_spec, swrap_testbit, shiftl1_testbit by lia.
  destruct (i =? page_bit page); [apply orb_true_r | apply orb_false_r].
Qed.

Lemma mem_clear_bit_spec b cap page :
  covers b cap -> 0 <= page < cap ->
  exists b', mem_clear_bit b page = Ret b' /\ covers b' cap /\ marks false page 1 b b'.
Proof.
  intros Hb Hp. destruct (proj2 Hb _ Hp) as [c Hc]. unfold mem_clear_bit.
  fold (page_key page) (page_bit page). rewrite Hc. eexists. split; [reflexivity|].
  pose proof (page_bit_range page).
  eapply update_bit_spec; [done|lia|done|]. intros i Hi.
  rewrite uwrap_testbit, Z.land_spec, Z.lnot_spec, swrap_testbit, shiftl1_testbit by lia.
  destruct (i =? page_bit page); [apply andb_false_r | apply andb_true_r].
Qed.

Lemma marks_step v page n run b b1 b2 :
  0 <= n -> marks v (page + run) 1 b b1 -> marks v (page + (run + 1)) n b1 b2 ->
  marks v (page + run) (n + 1) b b2.
Proof.
  intros Hn H1 H2 i Hi. rewrite H2, H1 by done.
  destruct (Z.leb_spec (page + (run + 1)) i), (Z.ltb_spec i (page + (run + 1) + n)),
    (Z.leb_spec (page + run) i), (Z.ltb_spec i (page + run + 1)),
    (Z.ltb_spec i (page + run + (n + 1))); simpl; done || lia.
Qed.

Lemma marks_0 v page b : marks v page 0 b b.
Proof. intros i _. destruct (Z.leb_spec page i), (Z.ltb_spec i (page + 0)); done || lia. Qed.

(** Both loops over a run. *)
Lemma set_run_spec k : forall b cap page run,
  covers b cap -> 0 <= page + run -> page + run + Z.of_nat k <= cap ->
  exists b', set_run b page k run = Ret b' /\ covers b' cap /\
    marks true (page + run) (Z.of_nat k) b b'.
Proof.
  induction k as [|k IH]; intros b cap page run Hb H0 Hk.
  { exists b. split; [done|]. split; [done|]. apply marks_0. }
  cbn [set_run]. pose proof (proj1 Hb). rewrite u32_small by lia.
  destruct (mem_set_bit_spec b cap (page + run)) as (b1 & -> & Hb1 & Hm1); [done|lia|].
  destruct (IH b1 cap page (run + 1)) as (b2 & E & Hb2 & Hm2); [done|lia|lia|].
  exists b2. split; [exact E|]. split; [done|]. rewrite Nat2Z.inj_succ.
  eapply marks_step; [lia|done|done].
Qed.

Lemma clear_run_spec k : forall b cap page run,
  covers b cap -> 0 <= page + run -> page + run + Z.of_nat k <= cap ->
  exists b', clear_run b page k run = Ret b' /\ covers b' cap /\
    marks false (page + run) (Z.of_nat k) b b'.
Proof.
  induction k as [|k IH]; intros b cap page run Hb H0 Hk.
  { exists b. split; [done|]. split; [done|]. apply marks_0. }
  cbn [clear_run]. pose proof (proj1 Hb). rewrite u32_small by lia.
  destruct (mem_clear_bit_spec b cap (page + run)) as (b1 & -> & Hb1 & Hm1); [done|lia|].
  destruct (IH b1 cap page (run + 1)) as (b2 & E & Hb2 & Hm2); [done|lia|lia|].
  exists b2. split; [exact E|]. split; [done|]. rewrite Nat2Z.inj_succ.
  eapply marks_step; [lia|done|done].
Qed.

(** The inner loop stops at the first page in use. *)
Lemma free_run_spec k : forall b cap page run,
  covers b cap -> 0 <= page + run -> page + run + Z.of_nat k <= cap ->
  exists r, free_run b page k run = Ret r /\ run <= r <= run + Z.of_nat k /\
    run_free b (page + run) (r - run) /\
    (r < run + Z.of_nat k -> in_use b (page + r) = true).
Proof.
  induction k as [|k IH]; intros b cap page run Hb H0 Hk.
  { exists run. split; [done|]. split; [lia|]. split; [intros i; lia|lia]. }
  cbn [free_run]. pose proof (proj1 Hb). rewrite u32_small by lia.
  rewrite (mem_test_bit_spec b cap) by (done || lia). cbn [mbind outcome_bind].
  destruct (in_use b (page + run)) eqn:Eu; cbn [Z.b2z Z.eqb].
  { exists run. split; [done|]. split; [lia|]. split; [intros i; lia|done]. }
  destruct (IH b cap page (run + 1)) as (r & E & Hr & Hf & Hlast); [done|lia|lia|].
  exists r. split; [exact E|]. split; [lia|]. split; [|intros; apply Hlast; lia].
  intros i Hi. destruct (decide (i = page + run)) as [-> | ]; [done|]. apply Hf. lia.
Qed.

(** The outer loop finds the first page of the range where a free run starts,
    and there is none when it finds nothing; the fuel [scan] gives is enough. *)
Lemma find_run_spec n fuel : forall b cap page limit,
  covers b cap -> 0 <= n -> 0 <= page -> limit + n < cap -> limit - page <= Z.of_nat fuel ->
  exists o, find_run fuel b page limit n = Ret o /\
    match o with
    | Some p => page <= p < limit /\ run_free b p n /\ in_use b p = false /\
        (0 < n -> forall q, page <= q < p -> ~ run_free b q n)
    | None => 0 < n -> forall q, page <= q < limit -> ~ run_free b q n
    end.
Proof.
  induction fuel as [|fuel IH]; intros b cap page limit Hb Hn Hp Hl Hf.
  { exists None. unfold find_run. rewrite (proj2 (Z.ltb_ge _ _)) by lia. split; [done|]. intros; lia. }
  cbn [find_run]. pose proof (proj1 Hb).
  destruct (Z.ltb_spec page limit) as [Hlt | Hge];
    [|exists None; split; [done|]; intros; lia].
  rewrite (mem_test_bit_spec b cap) by (done || lia). cbn [mbind outcome_bind].
  destruct (in_use b page) eqn:Eu; cbn [Z.b2z Z.eqb].
  - rewrite u32_small by lia.
    destruct (IH b cap (page + 1) limit) as (o & E & Ho); [done|lia..|]. exists o. split; [done|].
    assert (0 < n -> forall q, page <= q < page + 1 -> ~ run_free b q n) as Hpage.
    { intros Hn' q Hq Hr. specialize (Hr page). rewrite Hr in Eu by lia. done. }
    destruct o as [p|].
    + destruct Ho as (H1 & H2 & H3 & H4). split; [lia|]. split; [done|]. split; [done|].
      intros Hn' q Hq. destruct (decide (q < page + 1)); [apply Hpage|apply H4]; lia.
    + intros Hn' q Hq. destruct (decide (q < page + 1)); [apply Hpage|apply Ho]; lia.
  - destruct (free_run_spec (Z.to_nat n) b cap page 0) as (r & -> & Hr & Hfree & Hlast); [done|lia..|].
    cbn [mbind outcome_bind]. rewrite Z.add_0_r, Z.sub_0_r in Hfree.
    destruct (Z.eqb_spec r n) as [-> | Hne].
    { exists (Some page). split; [done|]. split; [lia|]. split; [done|]. split; [done|]. intros; lia. }
    rewrite (u32_small (page + r)), u32_small by lia.
    destruct (IH b cap (page + r + 1) limit) as (o & E & Ho); [done|lia..|]. exists o. split; [done|].
    assert (0 < n -> forall q, page <= q < page + r + 1 -> ~ run_free b q n) as Hskip.
    { intros Hn' q Hq Hr'. specialize (Hlast ltac:(lia)). rewrite Hr' in Hlast by lia. done. }
    destruct o as [p|].
    + destruct Ho as (H1 & H2 & H3 & H4). split; [lia|]. split; [done|]. split; [done|].
      intros Hn' q Hq. destruct (decide (q < page + r + 1)); [apply Hskip|apply H4]; lia.
    + intros Hn' q Hq. destruct (decide (q < page + r + 1)); [apply Hskip|apply Ho]; lia.
Qed.

Lemma scan_spec b cap from limit n :
  covers b cap -> 0 <= n -> 0 <= from -> limit + n < cap ->
  exists o, scan b from limit n = Ret o /\
    match o with
    | Some p => from <= p < limit /\ run_free b p n /\ in_use b p = false /\
        (0 < n -> forall q, from <= q < p -> ~ run_free b q n)
    | None => 0 < n -> forall q, from <= q < limit -> ~ run_free b q n
    end.
Proof. intros. apply (find_run_spec n _ b cap); (done || lia). Qed.

(** ** The allocators

    Both allocators follow one scheme, on the pages from [first] to [limit],
    with a roving pointer [last]. *)

Record pool_ok (b : bitmap) (cap first last limit alloc : Z) : Prop := {
  pool_covers : covers b cap;
  pool_cap : cap <= 1048576;
  pool_first : 0 < first <= cap;
  pool_last : last = 0 \/ first <= last <= cap;
  pool_limit : first <= limit <= cap;
  pool_alloc : 0 <= alloc <= 1073741824
}.

(** Room in the bitmap for a run of [n] pages wherever a scan looks. *)
Definition room (cap last limit alloc n : Z) : Prop :=
  0 < n /\ limit + n < cap /\ last + n < cap /\ alloc + n <= 1073741824.

Definition user_ok (m : mem) : Prop :=
  let p := params m in
  NR_KPAGES p = START_UMEM p / PAGE_SIZE /\
  pool_ok (mem_map m) (NR_MEM_MAP p * PAGE_BITS) (START_UMEM p / PAGE_SIZE) (ULAST_PAGE m)
    (NR_PAGES p) (ALLOC_PAGES m).

Definition user_room (m : mem) (n : Z) : Prop :=
  let p := params m in
  START_UMEM p / PAGE_SIZE + n < NR_MEM_MAP p * PAGE_BITS /\
  room (NR_MEM_MAP p * PAGE_BITS) (ULAST_PAGE m) (NR_PAGES p) (ALLOC_PAGES m) n.

Definition kernel_ok (m : mem) : Prop :=
  let p := params m in
  pool_ok (mem_map m) (NR_MEM_MAP p * PAGE_BITS) (START_KMEM p / PAGE_SIZE) (KLAST_PAGE m)
    (NR_KPAGES p) (KALLOC_PAGES m).

Definition kernel_room (m : mem) (n : Z) : Prop :=
  let p := params m in
  START_KMEM p / PAGE_SIZE + n < NR_MEM_MAP p * PAGE_BITS /\
  room (NR_MEM_MAP p * PAGE_BITS) (KLAST_PAGE m) (NR_KPAGES p) (KALLOC_PAGES m) n.

(** The two scans of an allocation: they find a free run, or there is none in
    the whole pool. *)
Lemma two_scans_spec b cap first last limit n :
  covers b cap -> 0 < n -> 0 <= first <= last -> limit + n < cap -> last + n < cap ->
  (exists p, first <= p /\ p + n + 1 <= cap /\ run_free b p n /\
     (scan b last limit n = Ret (Some p) \/
      scan b last limit n = Ret None /\ scan b first last n = Ret (Some p))) \/
  (scan b last limit n = Ret None /\ scan b first last n = Ret None /\
   forall q, first <= q < limit -> ~ run_free b q n).
Proof.
  intros Hb Hn Hf Hl Hl'.
  destruct (scan_spec b cap last limit n) as (o1 & E1 & H1); [done|lia..|].
  destruct (scan_spec b cap first last n) as (o2 & E2 & H2); [done|lia..|].
  destruct o1 as [p|].
  { left. exists p. destruct H1 as (? & ? & _). split; [lia|]. split; [lia|]. auto. }
  destruct o2 as [p|].
  { left. exists p. destruct H2 as (? & ? & _). split; [lia|]. split; [lia|]. auto. }
  right. split; [done|]. split; [done|]. intros q Hq.
  destruct (decide (q < last)); [apply H2|apply H1]; lia.
Qed.

(** What an allocation did: [a] is the address returned. *)
Definition granted (n first cap : Z) (b b' : bitmap) (a : Z) : Prop :=
  exists page, a = page * PAGE_SIZE /\ first <= page /\ page + n < cap /\
    run_free b page n /\ marks true page n b b'.

Lemma take_user_spec m page n :
  user_ok m -> 0 < n -> START_UMEM (params m) / PAGE_SIZE <= page ->
  page + n + 1 <= NR_MEM_MAP (params m) * PAGE_BITS -> ALLOC_PAGES m + n <= 1073741824 ->
  exists b', take_user page n m =
    Ret (page * PAGE_SIZE, set_user b' (ALLOC_PAGES m + n) (page + n + 1) m) /\
    covers b' (NR_MEM_MAP (params m) * PAGE_BITS) /\ marks true page n (mem_map m) b'.
Proof.
  intros [_ [Hc Hcap Hf Hl Hlim Ha]] Hn Hp He Hal.
  destruct (set_run_spec (Z.to_nat n) _ _ page 0 Hc) as (b' & E & Hc' & Hm); [lia..|].
  rewrite Z.add_0_r, Z2Nat.id in Hm by lia. exists b'.
  unfold take_user, PAGE_SIZE, mbind, st_bind, get, lift, put, mret, st_ret in *. rewrite E.
  rewrite i32_small, !u32_small by lia. auto.
Qed.

Lemma take_kernel_spec m page n :
  kernel_ok m -> 0 < n -> START_KMEM (params m) / PAGE_SIZE <= page ->
  page + n + 1 <= NR_MEM_MAP (params m) * PAGE_BITS -> KALLOC_PAGES m + n <= 1073741824 ->
  exists b', take_kernel page n m =
    Ret (page * PAGE_SIZE, set_kernel b' (KALLOC_PAGES m + n) (page + n + 1) m) /\
    covers b' (NR_MEM_MAP (params m) * PAGE_BITS) /\ marks true page n (mem_map m) b'.
Proof.
  intros [Hc Hcap Hf Hl Hlim Ha] Hn Hp He Hal.
  destruct (set_run_spec (Z.to_nat n) _ _ page 0 Hc) as (b' & E & Hc' & Hm); [lia..|].
  rewrite Z.add_0_r, Z2Nat.id in Hm by lia. exists b'.
  unfold take_kernel, PAGE_SIZE, mbind, st_bind, get, lift, put, mret, st_ret in *. rewrite E.
  rewrite i32_small, !u32_small by lia. auto.
Qed.

(** The state an allocation leaves: a refusal only settles the roving pointer. *)
Lemma page_alloc_cases m n :
  user_ok m -> user_room m n ->
  exists a b' alloc' last', page_alloc n m = Ret (a, set_user b' alloc' last' m) /\
    user_ok (set_user b' alloc' last' m) /\
    ((a = 0 /\ b' = mem_map m /\ alloc' = ALLOC_PAGES m /\
      (UBYTES_FREE (params m) <= u32 (ALLOC_PAGES m * PAGE_SIZE) \/
       forall q, START_UMEM (params m) / PAGE_SIZE <= q < NR_PAGES (params m) ->
         ~ run_free (mem_map m) q n)) \/
     (0 < a /\ granted n (START_UMEM (params m) / PAGE_SIZE)
         (NR_MEM_MAP (params m) * PAGE_BITS) (mem_map m) b' a /\
      alloc' = ALLOC_PAGES m + n)).
Proof.
  intros Hok [Hroom0 (Hn & Hr1 & Hr2 & Hr3)]. pose proof Hok as [Hk [Hc Hcap Hf Hl Hlim Ha]].
  unfold page_alloc, mbind, st_bind, get, lift, put, mret, st_ret. 
  destruct (Z.leb_spec (UBYTES_FREE (params m)) (u32 (ALLOC_PAGES m * PAGE_SIZE))).
  { exists 0, (mem_map m), (ALLOC_PAGES m), (ULAST_PAGE m).
    split; [by destruct m|]. split; [done|]. left. auto. }
  set (first := START_UMEM (params m) / PAGE_SIZE) in *.
  set (last := if ULAST_PAGE m =? 0 then first else ULAST_PAGE m).
  assert (first <= last <= NR_MEM_MAP (params m) * PAGE_BITS /\
    last + n < NR_MEM_MAP (params m) * PAGE_BITS) as [Hlast Hlast'].
  { subst last. destruct (Z.eqb_spec (ULAST_PAGE m) 0); lia. }
  set (m1 := set_user (mem_map m) (ALLOC_PAGES m) last m).
  assert (user_ok m1) as Hok1 by (split; [done|split; simpl; auto; lia]).
  destruct (two_scans_spec (mem_map m) _ first last (NR_PAGES (params m)) n Hc)
    as [(p & Hp1 & Hp2 & Hfree & Hscan) | (-> & -> & Hnone)]; [lia..| |].
  - destruct (take_user_spec m1 p n Hok1) as (b' & E & Hc' & Hm); [done..|].
    exists (p * PAGE_SIZE), b', (ALLOC_PAGES m + n), (p + n + 1).
    split. { destruct Hscan as [-> | [-> ->]]; exact E. }
    split. { split; [done|]. split; simpl; fold first; auto; lia. }
    right. unfold PAGE_SIZE at 1. split; [lia|]. split; [|done].
    exists p. split; [done|]. split; [done|]. split; [lia|]. auto.
  - exists 0, (mem_map m), (ALLOC_PAGES m), last. split; [done|]. split; [done|]. left. auto.
Qed.

Lemma kpage_alloc_cases m n :
  kernel_ok m -> kernel_room m n ->
  exists a b' alloc' last', kpage_alloc n m = Ret (a, set_kernel b' alloc' last' m) /\
    kernel_ok (set_kernel b' alloc' last' m) /\
    ((a = 0 /\ b' = mem_map m /\ alloc' = KALLOC_PAGES m /\
      (KBYTES_FREE (params m) <= u32 (KALLOC_PAGES m * PAGE_SIZE) \/
       forall q, START_KMEM (params m) / PAGE_SIZE <= q < NR_KPAGES (params m) ->
         ~ run_free (mem_map m) q n)) \/
     (0 < a /\ granted n (START_KMEM (params m) / PAGE_SIZE)
         (NR_MEM_MAP (params m) * PAGE_BITS) (mem_map m) b' a /\
      alloc' = KALLOC_PAGES m + n)).
Proof.
  intros Hok [Hroom0 (Hn & Hr1 & Hr2 & Hr3)]. pose proof Hok as [Hc Hcap Hf Hl Hlim Ha].
  unfold kpage_alloc, mbind, st_bind, get, lift, put, mret, st_ret. 
  destruct (Z.leb_spec (KBYTES_FREE (params m)) (u32 (KALLOC_PAGES m * PAGE_SIZE))).
  { exists 0, (mem_map m), (KALLOC_PAGES m), (KLAST_PAGE m).
    split; [by destruct m|]. split; [done|]. left. auto. }
  set (first := START_KMEM (params m) / PAGE_SIZE) in *.
  set (last := if KLAST_PAGE m =? 0 then first else KLAST_PAGE m).
  assert (first <= last <= NR_MEM_MAP (params m) * PAGE_BITS /\
    last + n < NR_MEM_MAP (params m) * PAGE_BITS) as [Hlast Hlast'].
  { subst last. destruct (Z.eqb_spec (KLAST_PAGE m) 0); lia. }
  set (m1 := set_kernel (mem_map m) (KALLOC_PAGES m) last m).
  assert (kernel_ok m1) as Hok1 by (split; simpl; auto; lia).
  destruct (two_scans_spec (mem_map m) _ first last (NR_KPAGES (params m)) n Hc)
    as [(p & Hp1 & Hp2 & Hfree & Hscan) | (-> & -> & Hnone)]; [lia..| |].
  - destruct (take_kernel_spec m1 p n Hok1) as (b' & E & Hc' & Hm); [done..|].
    exists (p * PAGE_SIZE), b', (KALLOC_PAGES m + n), (p + n + 1).
    split. { destruct Hscan as [-> | [-> ->]]; exact E. }
    split. { split; simpl; fold first; auto; lia. }
    right. unfold PAGE_SIZE at 1. split; [lia|]. split; [|done].
    exists p. split; [done|]. split; [done|]. split; [lia|]. auto.
  - exists 0, (mem_map m), (KALLOC_PAGES m), last. split; [done|]. split; [done|]. left. auto.
Qed.

Lemma page_free_spec m page n :
  user_ok m -> 0 <= n <= ALLOC_PAGES m ->
  START_UMEM (params m) / PAGE_SIZE <= page <= NR_PAGES (params m) ->
  page + n <= NR_MEM_MAP (params m) * PAGE_BITS ->
  exists b', page_free (page * PAGE_SIZE) n m =
    Ret (tt, set_user b' (ALLOC_PAGES m - n) page m) /\
    user_ok (set_user b' (ALLOC_PAGES m - n) page m) /\ marks false page n (mem_map m) b'.
Proof.
  intros [Hk [Hc Hcap Hf Hl Hlim Ha]] Hn Hp He.
  destruct (clear_run_spec (Z.to_nat n) _ _ page 0 Hc) as (b' & E & Hc' & Hm); [lia..|].
  rewrite Z.add_0_r, Z2Nat.id in Hm by lia. exists b'. split; [|split; [|done]].
  - unfold page_free, mbind, st_bind, get, lift, put, mret, st_ret.
    unfold PAGE_SIZE in *. rewrite Z.div_mul by lia. rewrite Hk.
    rewrite (proj2 (Z.ltb_ge _ _)), (proj2 (Z.ltb_ge _ _)) by lia. cbn [orb].
    rewrite E, i32_small by lia. by rewrite (proj2 (Z.ltb_ge _ _)) by lia.
  - split; [done|]. split; simpl; auto; lia.
Qed.

(** ** The regions handed out

    A history of the user allocator, with the list of the regions (first page,
    number of pages) that are allocated and not freed. *)

Inductive user_step : mem * list (Z * Z) -> mem * list (Z * Z) -> Prop :=
| step_alloc m m' L n page :
    user_room m n -> page_alloc n m = Ret (page * PAGE_SIZE, m') -> page <> 0 ->
    user_step (m, L) (m', (page, n) :: L)
| step_refused m m' L n :
    user_room m n -> page_alloc n m = Ret (0, m') -> user_step (m, L) (m', L)
| step_free m m' L1 L2 page n :
    page_free (page * PAGE_SIZE) n m = Ret (tt, m') ->
    user_step (m, L1 ++ (page, n) :: L2) (m', L1 ++ L2).

(** How many live regions hold a page, and how many pages they have. *)
Fixpoint owners (L : list (Z * Z)) (i : Z) : Z :=
  match L with
  | [] => 0
  | (p, n) :: L => Z.b2z ((p <=? i) && (i <? p + n)) + owners L i
  end.

Fixpoint total (L : list (Z * Z)) : Z :=
  match L with [] => 0 | (_, n) :: L => n + total L end.

Record live_ok (m : mem) (L : list (Z * Z)) : Prop := {
  live_user : user_ok m;
  live_bits i : START_UMEM (params m) / PAGE_SIZE <= i -> owners L i = Z.b2z (in_use (mem_map m) i);
  live_total : total L = ALLOC_PAGES m;
  live_inside : Forall (fun r => START_UMEM (params m) / PAGE_SIZE <= fst r /\ 0 < snd r /\
    fst r + snd r < NR_MEM_MAP (params m) * PAGE_BITS) L
}.

Lemma owners_app L1 L2 i : owners (L1 ++ L2) i = owners L1 i + owners L2 i.
Proof. induction L1 as [|[p n] L1 IH]; simpl; lia. Qed.

Lemma owners_nonneg L i : 0 <= owners L i.
Proof. induction L as [|[p n] L IH]; simpl; [lia|]. destruct (_ && _); simpl; lia. Qed.

Lemma total_app L1 L2 : total (L1 ++ L2) = total L1 + total L2.
Proof. induction L1 as [|[p n] L1 IH]; simpl; lia. Qed.

Lemma total_nonneg (P : Z * Z -> Prop) L : (forall r, P r -> 0 < snd r) -> Forall P L -> 0 <= total L.
Proof.
  intros HP. induction 1 as [|[p n] L Hr _ IH]; simpl; [lia|]. specialize (HP _ Hr). simpl in HP. lia.
Qed.

Lemma b2z_inj a b : Z.b2z a = Z.b2z b -> a = b.
Proof. by destruct a, b. Qed.

Lemma live_alloc m m' L n page :
  live_ok m L -> user_room m n -> page_alloc n m = Ret (page * PAGE_SIZE, m') -> page <> 0 ->
  live_ok m' ((page, n) :: L).
Proof.
  intros [Hok Hbits Htot Hin] Hroom E Hp.
  destruct (page_alloc_cases m n Hok Hroom) as (a & b' & al & la & E' & Hok' & H).
  rewrite E in E'. injection E' as <- ->.
  destruct H as [(Ha & _) | (_ & (p & Ep & Hfirst & Hcap & Hfree & Hm) & ->)];
    [unfold PAGE_SIZE in Ha; lia|].
  assert (p = page) as -> by (unfold PAGE_SIZE in Ep; lia).
  destruct Hroom as (Hr0 & Hn & Hr1 & Hr2 & Hr3). split; [done|..]; cbn [params mem_map ALLOC_PAGES set_user].
  - intros i Hi. cbn [owners]. rewrite Hbits, Hm by (done || pose proof (pool_first _ _ _ _ _ _ (proj2 Hok)); lia).
    destruct (Z.leb_spec page i), (Z.ltb_spec i (page + n)); simpl; try lia.
    rewrite Hfree by lia. done.
  - cbn [total]. lia.
  - constructor; [simpl|done].
    split; [done|]. split; [done|]. lia.
Qed.

Lemma live_free m m' L1 L2 page n :
  live_ok m (L1 ++ (page, n) :: L2) -> page_free (page * PAGE_SIZE) n m = Ret (tt, m') ->
  live_ok m' (L1 ++ L2).
Proof.
  intros [Hok Hbits Htot Hin] E. pose proof (pool_first _ _ _ _ _ _ (proj2 Hok)) as Hfirst.
  pose proof Hin as (H1 & [(Hr1 & Hr2 & Hr3) H2]%Forall_cons)%Forall_app. simpl in Hr1, Hr2, Hr3.
  rewrite total_app in Htot. cbn [total] in Htot.
  assert (0 <= total L1 /\ 0 <= total L2) as [Ht1 Ht2].
  { split; (eapply total_nonneg; [|eassumption]); simpl; tauto. }
  assert (page <= NR_PAGES (params m)) as Hle.
  { unfold page_free, mbind, st_bind, get in E. unfold PAGE_SIZE in E. rewrite Z.div_mul in E by lia.
    destruct (Z.ltb_spec (NR_PAGES (params m)) page); [|lia].
    by rewrite orb_true_r in E. }
  destruct (page_free_spec m page n Hok) as (b' & E' & Hok' & Hm); [lia..|].
  rewrite E in E'. injection E' as ->. split; [done|..]; cbn [params mem_map ALLOC_PAGES set_user].
  - intros i Hi. rewrite Hm by lia. pose proof (Hbits i Hi) as Hb. rewrite owners_app in *.
    cbn [owners] in Hb. pose proof (owners_nonneg L1 i). pose proof (owners_nonneg L2 i).
    destruct ((page <=? i) && (i <? page + n)); [|simpl in Hb; lia].
    destruct (in_use (mem_map m) i); simpl in *; lia.
  - rewrite total_app. lia.
  - by apply Forall_app.
Qed.

Lemma live_step s s' : user_step s s' -> live_ok (fst s) (snd s) -> live_ok (fst s') (snd s').
Proof.
  intros Hstep Hl. inversion Hstep as [m m' L n page Hroom E Hp|m m' L n Hroom E|m m' L1 L2 page n E];
    subst; simpl in *.
  - by eapply live_alloc.
  - destruct Hl as [Hok Hbits Htot Hin].
    destruct (page_alloc_cases m n Hok Hroom) as (a & b' & al & la & E' & Hok' & H).
    rewrite E in E'. injection E' as <- ->. destruct H as [(_ & -> & -> & _) | (Ha & _)]; [|lia].
    split; done.
  - by eapply live_free.
Qed.

Lemma live_steps s s' : rtc user_step s s' -> live_ok (fst s) (snd s) -> live_ok (fst s') (snd s').
Proof. induction 1 as [|s1 s2 s3 H _ IH]; [done|]. intros Hl. apply IH. by eapply live_step. Qed.

(** A state in which no user page is allocated. *)
Definition user_fresh (m : mem) : Prop :=
  user_ok m /\ ALLOC_PAGES m = 0 /\
  forall i, START_UMEM (params m) / PAGE_SIZE <= i -> in_use (mem_map m) i = false.

Lemma live_fresh m : user_fresh m -> live_ok m [].
Proof. intros (Hok & Ha & Hf). split; [done| |done|constructor]. intros i Hi. by rewrite Hf. Qed.

(** C13: whatever the history of allocations and releases of user pages, no page
    is in two live regions, the pages marked in use are those of the live
    regions, and the count of allocated pages is their total. *)
Theorem page_alloc_exclusive m0 m L :
  user_fresh m0 -> rtc user_step (m0, []) (m, L) ->
  (forall i, START_UMEM (params m) / PAGE_SIZE <= i ->
     owners L i <= 1 /\ (in_use (mem_map m) i = true <-> owners L i = 1)) /\
  get_nr_allocated_pages m = Ret (u32 (total L), m).
Proof.
  intros Hf Hs. pose proof (live_steps _ _ Hs (live_fresh _ Hf)) as [_ Hb Ht _]. simpl in Hb, Ht.
  split; [|by rewrite Ht]. intros i Hi. rewrite Hb by done. destruct (in_use (mem_map m) i); simpl; split; done || lia.
Qed.

(** C14: an allocation either returns 0, changes no page, and does so only when
    the free bytes are used up or no run of that many free pages starts in the
    pool; or it returns the address of a run of pages that were all free, and
    marks exactly these. *)
Theorem page_alloc_correct m n :
  user_ok m -> user_room m n ->
  exists a m', page_alloc n m = Ret (a, m') /\ user_ok m' /\ params m' = params m /\
    if a =? 0 then
      mem_map m' = mem_map m /\ ALLOC_PAGES m' = ALLOC_PAGES m /\
      (UBYTES_FREE (params m) <= u32 (ALLOC_PAGES m * PAGE_SIZE) \/
       forall q, START_UMEM (params m) / PAGE_SIZE <= q < NR_PAGES (params m) ->
         ~ run_free (mem_map m) q n)
    else granted n (START_UMEM (params m) / PAGE_SIZE) (NR_MEM_MAP (params m) * PAGE_BITS)
           (mem_map m) (mem_map m') a /\
         ALLOC_PAGES m' = ALLOC_PAGES m + n.
Proof.
  intros Hok Hroom. destruct (page_alloc_cases m n Hok Hroom) as (a & b' & al & la & E & Hok' & H).
  exists a, (set_user b' al la m). split; [done|]. split; [done|]. split; [done|].
  destruct H as [(-> & -> & -> & H) | (Ha & H & ->)]; [done|].
  destruct (Z.eqb_spec a 0); [lia|done].
Qed.

(** The kernel allocator keeps the same contract on its own pool. *)
Theorem kpage_alloc_correct m n :
  kernel_ok m -> kernel_room m n ->
  exists a m', kpage_alloc n m = Ret (a, m') /\ kernel_ok m' /\ params m' = params m /\
    if a =? 0 then
      mem_map m' = mem_map m /\ KALLOC_PAGES m' = KALLOC_PAGES m /\
      (KBYTES_FREE (params m) <= u32 (KALLOC_PAGES m * PAGE_SIZE) \/
       forall q, START_KMEM (params m) / PAGE_SIZE <= q < NR_KPAGES (params m) ->
         ~ run_free (mem_map m) q n)
    else granted n (START_KMEM (params m) / PAGE_SIZE) (NR_MEM_MAP (params m) * PAGE_BITS)
           (mem_map m) (mem_map m') a /\
         KALLOC_PAGES m' = KALLOC_PAGES m + n.
Proof.
  intros Hok Hroom. destruct (kpage_alloc_cases m n Hok Hroom) as (a & b' & al & la & E & Hok' & H).
  exists a, (set_kernel b' al la m). split; [done|]. split; [done|]. split; [done|].
  destruct H as [(-> & -> & -> & H) | (Ha & H & ->)]; [done|].
  destruct (Z.eqb_spec a 0); [lia|done].
Qed.

Lemma page_alloc_fresh m n :
  user_fresh m -> ULAST_PAGE m = 0 -> user_room m n -> 0 < UBYTES_FREE (params m) ->
  START_UMEM (params m) / PAGE_SIZE < NR_PAGES (params m) ->
  exists m', page_alloc n m = Ret (START_UMEM (params m) / PAGE_SIZE * PAGE_SIZE, m') /\
    ALLOC_PAGES m' = n.
Proof.
  intros (Hok & Ha & Hfree) Hu [Hr0 (Hn & Hr1 & Hr2 & Hr3)] Hub Hlt.
  pose proof Hok as [Hk [Hc Hcap Hf Hl Hlim _]].
  unfold page_alloc, mbind, st_bind, get, lift, put, mret, st_ret.
  rewrite Ha, Hu. change (u32 (0 * PAGE_SIZE)) with 0. change (0 =? 0) with true.
  destruct (Z.leb_spec (UBYTES_FREE (params m)) 0); [lia|].
  set (first := START_UMEM (params m) / PAGE_SIZE) in *.
  set (m1 := set_user (mem_map m) 0 first m).
  destruct (scan_spec (mem_map m) _ first (NR_PAGES (params m)) n Hc) as (o & -> & Ho); [lia..|].
  assert (forall q, first <= q -> run_free (mem_map m) q n) as Hall.
  { intros q Hq i Hi. apply Hfree. lia. }
  destruct o as [p|].
  - destruct Ho as (Hp & _ & _ & Hmin).
    destruct (decide (p = first)) as [-> | ]; [|by destruct (Hmin ltac:(lia) first); [lia|apply Hall]].
    destruct (take_user_spec m1 first n) as (b' & E & _); [|simpl; fold first; lia..|].
    { split; [done|]. split; simpl; fold first; auto; lia. }
    eexists. split; [exact E|]. done.
  - destruct (Ho ltac:(lia) first); [lia|]. apply Hall. lia.
Qed.

(** The size of a request is never compared with the memory there is: with
    no user page allocated any request that stays inside the bitmap is granted,
    from the first user page on, however far past the last page it reaches. *)
Theorem page_alloc_overcommits m n :
  user_fresh m -> ULAST_PAGE m = 0 -> user_room m n -> 0 < UBYTES_FREE (params m) ->
  START_UMEM (params m) / PAGE_SIZE < NR_PAGES (params m) ->
  exists m', page_alloc n m = Ret (START_UMEM (params m) / PAGE_SIZE * PAGE_SIZE, m') /\
    ALLOC_PAGES m' = n.
Proof. apply page_alloc_fresh. Qed.

(** Releasing a region just allocated gives back the bitmap and the count
    of before, when the region starts no further than the last page. *)
Theorem page_free_alloc m n a m1 :
  user_ok m -> user_room m n -> page_alloc n m = Ret (a, m1) -> a <> 0 ->
  a <= NR_PAGES (params m) * PAGE_SIZE ->
  exists m2, page_free a n m1 = Ret (tt, m2) /\ ALLOC_PAGES m2 = ALLOC_PAGES m /\
    forall i, 0 <= i -> in_use (mem_map m2) i = in_use (mem_map m) i.
Proof.
  intros Hok Hroom E Ha Hle.
  destruct (page_alloc_cases m n Hok Hroom) as (a' & b' & al & la & E' & Hok' & H).
  rewrite E in E'. injection E' as <- ->.
  destruct H as [(-> & _) | (_ & (p & -> & Hp & Hcap & Hfree & Hm) & ->)]; [done|].
  pose proof (pool_alloc _ _ _ _ _ _ (proj2 Hok)). pose proof (pool_first _ _ _ _ _ _ (proj2 Hok)).
  destruct Hroom as (_ & Hn & _). unfold PAGE_SIZE in Hle.
  destruct (page_free_spec _ p n Hok') as (b2 & -> & _ & Hm2);
    cbn [params ALLOC_PAGES set_user]; [lia..|].
  eexists. split; [done|]. cbn [ALLOC_PAGES mem_map set_user]. split; [lia|].
  intros i Hi. rewrite Hm2 by done. cbn [mem_map set_user]. rewrite Hm by done.
  destruct ((p <=? i) && (i <? p + n)) eqn:Ei; [|done]. symmetry. apply Hfree.
  apply andb_prop in Ei as [?%Z.leb_le ?%Z.ltb_lt]. lia.
Qed.

(** ** Start-up *)

Lemma clear_bytes_lookup k : forall b page bit j,
  clear_bytes b page bit k !! j =
    if decide (j.1 = page /\ bit <= j.2 < bit + Z.of_nat k) then Some 0 else b !! j.
Proof.
  induction k as [|k IH]; intros b page bit [pg bt]; cbn [clear_bytes fst snd].
  { rewrite decide_False by lia. done. }
  rewrite IH. cbn [fst snd]. repeat case_decide; try lia; [done| |].
  - replace bt with bit by lia. replace pg with page by lia. by rewrite lookup_insert_eq.
  - rewrite lookup_insert_ne; [done|]. intros [= <- <-]. lia.
Qed.

Lemma clear_blocks_lookup k : forall b page j,
  clear_blocks b page k !! j =
    if decide (page <= j.1 < page + Z.of_nat k /\ 0 <= j.2 < PAGE_SIZE) then Some 0 else b !! j.
Proof.
  induction k as [|k IH]; intros b page [pg bt]; cbn [clear_blocks fst snd].
  { rewrite decide_False by lia. done. }
  rewrite IH, clear_bytes_lookup. cbn [fst snd]. rewrite Z2Nat.id by done.
  repeat case_decide; lia || done.
Qed.

Lemma clear_blocks_covers k :
  Z.of_nat k <= 32 -> covers (clear_blocks ∅ 0 k) (Z.of_nat k * PAGE_BITS) /\
  forall i, in_use (clear_blocks ∅ 0 k) i = false.
Proof.
  intros Hk. split.
  - split; [unfold PAGE_BITS; lia|]. intros page Hp. unfold page_key. rewrite clear_blocks_lookup.
    unfold PAGE_BITS, BITS_PER_BYTE, PAGE_SIZE in *. cbn [fst snd]. rewrite decide_True; [eauto|].
    pose proof (Z.mod_pos_bound page 32768). split; split;
      [apply Z.div_pos; lia|apply Z.div_lt_upper_bound; lia|apply Z.div_pos; lia|
       apply Z.div_lt_upper_bound; lia].
  - intros i. unfold in_use. rewrite clear_blocks_lookup. case_decide; [apply Z.bits_0|].
    by rewrite lookup_empty.
Qed.

Lemma entry_spec frame :
  0 <= frame < 4294967296 -> frame mod 4096 = 0 ->
  kernel_entry frame = frame + 3 /\ user_entry frame = frame + 7.
Proof.
  intros Hf Ha. split; unfold kernel_entry, user_entry, PT_SET_FRAME; cbn [Z.land Z.lor];
    [change (Z.land _ (u32 (Z.lnot _))) with 3 | change (Z.land _ (u32 (Z.lnot _))) with 7];
    apply (lor_aligned 12); done || lia.
Qed.

Lemma fill_table_lookup limit k : forall t i frame j,
  0 <= frame -> frame + Z.of_nat k * 4096 <= 4294967296 ->
  fill_table t i frame limit k !! j =
    if decide (i <= j < i + Z.of_nat k) then
      Some (if j <? limit then kernel_entry (frame + (j - i) * 4096)
            else user_entry (frame + (j - i) * 4096))
    else t !! j.
Proof.
  induction k as [|k IH]; intros t i frame j Hf Hk; cbn [fill_table].
  { rewrite decide_False by lia. done. }
  destruct (decide (k = 0%nat)) as [-> | ].
  - cbn [fill_table]. case_decide.
    + replace j with i by lia. rewrite lookup_insert_eq. by replace (frame + (i - i) * 4096) with frame by lia.
    + by rewrite lookup_insert_ne by lia.
  - unfold PAGE_SIZE. rewrite u32_small by lia. rewrite IH by lia.
    repeat case_decide; try lia.
    + by replace (frame + 4096 + (j - (i + 1)) * 4096) with (frame + (j - i) * 4096) by lia.
    + replace j with i by lia. rewrite lookup_insert_eq. by replace (frame + (i - i) * 4096) with frame by lia.
    + by rewrite lookup_insert_ne by lia.
Qed.

Lemma end_kmem_loop_done fuel e s : s < e -> end_kmem_loop fuel e s = Ret e.
Proof. intros H. destruct fuel; simpl; by rewrite (proj2 (Z.leb_gt _ _)) by lia. Qed.

(** The parameters of a machine with [M] megabytes: the kernel image, the page
    tables and the bitmap end below 16 MB, where user memory starts. *)
Lemma mem_parameters_spec M :
  17 <= M <= 4095 ->
  exists p, mem_parameters (M * ONE_MEG) = Ret p /\
    MEM_SIZE p = M * ONE_MEG /\ NR_PAGES p = M * 256 /\ NR_KPAGES p = 4096 /\
    0 < NR_MEM_MAP p <= 32 /\ M * 256 <= NR_MEM_MAP p * PAGE_BITS < M * 256 + 32768 /\
    NR_PAGE_TABLES p = M / 4 /\ START_UMEM p = 16777216 /\ END_KMEM p = 16777216 /\
    2097152 < START_KMEM p < 16777216 /\ START_KMEM p mod 4096 = 0 /\
    UBYTES_FREE p = (M - 16) * ONE_MEG /\ KERNEL_PAGE_TABLE p = 2101248.
Proof.
  intros HM. unfold mem_parameters, PAGE_SIZE, BITS_PER_BYTE, PAGE_TABLE_SIZE, KERNEL_END.
  change ONE_MEG with 1048576.
  replace (M * 1048576 / 4096) with (M * 256) by (rewrite <- (Z.div_mul (M * 256) 4096) by lia; f_equal; lia).
  replace (M * 256 / 8) with (M * 32) by (rewrite <- (Z.div_mul (M * 32) 8) by lia; f_equal; lia).
  replace (M * 256 / 1024) with (M / 4) by (change 1024 with (4 * 256); by rewrite Z.div_mul_cancel_r by lia).
  set (nmm := M * 32 / 4096 + (if M * 32 mod 4096 =? 0 then 0 else 1)).
  assert (0 < nmm <= 32 /\ M * 256 <= nmm * 32768 < M * 256 + 32768) as [Hn1 Hn2].
  { subst nmm. pose proof (Z.div_mod (M * 32) 4096). pose proof (Z.mod_pos_bound (M * 32) 4096).
    destruct (Z.eqb_spec (M * 32 mod 4096) 0); lia. }
  assert (0 <= M / 4 < 1024) as Hq by (split; [apply Z.div_pos|apply Z.div_lt_upper_bound]; lia).
  rewrite (u32_small (M / 4 * 4096)), (u32_small (2 * 1048576 + _)) by lia.
  assert (forall x, 0 <= x < 16777216 - 4096 ->
    page_round_up x mod 4096 = 0 /\ x <= page_round_up x < x + 4096) as Hround.
  { intros x Hx. unfold page_round_up, PAGE_SIZE. destruct (Z.eqb_spec (x mod 4096) 0); [lia|].
    pose proof (Z.div_mod x 4096). pose proof (Z.mod_pos_bound x 4096).
    rewrite (u32_small (x / 4096 + 1)), u32_small by lia. rewrite Z.mod_mul by lia. lia. }
  set (rke := page_round_up (2 * 1048576 + _)).
  assert (2097152 < rke < 2097152 + 4194304 + 8192) as Hrke.
  { destruct (Hround (2 * 1048576 + (M * 256 * 4 + 4096))); [lia|]. subst rke. lia. }
  rewrite (u32_small (M / 4 * 4096 + rke)), (u32_small (_ + _ + nmm * 4096)) by lia.
  set (sk := page_round_up (_ + _ + _)).
  assert (sk mod 4096 = 0 /\ 2097152 < sk < 16777216) as [Hsk1 Hsk2].
  { destruct (Hround (M / 4 * 4096 + rke + nmm * 4096)); [lia|]. subst sk. lia. }
  unfold ONE_FULL_PAGE_TABLE_BYTES. rewrite end_kmem_loop_done by lia.
  cbn [mbind outcome_bind]. eexists. split; [reflexivity|]. cbn.
  unfold PAGE_BITS. rewrite (u32_small (M * 1048576 - _)) by lia. repeat split; lia || done.
Qed.

(** The state [mem_init] leaves. *)
Record mem_ready (M : Z) (m : mem) : Prop := {
  ready_user : user_fresh m;
  ready_kernel : kernel_ok m;
  ready_reserved i : 0 <= i -> in_use (mem_map m) i = (i <? START_KMEM (params m) / PAGE_SIZE);
  ready_counts : KALLOC_PAGES m = 0 /\ ULAST_PAGE m = 0 /\ KLAST_PAGE m = 0;
  ready_params : NR_PAGES (params m) = M * 256 /\ NR_KPAGES (params m) = 4096 /\
    NR_PAGE_TABLES (params m) = M / 4 /\ START_UMEM (params m) = 16777216 /\
    UBYTES_FREE (params m) = (M - 16) * ONE_MEG /\
    M * 256 <= NR_MEM_MAP (params m) * PAGE_BITS < M * 256 + 32768 /\
    KERNEL_PAGE_TABLE (params m) = 2101248;
  ready_pt j : page_table m !! j =
    if decide (0 <= j < M * 256) then
      Some (j * 4096 + (if j <? 4096 then 3 else 7)) else None;
  ready_pd j : page_dir m !! j =
    if decide (0 <= j < M / 4) then
      Some (2101248 + j * 4096 + (if j <? 4 then 3 else 7)) else None;
  ready_gdt : GDT_MAP m = replicate 6 1 ++ replicate (Z.to_nat Nr_GDT - 6) 0
}.

Lemma filled_table_spec base limit k j :
  0 <= base -> base mod 4096 = 0 -> base + Z.of_nat k * 4096 <= 4294967296 ->
  fill_table ∅ 0 base limit k !! j =
    if decide (0 <= j < Z.of_nat k) then
      Some (base + j * 4096 + (if j <? limit then 3 else 7)) else None.
Proof.
  intros Hb Ha Hk. rewrite fill_table_lookup by lia. rewrite Z.add_0_l, Z.sub_0_r, lookup_empty.
  case_decide; [|done].
  destruct (entry_spec (base + j * 4096)) as [-> ->]; [lia|by rewrite Z.mod_add by lia|].
  by destruct (j <? limit).
Qed.

Lemma mem_init_ready M :
  17 <= M <= 4095 -> exists m, mem_init (M * ONE_MEG) = Ret m /\ mem_ready M m.
Proof.
  intros HM. destruct (mem_parameters_spec M HM)
    as (p & E & E1 & E2 & E3 & E4 & E5 & E6 & E7 & E8 & E9 & E10 & E11 & E12).
  unfold mem_init. rewrite E. cbn [mbind outcome_bind].
  destruct (clear_blocks_covers (Z.to_nat (NR_MEM_MAP p))) as [Hc Hz]; [lia|].
  rewrite Z2Nat.id in Hc by lia.
  assert (0 < START_KMEM p / PAGE_SIZE < 4096) as Hsk.
  { unfold PAGE_SIZE. pose proof (Z.div_mod (START_KMEM p) 4096).
    pose proof (Z.mod_pos_bound (START_KMEM p) 4096). lia. }
  destruct (set_run_spec (Z.to_nat (START_KMEM p / PAGE_SIZE)) _ _ 0 0 Hc) as (b & -> & Hcb & Hm); [lia..|].
  rewrite Z.add_0_l, Z2Nat.id in Hm by lia. cbn [mbind outcome_bind].
  assert (forall i, 0 <= i -> in_use b i = (i <? START_KMEM p / PAGE_SIZE)) as Hbits.
  { intros i Hi. rewrite Hm, Hz, Z.add_0_l by lia. rewrite (proj2 (Z.leb_le _ _)) by lia.
    by destruct (i <? _). }
  assert (0 <= M / 4 < 1024) as Hq by (split; [apply Z.div_pos|apply Z.div_lt_upper_bound]; lia).
  eexists. split; [reflexivity|]. change (START_UMEM p / PAGE_SIZE) with (START_UMEM p / 4096) in *.
  assert (NR_MEM_MAP p * PAGE_BITS <= 1048576) as Hcap by (unfold PAGE_BITS; lia).
  split; cbn [params mem_map ALLOC_PAGES KALLOC_PAGES KLAST_PAGE ULAST_PAGE page_table page_dir GDT_MAP].
  - split; [|split; [done|]].
    + split; cbn; [rewrite E7, E3; done|]. rewrite E7, E2. change (16777216 / PAGE_SIZE) with 4096.
      split; auto; lia.
    + cbn. rewrite E7. change (16777216 / PAGE_SIZE) with 4096. intros i Hi. rewrite Hbits by lia.
      apply Z.ltb_ge. lia.
  - unfold kernel_ok. cbn. rewrite E3. split; auto; lia.
  - done.
  - done.
  - auto 10.
  - intros j. rewrite E2, E8. rewrite filled_table_spec by (done || lia). rewrite Z2Nat.id by lia. done.
  - intros j. rewrite E6, E8, E12. rewrite filled_table_spec by (done || lia). rewrite Z2Nat.id by lia. done.
  - done.
Qed.

(** C15: on a machine with [M] megabytes (17 to 4095) [mem_init] succeeds; user
    memory starts at 16 MB, exactly the pages below the kernel heap are marked
    in use, both allocators are ready, and the page table maps every page of
    memory onto itself, the pages below 16 MB for the kernel only. *)
Theorem mem_init_correct M :
  17 <= M <= 4095 ->
  exists m, mem_init (M * ONE_MEG) = Ret m /\
    user_fresh m /\ kernel_ok m /\ START_UMEM (params m) = 16777216 /\
    (forall i, 0 <= i -> in_use (mem_map m) i = (i <? START_KMEM (params m) / PAGE_SIZE)) /\
    (forall i, 0 <= i < M * 256 ->
       page_table m !! i = Some (i * 4096 + (if i <? 4096 then 3 else 7))).
Proof.
  intros HM. destruct (mem_init_ready M HM) as (m & E & H). exists m. split; [done|].
  destruct H as [Hu Hk Hr _ (_ & _ & _ & Hs & _) Hpt _ _].
  split; [done|]. split; [done|]. split; [done|]. split; [done|].
  intros i Hi. by rewrite Hpt, decide_True.
Qed.

Lemma mem_init_correct_witness :
  17 <= 32 <= 4095 /\ exists m, mem_init 33554432 = Ret m /\ kernel_ok m.
Proof.
  split; [lia|]. destruct (mem_init_correct 32) as (m & E & _ & H & _); [lia|].
  exists m. split; [exact E|exact H].
Defined.

(** The walk of the two tables that the processor does for an address: the
    directory entry names a page of the table, whose entry names the frame. *)
Definition translate (m : mem) (virt : Z) : option Z :=
  match page_dir m !! PD_INDEX virt with
  | Some pde =>
      let table := Z.land pde 0xFFFFF000 in
      let entry := (table - KERNEL_PAGE_TABLE (params m)) / 4 + PT_INDEX virt in
      match page_table m !! entry with
      | Some pte =>
          if Z.testbit pde 0 && Z.testbit pte 0 then
            Some (Z.lor (Z.land pte 0xFFFFF000) (Z.land virt 0xFFF))
          else None
      | None => None
      end
  | None => None
  end.

Lemma index_spec virt :
  0 <= virt < 4294967296 ->
  PD_INDEX virt = virt / 4194304 /\ PT_INDEX virt = (virt / 4096) mod 1024.
Proof.
  intros Hv. unfold PD_INDEX, PT_INDEX. change 0x3FF with (Z.ones 10).
  rewrite !land_low, !Z.shiftr_div_pow2 by lia. change (2 ^ 22) with 4194304.
  change (2 ^ 12) with 4096. change (2 ^ 10) with 1024. split; [|done].
  rewrite Z.mod_small; [done|]. split; [apply Z.div_pos|apply Z.div_lt_upper_bound]; lia.
Qed.

Lemma entry_parts j f :
  0 <= j < 1048576 -> f = 3 \/ f = 7 ->
  Z.land (j * 4096 + f) 0xFFFFF000 = j * 4096 /\ Z.testbit (j * 4096 + f) 0 = true.
Proof.
  intros Hj Hf. split.
  - change 0xFFFFF000 with (2 ^ 32 - 2 ^ 12). rewrite land_high by (pow2; lia).
    change (2 ^ 12) with 4096. rewrite Z.add_comm, Z.mod_add, Z.mod_small by lia. lia.
  - rewrite Z.bit0_odd. replace (j * 4096 + f) with (f + 2 * (j * 2048)) by lia.
    rewrite Z.odd_add_mul_2. by destruct Hf as [-> | ->].
Qed.

Lemma flags_cases (b : bool) : (if b then 3 else 7) = 3 \/ (if b then 3 else 7) = 7.
Proof. destruct b; auto. Qed.

(** The tables [mem_init] builds are the identity on all the memory that
    whole page tables cover; what is left, when the size is not a multiple of
    4 MB, is mapped by no directory entry although the allocator owns it. *)
Theorem translate_identity M m virt :
  17 <= M <= 4095 -> mem_init (M * ONE_MEG) = Ret m -> 0 <= virt < M * ONE_MEG ->
  translate m virt = if virt <? M / 4 * 4194304 then Some virt else None.
Proof.
  intros HM E Hv. destruct (mem_init_ready M HM) as (m' & E' & H).
  rewrite E in E'. injection E' as <-.
  destruct H as [_ _ _ _ (_ & _ & _ & _ & _ & _ & Hbase) Hpt Hpd _].
  change ONE_MEG with 1048576 in Hv. destruct (index_spec virt) as [E1 E2]; [lia|].
  unfold translate. rewrite E1, E2, Hpd. pose proof (Z.div_mod virt 4194304).
  pose proof (Z.mod_pos_bound virt 4194304). pose proof (Z.div_mod M 4).
  pose proof (Z.mod_pos_bound M 4). assert (0 <= virt / 4194304) by (apply Z.div_pos; lia).
  destruct (Z.ltb_spec virt (M / 4 * 4194304)) as [Hlt | Hge];
    [rewrite decide_True by lia | rewrite decide_False by lia; done].
  set (d := virt / 4194304) in *. pose proof (flags_cases (d <? 4)) as Hfd.
  assert (2101248 + d * 4096 = (513 + d) * 4096) as Ed by lia. rewrite Ed.
  destruct (entry_parts (513 + d) _ ltac:(lia) Hfd) as [-> ->].
  rewrite Hbase. replace (((513 + d) * 4096 - 2101248) / 4) with (d * 1024)
    by (rewrite <- (Z.div_mul (d * 1024) 4) by lia; f_equal; lia).
  assert (d * 1024 + (virt / 4096) mod 1024 = virt / 4096) as ->.
  { subst d. change 4194304 with (4096 * 1024). rewrite <- Z.div_div by lia.
    pose proof (Z.div_mod (virt / 4096) 1024). lia. }
  pose proof (Z.div_mod virt 4096). pose proof (Z.mod_pos_bound virt 4096).
  rewrite Hpt, decide_True by lia. pose proof (flags_cases (virt / 4096 <? 4096)) as Hft.
  destruct (entry_parts (virt / 4096) _ ltac:(lia) Hft) as [-> ->]. cbn [andb].
  change 0xFFF with (Z.ones 12). rewrite land_low, Z.lor_comm by lia. change (2 ^ 12) with 4096.
  rewrite (lor_aligned 12); [f_equal; lia|lia|by rewrite Z.mod_mul|pow2; lia].
Qed.

(** The machine the witnesses run on: 32 megabytes, nothing allocated. *)
Lemma ready_32 : exists m, mem_init (32 * ONE_MEG) = Ret m /\ mem_ready 32 m.
Proof. apply mem_init_ready. lia. Qed.

Lemma ready_user_room M m n :
  17 <= M <= 4095 -> mem_ready M m -> 0 < n -> M * 256 + n < 8192 * 4 -> user_room m n.
Proof.
  intros HM [Hu _ _ (_ & H2 & _) (H3 & _ & _ & H4 & _ & H5 & _) _ _ _] Hn Hr.
  destruct Hu as (_ & Ha & _). split; [|split; [done|]]; rewrite ?H2, ?H3, ?H4, ?Ha;
    change (16777216 / PAGE_SIZE) with 4096; unfold PAGE_BITS in *; lia.
Qed.

Lemma ready_kernel_room M m n :
  17 <= M <= 4095 -> mem_ready M m -> 0 < n -> M * 256 + n < 8192 * 4 -> kernel_room m n.
Proof.
  intros HM [_ Hk _ (H1 & _ & H2) (_ & H3 & _ & _ & _ & H5 & _) _ _ _] Hn Hr.
  pose proof (pool_limit _ _ _ _ _ _ Hk). rewrite H3 in *.
  split; [|split; [done|]]; rewrite ?H1, ?H2, ?H3; unfold PAGE_BITS in *; lia.
Qed.

Lemma fresh_32 m n :
  mem_ready 32 m -> 0 < n < 20000 ->
  exists m', page_alloc n m = Ret (16777216, m') /\ ALLOC_PAGES m' = n.
Proof.
  intros H Hn. pose proof H as [Hu _ _ (_ & Hl & _) (H1 & _ & _ & H2 & H3 & _) _ _ _].
  pose proof (page_alloc_fresh m n Hu Hl) as P. rewrite H1, H2, H3 in P. apply P.
  - apply (ready_user_room 32); [lia|done|lia|lia].
  - reflexivity.
  - reflexivity.
Qed.

Lemma translate_identity_witness :
  exists m, mem_init 33554432 = Ret m /\ translate m 20000000 = Some 20000000.
Proof.
  destruct ready_32 as (m & E & _). exists m. split; [exact E|].
  rewrite (translate_identity 32 m 20000000 ltac:(lia) E) by (change ONE_MEG with 1048576; lia).
  reflexivity.
Defined.

Lemma page_alloc_correct_witness :
  exists m, mem_ready 32 m /\ exists a m', page_alloc 3 m = Ret (a, m') /\ user_ok m'.
Proof.
  destruct ready_32 as (m & _ & H). exists m. split; [exact H|].
  destruct (page_alloc_correct m 3) as (a & m' & E & Hok & _);
    [apply H|by apply (ready_user_room 32)|].
  exists a, m'. split; [exact E|exact Hok].
Defined.

Lemma kpage_alloc_correct_witness :
  exists m, mem_ready 32 m /\ exists a m', kpage_alloc 3 m = Ret (a, m') /\ kernel_ok m'.
Proof.
  destruct ready_32 as (m & _ & H). exists m. split; [exact H|].
  destruct (kpage_alloc_correct m 3) as (a & m' & E & Hok & _);
    [apply H|by apply (ready_kernel_room 32)|].
  exists a, m'. split; [exact E|exact Hok].
Defined.

(** 5000 pages are granted on the machine that has 4096 user pages. *)
Lemma page_alloc_overcommits_witness :
  exists m, mem_ready 32 m /\ exists m', page_alloc 5000 m = Ret (16777216, m') /\ ALLOC_PAGES m' = 5000.
Proof.
  destruct ready_32 as (m & _ & H). exists m. split; [exact H|].
  pose proof H as [Hu _ _ (_ & Hl & _) (H1 & _ & _ & H2 & H3 & _) _ _ _].
  pose proof (page_alloc_overcommits m 5000 Hu Hl) as P. rewrite H1, H2, H3 in P. apply P.
  - by apply (ready_user_room 32).
  - reflexivity.
  - reflexivity.
Defined.

Lemma page_free_alloc_witness :
  exists m m1 m2, mem_ready 32 m /\ page_alloc 3 m = Ret (16777216, m1) /\
    page_free 16777216 3 m1 = Ret (tt, m2) /\ ALLOC_PAGES m2 = ALLOC_PAGES m.
Proof.
  destruct ready_32 as (m & E0 & H). pose proof H as [Hu _ _ _ (H1 & _) _ _ _].
  destruct (fresh_32 m 3 H) as (m1 & E1 & _); [lia|].
  assert (user_room m 3) as Hr by (apply (ready_user_room 32); [lia|exact H|lia|lia]).
  assert (16777216 <= NR_PAGES (params m) * PAGE_SIZE) as Hle by (rewrite H1; unfold PAGE_SIZE; lia).
  assert (16777216 <> 0) as Hne by lia.
  destruct (page_free_alloc m 3 16777216 m1 (proj1 Hu) Hr E1 Hne Hle) as (m2 & E2 & Ha & _).
  exists m, m1, m2. split; [exact H|]. split; [exact E1|]. split; [exact E2|exact Ha].
Defined.

Lemma page_alloc_exclusive_witness :
  exists m m1, mem_ready 32 m /\ get_nr_allocated_pages m1 = Ret (3, m1) /\
    owners [(4096, 3)] 4097 <= 1.
Proof.
  destruct ready_32 as (m & E0 & H). pose proof H as [Hu _ _ _ (_ & _ & _ & H2 & _) _ _ _].
  destruct (fresh_32 m 3 H) as (m1 & E1 & _); [lia|].
  assert (user_room m 3) as Hr by (apply (ready_user_room 32); [lia|exact H|lia|lia]).
  assert (user_step (m, []) (m1, [(4096, 3)])) as Hstep.
  { change 16777216 with (4096 * PAGE_SIZE) in E1.
    assert (4096 <> 0) as Hne by lia. exact (step_alloc m m1 [] 3 4096 Hr E1 Hne). }
  destruct (page_alloc_exclusive m m1 [(4096, 3)] Hu (rtc_once _ _ Hstep)) as [P1 P2].
  exists m, m1. split; [exact H|]. split; [exact P2|]. apply P1.
  destruct (page_alloc_cases m 3) as (a & b & al & la & E & _); [apply Hu|exact Hr|].
  rewrite E1 in E. injection E as _ ->. cbn [params set_user]. by rewrite H2.
Defined.

(** ** Read-only pages *)

Definition pt_range (pt : gmap Z Z) (i : Z) (k : nat) : Prop :=
  forall j, i <= j < i + Z.of_nat k -> exists e, pt !! j = Some e /\ 0 <= e < 4294967296.

Lemma pt_range_insert pt i k x :
  pt_range pt i (S k) -> pt_range (<[i := x]> pt) (i + 1) k.
Proof. intros H j Hj. rewrite lookup_insert_ne by lia. apply H. lia. Qed.

Lemma read_only_loop_spec k : forall pt i,
  pt_range pt i k ->
  exists pt', read_only_loop pt i k = Ret pt' /\ forall j,
    pt' !! j = if decide (i <= j < i + Z.of_nat k) then PT_SET_READ_ONLY <$> pt !! j else pt !! j.
Proof.
  induction k as [|k IH]; intros pt i H.
  { exists pt. split; [done|]. intros j. by rewrite decide_False by lia. }
  cbn [read_only_loop]. destruct (H i) as (e & He & _); [lia|]. rewrite He.
  destruct (IH (<[i := PT_SET_READ_ONLY e]> pt) (i + 1)) as (pt' & -> & Hpt');
    [by apply pt_range_insert|].
  exists pt'. split; [done|]. intros j. rewrite Hpt'. destruct (decide (j = i)) as [-> | Hne].
  - rewrite decide_False, decide_True, He, lookup_insert_eq by lia. done.
  - rewrite lookup_insert_ne by done. repeat case_decide; done || lia.
Qed.

Lemma read_write_loop_spec k : forall pt i,
  pt_range pt i k ->
  exists pt', read_write_loop pt i k = Ret pt' /\ forall j,
    pt' !! j = if decide (i <= j < i + Z.of_nat k) then
      (fun e => PT_SET_ATTRIB e PTE_READ_WRITE) <$> pt !! j else pt !! j.
Proof.
  induction k as [|k IH]; intros pt i H.
  { exists pt. split; [done|]. intros j. by rewrite decide_False by lia. }
  cbn [read_write_loop]. destruct (H i) as (e & He & _); [lia|]. rewrite He.
  destruct (IH (<[i := PT_SET_ATTRIB e PTE_READ_WRITE]> pt) (i + 1)) as (pt' & -> & Hpt');
    [by apply pt_range_insert|].
  exists pt'. split; [done|]. intros j. rewrite Hpt'. destruct (decide (j = i)) as [-> | Hne].
  - rewrite decide_False, decide_True, He, lookup_insert_eq by lia. done.
  - rewrite lookup_insert_ne by done. repeat case_decide; done || lia.
Qed.

Lemma read_only_testbit e i :
  0 <= i < 32 -> Z.testbit (PT_SET_READ_ONLY e) i = Z.testbit e i && negb (i =? 1).
Proof.
  intros Hi. unfold PT_SET_READ_ONLY. rewrite Z.land_spec, uwrap_testbit, Z.lnot_spec by lia.
  change 2 with (2 ^ 1). by rewrite Z.pow2_bits_eqb, Z.eqb_sym by lia.
Qed.

(** Making an entry writable again undoes making it read-only. *)
Lemma read_only_write e :
  0 <= e < 4294967296 -> Z.testbit e 1 = true ->
  PT_SET_ATTRIB (PT_SET_READ_ONLY e) PTE_READ_WRITE = e.
Proof.
  intros He H1. unfold PT_SET_ATTRIB, PTE_READ_WRITE, PT_SET_READ_ONLY.
  apply Z.bits_inj'. intros i Hi. change 2 with (2 ^ 1) at 2.
  rewrite Z.lor_spec, Z.land_spec, Z.pow2_bits_eqb by lia.
  destruct (Z.eqb_spec 1 i) as [<- | Hne]; [by rewrite orb_true_r|]. rewrite orb_false_r.
  destruct (Z.lt_ge_cases i 32).
  - rewrite uwrap_testbit, Z.lnot_spec by lia. change 2 with (2 ^ 1).
    rewrite Z.pow2_bits_false by lia. apply andb_true_r.
  - rewrite <- (Z.mod_small e (2 ^ 32)) by (pow2; lia). by rewrite Z.mod_pow2_bits_high by lia.
Qed.

(** The pages a call names are pages of the machine. *)
Definition pages_ok (m : mem) (first n : Z) : Prop :=
  0 <= first /\ 0 <= n <= NR_PAGES (params m) /\ first + n < 4294967296 /\
  pt_range (page_table m) first (Z.to_nat n).

Lemma nr_turns_small first n : 0 <= first -> 0 <= n -> first + n < 4294967296 -> nr_turns first n = Z.to_nat n.
Proof. intros. unfold nr_turns. rewrite u32_small by lia. f_equal. lia. Qed.

Lemma mem_set_read_only_spec m first n :
  pages_ok m first n ->
  exists pt, mem_set_read_only (first * PAGE_SIZE) n m = Ret (tt, set_page_table pt m) /\
    forall j, pt !! j = if decide (first <= j < first + n) then PT_SET_READ_ONLY <$> page_table m !! j
                        else page_table m !! j.
Proof.
  intros (H1 & H2 & H3 & H4). destruct (read_only_loop_spec _ _ _ H4) as (pt & E & Hpt).
  exists pt. unfold mem_set_read_only, mbind, st_bind, get, put, lift. unfold PAGE_SIZE.
  rewrite Z.div_mul, (proj2 (Z.ltb_ge _ _)), nr_turns_small, E by lia. split; [done|].
  intros j. rewrite Hpt, Z2Nat.id by lia. done.
Qed.

(** Setting a range of pages read-only clears the write bit of exactly
    their entries, and lifting the protection restores the page table. *)
Theorem mem_read_only_roundtrip m first n :
  pages_ok m first n ->
  (forall j e, first <= j < first + n -> page_table m !! j = Some e -> Z.testbit e 1 = true) ->
  exists m1 m2, mem_set_read_only (first * PAGE_SIZE) n m = Ret (tt, m1) /\
    (forall j e, page_table m1 !! j = Some e -> first <= j < first + n -> Z.testbit e 1 = false) /\
    (forall j, ~ first <= j < first + n -> page_table m1 !! j = page_table m !! j) /\
    mem_unset_read_only (first * PAGE_SIZE) n m1 = Ret (tt, m2) /\
    page_table m2 = page_table m.
Proof.
  intros Hok Hw. destruct (mem_set_read_only_spec m first n Hok) as (pt & E & Hpt).
  destruct Hok as (H1 & H2 & H3 & H4).
  assert (pt_range pt first (Z.to_nat n)) as Hr.
  { intros j Hj. destruct (H4 j Hj) as (e & He & Hb). exists (PT_SET_READ_ONLY e).
    rewrite Hpt, decide_True, He by lia. split; [done|].
    pose proof (land_range e (u32 (Z.lnot 2))). unfold PT_SET_READ_ONLY. lia. }
  destruct (read_write_loop_spec _ _ _ Hr) as (pt' & E' & Hpt').
  exists (set_page_table pt m), (set_page_table pt' (set_page_table pt m)).
  split; [exact E|]. split; [|split; [|split]].
  - intros j e He Hj. cbn in He. rewrite Hpt, decide_True in He by done.
    apply fmap_Some in He as (e0 & _ & ->). by rewrite read_only_testbit, andb_false_r by lia.
  - intros j Hj. cbn. by rewrite Hpt, decide_False.
  - unfold mem_unset_read_only, mbind, st_bind, get, put, lift. cbn [params page_table set_page_table].
    unfold PAGE_SIZE. rewrite Z.div_mul, (proj2 (Z.ltb_ge _ _)), nr_turns_small, E' by lia. done.
  - cbn. apply map_eq. intros j. rewrite Hpt', Hpt. rewrite Z2Nat.id by lia. case_decide; [|done].
    destruct (H4 j) as (e & He & Hb); [lia|]. rewrite He. simpl. f_equal.
    apply read_only_write; [done|]. eapply Hw; [done|exact He].
Qed.

Lemma mem_read_only_roundtrip_witness :
  exists m m1 m2, mem_ready 32 m /\ mem_set_read_only (5000 * PAGE_SIZE) 2 m = Ret (tt, m1) /\
    mem_unset_read_only (5000 * PAGE_SIZE) 2 m1 = Ret (tt, m2) /\ page_table m2 = page_table m.
Proof.
  destruct ready_32 as (m & _ & H). pose proof H as [_ _ _ _ (H1 & _) Hpt _ _].
  destruct (mem_read_only_roundtrip m 5000 2) as (m1 & m2 & E1 & _ & _ & E2 & E3).
  - split; [lia|]. rewrite H1. split; [lia|]. split; [lia|]. intros j Hj.
    rewrite Hpt, decide_True by lia. eexists. split; [reflexivity|].
    destruct (j <? 4096); lia.
  - intros j e Hj. rewrite Hpt, decide_True by lia. intros [= <-].
    destruct (Z.ltb_spec j 4096); [lia|]. replace (j * 4096 + 7) with (7 + 4 * (j * 1024)) by lia.
    rewrite <- (Z.mod_pow2_bits_low _ 2 1) by lia. change (2 ^ 2) with 4.
    rewrite (Z.mul_comm 4), Z.mod_add by lia. reflexivity.
  - exists m, m1, m2. split; [exact H|]. split; [exact E1|]. split; [exact E2|exact E3].
Defined.

(** ** GDT descriptors *)

Lemma alloc_gdt_loop_spec g : forall i,
  match alloc_gdt_loop i g with
  | Some (r, g') => exists k, r = i + Z.of_nat k /\ g !! k = Some 0 /\ g' = <[k := 1]> g /\
      forall j, (j < k)%nat -> g !! j <> Some 0
  | None => forall j, g !! j <> Some 0
  end.
Proof.
  induction g as [|c g IH]; intros i; simpl; [done|].
  destruct (Z.eqb_spec c 0) as [-> | Hc].
  { exists 0%nat. split; [lia|]. split; [done|]. split; [done|]. intros; lia. }
  specialize (IH (i + 1)). destruct (alloc_gdt_loop (i + 1) g) as [[r g']|].
  - destruct IH as (k & -> & Hk & -> & Hj). exists (S k). split; [lia|]. split; [done|].
    split; [done|]. intros [|j] Hlt; simpl; [congruence|]. apply Hj. lia.
  - intros [|j]; simpl; [congruence|apply IH].
Qed.

(** A descriptor is handed out once: the call returns the lowest free entry
    of the table, which was free and is now taken, and it panics exactly when
    none is free. *)
Theorem alloc_gdt_correct m :
  match alloc_gdt m with
  | Ret (i, m') => exists k, i = Z.of_nat k /\ GDT_MAP m !! k = Some 0 /\
      GDT_MAP m' = <[k := 1]> (GDT_MAP m) /\ forall j, (j < k)%nat -> GDT_MAP m !! j <> Some 0
  | Panic => forall j, GDT_MAP m !! j <> Some 0
  | _ => False
  end.
Proof.
  unfold alloc_gdt, mbind, st_bind, get. pose proof (alloc_gdt_loop_spec (GDT_MAP m) 0) as H.
  destruct (alloc_gdt_loop 0 (GDT_MAP m)) as [[i g]|]; simpl; [|done].
  destruct H as (k & -> & Hk & -> & Hj). exists k. auto.
Qed.
