(* ===== verification/Heap.v ===== *)
(** * The heap allocators ([mm/malloc.c], [mm/kmalloc.c])

    [malloc] for user memory and [kmalloc] for the kernel are one text over two
    page allocators, with tables of 65536 and of 16 entries.  An entry of a
    table is a pool of blocks of one size, each block behind a header of two
    words: the number of the entry it came from and whether it is free.

    The words of the headers are a map from addresses; what users store in
    their blocks is not modelled.  A table is a record, the list of tables is in
    the order of the links, the root first; a pointer to an entry is the number
    of tables behind its table and its index.  Masking of interrupts makes each
    call one step.  Using a null pointer that the page allocator returned is a
    fault. *)

From S2P Require Import Prelude.

Definition NR_PAGE_SIZE : Z := 4096.
Definition FREE_MEM : Z := 123456.
Definition USED_MEM : Z := 654321.
Definition sizeof_header : Z := 8.
Definition sizeof_pointer : Z := 4.

(** What the page allocators promise: [owns p L] says that the live regions are
    those of [L], from addresses to numbers of pages; as long as there is [room]
    in its own tables, a request is granted or refused. *)
Class PagePool (P : Type) := {
  block : Z -> st P Z;
  block_free : Z -> Z -> st P unit
}.

Class PagePoolLaws (P : Type) `{PagePool P} := {
  owns : P -> gmap Z Z -> Prop;
  room : P -> Prop;
  max_pages : Z;
  owns_range p L a n : owns p L -> L !! a = Some n ->
    0 < a /\ 0 < n /\ a + n * NR_PAGE_SIZE < 4294967296;
  owns_disjoint p L a n b n' : owns p L -> L !! a = Some n -> L !! b = Some n' -> a <> b ->
    a + n * NR_PAGE_SIZE <= b \/ b + n' * NR_PAGE_SIZE <= a;
  block_ok p L n : owns p L -> room p -> 0 < n <= max_pages ->
    (exists p', block n p = Ret (0, p')) \/
    (exists a p', block n p = Ret (a, p') /\ L !! a = None /\ owns p' (<[a := n]> L));
  block_free_ok p L a n : owns p L -> L !! a = Some n ->
    block_free a n p = Panic \/ exists p', block_free a n p = Ret (tt, p') /\ owns p' (delete a L)
}.

Record mem_t := Mem_t {
  size : Z;
  rsize : Z;
  nr_blocks : Z;
  nr_alloc : Z;
  nr_pages : Z;
  memory : Z
}.

Definition zero_mem : mem_t := Mem_t 0 0 0 0 0 0.

Record table_t := Table_t { nr_slots : Z; sizes : list mem_t }.

(** The statics [root], [ptr] and [nr_slot], the words of memory and the page
    allocator. *)
Record heap (P : Type) := Heap {
  tables : list table_t;
  last : option (nat * nat);
  nr_slot : Z;
  words : gmap Z Z;
  pages : P
}.
Arguments Heap {P}.
Arguments tables {P} _.
Arguments last {P} _.
Arguments nr_slot {P} _.
Arguments words {P} _.
Arguments pages {P} _.

Definition set_alloc (v : Z) (m : mem_t) : mem_t :=
  Mem_t (size m) (rsize m) (nr_blocks m) v (nr_pages m) (memory m).

(** Entry [i] of the [j]th table from the root. *)
Definition set_entry (j i : nat) (m : mem_t) (ts : list table_t) : list table_t :=
  alter (fun t => Table_t (nr_slots t) (<[i := m]> (sizes t))) j ts.
Definition add_slots (j : nat) (d : Z) (ts : list table_t) : list table_t :=
  alter (fun t => Table_t (u32 (nr_slots t + d)) (sizes t)) j ts.
Definition entry (ts : list table_t) (j i : nat) : option mem_t :=
  match ts !! j with Some t => sizes t !! i | None => None end.

Section Code.
Context {P : Type} `{PagePool P}.
(** [NR_SIZES] *)
Context (NR_SIZES : nat).

Definition set_tables (ts : list table_t) (h : heap P) : heap P :=
  Heap ts (last h) (nr_slot h) (words h) (pages h).
Definition set_last (l : nat * nat) (s : Z) (h : heap P) : heap P :=
  Heap (tables h) (Some l) s (words h) (pages h).
Definition set_words (w : gmap Z Z) (h : heap P) : heap P :=
  Heap (tables h) (last h) (nr_slot h) w (pages h).

(** A call of the page allocator. *)
Definition paged {A} (m : st P A) : st (heap P) A := fun h =>
  match m (pages h) with
  | Ret (a, p) => Ret (a, Heap (tables h) (last h) (nr_slot h) (words h) p)
  | Panic => Panic | Fault => Fault | NoFuel => NoFuel
  end.

Definition get_block (n : Z) : st (heap P) Z :=
  a ← paged (block n); if a =? 0 then fault else mret a.

(** ** Sizes *)

(** [(n / d) + ((n % d) ? 1 : 0)] *)
Definition div_up (n d : Z) : Z := n / d + (if n mod d =? 0 then 0 else 1).

Definition real_size (size : Z) : Z :=
  u32 (div_up (u32 (size + sizeof_header)) sizeof_pointer * sizeof_pointer).

Definition NR_BLOCKS (n : Z) : Z := div_up n NR_PAGE_SIZE.

(** Next pointer, count and entries of six words. *)
Definition sizeof_table : Z := 8 + 24 * Z.of_nat NR_SIZES.

(** ** Taking a block of a pool *)

(** "We can accommodate the request" and "at least one block available". *)
Definition fits (n : Z) (m : mem_t) : bool :=
  (n <=? u32 (rsize m - sizeof_header)) && (nr_alloc m <? nr_blocks m).

Fixpoint find_free (k : nat) (mptr rsize : Z) (w : gmap Z Z) : outcome (option Z) :=
  match k with
  | O => Ret None
  | S k =>
      match w !! (mptr + 4) with
      | None => Fault
      | Some f => if f =? FREE_MEM then Ret (Some mptr) else find_free k (u32 (mptr + rsize)) rsize w
      end
  end.

Definition offer (n : Z) (w : gmap Z Z) (m : mem_t) : outcome (option Z) :=
  if fits n m then find_free (Z.to_nat (nr_blocks m)) (memory m) (rsize m) w else Ret None.

(** [behind] tables are linked from the table of entry [j], [i]. *)
Definition take (j i : nat) (m : mem_t) (mptr slot : Z) : st (heap P) Z :=
  h ← get;
  let behind := (length (tables h) - 1 - j)%nat in
  _ ← put (Heap (set_entry j i (set_alloc (u32 (nr_alloc m + 1)) m) (tables h))
             (Some (behind, i)) slot
             (<[mptr := u32 slot]> (<[mptr + 4 := USED_MEM]> (words h))) (pages h));
  mret (u32 (mptr + sizeof_header)).

(** The entry the last call ended at. *)
Definition try_last (n : Z) : st (heap P) (option Z) :=
  h ← get;
  match last h with
  | None => mret None
  | Some (behind, i) =>
      let j := (length (tables h) - 1 - behind)%nat in
      m ← checked (entry (tables h) j i);
      r ← lift (offer n (words h) m);
      match r with
      | Some mptr => a ← take j i m mptr (nr_slot h); mret (Some a)
      | None => mret None
      end
  end.

Fixpoint scan_sizes (n : Z) (w : gmap Z Z) (i : nat) (l : list mem_t) : outcome (option (nat * mem_t * Z)) :=
  match l with
  | [] => Ret None
  | m :: l =>
      r ← offer n w m;
      match r with
      | Some mptr => Ret (Some (i, m, mptr))
      | None => scan_sizes n w (S i) l
      end
  end.

Fixpoint scan_tables (n : Z) (w : gmap Z Z) (j : nat) (ts : list table_t)
    : outcome (option (nat * nat * mem_t * Z)) :=
  match ts with
  | [] => Ret None
  | t :: ts =>
      r ← scan_sizes n w 0 (sizes t);
      match r with
      | Some (i, m, mptr) => Ret (Some (j, i, m, mptr))
      | None => scan_tables n w (S j) ts
      end
  end.

(** ** Making a pool *)

Fixpoint init_headers (k : nat) (mptr rsize : Z) (w : gmap Z Z) : gmap Z Z :=
  match k with
  | O => w
  | S k => init_headers k (u32 (mptr + rsize)) rsize (<[mptr + 4 := FREE_MEM]> (<[mptr := 0]> w))
  end.

(** [slot] is what is written to the first header, if anything. *)
Definition new_pool (n rsz : Z) (slot : option Z) : st (heap P) mem_t :=
  let blocks := NR_BLOCKS rsz in
  a ← get_block blocks;
  if rsz =? 0 then fault
  else
    let nb := u32 (blocks * NR_PAGE_SIZE) / rsz in
    _ ← modify (fun h =>
          let w := init_headers (Z.to_nat nb) a rsz (words h) in
          let w := <[a + 4 := USED_MEM]> w in
          set_words (match slot with Some s => <[a := u32 s]> w | None => w end) h);
    mret (Mem_t n rsz nb 1 blocks a).

(** A table whose first entry will be the new pool is linked in front. *)
Definition new_table (n rsz : Z) (slot : option Z) (number : Z) : st (heap P) Z :=
  _ ← get_block (NR_BLOCKS sizeof_table);
  _ ← modify (fun h => set_tables (Table_t 1 (replicate NR_SIZES zero_mem) :: tables h) h);
  m ← new_pool n rsz slot;
  _ ← modify (fun h => set_last ((length (tables h) - 1)%nat, O) number
                         (set_tables (set_entry 0 0 m (tables h)) h));
  mret (u32 (memory m + sizeof_header)).

Fixpoint empty_entry (i : nat) (l : list mem_t) : option nat :=
  match l with
  | [] => None
  | m :: l => if nr_blocks m =? 0 then Some i else empty_entry (S i) l
  end.

Fixpoint empty_slot (j : nat) (ts : list table_t) : option (nat * nat) :=
  match ts with
  | [] => None
  | t :: ts =>
      match (if nr_slots t =? Z.of_nat NR_SIZES then None else empty_entry 0 (sizes t)) with
      | Some i => Some (j, i)
      | None => empty_slot (S j) ts
      end
  end.

(** The number of entry [i] of the [j]th table. *)
Definition number (j i : nat) : Z := Z.of_nat NR_SIZES * Z.of_nat j + Z.of_nat i.

Definition balloc (n : Z) : st (heap P) Z :=
  let rsz := real_size n in
  r ← try_last n;
  match r with
  | Some a => mret a
  | None =>
      h ← get;
      match tables h with
      | [] => new_table n rsz None 0
      | _ =>
          r ← lift (scan_tables n (words h) 0 (tables h));
          match r with
          | Some (j, i, m, mptr) => take j i m mptr (number j i)
          | None =>
              match empty_slot 0 (tables h) with
              | Some (j, i) =>
                  _ ← modify (fun h => set_tables (add_slots j 1 (tables h)) h);
                  m ← new_pool n rsz (Some (number j i));
                  _ ← modify (fun h => set_last ((length (tables h) - 1 - j)%nat, i) (number j i)
                                         (set_tables (set_entry j i m (tables h)) h));
                  mret (u32 (memory m + sizeof_header))
              | None =>
                  let slot := number (length (tables h)) 0 in
                  new_table n rsz (Some slot) slot
              end
          end
      end
  end.

(** ** Freeing *)

Fixpoint free_loop (nr_table : Z) (i : nat) (ts : list table_t) (j : nat) (cnt : Z) : st (heap P) unit :=
  match ts with
  | [] => mret tt
  | _ :: ts =>
      _ ← (if nr_table =? u32 (Z.of_nat NR_SIZES * cnt) then
             h ← get;
             m ← checked (entry (tables h) j i);
             let m := set_alloc (u32 (nr_alloc m - 1)) m in
             _ ← put (set_tables (set_entry j i m (add_slots j (-1) (tables h))) h);
             if nr_alloc m =? 0 then
               _ ← paged (block_free (memory m) (nr_pages m));
               modify (fun h => set_tables
                 (set_entry j i (Mem_t 0 0 0 (nr_alloc m) (nr_pages m) 0) (tables h)) h)
             else mret tt
           else mret tt);
      free_loop nr_table i ts (S j) (u32 (cnt - 1))
  end.

Definition bfree (addr : Z) : st (heap P) unit :=
  h ← get;
  let hdr := u32 (addr - sizeof_header) in
  slot ← checked (words h !! hdr);
  let nr_table := slot / Z.of_nat NR_SIZES in
  let nr_slot := slot mod Z.of_nat NR_SIZES in
  _ ← put (set_words (<[hdr + 4 := FREE_MEM]> (words h)) h);
  free_loop nr_table (Z.to_nat nr_slot) (tables h) 0 nr_table.
End Code.

(** The two instances. *)
Definition MALLOC_SIZES : nat := Z.to_nat 65536.
Definition KMALLOC_SIZES : nat := 16.

Definition malloc {P} `{PagePool P} : Z -> st (heap P) Z := balloc MALLOC_SIZES.
Definition free {P} `{PagePool P} : Z -> st (heap P) unit := bfree MALLOC_SIZES.
Definition kmalloc {P} `{PagePool P} : Z -> st (heap P) Z := balloc KMALLOC_SIZES.
Definition kfree {P} `{PagePool P} : Z -> st (heap P) unit := bfree KMALLOC_SIZES.

Definition heap_boot {P} (p : P) : heap P := Heap [] None 0 ∅ p.
