(* ===== verification/HeapSpec.v ===== *)
(** * Correctness of the heap allocators

    The text shared by [malloc] and [kmalloc], over any page allocator that
    keeps the promises of [PagePoolLaws]: blocks in use never overlap, are as
    large as was asked for, and, as long as there is one table, freeing one
    releases exactly it. *)

From S2P Require Import Prelude Heap.

(** ** Counting *)

Fixpoint count (f : nat -> bool) (n : nat) : Z :=
  match n with O => 0 | S n => count f n + Z.b2z (f n) end.

Lemma count_ext f g n : (forall k, (k < n)%nat -> f k = g k) -> count f n = count g n.
Proof.
  induction n as [|n IH]; intros Hfg; [done|]. cbn [count]. rewrite IH by (intros; apply Hfg; lia).
  by rewrite Hfg by lia.
Qed.

Lemma count_update f g n k :
  (k < n)%nat -> (forall k', (k' < n)%nat -> k' <> k -> f k' = g k') ->
  count g n = count f n - Z.b2z (f k) + Z.b2z (g k).
Proof.
  induction n as [|n IH]; intros Hk Hfg; [lia|]. cbn [count].
  destruct (decide (k = n)) as [-> | Hne].
  - rewrite (count_ext f g n) by (intros; apply Hfg; lia). lia.
  - rewrite IH by (try lia; intros; apply Hfg; lia). rewrite (Hfg n) by lia. lia.
Qed.

Lemma count_bounds f n : 0 <= count f n <= Z.of_nat n.
Proof. induction n as [|n IH]; cbn [count]; [lia|]. destruct (f n); simpl; lia. Qed.

Lemma count_pos f n k : (k < n)%nat -> f k = true -> 0 < count f n.
Proof.
  induction n as [|n IH]; intros Hk Hf; [lia|]. cbn [count]. pose proof (count_bounds f n).
  destruct (decide (k = n)) as [-> | Hne]; [rewrite Hf; simpl; lia|].
  specialize (IH ltac:(lia) Hf). destruct (f n); simpl; lia.
Qed.

Lemma count_const n : count (fun _ => false) n = 0.
Proof. induction n as [|n IH]; [done|]. cbn [count]. rewrite IH. done. Qed.

(** ** Entries *)

Lemma entry_set j i m ts j' i' m' :
  entry ts j i = Some m' ->
  entry (set_entry j i m ts) j' i' = if decide ((j', i') = (j, i)) then Some m else entry ts j' i'.
Proof.
  unfold entry, set_entry. intros He. destruct (ts !! j) as [t|] eqn:Ej; [|done].
  destruct (decide (j' = j)) as [-> | Hj].
  - rewrite list_lookup_alter_eq, Ej. cbn [fmap option_fmap option_map sizes].
    destruct (decide (i' = i)) as [-> | Hi].
    + rewrite list_lookup_insert_eq by (by eapply lookup_lt_Some). by rewrite decide_True.
    + rewrite list_lookup_insert_ne by done. rewrite decide_False by congruence. done.
  - rewrite list_lookup_alter_ne by done. rewrite decide_False by congruence. done.
Qed.

Lemma entry_add_slots j d ts j' i' : entry (add_slots j d ts) j' i' = entry ts j' i'.
Proof.
  unfold entry, add_slots. destruct (decide (j' = j)) as [-> | ].
  - rewrite list_lookup_alter_eq. by destruct (ts !! j).
  - by rewrite list_lookup_alter_ne.
Qed.

Lemma entry_lt ts j i m : entry ts j i = Some m -> (j < length ts)%nat.
Proof. unfold entry. destruct (ts !! j) eqn:E; [|done]. intros _. by eapply lookup_lt_Some. Qed.

Definition all_sized (n : nat) (ts : list table_t) : Prop := Forall (fun t => length (sizes t) = n) ts.

Lemma all_sized_alter n f j ts :
  (forall t, length (sizes (f t)) = length (sizes t)) -> all_sized n ts -> all_sized n (alter f j ts).
Proof. intros Hf Hts. apply Forall_alter; [done|]. intros t _ Ht. by rewrite Hf. Qed.

Lemma all_sized_set n j i m ts : all_sized n ts -> all_sized n (set_entry j i m ts).
Proof. apply all_sized_alter. intros t. apply length_insert. Qed.

Lemma all_sized_add n j d ts : all_sized n ts -> all_sized n (add_slots j d ts).
Proof. by apply all_sized_alter. Qed.

Lemma entry_in ts n j i : all_sized n ts -> (j < length ts)%nat -> (i < n)%nat -> is_Some (entry ts j i).
Proof.
  intros Hts Hj Hi. unfold entry. destruct (lookup_lt_is_Some_2 _ _ Hj) as [t Ht]. rewrite Ht.
  apply lookup_lt_is_Some_2. unfold all_sized in Hts; rewrite Forall_lookup in Hts. by rewrite (Hts _ _ Ht).
Qed.

Lemma entry_bound ts n j i m : all_sized n ts -> entry ts j i = Some m -> (i < n)%nat.
Proof.
  unfold entry. destruct (ts !! j) as [t|] eqn:Et; [|done]. intros Hts Hm%lookup_lt_Some.
  unfold all_sized in Hts; rewrite Forall_lookup in Hts. by rewrite (Hts _ _ Et) in Hm.
Qed.

(** ** Pools *)

(** The header of block [k]. *)
Definition hdr (m : mem_t) (k : Z) : Z := memory m + k * rsize m.

Definition used (w : gmap Z Z) (m : mem_t) (k : Z) : bool :=
  bool_decide (w !! (hdr m k + 4) = Some USED_MEM).

Definition nr_used (w : gmap Z Z) (m : mem_t) : Z :=
  count (fun k => used w m (Z.of_nat k)) (Z.to_nat (nr_blocks m)).

Section Spec.
Context {P : Type} `{PagePoolLaws P} (NR : nat).
Hypothesis HNR : (0 < NR)%nat.

(** A pool lies in a live run of pages and all its headers are in order. *)
Record pool_wf (L w : gmap Z Z) (m : mem_t) : Prop := PoolWf {
  pw_run : L !! memory m = Some (nr_pages m);
  pw_rsize : 8 <= rsize m;
  pw_blocks : 0 < nr_blocks m;
  pw_inside : nr_blocks m * rsize m <= nr_pages m * NR_PAGE_SIZE;
  pw_words k : 0 <= k < nr_blocks m -> is_Some (w !! hdr m k) /\
    (w !! (hdr m k + 4) = Some FREE_MEM \/ w !! (hdr m k + 4) = Some USED_MEM)
}.

(** With a single table, the counts and the numbers in the headers are exact. *)
Record exact (h : heap P) : Prop := Exact {
  ex_alloc i m : entry (tables h) 0 i = Some m -> nr_alloc m = nr_used (words h) m;
  ex_slot i m k : entry (tables h) 0 i = Some m -> 0 <= k < nr_blocks m ->
    used (words h) m k = true -> words h !! hdr m k = Some (Z.of_nat i);
  ex_last b i : last h = Some (b, i) -> nr_slot h = Z.of_nat i
}.

Record heap_ok (L : gmap Z Z) (h : heap P) : Prop := HeapOk {
  ho_owns : owns (pages h) L;
  ho_sized : all_sized NR (tables h);
  ho_pool j i m : entry (tables h) j i = Some m ->
    0 <= nr_alloc m /\ (nr_blocks m = 0 \/ pool_wf L (words h) m);
  ho_distinct j i m j' i' m' : entry (tables h) j i = Some m -> entry (tables h) j' i' = Some m' ->
    nr_blocks m <> 0 -> nr_blocks m' <> 0 -> memory m = memory m' -> (j, i) = (j', i');
  ho_last b i : last h = Some (b, i) -> (b < length (tables h))%nat /\ (i < NR)%nat;
  ho_exact : length (tables h) = 1%nat -> exact h
}.

(** A block in use: its address and the bytes behind it. *)
Definition region (h : heap P) (a r : Z) : Prop :=
  exists j i m k, entry (tables h) j i = Some m /\ 0 <= k < nr_blocks m /\
    used (words h) m k = true /\ a = hdr m k + 8 /\ r = rsize m - 8.

(** The memory of a pool is not touched. *)
Definition agree (w w' : gmap Z Z) (m : mem_t) : Prop :=
  forall x, memory m <= x < memory m + nr_pages m * NR_PAGE_SIZE -> w' !! x = w !! x.

Lemma hdr_inside L w m k : pool_wf L w m -> 0 <= k < nr_blocks m ->
  memory m <= hdr m k /\ hdr m k + rsize m <= memory m + nr_pages m * NR_PAGE_SIZE.
Proof. intros [_ Hr Hb Hi _] Hk. unfold hdr. nia. Qed.

Lemma agree_used L w w' m k : pool_wf L w m -> agree w w' m -> 0 <= k < nr_blocks m ->
  used w' m k = used w m k.
Proof.
  intros Hwf Ha Hk. pose proof (hdr_inside _ _ _ _ Hwf Hk). pose proof (pw_rsize _ _ _ Hwf).
  unfold used. by rewrite Ha by lia.
Qed.

Lemma agree_wf L L' w w' m :
  pool_wf L w m -> agree w w' m -> L' !! memory m = Some (nr_pages m) -> pool_wf L' w' m.
Proof.
  intros Hwf Ha HL. destruct Hwf as [Hrun Hr Hb Hi Hw]. split; try done. intros k Hk.
  assert (memory m <= hdr m k /\ hdr m k + rsize m <= memory m + nr_pages m * NR_PAGE_SIZE)
    by (unfold hdr; nia).
  rewrite !Ha by lia. by apply Hw.
Qed.

Lemma agree_nr_used L w w' m : pool_wf L w m -> agree w w' m -> nr_used w' m = nr_used w m.
Proof.
  intros Hwf Ha. apply count_ext. intros k Hk. eapply agree_used; [done|done|]. lia.
Qed.

Lemma run_range L h a n : heap_ok L h -> L !! a = Some n -> 0 < a /\ 0 < n /\ a + n * NR_PAGE_SIZE < 4294967296.
Proof. intros Hok. eapply owns_range, Hok. Qed.

(** Different headers of a pool are at least eight bytes apart. *)
Lemma hdr_apart m k k' : 8 <= rsize m -> k <> k' -> hdr m k + 8 <= hdr m k' \/ hdr m k' + 8 <= hdr m k.
Proof. unfold hdr. intros. nia. Qed.

(** Writing a header does not touch another pool. *)
Lemma other_pool L h j i m j' i' m' :
  heap_ok L h -> entry (tables h) j i = Some m -> entry (tables h) j' i' = Some m' ->
  nr_blocks m <> 0 -> nr_blocks m' <> 0 -> (j', i') <> (j, i) ->
  memory m + nr_pages m * NR_PAGE_SIZE <= memory m' \/
  memory m' + nr_pages m' * NR_PAGE_SIZE <= memory m.
Proof.
  intros Hok He He' Hb Hb' Hne.
  destruct (ho_pool _ _ Hok _ _ _ He) as [_ [?|Hwf]]; [done|].
  destruct (ho_pool _ _ Hok _ _ _ He') as [_ [?|Hwf']]; [done|].
  eapply owns_disjoint; [apply Hok|apply Hwf|apply Hwf'|]. intros E. apply Hne.
  symmetry. by eapply (ho_distinct _ _ Hok).
Qed.

(** The blocks in use do not overlap, headers included. *)
Lemma region_disjoint L h a r a' r' :
  heap_ok L h -> region h a r -> region h a' r' -> a <> a' -> a + r <= a' - 8 \/ a' + r' <= a - 8.
Proof.
  intros Hok (j & i & m & k & He & Hk & _ & -> & ->) (j' & i' & m' & k' & He' & Hk' & _ & -> & ->) Hne.
  destruct (ho_pool _ _ Hok _ _ _ He) as [_ [?|Hwf]]; [lia|].
  destruct (ho_pool _ _ Hok _ _ _ He') as [_ [?|Hwf']]; [lia|].
  destruct (decide ((j', i') = (j, i))) as [[= -> ->]|Hji].
  - rewrite He in He'. injection He' as <-. pose proof (pw_rsize _ _ _ Hwf).
    unfold hdr in *. assert (k <> k') by (intros ->; lia). nia.
  - pose proof (hdr_inside _ _ _ _ Hwf Hk). pose proof (hdr_inside _ _ _ _ Hwf' Hk').
    destruct (other_pool L h j i m j' i' m') as [?|?]; [done..|lia|lia|done|lia|lia].
Qed.

(** ** Finding a block *)

Definition free_at (w : gmap Z Z) (m : mem_t) (k : Z) : Prop := w !! (hdr m k + 4) = Some FREE_MEM.

Lemma wf_range L h w m : heap_ok L h -> pool_wf L w m ->
  0 < memory m /\ memory m + nr_pages m * NR_PAGE_SIZE < 4294967296.
Proof. intros Hok Hwf. destruct (run_range _ _ _ _ Hok (pw_run _ _ _ Hwf)) as (? & _ & ?). done. Qed.

Lemma find_free_spec L h w m : heap_ok L h -> pool_wf L w m ->
  forall n k0, 0 <= k0 -> k0 + Z.of_nat n = nr_blocks m ->
  (find_free n (u32 (hdr m k0)) (rsize m) w = Ret None /\ forall k, k0 <= k < nr_blocks m -> ~ free_at w m k) \/
  exists k, find_free n (u32 (hdr m k0)) (rsize m) w = Ret (Some (hdr m k)) /\ k0 <= k < nr_blocks m /\ free_at w m k.
Proof.
  intros Hok Hwf. pose proof (wf_range _ _ _ _ Hok Hwf) as [Hm0 Hm1].
  induction n as [|n IH]; intros k0 Hk0 Hn; cbn [find_free]; [left; split; [done|lia]|].
  assert (0 <= k0 < nr_blocks m) as Hk by lia.
  pose proof (hdr_inside _ _ _ _ Hwf Hk). pose proof (pw_rsize _ _ _ Hwf).
  rewrite u32_small by lia.
  assert (u32 (hdr m k0 + rsize m) = u32 (hdr m (k0 + 1))) as ->.
  { f_equal. unfold hdr. lia. }
  destruct (pw_words _ _ _ Hwf k0 Hk) as [_ [E|E]]; rewrite E.
  - right. exists k0. split; [done|]. split; [lia|done].
  - cbn [USED_MEM FREE_MEM]. change (USED_MEM =? FREE_MEM) with false. cbn iota.
    destruct (IH (k0 + 1)) as [[-> Hnone]|(k & -> & Hk1 & Hf)]; [lia|lia| |].
    + left. split; [done|]. intros k Hkk. destruct (decide (k = k0)) as [-> |]; [|apply Hnone; lia].
      unfold free_at. rewrite E. done.
    + right. exists k. split; [done|]. split; [lia|done].
Qed.

(** What an offer gives: a free block that is large enough. *)
Definition offered (n : Z) (w : gmap Z Z) (m : mem_t) (mptr : Z) : Prop :=
  exists k, mptr = hdr m k /\ 0 <= k < nr_blocks m /\ free_at w m k /\ n <= rsize m - 8.

Lemma offer_spec L h n m : heap_ok L h ->
  0 <= nr_alloc m /\ (nr_blocks m = 0 \/ pool_wf L (words h) m) ->
  offer n (words h) m = Ret None \/
  exists mptr, offer n (words h) m = Ret (Some mptr) /\ offered n (words h) m mptr.
Proof.
  intros Hok [Ha Hm]. unfold offer, fits.
  destruct (Z.leb_spec n (u32 (rsize m - sizeof_header))) as [Hn|]; [|by left].
  destruct (Z.ltb_spec (nr_alloc m) (nr_blocks m)); [|by left]. cbn [andb].
  destruct Hm as [?|Hwf]; [lia|]. pose proof (wf_range _ _ _ _ Hok Hwf).
  pose proof (pw_blocks _ _ _ Hwf). pose proof (pw_rsize _ _ _ Hwf). pose proof (pw_inside _ _ _ Hwf).
  destruct (find_free_spec L h (words h) m Hok Hwf (Z.to_nat (nr_blocks m)) 0) as [[E _]|(k & E & Hk & Hf)];
    [lia|lia| |]; replace (hdr m 0) with (memory m) in E by (unfold hdr; lia);
    rewrite u32_small in E by (unfold NR_PAGE_SIZE in *; lia); rewrite E; [by left|].
  right. exists (hdr m k). split; [done|]. exists k. split; [done|]. split; [done|]. split; [done|].
  unfold sizeof_header in Hn. rewrite u32_small in Hn; [done|]. nia.
Qed.

(** ** Taking a block *)

Lemma used_free w m k : free_at w m k -> used w m k = false.
Proof. unfold free_at, used. intros ->. by apply bool_decide_false. Qed.

Lemma written_header w m k f s k' :
  8 <= rsize m ->
  (<[hdr m k := s]> (<[hdr m k + 4 := f]> w) : gmap Z Z) !! (hdr m k' + 4) =
    (if decide (k' = k) then Some f else w !! (hdr m k' + 4)) /\
  (<[hdr m k := s]> (<[hdr m k + 4 := f]> w) : gmap Z Z) !! hdr m k' =
    (if decide (k' = k) then Some s else w !! hdr m k').
Proof.
  intros Hr. destruct (decide (k' = k)) as [-> | Hne].
  - rewrite lookup_insert_ne by lia. by rewrite !lookup_insert_eq.
  - pose proof (hdr_apart m k k' Hr ltac:(congruence)). rewrite !lookup_insert_ne by lia. done.
Qed.

Lemma written_agree L h j i m k f s j' i' m' :
  heap_ok L h -> entry (tables h) j i = Some m -> 0 <= k < nr_blocks m ->
  entry (tables h) j' i' = Some m' -> nr_blocks m' <> 0 -> (j', i') <> (j, i) ->
  agree (words h) (<[hdr m k := s]> (<[hdr m k + 4 := f]> (words h))) m'.
Proof.
  intros Hok He Hk He' Hb' Hne x Hx.
  destruct (ho_pool _ _ Hok _ _ _ He) as [_ [?|Hwf]]; [lia|].
  pose proof (hdr_inside _ _ _ _ Hwf Hk). pose proof (pw_rsize _ _ _ Hwf).
  destruct (other_pool L h j i m j' i' m') as [?|?]; [done..|lia|done|done| |];
    rewrite !lookup_insert_ne by lia; done.
Qed.

(** Changing the count of a pool does not change its blocks. *)
Lemma set_alloc_wf L w v m : pool_wf L w m -> pool_wf L w (set_alloc v m).
Proof. by intros []. Qed.

Lemma nr_used_written w m k f s :
  8 <= rsize m -> 0 <= k < nr_blocks m ->
  nr_used (<[hdr m k := s]> (<[hdr m k + 4 := f]> w)) m =
    nr_used w m - Z.b2z (used w m k) + Z.b2z (f =? USED_MEM).
Proof.
  intros Hr Hk. unfold nr_used.
  assert (forall k', used (<[hdr m k := s]> (<[hdr m k + 4 := f]> w)) m k' =
    if decide (k' = k) then f =? USED_MEM else used w m k') as Hu.
  { intros k'. unfold used. destruct (written_header w m k f s k' Hr) as [-> _].
    destruct (decide (k' = k)); [|done].
    destruct (Z.eqb_spec f USED_MEM) as [-> | Hf]; [by rewrite bool_decide_true|].
    apply bool_decide_false. congruence. }
  rewrite (count_update (fun k => used w m (Z.of_nat k)) _ _ (Z.to_nat k)).
  - rewrite Hu, Z2Nat.id, decide_True by lia. done.
  - lia.
  - intros k' _ Hne. rewrite Hu, decide_False by lia. done.
Qed.

(** Writing one header and one count: the blocks in use change accordingly. *)
Section Touch.
Context (L : gmap Z Z) (h h' : heap P) (j i : nat) (m : mem_t) (k f s v : Z).
Hypothesis Hok : heap_ok L h.
Hypothesis He : entry (tables h) j i = Some m.
Hypothesis Hk : 0 <= k < nr_blocks m.
Hypothesis Hf : f = FREE_MEM \/ f = USED_MEM.
Hypothesis Hv : 0 <= v.
Hypothesis Hwords : words h' = <[hdr m k := s]> (<[hdr m k + 4 := f]> (words h)).
Hypothesis Hpages : pages h' = pages h.
Hypothesis Hlen : length (tables h') = length (tables h).
Hypothesis Hsized : all_sized NR (tables h').
Hypothesis Hentry : forall j' i', entry (tables h') j' i' =
  if decide ((j', i') = (j, i)) then Some (set_alloc v m) else entry (tables h) j' i'.

Lemma touch_wf : pool_wf L (words h) m.
Proof. destruct (ho_pool _ _ Hok _ _ _ He) as [_ [?|?]]; [lia|done]. Qed.

Lemma touch_self : pool_wf L (words h') (set_alloc v m).
Proof.
  pose proof touch_wf as [Hrun Hr Hb Hi Hw]. apply set_alloc_wf. split; try done.
  intros k' Hk'. rewrite Hwords. destruct (written_header (words h) m k f s k' Hr) as [-> ->].
  destruct (decide (k' = k)); [|by apply Hw]. split; [by eexists|].
  destruct Hf as [-> | ->]; auto.
Qed.

Lemma touch_agree j' i' m' :
  entry (tables h) j' i' = Some m' -> nr_blocks m' <> 0 -> (j', i') <> (j, i) ->
  agree (words h) (words h') m'.
Proof. intros. rewrite Hwords. by eapply written_agree. Qed.

Lemma touch_other j' i' m' :
  entry (tables h) j' i' = Some m' -> nr_blocks m' <> 0 -> (j', i') <> (j, i) ->
  pool_wf L (words h) m' /\ pool_wf L (words h') m'.
Proof.
  intros He' Hb' Hne. destruct (ho_pool _ _ Hok _ _ _ He') as [_ [?|Hwf]]; [done|].
  split; [done|]. eapply agree_wf; [done|by eapply touch_agree|apply Hwf].
Qed.

Lemma touch_ok :
  (forall b i, last h' = Some (b, i) -> (b < length (tables h))%nat /\ (i < NR)%nat) ->
  (length (tables h') = 1%nat -> exact h') -> heap_ok L h'.
Proof.
  intros Hlast Hexact. split; try done.
  - rewrite Hpages. apply Hok.
  - intros j' i' m'. rewrite Hentry. destruct (decide _) as [_|Hne].
    + intros [= <-]. split; [done|]. right. apply touch_self.
    + intros He'. destruct (ho_pool _ _ Hok _ _ _ He') as [Ha _]. split; [done|].
      destruct (decide (nr_blocks m' = 0)); [by left|right]. by eapply touch_other.
  - intros j1 i1 m1 j2 i2 m2. rewrite !Hentry.
    destruct (decide ((j1, i1) = (j, i))) as [E1|], (decide ((j2, i2) = (j, i))) as [E2|].
    + by rewrite E1, E2.
    + intros [= <-] E3 ? ? ?. rewrite E1. eapply (ho_distinct _ _ Hok); [exact He|exact E3|done..].
    + intros E3 [= <-] ? ? ?. rewrite E2. eapply (ho_distinct _ _ Hok); [exact E3|exact He|done..].
    + intros E3 E4. by apply (ho_distinct _ _ Hok).
  - intros b i' Hl. rewrite Hlen. by apply Hlast.
Qed.

Lemma touch_used k' : 0 <= k' < nr_blocks m ->
  used (words h') m k' = if decide (k' = k) then f =? USED_MEM else used (words h) m k'.
Proof.
  intros Hk'. unfold used. rewrite Hwords.
  destruct (written_header (words h) m k f s k' (pw_rsize _ _ _ touch_wf)) as [-> _].
  destruct (decide (k' = k)); [|done].
  destruct Hf as [-> | ->]; reflexivity.
Qed.

Lemma touch_region a r :
  region h' a r <->
    (a <> hdr m k + 8 /\ region h a r) \/ (f = USED_MEM /\ a = hdr m k + 8 /\ r = rsize m - 8).
Proof.
  split.
  - intros (j' & i' & m' & k' & He' & Hk' & Hu & -> & ->). rewrite Hentry in He'.
    destruct (decide ((j', i') = (j, i))) as [_|Hne].
    + injection He' as <-. change (hdr (set_alloc v m) k') with (hdr m k').
      change (used (words h') (set_alloc v m) k') with (used (words h') m k') in Hu.
      cbn [nr_blocks rsize set_alloc] in Hk' |- *. rewrite touch_used in Hu by done.
      pose proof (pw_rsize _ _ _ touch_wf).
      destruct (decide (k' = k)) as [-> | Hkk].
      * right. split; [by apply Z.eqb_eq|done].
      * left. split; [unfold hdr; nia|]. by exists j, i, m, k'.
    + destruct (touch_other j' i' m') as [Hwf Hwf']; [done|lia|done|].
      rewrite (agree_used L (words h) (words h') m') in Hu by (done || eapply touch_agree; (done || lia)).
      assert (region h (hdr m' k' + 8) (rsize m' - 8)) as Hr by (by exists j', i', m', k').
      left. split; [|done].
      pose proof (hdr_inside _ _ _ _ Hwf Hk'). pose proof (hdr_inside _ _ _ _ touch_wf Hk).
      pose proof (pw_rsize _ _ _ Hwf). pose proof (pw_rsize _ _ _ touch_wf).
      destruct (other_pool L h j i m j' i' m') as [?|?]; [done..|lia|lia|done|lia|lia].
  - intros [[Ha (j' & i' & m' & k' & He' & Hk' & Hu & -> & ->)]|(Ef & -> & ->)].
    + destruct (decide ((j', i') = (j, i))) as [E|Hne].
      * assert (j' = j /\ i' = i) as [E1 E2] by (split; congruence).
        rewrite E1, E2, He in He'. injection He' as <-. exists j, i, (set_alloc v m), k'.
        rewrite Hentry, decide_True by done. split; [done|]. split; [done|]. split; [|done].
        change (used (words h') (set_alloc v m) k') with (used (words h') m k').
        rewrite touch_used, decide_False by (done || congruence). done.
      * exists j', i', m', k'. rewrite Hentry, decide_False by done. split; [done|]. split; [done|].
        split; [|done]. destruct (touch_other j' i' m') as [Hwf Hwf']; [done|lia|done|].
        rewrite (agree_used L (words h) (words h') m') by (done || eapply touch_agree; (done || lia)).
        done.
    + exists j, i, (set_alloc v m), k. rewrite Hentry, decide_True by done. split; [done|].
      split; [done|]. split; [|done].
      change (used (words h') (set_alloc v m) k) with (used (words h') m k).
      rewrite touch_used, decide_True, Ef by done. done.
Qed.
End Touch.

Lemma region_here L h j i m k r :
  heap_ok L h -> entry (tables h) j i = Some m -> 0 <= k < nr_blocks m ->
  region h (hdr m k + 8) r -> used (words h) m k = true /\ r = rsize m - 8.
Proof.
  intros Hok He Hk (j' & i' & m' & k' & He' & Hk' & Hu & Ea & ->).
  destruct (ho_pool _ _ Hok _ _ _ He) as [_ [?|Hwf]]; [lia|].
  destruct (ho_pool _ _ Hok _ _ _ He') as [_ [?|Hwf']]; [lia|].
  pose proof (pw_rsize _ _ _ Hwf). pose proof (pw_rsize _ _ _ Hwf').
  destruct (decide ((j', i') = (j, i))) as [E|Hne].
  - assert (j' = j /\ i' = i) as [E1 E2] by (split; congruence). rewrite E1, E2, He in He'.
    injection He' as <-. assert (k' = k) as -> by (unfold hdr in Ea; nia). done.
  - pose proof (hdr_inside _ _ _ _ Hwf Hk). pose proof (hdr_inside _ _ _ _ Hwf' Hk').
    destruct (other_pool L h j i m j' i' m') as [?|?]; [done..|lia|lia|done|lia|lia].
Qed.

(** What an allocation did: the block at [a] is new and the others are as
    before. *)
Definition allocated (n : Z) (h h' : heap P) (a : Z) : Prop :=
  exists r, n <= r /\ (forall r', ~ region h a r') /\
    forall a' r', region h' a' r' <-> region h a' r' \/ (a' = a /\ r' = r).

Definition released (a : Z) (h h' : heap P) : Prop :=
  forall a' r', region h' a' r' <-> a' <> a /\ region h a' r'.

Lemma run_take L h j i m mptr slot n :
  heap_ok L h -> entry (tables h) j i = Some m -> offered n (words h) m mptr ->
  (length (tables h) = 1%nat -> slot = Z.of_nat i /\ Z.of_nat i < 4294967296) ->
  exists h', take j i m mptr slot h = Ret (mptr + 8, h') /\ heap_ok L h' /\
    allocated n h h' (mptr + 8).
Proof.
  intros Hok He (k & -> & Hk & Hfree & Hn) Hslot.
  destruct (ho_pool _ _ Hok _ _ _ He) as [Halloc [?|Hwf]]; [lia|].
  pose proof (hdr_inside _ _ _ _ Hwf Hk) as [Hin1 Hin2]. pose proof (wf_range _ _ _ _ Hok Hwf) as [Hr1 Hr2].
  pose proof (pw_rsize _ _ _ Hwf) as Hrs. pose proof (entry_lt _ _ _ _ He) as Hj.
  pose proof (entry_bound _ _ _ _ _ (ho_sized _ _ Hok) He) as Hi.
  set (v := u32 (nr_alloc m + 1)). pose proof (u32_range (nr_alloc m + 1)) as Hv. fold v in Hv.
  unfold take. unfold_st. unfold get, put.
  match goal with |- context [Ret (_, ?x)] => set (h' := x) end.
  assert (forall j' i', entry (tables h') j' i' =
    if decide ((j', i') = (j, i)) then Some (set_alloc v m) else entry (tables h) j' i') as Hentry
    by (intros j' i'; unfold h'; cbn [tables]; by eapply entry_set).
  assert (heap_ok L h') as Hok'.
  { apply (touch_ok L h h' j i m k USED_MEM (u32 slot) v); try done; [by right|lia| | | |].
    - unfold h'. cbn [tables]. unfold set_entry. apply length_alter.
    - unfold h'. cbn [tables]. apply all_sized_set, Hok.
    - unfold h'. cbn [last tables]. intros b i' [= <- <-]. lia.
    - unfold h' at 1. cbn [tables]. unfold set_entry. rewrite length_alter. intros Hl.
      pose proof (ho_exact _ _ Hok Hl) as [Hea Hes _]. destruct (Hslot Hl) as [-> Hib].
      assert (j = 0%nat) as -> by lia. split.
      + intros i' m'. rewrite Hentry. destruct (decide _) as [E|Hne].
        * intros [= <-]. change (nr_used (words h') (set_alloc v m)) with (nr_used (words h') m).
          unfold h'. cbn [words]. rewrite nr_used_written by done. rewrite (used_free _ _ _ Hfree).
          cbn [nr_alloc set_alloc Z.b2z]. unfold v. rewrite (Hea _ _ He). rewrite Z.eqb_refl.
          cbn [Z.b2z]. rewrite u32_small; [lia|].
          pose proof (count_bounds (fun k => used (words h) m (Z.of_nat k)) (Z.to_nat (nr_blocks m))).
          unfold nr_used. pose proof (pw_inside _ _ _ Hwf). pose proof (pw_blocks _ _ _ Hwf). nia.
        * intros He'. rewrite (Hea _ _ He'). destruct (decide (nr_blocks m' = 0)) as [E0|].
          { unfold nr_used. by rewrite E0. }
          destruct (ho_pool _ _ Hok _ _ _ He') as [_ [?|Hwf']]; [done|].
          symmetry. eapply agree_nr_used; [done|]. unfold h'. cbn [words]. by eapply written_agree.
      + intros i' m' k'. rewrite Hentry. destruct (decide _) as [E|Hne].
        * intros [= <-] Hk' Hu. assert (i' = i) as -> by congruence.
          change (hdr (set_alloc v m) k') with (hdr m k').
          unfold h'. cbn [words]. destruct (written_header (words h) m k USED_MEM (u32 (Z.of_nat i)) k' Hrs) as [E1 ->].
          destruct (decide (k' = k)) as [_|Hkk]; [f_equal; apply u32_small; lia|].
          apply Hes; [done|done|]. unfold used in Hu |- *.
          change (hdr (set_alloc v m) k') with (hdr m k') in Hu. unfold h' in Hu. cbn [words] in Hu.
          by rewrite E1 in Hu.
        * intros He' Hk' Hu. destruct (ho_pool _ _ Hok _ _ _ He') as [_ [?|Hwf']]; [lia|].
          assert (agree (words h) (words h') m') as Hag.
          { unfold h'. cbn [words]. eapply written_agree; [done|done|done|done|lia|done]. }
          rewrite (agree_used L (words h) (words h') m') in Hu by done.
          rewrite Hag; [by apply Hes|].
          pose proof (hdr_inside _ _ _ _ Hwf' Hk'). pose proof (pw_rsize _ _ _ Hwf'). lia.
      + unfold h'. cbn [last nr_slot]. intros b i' [= _ <-]. done. }
  exists h'. split.
  { unfold sizeof_header. rewrite u32_small by lia. done. }
  split; [done|]. exists (rsize m - 8). split; [done|]. split.
  - intros r' Hr'. destruct (region_here L h j i m k r' Hok He Hk Hr') as [Hu _].
    by rewrite (used_free _ _ _ Hfree) in Hu.
  - assert (0 <= v) as Hv0 by lia. intros a' r'.
    assert (length (tables h') = length (tables h)) as Hlen by (unfold h'; cbn [tables]; apply length_alter).
    rewrite (touch_region L h h' j i m k USED_MEM (u32 slot) v Hok He Hk (or_intror eq_refl)
      eq_refl Hlen Hentry).
    split.
    + intros [[_ ?]|(_ & -> & ->)]; [by left|by right].
    + intros [Hreg|[-> ->]]; [|by right]. left. split; [|done]. intros ->.
      destruct (region_here L h j i m k r' Hok He Hk Hreg) as [Hu _].
      by rewrite (used_free _ _ _ Hfree) in Hu.
Qed.

(** ** The scans *)

Lemma scan_sizes_spec L h n j l : forall i0,
  heap_ok L h -> (forall i m, l !! i = Some m -> entry (tables h) j (i0 + i) = Some m) ->
  scan_sizes n (words h) i0 l = Ret None \/
  exists i m mptr, scan_sizes n (words h) i0 l = Ret (Some (i, m, mptr)) /\
    entry (tables h) j i = Some m /\ offered n (words h) m mptr.
Proof.
  induction l as [|m l IH]; intros i0 Hok Hl; [by left|]. cbn [scan_sizes]. unfold mbind, outcome_bind.
  pose proof (Hl O m eq_refl) as He. rewrite Nat.add_0_r in He.
  destruct (offer_spec L h n m Hok (ho_pool _ _ Hok _ _ _ He)) as [-> | (mptr & -> & Ho)].
  - apply IH; [done|]. intros i m' Hi. rewrite Nat.add_succ_comm. by apply (Hl (S i)).
  - right. by exists i0, m, mptr.
Qed.

Lemma scan_tables_spec L h n ts : forall j0,
  heap_ok L h -> (forall j t, ts !! j = Some t -> tables h !! (j0 + j)%nat = Some t) ->
  scan_tables n (words h) j0 ts = Ret None \/
  exists j i m mptr, scan_tables n (words h) j0 ts = Ret (Some (j, i, m, mptr)) /\
    entry (tables h) j i = Some m /\ offered n (words h) m mptr.
Proof.
  induction ts as [|t ts IH]; intros j0 Hok Hts; [by left|]. cbn [scan_tables]. unfold mbind, outcome_bind.
  pose proof (Hts O t eq_refl) as Ht. rewrite Nat.add_0_r in Ht.
  destruct (scan_sizes_spec L h n j0 (sizes t) 0 Hok) as [-> | (i & m & mptr & -> & He & Ho)].
  - intros i m Hi. unfold entry. by rewrite Ht.
  - apply IH; [done|]. intros j t' Hj. rewrite Nat.add_succ_comm. by apply (Hts (S j)).
  - right. by exists j0, i, m, mptr.
Qed.

Lemma empty_entry_spec l : forall i0 i,
  empty_entry i0 l = Some i -> exists m, (i0 <= i)%nat /\ l !! (i - i0)%nat = Some m /\ nr_blocks m = 0.
Proof.
  induction l as [|m l IH]; intros i0 i; [done|]. cbn [empty_entry].
  destruct (Z.eqb_spec (nr_blocks m) 0) as [E|]; [intros [= <-]; exists m; by rewrite Nat.sub_diag|].
  intros (m' & Hle & Hl & E)%IH. exists m'. split; [lia|]. split; [|done].
  by replace (i - i0)%nat with (S (i - S i0)) by lia.
Qed.

Lemma empty_slot_spec ts : forall j0 j i,
  empty_slot NR j0 ts = Some (j, i) ->
  exists m, (j0 <= j)%nat /\ entry ts (j - j0) i = Some m /\ nr_blocks m = 0.
Proof.
  induction ts as [|t ts IH]; intros j0 j i; [done|]. cbn [empty_slot].
  destruct (if nr_slots t =? Z.of_nat NR then None else empty_entry 0 (sizes t)) as [i'|] eqn:E.
  - intros [= <- <-]. destruct (nr_slots t =? _); [done|].
    apply empty_entry_spec in E as (m & _ & Hl & Hm). exists m. split; [done|]. split; [|done].
    unfold entry. rewrite Nat.sub_diag. cbn. by rewrite Nat.sub_0_r in Hl.
  - intros (m & Hle & He & Hm)%IH. exists m. split; [lia|]. split; [|done].
    by replace (j - j0)%nat with (S (j - S j0)) by lia.
Qed.

(** ** The last entry *)

Lemma run_try_last L h n : heap_ok L h -> (Z.of_nat NR < 4294967296) ->
  try_last n h = Ret (None, h) \/
  exists a h', try_last n h = Ret (Some a, h') /\ heap_ok L h' /\ allocated n h h' a.
Proof.
  intros Hok HNRb. unfold try_last. unfold_st. unfold get.
  destruct (last h) as [[b i]|] eqn:El; [|by left].
  destruct (ho_last _ _ Hok _ _ El) as [Hb Hi].
  destruct (entry_in (tables h) NR (length (tables h) - 1 - b) i (ho_sized _ _ Hok)) as [m Hm]; [lia|done|].
  rewrite Hm. cbn [checked].
  destruct (offer_spec L h n m Hok (ho_pool _ _ Hok _ _ _ Hm)) as [-> | (mptr & -> & Ho)]; cbn [lift].
  { by left. }
  right. destruct (run_take L h _ i m mptr (nr_slot h) n Hok Hm Ho) as (h' & E & Hok' & Ha).
  { intros Hl. split; [by apply (ex_last _ (ho_exact _ _ Hok Hl) b)|lia]. }
  rewrite E. by exists (mptr + 8), h'.
Qed.

(** ** Making a pool *)

Lemma init_headers_spec m : 8 <= rsize m -> 0 <= memory m ->
  forall n w k0, 0 <= k0 -> hdr m (k0 + Z.of_nat n) < 4294967296 ->
  let w' := init_headers n (u32 (hdr m k0)) (rsize m) w in
  (forall x, x < hdr m k0 \/ hdr m (k0 + Z.of_nat n) <= x -> w' !! x = w !! x) /\
  forall k, k0 <= k < k0 + Z.of_nat n ->
    w' !! hdr m k = Some 0 /\ w' !! (hdr m k + 4) = Some FREE_MEM.
Proof.
  intros Hr Hm n. induction n as [|n IH]; intros w k0 Hk0 Hend; cbn [init_headers].
  { split; [done|lia]. }
  assert (0 <= hdr m k0 /\ hdr m (k0 + 1) = hdr m k0 + rsize m /\
    hdr m (k0 + 1) <= hdr m (k0 + Z.of_nat (S n))) as (H0k & H1k & H2k) by (unfold hdr in *; nia).
  rewrite (u32_small (hdr m k0)) by lia. rewrite <- H1k.
  destruct (IH (<[hdr m k0 + 4 := FREE_MEM]> (<[hdr m k0 := 0]> w)) (k0 + 1)) as [Hout Hin];
    [lia|by replace (k0 + 1 + Z.of_nat n) with (k0 + Z.of_nat (S n)) by lia|].
  replace (k0 + 1 + Z.of_nat n) with (k0 + Z.of_nat (S n)) in * by lia.
  split.
  - intros x Hx. rewrite Hout by lia. by rewrite !lookup_insert_ne by lia.
  - intros k Hk. destruct (decide (k = k0)) as [-> | Hne]; [|apply Hin; lia].
    rewrite !Hout by lia. rewrite lookup_insert_eq, lookup_insert_ne, lookup_insert_eq by lia. done.
Qed.

Lemma div_up_spec n d : 0 < n -> 0 < d ->
  0 < div_up n d /\ n <= div_up n d * d < n + d.
Proof.
  intros Hn Hd. unfold div_up. pose proof (Z.div_mod n d). pose proof (Z.mod_pos_bound n d).
  assert (0 <= n / d) by (apply Z.div_pos; lia).
  destruct (Z.eqb_spec (n mod d) 0); [|nia]. split; [|nia]. destruct (decide (n / d = 0)); [|lia]. nia.
Qed.

(** The page allocator refuses one of the next two requests it gets. *)
Definition starved (p : P) : Prop :=
  (exists n p', block n p = Ret (0, p')) \/
  (exists n a p1 n' p2, block n p = Ret (a, p1) /\ block n' p1 = Ret (0, p2)).

(** Room for two requests. *)
Definition steady (p : P) : Prop :=
  room p /\ forall n a p', 0 < n <= max_pages -> block n p = Ret (a, p') -> room p'.

(** A block size the allocators can serve. *)
Definition servable (rsz : Z) : Prop :=
  8 <= rsz /\ rsz + NR_PAGE_SIZE <= 4294967296 /\ NR_BLOCKS rsz <= max_pages.

(** A pool that was just made. *)
Record fresh_pool (L w w' : gmap Z Z) (m : mem_t) (n rsz : Z) (slot : option Z) : Prop := FreshPool {
  fp_new : L !! memory m = None;
  fp_size : rsize m = rsz /\ nr_alloc m = 1;
  fp_wf : pool_wf (<[memory m := nr_pages m]> L) w' m;
  fp_out x : x < memory m \/ memory m + nr_pages m * NR_PAGE_SIZE <= x -> w' !! x = w !! x;
  fp_used k : 0 <= k < nr_blocks m -> used w' m k = bool_decide (k = 0);
  fp_slot : w' !! memory m = Some (match slot with Some s => u32 s | None => 0 end)
}.

Lemma run_pages L h n : owns (pages h) L -> room (pages h) -> 0 < n <= max_pages ->
  (get_block n h = Fault /\ exists p', block n (pages h) = Ret (0, p')) \/
  exists a p', get_block n h = Ret (a, Heap (tables h) (last h) (nr_slot h) (words h) p') /\
    block n (pages h) = Ret (a, p') /\ L !! a = None /\ owns p' (<[a := n]> L).
Proof.
  intros Ho Hroom Hn. unfold get_block, paged. unfold_st.
  destruct (block_ok _ L n Ho Hroom Hn) as [(p' & E)|(a & p' & E & Hnew & Ho')]; rewrite E.
  - left. split; [done|]. by exists p'.
  - right. exists a, p'. pose proof (owns_range _ _ _ _ Ho' (lookup_insert_eq L a n)).
    rewrite (proj2 (Z.eqb_neq _ _)) by lia. done.
Qed.

Lemma run_new_pool L h n rsz slot : owns (pages h) L -> room (pages h) -> servable rsz ->
  (new_pool n rsz slot h = Fault /\ exists n' p', block n' (pages h) = Ret (0, p')) \/
  exists m w' p', new_pool n rsz slot h = Ret (m, Heap (tables h) (last h) (nr_slot h) w' p') /\
    fresh_pool L (words h) w' m n rsz slot /\ owns p' (<[memory m := nr_pages m]> L) /\
    exists n' a', block n' (pages h) = Ret (a', p').
Proof.
  intros Ho Hroom (Hr & Hr' & Hmax). unfold new_pool. unfold_st.
  destruct (div_up_spec rsz NR_PAGE_SIZE) as [Hb1 Hb2]; [lia|done|]. fold (NR_BLOCKS rsz) in Hb1, Hb2.
  destruct (run_pages L h (NR_BLOCKS rsz) Ho Hroom) as [(-> & p' & E)|(a & p' & -> & E & Hnew & Ho')]; [lia| |].
  { left. split; [done|]. by exists (NR_BLOCKS rsz), p'. }
  right. rewrite (proj2 (Z.eqb_neq rsz 0)) by lia. rewrite (u32_small (_ * NR_PAGE_SIZE)) by lia.
  set (nb := NR_BLOCKS rsz * NR_PAGE_SIZE / rsz).
  assert (0 < nb /\ nb * rsz <= NR_BLOCKS rsz * NR_PAGE_SIZE) as [Hnb Hnb'].
  { unfold nb. split; [apply Z.div_str_pos; lia|]. rewrite Z.mul_comm. apply Z.mul_div_le. lia. }
  set (m := Mem_t n rsz nb 1 (NR_BLOCKS rsz) a).
  pose proof (owns_range _ _ _ _ Ho' (lookup_insert_eq L a (NR_BLOCKS rsz))) as (Ha & _ & Hend).
  assert (hdr m 0 = a) as Eh by (unfold hdr, m; simpl; lia).
  assert (hdr m nb <= a + NR_BLOCKS rsz * NR_PAGE_SIZE) as Hh by (unfold hdr, m; simpl; lia).
  destruct (init_headers_spec m Hr ltac:(simpl; lia) (Z.to_nat nb) (words h) 0) as [Hout Hin];
    [lia|rewrite Z.add_0_l, Z2Nat.id by lia; lia|].
  rewrite Z.add_0_l, Z2Nat.id in Hout, Hin by lia. rewrite Eh, u32_small in Hout, Hin by lia.
  set (w0 := init_headers (Z.to_nat nb) a (rsize m) (words h)) in *.
  cbn [modify]. eexists m, _, p'. split; [reflexivity|]. cbn [words memory nr_pages m].
  split; [|split; [done|by exists (NR_BLOCKS rsz), a]].
  set (w' := match slot with Some s => _ | None => _ end).
  assert (forall x, x <> a -> x <> a + 4 -> w' !! x = w0 !! x) as Hw'.
  { intros x H1 H2. unfold w'. destruct slot; by rewrite !lookup_insert_ne by lia. }
  assert (w' !! (a + 4) = Some USED_MEM) as Hw4.
  { unfold w'. destruct slot; [rewrite lookup_insert_ne by lia|]; apply lookup_insert_eq. }
  assert (w' !! a = Some (match slot with Some s => u32 s | None => 0 end)) as Hwa.
  { unfold w'. destruct slot as [s|]; [apply lookup_insert_eq|]. rewrite lookup_insert_ne by lia.
    pose proof (proj1 (Hin 0 ltac:(lia))) as E0. rewrite Eh in E0. exact E0. }
  assert (forall k, 0 < k < nb -> hdr m k <> a /\ hdr m k <> a + 4 /\ hdr m k + 4 <> a /\ hdr m k + 4 <> a + 4) as Hapart.
  { intros k Hk. destruct (hdr_apart m k 0 Hr) as [?|?]; [lia| |]; rewrite Eh in *; unfold hdr, m in *; simpl in *; nia. }
  assert (forall k, 0 < k < nb -> w' !! hdr m k = Some 0 /\ w' !! (hdr m k + 4) = Some FREE_MEM) as Hother.
  { intros k Hk. destruct (Hapart k Hk) as (? & ? & ? & ?). rewrite !Hw' by done. apply Hin. lia. }
  split; [done|done| | | |done].
  - split; cbn [memory nr_pages rsize nr_blocks m]; [apply lookup_insert_eq|done|done|done|].
    intros k Hk. destruct (decide (k = 0)) as [-> | ].
    + rewrite Eh, Hwa, Hw4. split; [by eexists|by right].
    + destruct (Hother k) as [E1 E2]; [lia|]. fold m. rewrite E1, E2. split; [by eexists|by left].
  - intros x Hx. cbn [memory nr_pages m] in Hx. rewrite Hw' by (unfold NR_PAGE_SIZE in *; lia). apply Hout. lia.
  - intros k Hk. cbn [nr_blocks m] in Hk. unfold used. destruct (decide (k = 0)) as [-> | ].
    + by rewrite Eh, Hw4, !bool_decide_true.
    + destruct (Hother k) as [_ E2]; [lia|]. rewrite E2. by rewrite !bool_decide_false.
Qed.

(** Putting a new pool in an entry, with [d] new tables in front. *)
Section Install.
Context (L : gmap Z Z) (h h' : heap P) (w' : gmap Z Z) (m : mem_t) (n rsz : Z) (slot : option Z)
  (j i d b : nat).
Hypothesis Hok : heap_ok L h.
Hypothesis Hfresh : fresh_pool L (words h) w' m n rsz slot.
Hypothesis Hwords : words h' = w'.
Hypothesis Howns : owns (pages h') (<[memory m := nr_pages m]> L).
Hypothesis Hsized : all_sized NR (tables h').
Hypothesis Hlast : last h' = Some (b, i) /\ (b < length (tables h'))%nat /\ (i < NR)%nat.
Hypothesis Hlen : length (tables h') = (d + length (tables h))%nat.
Hypothesis Hentry : forall j' i' m', entry (tables h') j' i' = Some m' ->
  if decide ((j', i') = (j, i)) then m' = m
  else m' = zero_mem \/ (d <= j')%nat /\ entry (tables h) (j' - d) i' = Some m'.
Hypothesis Hthere : entry (tables h') j i = Some m.
Hypothesis Hkept : forall j' i' m', entry (tables h) j' i' = Some m' ->
  (j' + d, i')%nat <> (j, i) -> entry (tables h') (j' + d) i' = Some m'.
Hypothesis Hempty : forall m', (d <= j)%nat -> entry (tables h) (j - d) i = Some m' -> nr_blocks m' = 0.
Hypothesis Hnumber : length (tables h') = 1%nat -> (d = 0%nat \/ tables h = []) /\
  nr_slot h' = Z.of_nat i /\ w' !! memory m = Some (Z.of_nat i).

Notation "'L2'" := (<[memory m := nr_pages m]> L).

Lemma old_run m0 : pool_wf L (words h) m0 -> L2 !! memory m0 = Some (nr_pages m0).
Proof.
  intros Hwf. pose proof (pw_run _ _ _ Hwf) as E.
  rewrite lookup_insert_ne; [done|]. intros Em. rewrite <- Em, (fp_new _ _ _ _ _ _ _ Hfresh) in E. done.
Qed.

Lemma old_apart m0 : pool_wf L (words h) m0 ->
  memory m0 + nr_pages m0 * NR_PAGE_SIZE <= memory m \/ memory m + nr_pages m * NR_PAGE_SIZE <= memory m0.
Proof.
  intros Hwf. eapply owns_disjoint; [exact Howns|by apply old_run|apply lookup_insert_eq|].
  intros Em. pose proof (pw_run _ _ _ Hwf) as E. by rewrite Em, (fp_new _ _ _ _ _ _ _ Hfresh) in E.
Qed.

Lemma old_agree m0 : pool_wf L (words h) m0 -> agree (words h) w' m0.
Proof.
  intros Hwf x Hx. apply (fp_out _ _ _ _ _ _ _ Hfresh). destruct (old_apart m0 Hwf); lia.
Qed.

Lemma old_wf m0 : pool_wf L (words h) m0 -> pool_wf L2 w' m0.
Proof. intros Hwf. eapply agree_wf; [done|by apply old_agree|by apply old_run]. Qed.

Lemma install_exact : length (tables h') = 1%nat -> exact h'.
Proof.
  intros Hl. destruct (Hnumber Hl) as (Hd & Hns & Hw0).
  assert (forall i' m', entry (tables h') 0 i' = Some m' -> (0%nat, i') <> (j, i) ->
    m' = zero_mem \/ nr_blocks m' = 0 /\ nr_alloc m' = 0 \/
    pool_wf L (words h) m' /\ exact h /\ entry (tables h) 0 i' = Some m') as Hcases.
  { intros i' m' He Hne. pose proof (Hentry _ _ _ He) as Hc. rewrite decide_False in Hc by done.
    destruct Hc as [?|[Hdj He']]; [by left|right]. assert (d = 0%nat) as Ed by lia. rewrite Ed in He'.
    cbn in He'. assert (exact h) as Hex by (apply (ho_exact _ _ Hok); lia).
    destruct (ho_pool _ _ Hok _ _ _ He') as [_ [E|Hwf]]; [left|by right].
    split; [done|]. rewrite (ex_alloc _ Hex _ _ He'). unfold nr_used. by rewrite E. }
  split.
  - intros i' m' He. destruct (decide ((0%nat, i') = (j, i))) as [E|Hne].
    + pose proof (Hentry _ _ _ He) as Hc. rewrite decide_True in Hc by done. rewrite Hc.
      rewrite (proj2 (fp_size _ _ _ _ _ _ _ Hfresh)), Hwords. unfold nr_used.
      pose proof (pw_blocks _ _ _ (fp_wf _ _ _ _ _ _ _ Hfresh)) as Hb.
      rewrite (count_update (fun _ => false) _ _ 0) by
        (try lia; intros k' Hk' Hne; rewrite (fp_used _ _ _ _ _ _ _ Hfresh) by lia;
         symmetry; apply bool_decide_false; lia).
      rewrite count_const, (fp_used _ _ _ _ _ _ _ Hfresh) by lia. done.
    + destruct (Hcases i' m' He Hne) as [-> | [[E1 E2]|(Hwf & Hex & He')]]; [done| |].
      * unfold nr_used. by rewrite E1.
      * rewrite Hwords, (agree_nr_used L (words h) w') by (done || by apply old_agree).
        by eapply ex_alloc.
  - intros i' m' k He Hk Hu. rewrite Hwords in *. destruct (decide ((0%nat, i') = (j, i))) as [E|Hne].
    + pose proof (Hentry _ _ _ He) as Hc. rewrite decide_True in Hc by done. rewrite Hc in *.
      rewrite (fp_used _ _ _ _ _ _ _ Hfresh) in Hu by done. apply bool_decide_eq_true in Hu as ->.
      assert (i' = i) as -> by congruence. unfold hdr. by rewrite Z.mul_0_l, Z.add_0_r.
    + destruct (Hcases i' m' He Hne) as [-> | [[E1 E2]|(Hwf & Hex & He')]]; [simpl in Hk; lia|lia|].
      rewrite (agree_used L (words h) w') in Hu by (done || by apply old_agree).
      pose proof (hdr_inside _ _ _ _ Hwf Hk). pose proof (pw_rsize _ _ _ Hwf).
      rewrite (old_agree m' Hwf) by lia. by eapply ex_slot.
  - intros b' i' Hl'. rewrite (proj1 Hlast) in Hl'. injection Hl' as _ <-. done.
Qed.

Lemma install_ok : heap_ok L2 h'.
Proof.
  pose proof (fp_wf _ _ _ _ _ _ _ Hfresh) as Hwf. split; try done.
  - intros j' i' m' He. pose proof (Hentry _ _ _ He) as Hc. rewrite Hwords. destruct (decide _) as [E|Hne].
    + rewrite Hc. split; [rewrite (proj2 (fp_size _ _ _ _ _ _ _ Hfresh)); lia|by right].
    + destruct Hc as [-> | [_ He']]; [split; [done|by left]|].
      destruct (ho_pool _ _ Hok _ _ _ He') as [Ha [?|?]]; split; auto using old_wf.
  - intros j1 i1 m1 j2 i2 m2 He1 He2 Hb1 Hb2 Em.
    pose proof (Hentry _ _ _ He1) as Hc1. pose proof (Hentry _ _ _ He2) as Hc2.
    assert (forall j' i' m', m' = zero_mem \/ (d <= j')%nat /\ entry (tables h) (j' - d) i' = Some m' ->
      nr_blocks m' <> 0 -> memory m' <> memory m) as Hne.
    { intros j' i' m' [-> |[_ He]] Hb E; [done|].
      destruct (ho_pool _ _ Hok _ _ _ He) as [_ [?|Hw]]; [done|].
      pose proof (pw_run _ _ _ Hw) as E'. by rewrite E, (fp_new _ _ _ _ _ _ _ Hfresh) in E'. }
    destruct (decide ((j1, i1) = (j, i))) as [E1|], (decide ((j2, i2) = (j, i))) as [E2|].
    + by rewrite E1, E2.
    + rewrite Hc1 in Em. by destruct (Hne _ _ _ Hc2 Hb2).
    + rewrite Hc2 in Em. by destruct (Hne _ _ _ Hc1 Hb1).
    + destruct Hc1 as [-> | [Hd1 Hc1]]; [done|]. destruct Hc2 as [-> | [Hd2 Hc2]]; [done|].
      pose proof (ho_distinct _ _ Hok _ _ _ _ _ _ Hc1 Hc2 Hb1 Hb2 Em) as E.
      assert ((j1 - d)%nat = (j2 - d)%nat /\ i1 = i2) as [E1 E2] by (split; congruence).
      rewrite E2. f_equal. lia.
  - intros b' i'. rewrite (proj1 Hlast). intros [= <- <-]. apply Hlast.
  - apply install_exact.
Qed.

Lemma install_allocated : n <= rsz - 8 -> allocated n h h' (memory m + 8).
Proof.
  intros Hn. pose proof (fp_wf _ _ _ _ _ _ _ Hfresh) as Hwf.
  destruct (fp_size _ _ _ _ _ _ _ Hfresh) as [Ers _]. exists (rsz - 8). split; [done|]. split.
  - intros r' (j' & i' & m' & k' & He & Hk & Hu & E & _).
    destruct (ho_pool _ _ Hok _ _ _ He) as [_ [?|Hw]]; [lia|].
    pose proof (hdr_inside _ _ _ _ Hw Hk). pose proof (pw_rsize _ _ _ Hw).
    pose proof (pw_rsize _ _ _ Hwf). pose proof (pw_blocks _ _ _ Hwf). pose proof (pw_inside _ _ _ Hwf).
    assert (rsize m <= nr_pages m * NR_PAGE_SIZE) by nia.
    destruct (old_apart m' Hw); lia.
  - intros a' r'. split.
    + intros (j' & i' & m' & k' & He & Hk & Hu & -> & ->). rewrite Hwords in Hu.
      pose proof (Hentry _ _ _ He) as Hc. destruct (decide _) as [E|Hne].
      * rewrite Hc in *. rewrite (fp_used _ _ _ _ _ _ _ Hfresh) in Hu by done.
        apply bool_decide_eq_true in Hu as ->. right. unfold hdr. lia.
      * left. destruct Hc as [-> | [_ He']]; [simpl in Hk; lia|].
        destruct (ho_pool _ _ Hok _ _ _ He') as [_ [?|Hw]]; [lia|].
        rewrite (agree_used L (words h) w') in Hu by (done || by apply old_agree).
        by exists (j' - d)%nat, i', m', k'.
    + intros [(j' & i' & m' & k' & He & Hk & Hu & -> & ->)|[-> ->]].
      * exists (j' + d)%nat, i', m', k'. rewrite Hwords. split.
        { apply Hkept; [done|]. intros E. assert ((j' + d)%nat = j /\ i' = i) as [E1 E2] by (split; congruence).
          rewrite (Hempty m') in Hk; [lia|lia|]. by rewrite <- E1, Nat.add_sub, <- E2. }
        destruct (ho_pool _ _ Hok _ _ _ He) as [_ [?|Hw]]; [lia|].
        rewrite (agree_used L (words h) w') by (done || by apply old_agree). done.
      * pose proof (pw_blocks _ _ _ Hwf). exists j, i, m, 0. rewrite Hwords.
        split; [done|]. split; [lia|]. rewrite (fp_used _ _ _ _ _ _ _ Hfresh) by lia.
        split; [done|]. unfold hdr. lia.
Qed.
End Install.

(** ** The allocation *)

Lemma real_size_spec n : 0 <= n < 4294967280 ->
  n + 8 <= real_size n < n + 12.
Proof.
  intros Hn. unfold real_size, sizeof_header, sizeof_pointer. rewrite (u32_small (n + 8)) by lia.
  destruct (div_up_spec (n + 8) 4) as [_ Hd]; [lia..|]. rewrite u32_small by lia. lia.
Qed.

Lemma heap_ok_pages L h p a n : heap_ok L h -> L !! a = None -> owns p (<[a := n]> L) ->
  heap_ok (<[a := n]> L) (Heap (tables h) (last h) (nr_slot h) (words h) p).
Proof.
  intros Hok Ha Ho. destruct Hok as [_ Hs Hp Hd Hl He]. split; try done.
  - cbn [tables words]. intros j i m Hm. destruct (Hp _ _ _ Hm) as [? [?|Hwf]]; [auto|].
    split; [done|right]. eapply agree_wf; [done|by intros ??|].
    pose proof (pw_run _ _ _ Hwf) as E. rewrite lookup_insert_ne; [done|]. intros ->. by rewrite Ha in E.
  - cbn [tables]. intros Hlen. destruct (He Hlen). by split.
Qed.

Lemma entry_set_any j i m ts j' i' m' :
  is_Some (entry ts j i) -> entry (set_entry j i m ts) j' i' = Some m' ->
  if decide ((j', i') = (j, i)) then m' = m else entry ts j' i' = Some m'.
Proof. intros [m0 He]. rewrite (entry_set _ _ _ _ _ _ _ He). destruct (decide _); [by intros [= ->]|done]. Qed.

Lemma entry_cons t ts j i : entry (t :: ts) (S j) i = entry ts j i.
Proof. reflexivity. Qed.

Definition table_ok : Prop := 0 < NR_BLOCKS (sizeof_table NR) <= max_pages.

(** The result of an allocation: a new block, unless the page allocator had
    nothing left. *)
Definition alloc_result (n : Z) (h : heap P) (r : outcome (Z * heap P)) : Prop :=
  r = Fault /\ starved (pages h) \/
  exists a h' L', r = Ret (a, h') /\ heap_ok L' h' /\ allocated n h h' a.

Lemma run_new_table L h n slot number :
  heap_ok L h -> steady (pages h) -> table_ok -> 0 <= n -> servable (real_size n) -> n + 8 <= real_size n ->
  (length (tables h) = 0%nat -> number = 0 /\ (slot = None \/ slot = Some 0)) ->
  alloc_result n h (new_table NR n (real_size n) slot number h).
Proof.
  intros Hok [Hroom Hroom2] Htab Hn Hsv Hreal Hnum. unfold new_table. unfold_st.
  destruct (run_pages L h (NR_BLOCKS (sizeof_table NR)) (ho_owns _ _ Hok) Hroom Htab)
    as [(-> & p' & E)|(a1 & p1 & -> & E1 & Hnew1 & Ho1)].
  { left. split; [done|]. left. by eexists _, _. }
  pose proof (heap_ok_pages L h p1 a1 _ Hok Hnew1 Ho1) as Hok1.
  set (h1 := Heap (tables h) (last h) (nr_slot h) (words h) p1) in *.
  set (L1 := <[a1 := NR_BLOCKS (sizeof_table NR)]> L) in *. cbn [modify].
  set (h2 := set_tables (Table_t 1 (replicate NR zero_mem) :: tables h1) h1).
  destruct (run_new_pool L1 h2 n (real_size n) slot Ho1 (Hroom2 _ _ _ Htab E1) Hsv)
    as [(-> & n' & p' & E)|(m & w' & p2 & -> & Hfp & Ho2 & _)].
  { left. split; [done|]. right. exists (NR_BLOCKS (sizeof_table NR)), a1, p1, n', p'. done. }
  right. match goal with |- exists a h' L', Ret (_, ?x) = _ /\ _ => set (h' := x) end.
  change (tables h2) with (Table_t 1 (replicate NR zero_mem) :: tables h) in *.
  set (ts2 := Table_t 1 (replicate NR zero_mem) :: tables h) in *.
  assert (entry ts2 0 0 = Some zero_mem) as He0.
  { unfold entry, ts2. cbn. apply lookup_replicate. done. }
  assert (forall m', entry ts2 0 m' = None \/ entry ts2 0 m' = Some zero_mem) as Hz.
  { intros i'. unfold entry, ts2. cbn. destruct (replicate NR zero_mem !! i') as [x|] eqn:Ex; [|by left].
    apply lookup_replicate in Ex as [-> _]. by right. }
  assert (all_sized NR (tables h')) as Hsz.
  { unfold h'. cbn [tables set_tables set_last]. apply all_sized_set. constructor; [apply length_replicate|apply Hok]. }
  assert (length (tables h') = S (length (tables h))) as Hlen.
  { unfold h'. cbn [tables set_tables set_last]. unfold set_entry. rewrite length_alter. done. }
  assert (forall j' i' m', entry (tables h') j' i' = Some m' ->
    if decide ((j', i') = (0%nat, 0%nat)) then m' = m
    else m' = zero_mem \/ (1 <= j')%nat /\ entry (tables h1) (j' - 1) i' = Some m') as Hentry.
  { intros j' i' m' He. unfold h' in He. cbn [tables set_tables set_last] in He.
    apply entry_set_any in He; [|by eexists]. destruct (decide _); [done|].
    destruct j' as [|j']; [|right; split; [lia|]; by rewrite Nat.sub_succ, Nat.sub_0_r].
    left. destruct (Hz i') as [E|E]; rewrite E in He; congruence. }
  assert (entry (tables h') 0 0 = Some m) as Hthere.
  { unfold h'. cbn [tables set_tables set_last]. erewrite entry_set by exact He0. by rewrite decide_True. }
  assert (forall j' i' m', entry (tables h1) j' i' = Some m' -> (j' + 1, i')%nat <> (0%nat, 0%nat) ->
    entry (tables h') (j' + 1) i' = Some m') as Hkept.
  { intros j' i' m' He Hne. unfold h'. cbn [tables set_tables set_last]. erewrite entry_set by exact He0.
    rewrite decide_False by done. rewrite Nat.add_1_r. exact He. }
  assert (last h' = Some ((length ts2 - 1)%nat, 0%nat) /\ (length ts2 - 1 < length (tables h'))%nat /\ (0 < NR)%nat)
    as Hlast by (split; [done|]; rewrite Hlen; unfold ts2; cbn [length]; lia).
  assert (length (tables h') = 1%nat -> (1%nat = 0%nat \/ tables h1 = []) /\
    nr_slot h' = Z.of_nat 0 /\ w' !! memory m = Some (Z.of_nat 0)) as Hnumber.
  { rewrite Hlen. intros [= Hl]. destruct (Hnum Hl) as [-> Hs]. split.
    - right. by apply length_zero_iff_nil.
    - split; [done|]. rewrite (fp_slot _ _ _ _ _ _ _ Hfp). by destruct Hs as [-> | ->]. }
  exists (memory m + 8), h', (<[memory m := nr_pages m]> L1). split; [|split].
  - f_equal. f_equal. apply u32_small. unfold sizeof_header.
    pose proof (owns_range _ _ _ _ Ho2 (lookup_insert_eq L1 _ _)) as (? & ? & ?).
    unfold NR_PAGE_SIZE in *. lia.
  - eapply (install_ok L1 h1 h' w' m n (real_size n) slot 0 0 1); done.
  - change (allocated n h1 h' (memory m + 8)).
    eapply (install_allocated L1 h1 h' w' m n (real_size n) slot 0 0 1); try done; lia.
Qed.

Lemma run_empty_slot L h n j i :
  heap_ok L h -> room (pages h) -> 0 <= n -> servable (real_size n) -> n + 8 <= real_size n ->
  Z.of_nat NR < 4294967296 -> empty_slot NR 0 (tables h) = Some (j, i) ->
  alloc_result n h
    ((_ ← modify (fun h => set_tables (add_slots j 1 (tables h)) h);
      m ← new_pool n (real_size n) (Some (number NR j i));
      _ ← modify (fun h => set_last ((length (tables h) - 1 - j)%nat, i) (number NR j i)
                             (set_tables (set_entry j i m (tables h)) h));
      mret (u32 (memory m + sizeof_header))) h).
Proof.
  intros Hok Hroom Hn Hsv Hreal HNRb Hslot. apply empty_slot_spec in Hslot as (m0 & _ & He0 & Hb0).
  rewrite Nat.sub_0_r in He0. pose proof (entry_lt _ _ _ _ He0) as Hj.
  pose proof (entry_bound _ _ _ _ _ (ho_sized _ _ Hok) He0) as Hi. unfold_st. cbn [modify].
  set (h1 := set_tables (add_slots j 1 (tables h)) h).
  destruct (run_new_pool L h1 n (real_size n) (Some (number NR j i)) (ho_owns _ _ Hok) Hroom Hsv)
    as [(-> & n' & p' & E)|(m & w' & p2 & -> & Hfp & Ho2 & _)].
  { left. split; [done|]. left. by eexists _, _. }
  right. match goal with |- exists a h' L', Ret (_, ?x) = _ /\ _ => set (h' := x) end.
  assert (entry (add_slots j 1 (tables h)) j i = Some m0) as He1 by by rewrite entry_add_slots.
  assert (tables h' = set_entry j i m (add_slots j 1 (tables h))) as Eh' by done.
  assert (length (tables h') = length (tables h)) as Hlen.
  { rewrite Eh'. unfold set_entry, add_slots. by rewrite !length_alter. }
  assert (forall j' i', entry (tables h') j' i' =
    if decide ((j', i') = (j, i)) then Some m else entry (tables h) j' i') as Hentry.
  { intros j' i'. rewrite Eh', (entry_set _ _ _ _ _ _ _ He1).
    by rewrite entry_add_slots. }
  assert (all_sized NR (tables h')) as Hsz.
  { rewrite Eh'. apply all_sized_set, all_sized_add, Hok. }
  assert (last h' = Some ((length (tables h) - 1 - j)%nat, i) /\
    (length (tables h) - 1 - j < length (tables h'))%nat /\ (i < NR)%nat) as Hlast.
  { split; [|lia].
    change (last h') with (Some ((length (add_slots j 1 (tables h)) - 1 - j)%nat, i)).
    unfold add_slots. by rewrite length_alter. }
  assert (forall j' i' m', entry (tables h') j' i' = Some m' ->
    if decide ((j', i') = (j, i)) then m' = m
    else m' = zero_mem \/ (0 <= j')%nat /\ entry (tables h) (j' - 0) i' = Some m') as Hold.
  { intros j' i' m'. rewrite Hentry. destruct (decide _); [by intros [= ->]|].
    rewrite Nat.sub_0_r. intros. right. split; [lia|done]. }
  assert (entry (tables h') j i = Some m) as Hthere by by rewrite Hentry, decide_True.
  assert (forall j' i' m', entry (tables h) j' i' = Some m' -> (j' + 0, i')%nat <> (j, i) ->
    entry (tables h') (j' + 0) i' = Some m') as Hkept.
  { intros j' i' m' He Hne. rewrite Hentry, decide_False by done. by rewrite Nat.add_0_r. }
  assert (forall m', (0 <= j)%nat -> entry (tables h) (j - 0) i = Some m' -> nr_blocks m' = 0) as Hempty.
  { intros m' _. rewrite Nat.sub_0_r, He0. by intros [= <-]. }
  assert (length (tables h') = 1%nat -> (0%nat = 0%nat \/ tables h = []) /\
    nr_slot h' = Z.of_nat i /\ w' !! memory m = Some (Z.of_nat i)) as Hnumber.
  { rewrite Hlen. intros Hl. assert (j = 0%nat) as -> by lia.
    assert (number NR 0 i = Z.of_nat i) as En by (unfold number; lia).
    split; [by left|]. split; [exact En|]. rewrite (fp_slot _ _ _ _ _ _ _ Hfp), En.
    f_equal. apply u32_small. lia. }
  exists (memory m + 8), h', (<[memory m := nr_pages m]> L). split; [|split].
  - f_equal. f_equal. apply u32_small. unfold sizeof_header.
    pose proof (owns_range _ _ _ _ Ho2 (lookup_insert_eq L _ _)) as (? & ? & ?).
    unfold NR_PAGE_SIZE in *. lia.
  - eapply (install_ok L h h' w' m n (real_size n) _ j i 0); done.
  - eapply (install_allocated L h h' w' m n (real_size n) _ j i 0); try done; lia.
Qed.

(** Every branch of the allocation. *)
Lemma run_balloc L h n :
  heap_ok L h -> steady (pages h) -> table_ok -> Z.of_nat NR < 4294967296 -> 0 <= n < 4294967280 ->
  servable (real_size n) -> alloc_result n h (balloc NR n h).
Proof.
  intros Hok Hsteady Htab HNRb Hn Hsv. pose proof (real_size_spec n Hn) as [Hreal _].
  unfold balloc. cbn zeta.
  unfold mbind at 1, st_bind at 1.
  destruct (run_try_last L h n Hok HNRb) as [-> | (a & h' & -> & Hok' & Ha)].
  2:{ right. by exists a, h', L. }
  unfold mbind at 1, st_bind at 1, get.
  destruct (tables h) as [|t ts] eqn:Et.
  { apply (run_new_table L); auto; lia. }
  rewrite <- Et.
  destruct (scan_tables_spec L h n (tables h) 0 Hok) as [E | (j & i & m & mptr & E & He & Ho)]; [done| |];
    unfold mbind at 1, st_bind at 1, lift; rewrite E.
  - destruct (empty_slot NR 0 (tables h)) as [[j i]|] eqn:Es.
    + apply (run_empty_slot L h n j i Hok (proj1 Hsteady)); (done || lia).
    + apply (run_new_table L); auto; [lia|]. rewrite Et. done.
  - destruct (run_take L h j i m mptr (number NR j i) n Hok He Ho) as (h' & E' & Hok' & Ha).
    { pose proof (entry_lt _ _ _ _ He). pose proof (entry_bound _ _ _ _ _ (ho_sized _ _ Hok) He).
      intros Hl. assert (j = 0%nat) as -> by lia. unfold number. lia. }
    rewrite E'. right. by exists (mptr + 8), h', L.
Qed.

(** ** Freeing *)

Lemma nr_used_zero w m k : nr_used w m = 0 -> 0 <= k < nr_blocks m -> used w m k = false.
Proof.
  intros Hz Hk. destruct (used w m k) eqn:Eu; [|done].
  pose proof (count_pos (fun k => used w m (Z.of_nat k)) (Z.to_nat (nr_blocks m)) (Z.to_nat k)) as Hp.
  cbn beta in Hp. rewrite Z2Nat.id in Hp by lia. specialize (Hp ltac:(lia) Eu).
  unfold nr_used in Hz. lia.
Qed.

(** Giving back the pages of a pool with no block in use. *)
Lemma drop_pool L h i m p' v pgs :
  heap_ok L h -> length (tables h) = 1%nat -> entry (tables h) 0 i = Some m -> nr_blocks m <> 0 ->
  nr_used (words h) m = 0 -> v = 0 -> owns p' (delete (memory m) L) ->
  let h' := Heap (set_entry 0 i (Mem_t 0 0 0 v pgs 0) (tables h)) (last h) (nr_slot h) (words h) p' in
  heap_ok (delete (memory m) L) h' /\ forall a r, region h' a r <-> region h a r.
Proof.
  intros Hok Hl He Hb Hz -> Ho h'.
  assert (forall j' i', entry (tables h') j' i' =
    if decide ((j', i') = (0%nat, i)) then Some (Mem_t 0 0 0 0 pgs 0) else entry (tables h) j' i') as Hentry
    by (intros; unfold h'; cbn [tables]; by eapply entry_set).
  assert (length (tables h') = 1%nat) as Hl'.
  { unfold h'. cbn [tables]. unfold set_entry. by rewrite length_alter. }
  split.
  - split; cbn [pages words last].
    + done.
    + unfold h'. cbn [tables]. apply all_sized_set, Hok.
    + intros j' i' m'. rewrite Hentry. destruct (decide _) as [|Hne]; [intros [= <-]; simpl; auto with lia|].
      intros He'. destruct (ho_pool _ _ Hok _ _ _ He') as [Ha [?|Hwf]]; [auto|]. split; [done|].
      destruct (decide (nr_blocks m' = 0)) as [|Hb']; [by left|right].
      eapply agree_wf; [done|by intros ??|]. rewrite lookup_delete_ne; [apply Hwf|].
      intros Em. apply Hne. symmetry. by eapply (ho_distinct _ _ Hok).
    + intros j1 i1 m1 j2 i2 m2. rewrite !Hentry.
      destruct (decide _) as [|]; [by intros [= <-]|]. destruct (decide _) as [|]; [by intros ? [= <-]|].
      apply (ho_distinct _ _ Hok).
    + intros b i' E. rewrite Hl'. rewrite <- Hl. by apply (ho_last _ _ Hok).
    + intros _. destruct (ho_exact _ _ Hok Hl) as [Ea Es El]. split.
      * intros i' m'. rewrite Hentry. destruct (decide _); [by intros [= <-]|]. apply Ea.
      * intros i' m' k. rewrite Hentry. destruct (decide _); [intros [= <-]; simpl; lia|]. apply Es.
      * apply El.
  - intros a r. split; intros (j' & i' & m' & k & He' & Hk & Hu & -> & ->); exists j', i', m', k.
    + rewrite Hentry in He'. destruct (decide _); [injection He' as <-; simpl in Hk; lia|]. done.
    + rewrite Hentry. destruct (decide _) as [E|]; [|done].
      assert (j' = 0%nat /\ i' = i) as [-> ->] by (split; congruence). rewrite He in He'.
      injection He' as <-. by rewrite (nr_used_zero _ _ _ Hz Hk) in Hu.
Qed.

(** The result of a release: the page allocator panics on a live run, or the
    block is gone. *)
Definition free_result (L : gmap Z Z) (a : Z) (h : heap P) (r : outcome (unit * heap P)) : Prop :=
  r = Panic /\ (exists b n, L !! b = Some n /\ block_free b n (pages h) = Panic) \/
  exists h' L', r = Ret (tt, h') /\ heap_ok L' h' /\ released a h h'.

Lemma run_bfree L h a r :
  heap_ok L h -> length (tables h) = 1%nat -> Z.of_nat NR < 4294967296 -> region h a r ->
  free_result L a h (bfree NR a h).
Proof.
  intros Hok Hl HNRb (j & i & m & k & He & Hk & Hu & -> & ->).
  pose proof (entry_lt _ _ _ _ He) as Hj. assert (j = 0%nat) as -> by lia. clear Hj.
  pose proof (entry_bound _ _ _ _ _ (ho_sized _ _ Hok) He) as Hi.
  destruct (ho_exact _ _ Hok Hl) as [Ha Hs Hlast]. pose proof (Hs _ _ _ He Hk Hu) as Hslot.
  destruct (ho_pool _ _ Hok _ _ _ He) as [_ [?|Hwf]]; [lia|].
  pose proof (wf_range _ _ _ _ Hok Hwf). pose proof (hdr_inside _ _ _ _ Hwf Hk).
  pose proof (pw_rsize _ _ _ Hwf) as Hr. pose proof (Ha _ _ He) as Hcount.
  assert (0 < nr_alloc m < 4294967296) as Hal.
  { rewrite Hcount. split.
    - apply (count_pos _ _ (Z.to_nat k)); [lia|]. by rewrite Z2Nat.id by lia.
    - pose proof (count_bounds (fun k => used (words h) m (Z.of_nat k)) (Z.to_nat (nr_blocks m))).
      unfold nr_used. pose proof (pw_inside _ _ _ Hwf). pose proof (pw_blocks _ _ _ Hwf). nia. }
  unfold bfree. unfold_st. unfold get, sizeof_header. replace (hdr m k + 8 - 8) with (hdr m k) by lia.
  rewrite u32_small by lia. rewrite Hslot. cbn [checked].
  rewrite Z.div_small, Z.mod_small, Nat2Z.id by lia. unfold put.
  assert (exists t, tables h = [t]) as [t Et].
  { destruct (tables h) as [|t [|]]; [done|by exists t|done]. }
  rewrite Et. cbn [free_loop]. unfold_st. rewrite Z.mul_0_r.
  change (0 =? u32 0) with true. cbn iota. unfold get, put.
  change (tables (set_words (<[hdr m k + 4 := FREE_MEM]> (words h)) h)) with (tables h).
  rewrite He. cbn [checked]. cbn zeta.
  set (v := u32 (nr_alloc m - 1)). assert (v = nr_alloc m - 1) as Hv by (apply u32_small; lia).
  match goal with |- context [set_tables ?ts ?hh] => set (h1 := set_tables ts hh) end.
  assert (words h1 = <[hdr m k := Z.of_nat i]> (<[hdr m k + 4 := FREE_MEM]> (words h))) as Hw1.
  { unfold h1. cbn [words set_tables set_words]. symmetry. apply insert_id.
    by rewrite lookup_insert_ne by lia. }
  assert (tables h1 = set_entry 0 i (set_alloc v m) (add_slots 0 (-1) (tables h))) as Et1 by done.
  assert (length (tables h1) = length (tables h)) as Hl1.
  { rewrite Et1. unfold set_entry, add_slots. by rewrite !length_alter. }
  assert (forall j' i', entry (tables h1) j' i' =
    if decide ((j', i') = (0%nat, i)) then Some (set_alloc v m) else entry (tables h) j' i') as Hentry.
  { intros j' i'. rewrite Et1, (entry_set _ _ _ _ _ _ m) by by rewrite entry_add_slots.
    by rewrite entry_add_slots. }
  assert (nr_used (words h1) m = v) as Hused1.
  { rewrite Hw1, nr_used_written, Hu, Hv, <- Hcount by done. change (FREE_MEM =? USED_MEM) with false.
    simpl. lia. }
  assert (heap_ok L h1) as Hok1.
  { apply (touch_ok L h h1 0 i m k FREE_MEM (Z.of_nat i) v); try done; [by left|lia| | |].
    - rewrite Et1. apply all_sized_set, all_sized_add, Hok.
    - intros b i'. unfold h1. cbn [last set_tables set_words]. apply (ho_last _ _ Hok).
    - intros _. split.
      + intros i' m'. rewrite Hentry. destruct (decide _) as [|Hne].
        * intros [= <-]. by rewrite <- Hused1.
        * intros He'. rewrite (Ha _ _ He'). destruct (decide (nr_blocks m' = 0)) as [E0|].
          { unfold nr_used. by rewrite E0. }
          destruct (ho_pool _ _ Hok _ _ _ He') as [_ [?|Hwf']]; [done|].
          symmetry. rewrite Hw1. eapply agree_nr_used; [done|]. by eapply written_agree.
      + intros i' m' k'. rewrite Hentry. destruct (decide _) as [E|Hne].
        * intros [= <-] Hk' Hu'. assert (i' = i) as -> by congruence.
          change (hdr (set_alloc v m) k') with (hdr m k'). rewrite Hw1.
          destruct (written_header (words h) m k FREE_MEM (Z.of_nat i) k' Hr) as [E1 ->].
          destruct (decide (k' = k)) as [_|Hkk]; [done|].
          apply Hs; [done|done|]. unfold used in Hu' |- *.
          change (hdr (set_alloc v m) k') with (hdr m k') in Hu'. by rewrite Hw1, E1 in Hu'.
        * intros He' Hk' Hu'. destruct (ho_pool _ _ Hok _ _ _ He') as [_ [?|Hwf']]; [lia|].
          assert (agree (words h) (words h1) m') as Hag.
          { rewrite Hw1. eapply written_agree; [done|done|done|done|lia|done]. }
          rewrite (agree_used L (words h) (words h1) m') in Hu' by done.
          rewrite Hag; [by apply Hs|].
          pose proof (hdr_inside _ _ _ _ Hwf' Hk'). pose proof (pw_rsize _ _ _ Hwf'). lia.
      + intros b i'. unfold h1. cbn [last nr_slot set_tables set_words]. apply Hlast. }
  assert (released (hdr m k + 8) h h1) as Hrel.
  { intros a' r'.
    rewrite (touch_region L h h1 0 i m k FREE_MEM (Z.of_nat i) v Hok He Hk (or_introl eq_refl) Hw1 Hl1 Hentry).
    split; [|by left]. intros [?|[? _]]; done. }
  cbn [nr_alloc set_alloc memory nr_pages]. destruct (Z.eqb_spec v 0) as [Hv0|]; cbn [mret].
  2:{ right. by exists h1, L. }
  destruct (block_free_ok (pages h1) L (memory m) (nr_pages m) (ho_owns _ _ Hok1) (pw_run _ _ _ Hwf))
    as [E|(p' & E & Ho)]; unfold paged; rewrite E;
    [left; split; [done|]; exists (memory m), (nr_pages m); split; [apply Hwf|exact E]|]. right.
  destruct (drop_pool L h1 i (set_alloc v m) p' v (nr_pages m) Hok1) as [Hok2 Hreg]; try done.
  - lia.
  - by rewrite Hentry, decide_True.
  - simpl. lia.
  - change (nr_used (words h1) m = 0). lia.
  - eexists _, _. split; [reflexivity|]. split; [exact Hok2|].
    intros a' r'. rewrite Hreg. apply Hrel.
Qed.

(** ** The contract *)


(** C17: as long as the heap has a single table, freeing a block in use takes
    exactly this block out of use and keeps the heap in order, unless the page
    allocator panics on the run of pages it gets back. *)
Theorem bfree_correct L h a r :
  heap_ok L h -> length (tables h) = 1%nat -> Z.of_nat NR < 4294967296 -> region h a r ->
  (bfree NR a h = Panic /\ exists b n, L !! b = Some n /\ block_free b n (pages h) = Panic) \/
  exists h' L', bfree NR a h = Ret (tt, h') /\ heap_ok L' h' /\
    forall a' r', region h' a' r' <-> a' <> a /\ region h a' r'.
Proof. intros Hok Hl HN Ha. by eapply run_bfree. Qed.
End Spec.
