(* ===== verification/PagePools.v ===== *)
(** * The heap allocators over the page allocators

    [malloc] on the pages of users and [kmalloc] on those of the kernel.  The
    user pool keeps the promises the heap relies on; the two tables of
    [kmalloc] show what happens past the first sixteen sizes. *)

From S2P Require Import Prelude Page Heap HeapSpec.

(** [block] and [block_free] of [mm/malloc.c] and of [mm/kmalloc.c]. *)
Definition user_pool : PagePool mem := {| block := page_alloc; block_free := page_free |}.
Definition kernel_pool : PagePool mem := {| block := kpage_alloc; block_free := kpage_free |}.

#[local] Existing Instance user_pool.

(** ** The user pool keeps its promises *)

(** The largest request, in pages: enough for a table of [malloc]. *)
Definition MAX_REQUEST : Z := 512.

(** The live regions, as page numbers. *)
Definition regions (L : gmap Z Z) : list (Z * Z) :=
  map (fun r => (fst r / PAGE_SIZE, snd r)) (map_to_list L).

Lemma owners_perm l l' i : l ≡ₚ l' -> owners l i = owners l' i.
Proof. induction 1 as [|[]|[] []|]; cbn [owners]; lia. Qed.

Lemma total_perm l l' : l ≡ₚ l' -> total l = total l'.
Proof. induction 1 as [|[]|[] []|]; cbn [total]; lia. Qed.

Lemma live_perm m l l' : l ≡ₚ l' -> live_ok m l -> live_ok m l'.
Proof.
  intros Hp [Hu Hb Ht Hi]. split; [done| | |by rewrite <- Hp].
  - intros i. rewrite <- (owners_perm _ _ _ Hp). apply Hb.
  - by rewrite <- (total_perm _ _ Hp).
Qed.

Lemma regions_insert L a n : L !! a = None -> regions (<[a := n]> L) ≡ₚ (a / PAGE_SIZE, n) :: regions L.
Proof. intros Ha. unfold regions. by rewrite map_to_list_insert. Qed.

Lemma regions_lookup L a n : L !! a = Some n -> regions L ≡ₚ (a / PAGE_SIZE, n) :: regions (delete a L).
Proof.
  intros Ha. rewrite <- (regions_insert (delete a L)) by apply lookup_delete_eq.
  by rewrite insert_delete_id.
Qed.

Definition user_owns (m : mem) (L : gmap Z Z) : Prop :=
  live_ok m (regions L) /\ forall a n, L !! a = Some n -> a mod PAGE_SIZE = 0.

Lemma aligned_page a : a mod PAGE_SIZE = 0 -> a = a / PAGE_SIZE * PAGE_SIZE.
Proof. unfold PAGE_SIZE. intros Ha. pose proof (Z.div_mod a 4096). lia. Qed.

Lemma user_owns_region m L a n : user_owns m L -> L !! a = Some n ->
  let p := a / PAGE_SIZE in
  a = p * PAGE_SIZE /\ START_UMEM (params m) / PAGE_SIZE <= p /\ 0 < p /\ 0 < n /\ p + n < 1048576 /\
  live_ok m ((p, n) :: regions (delete a L)).
Proof.
  intros [Hl Ha] E. pose proof (live_perm _ _ _ (regions_lookup _ _ _ E) Hl) as Hl'.
  pose proof (live_inside _ _ Hl') as [(H1 & H2 & H3) _]%Forall_cons. cbn [fst snd] in *.
  pose proof (proj2 (live_user _ _ Hl)) as [_ Hcap Hf _ _ _].
  split; [by apply aligned_page, (Ha _ n)|]. split_and!; (done || lia).
Qed.

Lemma user_room_less m n : user_room m MAX_REQUEST -> 0 < n <= MAX_REQUEST -> user_room m n.
Proof. intros [H0 (H1 & H2 & H3 & H4)] Hn. split; [lia|]. repeat split; lia. Qed.

Lemma user_disjoint m L a n b n' :
  user_owns m L -> L !! a = Some n -> L !! b = Some n' -> a <> b ->
  a + n * NR_PAGE_SIZE <= b \/ b + n' * NR_PAGE_SIZE <= a.
Proof.
  intros Ho Ea Eb Hne. destruct (user_owns_region _ _ _ _ Ho Ea) as (Aa & Sa & _ & Na & _ & Hl).
  destruct (user_owns_region _ _ _ _ Ho Eb) as (Ab & Sb & _ & Nb & _ & _).
  assert (delete a L !! b = Some n') as Eb' by by rewrite lookup_delete_ne.
  pose proof (live_perm _ _ _ (perm_skip _ (regions_lookup _ _ _ Eb')) Hl) as Hl'.
  set (p := a / PAGE_SIZE) in *. set (q := b / PAGE_SIZE) in *. clearbody p q.
  rewrite Aa, Ab in *. clear Aa Ab.
  pose proof (live_bits _ _ Hl' (Z.max p q) ltac:(lia)) as Hb. unfold PAGE_SIZE, NR_PAGE_SIZE in *.
  destruct (decide (p + n <= q)); [left; lia|]. destruct (decide (q + n' <= p)); [right; lia|]. exfalso.
  cbn [owners] in Hb.
  pose proof (owners_nonneg (regions (delete (q * 4096) (delete (p * 4096) L))) (Z.max p q)).
  rewrite !(proj2 (Z.leb_le _ _)), !(proj2 (Z.ltb_lt _ _)) in Hb by lia. cbn [andb] in Hb.
  destruct (in_use (mem_map m) (Z.max p q)); simpl in Hb; lia.
Qed.

Lemma user_alloc m L n :
  user_owns m L -> user_room m MAX_REQUEST -> 0 < n <= MAX_REQUEST ->
  (exists m', page_alloc n m = Ret (0, m')) \/
  (exists a m', page_alloc n m = Ret (a, m') /\ L !! a = None /\ user_owns m' (<[a := n]> L)).
Proof.
  intros [Hl Ha] Hroom Hn. pose proof (user_room_less m n Hroom Hn) as Hroom'.
  destruct (page_alloc_cases m n (live_user _ _ Hl) Hroom') as (a & b' & al & la & E & _ & [(-> & _)|(H0 & Hg & _)]).
  { left. by eexists. }
  right. destruct Hg as (p & -> & Hfirst & _ & Hfree & _). exists (p * PAGE_SIZE), (set_user b' al la m).
  split; [done|].
  assert (p <> 0) as Hp0 by (unfold PAGE_SIZE in *; lia).
  assert (L !! (p * PAGE_SIZE) = None) as Hnew.
  { destruct (L !! (p * PAGE_SIZE)) as [n'|] eqn:E'; [exfalso|done].
    pose proof (user_owns_region m L _ _ (conj Hl Ha) E') as (_ & _ & _ & Hn' & _ & Hl').
    unfold PAGE_SIZE in Hl'. rewrite Z.div_mul in Hl' by lia.
    pose proof (live_bits _ _ Hl' p Hfirst) as Hb. cbn [owners] in Hb.
    pose proof (owners_nonneg (regions (delete (p * 4096) L)) p).
    rewrite (proj2 (Z.leb_le _ _)), (proj2 (Z.ltb_lt _ _)) in Hb by lia.
    rewrite (Hfree p) in Hb by lia. simpl in Hb. lia. }
  split; [done|]. split.
  - eapply live_perm; [symmetry; by apply regions_insert|].
    unfold PAGE_SIZE at 1. rewrite Z.div_mul by lia. by eapply live_alloc.
  - intros a n'. destruct (decide (a = p * PAGE_SIZE)) as [-> | ].
    + intros _. unfold PAGE_SIZE. by apply Z.mod_mul.
    + rewrite lookup_insert_ne by done. apply Ha.
Qed.

Lemma user_free m L a n :
  user_owns m L -> L !! a = Some n ->
  page_free a n m = Panic \/ exists m', page_free a n m = Ret (tt, m') /\ user_owns m' (delete a L).
Proof.
  intros Ho E. pose proof Ho as [Hl Ha].
  destruct (user_owns_region _ _ _ _ Ho E) as (Aa & Sa & _ & Na & Hb & Hl').
  set (p := a / PAGE_SIZE) in *. clearbody p. rewrite Aa in *. clear Aa.
  pose proof (live_user _ _ Hl) as Hu.
  destruct (Z.lt_ge_cases (NR_PAGES (params m)) p) as [Hlt|Hge].
  { left. unfold page_free. unfold_st. unfold get, PAGE_SIZE. rewrite Z.div_mul by lia.
    rewrite (proj2 (Z.ltb_lt _ p) Hlt). by rewrite orb_true_r. }
  pose proof (live_inside _ _ Hl') as [(H1 & H2 & H3) Hin]%Forall_cons. cbn [fst snd] in *.
  pose proof (total_nonneg _ _ (fun r Hr => proj1 (proj2 Hr)) Hin) as Ht0.
  pose proof (live_total _ _ Hl') as Ht. cbn [total] in Ht.
  destruct (page_free_spec m p n Hu) as (b' & E' & _ & _); [lia..|].
  right. eexists. split; [exact E'|]. split.
  - by eapply (live_free m _ [] (regions (delete (p * PAGE_SIZE) L)) p n).
  - intros b n' Hb'. apply lookup_delete_Some in Hb' as [_ Hb']. by eapply Ha.
Qed.

#[export] Program Instance user_pool_laws : @PagePoolLaws mem user_pool := {|
  owns := user_owns;
  room m := user_room m MAX_REQUEST;
  max_pages := MAX_REQUEST
|}.
Next Obligation.
  intros m L a n Ho E. destruct (user_owns_region _ _ _ _ Ho E) as (Aa & _ & ? & ? & ? & _).
  set (p := a / PAGE_SIZE) in *. clearbody p. unfold PAGE_SIZE, NR_PAGE_SIZE in *. lia.
Qed.
Next Obligation. exact user_disjoint. Qed.
Next Obligation. exact user_alloc. Qed.
Next Obligation. exact user_free. Qed.

(** What one request changes of the room there is. *)
Lemma page_alloc_bounds m n a m' :
  user_ok m -> user_room m n -> page_alloc n m = Ret (a, m') ->
  params m' = params m /\ ALLOC_PAGES m' <= ALLOC_PAGES m + n /\
  ULAST_PAGE m' <= Z.max (ULAST_PAGE m) (NR_PAGES (params m)) + n + 1.
Proof.
  intros Hok [Hroom0 (Hn & Hr1 & Hr2 & Hr3)]. pose proof Hok as [Hk [Hc Hcap Hf Hl Hlim Ha]].
  unfold page_alloc, mbind, st_bind, get, lift, put, mret, st_ret.
  destruct (Z.leb_spec (UBYTES_FREE (params m)) (u32 (ALLOC_PAGES m * PAGE_SIZE)));
    [intros [= _ <-]; split; [done|]; lia|].
  set (first := START_UMEM (params m) / PAGE_SIZE) in *.
  set (last := if ULAST_PAGE m =? 0 then first else ULAST_PAGE m).
  assert (first <= last <= NR_MEM_MAP (params m) * PAGE_BITS /\
    last + n < NR_MEM_MAP (params m) * PAGE_BITS /\ last <= Z.max (ULAST_PAGE m) (NR_PAGES (params m)))
    as (Hlast & Hlast' & Hle).
  { subst last. destruct (Z.eqb_spec (ULAST_PAGE m) 0); lia. }
  set (m1 := set_user (mem_map m) (ALLOC_PAGES m) last m).
  assert (user_ok m1) as Hok1 by (split; [done|split; simpl; auto; lia]).
  assert (forall p, first <= p -> p < Z.max last (NR_PAGES (params m)) -> take_user p n m1 = Ret (a, m') ->
    params m' = params m /\ ALLOC_PAGES m' <= ALLOC_PAGES m + n /\
    ULAST_PAGE m' <= Z.max (ULAST_PAGE m) (NR_PAGES (params m)) + n + 1) as Htake.
  { intros p Hp1 Hp2. destruct (take_user_spec m1 p n Hok1) as (b' & -> & _); [simpl; fold first; lia..|].
    intros [= _ <-]. simpl. split; [done|]. lia. }
  destruct (scan_spec (mem_map m) _ last (NR_PAGES (params m)) n Hc) as (o1 & -> & H1); [lia..|].
  destruct o1 as [p|]; [apply Htake; lia|].
  destruct (scan_spec (mem_map m) _ first last n Hc) as (o2 & -> & H2); [lia..|].
  destruct o2 as [p|]; [apply Htake; lia|]. intros [= _ <-]. simpl. split; [done|]. lia.
Qed.

Lemma fresh_steady m : mem_ready 32 m -> steady m.
Proof.
  intros Hr. assert (forall n, 0 < n <= 2 * MAX_REQUEST + 1 -> user_room m n) as Hroom.
  { intros n Hn. apply (ready_user_room 32); [lia|done|..]; unfold MAX_REQUEST in *; lia. }
  split; [apply Hroom; unfold MAX_REQUEST; lia|]. intros n a m' Hn E.
  cbn [max_pages user_pool_laws room block user_pool] in *.
  assert (user_room m n) as Hrn by (apply Hroom; lia).
  destruct (page_alloc_bounds m n a m' (proj1 (ready_user _ _ Hr)) Hrn E) as (E1 & E2 & E3).
  destruct (Hroom (n + MAX_REQUEST + 1)) as [R0 (R1 & R2 & R3 & R4)]; [unfold MAX_REQUEST in *; lia|].
  split; [|split_and!]; rewrite ?E1; unfold MAX_REQUEST in *; lia.
Qed.

(** ** A machine of 32 megabytes *)

Lemma boot_ok NR m : user_fresh m -> heap_ok NR ∅ (heap_boot m).
Proof.
  intros Hf. split.
  - split; [|by intros ??]. cbn [pages heap_boot]. unfold regions. rewrite map_to_list_empty. by apply live_fresh.
  - constructor.
  - by intros [].
  - by intros [].
  - done.
  - done.
Qed.

Lemma malloc_table_ok : table_ok MALLOC_SIZES.
Proof.
  unfold table_ok, sizeof_table, MALLOC_SIZES. rewrite Z2Nat.id by lia. by split.
Qed.

Lemma malloc_sizes_pos : (0 < MALLOC_SIZES)%nat /\ Z.of_nat MALLOC_SIZES < 4294967296.
Proof. unfold MALLOC_SIZES. split; lia. Qed.

Lemma servable_100 : servable (real_size 100).
Proof. by repeat split. Qed.

(** The first [malloc] of 100 bytes, evaluated. *)
Lemma first_malloc :
  match mem_init (32 * ONE_MEG) with
  | Ret m => match malloc 100 (heap_boot m) with
             | Ret (a, h) => Nat.eqb (length (tables h)) 1 | _ => false end
  | _ => false
  end = true.
Proof. vm_compute. reflexivity. Qed.


Lemma bfree_correct_witness :
  exists m a h1 r, mem_ready 32 m /\ malloc 100 (heap_boot m) = Ret (a, h1) /\ region h1 a r /\
    (free a h1 <> Panic -> exists h2, free a h1 = Ret (tt, h2) /\ ~ region h2 a r).
Proof.
  destruct ready_32 as (m & E0 & H). pose proof first_malloc as Hrun. rewrite E0 in Hrun.
  destruct malloc_sizes_pos as [H1 H2]. exists m.
  destruct (run_balloc MALLOC_SIZES H1 ∅ (heap_boot m) 100) as [[E Hs]|(a & h1 & L1 & E & Hok & r & Hr & _ & Hreg)];
    [apply boot_ok, H|by apply fresh_steady|exact malloc_table_ok|exact H2|lia|exact servable_100| |].
  { unfold malloc in Hrun. rewrite E in Hrun. discriminate Hrun. }
  unfold malloc in *. rewrite E in Hrun. exists a, h1, r.
  assert (region h1 a r) as Ha by (apply Hreg; right; split; reflexivity).
  split; [exact H|]. split; [exact E|]. split; [exact Ha|]. intros Hp.
  destruct (bfree_correct MALLOC_SIZES H1 L1 h1 a r Hok) as [[Ep _]|(h2 & L2 & E2 & _ & Hiff)];
    [apply Nat.eqb_eq, Hrun|exact H2|exact Ha| |].
  - destruct (Hp Ep).
  - exists h2. split; [exact E2|]. intros [Hne _]%Hiff. exact (Hne eq_refl).
Defined.

(** ** Two tables

    The tables of [kmalloc] have sixteen entries and a new table is linked in
    front of the others; the number in a header counts from the root of the time
    of the allocation, [kfree] from the root of the time of the release. *)
Section Kmalloc.
#[local] Existing Instance kernel_pool | 0.

Fixpoint kmallocs (n : nat) (sz : Z) : st (heap mem) (list Z) :=
  match n with
  | O => mret []
  | S n => a ← kmalloc sz; l ← kmallocs n sz; mret (a :: l)
  end.

(** Seventeen blocks, the first freed and one more. *)
Definition seventeen : st (heap mem) (list Z * Z) :=
  l ← kmallocs 17 4088;
  _ ← kfree (default 0 (head l));
  b ← kmalloc 4088;
  mret (l, b).

(** The machine of 32 megabytes, from the start: of seventeen blocks only the
    first is freed, and the next call returns the seventeenth again, which is
    still in use. *)
Theorem kmalloc_reuses_live :
  exists m l b h, mem_init (32 * ONE_MEG) = Ret m /\ seventeen (heap_boot m) = Ret ((l, b), h) /\
    NoDup l /\ length l = 17%nat /\ l !! 16%nat = Some b.
Proof.
  destruct ready_32 as (m & E & _). exists m.
  assert (match mem_init (32 * ONE_MEG) with
          | Ret m => match seventeen (heap_boot m) with
                     | Ret ((l, b), h) => bool_decide (NoDup l /\ length l = 17%nat /\ l !! 16%nat = Some b)
                     | _ => false end
          | _ => false end = true) as Hrun by (vm_compute; reflexivity).
  rewrite E in Hrun. destruct (seventeen (heap_boot m)) as [[[l b] h]| | |] eqn:Es; try discriminate Hrun.
  apply bool_decide_eq_true in Hrun. exists l, b, h. split; [exact E|]. split; [reflexivity|exact Hrun].
Qed.
End Kmalloc.
