(* ===== verification/Segment.v ===== *)
(** * Segment descriptors and the descriptor tables

    [platform/i386/arch/segment.c] (reading and writing the fields of a
    descriptor) and [platform/i386/arch/protected_mode.c] (the descriptors the
    kernel builds and the tables it loads).  A descriptor is its two words.
    Every writer or-s bits into the word it finds, so what a builder leaves
    depends on the descriptor it starts from: the table entries are zero when
    [protect_init] runs.  The entry points of the assembly stubs are addresses
    the linker chooses, a parameter here. *)

From S2P Require Import Prelude.
From S2P Require Import Page.

Record segment_descriptor := { lw0 : Z; lw1 : Z }.

Definition zero_descriptor : segment_descriptor := {| lw0 := 0; lw1 := 0 |}.

Definition descriptor_ok (d : segment_descriptor) : Prop :=
  0 <= lw0 d < 4294967296 /\ 0 <= lw1 d < 4294967296.

(** ** Reading a field *)

Definition _DESC_AVL (d : segment_descriptor) : Z := Z.land (Z.shiftr (lw1 d) 20) 0x1.
Definition _DESC_BASE (d : segment_descriptor) : Z :=
  Z.lor (Z.lor (Z.land (Z.shiftr (lw0 d) 16) 0xFFFF) (Z.shiftl (Z.land (lw1 d) 0xFF) 16))
        (Z.shiftl (Z.land (Z.shiftr (lw1 d) 24) 0xFF) 24).
Definition _DESC_DB (d : segment_descriptor) : Z := Z.land (Z.shiftr (lw1 d) 22) 0x1.
Definition _DESC_DPL (d : segment_descriptor) : Z := Z.land (Z.shiftr (lw1 d) 13) 0x3.
Definition _DESC_GRAN (d : segment_descriptor) : Z := Z.land (Z.shiftr (lw1 d) 23) 0x1.
Definition _DESC_LIMIT (d : segment_descriptor) : Z :=
  Z.land (Z.lor (Z.land (lw0 d) 0xFFFF) (Z.shiftl (Z.land (Z.shiftr (lw1 d) 16) 0xF) 16)) 0x000FFFFF.
Definition _DESC_PRESENT (d : segment_descriptor) : Z := Z.land (Z.shiftr (lw1 d) 15) 0x1.
Definition _DESC_SYSTEM (d : segment_descriptor) : Z := Z.land (Z.shiftr (lw1 d) 12) 0x1.
Definition _DESC_TYPE (d : segment_descriptor) : Z := Z.land (Z.shiftr (lw1 d) 8) 0xF.
Definition _DESC_OFFSET (d : segment_descriptor) : Z :=
  Z.lor (Z.land (lw0 d) 0xFFFF) (Z.land (lw1 d) 0xFFFF0000).
Definition _DESC_SELECTOR (d : segment_descriptor) : Z := Z.land (Z.shiftr (lw0 d) 16) 0xFFFF.

(** ** Writing a field

    The value is an [unsigned int]; no shift leaves its 32 bits. *)

Definition or_lw0 (v : Z) (d : segment_descriptor) : segment_descriptor :=
  {| lw0 := Z.lor (lw0 d) v; lw1 := lw1 d |}.
Definition or_lw1 (v : Z) (d : segment_descriptor) : segment_descriptor :=
  {| lw0 := lw0 d; lw1 := Z.lor (lw1 d) v |}.

Definition _SET_DESC_AVL (data : Z) (d : segment_descriptor) : segment_descriptor :=
  or_lw1 (Z.shiftl (Z.land 0x1 data) 20) d.
Definition _SET_DESC_BASE (data : Z) (d : segment_descriptor) : segment_descriptor :=
  or_lw1 (Z.land 0xFF000000 data)
    (or_lw1 (Z.shiftr (Z.land 0xFF0000 data) 16)
      (or_lw0 (Z.shiftl (Z.land 0xFFFF data) 16) d)).
Definition _SET_DESC_DB (data : Z) (d : segment_descriptor) : segment_descriptor :=
  or_lw1 (Z.shiftl (Z.land 0x1 data) 22) d.
Definition _SET_DESC_DPL (data : Z) (d : segment_descriptor) : segment_descriptor :=
  or_lw1 (Z.shiftl (Z.land 0x3 data) 13) d.
Definition _SET_DESC_GRAN (data : Z) (d : segment_descriptor) : segment_descriptor :=
  or_lw1 (Z.shiftl (Z.land 0x1 data) 23) d.
Definition _SET_DESC_LIMIT (data : Z) (d : segment_descriptor) : segment_descriptor :=
  or_lw1 (Z.land 0xF0000 data) (or_lw0 (Z.land 0xFFFF data) d).
Definition _SET_DESC_PRESENT (data : Z) (d : segment_descriptor) : segment_descriptor :=
  or_lw1 (Z.shiftl (Z.land 0x1 data) 15) d.
Definition _SET_DESC_SYSTEM (data : Z) (d : segment_descriptor) : segment_descriptor :=
  or_lw1 (Z.shiftl (Z.land 0x1 data) 12) d.
Definition _SET_DESC_TYPE (data : Z) (d : segment_descriptor) : segment_descriptor :=
  or_lw1 (Z.shiftl (Z.land 0xF data) 8) d.
Definition _SET_DESC_OFFSET (data : Z) (d : segment_descriptor) : segment_descriptor :=
  or_lw1 (Z.land 0xFFFF0000 data) (or_lw0 (Z.land 0xFFFF data) d).
Definition _SET_DESC_SELECTOR (data : Z) (d : segment_descriptor) : segment_descriptor :=
  or_lw0 (Z.shiftl (Z.land 0xFFFF data) 16) d.

(** ** The values of [segment_defs.h], [segment_selectors.h] and
    [protected_mode_defs.h] *)

Definition _DESC_EXECREADONLY : Z := 2.
Definition _DESC_DEFAULT_OP : Z := 1.
Definition _DESC_READWRITE : Z := 2.
Definition _DESC_GRANULARITY : Z := 1.
Definition _DESC_CODESEG : Z := 8.
Definition _DESC_DATASEG : Z := 0.
Definition _DESC_CSSEG : Z := 1.
Definition _DESC_SYSSEG : Z := 0.
Definition _DESC_PRESENTF : Z := 1.
Definition _DESC_EXPANDDOWN : Z := 4.
Definition _DESC_INTERRUPT : Z := 14.
Definition _DESC_TRAP : Z := 15.
Definition _DESC_TSS : Z := 9.
Definition _DESC_LDT : Z := 2.
Definition KERNEL_CS : Z := 0x10.
Definition Nr_IDT : Z := 255.
Definition Nr_EXCPT_HNDLR : Z := 19.
Definition Nr_INT_HNDLR : Z := 16.
Definition SYSCALL_INT : Z := 80.

(** ** Building a descriptor *)

Definition protect_init_systemdesc (base limit : Z) (d : segment_descriptor) : segment_descriptor :=
  _SET_DESC_GRAN _DESC_GRANULARITY (_SET_DESC_LIMIT limit (_SET_DESC_BASE base d)).

(** The four writers every code, data and stack segment ends with, before the
    type. *)
Definition set_user_flags (privilege : Z) (d : segment_descriptor) : segment_descriptor :=
  _SET_DESC_DB _DESC_DEFAULT_OP
    (_SET_DESC_DPL privilege (_SET_DESC_PRESENT _DESC_PRESENTF (_SET_DESC_SYSTEM _DESC_CSSEG d))).

Definition protect_init_codesegment (base limit privilege : Z) (d : segment_descriptor) :=
  _SET_DESC_TYPE (Z.lor _DESC_CODESEG _DESC_EXECREADONLY)
    (set_user_flags privilege (protect_init_systemdesc base limit d)).

Definition protect_init_datasegment (base limit privilege : Z) (d : segment_descriptor) :=
  _SET_DESC_TYPE (Z.lor _DESC_DATASEG _DESC_READWRITE)
    (set_user_flags privilege (protect_init_systemdesc base limit d)).

Definition protect_init_stacksegment (base limit privilege : Z) (d : segment_descriptor) :=
  _SET_DESC_TYPE (Z.lor (Z.lor _DESC_DATASEG _DESC_READWRITE) _DESC_EXPANDDOWN)
    (set_user_flags privilege (protect_init_systemdesc base limit d)).

Definition protect_init_tsssegment (base limit privilege : Z) (d : segment_descriptor) :=
  _SET_DESC_TYPE _DESC_TSS
    (_SET_DESC_DPL privilege
      (_SET_DESC_PRESENT _DESC_PRESENTF
        (_SET_DESC_SYSTEM _DESC_SYSSEG (protect_init_systemdesc base limit d)))).

Definition protect_init_ldtsegment (base limit privilege : Z) (d : segment_descriptor) :=
  _SET_DESC_TYPE _DESC_LDT
    (_SET_DESC_DPL privilege
      (_SET_DESC_PRESENT _DESC_PRESENTF
        (_SET_DESC_SYSTEM _DESC_SYSSEG (protect_init_systemdesc base limit d)))).

(** A gate: [type] is _DESC_INTERRUPT or _DESC_TRAP. *)
Definition init_gate (type base privilege : Z) (d : segment_descriptor) : segment_descriptor :=
  _SET_DESC_SELECTOR KERNEL_CS
    (_SET_DESC_OFFSET base
      (_SET_DESC_TYPE type
        (_SET_DESC_DPL privilege
          (_SET_DESC_PRESENT _DESC_PRESENTF (_SET_DESC_SYSTEM _DESC_SYSSEG d))))).

(** ** The tables

    [struct excpt_int_tab] names the assembly procedure, the vector and the
    privilege.  The build defines [_USE_NEW_OFFSET] and [_VM_DISABLED]. *)

Inductive stub :=
| excpt_divide_error | excpt_debug | excpt_nmi | excpt_int3 | excpt_overflow | excpt_bounds
| excpt_invalid_operation | excpt_device_not_available | excpt_double_fault
| excpt_coprocessor_segment_overrun | excpt_invalid_TSS | excpt_segment_not_present
| excpt_stack_segment | excpt_general_protection | excpt_page_fault | excpt_reserved
| excpt_coprocessor_error | excpt_alignment_check
| irq_00 | irq_01 | irq_02 | irq_03 | irq_04 | irq_05 | irq_06 | irq_07
| irq_08 | irq_09 | irq_10 | irq_11 | irq_12 | irq_13 | irq_14 | irq_15
| syscall_handler.

#[export] Instance stub_eq_dec : EqDecision stub.
Proof. solve_decision. Defined.

Record excpt_int_tab := { address : stub; vector_number : Z; privilege : Z }.

Definition row (a : stub) (v p : Z) : excpt_int_tab :=
  {| address := a; vector_number := v; privilege := p |}.

Definition IRQ_VECTOR (x : Z) : Z := x + 0x68.
Definition IRQ_VECTOR_S (x : Z) : Z := x + 0x70.

Definition EXCPT_INT_TAB : list excpt_int_tab :=
  [ row excpt_divide_error 0 0; row excpt_debug 1 0; row excpt_nmi 2 0; row excpt_int3 3 3;
    row excpt_overflow 4 0; row excpt_bounds 5 0; row excpt_invalid_operation 6 0;
    row excpt_device_not_available 7 0; row excpt_double_fault 8 0;
    row excpt_coprocessor_segment_overrun 9 0; row excpt_invalid_TSS 10 0;
    row excpt_segment_not_present 11 0; row excpt_stack_segment 12 0;
    row excpt_general_protection 13 0; row excpt_page_fault 14 0; row excpt_reserved 15 0;
    row excpt_coprocessor_error 16 0; row excpt_alignment_check 17 0;
    row excpt_coprocessor_error 18 0;
    row irq_00 (IRQ_VECTOR 0) 0; row irq_01 (IRQ_VECTOR 1) 0; row irq_02 (IRQ_VECTOR 2) 0;
    row irq_03 (IRQ_VECTOR 3) 0; row irq_04 (IRQ_VECTOR 4) 0; row irq_05 (IRQ_VECTOR 5) 0;
    row irq_06 (IRQ_VECTOR 6) 0; row irq_07 (IRQ_VECTOR 7) 0;
    row irq_08 (IRQ_VECTOR_S 8) 0; row irq_09 (IRQ_VECTOR_S 9) 0; row irq_10 (IRQ_VECTOR_S 10) 0;
    row irq_11 (IRQ_VECTOR_S 11) 0; row irq_12 (IRQ_VECTOR_S 12) 0; row irq_13 (IRQ_VECTOR_S 13) 0;
    row irq_14 (IRQ_VECTOR_S 14) 0; row irq_15 (IRQ_VECTOR_S 15) 0 ].

Record tables := { GDT : list segment_descriptor; IDT : list segment_descriptor }.

Definition static_tables : tables :=
  {| GDT := replicate (Z.to_nat Nr_GDT) zero_descriptor;
     IDT := replicate (Z.to_nat Nr_IDT) zero_descriptor |}.

Definition set_GDT (g : list segment_descriptor) (s : tables) : tables := {| GDT := g; IDT := IDT s |}.
Definition set_IDT (g : list segment_descriptor) (s : tables) : tables := {| GDT := GDT s; IDT := g |}.

(** Outside the array the access is undefined. *)
Definition update_table (l : list segment_descriptor) (i : Z)
    (f : segment_descriptor -> segment_descriptor) : option (list segment_descriptor) :=
  if 0 <=? i then
    match l !! Z.to_nat i with
    | Some d => Some (<[Z.to_nat i := f d]> l)
    | None => None
    end
  else None.

Definition get_segment_descriptor (i : Z) : st tables segment_descriptor :=
  s ← get; checked (if 0 <=? i then GDT s !! Z.to_nat i else None).

Definition at_gdt (i : Z) (f : segment_descriptor -> segment_descriptor) : st tables unit :=
  s ← get; g ← checked (update_table (GDT s) i f); put (set_GDT g s).

Definition at_idt (i : Z) (f : segment_descriptor -> segment_descriptor) : st tables unit :=
  s ← get; g ← checked (update_table (IDT s) i f); put (set_IDT g s).

Definition protect_init_intdesc (vector_number base privilege : Z) : st tables unit :=
  at_idt vector_number (init_gate _DESC_INTERRUPT base privilege).

Definition protect_init_trapdesc (vector_number base privilege : Z) : st tables unit :=
  at_idt vector_number (init_gate _DESC_TRAP base privilege).

Section Init.

(** The address the linker gives an entry point. *)
Context (address_of : stub -> Z).

(** The two loops over EXCPT_INT_TAB: the rows from [i], [n] of them. *)
Fixpoint init_vectors (init : Z -> Z -> Z -> st tables unit) (i : Z) (n : nat) : st tables unit :=
  match n with
  | O => mret tt
  | S n =>
      r ← checked (EXCPT_INT_TAB !! Z.to_nat i);
      _ ← init (vector_number r) (u32 (address_of (address r))) (privilege r);
      init_vectors init (i + 1) n
  end.

Definition protect_init : st tables unit :=
  _ ← at_gdt 1 (protect_init_codesegment 0x0 0xFFFFF 0x0);
  _ ← at_gdt 2 (protect_init_codesegment 0x0 0xFFFFF 0x0);
  _ ← at_gdt 3 (protect_init_datasegment 0x0 0xFFFFF 0x0);
  _ ← at_gdt 4 (protect_init_codesegment 0x0 0xFFFFF 0x3);
  _ ← at_gdt 5 (protect_init_datasegment 0x0 0xFFFFF 0x3);
  _ ← init_vectors protect_init_trapdesc 0 (Z.to_nat Nr_EXCPT_HNDLR);
  let count_HNDLR := Nr_INT_HNDLR + Nr_EXCPT_HNDLR in
  _ ← init_vectors protect_init_intdesc Nr_EXCPT_HNDLR (Z.to_nat (count_HNDLR - Nr_EXCPT_HNDLR));
  protect_init_intdesc SYSCALL_INT (u32 (address_of syscall_handler)) 0x3.

End Init.

(** ** The alternative table of gdt_init.c

    [initialize_idt] fills a second table of its own, with every gate open to
    user code. [init_null] is an entry point that only returns. *)

Record gate_entry := {
  offset_low : Z; selector : Z; zero : Z; type_attr : Z; offset_high : Z
}.

Definition D_INT : Z := 0x0E00.
Definition D_TRAP : Z := 0x0F00.
Definition D_DPL3 : Z := 0x6000.
Definition D_PRESENT : Z := 0x8000.
Definition M_VEC : Z := 0x68.
Definition S_VEC : Z := 0x70.

Definition gate_for (intr_handler attrs sel : Z) : gate_entry :=
  {| offset_low := u16 (Z.land intr_handler 0xffff); selector := u16 sel; zero := 0x0;
     type_attr := u8 (Z.shiftr attrs 8); offset_high := u16 (Z.shiftr intr_handler 16) |}.

(** [intr_num] is an [unsigned char]: no index leaves the 256 entries. *)
Definition init_vector (intr_handler intr_num attrs sel : Z) (idt : list gate_entry) : list gate_entry :=
  <[Z.to_nat (u8 intr_num) := gate_for intr_handler attrs sel]> idt.

Fixpoint init_nulls (init_null count : Z) (n : nat) (idt : list gate_entry) : list gate_entry :=
  match n with
  | O => idt
  | S n => init_nulls init_null (count + 1) n
             (init_vector init_null count (D_PRESENT + D_INT + D_DPL3) KERNEL_CS idt)
  end.

Definition alternative_traps : list (stub * Z) :=
  [ (excpt_divide_error, 0); (excpt_debug, 1); (excpt_nmi, 2); (excpt_int3, 3); (excpt_overflow, 4);
    (excpt_bounds, 5); (excpt_invalid_operation, 6); (excpt_device_not_available, 7);
    (excpt_double_fault, 8); (excpt_coprocessor_segment_overrun, 9); (excpt_invalid_TSS, 10);
    (excpt_segment_not_present, 11); (excpt_stack_segment, 12); (excpt_general_protection, 13);
    (excpt_page_fault, 14); (excpt_reserved, 15); (excpt_coprocessor_error, 16);
    (excpt_alignment_check, 17); (excpt_coprocessor_error, 18) ].

Definition alternative_irqs : list (stub * Z) :=
  [ (irq_00, M_VEC + 0); (irq_01, M_VEC + 1); (irq_02, M_VEC + 2); (irq_03, M_VEC + 3);
    (irq_04, M_VEC + 4); (irq_05, M_VEC + 5); (irq_06, M_VEC + 6); (irq_07, M_VEC + 7);
    (irq_08, S_VEC + 0); (irq_09, S_VEC + 1); (irq_10, S_VEC + 2); (irq_11, S_VEC + 3);
    (irq_12, S_VEC + 4); (irq_13, S_VEC + 5); (irq_14, S_VEC + 6); (irq_15, S_VEC + 7);
    (syscall_handler, SYSCALL_INT) ].

Definition install_stubs (address_of : stub -> Z) (attrs : Z) (rows : list (stub * Z))
    (idt : list gate_entry) : list gate_entry :=
  foldl (fun idt '(h, v) => init_vector (address_of h) v attrs KERNEL_CS idt) idt rows.

Definition initialize_idt (address_of : stub -> Z) (init_null : Z) (idt : list gate_entry) :=
  let idt := init_nulls init_null 19 (256 - 19) idt in
  let idt := install_stubs address_of (D_PRESENT + D_TRAP + D_DPL3) alternative_traps idt in
  install_stubs address_of (D_PRESENT + D_INT + D_DPL3) alternative_irqs idt.

(** ** The fields of words that are or-ed together *)

Definition field (p n w : Z) : Z := Z.land (Z.shiftr w p) (Z.ones n).
Definition placed (p n x : Z) : Z := Z.shiftl (Z.land (Z.ones n) x) p.

Lemma field_lor p n a b : field p n (Z.lor a b) = Z.lor (field p n a) (field p n b).
Proof. unfold field. by rewrite Z.shiftr_lor, Z.land_lor_distr_l. Qed.

Lemma field_same p n x : 0 <= p -> 0 <= n -> field p n (placed p n x) = x mod 2 ^ n.
Proof.
  intros Hp Hn. unfold field, placed. rewrite Z.shiftr_shiftl_l, Z.sub_diag, Z.shiftl_0_r by lia.
  rewrite (Z.land_comm (Z.ones n) x), <- Z.land_assoc, Z.land_diag. by apply Z.land_ones.
Qed.

Lemma field_other p n q m x :
  0 <= p -> 0 <= n -> 0 <= q -> 0 <= m -> p + n <= q \/ q + m <= p -> field p n (placed q m x) = 0.
Proof.
  intros Hp Hn Hq Hm Hd. apply Z.bits_inj'. intros i Hi. unfold field, placed.
  rewrite Z.land_spec, Z.shiftr_spec, Z.testbit_ones_nonneg, Z.bits_0 by lia.
  destruct (Z.ltb_spec i n); [|apply andb_false_r]. rewrite andb_true_r, Z.shiftl_spec by lia.
  destruct (Z.lt_ge_cases (i + p) q); [apply Z.testbit_neg_r; lia|].
  rewrite Z.land_spec, Z.testbit_ones_nonneg by lia.
  by destruct (Z.ltb_spec (i + p - q) m); [lia|].
Qed.

Lemma field_zero p n : field p n 0 = 0.
Proof. unfold field. by rewrite Z.shiftr_0_l. Qed.

(** A mask in the middle of a word places a field. *)
Lemma mask_placed p n x : 0 <= p -> 0 <= n ->
  Z.land (Z.shiftl (Z.ones n) p) x = placed p n (Z.shiftr x p).
Proof.
  intros Hp Hn. apply Z.bits_inj'. intros i Hi. unfold placed.
  rewrite Z.land_spec, !Z.shiftl_spec by lia.
  destruct (Z.lt_ge_cases i p); [by rewrite !(Z.testbit_neg_r _ (i - p)) by lia|].
  rewrite Z.land_spec, Z.shiftr_spec by lia. do 2 f_equal. lia.
Qed.

Lemma mask_moved p n x : 0 <= p -> 0 <= n ->
  Z.shiftr (Z.land (Z.shiftl (Z.ones n) p) x) p = placed 0 n (Z.shiftr x p).
Proof.
  intros Hp Hn. rewrite mask_placed by lia. unfold placed.
  rewrite Z.shiftr_shiftl_l, Z.sub_diag by lia. by rewrite !Z.shiftl_0_r.
Qed.

(** The readers and writers of single-word fields, as [field] and [placed]. *)
Ltac as_fields :=
  cbv [_DESC_AVL _DESC_DB _DESC_DPL _DESC_GRAN _DESC_PRESENT _DESC_SYSTEM _DESC_TYPE
       _DESC_SELECTOR _DESC_BASE _DESC_LIMIT _DESC_OFFSET];
  cbv [_SET_DESC_AVL _SET_DESC_BASE _SET_DESC_DB _SET_DESC_DPL _SET_DESC_GRAN _SET_DESC_LIMIT
       _SET_DESC_PRESENT _SET_DESC_SYSTEM _SET_DESC_TYPE _SET_DESC_OFFSET _SET_DESC_SELECTOR
       or_lw0 or_lw1 lw0 lw1].

Ltac read_fields :=
  repeat first
    [ rewrite field_lor | rewrite field_zero
    | rewrite field_same by lia | rewrite field_other by lia ];
  rewrite ?Z.lor_0_l, ?Z.lor_0_r.

Lemma set_base_words x d :
  _SET_DESC_BASE x d =
  {| lw0 := Z.lor (lw0 d) (placed 16 16 x);
     lw1 := Z.lor (Z.lor (lw1 d) (placed 0 8 (Z.shiftr x 16))) (placed 24 8 (Z.shiftr x 24)) |}.
Proof.
  as_fields. f_equal. f_equal.
  - f_equal. exact (mask_moved 16 8 x ltac:(lia) ltac:(lia)).
  - exact (mask_placed 24 8 x ltac:(lia) ltac:(lia)).
Qed.

Lemma set_limit_words x d :
  _SET_DESC_LIMIT x d =
  {| lw0 := Z.lor (lw0 d) (placed 0 16 x); lw1 := Z.lor (lw1 d) (placed 16 4 (Z.shiftr x 16)) |}.
Proof.
  as_fields. f_equal. f_equal. exact (mask_placed 16 4 x ltac:(lia) ltac:(lia)).
Qed.

Lemma set_offset_words x d :
  _SET_DESC_OFFSET x d =
  {| lw0 := Z.lor (lw0 d) (placed 0 16 x); lw1 := Z.lor (lw1 d) (placed 16 16 (Z.shiftr x 16)) |}.
Proof.
  as_fields. f_equal. f_equal. exact (mask_placed 16 16 x ltac:(lia) ltac:(lia)).
Qed.

(** ** What a descriptor says *)

Record segment_view := {
  v_base : Z; v_limit : Z; v_gran : Z; v_db : Z; v_avl : Z;
  v_present : Z; v_dpl : Z; v_system : Z; v_type : Z
}.

Definition segment_of (d : segment_descriptor) : segment_view :=
  {| v_base := _DESC_BASE d; v_limit := _DESC_LIMIT d; v_gran := _DESC_GRAN d; v_db := _DESC_DB d;
     v_avl := _DESC_AVL d; v_present := _DESC_PRESENT d; v_dpl := _DESC_DPL d;
     v_system := _DESC_SYSTEM d; v_type := _DESC_TYPE d |}.

Record gate_view := {
  g_offset : Z; g_selector : Z; g_present : Z; g_dpl : Z; g_system : Z; g_type : Z
}.

Definition gate_of (d : segment_descriptor) : gate_view :=
  {| g_offset := _DESC_OFFSET d; g_selector := _DESC_SELECTOR d; g_present := _DESC_PRESENT d;
     g_dpl := _DESC_DPL d; g_system := _DESC_SYSTEM d; g_type := _DESC_TYPE d |}.

(** The words of a descriptor that holds the given fields. *)
Definition segment_words (base limit db p system type : Z) : segment_descriptor :=
  {| lw0 := Z.lor (placed 16 16 base) (placed 0 16 limit);
     lw1 := Z.lor (Z.lor (Z.lor (Z.lor (Z.lor (Z.lor (Z.lor (Z.lor
              (placed 0 8 (Z.shiftr base 16)) (placed 24 8 (Z.shiftr base 24)))
              (placed 16 4 (Z.shiftr limit 16))) (placed 23 1 1)) (placed 12 1 system))
              (placed 15 1 1)) (placed 13 2 p)) (placed 22 1 db)) (placed 8 4 type) |}.

Definition gate_words (base p type : Z) : segment_descriptor :=
  {| lw0 := Z.lor (placed 0 16 base) (placed 16 16 KERNEL_CS);
     lw1 := Z.lor (Z.lor (Z.lor (placed 15 1 1) (placed 13 2 p)) (placed 8 4 type))
              (placed 16 16 (Z.shiftr base 16)) |}.

Lemma placed_zero p n : placed p n 0 = 0.
Proof. unfold placed. by rewrite Z.land_0_r, Z.shiftl_0_l. Qed.

Lemma codesegment_words base limit p :
  protect_init_codesegment base limit p zero_descriptor = segment_words base limit 1 p 1 10.
Proof.
  unfold protect_init_codesegment, protect_init_systemdesc. rewrite set_base_words, set_limit_words.
  reflexivity.
Qed.

Lemma datasegment_words base limit p :
  protect_init_datasegment base limit p zero_descriptor = segment_words base limit 1 p 1 2.
Proof.
  unfold protect_init_datasegment, protect_init_systemdesc. rewrite set_base_words, set_limit_words.
  reflexivity.
Qed.

Lemma stacksegment_words base limit p :
  protect_init_stacksegment base limit p zero_descriptor = segment_words base limit 1 p 1 6.
Proof.
  unfold protect_init_stacksegment, protect_init_systemdesc. rewrite set_base_words, set_limit_words.
  reflexivity.
Qed.

Lemma tsssegment_words base limit p :
  protect_init_tsssegment base limit p zero_descriptor = segment_words base limit 0 p 0 9.
Proof.
  unfold protect_init_tsssegment, protect_init_systemdesc, segment_words.
  rewrite set_base_words, set_limit_words, (placed_zero 22), Z.lor_0_r. reflexivity.
Qed.

Lemma ldtsegment_words base limit p :
  protect_init_ldtsegment base limit p zero_descriptor = segment_words base limit 0 p 0 2.
Proof.
  unfold protect_init_ldtsegment, protect_init_systemdesc, segment_words.
  rewrite set_base_words, set_limit_words, (placed_zero 22), Z.lor_0_r. reflexivity.
Qed.

Lemma init_gate_words type base p :
  init_gate type base p zero_descriptor = gate_words base p type.
Proof.
  unfold init_gate. rewrite set_offset_words. unfold gate_words.
  as_fields. cbn [lw0 lw1 zero_descriptor]. reflexivity.
Qed.

(** ** Fields read from a word that is split over two *)

Lemma slice_bit z p n i :
  0 <= p -> 0 <= n -> 0 <= i ->
  Z.testbit (Z.shiftr z p mod 2 ^ n) (i - p) = (p <=? i) && (i <? p + n) && Z.testbit z i.
Proof.
  intros Hp Hn Hi. destruct (Z.leb_spec p i); [|apply Z.testbit_neg_r; lia].
  rewrite <- Z.land_ones, Z.land_spec, Z.testbit_ones_nonneg, Z.shiftr_spec by lia.
  replace (i - p + p) with i by lia. replace (i - p <? n) with (i <? p + n) by (zcases; lia).
  apply andb_comm.
Qed.

Lemma low_bit z n i : 0 <= n -> 0 <= i -> Z.testbit (z mod 2 ^ n) i = (i <? n) && Z.testbit z i.
Proof.
  intros Hn Hi. rewrite <- Z.land_ones, Z.land_spec, Z.testbit_ones_nonneg by lia. apply andb_comm.
Qed.

Lemma small_bit w z i : 0 <= w <= i -> 0 <= z < 2 ^ w -> Z.testbit z i = false.
Proof. intros Hi Hz. rewrite <- (Z.mod_small z (2 ^ w)) by lia. by apply Z.mod_pow2_bits_high. Qed.

Lemma base_of_fields base d :
  0 <= base < 4294967296 ->
  field 16 16 (lw0 d) = base mod 2 ^ 16 ->
  field 0 8 (lw1 d) = Z.shiftr base 16 mod 2 ^ 8 ->
  field 24 8 (lw1 d) = Z.shiftr base 24 mod 2 ^ 8 ->
  _DESC_BASE d = base.
Proof.
  intros Hb E1 E2 E3. unfold _DESC_BASE.
  change (Z.land (Z.shiftr (lw0 d) 16) 65535) with (field 16 16 (lw0 d)).
  change (Z.land (lw1 d) 255) with (field 0 8 (lw1 d)).
  change (Z.land (Z.shiftr (lw1 d) 24) 255) with (field 24 8 (lw1 d)).
  rewrite E1, E2, E3. apply Z.bits_inj'. intros i Hi.
  rewrite !Z.lor_spec, !Z.shiftl_spec, !slice_bit, low_bit by lia.
  destruct (Z.lt_ge_cases i 32); [|rewrite (small_bit 32 base i) by lia; by rewrite !andb_false_r].
  zcases; try lia; simpl; by rewrite ?orb_false_r.
Qed.

Lemma limit_of_fields limit d :
  field 0 16 (lw0 d) = limit mod 2 ^ 16 ->
  field 16 4 (lw1 d) = Z.shiftr limit 16 mod 2 ^ 4 ->
  _DESC_LIMIT d = limit mod 2 ^ 20.
Proof.
  intros E1 E2. unfold _DESC_LIMIT. change 1048575 with (Z.ones 20). rewrite Z.land_ones by lia.
  change (Z.land (lw0 d) 65535) with (field 0 16 (lw0 d)).
  change (Z.land (Z.shiftr (lw1 d) 16) 15) with (field 16 4 (lw1 d)).
  rewrite E1, E2. apply Z.bits_inj'. intros i Hi.
  rewrite !low_bit, Z.lor_spec, Z.shiftl_spec, slice_bit, low_bit by lia.
  zcases; try lia; simpl; by rewrite ?orb_false_r.
Qed.

Lemma offset_of_fields base d :
  0 <= base < 4294967296 ->
  field 0 16 (lw0 d) = base mod 2 ^ 16 ->
  field 16 16 (lw1 d) = Z.shiftr base 16 mod 2 ^ 16 ->
  _DESC_OFFSET d = base.
Proof.
  intros Hb E1 E2. unfold _DESC_OFFSET.
  change (Z.land (lw0 d) 65535) with (field 0 16 (lw0 d)).
  assert (Z.land (lw1 d) 4294901760 = Z.shiftl (field 16 16 (lw1 d)) 16) as ->.
  { apply Z.bits_inj'. intros i Hi. change 4294901760 with (Z.shiftl (Z.ones 16) 16).
    unfold field. rewrite Z.land_spec, !Z.shiftl_spec by lia.
    destruct (Z.lt_ge_cases i 16).
    { rewrite !(Z.testbit_neg_r _ (i - 16)) by lia. apply andb_false_r. }
    rewrite Z.land_spec, Z.shiftr_spec by lia. f_equal. f_equal. lia. }
  rewrite E1, E2. apply Z.bits_inj'. intros i Hi.
  rewrite Z.lor_spec, Z.shiftl_spec, slice_bit, low_bit by lia.
  destruct (Z.lt_ge_cases i 32); [|rewrite (small_bit 32 base i) by lia; by rewrite !andb_false_r].
  zcases; try lia; simpl; by rewrite ?orb_false_r.
Qed.

(** ** What the builders leave *)

Ltac field_is p n w :=
  lazymatch goal with |- _ = ?r => change (field p n w = r) end;
  repeat match goal with d := _ |- _ => subst d end;
  unfold segment_words, gate_words; cbn [lw0 lw1]; by read_fields.

Lemma segment_words_view base limit db p system type :
  0 <= base < 4294967296 ->
  segment_of (segment_words base limit db p system type) =
  {| v_base := base; v_limit := limit mod 2 ^ 20; v_gran := 1; v_db := db mod 2; v_avl := 0;
     v_present := 1; v_dpl := p mod 4; v_system := system mod 2; v_type := type mod 16 |}.
Proof.
  intros Hb. unfold segment_of. pose (segment_words base limit db p system type) as d. f_equal.
  - apply base_of_fields; [done|..]; unfold segment_words; cbn [lw0 lw1]; by read_fields.
  - apply limit_of_fields; unfold segment_words; cbn [lw0 lw1]; by read_fields.
  - field_is 23 1 (lw1 d).
  - field_is 22 1 (lw1 d).
  - field_is 20 1 (lw1 d).
  - field_is 15 1 (lw1 d).
  - field_is 13 2 (lw1 d).
  - field_is 12 1 (lw1 d).
  - field_is 8 4 (lw1 d).
Qed.

Lemma gate_words_view base p type :
  0 <= base < 4294967296 ->
  gate_of (gate_words base p type) =
  {| g_offset := base; g_selector := KERNEL_CS; g_present := 1; g_dpl := p mod 4;
     g_system := 0; g_type := type mod 16 |}.
Proof.
  intros Hb. unfold gate_of. pose (gate_words base p type) as d. f_equal.
  - apply offset_of_fields; [done|..]; unfold gate_words; cbn [lw0 lw1]; by read_fields.
  - field_is 16 16 (lw0 d).
  - field_is 15 1 (lw1 d).
  - field_is 13 2 (lw1 d).
  - field_is 12 1 (lw1 d).
  - field_is 8 4 (lw1 d).
Qed.

Lemma placed_range p n x :
  0 <= p -> 0 <= n -> p + n <= 32 -> 0 <= placed p n x < 4294967296.
Proof.
  intros Hp Hn Hs. unfold placed. rewrite Z.land_comm, Z.land_ones, Z.shiftl_mul_pow2 by lia.
  pose proof (Z.mod_pos_bound x (2 ^ n) ltac:(apply Z.pow_pos_nonneg; lia)).
  assert (2 ^ n * 2 ^ p <= 4294967296).
  { rewrite <- Z.pow_add_r by lia. change 4294967296 with (2 ^ 32). apply Z.pow_le_mono_r; lia. }
  assert (0 < 2 ^ p) by (apply Z.pow_pos_nonneg; lia). nia.
Qed.

Lemma lor_range a b :
  0 <= a < 4294967296 -> 0 <= b < 4294967296 -> 0 <= Z.lor a b < 4294967296.
Proof.
  intros Ha Hb. assert (0 <= Z.lor a b) as H0 by (apply Z.lor_nonneg; lia). split; [done|].
  rewrite <- (Z.mod_small a (2 ^ 32)), <- (Z.mod_small b (2 ^ 32)) by lia.
  rewrite <- !Z.land_ones, <- Z.land_lor_distr_l, Z.land_ones by lia.
  apply (Z.mod_pos_bound _ (2 ^ 32)). lia.
Qed.

Lemma words_ok a b :
  0 <= a < 4294967296 -> 0 <= b < 4294967296 -> descriptor_ok {| lw0 := a; lw1 := b |}.
Proof. by split. Qed.

#[export] Hint Resolve words_ok lor_range : ox.
#[export] Hint Extern 1 (0 <= placed _ _ _ < _) => apply placed_range; lia : ox.

Lemma segment_words_ok base limit db p system type :
  descriptor_ok (segment_words base limit db p system type).
Proof. unfold segment_words. auto 12 with ox. Qed.

Lemma gate_words_ok base p type : descriptor_ok (gate_words base p type).
Proof. unfold gate_words. auto 12 with ox. Qed.

(** C24: Every descriptor the kernel builds from a zero entry is a descriptor of two 32-bit
    words whose fields read back as the base asked for, the low 20 bits of the limit in pages,
    the privilege, and the type the builder is named after; code, data and stack segments are
    32-bit user-class segments, a task state segment and a local table are system segments. *)
Theorem segments_typed base limit p :
  0 <= base < 4294967296 ->
  let view db system type :=
    {| v_base := base; v_limit := limit mod 2 ^ 20; v_gran := 1; v_db := db; v_avl := 0;
       v_present := 1; v_dpl := p mod 4; v_system := system; v_type := type |} in
  let builds f v :=
    descriptor_ok (f base limit p zero_descriptor) /\ segment_of (f base limit p zero_descriptor) = v in
  builds protect_init_codesegment (view 1 1 10) /\
  builds protect_init_datasegment (view 1 1 2) /\
  builds protect_init_stacksegment (view 1 1 6) /\
  builds protect_init_tsssegment (view 0 0 9) /\
  builds protect_init_ldtsegment (view 0 0 2).
Proof.
  intros Hb. cbn zeta beta.
  rewrite codesegment_words, datasegment_words, stacksegment_words, tsssegment_words, ldtsegment_words.
  rewrite !segment_words_view by done. repeat split; apply segment_words_ok.
Qed.

Lemma segments_typed_witness :
  segment_of (protect_init_tsssegment 0x123456 0x67 0 zero_descriptor) =
  {| v_base := 0x123456; v_limit := 0x67; v_gran := 1; v_db := 0; v_avl := 0;
     v_present := 1; v_dpl := 0; v_system := 0; v_type := 9 |}.
Proof.
  destruct (segments_typed 0x123456 0x67 0 ltac:(lia)) as (_ & _ & _ & [_ E] & _). exact E.
Defined.

(** A task state segment of 0x68 bytes is declared with the limit 0x67, but
    every builder sets the granularity: the limit counts pages. *)
Lemma tss_limit_in_pages base p :
  0 <= base < 4294967296 ->
  v_gran (segment_of (protect_init_tsssegment base 0x67 p zero_descriptor)) = 1.
Proof. intros Hb. by rewrite tsssegment_words, segment_words_view. Qed.

(** Rewriting a used entry only adds bits: the fields of the old descriptor
    shine through. *)
Lemma rebuilt_entry_mixes :
  let d := protect_init_tsssegment 0x1000 0x67 3 zero_descriptor in
  let d' := protect_init_tsssegment 0x2000 0x67 0 d in
  (_DESC_BASE d', _DESC_DPL d') = (0x3000, 3).
Proof. reflexivity. Qed.

(** ** The interrupt descriptor table *)

Section InitProofs.

Context (address_of : stub -> Z).

(** What a vector is set up for: the procedure, the gate type, the privilege. *)
Abbreviation entry := (option (stub * Z * Z)).

Definition planned_gate (e : entry) : segment_descriptor :=
  match e with
  | Some (h, type, p) => gate_words (u32 (address_of h)) p type
  | None => zero_descriptor
  end.

Definition with_plan (g : list segment_descriptor) (l : list entry) : tables :=
  {| GDT := g; IDT := planned_gate <$> l |}.

Definition plan_gate (type : Z) (r : excpt_int_tab) (l : list entry) : option (list entry) :=
  if 0 <=? vector_number r then
    match l !! Z.to_nat (vector_number r) with
    | Some None => Some (<[Z.to_nat (vector_number r) := Some (address r, type, privilege r)]> l)
    | _ => None
    end
  else None.

Fixpoint plan_vectors (type : Z) (i : Z) (n : nat) (l : list entry) : option (list entry) :=
  match n with
  | O => Some l
  | S n =>
      match EXCPT_INT_TAB !! Z.to_nat i with
      | Some r => match plan_gate type r l with
                  | Some l' => plan_vectors type (i + 1) n l'
                  | None => None
                  end
      | None => None
      end
  end.

Lemma plan_gate_run type r g l l' :
  plan_gate type r l = Some l' ->
  at_idt (vector_number r) (init_gate type (u32 (address_of (address r))) (privilege r)) (with_plan g l)
  = Ret (tt, with_plan g l').
Proof.
  unfold plan_gate, at_idt. intros E. destruct (0 <=? vector_number r) eqn:Ev; [|done].
  destruct (l !! Z.to_nat (vector_number r)) as [[|]|] eqn:El; simplify_eq.
  unfold mbind, st_bind, get, checked, update_table, with_plan. cbn [IDT].
  rewrite Ev, list_lookup_fmap, El. cbn [fmap option_fmap option_map].
  unfold put, set_IDT. cbn [GDT planned_gate]. rewrite init_gate_words, list_fmap_insert. done.
Qed.

Lemma plan_vectors_run type (init : Z -> Z -> Z -> st tables unit) g n :
  (forall v b p, init v b p = at_idt v (init_gate type b p)) -> forall i l l',
  plan_vectors type i n l = Some l' ->
  init_vectors address_of init i n (with_plan g l) = Ret (tt, with_plan g l').
Proof.
  intros Hi. induction n as [|n IH]; intros i l l' E; simpl in *; [by simplify_eq|].
  destruct (EXCPT_INT_TAB !! Z.to_nat i) as [r|] eqn:Er; [|done].
  destruct (plan_gate type r l) as [l1|] eqn:E1; [|done].
  unfold mbind, st_bind, checked. rewrite Hi, (plan_gate_run _ _ _ _ _ E1). by apply IH.
Qed.

(** The exceptions, then the interrupts, then the system call. *)
Definition trap_plan : list entry := default [] (plan_vectors _DESC_TRAP 0 19 (replicate 255 None)).
Definition irq_plan : list entry := default [] (plan_vectors _DESC_INTERRUPT 19 16 trap_plan).
Definition full_plan : list entry :=
  default [] (plan_gate _DESC_INTERRUPT (row syscall_handler SYSCALL_INT 3) irq_plan).

Definition kernel_gdt : list segment_descriptor :=
  let code p := protect_init_codesegment 0 0xFFFFF p zero_descriptor in
  let data p := protect_init_datasegment 0 0xFFFFF p zero_descriptor in
  zero_descriptor :: code 0 :: code 0 :: data 0 :: code 3 :: data 3
  :: replicate (Z.to_nat Nr_GDT - 6) zero_descriptor.

Lemma at_gdt_run i f g d idt :
  0 <= i -> g !! Z.to_nat i = Some d ->
  at_gdt i f {| GDT := g; IDT := idt |} = Ret (tt, {| GDT := <[Z.to_nat i := f d]> g; IDT := idt |}).
Proof.
  intros Hi E. unfold at_gdt, mbind, st_bind, get, checked, update_table. cbn [GDT].
  by rewrite (proj2 (Z.leb_le 0 i) Hi), E.
Qed.

Lemma protect_init_run :
  protect_init address_of static_tables = Ret (tt, with_plan kernel_gdt full_plan).
Proof.
  assert (static_tables =
    {| GDT := replicate 6 zero_descriptor ++ replicate (Z.to_nat Nr_GDT - 6) zero_descriptor;
       IDT := planned_gate <$> replicate 255 None |}) as -> by reflexivity.
  unfold protect_init, kernel_gdt. generalize (replicate (Z.to_nat Nr_GDT - 6) zero_descriptor).
  intros rest. unfold mbind, st_bind.
  rewrite (at_gdt_run 1 _ _ zero_descriptor), (at_gdt_run 2 _ _ zero_descriptor),
    (at_gdt_run 3 _ _ zero_descriptor), (at_gdt_run 4 _ _ zero_descriptor),
    (at_gdt_run 5 _ _ zero_descriptor) by (lia || reflexivity).
  assert (plan_vectors _DESC_TRAP 0 19 (replicate 255 None) = Some trap_plan) as Et by reflexivity.
  assert (plan_vectors _DESC_INTERRUPT 19 16 trap_plan = Some irq_plan) as Ei by reflexivity.
  pose proof (plan_vectors_run _DESC_TRAP protect_init_trapdesc) as Ht.
  pose proof (plan_vectors_run _DESC_INTERRUPT protect_init_intdesc) as Hi.
  unfold with_plan in Ht, Hi.
  rewrite (Ht _ _ ltac:(done) 0 _ _ Et), (Hi _ _ ltac:(done) 19 _ _ Ei).
  by apply (plan_gate_run _DESC_INTERRUPT (row syscall_handler SYSCALL_INT 3)).
Qed.

Lemma full_plan_rows k r :
  EXCPT_INT_TAB !! k = Some r ->
  full_plan !! Z.to_nat (vector_number r) =
  Some (Some (address r, if (k <? 19)%nat then _DESC_TRAP else _DESC_INTERRUPT, privilege r)).
Proof.
  revert k r.
  assert (forall k r, EXCPT_INT_TAB !! k = Some r -> bool_decide (full_plan !! Z.to_nat (vector_number r) =
    Some (Some (address r, if (k <? 19)%nat then _DESC_TRAP else _DESC_INTERRUPT, privilege r))) = true)
    as H; [|intros k r E; exact (bool_decide_eq_true_1 _ (H k r E))].
  intros k r E. do 35 (destruct k as [|k]; [injection E as <-; vm_compute; reflexivity|]). done.
Qed.

Lemma full_plan_others v :
  (v < 255)%nat -> Z.of_nat v <> SYSCALL_INT ->
  (forall r, r ∈ EXCPT_INT_TAB -> vector_number r <> Z.of_nat v) -> full_plan !! v = Some None.
Proof.
  intros Hv Hs Hr.
  assert (forallb (fun v => bool_decide (full_plan !! v = Some None) || (Z.of_nat v =? SYSCALL_INT)
    || existsb (fun r => vector_number r =? Z.of_nat v) EXCPT_INT_TAB) (seq 0 255) = true) as H
    by (vm_compute; reflexivity).
  rewrite forallb_forall in H. specialize (H v). rewrite !orb_true_iff, existsb_exists in H.
  destruct H as [[H | H] | (r & Hin & H)]; [apply in_seq; lia|..].
  - exact (bool_decide_eq_true_1 _ H).
  - lia.
  - destruct (Hr r); [by apply list_elem_of_In | lia].
Qed.

End InitProofs.

(** After protect_init every exception vector holds a trap gate and every vector that the table
    names for a hardware interrupt holds an interrupt gate, each to the procedure and with the
    privilege of its row, in the kernel code segment; vector 80 is an interrupt gate to the system
    call handler that user code may raise; every other vector is not present.  The five segments
    of the global table are the kernel's and the user's code and data over the whole address
    space. *)
Theorem protect_init_correct address_of :
  exists s,
    protect_init address_of static_tables = Ret (tt, s) /\
    (forall k r, EXCPT_INT_TAB !! k = Some r ->
      gate_of <$> (IDT s !! Z.to_nat (vector_number r)) =
      Some {| g_offset := u32 (address_of (address r)); g_selector := KERNEL_CS; g_present := 1;
              g_dpl := privilege r; g_system := 0;
              g_type := if (k <? 19)%nat then _DESC_TRAP else _DESC_INTERRUPT |}) /\
    gate_of <$> (IDT s !! Z.to_nat SYSCALL_INT) =
      Some {| g_offset := u32 (address_of syscall_handler); g_selector := KERNEL_CS; g_present := 1;
              g_dpl := 3; g_system := 0; g_type := _DESC_INTERRUPT |} /\
    (forall v, (v < 255)%nat -> Z.of_nat v <> SYSCALL_INT ->
      (forall r, r ∈ EXCPT_INT_TAB -> vector_number r <> Z.of_nat v) ->
      _DESC_PRESENT <$> (IDT s !! v) = Some 0) /\
    (forall i f, [None; Some (10, 0); Some (10, 0); Some (2, 0); Some (10, 3); Some (2, 3)] !! i = Some f ->
      (segment_of <$> (GDT s !! i)) =
      Some match f with
           | Some (type, p) =>
               {| v_base := 0; v_limit := 0xFFFFF; v_gran := 1; v_db := 1; v_avl := 0;
                  v_present := 1; v_dpl := p; v_system := 1; v_type := type |}
           | None => segment_of zero_descriptor
           end).
Proof.
  exists (with_plan address_of kernel_gdt full_plan). split; [apply protect_init_run|].
  split; [|split; [|split]].
  - intros k r E. unfold with_plan. cbn [IDT].
    rewrite list_lookup_fmap, (full_plan_rows k r E). cbn. f_equal.
    rewrite gate_words_view by apply u32_range.
    do 35 (destruct k as [|k]; [injection E as <-; reflexivity|]). done.
  - unfold with_plan. cbn [IDT]. rewrite list_lookup_fmap.
    change (full_plan !! Z.to_nat SYSCALL_INT) with (Some (Some (syscall_handler, _DESC_INTERRUPT, 3))).
    cbn. f_equal. by rewrite gate_words_view by apply u32_range.
  - intros v Hv Hs Hr. unfold with_plan. cbn [IDT].
    by rewrite list_lookup_fmap, (full_plan_others v Hv Hs Hr).
  - intros i f E. do 6 (destruct i as [|i]; [injection E as <-; reflexivity|]). done.
Qed.
