(* ===== verification/Interrupt.v ===== *)
(** * Hardware interrupts

    [platform/i386/arch/interrupt.c]: the dispatch table of interrupt handlers,
    exclusive and shared, the probing of interrupt lines, and the mask of the
    two 8259 controllers.  A handler is the address of a function; what a
    foreign handler answers is a parameter.  The instructions that save the
    flags and the state of the controller are assembly and only bracket the
    probe; a write to a port is recorded in order. *)

From S2P Require Import Prelude.
From S2P Require Import Segment.

Definition Nr_IRQ : Z := 16.
Definition Nr_IRQ_SLOT : Z := 2.
Definition Nr_IRQ_ELEM : Z := Nr_IRQ * Nr_IRQ_SLOT.
Definition IRQ_INVALID : Z := -1.

Inductive irq_stat_t := IRQ_DISABLE | IRQ_ENABLE.
(** [irq_type_t] *)
Definition IRQ_EXCL : Z := 0.
Definition IRQ_SHARED : Z := 1.

(** The functions a dispatch table can name: the three of this file, and the
    drivers' own, told apart by their (nonzero) address. *)
Inductive interrupt_handler_t :=
| null_handler
| interrupt_default_irq
| shared_handler
| probe_handler
| driver (address : Z).

#[export] Instance interrupt_handler_eq_dec : EqDecision interrupt_handler_t.
Proof. solve_decision. Defined.

(** [info] is the address of the driver's description, 0 for NULL. *)
Record shared_handler_t := { sh_irq : Z; sh_handler : interrupt_handler_t; sh_info : Z }.

Record irqs := {
  irq_dispatch_tab : list interrupt_handler_t;
  irq_info_tab : list Z;
  IRQ_TYPE_MASK : list Z;
  IRQ_SHARED_TAB : list shared_handler_t;
  nr_shared : Z;
  PROBING : bool;
  irq_probe_mask : Z;
  in_use_mask : Z;
  irq_tmp : list interrupt_handler_t;
  irq_mask : Z;
  ports : list (Z * Z)
}.

Definition set_dispatch v s := {| irq_dispatch_tab := v; irq_info_tab := irq_info_tab s; IRQ_TYPE_MASK := IRQ_TYPE_MASK s; IRQ_SHARED_TAB := IRQ_SHARED_TAB s; nr_shared := nr_shared s; PROBING := PROBING s; irq_probe_mask := irq_probe_mask s; in_use_mask := in_use_mask s; irq_tmp := irq_tmp s; irq_mask := irq_mask s; ports := ports s |}.
Definition set_info v s := {| irq_dispatch_tab := irq_dispatch_tab s; irq_info_tab := v; IRQ_TYPE_MASK := IRQ_TYPE_MASK s; IRQ_SHARED_TAB := IRQ_SHARED_TAB s; nr_shared := nr_shared s; PROBING := PROBING s; irq_probe_mask := irq_probe_mask s; in_use_mask := in_use_mask s; irq_tmp := irq_tmp s; irq_mask := irq_mask s; ports := ports s |}.
Definition set_types v s := {| irq_dispatch_tab := irq_dispatch_tab s; irq_info_tab := irq_info_tab s; IRQ_TYPE_MASK := v; IRQ_SHARED_TAB := IRQ_SHARED_TAB s; nr_shared := nr_shared s; PROBING := PROBING s; irq_probe_mask := irq_probe_mask s; in_use_mask := in_use_mask s; irq_tmp := irq_tmp s; irq_mask := irq_mask s; ports := ports s |}.
Definition set_shared v n s := {| irq_dispatch_tab := irq_dispatch_tab s; irq_info_tab := irq_info_tab s; IRQ_TYPE_MASK := IRQ_TYPE_MASK s; IRQ_SHARED_TAB := v; nr_shared := n; PROBING := PROBING s; irq_probe_mask := irq_probe_mask s; in_use_mask := in_use_mask s; irq_tmp := irq_tmp s; irq_mask := irq_mask s; ports := ports s |}.
Definition set_probe p m u t s := {| irq_dispatch_tab := irq_dispatch_tab s; irq_info_tab := irq_info_tab s; IRQ_TYPE_MASK := IRQ_TYPE_MASK s; IRQ_SHARED_TAB := IRQ_SHARED_TAB s; nr_shared := nr_shared s; PROBING := p; irq_probe_mask := m; in_use_mask := u; irq_tmp := t; irq_mask := irq_mask s; ports := ports s |}.
Definition set_mask v s := {| irq_dispatch_tab := irq_dispatch_tab s; irq_info_tab := irq_info_tab s; IRQ_TYPE_MASK := IRQ_TYPE_MASK s; IRQ_SHARED_TAB := IRQ_SHARED_TAB s; nr_shared := nr_shared s; PROBING := PROBING s; irq_probe_mask := irq_probe_mask s; in_use_mask := in_use_mask s; irq_tmp := irq_tmp s; irq_mask := v; ports := ports s |}.
Definition set_ports v s := {| irq_dispatch_tab := irq_dispatch_tab s; irq_info_tab := irq_info_tab s; IRQ_TYPE_MASK := IRQ_TYPE_MASK s; IRQ_SHARED_TAB := IRQ_SHARED_TAB s; nr_shared := nr_shared s; PROBING := PROBING s; irq_probe_mask := irq_probe_mask s; in_use_mask := in_use_mask s; irq_tmp := irq_tmp s; irq_mask := irq_mask s; ports := v |}.

(** The statics before [interrupt_init]: everything is zero. *)
Definition static_irqs : irqs :=
  {| irq_dispatch_tab := replicate 16 null_handler; irq_info_tab := replicate 16 0;
     IRQ_TYPE_MASK := replicate 16 IRQ_EXCL;
     IRQ_SHARED_TAB := replicate 32 {| sh_irq := 0; sh_handler := null_handler; sh_info := 0 |};
     nr_shared := 0; PROBING := false; irq_probe_mask := 0; in_use_mask := 0;
     irq_tmp := replicate 16 null_handler; irq_mask := 0xFFFF; ports := [] |}.

(** ** The 8259 controllers *)

Definition M_PIC : Z := 0x20.
Definition M_IMR : Z := 0x21.
Definition S_PIC : Z := 0xA0.
Definition S_IMR : Z := 0xA1.
Definition ICW1 : Z := 0x11.
Definition ICW4 : Z := 0x01.

(** The latest write comes first. *)
Definition io_outb (port value : Z) : st irqs unit :=
  modify (fun s => set_ports ((port, u8 value) :: ports s) s).

Definition init_8259 : st irqs unit :=
  _ ← io_outb M_PIC ICW1;
  _ ← io_outb S_PIC ICW1;
  _ ← io_outb (M_PIC + 1) M_VEC;
  _ ← io_outb (S_PIC + 1) S_VEC;
  _ ← io_outb (M_PIC + 1) (Z.shiftl 1 2);
  _ ← io_outb (S_PIC + 1) 2;
  _ ← io_outb (M_PIC + 1) ICW4;
  _ ← io_outb (S_PIC + 1) ICW4;
  _ ← io_outb M_IMR 0xff;
  io_outb S_IMR 0xff.

(** [1 << irq_no] is defined for the 32 bits of an [int] only. *)
Definition irq_bit (irq_no : Z) : option Z :=
  if (0 <=? irq_no) && (irq_no <? 32) then Some (u32 (Z.shiftl 1 irq_no)) else None.

Definition write_masks (irq_no : Z) : st irqs unit :=
  m ← gets irq_mask;
  _ ← io_outb (M_PIC + 1) (Z.land m 0xFF);
  if 8 <=? irq_no then io_outb (S_PIC + 1) (Z.land (Z.shiftr m 8) 0xFF) else mret tt.

(** The parameter is an [unsigned short]. *)
Definition enable_irq (irq : Z) : st irqs unit :=
  let irq_no := u16 irq in
  b ← checked (irq_bit irq_no);
  _ ← modify (fun s => set_mask (Z.land (irq_mask s) (u32 (Z.lnot b))) s);
  _ ← (if 8 <=? irq_no
       then modify (fun s => set_mask (Z.land (irq_mask s) (u32 (Z.lnot (Z.shiftl 1 2)))) s)
       else mret tt);
  write_masks irq_no.

Definition disable_irq (irq : Z) : st irqs unit :=
  let irq_no := u16 irq in
  b ← checked (irq_bit irq_no);
  _ ← modify (fun s => set_mask (Z.lor (irq_mask s) b) s);
  _ ← modify (fun s => if Z.land (irq_mask s) 0xFF00 =? 0xFF00
                       then set_mask (Z.lor (irq_mask s) (Z.shiftl 1 2)) s else s);
  write_masks irq_no.

(** ** The tables *)

Definition at_tab {A} (l : list A) (i : Z) : option A :=
  if 0 <=? i then l !! Z.to_nat i else None.

Definition upd {A} (i : Z) (v : A) (l : list A) : list A := <[Z.to_nat i := v]> l.

(** After the element before the last the ring goes on at the first one. *)
Definition ring_next (p : Z) : Z := if p + 1 =? Nr_IRQ_ELEM - 1 then 0 else p + 1.

Definition empty_slot : shared_handler_t :=
  {| sh_irq := IRQ_INVALID; sh_handler := interrupt_default_irq; sh_info := 0 |}.

(** The search for a free slot; [pass] counts the wraps. *)
Fixpoint find_slot (fuel : nat) (tab : list shared_handler_t) (ptr pass : Z) : outcome (option Z) :=
  match fuel with
  | O => NoFuel
  | S fuel =>
      match at_tab tab ptr with
      | None => Fault
      | Some e =>
          if sh_irq e =? IRQ_INVALID then Ret (Some ptr)
          else
            let pass := if ptr + 1 =? Nr_IRQ_ELEM - 1 then pass + 1 else pass in
            if pass =? 2 then Ret None else find_slot fuel tab (ring_next ptr) pass
      end
  end.

Definition install_shared (irq : Z) (handler : interrupt_handler_t) (info : Z) : st irqs unit :=
  _ ← disable_irq irq;
  s ← get;
  t ← checked (at_tab (IRQ_TYPE_MASK s) irq);
  h ← checked (at_tab (irq_dispatch_tab s) irq);
  _ ← (if (t =? IRQ_EXCL) && bool_decide (h = interrupt_default_irq)
       then modify (fun s => set_types (upd irq IRQ_SHARED (IRQ_TYPE_MASK s)) s) else mret tt);
  t ← (s ← get; checked (at_tab (IRQ_TYPE_MASK s) irq));
  if negb (t =? IRQ_SHARED) then panic
  else if nr_shared s =? Nr_IRQ_ELEM - 1 then panic
  else
    slot ← lift (find_slot 64 (IRQ_SHARED_TAB s) (irq * Nr_IRQ_SLOT) 0);
    match slot with
    | None => panic
    | Some p =>
        _ ← modify (fun s => set_shared
              (upd p {| sh_irq := irq; sh_handler := handler; sh_info := info |} (IRQ_SHARED_TAB s))
              (nr_shared s + 1) s);
        _ ← modify (fun s => set_dispatch (upd irq shared_handler (irq_dispatch_tab s)) s);
        modify (fun s => set_info (upd irq 0 (irq_info_tab s)) s)
    end.

(** The loop of [uninstall_shared]: every handler of the line when [handler] is
    NULL, the first equal one otherwise. *)
Fixpoint uninstall_loop (fuel : nat) (irq : Z) (handler : interrupt_handler_t) (str ptr : Z)
    : st irqs unit :=
  match fuel with
  | O => lift NoFuel
  | S fuel =>
      s ← get;
      e ← checked (at_tab (IRQ_SHARED_TAB s) ptr);
      let all := bool_decide (handler = null_handler) in
      let clear := modify (fun s => set_shared (upd ptr empty_slot (IRQ_SHARED_TAB s)) (nr_shared s - 1) s) in
      let continue :=
        let ptr := ring_next ptr in
        if ptr =? str then mret tt else uninstall_loop fuel irq handler str ptr in
      if (sh_irq e =? irq) && all then _ ← clear; continue
      else if (sh_irq e =? irq) && bool_decide (sh_handler e = handler) then clear
      else continue
  end.

Definition uninstall_shared (irq : Z) (handler : interrupt_handler_t) : st irqs unit :=
  _ ← disable_irq irq;
  s ← get;
  if nr_shared s =? 0 then mret tt
  else
    _ ← uninstall_loop 32 irq handler (irq * Nr_IRQ_SLOT) (irq * Nr_IRQ_SLOT);
    if bool_decide (handler = null_handler) then
      _ ← modify (fun s => set_types (upd irq IRQ_EXCL (IRQ_TYPE_MASK s)) s);
      _ ← modify (fun s => set_dispatch (upd irq interrupt_default_irq (irq_dispatch_tab s)) s);
      modify (fun s => set_info (upd irq 0 (irq_info_tab s)) s)
    else mret tt.

(** An element of the administrator's table. *)
Inductive admin_address :=
| handler_address (h : interrupt_handler_t)
| slot_address (k : Z).

Record irq_admin_t := { ad_irq : Z; ad_type : Z; ad_address : admin_address; ad_info : Z }.

(** ** Calling a handler *)

Section Handlers.

(** What a driver's handler at an address does with a line. *)
Context (driver_isr : Z -> Z -> st irqs irq_stat_t).
(** What the information function at an address is: defined or not. *)
Context (info_defined : Z -> bool).

Definition default_irq (irq : Z) : st irqs irq_stat_t :=
  if (irq <? 0) || (Nr_IRQ <=? irq) then panic else mret IRQ_ENABLE.

Definition probe_irq (irq : Z) : st irqs irq_stat_t :=
  b ← checked (irq_bit irq);
  _ ← modify (fun s => set_probe (PROBING s) (Z.lor (irq_probe_mask s) b) (in_use_mask s) (irq_tmp s) s);
  mret IRQ_DISABLE.

(** A handler as an element of the shared table (which never names the
    dispatcher of that table itself). *)
Definition call_element (h : interrupt_handler_t) (irq : Z) : st irqs irq_stat_t :=
  match h with
  | interrupt_default_irq => default_irq irq
  | probe_handler => probe_irq irq
  | driver a => driver_isr a irq
  | null_handler | shared_handler => fault
  end.

Fixpoint shared_loop (fuel : nat) (irq str ptr : Z) (ret : irq_stat_t) : st irqs irq_stat_t :=
  match fuel with
  | O => lift NoFuel
  | S fuel =>
      s ← get;
      e ← checked (at_tab (IRQ_SHARED_TAB s) ptr);
      ret ← (if sh_irq e =? irq
             then a ← call_element (sh_handler e) irq;
                  mret (match a with IRQ_ENABLE => IRQ_ENABLE | IRQ_DISABLE => ret end)
             else mret ret);
      let ptr := ring_next ptr in
      if ptr =? str then mret ret else shared_loop fuel irq str ptr ret
  end.

Definition run_shared (irq : Z) : st irqs irq_stat_t :=
  s ← get;
  if nr_shared s =? 0 then panic
  else shared_loop 32 irq (irq * Nr_IRQ_SLOT) (irq * Nr_IRQ_SLOT) IRQ_DISABLE.

(** What the assembly entry of a line does with the dispatch table. *)
Definition dispatch (irq : Z) : st irqs irq_stat_t :=
  s ← get;
  h ← checked (at_tab (irq_dispatch_tab s) irq);
  match h with
  | shared_handler => run_shared irq
  | _ => call_element h irq
  end.

(** ** Installing and removing *)

Definition interrupt_init : st irqs unit :=
  _ ← modify (fun s => set_dispatch (replicate (Z.to_nat Nr_IRQ) interrupt_default_irq) s);
  _ ← modify (fun s => set_shared
        ((fun e => {| sh_irq := IRQ_INVALID; sh_handler := interrupt_default_irq; sh_info := sh_info e |})
           <$> IRQ_SHARED_TAB s) (nr_shared s) s);
  init_8259.

Definition interrupt_install_handler (irq type : Z) (handler : interrupt_handler_t) (info : Z) : st irqs unit :=
  s ← get;
  if PROBING s then panic
  else if (irq <? 0) || (Nr_IRQ <=? irq) then panic
  else if type =? IRQ_SHARED then install_shared irq handler info
  else if type =? IRQ_EXCL then
    t ← checked (at_tab (IRQ_TYPE_MASK s) irq);
    h ← checked (at_tab (irq_dispatch_tab s) irq);
    if t =? IRQ_SHARED then panic
    else if bool_decide (h = handler) then mret tt
    else if negb (bool_decide (h = interrupt_default_irq)) then panic
    else
      _ ← disable_irq irq;
      _ ← modify (fun s => set_dispatch (upd irq handler (irq_dispatch_tab s)) s);
      modify (fun s => set_info (upd irq info (irq_info_tab s)) s)
  else panic.

Definition interrupt_uninstall_handler (irq : Z) (handler : interrupt_handler_t) : st irqs unit :=
  s ← get;
  if PROBING s then panic
  else if (irq <? 0) || (Nr_IRQ <=? irq) then panic
  else
    t ← checked (at_tab (IRQ_TYPE_MASK s) irq);
    if t =? IRQ_SHARED then uninstall_shared irq handler
    else if t =? IRQ_EXCL then
      _ ← disable_irq irq;
      _ ← modify (fun s => set_dispatch (upd irq interrupt_default_irq (irq_dispatch_tab s)) s);
      modify (fun s => set_info (upd irq 0 (irq_info_tab s)) s)
    else mret tt.

(** ** Probing *)

(** The loop of [irq_probe] over the lines. *)
Fixpoint probe_install (i : Z) (n : nat) : st irqs unit :=
  match n with
  | O => mret tt
  | S n =>
      s ← get;
      h ← checked (at_tab (irq_dispatch_tab s) i);
      t ← checked (at_tab (IRQ_TYPE_MASK s) i);
      let used := (t =? IRQ_EXCL) && negb (bool_decide (h = interrupt_default_irq)) in
      _ ← put (set_dispatch (upd i probe_handler (irq_dispatch_tab s))
                 (set_probe (PROBING s) (irq_probe_mask s)
                    (if used then Z.lor (in_use_mask s) (Z.shiftl 1 i) else in_use_mask s)
                    (upd i h (irq_tmp s)) s));
      probe_install (i + 1) n
  end.

Definition irq_probe (primer : option (st irqs unit)) : st irqs unit :=
  s ← get;
  if PROBING s then panic
  else
    _ ← probe_install 0 (Z.to_nat Nr_IRQ);
    match primer with Some p => p | None => mret tt end.

(** The scan of the mask: the line found, and whether the answer is true. *)
Fixpoint probe_scan (mask i : Z) (n : nat) (found : Z) (ret : bool) : Z * bool :=
  match n with
  | O => (found, ret)
  | S n =>
      if Z.land mask (Z.shiftl 1 i) =? 0 then probe_scan mask (i + 1) n found ret
      else if found =? IRQ_INVALID then probe_scan mask (i + 1) n i true
      else probe_scan mask (i + 1) n found false
  end.

(** The answer, and what is stored through [irq]: [None] is the NULL argument. *)
Definition irq_probe_done (irq : option unit) : st irqs (bool * option Z) :=
  match irq with
  | None => mret (false, None)
  | Some _ =>
      s ← get;
      let mask := Z.land (irq_probe_mask s) (u32 (Z.lnot (in_use_mask s))) in
      let '(found, ret) := probe_scan mask 0 (Z.to_nat Nr_IRQ) IRQ_INVALID false in
      _ ← modify (fun s => set_dispatch (irq_tmp s) s);
      _ ← modify (fun s => set_probe false 0 0 (irq_tmp s) s);
      mret (ret, Some (if ret then u32 found else u32 IRQ_INVALID))
  end.

Definition irq_probe_inuse (irq : Z) : st irqs (option Z) :=
  s ← get;
  if PROBING s then panic
  else if (irq <? 0) || (Nr_IRQ <=? irq) then panic
  else
    h ← checked (at_tab (irq_dispatch_tab s) irq);
    mret (if bool_decide (h = interrupt_default_irq) then None
          else if bool_decide (h = shared_handler) then Some IRQ_SHARED else Some IRQ_EXCL).

(** ** Administration

    The information function of a line is called through its pointer.  The table
    is filled by index, so an element is kept with its place; a shared element
    records the address of its slot. *)

Definition call_info (f : Z) : st irqs Z := if (f =? 0) || negb (info_defined f) then fault else mret f.

Fixpoint admin_excl (i : Z) (n : nat) : st irqs (list (Z * irq_admin_t)) :=
  match n with
  | O => mret []
  | S n =>
      s ← get;
      t ← checked (at_tab (IRQ_TYPE_MASK s) i);
      here ← (if t =? IRQ_EXCL then
                h ← checked (at_tab (irq_dispatch_tab s) i);
                f ← checked (at_tab (irq_info_tab s) i);
                v ← call_info f;
                mret [(i, {| ad_irq := i; ad_type := IRQ_EXCL; ad_address := handler_address h; ad_info := v |})]
              else mret []);
      rest ← admin_excl (i + 1) n;
      mret (here ++ rest)
  end.

(** The elements of the shared table for line [j]; [i] is the next place. *)
Fixpoint admin_elements (j k : Z) (n : nat) (i : Z) : st irqs (Z * list (Z * irq_admin_t)) :=
  match n with
  | O => mret (i, [])
  | S n =>
      s ← get;
      e ← checked (at_tab (IRQ_SHARED_TAB s) k);
      if sh_irq e =? j then
        v ← call_info (sh_info e);
        r ← admin_elements j (k + 1) n (i + 1);
        let '(i', rest) := r in
        mret (i', (i, {| ad_irq := i; ad_type := IRQ_SHARED; ad_address := slot_address k; ad_info := v |}) :: rest)
      else admin_elements j (k + 1) n i
  end.

(** The type that is tested is that of [i], not of [j]. *)
Fixpoint admin_shared (i j : Z) (n : nat) : st irqs (Z * list (Z * irq_admin_t)) :=
  match n with
  | O => mret (i, [])
  | S n =>
      s ← get;
      t ← checked (at_tab (IRQ_TYPE_MASK s) i);
      r ← (if t =? IRQ_SHARED then admin_elements j 0 (Z.to_nat Nr_IRQ_ELEM) i else mret (i, []));
      let '(i', here) := r in
      rest ← admin_shared i' (j + 1) n;
      let '(i'', rest) := rest in
      mret (i'', here ++ rest)
  end.

(** The table, and [nr_admin]. *)
Definition irq_get_data : st irqs (Z * list (Z * irq_admin_t)) :=
  excl ← admin_excl 0 (Z.to_nat Nr_IRQ);
  shared ← admin_shared (Nr_IRQ + 1) 0 (Z.to_nat Nr_IRQ);
  let '(n, shared) := shared in
  mret (n, excl ++ shared).

End Handlers.

(** ** States the code reaches *)

(** Number of slots in use among those the ring visits. *)
Definition ring_used (tab : list shared_handler_t) : Z :=
  Z.of_nat (length (filter (fun e => sh_irq e <> IRQ_INVALID) (take 31 tab))).

Record irqs_ok (s : irqs) : Prop := {
  ok_dispatch : length (irq_dispatch_tab s) = 16%nat;
  ok_info : length (irq_info_tab s) = 16%nat;
  ok_types : length (IRQ_TYPE_MASK s) = 16%nat;
  ok_tmp : length (irq_tmp s) = 16%nat;
  ok_shared : length (IRQ_SHARED_TAB s) = 32%nat;
  ok_last : forall e, IRQ_SHARED_TAB s !! 31%nat = Some e -> sh_irq e = IRQ_INVALID;
  ok_count : nr_shared s = ring_used (IRQ_SHARED_TAB s)
}.

(** The handlers of a line, in the order of the table. *)
Definition attached (irq : Z) (tab : list shared_handler_t) : list interrupt_handler_t :=
  sh_handler <$> filter (fun e => sh_irq e = irq) (take 31 tab).

Lemma at_tab_some {A} (l : list A) i : 0 <= i < Z.of_nat (length l) -> exists x, at_tab l i = Some x.
Proof.
  intros Hi. unfold at_tab. rewrite (proj2 (Z.leb_le 0 i)) by lia.
  apply lookup_lt_is_Some_2. lia.
Qed.

Lemma at_tab_lookup {A} (l : list A) i x : at_tab l i = Some x -> 0 <= i /\ l !! Z.to_nat i = Some x.
Proof. unfold at_tab. by destruct (Z.leb_spec 0 i). Qed.

Lemma admin_excl_end info_defined s n : forall i,
  irqs_ok s -> 0 <= i -> i + Z.of_nat n <= 16 ->
  admin_excl info_defined i n s = Fault \/ exists l, admin_excl info_defined i n s = Ret (l, s).
Proof.
  induction n as [|n IH]; intros i Hok Hi Hn; [right; by exists []|]. simpl.
  destruct (at_tab_some (IRQ_TYPE_MASK s) i) as [t Et]; [rewrite (ok_types s Hok); lia|].
  destruct (at_tab_some (irq_dispatch_tab s) i) as [h Eh]; [rewrite (ok_dispatch s Hok); lia|].
  destruct (at_tab_some (irq_info_tab s) i) as [f Ef]; [rewrite (ok_info s Hok); lia|].
  destruct (IH (i + 1) Hok ltac:(lia) ltac:(lia)) as [E | [l E]];
    unfold mbind, st_bind, get, checked, call_info, mret, st_ret, fault; rewrite Et;
    destruct (t =? IRQ_EXCL); rewrite ?Eh, ?Ef; try destruct ((f =? 0) || _); rewrite ?E; eauto.
Qed.

Lemma admin_shared_out info_defined s i j n :
  Z.of_nat (length (IRQ_TYPE_MASK s)) <= i -> admin_shared info_defined i j (S n) s = Fault.
Proof.
  intros Hi. cbn [admin_shared]. unfold mbind, st_bind, get, checked, at_tab.
  rewrite (proj2 (Z.leb_le 0 i)), lookup_ge_None_2 by lia. done.
Qed.

(** Listing the handlers never succeeds: a line without a driver has no
    information function, and when all sixteen have one the type of an
    eighteenth line is read. *)
Lemma irq_get_data_faults info_defined s : irqs_ok s -> irq_get_data info_defined s = Fault.
Proof.
  intros Hok. unfold irq_get_data, mbind, st_bind. change (Z.to_nat Nr_IRQ) with 16%nat.
  destruct (admin_excl_end info_defined s 16 0 Hok ltac:(lia) ltac:(lia)) as [-> | [l ->]]; [done|].
  by rewrite admin_shared_out by (rewrite (ok_types s Hok); done).
Qed.

(** ** The mask of the controllers

    The abstract view: the set of lines that are on. *)

Definition switch (on : bool) (irq : Z) : st irqs unit := if on then enable_irq irq else disable_irq irq.

Fixpoint switches (ops : list (bool * Z)) : st irqs unit :=
  match ops with
  | [] => mret tt
  | (on, irq) :: ops => _ ← switch on irq; switches ops
  end.

Definition switch_line (lines : gset Z) (op : bool * Z) : gset Z :=
  if op.1 then {[op.2]} ∪ lines else lines ∖ {[op.2]}.

Fixpoint last_write (p : Z) (ws : list (Z * Z)) : option Z :=
  match ws with
  | [] => None
  | (q, v) :: ws => if q =? p then Some v else last_write p ws
  end.

(** The lines the controllers let through: bit 2 of the master gates the slave. *)
Definition delivered (ws : list (Z * Z)) (n : Z) : Prop :=
  exists m sl, last_write M_IMR ws = Some m /\ last_write S_IMR ws = Some sl /\
    if n <? 8 then Z.testbit m n = false else Z.testbit m 2 = false /\ Z.testbit sl (n - 8) = false.

(** A line that is not the cascade. *)
Definition is_line (n : Z) : Prop := 0 <= n < 16 /\ n <> 2.

Record mask_for (lines : gset Z) (s : irqs) : Prop := {
  mf_bits : forall n, is_line n -> Z.testbit (irq_mask s) n = negb (bool_decide (n ∈ lines));
  mf_cascade : Z.testbit (irq_mask s) 2 = false <-> exists n, n ∈ lines /\ 8 <= n;
  mf_lines : forall n, n ∈ lines -> is_line n;
  mf_master : last_write M_IMR (ports s) = Some (u8 (Z.land (irq_mask s) 0xFF));
  mf_slave : last_write S_IMR (ports s) = Some (u8 (Z.land (Z.shiftr (irq_mask s) 8) 0xFF))
}.

Lemma irq_bit_line n : 0 <= n < 16 -> irq_bit (u16 n) = Some (Z.shiftl 1 n) /\ u16 n = n.
Proof.
  intros Hn. assert (u16 n = n) as E by (apply (uwrap_small 16); lia). split; [|done].
  unfold irq_bit. rewrite E, (proj2 (Z.leb_le 0 n)), (proj2 (Z.ltb_lt n 32)) by lia. simpl.
  f_equal. apply u32_small. rewrite Z.shiftl_1_l. split; [apply Z.pow_nonneg; lia|].
  apply Z.le_lt_trans with (2 ^ 15); [apply Z.pow_le_mono_r; lia | done].
Qed.

Lemma cleared_bit m b i : 0 <= b < 32 -> 0 <= i < 32 ->
  Z.testbit (Z.land m (u32 (Z.lnot (Z.shiftl 1 b)))) i = Z.testbit m i && negb (i =? b).
Proof.
  intros Hb Hi. by rewrite Z.land_spec, uwrap_testbit, Z.lnot_spec, shiftl1_testbit by lia.
Qed.

Lemma added_bit m b i : 0 <= b -> 0 <= i ->
  Z.testbit (Z.lor m (Z.shiftl 1 b)) i = Z.testbit m i || (i =? b).
Proof. intros Hb Hi. by rewrite Z.lor_spec, shiftl1_testbit by lia. Qed.

Lemma high_byte_full m :
  (Z.land m 0xFF00 =? 0xFF00) = true <-> forall n, 8 <= n < 16 -> Z.testbit m n = true.
Proof.
  rewrite Z.eqb_eq. split.
  - intros E n Hn. apply (f_equal (fun z => Z.testbit z n)) in E.
    rewrite Z.land_spec in E. change 65280 with (Z.shiftl (Z.ones 8) 8) in E.
    rewrite Z.shiftl_spec, Z.testbit_ones_nonneg in E by lia.
    rewrite (proj2 (Z.ltb_lt (n - 8) 8)), andb_true_r in E by lia. done.
  - intros H. apply Z.bits_inj'. intros i Hi. rewrite Z.land_spec.
    change 65280 with (Z.shiftl (Z.ones 8) 8). rewrite Z.shiftl_spec by lia.
    destruct (Z.lt_ge_cases i 8); [rewrite (Z.testbit_neg_r _ (i - 8)) by lia; apply andb_false_r|].
    rewrite Z.testbit_ones_nonneg by lia. destruct (Z.ltb_spec (i - 8) 8); [|apply andb_false_r].
    by rewrite H by lia.
Qed.

Definition mask_after (on : bool) (n m : Z) : Z :=
  if on then
    let m := Z.land m (u32 (Z.lnot (Z.shiftl 1 n))) in
    if 8 <=? n then Z.land m (u32 (Z.lnot (Z.shiftl 1 2))) else m
  else
    let m := Z.lor m (Z.shiftl 1 n) in
    if Z.land m 0xFF00 =? 0xFF00 then Z.lor m (Z.shiftl 1 2) else m.

Definition written (n m : Z) (ws : list (Z * Z)) : list (Z * Z) :=
  let ws := (M_IMR, u8 (Z.land m 0xFF)) :: ws in
  if 8 <=? n then (S_IMR, u8 (Z.land (Z.shiftr m 8) 0xFF)) :: ws else ws.

Definition switched (on : bool) (n : Z) (s : irqs) : irqs :=
  set_ports (written n (mask_after on n (irq_mask s)) (ports s)) (set_mask (mask_after on n (irq_mask s)) s).

Lemma switch_run on n s : 0 <= n < 16 -> switch on n s = Ret (tt, switched on n s).
Proof.
  intros Hn. destruct (irq_bit_line n Hn) as [Eb En]. unfold switch, switched, mask_after, written.
  destruct on; unfold enable_irq, disable_irq, mbind, st_bind, checked, modify, write_masks, io_outb, gets;
    rewrite Eb, En; destruct (8 <=? n); cbn; try destruct (_ =? 65280); reflexivity.
Qed.

Lemma mem_add k n (l : gset Z) : bool_decide (k ∈ {[n]} ∪ l) = (k =? n) || bool_decide (k ∈ l).
Proof. destruct (Z.eqb_spec k n) as [-> | Hne]; [apply bool_decide_true; apply elem_of_union_l, elem_of_singleton; done|].
  apply bool_decide_ext. rewrite ?elem_of_union, ?elem_of_difference, elem_of_singleton. tauto. Qed.

Lemma mem_del k n (l : gset Z) : bool_decide (k ∈ l ∖ {[n]}) = negb (k =? n) && bool_decide (k ∈ l).
Proof. destruct (Z.eqb_spec k n) as [-> | Hne]; [apply bool_decide_false; intros [_ H]%elem_of_difference; by apply H, elem_of_singleton|].
  apply bool_decide_ext. rewrite ?elem_of_union, ?elem_of_difference, elem_of_singleton. tauto. Qed.

(** The cascade follows the lines of the slave. *)
Lemma mask_on_bits n m (lines : gset Z) :
  is_line n ->
  (forall k, is_line k -> Z.testbit m k = negb (bool_decide (k ∈ lines))) ->
  (Z.testbit m 2 = false <-> exists k, k ∈ lines /\ 8 <= k) ->
  (forall k, is_line k -> Z.testbit (mask_after true n m) k = negb (bool_decide (k ∈ {[n]} ∪ lines))) /\
  (Z.testbit (mask_after true n m) 2 = false <-> exists k, k ∈ {[n]} ∪ lines /\ 8 <= k).
Proof.
  intros [Hn Hn2] Hb Hc. unfold mask_after. split.
  - intros k Hl. pose proof Hl as [Hk Hk2].
    rewrite mem_add, negb_orb, andb_comm, <- (Hb k Hl).
    destruct (8 <=? n); rewrite !cleared_bit by lia; [|done].
    by rewrite (proj2 (Z.eqb_neq k 2)), andb_true_r by lia.
  - destruct (Z.leb_spec 8 n).
    + rewrite !cleared_bit, andb_false_r by lia. split; [|done]. intros _. exists n.
      by split; [apply elem_of_union_l, elem_of_singleton|].
    + rewrite cleared_bit, (proj2 (Z.eqb_neq 2 n)), andb_true_r, Hc by lia.
      split; intros (k & Hk & ?); exists k; (split; [|done]).
      * by apply elem_of_union_r.
      * apply elem_of_union in Hk as [Hk | Hk]; [apply elem_of_singleton in Hk; lia | done].
Qed.

Lemma mask_off_bits n m (lines : gset Z) :
  is_line n ->
  (forall k, is_line k -> Z.testbit m k = negb (bool_decide (k ∈ lines))) ->
  (Z.testbit m 2 = false <-> exists k, k ∈ lines /\ 8 <= k) ->
  (forall k, k ∈ lines -> is_line k) ->
  (forall k, is_line k -> Z.testbit (mask_after false n m) k = negb (bool_decide (k ∈ lines ∖ {[n]}))) /\
  (Z.testbit (mask_after false n m) 2 = false <-> exists k, k ∈ lines ∖ {[n]} /\ 8 <= k).
Proof.
  intros [Hn Hn2] Hb Hc Hl. unfold mask_after.
  assert (forall k, is_line k -> Z.testbit (Z.lor m (Z.shiftl 1 n)) k
              = negb (bool_decide (k ∈ lines ∖ {[n]}))) as Hoff.
  { intros k Hk. rewrite mem_del, negb_andb, negb_involutive, orb_comm, <- (Hb k Hk).
    destruct Hk. by rewrite added_bit by lia. }
  pose proof (high_byte_full (Z.lor m (Z.shiftl 1 n))) as Hfull. split.
  - intros k Hk. rewrite <- (Hoff k Hk). destruct Hk as [Hk Hk2]. destruct (_ =? 65280); [|done].
    rewrite added_bit by lia. by rewrite (proj2 (Z.eqb_neq k 2)), orb_false_r by lia.
  - destruct (_ =? 65280).
    + rewrite added_bit, orb_true_r by lia. split; [done|]. intros (k & Hk & Hk8).
      pose proof Hk as [Hk' _]%elem_of_difference. pose proof (Hl k Hk') as Hr.
      assert (Z.testbit (Z.lor m (Z.shiftl 1 n)) k = true) as E by (apply Hfull; [done|destruct Hr; lia]).
      rewrite Hoff in E by done. by rewrite bool_decide_true in E.
    + assert (exists k, k ∈ lines ∖ {[n]} /\ 8 <= k) as Hex.
      { apply (dec_stable (P := set_Exists (fun k => 8 <= k) (lines ∖ {[n]}))). intros Hno. cut (false = true); [done|]. apply Hfull.
        intros k Hk. rewrite Hoff by (split; lia). apply negb_true_iff, bool_decide_false.
        intros Hin. apply Hno. exists k. by split; [|lia]. }
      split; [done|]. intros _. rewrite added_bit, (proj2 (Z.eqb_neq 2 n)), orb_false_r by lia.
      apply Hc. destruct Hex as (k & [Hk _]%elem_of_difference & ?). by exists k.
Qed.

Lemma low_byte_bit m i : 0 <= i < 8 -> Z.testbit (u8 (Z.land m 0xFF)) i = Z.testbit m i.
Proof.
  intros Hi. rewrite uwrap_testbit, Z.land_spec by lia. change 255 with (Z.ones 8).
  by rewrite Z.testbit_ones_nonneg, (proj2 (Z.ltb_lt i 8)), andb_true_r by lia.
Qed.

Lemma high_byte_bit m i : 0 <= i < 8 -> Z.testbit (u8 (Z.land (Z.shiftr m 8) 0xFF)) i = Z.testbit m (i + 8).
Proof. intros Hi. by rewrite low_byte_bit, Z.shiftr_spec by lia. Qed.

Lemma mask_after_high on n m k : 0 <= n < 8 -> 8 <= k < 16 -> Z.testbit (mask_after on n m) k = Z.testbit m k.
Proof.
  intros Hn Hk. unfold mask_after. destruct on.
  - rewrite (proj2 (Z.leb_gt 8 n)), cleared_bit, (proj2 (Z.eqb_neq k n)) by lia. apply andb_true_r.
  - destruct (_ =? 65280); rewrite !added_bit, (proj2 (Z.eqb_neq k n)) by lia;
      rewrite ?(proj2 (Z.eqb_neq k 2)) by lia; by rewrite !orb_false_r.
Qed.

Lemma high_byte_same m m' :
  (forall k, 8 <= k < 16 -> Z.testbit m' k = Z.testbit m k) ->
  u8 (Z.land (Z.shiftr m' 8) 0xFF) = u8 (Z.land (Z.shiftr m 8) 0xFF).
Proof.
  intros H. apply (eq_bits 8); [lia | apply u8_range | apply u8_range |].
  intros i Hi. rewrite !high_byte_bit by lia. apply H. lia.
Qed.

Lemma mask_for_switch lines s on n :
  mask_for lines s -> is_line n -> mask_for (switch_line lines (on, n)) (switched on n s).
Proof.
  intros [Hb Hc Hl Hm Hs] Hn.
  assert ((forall k, is_line k -> Z.testbit (mask_after on n (irq_mask s)) k
            = negb (bool_decide (k ∈ switch_line lines (on, n)))) /\
          (Z.testbit (mask_after on n (irq_mask s)) 2 = false
            <-> exists k, k ∈ switch_line lines (on, n) /\ 8 <= k)) as [H1 H2].
  { destruct on; [apply mask_on_bits | apply mask_off_bits]; done. }
  split; cbn [switched irq_mask ports set_ports set_mask].
  - exact H1.
  - exact H2.
  - intros k. unfold switch_line. destruct on; cbn [fst snd].
    + intros [->%elem_of_singleton | ?]%elem_of_union; auto.
    + intros [? _]%elem_of_difference; auto.
  - unfold written. by destruct (8 <=? n).
  - unfold written. destruct (Z.leb_spec 8 n) as [|Hlt]; [done|]. cbn.
    rewrite Hs. f_equal. symmetry. apply high_byte_same. intros k Hk.
    apply mask_after_high; [destruct Hn|]; lia.
Qed.

Lemma mask_for_delivered lines s n :
  mask_for lines s -> is_line n -> delivered (ports s) n <-> n ∈ lines.
Proof.
  intros [Hb Hc Hl Hm Hs] [Hn Hn2]. pose proof (Hb n (conj Hn Hn2)) as En.
  assert (Z.testbit (irq_mask s) n = false <-> n ∈ lines) as Hbit.
  { rewrite En, negb_false_iff. apply bool_decide_eq_true. }
  unfold delivered. rewrite Hm, Hs. split.
  - intros (m & sl & [= <-] & [= <-] & H). apply Hbit. destruct (Z.ltb_spec n 8).
    + by rewrite low_byte_bit in H by lia.
    + destruct H as [_ H]. rewrite high_byte_bit in H by lia. by replace (n - 8 + 8) with n in H by lia.
  - intros Hin. eexists _, _. split; [done|]. split; [done|].
    pose proof (proj2 Hbit Hin). destruct (Z.ltb_spec n 8).
    + by rewrite low_byte_bit by lia.
    + rewrite low_byte_bit, high_byte_bit by lia. replace (n - 8 + 8) with n by lia.
      split; [|done]. apply Hc. by exists n.
Qed.

Lemma switches_run ops : forall lines s,
  mask_for lines s -> Forall (fun op => is_line op.2) ops ->
  exists s', switches ops s = Ret (tt, s') /\ mask_for (foldl switch_line lines ops) s'.
Proof.
  induction ops as [|[on n] ops IH]; intros lines s Hm Ho; [by exists s|].
  apply Forall_cons in Ho as [Hn Ho]. cbn [snd] in Hn. simpl. unfold mbind, st_bind.
  rewrite switch_run by apply Hn. apply IH; [by apply mask_for_switch | done].
Qed.

Definition init_writes : list (Z * Z) :=
  [ (S_IMR, 0xff); (M_IMR, 0xff); (S_PIC + 1, ICW4); (M_PIC + 1, ICW4); (S_PIC + 1, 2);
    (M_PIC + 1, 4); (S_PIC + 1, S_VEC); (M_PIC + 1, M_VEC); (S_PIC, ICW1); (M_PIC, ICW1) ].

Definition invalid_slot (e : shared_handler_t) : shared_handler_t :=
  {| sh_irq := IRQ_INVALID; sh_handler := interrupt_default_irq; sh_info := sh_info e |}.

Definition initialised (s : irqs) : irqs :=
  set_ports (init_writes ++ ports s)
    (set_shared (invalid_slot <$> IRQ_SHARED_TAB s) (nr_shared s)
      (set_dispatch (replicate (Z.to_nat Nr_IRQ) interrupt_default_irq) s)).

Lemma interrupt_init_run s : interrupt_init s = Ret (tt, initialised s).
Proof. reflexivity. Qed.

Lemma init_mask_for s : irq_mask s = 0xFFFF -> mask_for ∅ (initialised s).
Proof.
  intros Hm.
  assert (forall n, 0 <= n < 16 -> Z.testbit 0xFFFF n = true) as Hone.
  { intros n Hn. change 0xFFFF with (Z.ones 16). rewrite Z.testbit_ones_nonneg by lia.
    apply Z.ltb_lt. lia. }
  split; cbn [irq_mask ports initialised set_ports set_shared set_dispatch]; rewrite ?Hm; try done.
  - intros n [Hn _]. by rewrite Hone by lia.
  - split; [done|]. intros (k & Hk & _). by apply elem_of_empty in Hk.
Qed.

(** C25: The mask of the two 8259 controllers implements a set of lines.  After interrupt_init all
    lines are off; after any sequence of enable_irq and disable_irq on lines other than the
    cascade, the controllers let through exactly the lines whose last request was to enable them:
    the cascade on line 2 opens with the first line of the slave and closes with its last. *)
Theorem irq_lines_refine s ops :
  irq_mask s = 0xFFFF ->
  Forall (fun op => is_line op.2) ops ->
  exists s',
    (_ ← interrupt_init; switches ops) s = Ret (tt, s') /\
    forall n, is_line n -> delivered (ports s') n <-> n ∈ foldl switch_line ∅ ops.
Proof.
  intros Hm Ho. unfold mbind, st_bind.
  rewrite interrupt_init_run.
  destruct (switches_run ops ∅ _ (init_mask_for s Hm) Ho) as (s' & Es & Hs').
  exists s'. split; [done|]. intros n Hn. by apply mask_for_delivered.
Qed.

Lemma irq_lines_refine_witness :
  exists s', (_ ← interrupt_init; switches [(true, 14); (true, 1); (false, 1)]) static_irqs = Ret (tt, s') /\
    delivered (ports s') 14 /\ ~ delivered (ports s') 1.
Proof.
  destruct (irq_lines_refine static_irqs [(true, 14); (true, 1); (false, 1)]) as (s' & E & H);
    [reflexivity | repeat (apply Forall_cons; split; [split; simpl; lia|]); apply Forall_nil; done |].
  exists s'. split; [exact E|]. split.
  - apply H; [split; lia|]. refine (bool_decide_eq_true_1 _ _). vm_compute. reflexivity.
  - intros Hd. apply H in Hd; [|split; lia]. apply (bool_decide_eq_true_2 _) in Hd. vm_compute in Hd.
    discriminate Hd.
Defined.

(** ** The vectors the controllers raise

    The write that follows ICW1 on the odd port of a controller is its base
    vector: line [n] raises the base plus [n mod 8]. *)

Fixpoint base_vector (pic : Z) (ws : list (Z * Z)) (acc : option Z) : option Z :=
  match ws with
  | [] => None
  | (q, v) :: ws =>
      if (q =? pic) && (v =? ICW1) then acc
      else base_vector pic ws (if q =? pic + 1 then Some v else acc)
  end.

Definition raised_vector (ws : list (Z * Z)) (n : Z) : option Z :=
  (fun base => base + n mod 8) <$> base_vector (if n <? 8 then M_PIC else S_PIC) ws None.

Definition line_stubs : list stub :=
  [irq_00; irq_01; irq_02; irq_03; irq_04; irq_05; irq_06; irq_07;
   irq_08; irq_09; irq_10; irq_11; irq_12; irq_13; irq_14; irq_15].

(** Look a vector of the finished table up. *)
Ltac gate_at :=
  cbn [Nat.ltb Nat.leb]; unfold with_plan; cbn [IDT]; rewrite list_lookup_fmap;
  match goal with |- context [full_plan !! ?v] =>
    let e := eval vm_compute in (full_plan !! v) in change (full_plan !! v) with e end;
  first [ reflexivity
        | cbn; f_equal; exact (f_equal g_offset (gate_words_view _ _ _ (u32_range _))) ].

(** An interrupt of the master controller goes to the entry point of its line, but the vector
    that any line of the slave controller raises has a gate that is not present: the slave is
    programmed to start at vector 0x70 while the table puts line 8 at 0x78. *)
Theorem slave_lines_unhandled address_of s :
  exists t s',
    protect_init address_of static_tables = Ret (tt, t) /\ interrupt_init s = Ret (tt, s') /\
    (forall n h, line_stubs !! n = Some h ->
      exists v, raised_vector (ports s') (Z.of_nat n) = Some v /\
        if (n <? 8)%nat
        then _DESC_OFFSET <$> (IDT t !! Z.to_nat v) = Some (u32 (address_of h))
        else _DESC_PRESENT <$> (IDT t !! Z.to_nat v) = Some 0).
Proof.
  exists (with_plan address_of kernel_gdt full_plan), (initialised s).
  split; [apply protect_init_run|]. split; [done|]. intros n h E.
  do 16 (destruct n as [|n]; [injection E as <-; eexists; split; [reflexivity|]; gate_at|]). done.
Qed.

(** ** Probing a line *)

(** A driver has the line for itself. *)
Definition exclusive (s : irqs) (k : Z) : bool :=
  match at_tab (IRQ_TYPE_MASK s) k, at_tab (irq_dispatch_tab s) k with
  | Some t, Some h => (t =? IRQ_EXCL) && negb (bool_decide (h = interrupt_default_irq))
  | _, _ => false
  end.

Lemma at_tab_upd {A} (l : list A) i k x :
  0 <= i -> at_tab (upd i x l) k =
    if (k =? i) && (k <? Z.of_nat (length l)) then Some x else at_tab l k.
Proof.
  intros Hi. unfold at_tab, upd. destruct (Z.leb_spec 0 k) as [Hk|Hk].
  - destruct (Z.eqb_spec k i) as [->|Hne].
    + destruct (Z.ltb_spec i (Z.of_nat (length l))); simpl.
      * apply list_lookup_insert_eq. lia.
      * by rewrite list_insert_ge by lia.
    + apply list_lookup_insert_ne. lia.
  - destruct (Z.eqb_spec k i); [lia | done].
Qed.

Lemma upd_length {A} i (x : A) l : length (upd i x l) = length l.
Proof. apply length_insert. Qed.

(** After the loop of [irq_probe] from line [i] on. *)
Record probing (i : Z) (s s' : irqs) : Prop := {
  pr_dispatch : forall k, at_tab (irq_dispatch_tab s') k =
      if (i <=? k) && (k <? 16) then Some probe_handler else at_tab (irq_dispatch_tab s) k;
  pr_tmp : forall k, at_tab (irq_tmp s') k =
      if (i <=? k) && (k <? 16) then at_tab (irq_dispatch_tab s) k else at_tab (irq_tmp s) k;
  pr_used : forall k, 0 <= k -> Z.testbit (in_use_mask s') k =
      Z.testbit (in_use_mask s) k || ((i <=? k) && (k <? 16) && exclusive s k);
  pr_rest : irq_probe_mask s' = irq_probe_mask s /\ length (irq_tmp s') = length (irq_tmp s) /\
      length (irq_dispatch_tab s') = length (irq_dispatch_tab s)
}.

Lemma probe_install_run n : forall i s,
  length (irq_dispatch_tab s) = 16%nat -> length (IRQ_TYPE_MASK s) = 16%nat ->
  length (irq_tmp s) = 16%nat -> 0 <= i -> i + Z.of_nat n = 16 ->
  exists s', probe_install i n s = Ret (tt, s') /\ probing i s s'.
Proof.
  induction n as [|n IH]; intros i s Hd Ht Hp Hi Hn.
  { exists s. split; [done|]. split; [| |intros k Hk|done]; try intros k;
      destruct (Z.leb_spec i k), (Z.ltb_spec k 16); simpl; rewrite ?orb_false_r; done || lia. }
  destruct (at_tab_some (irq_dispatch_tab s) i) as [h Eh]; [lia|].
  destruct (at_tab_some (IRQ_TYPE_MASK s) i) as [t Et]; [lia|].
  simpl. unfold mbind, st_bind, get, checked, put. rewrite Eh, Et.
  set (used := (t =? IRQ_EXCL) && negb (bool_decide (h = interrupt_default_irq))).
  match goal with |- context [probe_install (i + 1) n ?x] => set (s1 := x) end.
  destruct (IH (i + 1) s1) as (s' & E & [Pd Pt Pu (Pm & Pl & Pl')]);
    [by unfold s1; cbn; rewrite upd_length | done | by unfold s1; cbn; rewrite upd_length | lia | lia |].
  exists s'. split; [exact E|].
  assert (forall k, at_tab (irq_dispatch_tab s1) k = if k =? i then Some probe_handler else at_tab (irq_dispatch_tab s) k) as D1.
  { intros k. unfold s1. cbn [irq_dispatch_tab set_dispatch]. rewrite at_tab_upd by lia.
    destruct (Z.eqb_spec k i); [|done]. by rewrite (proj2 (Z.ltb_lt k _)) by lia. }
  assert (forall k, at_tab (irq_tmp s1) k = if k =? i then Some h else at_tab (irq_tmp s) k) as T1.
  { intros k. unfold s1. cbn [irq_tmp set_dispatch set_probe]. rewrite at_tab_upd by lia.
    destruct (Z.eqb_spec k i); [|done]. by rewrite (proj2 (Z.ltb_lt k _)) by lia. }
  assert (forall k, 0 <= k -> Z.testbit (in_use_mask s1) k = Z.testbit (in_use_mask s) k || ((k =? i) && used)) as U1.
  { intros k Hk. unfold s1. cbn [in_use_mask set_dispatch set_probe]. destruct used.
    - rewrite added_bit by lia. by rewrite andb_true_r.
    - by rewrite andb_false_r, orb_false_r. }
  assert (exclusive s i = used) as Xi by (unfold exclusive; by rewrite Eh, Et).
  assert (forall k, i < k -> exclusive s1 k = exclusive s k) as X1.
  { intros k Hk. unfold exclusive. rewrite D1. unfold s1. cbn [IRQ_TYPE_MASK set_dispatch set_probe].
    by rewrite (proj2 (Z.eqb_neq k i)) by lia. }
  split.
  - intros k. rewrite Pd, D1. zcases; simpl; done || lia.
  - intros k. rewrite Pt, D1, T1. zcases; simpl; subst; done || lia.
  - intros k Hk. rewrite Pu, U1 by done.
    destruct (Z.eqb_spec k i) as [->|]; [rewrite Xi | destruct (Z.leb_spec (i + 1) k); [rewrite X1 by lia|]];
      zcases; simpl; rewrite ?orb_false_r; done || lia.
  - rewrite Pm, Pl, Pl'. unfold s1. cbn. by rewrite !upd_length.
Qed.

(** The interrupts that arrive between [irq_probe] and [irq_probe_done]. *)
Fixpoint interrupts (isr : Z -> Z -> st irqs irq_stat_t) (fired : list Z) : st irqs unit :=
  match fired with
  | [] => mret tt
  | n :: fired => _ ← dispatch isr n; interrupts isr fired
  end.

Lemma interrupts_probe isr fired : forall s,
  (forall k, 0 <= k < 16 -> at_tab (irq_dispatch_tab s) k = Some probe_handler) ->
  Forall (fun n => 0 <= n < 16) fired ->
  exists m, interrupts isr fired s =
      Ret (tt, set_probe (PROBING s) m (in_use_mask s) (irq_tmp s) s) /\
    forall k, 0 <= k < 16 -> Z.testbit m k = Z.testbit (irq_probe_mask s) k || bool_decide (k ∈ fired).
Proof.
  induction fired as [|n fired IH]; intros s Hd Hf; cbn [interrupts].
  - exists (irq_probe_mask s). split; [by destruct s|]. intros k Hk.
    rewrite bool_decide_false by apply not_elem_of_nil. by rewrite orb_false_r.
  - apply Forall_cons in Hf as [Hn Hf]. unfold mbind, st_bind, dispatch, get, checked.
    unfold mbind, st_bind. rewrite Hd by lia. cbn [call_element]. unfold probe_irq, mbind, st_bind, checked, irq_bit.
    rewrite (proj2 (Z.leb_le 0 n)), (proj2 (Z.ltb_lt n 32)) by lia. cbn [andb].
    unfold modify, mret, st_ret.
    match goal with |- context [interrupts isr fired ?x] => set (s1 := x) end.
    destruct (IH s1 Hd Hf) as (m & E & Hm). exists m. split; [exact E|]. intros k Hk.
    rewrite Hm by done. unfold s1. cbn [irq_probe_mask set_probe].
    assert (u32 (Z.shiftl 1 n) = Z.shiftl 1 n) as ->.
    { destruct (irq_bit_line n Hn) as [Eb En]. unfold irq_bit in Eb. rewrite En in Eb.
      rewrite (proj2 (Z.leb_le 0 n)), (proj2 (Z.ltb_lt n 32)) in Eb by lia. by injection Eb. }
    rewrite added_bit by lia. rewrite <- orb_assoc. f_equal.
    destruct (Z.eqb_spec k n) as [->|Hne].
    + by rewrite (bool_decide_true (n ∈ n :: fired)) by left.
    + simpl. apply bool_decide_ext. rewrite elem_of_cons. tauto.
Qed.

(** The scan finds the only bit that is on, or says that there is not just one. *)
Lemma probe_scan_spec mask n : forall i found ret,
  0 <= i -> found = IRQ_INVALID /\ ret = false \/ 0 <= found < i ->
  let '(found', ret') := probe_scan mask i n found ret in
  let on k := i <= k < i + Z.of_nat n /\ Z.testbit mask k = true in
  (ret' = true ->
    if found =? IRQ_INVALID then on found' /\ (forall k, on k -> k = found')
    else found' = found /\ ret = true /\ (forall k, ~ on k)) /\
  (ret' = false -> (found = IRQ_INVALID -> forall k, on k -> exists k', on k' /\ k' <> k) /\
                   (found <> IRQ_INVALID -> ret = true -> exists k, on k)).
Proof.
  induction n as [|n IH]; intros i found ret Hi Hf; simpl.
  { destruct Hf as [[-> ->] | Hf]; simpl.
    - split; [done|]. intros _. split; [|done]. intros _ k [Hk _]. lia.
    - rewrite (proj2 (Z.eqb_neq found IRQ_INVALID)) by (unfold IRQ_INVALID; lia).
      split; [intros ->; split; [done|]; split; [done|]; intros k [Hk _]; lia|].
      intros ->. split; [unfold IRQ_INVALID; lia | done]. }
  rewrite land_bit by done. destruct (Z.testbit mask i) eqn:Eb.
  - rewrite (proj2 (Z.eqb_neq (2 ^ i) 0)) by (apply Z.pow_nonzero; lia).
    destruct Hf as [[-> ->] | Hf]; simpl.
    + specialize (IH (i + 1) i true ltac:(lia) ltac:(right; lia)).
      destruct (probe_scan mask (i + 1) n i true) as [f r].
      rewrite (proj2 (Z.eqb_neq i IRQ_INVALID)) in IH by (unfold IRQ_INVALID; lia).
      destruct IH as [IHt IHf]. split.
      * intros Hr. destruct (IHt Hr) as (-> & _ & Hno). split; [split; [lia | done]|].
        intros k [Hk Hb]. destruct (decide (k = i)); [done|]. destruct (Hno k). split; [lia | done].
      * intros Hr. split; [|done]. intros _ k [Hk Hb].
        destruct (proj2 (IHf Hr) ltac:(unfold IRQ_INVALID; lia) eq_refl) as (k' & Hk' & Hb').
        destruct (decide (k = i)) as [->|]; [exists k' | exists i]; split; try lia; (split; [lia | done]).
    + rewrite !(proj2 (Z.eqb_neq found IRQ_INVALID)) by (unfold IRQ_INVALID; lia).
      specialize (IH (i + 1) found false ltac:(lia) ltac:(right; lia)).
      destruct (probe_scan mask (i + 1) n found false) as [f r].
      rewrite (proj2 (Z.eqb_neq found IRQ_INVALID)) in IH by (unfold IRQ_INVALID; lia).
      destruct IH as [IHt IHf]. split; [intros Hr; by destruct (IHt Hr) as (_ & ? & _)|].
      intros Hr. split; [unfold IRQ_INVALID; lia|]. intros _ _. exists i. split; [lia | done].
  - specialize (IH (i + 1) found ret ltac:(lia) ltac:(destruct Hf as [Hf | Hf]; [by left | right; lia])).
    change (0 =? 0) with true. cbv iota. destruct (probe_scan mask (i + 1) n found ret) as [f r].
    assert (forall k, (i <= k < i + Z.of_nat (S n) /\ Z.testbit mask k = true) <->
                      (i + 1 <= k < i + 1 + Z.of_nat n /\ Z.testbit mask k = true)) as Eq.
    { intros k. split; intros [Hk Hb]; (split; [|done]); [|lia].
      destruct (decide (k = i)) as [->|]; [congruence | lia]. }
    destruct IH as [IHt IHf]. split.
    + intros Hr. specialize (IHt Hr). destruct (found =? IRQ_INVALID).
      * destruct IHt as [H1 H2]. split; [by apply Eq|]. intros k Hk. by apply H2, Eq.
      * destruct IHt as (H1 & H2 & H3). split; [done|]. split; [done|]. intros k Hk. by apply (H3 k), Eq.
    + intros Hr. destruct (IHf Hr) as [H1 H2]. split.
      * intros Hi' k Hk. destruct (H1 Hi' k (proj1 (Eq k) Hk)) as (k' & Hk' & ?). exists k'. split; [by apply Eq | done].
      * intros Hi' Hr'. destruct (H2 Hi' Hr') as (k & Hk). exists k. by apply Eq.
Qed.

Lemma list_eq_at_tab {A} (l k : list A) : (forall i, at_tab l i = at_tab k i) -> l = k.
Proof.
  intros H. apply list_eq. intros i. specialize (H (Z.of_nat i)). unfold at_tab in H.
  rewrite (proj2 (Z.leb_le 0 (Z.of_nat i))), Nat2Z.id in H by lia. done.
Qed.

(** A probe of the interrupt lines reports the one line that fired.  Of the lines that raise an
    interrupt between irq_probe and irq_probe_done, those without an exclusive driver count: when
    there is exactly one, however often it fires, the answer is true and names it, and otherwise
    false with the invalid number; the dispatch table is as it was before the probe. *)
Theorem probe_correct isr s fired :
  irqs_ok s -> PROBING s = false -> irq_probe_mask s = 0 -> in_use_mask s = 0 ->
  Forall (fun n => 0 <= n < 16) fired ->
  let seen n := n ∈ fired /\ exclusive s n = false in
  exists ret v s',
    (_ ← irq_probe None; _ ← interrupts isr fired; irq_probe_done (Some tt)) s
      = Ret ((ret, Some v), s') /\
    (ret = true -> seen v /\ forall m, seen m -> m = v) /\
    (ret = false -> v = u32 IRQ_INVALID /\ forall n, seen n -> exists m, seen m /\ m <> n) /\
    irq_dispatch_tab s' = irq_dispatch_tab s /\ irq_probe_mask s' = 0 /\ in_use_mask s' = 0.
Proof.
  intros [Hd _ Ht Hp _ _ _] HP Hm Hu Hf seen.
  destruct (probe_install_run 16 0 s Hd Ht Hp ltac:(lia) ltac:(lia)) as (s1 & E1 & [Pd Pt Pu (Pm & Pl & Pl')]).
  destruct (interrupts_probe isr fired s1) as (m & E2 & Hmask); [|done|].
  { intros k Hk. rewrite Pd. zcases; simpl; done || lia. }
  unfold irq_probe, mbind, st_bind, get. rewrite HP. change (Z.to_nat Nr_IRQ) with 16%nat. rewrite E1.
  cbn [mret st_ret]. unfold mret, st_ret. rewrite E2. unfold irq_probe_done, mbind, st_bind, get, modify.
  change (Z.to_nat Nr_IRQ) with 16%nat. cbn [irq_probe_mask in_use_mask set_probe irq_tmp].
  set (w := Z.land m (u32 (Z.lnot (in_use_mask s1)))).
  pose proof (probe_scan_spec w 16 0 IRQ_INVALID false ltac:(lia) ltac:(by left)) as Hscan.
  destruct (probe_scan w 0 16 IRQ_INVALID false) as [found ret].
  rewrite Z.eqb_refl in Hscan. cbv zeta in Hscan.
  assert (forall k, (0 <= k < 0 + Z.of_nat 16 /\ Z.testbit w k = true) <-> seen k) as Hseen.
  { intros k. unfold seen, w. split.
    - intros [Hk Hb]. rewrite Z.land_spec, uwrap_testbit, Z.lnot_spec, Pu, Hmask, Pm, Hm, Hu, !Z.bits_0 in Hb by lia.
      apply andb_true_iff in Hb as [H1 H2]. split; [exact (bool_decide_eq_true_1 _ H1)|].
      revert H2. zcases; simpl; [apply negb_true_iff | lia ..].
    - intros [Hin Hx]. pose proof (proj1 (Forall_forall _ _) Hf k Hin) as Hk. cbv beta in Hk.
      split; [lia|]. rewrite Z.land_spec, uwrap_testbit, Z.lnot_spec, Pu, Hmask, Pm, Hm, Hu, !Z.bits_0, Hx by lia.
      rewrite andb_false_r. apply andb_true_iff. split; [exact (bool_decide_eq_true_2 _ Hin) | done]. }
  exists ret, (if ret then u32 found else u32 IRQ_INVALID). eexists. split; [reflexivity|].
  cbn [irq_dispatch_tab irq_probe_mask in_use_mask set_probe set_dispatch].
  destruct Hscan as [Htrue Hfalse]. split; [|split; [|split; [|done]]].
  - intros ->. destruct (Htrue eq_refl) as [Hon Hall].
    rewrite u32_small by lia. split; [by apply Hseen|]. intros n Hn. apply Hall. by apply Hseen.
  - intros ->. split; [done|]. intros n Hn.
    destruct (proj1 (Hfalse eq_refl) eq_refl n (proj2 (Hseen n) Hn)) as (k & Hk & Hne).
    exists k. split; [by apply Hseen | done].
  - apply list_eq_at_tab. intros k. cbn. rewrite Pt. unfold at_tab. zcases; simpl; try done.
    all: rewrite !lookup_ge_None_2 by lia; done.
Qed.

Lemma initialised_ok s :
  length (irq_info_tab s) = 16%nat -> length (IRQ_TYPE_MASK s) = 16%nat ->
  length (irq_tmp s) = 16%nat -> length (IRQ_SHARED_TAB s) = 32%nat -> nr_shared s = 0 ->
  irqs_ok (initialised s).
Proof.
  intros Hi Ht Hp Hs Hn. split; cbn [initialised irq_dispatch_tab irq_info_tab IRQ_TYPE_MASK irq_tmp
    IRQ_SHARED_TAB nr_shared set_ports set_shared set_dispatch]; try done.
  - by rewrite length_fmap.
  - intros e. rewrite list_lookup_fmap. destruct (_ !! _); [|done]. by intros [= <-].
  - rewrite Hn. unfold ring_used. rewrite <- fmap_take.
    induction (take 31 (IRQ_SHARED_TAB s)) as [|e l IH]; [done|].
    rewrite fmap_cons, filter_cons_False by (intros H; by apply H). exact IH.
Qed.

Lemma probe_correct_witness :
  exists s', (_ ← irq_probe None; _ ← interrupts (fun _ _ => fault) [14; 14]; irq_probe_done (Some tt))
    (initialised static_irqs) = Ret ((true, Some 14), s').
Proof.
  destruct (probe_correct (fun _ _ => fault) (initialised static_irqs) [14; 14]) as (ret & v & s' & E & Ht & Hf & _).
  - apply initialised_ok; reflexivity.
  - reflexivity.
  - reflexivity.
  - reflexivity.
  - repeat (apply Forall_cons; split; [lia|]). apply Forall_nil. done.
  - destruct ret.
    + destruct (Ht eq_refl) as [[Hv _] _]. exists s'. rewrite E.
      repeat (apply elem_of_cons in Hv as [-> | Hv]; [reflexivity|]). destruct (not_elem_of_nil _ Hv).
    + destruct (Hf eq_refl) as [_ Hno].
      destruct (Hno 14) as (m & [Hm _] & Hne).
      * split; [apply elem_of_cons; by left | reflexivity].
      * apply elem_of_cons in Hm as [E1 | Hm]; [destruct (Hne E1)|].
        apply elem_of_cons in Hm as [E1 | Hm]; [destruct (Hne E1)|]. destruct (not_elem_of_nil _ Hm).
Defined.

(** ** The ring of shared handlers *)

(** The slots the loops visit, from [ptr] until they are back at [str]. *)
Fixpoint visits (fuel : nat) (str ptr : Z) : option (list Z) :=
  match fuel with
  | O => None
  | S fuel =>
      if ring_next ptr =? str then Some [ptr] else (ptr ::.) <$> visits fuel str (ring_next ptr)
  end.

(** The ring of a line: every slot but the last one, once. *)
Definition ring (irq : Z) : list Z := default [] (visits 32 (irq * Nr_IRQ_SLOT) (irq * Nr_IRQ_SLOT)).

Lemma ring_visits irq :
  0 <= irq < 16 ->
  visits 32 (irq * Nr_IRQ_SLOT) (irq * Nr_IRQ_SLOT) = Some (ring irq) /\ ring irq ≡ₚ seqZ 0 31.
Proof.
  intros Hi.
  assert (forallb (fun irq =>
      bool_decide (visits 32 (irq * Nr_IRQ_SLOT) (irq * Nr_IRQ_SLOT) = Some (ring irq))
      && bool_decide (ring irq = seqZ (irq * 2) (31 - irq * 2) ++ seqZ 0 (irq * 2)))
      (seqZ 0 16) = true) as Hall by (vm_compute; reflexivity).
  rewrite forallb_forall in Hall. specialize (Hall irq). apply andb_true_iff in Hall as [H1 H2].
  - split; [exact (bool_decide_eq_true_1 _ H1)|].
    rewrite (bool_decide_eq_true_1 _ H2).
    replace 31 with (irq * 2 + (31 - irq * 2)) at 2 by lia.
    rewrite (seqZ_app 0 (irq * 2)) by lia. apply Permutation_app_comm.
  - apply list_elem_of_In, elem_of_seqZ. lia.
Qed.

Fixpoint uninstall_list (irq : Z) (handler : interrupt_handler_t) (l : list Z) : st irqs unit :=
  match l with
  | [] => mret tt
  | p :: l =>
      s ← get;
      e ← checked (at_tab (IRQ_SHARED_TAB s) p);
      let clear := modify (fun s => set_shared (upd p empty_slot (IRQ_SHARED_TAB s)) (nr_shared s - 1) s) in
      if (sh_irq e =? irq) && bool_decide (handler = null_handler) then _ ← clear; uninstall_list irq handler l
      else if (sh_irq e =? irq) && bool_decide (sh_handler e = handler) then clear
      else uninstall_list irq handler l
  end.

Fixpoint shared_list (isr : Z -> Z -> st irqs irq_stat_t) (irq : Z) (l : list Z) (ret : irq_stat_t)
    : st irqs irq_stat_t :=
  match l with
  | [] => mret ret
  | p :: l =>
      s ← get;
      e ← checked (at_tab (IRQ_SHARED_TAB s) p);
      ret ← (if sh_irq e =? irq
             then a ← call_element isr (sh_handler e) irq;
                  mret (match a with IRQ_ENABLE => IRQ_ENABLE | IRQ_DISABLE => ret end)
             else mret ret);
      shared_list isr irq l ret
  end.

Lemma uninstall_loop_list irq h fuel : forall str ptr l s,
  visits fuel str ptr = Some l -> uninstall_loop fuel irq h str ptr s = uninstall_list irq h l s.
Proof.
  induction fuel as [|fuel IH]; intros str ptr l s E; [done|]. cbn [visits] in E.
  cbn [uninstall_loop]. destruct (ring_next ptr =? str).
  - injection E as <-. cbn [uninstall_list].
    apply st_bind_ext. intros s1 s2. apply st_bind_ext. intros e s3.
    destruct (_ && bool_decide (h = _)); [|by destruct (_ && _)].
    unfold mbind, st_bind, modify. done.
  - destruct (visits fuel str (ring_next ptr)) as [l'|] eqn:Ev; [|done]. injection E as <-.
    cbn [uninstall_list]. apply st_bind_ext. intros s1 s2. apply st_bind_ext. intros e s3.
    destruct (_ && bool_decide (h = _)); [apply st_bind_ext; intros; by apply IH|].
    destruct (_ && _); [done | by apply IH].
Qed.

Lemma shared_loop_list isr irq fuel : forall str ptr ret l s,
  visits fuel str ptr = Some l -> shared_loop isr fuel irq str ptr ret s = shared_list isr irq l ret s.
Proof.
  induction fuel as [|fuel IH]; intros str ptr ret l s E; [done|]. cbn [visits] in E.
  cbn [shared_loop]. destruct (ring_next ptr =? str) eqn:En.
  - injection E as <-. cbn [shared_list].
    apply st_bind_ext. intros s1 s2. apply st_bind_ext. intros e s3. by apply st_bind_ext.
  - destruct (visits fuel str (ring_next ptr)) as [l'|] eqn:Ev; [|done]. injection E as <-.
    cbn [shared_list]. apply st_bind_ext. intros s1 s2. apply st_bind_ext. intros e s3.
    apply st_bind_ext. intros r s4. by apply IH.
Qed.

(** *** The search for a free slot *)

Definition free_slot (tab : list shared_handler_t) (p : Z) : Prop :=
  exists e, at_tab tab p = Some e /\ sh_irq e = IRQ_INVALID.

Lemma find_slot_up tab k : free_slot tab k -> length tab = 32%nat -> k < 31 -> forall fuel p pass,
  pass < 2 -> 0 <= p <= k -> k - p < Z.of_nat fuel ->
  exists j, find_slot fuel tab p pass = Ret (Some j) /\ 0 <= j < 31 /\ free_slot tab j.
Proof.
  intros Hk Hl Hk31. induction fuel as [|fuel IH]; intros p pass Hpass Hp Hf; [lia|].
  cbn [find_slot]. destruct (at_tab_some tab p) as [e Ee]; [lia|]. rewrite Ee.
  destruct (Z.eqb_spec (sh_irq e) IRQ_INVALID) as [E|E].
  { exists p. split; [done|]. split; [lia|]. by exists e. }
  assert (p <> k) as Hne.
  { intros ->. destruct Hk as (e' & Ee' & E'). congruence. }
  assert ((p + 1 =? Nr_IRQ_ELEM - 1) = false) as En by (apply Z.eqb_neq; change (Nr_IRQ_ELEM - 1) with 31; lia).
  unfold ring_next. rewrite En, (proj2 (Z.eqb_neq pass 2)) by lia. apply IH; lia.
Qed.

Lemma find_slot_finds tab k : free_slot tab k -> length tab = 32%nat -> 0 <= k < 31 -> forall fuel p,
  0 <= p < 31 -> 62 - p < Z.of_nat fuel ->
  exists j, find_slot fuel tab p 0 = Ret (Some j) /\ 0 <= j < 31 /\ free_slot tab j.
Proof.
  intros Hk Hl Hk31. induction fuel as [|fuel IH]; intros p Hp Hf; [lia|].
  destruct (Z.le_gt_cases p k). { apply (find_slot_up tab k); done || lia. }
  cbn [find_slot]. destruct (at_tab_some tab p) as [e Ee]; [lia|]. rewrite Ee.
  destruct (Z.eqb_spec (sh_irq e) IRQ_INVALID) as [E|E].
  { exists p. split; [done|]. split; [lia|]. by exists e. }
  unfold ring_next. change (Nr_IRQ_ELEM - 1) with 31. destruct (Z.eqb_spec (p + 1) 31).
  - apply (find_slot_up tab k); done || lia.
  - apply IH; lia.
Qed.

(** *** What a change of one slot does to the lists *)

Lemma filter_upd {A} (P : A -> Prop) `{forall x, Decision (P x)} (l : list A) i old new :
  l !! i = Some old ->
  filter P [old] ++ filter P (<[i := new]> l) ≡ₚ filter P [new] ++ filter P l.
Proof.
  intros E. pose proof (lookup_lt_Some _ _ _ E). rewrite insert_take_drop by done.
  rewrite <- (take_drop_middle l i old E) at 3. rewrite !filter_app.
  change (new :: drop (S i) l) with ([new] ++ drop (S i) l).
  change (old :: drop (S i) l) with ([old] ++ drop (S i) l). rewrite !filter_app.
  rewrite (Permutation_app_swap_app (filter P (take i l)) (filter P [new])).
  rewrite (Permutation_app_swap_app (filter P (take i l)) (filter P [old])).
  apply Permutation_app_swap_app.
Qed.

Lemma take_upd (tab : list shared_handler_t) j x :
  0 <= j < 31 -> take 31 (upd j x tab) = <[Z.to_nat j := x]> (take 31 tab).
Proof. intros Hj. unfold upd. by rewrite take_insert_lt by lia. Qed.

Lemma attached_upd irq tab j old new :
  0 <= j < 31 -> at_tab tab j = Some old ->
  attached irq [old] ++ attached irq (upd j new tab) ≡ₚ attached irq [new] ++ attached irq tab.
Proof.
  intros Hj [_ E]%at_tab_lookup. unfold attached. rewrite take_upd by done.
  rewrite <- !fmap_app. apply fmap_Permutation. apply (filter_upd (fun e => sh_irq e = irq)).
  by rewrite lookup_take_lt by lia.
Qed.

Lemma attached_single irq e :
  attached irq [e] = if sh_irq e =? irq then [sh_handler e] else [].
Proof.
  unfold attached. change (take 31 [e]) with [e]. destruct (Z.eqb_spec (sh_irq e) irq).
  - by rewrite filter_cons_True by done.
  - by rewrite filter_cons_False by done.
Qed.

Lemma used_upd tab j old new :
  0 <= j < 31 -> at_tab tab j = Some old ->
  ring_used (upd j new tab) = ring_used tab
    + (if sh_irq new =? IRQ_INVALID then 0 else 1) - (if sh_irq old =? IRQ_INVALID then 0 else 1).
Proof.
  intros Hj [_ E]%at_tab_lookup. unfold ring_used. rewrite take_upd by done.
  assert (take 31 tab !! Z.to_nat j = Some old) as Et by (by rewrite lookup_take_lt by lia).
  pose proof (filter_upd (fun e => sh_irq e <> IRQ_INVALID) _ _ _ new Et) as Hp.
  apply Permutation_length in Hp. rewrite !length_app in Hp.
  destruct (Z.eqb_spec (sh_irq new) IRQ_INVALID), (Z.eqb_spec (sh_irq old) IRQ_INVALID);
    repeat first [rewrite (filter_cons_True _ old) in Hp by done | rewrite (filter_cons_False _ old) in Hp by (intros H; by apply H)
                 | rewrite (filter_cons_True _ new) in Hp by done | rewrite (filter_cons_False _ new) in Hp by (intros H; by apply H)];
    cbn [length filter] in Hp; lia.
Qed.

Lemma filter_short {A} (P : A -> Prop) `{forall x, Decision (P x)} (l : list A) :
  (length (filter P l) < length l)%nat -> exists i x, l !! i = Some x /\ ~ P x.
Proof.
  induction l as [|y l IH]; cbn [length]; [lia|]. intros Hlt. destruct (decide (P y)) as [Hy|Hy].
  - rewrite filter_cons_True in Hlt by done. cbn [length] in Hlt.
    destruct IH as (i & x & E & Hx); [lia|]. by exists (S i), x.
  - by exists 0%nat, y.
Qed.

Lemma room_free_slot s : irqs_ok s -> nr_shared s < 31 -> exists k, 0 <= k < 31 /\ free_slot (IRQ_SHARED_TAB s) k.
Proof.
  intros Hok Hn. rewrite (ok_count s Hok) in Hn. unfold ring_used in Hn.
  pose proof (ok_shared s Hok) as Hl.
  destruct (filter_short (fun e => sh_irq e <> IRQ_INVALID) (take 31 (IRQ_SHARED_TAB s))) as (i & x & E & Hx).
  { rewrite length_take. lia. }
  pose proof (lookup_lt_Some _ _ _ E) as Hi. rewrite length_take in Hi.
  rewrite lookup_take_lt in E by lia. exists (Z.of_nat i). split; [lia|]. exists x.
  unfold at_tab. rewrite (proj2 (Z.leb_le 0 _)), Nat2Z.id by lia. split; [done|]. by apply dec_stable.
Qed.

Lemma disable_run irq s :
  0 <= irq < 16 -> disable_irq irq s = Ret (tt, switched false irq s).
Proof. exact (switch_run false irq s). Qed.

Lemma ok_switched on n s : irqs_ok s -> irqs_ok (switched on n s).
Proof. intros []. by split. Qed.

(** Filling a free slot, and emptying a used one. *)
Lemma ok_fill s j x d i t :
  irqs_ok s -> 0 <= j < 31 -> free_slot (IRQ_SHARED_TAB s) j -> sh_irq x <> IRQ_INVALID ->
  length d = 16%nat -> length i = 16%nat -> length t = 16%nat ->
  irqs_ok (set_info i (set_dispatch d (set_types t (set_shared (upd j x (IRQ_SHARED_TAB s)) (nr_shared s + 1) s)))).
Proof.
  intros [] Hj (e & Ee & He) Hx Hd Hi Ht.
  split; cbn [irq_dispatch_tab irq_info_tab IRQ_TYPE_MASK irq_tmp IRQ_SHARED_TAB nr_shared
              set_info set_dispatch set_types set_shared]; try done.
  - by rewrite upd_length.
  - unfold upd. rewrite list_lookup_insert_ne by lia. done.
  - rewrite (used_upd _ j e) by done. rewrite He, (proj2 (Z.eqb_neq _ _) Hx), Z.eqb_refl. lia.
Qed.

(** Sharing an interrupt line.  On a line that is shared, or free, with room in the ring of
    31 slots, installing a shared handler succeeds: the line's handlers gain exactly it, those of
    every other line stay, the line dispatches to the shared dispatcher, and the table stays well
    formed (the counter is the number of slots in use and the last slot is never used). *)
Theorem install_shared_correct s irq h info :
  irqs_ok s -> PROBING s = false -> 0 <= irq < Nr_IRQ -> nr_shared s < 31 ->
  at_tab (IRQ_TYPE_MASK s) irq = Some IRQ_SHARED \/
  at_tab (IRQ_TYPE_MASK s) irq = Some IRQ_EXCL /\ at_tab (irq_dispatch_tab s) irq = Some interrupt_default_irq ->
  exists s', interrupt_install_handler irq IRQ_SHARED h info s = Ret (tt, s') /\ irqs_ok s' /\
    attached irq (IRQ_SHARED_TAB s') ≡ₚ h :: attached irq (IRQ_SHARED_TAB s) /\
    (forall k, 0 <= k -> k <> irq -> attached k (IRQ_SHARED_TAB s') ≡ₚ attached k (IRQ_SHARED_TAB s)) /\
    at_tab (IRQ_TYPE_MASK s') irq = Some IRQ_SHARED /\
    at_tab (irq_dispatch_tab s') irq = Some shared_handler.
Proof.
  intros Hok HP Hirq Hn Ht. change Nr_IRQ with 16 in Hirq.
  destruct (room_free_slot s Hok Hn) as (k & Hk & Hfree).
  destruct (find_slot_finds _ k Hfree (ok_shared s Hok) Hk 64 (irq * Nr_IRQ_SLOT)) as (j & Ej & Hj & Hfj);
    [unfold Nr_IRQ_SLOT; lia | unfold Nr_IRQ_SLOT; lia |].
  destruct (at_tab_some (irq_dispatch_tab s) irq) as [d Ed]; [rewrite (ok_dispatch s Hok); lia|].
  assert (exists t, at_tab (IRQ_TYPE_MASK s) irq = Some t) as [t Et] by (destruct Ht as [?|[? _]]; eauto).
  set (x := {| sh_irq := irq; sh_handler := h; sh_info := info |}).
  set (types := if (t =? IRQ_EXCL) && bool_decide (d = interrupt_default_irq)
                then upd irq IRQ_SHARED (IRQ_TYPE_MASK s) else IRQ_TYPE_MASK s).
  assert (at_tab types irq = Some IRQ_SHARED) as Htypes.
  { unfold types. destruct Ht as [Ht | [Ht Hd]].
    - rewrite Et in Ht. injection Ht as ->. done.
    - rewrite Et in Ht. injection Ht as ->. rewrite Ed in Hd. injection Hd as ->.
      rewrite Z.eqb_refl, bool_decide_true by done. cbn [andb].
      rewrite at_tab_upd, Z.eqb_refl, (proj2 (Z.ltb_lt irq _)) by (rewrite ?(ok_types s Hok); lia). done. }
  exists (set_info (upd irq 0 (irq_info_tab s)) (set_dispatch (upd irq shared_handler (irq_dispatch_tab s))
    (set_types types (set_shared (upd j x (IRQ_SHARED_TAB s)) (nr_shared s + 1) (switched false irq s))))).
  assert (length types = 16%nat) as Hlt
    by (unfold types; destruct (_ && _); rewrite ?upd_length; apply (ok_types s Hok)).
  split; [|split; [|split; [|split; [|split]]]].
  - unfold interrupt_install_handler, mbind, st_bind, get. rewrite HP.
    rewrite (proj2 (Z.ltb_ge irq 0)), (proj2 (Z.leb_gt Nr_IRQ irq)) by (change Nr_IRQ with 16; lia).
    change (IRQ_SHARED =? IRQ_SHARED) with true. cbn [orb]. cbv iota.
    unfold install_shared, mbind, st_bind. rewrite disable_run by lia. unfold get, checked, modify.
    cbn [switched IRQ_TYPE_MASK irq_dispatch_tab set_ports set_mask]. rewrite Et, Ed.
    fold types.
    match goal with |- context [match ?m (switched false irq s) with _ => _ end] =>
      assert (m (switched false irq s) = Ret (tt, set_types types (switched false irq s))) as ->
        by (unfold types; destruct (_ && _); [reflexivity | by destruct s]) end.
    cbn [IRQ_TYPE_MASK set_types]. rewrite Htypes.
    change (negb (IRQ_SHARED =? IRQ_SHARED)) with false. cbv iota.
    cbn [switched nr_shared IRQ_SHARED_TAB set_ports set_mask].
    rewrite (proj2 (Z.eqb_neq (nr_shared s) (Nr_IRQ_ELEM - 1))) by (change (Nr_IRQ_ELEM - 1) with 31; lia).
    rewrite Ej. reflexivity.
  - apply (ok_fill (switched false irq s) j x); try done; try (rewrite ?upd_length; apply Hok).
    + by apply ok_switched.
    + cbn. unfold IRQ_INVALID. lia.
  - destruct Hfj as (e & Ee & He).
    pose proof (attached_upd irq (IRQ_SHARED_TAB s) j e x Hj Ee) as Hp.
    rewrite !attached_single, He in Hp. cbn [sh_irq sh_handler x] in Hp.
    rewrite Z.eqb_refl, (proj2 (Z.eqb_neq IRQ_INVALID irq)) in Hp by (unfold IRQ_INVALID; lia). exact Hp.
  - intros k' Hk' Hne. destruct Hfj as (e & Ee & He).
    pose proof (attached_upd k' (IRQ_SHARED_TAB s) j e x Hj Ee) as Hp.
    rewrite !attached_single, He in Hp. cbn [sh_irq sh_handler x] in Hp.
    rewrite (proj2 (Z.eqb_neq irq k')), (proj2 (Z.eqb_neq IRQ_INVALID k')) in Hp by (unfold IRQ_INVALID; lia). exact Hp.
  - exact Htypes.
  - cbn [irq_dispatch_tab set_info set_dispatch].
    by rewrite at_tab_upd, Z.eqb_refl, (proj2 (Z.ltb_lt irq _)) by (rewrite ?(ok_dispatch s Hok); lia).
Qed.

Lemma install_shared_correct_witness :
  exists s', interrupt_install_handler 14 IRQ_SHARED (driver 5) 7 (initialised static_irqs) = Ret (tt, s') /\
    attached 14 (IRQ_SHARED_TAB s') ≡ₚ [driver 5].
Proof.
  destruct (install_shared_correct (initialised static_irqs) 14 (driver 5) 7) as (s' & E & _ & Hp & _).
  - apply initialised_ok; reflexivity.
  - reflexivity.
  - change Nr_IRQ with 16. lia.
  - cbn. lia.
  - right. split; reflexivity.
  - exists s'. split; [exact E|]. exact Hp.
Defined.

(** *** Dispatching a shared line *)

Definition elements (tab : list shared_handler_t) (irq : Z) (l : list Z) : list interrupt_handler_t :=
  sh_handler <$> filter (fun e => sh_irq e = irq) (omap (at_tab tab) l).

Lemma omap_at_tab (tab : list shared_handler_t) n : forall m,
  (m + n <= length tab)%nat ->
  omap (at_tab tab) (seqZ (Z.of_nat m) (Z.of_nat n)) = take n (drop m tab).
Proof.
  induction n as [|n IH]; intros m Hm; [done|].
  rewrite seqZ_cons by lia. replace (Z.succ (Z.of_nat m)) with (Z.of_nat (S m)) by lia.
  replace (Z.pred (Z.of_nat (S n))) with (Z.of_nat n) by lia. cbn [omap list_omap].
  destruct (lookup_lt_is_Some_2 tab m) as [e Ee]; [lia|].
  unfold at_tab at 1. rewrite (proj2 (Z.leb_le 0 _)), Nat2Z.id, Ee by lia.
  rewrite (drop_S tab e m Ee). cbn [take]. f_equal. apply IH. lia.
Qed.

Lemma ring_elements tab irq :
  length tab = 32%nat -> 0 <= irq < 16 -> elements tab irq (ring irq) ≡ₚ attached irq tab.
Proof.
  intros Hl Hi. unfold elements, attached. rewrite (proj2 (ring_visits irq Hi)).
  change 31 with (Z.of_nat 31) at 1. change (seqZ 0) with (seqZ (Z.of_nat 0)).
  by rewrite omap_at_tab by lia.
Qed.

Section SharedRun.

Context (isr : Z -> Z -> st irqs irq_stat_t) (irq : Z).
(** Drivers that answer, and write to their ports. *)
Context (answer : Z -> irq_stat_t) (effect : Z -> list (Z * Z)).
Context (isr_runs : forall a s, isr a irq s = Ret (answer a, set_ports (effect a ++ ports s) s)).

Definition enables (a : Z) : bool := match answer a with IRQ_ENABLE => true | IRQ_DISABLE => false end.
Definition stat (b : bool) : irq_stat_t := if b then IRQ_ENABLE else IRQ_DISABLE.
Definition after (order : list Z) (s : irqs) : irqs :=
  set_ports (foldl (fun w a => effect a ++ w) (ports s) order) s.

Lemma shared_list_run l : forall s b,
  Forall (fun p => 0 <= p < Z.of_nat (length (IRQ_SHARED_TAB s))) l ->
  (forall h, h ∈ elements (IRQ_SHARED_TAB s) irq l -> exists a, h = driver a) ->
  exists order, elements (IRQ_SHARED_TAB s) irq l = driver <$> order /\
    shared_list isr irq l (stat b) s = Ret (stat (b || existsb enables order), after order s).
Proof.
  induction l as [|p l IH]; intros s b Hl Hd; cbn [shared_list].
  { exists []. split; [done|]. unfold after. cbn. rewrite orb_false_r. by destruct s. }
  apply Forall_cons in Hl as [Hp Hl]. destruct (at_tab_some _ _ Hp) as [e Ee].
  unfold mbind, st_bind, get, checked. rewrite Ee.
  assert (elements (IRQ_SHARED_TAB s) irq (p :: l) =
    (if sh_irq e =? irq then [sh_handler e] else []) ++ elements (IRQ_SHARED_TAB s) irq l) as Eel.
  { unfold elements. cbn [omap list_omap]. rewrite Ee. destruct (Z.eqb_spec (sh_irq e) irq).
    - by rewrite filter_cons_True by done.
    - by rewrite filter_cons_False by done. }
  rewrite Eel in Hd |- *. destruct (sh_irq e =? irq).
  - destruct (Hd (sh_handler e)) as [a Ea]; [apply elem_of_app; left; by apply elem_of_cons; left|].
    rewrite Ea. cbn [call_element]. unfold mbind, st_bind. rewrite isr_runs.
    destruct (IH (set_ports (effect a ++ ports s) s) (b || enables a)) as (order & Eo & Er); [done | |].
    { intros h Hh. apply Hd, elem_of_app. by right. }
    exists (a :: order). cbn [IRQ_SHARED_TAB set_ports] in Eo. split; [by rewrite Eo|].
    unfold mret, st_ret.
    assert ((match answer a with IRQ_ENABLE => IRQ_ENABLE | IRQ_DISABLE => stat b end) = stat (b || enables a)) as ->
      by (unfold enables; destruct (answer a), b; done).
    rewrite Er. cbn [existsb]. by rewrite orb_assoc.
  - cbn [app]. apply IH; [done|]. intros h Hh. by apply Hd.
Qed.

End SharedRun.

(** Dispatching a shared line calls every handler installed on it exactly once and no other, and
    leaves the line enabled exactly when one of them asks for it. *)
Theorem shared_dispatch_correct isr irq answer effect s :
  (forall a s, isr a irq s = Ret (answer a, set_ports (effect a ++ ports s) s)) ->
  irqs_ok s -> 0 <= irq < Nr_IRQ ->
  at_tab (irq_dispatch_tab s) irq = Some shared_handler -> nr_shared s <> 0 ->
  (forall h, h ∈ attached irq (IRQ_SHARED_TAB s) -> exists a, h = driver a) ->
  exists order, driver <$> order ≡ₚ attached irq (IRQ_SHARED_TAB s) /\
    dispatch isr irq s = Ret (stat (existsb (enables answer) order), after effect order s).
Proof.
  intros Hisr Hok Hi Hs Hn Hd. change Nr_IRQ with 16 in Hi.
  destruct (ring_visits irq Hi) as [Ev Hring].
  pose proof (ring_elements (IRQ_SHARED_TAB s) irq (ok_shared s Hok) Hi) as Hel.
  destruct (shared_list_run isr irq answer effect Hisr (ring irq) s false) as (order & Eo & Er).
  - apply Forall_forall. intros p Hp. rewrite Hring in Hp. apply elem_of_seqZ in Hp.
    rewrite (ok_shared s Hok). lia.
  - intros h Hh. rewrite Hel in Hh. by apply Hd.
  - exists order. split; [by rewrite <- Eo|].
    unfold dispatch, mbind, st_bind, get, checked. rewrite Hs.
    unfold run_shared, mbind, st_bind, get. rewrite (proj2 (Z.eqb_neq _ _) Hn).
    rewrite (shared_loop_list isr irq 32 _ _ _ _ _ Ev). exact Er.
Qed.

Lemma shared_dispatch_correct_witness :
  let s := final_state (_ ← interrupt_install_handler 9 IRQ_SHARED (driver 5) 1;
                        interrupt_install_handler 9 IRQ_SHARED (driver 6) 1) (initialised static_irqs) in
  exists order, driver <$> order ≡ₚ [driver 5; driver 6] /\
    dispatch (fun a _ => _ ← modify (fun s => set_ports ([(a, 1)] ++ ports s) s); mret (if a =? 6 then IRQ_ENABLE else IRQ_DISABLE)) 9 s
      = Ret (stat (existsb (enables (fun a => if a =? 6 then IRQ_ENABLE else IRQ_DISABLE)) order),
             after (fun a => [(a, 1)]) order s).
Proof.
  intros s.
  apply (shared_dispatch_correct _ 9 (fun a => if a =? 6 then IRQ_ENABLE else IRQ_DISABLE) (fun a => [(a, 1)]) s).
  - reflexivity.
  - split; try reflexivity. intros e. vm_compute. intros E. injection E as <-. reflexivity.
  - change Nr_IRQ with 16. lia.
  - reflexivity.
  - vm_compute. discriminate.
  - intros h Hh. change (attached 9 (IRQ_SHARED_TAB s)) with [driver 5; driver 6] in Hh.
    apply elem_of_cons in Hh as [-> | Hh]; [by exists 5|].
    apply elem_of_cons in Hh as [-> | Hh]; [by exists 6|]. destruct (not_elem_of_nil _ Hh).
Defined.

(** *** Removing a handler *)

Lemma uninstall_list_finds irq h l : forall s,
  h <> null_handler ->
  Forall (fun p => 0 <= p < Z.of_nat (length (IRQ_SHARED_TAB s))) l ->
  h ∈ elements (IRQ_SHARED_TAB s) irq l ->
  exists p e, p ∈ l /\ at_tab (IRQ_SHARED_TAB s) p = Some e /\ sh_irq e = irq /\ sh_handler e = h /\
    uninstall_list irq h l s =
      Ret (tt, set_shared (upd p empty_slot (IRQ_SHARED_TAB s)) (nr_shared s - 1) s).
Proof.
  induction l as [|p l IH]; intros s Hh Hl Hin; [destruct (not_elem_of_nil _ Hin)|].
  apply Forall_cons in Hl as [Hp Hl]. destruct (at_tab_some _ _ Hp) as [e Ee].
  cbn [uninstall_list]. unfold mbind, st_bind, get, checked. rewrite Ee.
  rewrite (bool_decide_false (h = null_handler)), andb_false_r by done.
  unfold elements in Hin. cbn [omap list_omap] in Hin. rewrite Ee in Hin.
  destruct (Z.eqb_spec (sh_irq e) irq) as [Ei|Ei].
  - rewrite filter_cons_True in Hin by done. destruct (bool_decide_reflect (sh_handler e = h)) as [Eh|Eh]; cbn [andb].
    + exists p, e. split; [by left|]. by repeat split.
    + cbn [fmap list_fmap] in Hin. apply elem_of_cons in Hin as [->|Hin]; [done|].
      destruct (IH s Hh Hl Hin) as (p' & e' & H1 & H2). exists p', e'. split; [by right | exact H2].
  - rewrite filter_cons_False in Hin by done. cbn [andb].
    destruct (IH s Hh Hl Hin) as (p' & e' & H1 & H2). exists p', e'. split; [by right | exact H2].
Qed.

(** Removing a handler of a shared line takes one occurrence of it off the
    line, leaves the other lines, and switches the whole line off. *)
Lemma uninstall_shared_one s irq h :
  irqs_ok s -> PROBING s = false -> 0 <= irq < Nr_IRQ -> h <> null_handler ->
  at_tab (IRQ_TYPE_MASK s) irq = Some IRQ_SHARED -> h ∈ attached irq (IRQ_SHARED_TAB s) ->
  exists s', interrupt_uninstall_handler irq h s = Ret (tt, s') /\
    h :: attached irq (IRQ_SHARED_TAB s') ≡ₚ attached irq (IRQ_SHARED_TAB s) /\
    (forall k, 0 <= k -> k <> irq -> attached k (IRQ_SHARED_TAB s') ≡ₚ attached k (IRQ_SHARED_TAB s)) /\
    irq_mask s' = mask_after false irq (irq_mask s).
Proof.
  intros Hok HP Hi Hh Ht Hin. change Nr_IRQ with 16 in Hi.
  destruct (ring_visits irq Hi) as [Ev Hring].
  pose proof (ring_elements (IRQ_SHARED_TAB s) irq (ok_shared s Hok) Hi) as Hel.
  destruct (uninstall_list_finds irq h (ring irq) (switched false irq s)) as (p & e & Hp & Ee & Ei & Eh & Er).
  - done.
  - apply Forall_forall. intros p Hp. rewrite Hring in Hp. apply elem_of_seqZ in Hp.
    cbn [switched IRQ_SHARED_TAB set_ports set_mask]. rewrite (ok_shared s Hok). lia.
  - change (h ∈ elements (IRQ_SHARED_TAB s) irq (ring irq)). by rewrite Hel.
  - cbn [switched IRQ_SHARED_TAB nr_shared set_ports set_mask] in Ee.
    rewrite Hring in Hp. apply elem_of_seqZ in Hp.
    eexists. split; [|split; [|split]].
    + unfold interrupt_uninstall_handler, mbind, st_bind, get, checked. rewrite HP.
      rewrite (proj2 (Z.ltb_ge irq 0)), (proj2 (Z.leb_gt Nr_IRQ irq)) by (change Nr_IRQ with 16; lia).
      cbn [orb]. rewrite Ht. change (IRQ_SHARED =? IRQ_SHARED) with true. cbv iota.
      unfold uninstall_shared, mbind, st_bind. rewrite disable_run by lia. unfold get.
      cbn [switched nr_shared set_ports set_mask].
      rewrite (proj2 (Z.eqb_neq (nr_shared s) 0)).
      2: { rewrite (ok_count s Hok). unfold attached in Hin. apply list_elem_of_fmap in Hin as (x & _ & Hx).
           apply list_elem_of_filter in Hx as [Hx1 Hx2]. unfold ring_used.
           assert (x ∈ filter (fun e => sh_irq e <> IRQ_INVALID) (take 31 (IRQ_SHARED_TAB s))) as Hx.
           { apply list_elem_of_filter. split; [unfold IRQ_INVALID; lia | done]. }
           destruct (filter _ _); [destruct (not_elem_of_nil _ Hx)|]. cbn [length]. lia. }
      rewrite (uninstall_loop_list irq h 32 _ _ _ _ Ev), Er, (bool_decide_false (h = null_handler)) by done.
      reflexivity.
    + cbn [IRQ_SHARED_TAB set_shared switched set_ports set_mask].
      pose proof (attached_upd irq (IRQ_SHARED_TAB s) p e empty_slot ltac:(lia) Ee) as Hu.
      rewrite !attached_single, Ei, Eh, Z.eqb_refl in Hu. cbn [sh_irq empty_slot] in Hu.
      rewrite (proj2 (Z.eqb_neq IRQ_INVALID irq)) in Hu by (unfold IRQ_INVALID; lia). exact Hu.
    + intros k Hk Hne. cbn [IRQ_SHARED_TAB set_shared switched set_ports set_mask].
      pose proof (attached_upd k (IRQ_SHARED_TAB s) p e empty_slot ltac:(lia) Ee) as Hu.
      rewrite !attached_single, Ei in Hu. cbn [sh_irq empty_slot] in Hu.
      rewrite (proj2 (Z.eqb_neq IRQ_INVALID k)), (proj2 (Z.eqb_neq irq k)) in Hu by (unfold IRQ_INVALID; lia). exact Hu.
    + reflexivity.
Qed.

(** The flag that guards the probe is never raised. *)
Lemma probing_never_set primer s :
  PROBING s = false ->
  match irq_probe primer s with
  | Ret (_, s') => primer = None -> PROBING s' = false
  | _ => True
  end.
Proof.
  intros HP. unfold irq_probe, mbind, st_bind, get. rewrite HP.
  assert (forall n i s, PROBING s = false ->
    match probe_install i n s with Ret (_, s') => PROBING s' = false | _ => True end) as Hinst.
  { clear. induction n as [|n IH]; intros i s HP; [done|]. cbn [probe_install].
    unfold mbind, st_bind, get, checked, put. destruct (at_tab _ i); [|done]. destruct (at_tab _ i); [|done].
    by apply IH. }
  specialize (Hinst (Z.to_nat Nr_IRQ) 0 s HP). destruct (probe_install _ _ s) as [[[] s1]| | |]; try done.
  destruct primer as [p|]; [|intros _; exact Hinst].
  destruct (p s1) as [[u s2]| | |]; try exact I. intros Hc; discriminate Hc.
Qed.
