(* ===== verification/Keyboard.v ===== *)
(** * The keyboard ([platform/i386/drivers/src/chara/keyboard.c])

    The interrupt handler turns scan codes into characters and keeps them in a
    buffer of 255 bytes from which [keyboard_getch] takes them.  The table has a
    row for every code of a key that is pressed; the code of a key that is
    released lies behind it, and what the processor finds there are the words the
    linker put there: the parameter [beyond].  The controller's status port is
    the parameter [status], by the number of reads made so far. *)

From S2P Require Import Prelude.
From S2P Require Import Segment.
From S2P Require Import Interrupt.

Definition LED_NUM_LOCK : Z := 2.
Definition LED_SCROLL_LOCK : Z := 1.
Definition LED_CAPS_LOCK : Z := 4.
Definition CK_SHIFT : Z := 1.
Definition CK_ALT : Z := 2.
Definition CK_CTRL : Z := 4.
Definition MASTER_PIC : Z := 0x20.
Definition EOI : Z := 0x20.

Definition scan2ascii_table : list (list Z) :=
  [
    [0; 0; 0; 0; 0; 0; 0; 0];
    [0x1B; 0x1B; 0x1B; 0; 0x1B; 0x1B; 0x1B; 0x1B];
    [0x31; 0x21; 0; 0x7800; 0x31; 0x31; 0x21; 0x21];
    [0x32; 0x40; 0x0300; 0x7900; 0x32; 0x32; 0x40; 0x40];
    [0x33; 0x23; 0; 0x7A00; 0x33; 0x33; 0x23; 0x23];
    [0x34; 0x24; 0; 0x7B00; 0x34; 0x34; 0x24; 0x24];
    [0x35; 0x25; 0; 0x7C00; 0x35; 0x35; 0x25; 0x25];
    [0x36; 0x5E; 0x1E; 0x7D00; 0x36; 0x36; 0x5E; 0x5E];
    [0x37; 0x26; 0; 0x7E00; 0x37; 0x37; 0x26; 0x26];
    [0x38; 0x2A; 0; 0x7F00; 0x38; 0x38; 0x2A; 0x2A];
    [0x39; 0x28; 0; 0x8000; 0x39; 0x39; 0x28; 0x28];
    [0x30; 0x29; 0; 0x8100; 0x30; 0x30; 0x29; 0x29];
    [0x2D; 0x5F; 0x1F; 0x8200; 0x2D; 0x2D; 0x5F; 0x5F];
    [0x3D; 0x2B; 0; 0x8300; 0x3D; 0x3D; 0x2B; 0x2B];
    [0x08; 0x08; 0x7F; 0; 0x08; 0x08; 0x08; 0x08];
    [0x09; 0x0F00; 0; 0; 0x09; 0x09; 0x0F00; 0x0F00];
    [0x71; 0x51; 0x11; 0x1000; 0x71; 0x51; 0x71; 0x51];
    [0x77; 0x57; 0x17; 0x1100; 0x77; 0x57; 0x77; 0x57];
    [0x65; 0x45; 0x05; 0x1200; 0x65; 0x45; 0x65; 0x45];
    [0x72; 0x52; 0x12; 0x1300; 0x72; 0x52; 0x72; 0x52];
    [0x74; 0x54; 0x14; 0x1400; 0x74; 0x54; 0x74; 0x54];
    [0x79; 0x59; 0x19; 0x1500; 0x79; 0x59; 0x79; 0x59];
    [0x75; 0x55; 0x15; 0x1600; 0x75; 0x55; 0x75; 0x55];
    [0x69; 0x49; 0x09; 0x1700; 0x69; 0x49; 0x69; 0x49];
    [0x6F; 0x4F; 0x0F; 0x1800; 0x6F; 0x4F; 0x6F; 0x4F];
    [0x70; 0x50; 0x10; 0x1900; 0x70; 0x50; 0x70; 0x50];
    [0x5B; 0x7B; 0x1B; 0x0; 0x5B; 0x5B; 0x7B; 0x7B];
    [0x5D; 0x7D; 0x1D; 0; 0x5D; 0x5D; 0x7D; 0x7D];
    [0x0A; 0x0A; 0x0D; 0; 0x0A; 0x0A; 0x0D; 0x0D];
    [0; 0; 0; 0; 0; 0; 0; 0];
    [0x61; 0x41; 0x01; 0x1E00; 0x61; 0x41; 0x61; 0x41];
    [0x73; 0x53; 0x13; 0x1F00; 0x73; 0x53; 0x73; 0x53];
    [0x64; 0x44; 0x04; 0x2000; 0x64; 0x44; 0x64; 0x44];
    [0x66; 0x46; 0x06; 0x2100; 0x66; 0x46; 0x66; 0x46];
    [0x67; 0x47; 0x07; 0x2200; 0x67; 0x47; 0x67; 0x47];
    [0x68; 0x48; 0x08; 0x2300; 0x68; 0x48; 0x68; 0x48];
    [0x6A; 0x4A; 0x0A; 0x2400; 0x6A; 0x4A; 0x6A; 0x4A];
    [0x6B; 0x4B; 0x0B; 0x3500; 0x6B; 0x4B; 0x6B; 0x4B];
    [0x6C; 0x4C; 0x0C; 0x2600; 0x6C; 0x4C; 0x6C; 0x4C];
    [0x3B; 0x3A; 0; 0; 0x3B; 0x3B; 0x3A; 0x3A];
    [0x27; 0x22; 0; 0; 0x27; 0x27; 0x22; 0x22];
    [0x60; 0x7E; 0; 0; 0x60; 0x60; 0x7E; 0x7E];
    [0x2A; 0; 0; 0; 0; 0; 0; 0];
    [0x5C; 0x7C; 0x1C; 0; 0x5C; 0x5C; 0x7C; 0x7C];
    [0x7A; 0x5A; 0x1A; 0x2C00; 0x7A; 0x5A; 0x7A; 0x5A];
    [0x78; 0x58; 0x18; 0x2D00; 0x78; 0x58; 0x78; 0x58];
    [0x63; 0x43; 0x03; 0x2E00; 0x63; 0x43; 0x63; 0x43];
    [0x76; 0x56; 0x16; 0x2F00; 0x76; 0x56; 0x76; 0x56];
    [0x62; 0x42; 0x02; 0x3000; 0x62; 0x42; 0x62; 0x42];
    [0x6E; 0x4E; 0x0E; 0x3100; 0x6E; 0x4E; 0x6E; 0x4E];
    [0x6D; 0x4D; 0x0D; 0x3200; 0x6D; 0x4D; 0x6D; 0x4D];
    [0x2C; 0x3C; 0; 0; 0x2C; 0x2C; 0x3C; 0x3C];
    [0x2E; 0x3E; 0; 0; 0x2E; 0x2E; 0x3E; 0x3E];
    [0x2F; 0x3F; 0; 0; 0x2F; 0x2F; 0x3F; 0x3F];
    [0; 0; 0; 0; 0; 0; 0; 0];
    [0; 0; 0; 0; 0; 0; 0; 0];
    [0; 0; 0; 0; 0; 0; 0; 0];
    [0x20; 0x20; 0x20; 0; 0x20; 0x20; 0x20; 0x20];
    [0; 0; 0; 0; 0; 0; 0; 0];
    [0x3B00; 0x5400; 0x5E00; 0x6800; 0x3B00; 0x3B00; 0x5400; 0x5400];
    [0x3C00; 0x5500; 0x5F00; 0x6900; 0x3C00; 0x3C00; 0x5500; 0x5500];
    [0x3D00; 0x5600; 0x6000; 0x6A00; 0x3D00; 0x3D00; 0x5600; 0x5600];
    [0x3E00; 0x5700; 0x6100; 0x6B00; 0x3E00; 0x3E00; 0x5700; 0x5700];
    [0x3F00; 0x5800; 0x6200; 0x6C00; 0x3F00; 0x3F00; 0x5800; 0x5800];
    [0x4000; 0x5900; 0x6300; 0x6D00; 0x4000; 0x4000; 0x5900; 0x5900];
    [0x4100; 0x5A00; 0x6400; 0x6E00; 0x4100; 0x4100; 0x5A00; 0x5A00];
    [0x4200; 0x5B00; 0x6500; 0x6F00; 0x4200; 0x4200; 0x5B00; 0x5B00];
    [0x4300; 0x5C00; 0x6600; 0x7000; 0x4300; 0x4300; 0x5C00; 0x5C00];
    [0x4400; 0x5D00; 0x6700; 0x7100; 0x4400; 0x4400; 0x5D00; 0x5D00];
    [0; 0; 0; 0; 0; 0; 0; 0];
    [0; 0; 0; 0; 0; 0; 0; 0];
    [0x4700; 0x37; 0x7700; 0; 0x37; 0x4700; 0x37; 0x4700];
    [0x4800; 0x38; 0; 0; 0x38; 0x4800; 0x38; 0x4800];
    [0x4900; 0x39; 0x8400; 0; 0x39; 0x4900; 0x39; 0x4900];
    [0x2D; 0x2D; 0; 0; 0x2D; 0x2D; 0x2D; 0x2D];
    [0x4B00; 0x34; 0x7300; 0; 0x34; 0x4B00; 0x34; 0x4B00];
    [0x4C00; 0x35; 0; 0; 0x35; 0x4C00; 0x35; 0x4C00];
    [0x4D00; 0x36; 0x7400; 0; 0x36; 0x4D00; 0x36; 0x4D00];
    [0x2B; 0x2B; 0; 0; 0x2B; 0x2B; 0x2B; 0x2B];
    [0x4F00; 0x31; 0x7500; 0; 0x31; 0x4F00; 0x31; 0x4F00];
    [0x5000; 0x32; 0; 0; 0x32; 0x5000; 0x32; 0x5000];
    [0x5100; 0x33; 0x7600; 0; 0x33; 0x5100; 0x33; 0x5100];
    [0x5200; 0x30; 0; 0; 0x30; 0x5200; 0x30; 0x5200];
    [0x5300; 0x2E; 0; 0; 0x2E; 0x5300; 0x2E; 0x5300]
  ].

Record keyboard := {
  led_status : Z;
  keyboard_buffer : list Z;
  keyboard_buffer_size : Z;
  control_keys : Z;
  reads : nat;
  writes : list (Z * Z)
}.

Definition set_led v k := {| led_status := v; keyboard_buffer := keyboard_buffer k; keyboard_buffer_size := keyboard_buffer_size k; control_keys := control_keys k; reads := reads k; writes := writes k |}.
Definition set_buffer v n k := {| led_status := led_status k; keyboard_buffer := v; keyboard_buffer_size := n; control_keys := control_keys k; reads := reads k; writes := writes k |}.
Definition set_control v k := {| led_status := led_status k; keyboard_buffer := keyboard_buffer k; keyboard_buffer_size := keyboard_buffer_size k; control_keys := v; reads := reads k; writes := writes k |}.
Definition set_io r w k := {| led_status := led_status k; keyboard_buffer := keyboard_buffer k; keyboard_buffer_size := keyboard_buffer_size k; control_keys := control_keys k; reads := r; writes := w |}.

(** The statics as the program starts. *)
Definition static_keyboard : keyboard :=
  {| led_status := 0; keyboard_buffer := replicate 255 0; keyboard_buffer_size := 0;
     control_keys := 0; reads := 0; writes := [] |}.

Definition kb_outb (port value : Z) : st keyboard unit :=
  modify (fun k => set_io (reads k) ((port, u8 value) :: writes k) k).

(** [a & b] as a condition. *)
Definition has (a b : Z) : bool := negb (Z.land a b =? 0).

Section Driver.

Context (beyond : Z -> Z).
Context (status : nat -> Z).
(** Turns granted to a wait for the controller. *)
Context (fuel : nat).

(** [scan2ascii_table[key][column]] *)
Definition scan2ascii (key column : Z) : Z :=
  match scan2ascii_table !! Z.to_nat key ≫= (.!! Z.to_nat column) with
  | Some c => c
  | None => u32 (beyond (8 * (key - Z.of_nat (length scan2ascii_table)) + column))
  end.

(** [while(io_inb(0x64) & 2);] *)
Fixpoint wait_ready (n : nat) : st keyboard unit :=
  match n with
  | O => lift NoFuel
  | S n =>
      k ← get;
      _ ← put (set_io (S (reads k)) (writes k) k);
      if has (status (reads k)) 2 then wait_ready n else mret tt
  end.

Definition setleds : st keyboard unit :=
  _ ← kb_outb 0x60 0xED;
  _ ← wait_ready fuel;
  l ← gets led_status;
  _ ← kb_outb 0x60 l;
  wait_ready fuel.

Definition toggle_led (led : Z) : st keyboard unit :=
  _ ← modify (fun k => set_led (Z.lxor (led_status k) led) k);
  setleds.

(** The state of the control keys after a code: the six tests in turn. *)
Definition update_control (key c : Z) : Z :=
  let c := if (key =? 0x1D) && negb (has c CK_CTRL) then Z.lor c CK_CTRL else c in
  let c := if key =? 0x80 + 0x1D then Z.land c (0xFF - CK_CTRL) else c in
  let c := if ((key =? 0x2A) || (key =? 0x36)) && negb (has c CK_SHIFT) then Z.lor c CK_SHIFT else c in
  let c := if (key =? 0x80 + 0x2A) || (key =? 0x80 + 0x36) then Z.land c (0xFF - CK_SHIFT) else c in
  let c := if (key =? 0x38) && negb (has c CK_ALT) then Z.lor c CK_ALT else c in
  if key =? 0x80 + 0x38 then Z.land c (0xFF - CK_ALT) else c.

(** The column of the table, in the order of the tests. *)
Definition key_code (key control led : Z) : Z :=
  if has control CK_SHIFT && has led LED_CAPS_LOCK then scan2ascii key 6
  else if has control CK_SHIFT then scan2ascii key 1
  else if has control CK_CTRL then scan2ascii key 2
  else if has control CK_ALT then scan2ascii key 3
  else if has control CK_SHIFT && has led LED_NUM_LOCK then scan2ascii key 7
  else if has led LED_CAPS_LOCK then scan2ascii key 5
  else if has led LED_NUM_LOCK then scan2ascii key 4
  else if control =? 0 then scan2ascii key 0
  else 0.

(** A byte behind the buffer is not the driver's. *)
Definition store_key (key_ascii : Z) : st keyboard unit :=
  k ← get;
  if negb (key_ascii =? 0) && (key_ascii <=? 0xFF) then
    if keyboard_buffer_size k <? Z.of_nat (length (keyboard_buffer k)) then
      put (set_buffer (<[Z.to_nat (keyboard_buffer_size k) := key_ascii]> (keyboard_buffer k))
                      (u8 (keyboard_buffer_size k + 1)) k)
    else fault
  else mret tt.

(** [key] is what port 0x60 holds.  Resetting the machine does not return. *)
Definition keyboard_handler (key : Z) : st keyboard irq_stat_t :=
  k ← get;
  if has (control_keys k) (CK_CTRL + CK_ALT) && (key =? 0x53) then
    _ ← wait_ready fuel; _ ← kb_outb 0x64 0xFE; panic
  else
    _ ← (if key =? 0x3A then toggle_led LED_CAPS_LOCK else mret tt);
    _ ← (if key =? 0x45 then toggle_led LED_NUM_LOCK else mret tt);
    _ ← (if key =? 0x46 then toggle_led LED_SCROLL_LOCK else mret tt);
    _ ← modify (fun k => set_control (update_control key (control_keys k)) k);
    k ← get;
    _ ← store_key (key_code key (control_keys k) (led_status k));
    _ ← kb_outb MASTER_PIC EOI;
    mret IRQ_ENABLE.

(** The loop that moves the buffer down. *)
Fixpoint shift_buffer (loop : Z) (n : nat) (b : list Z) : outcome (list Z) :=
  match n with
  | O => Ret b
  | S n =>
      match b !! Z.to_nat (loop + 1) with
      | Some v => shift_buffer (loop + 1) n (<[Z.to_nat loop := v]> b)
      | None => Fault
      end
  end.

(** With an empty buffer the call waits for an interrupt: [None] here, the
    caller tries again after it. *)
Definition keyboard_getch : st keyboard (option Z) :=
  k ← get;
  if keyboard_buffer_size k =? 0 then mret None
  else
    ret_key ← checked (keyboard_buffer k !! 0%nat);
    b ← lift (shift_buffer 0 254 (keyboard_buffer k));
    _ ← put (set_buffer b (u8 (keyboard_buffer_size k - 1)) k);
    mret (Some ret_key).

Definition keyboard_hit : st keyboard Z :=
  n ← gets keyboard_buffer_size; mret (if n =? 0 then 0 else 1).

Definition keyboard_leds_off : st keyboard unit := _ ← modify (set_led 0); setleds.

End Driver.

(** Address of [keyboard_handler] and of [keyboard_info], as the dispatch table
    names them. *)
Definition keyboard_enable (handler info : Z) : st irqs unit :=
  _ ← interrupt_install_handler 1 IRQ_EXCL (driver handler) info;
  enable_irq 1.

Definition keyboard_disable : st irqs unit := disable_irq 1.

(** ** The buffer is a queue *)

Definition queue (k : keyboard) : list Z := take (Z.to_nat (keyboard_buffer_size k)) (keyboard_buffer k).

Record kb_ok (k : keyboard) : Prop := {
  ok_length : length (keyboard_buffer k) = 255%nat;
  ok_size : 0 <= keyboard_buffer_size k <= 255
}.

Lemma queue_length k : kb_ok k -> Z.of_nat (length (queue k)) = keyboard_buffer_size k.
Proof. intros [Hl Hs]. unfold queue. rewrite length_take. lia. Qed.

(** What the handler keeps of a code. *)
Definition kept (c : Z) : list Z := if negb (c =? 0) && (c <=? 0xFF) then [c] else [].

Lemma store_key_run c k :
  kb_ok k -> 0 <= c -> Z.of_nat (length (queue k ++ kept c)) <= 255 ->
  exists b n, store_key c k = Ret (tt, set_buffer b n k) /\
    kb_ok (set_buffer b n k) /\ queue (set_buffer b n k) = queue k ++ kept c.
Proof.
  intros Hok Hc Hroom. rewrite length_app in Hroom. pose proof (queue_length k Hok) as Hq.
  destruct Hok as [Hl Hs]. unfold store_key, mbind, st_bind, get, put, kept in *.
  destruct (negb (c =? 0) && (c <=? 255)) eqn:Ec.
  - cbn [length] in Hroom. rewrite (proj2 (Z.ltb_lt _ _)) by lia. eexists _, _. split; [done|].
    assert (u8 (keyboard_buffer_size k + 1) = keyboard_buffer_size k + 1) as -> by (apply u8_small; lia).
    split.
    + split; cbn; [by rewrite length_insert | lia].
    + unfold queue. cbn [keyboard_buffer keyboard_buffer_size set_buffer].
      replace (Z.to_nat (keyboard_buffer_size k + 1)) with (S (Z.to_nat (keyboard_buffer_size k))) by lia.
      rewrite (take_S_r _ _ c) by (apply list_lookup_insert_eq; lia). f_equal.
      apply take_insert_ge. lia.
  - exists (keyboard_buffer k), (keyboard_buffer_size k). rewrite app_nil_r. by destruct k.
Qed.

Lemma shift_buffer_run n : forall loop b,
  0 <= loop -> loop + Z.of_nat n < Z.of_nat (length b) ->
  exists b', shift_buffer loop n b = Ret b' /\ length b' = length b /\
    forall i, 0 <= i -> b' !! Z.to_nat i =
      if (loop <=? i) && (i <? loop + Z.of_nat n) then b !! Z.to_nat (i + 1) else b !! Z.to_nat i.
Proof.
  induction n as [|n IH]; intros loop b Hl Hn; cbn [shift_buffer].
  - exists b. split; [done|]. split; [done|]. intros i Hi. zcases; simpl; done || lia.
  - destruct (lookup_lt_is_Some_2 b (Z.to_nat (loop + 1))) as [v Ev]; [lia|]. rewrite Ev.
    destruct (IH (loop + 1) (<[Z.to_nat loop := v]> b)) as (b' & E & El & Eb); [lia | rewrite length_insert; lia |].
    exists b'. split; [done|]. split; [by rewrite El, length_insert|]. intros i Hi. rewrite Eb by done.
    destruct (Z.eqb_spec i loop) as [->|Hne].
    + rewrite (proj2 (Z.leb_gt (loop + 1) loop)), (proj2 (Z.leb_le loop loop)),
        (proj2 (Z.ltb_lt loop (loop + Z.of_nat (S n)))) by lia. cbn [andb].
      rewrite list_lookup_insert_eq by lia. by rewrite Ev.
    + zcases; simpl; rewrite ?list_lookup_insert_ne by lia; done || lia.
Qed.

Lemma getch_run k c q :
  kb_ok k -> queue k = c :: q ->
  exists b n, keyboard_getch k = Ret (Some c, set_buffer b n k) /\
    kb_ok (set_buffer b n k) /\ queue (set_buffer b n k) = q.
Proof.
  intros Hok Hq. pose proof (queue_length k Hok) as Hlen. rewrite Hq in Hlen. cbn [length] in Hlen.
  pose proof Hok as [Hl Hs].
  assert (forall i, (i < Z.to_nat (keyboard_buffer_size k))%nat -> keyboard_buffer k !! i = (c :: q) !! i) as Hb.
  { intros i Hi. rewrite <- Hq. unfold queue. by rewrite lookup_take_lt by done. }
  destruct (shift_buffer_run 254 0 (keyboard_buffer k)) as (b & E & El & Eb); [lia | lia |].
  unfold keyboard_getch, mbind, st_bind, get, checked, lift, put. rewrite (proj2 (Z.eqb_neq _ _)) by lia.
  rewrite (Hb 0%nat) by lia. cbn [lookup list_lookup]. rewrite E.
  assert (u8 (keyboard_buffer_size k - 1) = keyboard_buffer_size k - 1) as Eu by (apply u8_small; lia).
  exists b, (u8 (keyboard_buffer_size k - 1)). split; [done|]. rewrite Eu. split.
  - split; cbn; lia.
  - unfold queue. cbn [keyboard_buffer keyboard_buffer_size set_buffer]. apply list_eq. intros i.
    destruct (decide (i < length q)%nat) as [Hi|Hi].
    + rewrite lookup_take_lt by lia. specialize (Eb (Z.of_nat i) ltac:(lia)). rewrite Nat2Z.id in Eb.
      rewrite Eb, (proj2 (Z.leb_le 0 _)), (proj2 (Z.ltb_lt _ _)) by lia. cbn [andb].
      replace (Z.to_nat (Z.of_nat i + 1)) with (S i) by lia. by rewrite Hb by lia.
    + rewrite lookup_take_ge, lookup_ge_None_2 by lia. done.
Qed.

Lemma getch_empty k : kb_ok k -> queue k = [] -> keyboard_getch k = Ret (None, k).
Proof.
  intros Hok Hq. pose proof (queue_length k Hok) as Hlen. rewrite Hq in Hlen.
  unfold keyboard_getch, mbind, st_bind, get. by rewrite <- Hlen.
Qed.

(** ** Typing

    A user presses and releases letters, the shift keys and the caps lock, and a
    program takes characters. *)

Inductive event : Type :=
| Letter (n : nat) (down : bool)
| Shift (rshift down : bool)
| Caps (down : bool)
| Getch.

(** The scan codes of a to z. *)
Definition letter_keys : list Z :=
  [0x1E; 0x30; 0x2E; 0x20; 0x12; 0x21; 0x22; 0x23; 0x17; 0x24; 0x25; 0x26; 0x32;
   0x31; 0x18; 0x19; 0x10; 0x13; 0x1F; 0x14; 0x16; 0x2F; 0x11; 0x2D; 0x15; 0x2C].

Definition pressed (key : Z) (down : bool) : Z := if down then key else 0x80 + key.

Definition key_of (e : event) : option Z :=
  match e with
  | Letter n down => (fun key => pressed key down) <$> (letter_keys !! n)
  | Shift rshift down => Some (pressed (if rshift then 0x36 else 0x2A) down)
  | Caps down => Some (pressed 0x3A down)
  | Getch => None
  end.

(** What a user expects: the characters waiting, whether shift is held (the last
    press or release of a shift key counts), whether caps lock is on. *)
Record typist := { t_shift : bool; t_caps : bool; t_queue : list Z }.

Definition letter (shift caps : bool) (n : nat) : Z :=
  (if xorb shift caps then 65 else 97) + Z.of_nat n.

Definition type_step (e : event) (t : typist) : option Z * typist :=
  match e with
  | Letter n true => (None, {| t_shift := t_shift t; t_caps := t_caps t;
                               t_queue := t_queue t ++ [letter (t_shift t) (t_caps t) n] |})
  | Letter _ false => (None, t)
  | Shift _ down => (None, {| t_shift := down; t_caps := t_caps t; t_queue := t_queue t |})
  | Caps true => (None, {| t_shift := t_shift t; t_caps := negb (t_caps t); t_queue := t_queue t |})
  | Caps false => (None, t)
  | Getch => (head (t_queue t), {| t_shift := t_shift t; t_caps := t_caps t; t_queue := tail (t_queue t) |})
  end.

Fixpoint type_all (es : list event) (t : typist) : list (option Z) * typist :=
  match es with
  | [] => ([], t)
  | e :: es => let '(a, t) := type_step e t in let '(r, t) := type_all es t in (a :: r, t)
  end.

Section Typing.

Context (beyond : Z -> Z) (status : nat -> Z) (fuel : nat).

Definition handle (e : event) : st keyboard (option Z) :=
  match e, key_of e with
  | Getch, _ => keyboard_getch
  | _, Some key => _ ← keyboard_handler beyond status fuel key; mret None
  | _, None => mret None
  end.

Fixpoint handle_all (es : list event) : st keyboard (list (option Z)) :=
  match es with
  | [] => mret []
  | e :: es => a ← handle e; r ← handle_all es; mret (a :: r)
  end.

(** The controller is ready in time, and no word behind the table looks like a
    character. *)
Context (ready : forall n, exists j, (j < fuel)%nat /\ has (status (n + j)) 2 = false).
Context (quiet : forall i, kept (u32 (beyond i)) = []).

Lemma wait_ready_run n : forall k,
  (exists j, (j < n)%nat /\ has (status (reads k + j)) 2 = false) ->
  exists r, wait_ready status n k = Ret (tt, set_io r (writes k) k).
Proof.
  induction n as [|n IH]; intros k (j & Hj & Hs); [lia|]. cbn [wait_ready].
  unfold mbind, st_bind, get, put. destruct (has (status (reads k)) 2) eqn:E; [|by eexists].
  destruct j as [|j]; [rewrite Nat.add_0_r in Hs; congruence|].
  destruct (IH (set_io (S (reads k)) (writes k) k)) as [r Er].
  { exists j. split; [lia|]. cbn [reads set_io]. by replace (S (reads k) + j)%nat with (reads k + S j)%nat by lia. }
  exists r. by rewrite Er.
Qed.

Lemma setleds_run k : exists r w, setleds status fuel k = Ret (tt, set_io r w k).
Proof.
  unfold setleds, mbind, st_bind, kb_outb, modify, gets.
  set (k1 := set_io (reads k) _ k). destruct (wait_ready_run fuel k1) as [r1 E1]; [apply ready|]. rewrite E1.
  set (k2 := set_io (reads _) _ _). destruct (wait_ready_run fuel k2) as [r2 E2]; [apply ready|]. rewrite E2.
  by eexists _, _.
Qed.

(** What the driver's statics say about the typist. *)
Record types (t : typist) (k : keyboard) : Prop := {
  ty_ok : kb_ok k;
  ty_control : control_keys k = if t_shift t then CK_SHIFT else 0;
  ty_led : led_status k = if t_caps t then LED_CAPS_LOCK else 0;
  ty_queue : queue k = t_queue t
}.

Lemma types_io t k r w : types t k -> types t (set_io r w k).
Proof. intros [[H1 H2] ? ? ?]. split; [split; [exact H1 | exact H2] | done ..]. Qed.

(** A code of a shift key or a letter: no lamp, no reset. *)
Lemma handler_run t k key (shift : bool) :
  types t k -> key <> 0x3A -> key <> 0x45 -> key <> 0x46 ->
  update_control key (control_keys k) = (if shift then CK_SHIFT else 0) ->
  0 <= key_code beyond key (if shift then CK_SHIFT else 0) (led_status k) ->
  Z.of_nat (length (t_queue t ++ kept (key_code beyond key (if shift then CK_SHIFT else 0) (led_status k)))) <= 255 ->
  exists k', keyboard_handler beyond status fuel key k = Ret (IRQ_ENABLE, k') /\
    types {| t_shift := shift; t_caps := t_caps t;
             t_queue := t_queue t ++ kept (key_code beyond key (if shift then CK_SHIFT else 0) (led_status k)) |} k'.
Proof.
  intros [Hok Hc Hl Hq] H1 H2 H3 Hu Hcode Hroom.
  unfold keyboard_handler, mbind, st_bind, get, modify.
  assert (has (control_keys k) (CK_CTRL + CK_ALT) = false) as -> by (rewrite Hc; by destruct (t_shift t)).
  cbn [andb]. rewrite (proj2 (Z.eqb_neq key 0x3A) H1), (proj2 (Z.eqb_neq key 0x45) H2), (proj2 (Z.eqb_neq key 0x46) H3).
  unfold mret at 1 2 3, st_ret at 1 2 3.
  rewrite Hu. cbn [control_keys led_status set_control].
  set (c := key_code beyond key _ _) in *.
  set (k1 := set_control _ k).
  assert (kb_ok k1) as Hok1 by (destruct Hok; by split).
  destruct (store_key_run c k1 Hok1 Hcode) as (b & n & E & Hok2 & Hq2).
  { change (queue k1) with (queue k). by rewrite Hq. }
  rewrite E. eexists. split; [reflexivity|]. apply types_io. split; [done | done | done |].
  rewrite Hq2. change (queue k1) with (queue k). by rewrite Hq.
Qed.

(** The caps lock toggles its lamp and types nothing. *)
Lemma handler_caps t k :
  types t k -> Z.of_nat (length (t_queue t)) <= 255 ->
  exists k', keyboard_handler beyond status fuel 0x3A k = Ret (IRQ_ENABLE, k') /\
    types {| t_shift := t_shift t; t_caps := negb (t_caps t); t_queue := t_queue t |} k'.
Proof.
  intros [Hok Hc Hl Hq] Hroom. unfold keyboard_handler, mbind, st_bind, get, modify.
  assert (has (control_keys k) (CK_CTRL + CK_ALT) = false) as -> by (rewrite Hc; by destruct (t_shift t)).
  cbn [andb]. change (0x3A =? 0x3A) with true. cbv iota. unfold toggle_led, mbind, st_bind, modify.
  set (k1 := set_led _ k). destruct (setleds_run k1) as (r & w & E1). rewrite E1.
  change (0x3A =? 0x45) with false. change (0x3A =? 0x46) with false. cbv iota.
  unfold mret at 1 2, st_ret at 1 2. cbn [control_keys led_status set_control set_io].
  change (control_keys k1) with (control_keys k). change (led_status k1) with (Z.lxor (led_status k) LED_CAPS_LOCK).
  set (k2 := set_control _ _). set (c := key_code _ _ _ _).
  assert (kept c = []) as Ec.
  { unfold c. rewrite Hc, Hl. by destruct (t_shift t), (t_caps t). }
  assert (kb_ok k2) as Hok2 by (destruct Hok; by split).
  destruct (store_key_run c k2 Hok2) as (b & n & E & Hok3 & Hq3).
  { unfold c. rewrite Hc, Hl. by destruct (t_shift t), (t_caps t). }
  { rewrite Ec, app_nil_r. change (queue k2) with (queue k). by rewrite Hq. }
  rewrite E. eexists. split; [reflexivity|]. apply types_io. split; cbn [t_shift t_caps t_queue]; [done | | |].
  - cbn. rewrite Hc. by destruct (t_shift t).
  - cbn. rewrite Hl. by destruct (t_caps t).
  - rewrite Hq3, Ec, app_nil_r. exact Hq.
Qed.

(** Columns of the table for letters, and codes behind the table. *)
Lemma letter_codes n key :
  letter_keys !! n = Some key ->
  (forall c, update_control key (if c : bool then CK_SHIFT else 0) = if c then CK_SHIFT else 0) /\
  (forall shift caps : bool, key_code beyond key (if shift then CK_SHIFT else 0) (if caps then LED_CAPS_LOCK else 0)
     = letter shift caps n) /\
  key <> 0x3A /\ key <> 0x45 /\ key <> 0x46 /\ 0 < key < 0x53.
Proof.
  intros E. do 26 (destruct n as [|n]; [injection E as <-; repeat split; try (intros []; reflexivity);
    try (intros [] []; reflexivity); done|]). done.
Qed.

Lemma released_quiet key control led :
  0x53 < key -> (0 <= key_code beyond key control led) /\ kept (key_code beyond key control led) = [].
Proof.
  intros Hk. assert (forall c, 0 <= scan2ascii beyond key c /\ kept (scan2ascii beyond key c) = []) as Hs.
  { intros c. unfold scan2ascii. rewrite lookup_ge_None_2 by (change (length scan2ascii_table) with 84%nat; lia).
    cbn. split; [apply u32_range | apply quiet]. }
  unfold key_code. repeat case_match; auto; by split.
Qed.

Definition valid (e : event) : Prop := match e with Letter n _ => (n < 26)%nat | _ => True end.

(** Characters an event adds at most. *)
Definition weight (e : event) : nat := match e with Letter _ true => 1 | _ => 0 end.

Lemma shift_codes (rshift down : bool) t (k : keyboard) :
  types t k -> let key := pressed (if rshift then 0x36 else 0x2A) down in
  update_control key (control_keys k) = (if down then CK_SHIFT else 0) /\
  key <> 0x3A /\ key <> 0x45 /\ key <> 0x46 /\
  0 <= key_code beyond key (if down then CK_SHIFT else 0) (led_status k) /\
  kept (key_code beyond key (if down then CK_SHIFT else 0) (led_status k)) = [].
Proof.
  intros [_ Hc Hl _] key.
  assert (update_control key (control_keys k) = (if down then CK_SHIFT else 0)) as Hu.
  { rewrite Hc. unfold key. by destruct rshift, down, (t_shift t). }
  split; [done|]. unfold key. destruct down; cbn [pressed].
  - rewrite Hl. by destruct rshift, (t_caps t).
  - destruct rshift; repeat (split; [done|]); by apply released_quiet.
Qed.

Lemma handle_run e t k :
  types t k -> valid e -> (length (t_queue t) + weight e <= 255)%nat ->
  exists k', handle e k = Ret ((type_step e t).1, k') /\ types (type_step e t).2 k' /\
    (length (t_queue (type_step e t).2) <= length (t_queue t) + weight e)%nat.
Proof.
  intros Ht Hv Hw. pose proof Ht as [Hok Hc Hl Hq]. unfold handle, mbind, st_bind.
  destruct e as [n down | rshift down | down |]; cbn [key_of type_step weight valid] in *.
  - destruct (lookup_lt_is_Some_2 letter_keys n) as [key Ek]; [done|]. rewrite Ek. cbn [fmap option_fmap option_map].
    destruct (letter_codes n key Ek) as (Hu & Hcode & H1 & H2 & H3 & Hr). destruct down; cbn [pressed].
    + pose proof (Hcode (t_shift t) (t_caps t)) as Hcd.
      assert (kept (letter (t_shift t) (t_caps t) n) = [letter (t_shift t) (t_caps t) n]) as Hkept.
      { unfold kept, letter. rewrite (proj2 (Z.eqb_neq _ _)), (proj2 (Z.leb_le _ _)); [done|..];
          destruct (xorb _ _); lia. }
      destruct (handler_run t k key (t_shift t) Ht H1 H2 H3) as (k' & E & Ht').
      * rewrite Hc. apply Hu.
      * rewrite Hl, Hcd. unfold letter. destruct (xorb _ _); lia.
      * rewrite Hl, Hcd, Hkept, length_app. cbn [length]. lia.
      * rewrite Hl, Hcd, Hkept in Ht'. exists k'. rewrite E. split; [done|]. split; [exact Ht'|].
        cbn [t_queue fst snd]. rewrite length_app. cbn [length]. lia.
    + destruct (released_quiet (0x80 + key) (if t_shift t then CK_SHIFT else 0) (led_status k) ltac:(lia)) as [Hp Hk0].
      destruct (handler_run t k (0x80 + key) (t_shift t) Ht) as (k' & E & Ht'); try lia.
      * rewrite Hc. clear -Ek. do 26 (destruct n as [|n]; [injection Ek as <-; by destruct (t_shift t)|]). done.
      * rewrite Hk0, app_nil_r. lia.
      * rewrite Hk0, app_nil_r in Ht'. exists k'. rewrite E. split; [done|]. split; [by destruct t | cbn; lia].
  - destruct (shift_codes rshift down t k Ht) as (Hu & H1 & H2 & H3 & Hp & Hk0).
    destruct (handler_run t k _ down Ht H1 H2 H3 Hu Hp) as (k' & E & Ht'); [rewrite Hk0, app_nil_r; lia|].
    rewrite Hk0, app_nil_r in Ht'. exists k'. rewrite E. split; [done|]. split; [done | cbn; lia].
  - destruct down; cbn [pressed].
    + destruct (handler_caps t k Ht ltac:(lia)) as (k' & E & Ht'). exists k'. rewrite E.
      split; [done|]. split; [exact Ht' | cbn; lia].
    + destruct (released_quiet (0x80 + 0x3A) (if t_shift t then CK_SHIFT else 0) (led_status k) ltac:(lia)) as [Hp Hk0].
      destruct (handler_run t k (0x80 + 0x3A) (t_shift t) Ht) as (k' & E & Ht'); try lia.
      * rewrite Hc. by destruct (t_shift t).
      * rewrite Hk0, app_nil_r. lia.
      * rewrite Hk0, app_nil_r in Ht'. exists k'. rewrite E. split; [done|]. split; [by destruct t | cbn; lia].
  - destruct (t_queue t) as [|c q] eqn:Eq; cbn [fst snd head tail].
    + exists k. rewrite (getch_empty k Hok Hq). split; [done|]. split; [|cbn; lia].
      destruct t as [sh ca qu]; cbn in *. by rewrite <- Eq.
    + destruct (getch_run k c q Hok Hq) as (b & n & E & Hok' & Hq'). eexists. rewrite E.
      split; [done|]. split; [by split | cbn in *; lia].
Qed.

Lemma handle_all_run es : forall t k,
  types t k -> Forall valid es -> (length (t_queue t) + sum_list_with weight es <= 255)%nat ->
  exists k', handle_all es k = Ret ((type_all es t).1, k') /\ types (type_all es t).2 k'.
Proof.
  induction es as [|e es IH]; intros t k Ht Hv Hw; [by exists k|].
  apply Forall_cons in Hv as [He Hv]. cbn [sum_list_with] in Hw.
  destruct (handle_run e t k Ht He ltac:(lia)) as (k1 & E1 & Ht1 & Hw1).
  cbn [handle_all type_all]. unfold mbind, st_bind. rewrite E1.
  destruct (type_step e t) as [a t1]. cbn [fst snd] in *.
  destruct (IH t1 k1 Ht1 Hv ltac:(lia)) as (k2 & E2 & Ht2). rewrite E2.
  destruct (type_all es t1) as [r t2]. by exists k2.
Qed.


End Typing.


(** With the buffer full the next character is written behind it. *)
Lemma full_buffer_overruns k c :
  kb_ok k -> keyboard_buffer_size k = 255 -> 0 < c <= 0xFF -> store_key c k = Fault.
Proof.
  intros [Hl _] Hs Hc. unfold store_key, mbind, st_bind, get.
  rewrite (proj2 (Z.eqb_neq c 0)), (proj2 (Z.leb_le c 255)), Hs by lia.
  by rewrite Hl.
Qed.

(** One of control and alt with delete is enough to reset the machine. *)
Lemma control_delete_resets :
  keyboard_handler (fun _ => 0) (fun _ => 0) 1 0x53 (set_control CK_CTRL static_keyboard) = Panic.
Proof. reflexivity. Qed.

(** The column for shift with num lock is never read. *)
Lemma shift_num_lock_ignored beyond key control led :
  key_code beyond key control (Z.land led (Z.lnot LED_NUM_LOCK)) = key_code beyond key control led \/
  has control CK_SHIFT = false.
Proof.
  destruct (has control CK_SHIFT) eqn:E; [left | by right].
  assert (has (Z.land led (Z.lnot LED_NUM_LOCK)) LED_CAPS_LOCK = has led LED_CAPS_LOCK) as Hcaps.
  { unfold has. by rewrite <- Z.land_assoc. }
  unfold key_code. rewrite E, Hcaps. cbn [andb]. by destruct (has led LED_CAPS_LOCK).
Qed.
