(* ===== verification/Timer.v ===== *)
(** * The timer ([drivers/src/chara/pit.c]) and the delay loop ([drivers/src/chara/delay.c])

    The timer's interrupt handler counts interrupts and calls the installed
    handler at every eighteenth.  The delay loop is calibrated against it: time is
    counted in turns of an empty loop, and the interface [Ticker] says what a turn
    does to the variable [ticks] that the calibration handler counts up.  The
    calibration is proved against the laws [TickerLaws] of that interface; the
    timer's own handler, interrupted every [cycle] turns, obeys them. *)

From Stdlib Require Import SpecFloat.
From S2P Require Import Prelude Segment Interrupt.

(** ** The timer *)

Definition PIT_SCHEDULER : Z := 1.
Definition PIT_DELAYCALIB : Z := 2.
Definition PIT_DEBUG : Z := 0.
Definition TMR_CTRL : Z := 0x43.
Definition TMR_BOTH : Z := 0x30.
Definition TMR_MD3 : Z := 0x6.
Definition TMR_LATCH : Z := 0.

(** A [float] in the precision the i387 computes with. *)
Definition as_float (z : Z) : spec_float := binary_normalize 64 16384 z 0 false.

(** The integer part. *)
Definition truncate (x : spec_float) : Z :=
  match x with
  | S754_finite s m e =>
      let v := if 0 <=? e then Zpos m * 2 ^ e else Zpos m / 2 ^ (- e) in if s then - v else v
  | _ => 0
  end.

Definition init_pit (hz : spec_float) (channel : Z) : st irqs unit :=
  let temp := u32 (truncate (SFdiv 64 16384 (as_float 1193180) hz)) in
  _ ← io_outb TMR_CTRL (channel * 0x40 + TMR_BOTH + TMR_MD3);
  _ ← io_outb (0x40 + channel) (u8 temp);
  io_outb (0x40 + channel) (u8 (Z.shiftr temp 8)).

(** The two reads of the counter are a parameter. *)
Definition pit_getchannel (io_inb : Z -> st irqs Z) (channel : Z) : st irqs Z :=
  _ ← io_outb TMR_CTRL (channel * 0x40 + TMR_LATCH);
  x ← io_inb (0x40 + channel);
  y ← io_inb (0x40 + channel);
  mret (u32 (x + Z.shiftl y 8)).

(** The statics of [pit.c]; a handler is the address of a function, 0 for [NULL]. *)
Record pit := Pit { pit_mode : Z; tick : Z; pit_handlers_tab : list Z }.

Definition pit_boot : pit := Pit 0 0 [0; 0].

Definition pit_install_handler (_pit_mode handler : Z) : st pit unit :=
  p ← get;
  if _pit_mode =? PIT_SCHEDULER then put (Pit _pit_mode (tick p) (<[0%nat := handler]> (pit_handlers_tab p)))
  else if _pit_mode =? PIT_DELAYCALIB then put (Pit _pit_mode (tick p) (<[1%nat := handler]> (pit_handlers_tab p)))
  else if _pit_mode =? PIT_DEBUG then put (Pit _pit_mode (tick p) (pit_handlers_tab p))
  else panic.

Section Handler.
(** What the installed handlers work on, and what the one at an address does. *)
Context {X : Type} (call : Z -> Z -> st X irq_stat_t).

Definition on_rest {A} (m : st X A) : st (pit * X) A := fun s => '(a, x) ← m (snd s); Ret (a, (fst s, x)).

Definition call_handler (i : nat) (irq : Z) : st (pit * X) irq_stat_t :=
  s ← get;
  handler ← checked (pit_handlers_tab (fst s) !! i);
  if handler =? 0 then panic else on_rest (call handler irq).

Definition pit_handler (irq : Z) : st (pit * X) irq_stat_t :=
  _ ← modify (fun s => (Pit (pit_mode (fst s)) (i32 (tick (fst s) + 1)) (pit_handlers_tab (fst s)), snd s));
  s ← get;
  if Z.rem (tick (fst s)) 18 =? 0 then
    if pit_mode (fst s) =? PIT_SCHEDULER then call_handler 0 irq
    else if pit_mode (fst s) =? PIT_DELAYCALIB then call_handler 1 irq
    else mret IRQ_ENABLE
  else mret IRQ_ENABLE.
End Handler.

(** 18.2 as a [float]. *)
Definition hz_18_2 : spec_float := S754_finite false 9542042 (-19).

Definition pit_enable (handler info : Z) : st irqs unit :=
  _ ← init_pit hz_18_2 0;
  _ ← interrupt_install_handler 0 IRQ_EXCL (driver handler) info;
  enable_irq 0.

Definition pit_disable : st irqs unit := disable_irq 0.

(** ** The delay loop *)

Definition MILLISEC : Z := 1000.
Definition PRECISION : nat := 8.

(** Time: one turn of an empty loop, the variable [ticks], and what installs the
    calibration handler. *)
Class Ticker (D : Type) := { turn : st D unit; ticks : D -> Z; hook : st D unit }.

Record delayer (D : Type) := Delayer { delay_count : Z; device : D }.
Arguments Delayer {D} delay_count device.
Arguments delay_count {D} _.
Arguments device {D} _.

Section Delay.
Context {D : Type} `{Ticker D}.

Definition on_device {A} (m : st D A) : st (delayer D) A := fun s =>
  '(a, d) ← m (device s); Ret (a, Delayer (delay_count s) d).

Fixpoint delay_turns (n : nat) : st D unit := match n with O => mret tt | S n => _ ← turn; delay_turns n end.

Definition __delay (loops : Z) : st D unit := delay_turns (Z.to_nat loops).

Definition delay (milliseconds : Z) : st (delayer D) unit :=
  s ← get; on_device (__delay (u32 (milliseconds * delay_count s))).

(** [while(prevtick==ticks);] *)
Fixpoint wait_tick (fuel : nat) (prevtick : Z) : st D unit :=
  match fuel with
  | O => lift NoFuel
  | S fuel => t ← gets ticks; if prevtick =? t then _ ← turn; wait_tick fuel prevtick else mret tt
  end.

(** Wait for the start of a tick, delay, and see whether another one came:
    [prevtick == ticks]. *)
Definition measure (fuel : nat) (loops : Z) : st D bool :=
  prevtick ← gets ticks;
  _ ← wait_tick fuel prevtick;
  prevtick ← gets ticks;
  _ ← __delay loops;
  t ← gets ticks;
  mret (prevtick =? t).

Definition set_count (v : Z) : st (delayer D) unit := modify (fun s => Delayer v (device s)).

(** The [do] loop of stage 1. *)
Fixpoint coarse (rounds fuel : nat) : st (delayer D) unit :=
  match rounds with
  | O => lift NoFuel
  | S rounds =>
      s ← get;
      let delay_count := u32 (Z.shiftl (delay_count s) 1) in
      _ ← set_count delay_count;
      again ← on_device (measure fuel delay_count);
      if (again : bool) then coarse rounds fuel else mret tt
  end.

(** The loop of stage 2. *)
Fixpoint fine (n fuel : nat) (calib_bit : Z) : st (delayer D) unit :=
  match n with
  | O => mret tt
  | S n =>
      let calib_bit := Z.shiftr calib_bit 1 in
      if calib_bit =? 0 then mret tt
      else
        s ← get;
        let count := Z.lor (delay_count s) calib_bit in
        _ ← set_count count;
        same ← on_device (measure fuel count);
        _ ← (if negb same then set_count (Z.land count (u32 (Z.lnot calib_bit))) else mret tt);
        fine n fuel calib_bit
  end.

Definition calibrateDelayLoop (rounds fuel : nat) : st (delayer D) Z :=
  _ ← on_device hook;
  _ ← coarse rounds fuel;
  s ← get;
  let count := Z.shiftr (delay_count s) 1 in
  _ ← set_count count;
  _ ← fine PRECISION fuel count;
  s ← get;
  let count := delay_count s / MILLISEC in
  _ ← set_count count;
  mret count.
End Delay.

(** ** The timer as the source of ticks *)

(** [delay_calib_handler], whose address is 1 here. *)
Definition delay_calib_handler (irq : Z) : st Z irq_stat_t := fun ticks => Ret (IRQ_ENABLE, u32 (ticks + 1)).

Definition calib_call (handler irq : Z) : st Z irq_stat_t :=
  if handler =? 1 then delay_calib_handler irq else fault.

(** The timer and [ticks], and the turns since the latest interrupt. *)
Record machine := Machine { timer : pit * Z; since : Z }.

(** With the timer interrupting every [cycle] turns. *)
Definition pit_turn (cycle : Z) : st machine unit := fun m =>
  if since m + 1 <? cycle then Ret (tt, Machine (timer m) (since m + 1))
  else '(_, t) ← pit_handler calib_call 0 (timer m); Ret (tt, Machine t 0).

Definition pit_hook : st machine unit := fun m =>
  '(_, p) ← pit_install_handler PIT_DELAYCALIB 1 (fst (timer m)); Ret (tt, Machine (p, snd (timer m)) (since m)).

(** ** The rate of the timer *)

(** The divisor for 18.2 Hz is 65559, which does not fit the 16 bits of the
    counter: the timer is programmed with 23 and interrupts 51877 times a second. *)
Lemma pit_enable_divisor s : exists s', init_pit hz_18_2 0 s = Ret (tt, s') /\
  ports s' = (0x40, 0) :: (0x40, 23) :: (TMR_CTRL, 0x36) :: ports s /\
  truncate (SFdiv 64 16384 (as_float 1193180) hz_18_2) = 65559.
Proof. eexists. split; [vm_compute; reflexivity|]. by split. Qed.

(** In any mode but the debugging one the installed handler is called at every
    eighteenth interrupt, and otherwise only [tick] changes. *)
Lemma pit_handler_calls {X} (call : Z -> Z -> st X irq_stat_t) irq p (x : X) :
  0 <= tick p < 2147483647 -> length (pit_handlers_tab p) = 2%nat ->
  pit_handler call irq (p, x) =
    let p' := Pit (pit_mode p) (tick p + 1) (pit_handlers_tab p) in
    if (tick p + 1) mod 18 =? 0 then
      if pit_mode p =? PIT_SCHEDULER then call_handler call 0 irq (p', x)
      else if pit_mode p =? PIT_DELAYCALIB then call_handler call 1 irq (p', x)
      else Ret (IRQ_ENABLE, (p', x))
    else Ret (IRQ_ENABLE, (p', x)).
Proof.
  intros Ht Hl. unfold pit_handler, modify, get. unfold_st. cbn [fst snd tick pit_mode pit_handlers_tab].
  rewrite i32_small, Z.rem_mod_nonneg by lia. cbv zeta.
  destruct (_ mod 18 =? 0); [|done]. destruct (pit_mode p =? PIT_SCHEDULER); [done|].
  by destruct (pit_mode p =? PIT_DELAYCALIB).
Qed.

(** [n] interrupts of the timer. *)
Fixpoint interrupts {X} (call : Z -> Z -> st X irq_stat_t) (n : nat) : st (pit * X) unit :=
  match n with O => mret tt | S n => _ ← pit_handler call 0; interrupts call n end.

Section Interrupts.
Context {X : Type} (call : Z -> Z -> st X irq_stat_t).

Lemma interrupts_quiet n : forall p x, 0 <= tick p -> tick p + Z.of_nat n < 2147483648 ->
  length (pit_handlers_tab p) = 2%nat -> tick p mod 18 + Z.of_nat n < 18 ->
  interrupts call n (p, x) = Ret (tt, (Pit (pit_mode p) (tick p + Z.of_nat n) (pit_handlers_tab p), x)).
Proof.
  induction n as [|n IH]; intros p x H0 Ht Hl Hn; cbn [interrupts].
  - rewrite Z.add_0_r. by destruct p.
  - unfold_st. rewrite pit_handler_calls by (done || lia). cbv zeta.
    assert ((tick p + 1) mod 18 = tick p mod 18 + 1) as E.
    { symmetry. pose proof (Z.div_mod (tick p) 18). apply (Z.mod_unique _ _ (tick p / 18)); [|lia].
      pose proof (Z.mod_pos_bound (tick p) 18). lia. }
    pose proof (Z.mod_pos_bound (tick p) 18). rewrite E, (proj2 (Z.eqb_neq _ _)) by lia.
    rewrite IH by (cbn [tick pit_handlers_tab]; (done || lia)). cbn [pit_mode tick pit_handlers_tab].
    do 4 f_equal. lia.
Qed.

Lemma interrupts_app n k s : interrupts call (n + k) s = (_ ← interrupts call n; interrupts call k) s.
Proof.
  revert s. induction n as [|n IH]; intros s; [done|]. cbn [Nat.add interrupts]. unfold_st.
  destruct (pit_handler call 0 s) as [[u s1]| | |]; try done; apply IH.
Qed.

(** Of eighteen interrupts in a row exactly one calls the scheduler's handler. *)
Lemma eighteen_interrupts p x h a x' : 0 <= tick p -> tick p + 18 < 2147483648 ->
  length (pit_handlers_tab p) = 2%nat -> pit_mode p = PIT_SCHEDULER -> pit_handlers_tab p !! 0%nat = Some h -> h <> 0 ->
  call h 0 x = Ret (a, x') ->
  interrupts call 18 (p, x) = Ret (tt, (Pit (pit_mode p) (tick p + 18) (pit_handlers_tab p), x')).
Proof.
  intros H0 Ht Hl Hm Hh Hne E. pose proof (Z.mod_pos_bound (tick p) 18). pose proof (Z.div_mod (tick p) 18).
  remember (Z.to_nat (17 - tick p mod 18)) as n eqn:En.
  replace 18%nat with (n + S (17 - n))%nat by lia. rewrite interrupts_app. unfold mbind, st_bind.
  rewrite interrupts_quiet by (done || lia). cbn [interrupts]. unfold mbind, st_bind.
  rewrite pit_handler_calls by (cbn [tick pit_handlers_tab]; (done || lia)). cbv zeta. cbn [tick pit_handlers_tab pit_mode].
  assert ((tick p + Z.of_nat n + 1) mod 18 = 0) as Ez.
  { symmetry. apply (Z.mod_unique _ _ (tick p / 18 + 1)); lia. }
  rewrite Ez, Hm. cbn [Z.eqb Pos.eqb PIT_SCHEDULER]. unfold call_handler, get, checked. unfold_st. cbn [fst snd pit_handlers_tab].
  rewrite Hh, (proj2 (Z.eqb_neq _ _)) by done. unfold on_rest. cbn [snd fst]. rewrite E. cbn [mbind outcome_bind].
  rewrite interrupts_quiet by (cbn [tick pit_handlers_tab]; rewrite ?Ez; (done || lia)).
  cbn [pit_mode tick pit_handlers_tab]. do 4 f_equal. lia.
Qed.
End Interrupts.

(** ** Calibration, from the laws of the ticks *)

(** After [hook], [ticks] counts up once in every [period] turns, for [life] more
    times; [left] is the number of turns to the next time. *)
Class TickerLaws (D : Type) `{Ticker D} := {
  period : Z;
  ready : D -> Prop;
  running : D -> Prop;
  left : D -> Z;
  life : D -> Z;
  hook_runs d : ready d -> exists d', hook d = Ret (tt, d') /\ running d' /\ life d' = life d;
  left_range d : running d -> 1 <= left d <= period;
  ticks_range d : running d -> 0 <= ticks d < 4294967296;
  turn_counts d : running d -> 0 < life d -> exists d', turn d = Ret (tt, d') /\ running d' /\
    if left d =? 1 then ticks d' = u32 (ticks d + 1) /\ left d' = period /\ life d' = life d - 1
    else ticks d' = ticks d /\ left d' = left d - 1 /\ life d' = life d
}.

Section Calibration.
Context {D : Type} `{TickerLaws D}.

Lemma next_tick d : running d -> u32 (ticks d + 1) <> ticks d.
Proof.
  intros Hr. pose proof (ticks_range d Hr). unfold u32, uwrap. pow2. Z.div_mod_to_equations. lia.
Qed.

(** [n] turns that end before the next tick, and the tick. *)
Lemma turns_before n : forall d, running d -> 0 < life d -> Z.of_nat n < left d ->
  exists d', delay_turns n d = Ret (tt, d') /\ running d' /\ ticks d' = ticks d /\
    left d' = left d - Z.of_nat n /\ life d' = life d.
Proof.
  induction n as [|n IH]; intros d Hr Hf Hn; cbn [delay_turns].
  - exists d. split_and!; (done || lia).
  - destruct (turn_counts d Hr Hf) as (d1 & E & Hr1 & Hd). rewrite (proj2 (Z.eqb_neq _ _)) in Hd by lia.
    destruct Hd as (Ht & Hl & Hf1). destruct (IH d1) as (d' & E' & Hr' & Ht' & Hl' & Hf'); [done|lia|lia|].
    exists d'. unfold_st. rewrite E. split_and!; (done || lia).
Qed.

Lemma turns_app n k d : delay_turns (n + k) d = (_ ← delay_turns n; delay_turns k) d.
Proof.
  revert d. induction n as [|n IH]; intros d; [done|]. cbn [Nat.add delay_turns]. unfold_st.
  destruct (turn d) as [[u d1]| | |]; try done; rewrite IH; done.
Qed.

Lemma turns_through n d : running d -> 1 < life d -> left d <= Z.of_nat n < left d + period ->
  exists d', delay_turns n d = Ret (tt, d') /\ running d' /\ ticks d' = u32 (ticks d + 1) /\ life d' = life d - 1.
Proof.
  intros Hr Hf Hn. pose proof (left_range d Hr). remember (Z.to_nat (left d - 1)) as a eqn:Ea.
  replace n with (a + S (n - a - 1))%nat by lia. rewrite turns_app. unfold mbind, st_bind.
  destruct (turns_before a d) as (d1 & -> & Hr1 & Ht1 & Hl1 & Hf1); [done|lia|lia|].
  cbn [delay_turns]. unfold mbind, st_bind.
  destruct (turn_counts d1 Hr1) as (d2 & -> & Hr2 & Hd); [lia|].
  replace (left d1) with 1 in Hd by lia. cbn [Z.eqb Pos.eqb] in Hd. destruct Hd as (Ht2 & Hl2 & Hf2).
  destruct (turns_before (n - a - 1) d2) as (d3 & E & Hr3 & Ht3 & Hl3 & Hf3); [done|lia|lia|].
  exists d3. split_and!; [done|done|congruence|lia].
Qed.

(** Waiting ends at the next tick. *)
Lemma wait_runs fuel : forall d, running d -> 0 < life d -> left d < Z.of_nat fuel ->
  exists d', wait_tick fuel (ticks d) d = Ret (tt, d') /\ running d' /\
    left d' = period /\ life d' = life d - 1.
Proof.
  induction fuel as [|fuel IH]; intros d Hr Hf Hn; pose proof (left_range d Hr); [lia|].
  cbn [wait_tick]. unfold gets. unfold_st. rewrite Z.eqb_refl.
  destruct (turn_counts d Hr Hf) as (d1 & -> & Hr1 & Hd).
  destruct (Z.eqb_spec (left d) 1).
  - destruct Hd as (Ht & Hl & Hf1). destruct fuel as [|fuel]; [lia|]. cbn [wait_tick]. unfold gets. unfold_st.
    rewrite Ht, (proj2 (Z.eqb_neq _ _)) by (by apply not_eq_sym, next_tick). exists d1. done.
  - destruct Hd as (Ht & Hl & Hf1). rewrite <- Ht.
    destruct (IH d1) as (d' & E & Hr' & Hl' & Hf'); [done|lia|lia|]. exists d'. split_and!; (done || lia).
Qed.

(** The measurement tells whether the loops last a period. *)
Lemma measure_runs fuel n d : running d -> 2 < life d -> period < Z.of_nat fuel -> 0 <= n < 2 * period ->
  exists d', measure fuel n d = Ret (n <? period, d') /\ running d' /\ life d - 2 <= life d'.
Proof.
  intros Hr Hf Hn Hp. pose proof (left_range d Hr). unfold measure, gets, __delay. unfold mbind, st_bind.
  destruct (wait_runs fuel d) as (d1 & -> & Hr1 & Hl1 & Hf1); [done|lia|lia|].
  destruct (Z.ltb_spec n period).
  - destruct (turns_before (Z.to_nat n) d1) as (d2 & -> & Hr2 & Ht2 & Hl2 & Hf2); [done|lia|lia|].
    unfold mret, st_ret. rewrite Ht2, Z.eqb_refl. exists d2. split_and!; (done || lia).
  - destruct (turns_through (Z.to_nat n) d1) as (d2 & -> & Hr2 & Ht2 & Hf2); [done|lia|lia|].
    unfold mret, st_ret. rewrite Ht2, (proj2 (Z.eqb_neq _ _)) by (by apply not_eq_sym, next_tick).
    exists d2. split_and!; (done || lia).
Qed.

Lemma on_device_run {A} (m : st D A) c d a d' : m d = Ret (a, d') -> on_device m (Delayer c d) = Ret (a, Delayer c d').
Proof. intros E. unfold on_device. cbn [device delay_count]. by rewrite E. Qed.

(** Stage 1 ends at the first power of two that lasts a period. *)
Lemma coarse_runs fuel : forall rounds j d, running d -> period <= 2147483648 -> period < Z.of_nat fuel ->
  0 <= j -> 2 ^ j < period -> 32 - j <= Z.of_nat rounds -> 2 * Z.of_nat rounds < life d ->
  exists k d', coarse rounds fuel (Delayer (2 ^ j) d) = Ret (tt, Delayer (2 ^ (k + 1)) d') /\ running d' /\
    0 <= k /\ 2 ^ k < period <= 2 ^ (k + 1) /\ life d - 2 * Z.of_nat rounds <= life d'.
Proof.
  induction rounds as [|rounds IH]; intros j d Hr Hp Hf Hj Hlt Hn Hlife.
  { exfalso. assert (2 ^ 32 <= 2 ^ j) as Hc by (apply Z.pow_le_mono_r; lia). change (2 ^ 32) with 4294967296 in Hc. lia. }
  cbn [coarse]. unfold get, set_count, modify. unfold mbind at 1, st_bind at 1. cbn zeta. cbn [delay_count device].
  unfold mbind at 1, st_bind at 1.
  assert (2 ^ (j + 1) = 2 * 2 ^ j) as E2 by (rewrite Z.pow_add_r by lia; lia).
  pose proof (Z.pow_pos_nonneg 2 j ltac:(lia) Hj).
  assert (u32 (Z.shiftl (2 ^ j) 1) = 2 ^ (j + 1)) as ->.
  { rewrite Z.shiftl_mul_pow2, <- Z.pow_add_r, u32_small by lia. done. }
  destruct (measure_runs fuel (2 ^ (j + 1)) d) as (d1 & E & Hr1 & Hf1); [done|lia|done|lia|].
  unfold mbind at 1, st_bind at 1. rewrite (on_device_run _ _ _ _ _ E).
  destruct (Z.ltb_spec (2 ^ (j + 1)) period) as [Hlt1|Hge].
  - destruct (IH (j + 1) d1) as (k & d' & E' & Hr' & Hk & Hk2 & Hf'); [done|done|done|lia|done|lia|lia|].
    exists k, d'. split_and!; (done || lia).
  - exists j, d1. split_and!; (done || lia).
Qed.

(** Setting a bit below the multiple of a larger power of two, and clearing it. *)
Lemma set_bit_below v e : 0 <= e -> v mod 2 ^ (e + 1) = 0 -> Z.lor v (2 ^ e) = v + 2 ^ e.
Proof.
  intros He Hv. rewrite Z.lor_comm. apply (lor_aligned (e + 1)); [lia|done|].
  rewrite Z.pow_add_r by lia. pose proof (Z.pow_pos_nonneg 2 e). lia.
Qed.

Lemma clear_bit_below v e : 0 <= e < 32 -> 0 <= v -> v + 2 ^ e < 2 ^ 32 -> v mod 2 ^ (e + 1) = 0 ->
  Z.land (v + 2 ^ e) (u32 (Z.lnot (2 ^ e))) = v.
Proof.
  intros He Hv0 Hv Hm. rewrite <- set_bit_below by (done || lia). pose proof (Z.pow_pos_nonneg 2 e).
  assert (Z.testbit v e = false) as Hb.
  { rewrite <- (Z.mod_pow2_bits_low v (e + 1) e) by lia. by rewrite Hm, Z.bits_0. }
  apply Z.bits_inj'. intros i Hi. rewrite Z.land_spec, Z.lor_spec, Z.pow2_bits_eqb by lia.
  destruct (Z.lt_ge_cases i 32).
  - rewrite uwrap_testbit, Z.lnot_spec, Z.pow2_bits_eqb by lia.
    destruct (Z.eqb_spec e i) as [<- | Hne]; [by rewrite andb_false_r|]. by rewrite orb_false_r, andb_true_r.
  - rewrite uwrap_testbit_high, andb_false_r by lia.
    rewrite <- (Z.mod_small v (2 ^ 32)), Z.mod_pow2_bits_high by lia. done.
Qed.

(** Stage 2 halves the uncertainty with every bit. *)
Lemma fine_runs fuel : forall n e v d, running d -> period <= 2147483648 -> period < Z.of_nat fuel ->
  0 <= e -> 2 ^ e <= v -> v mod 2 ^ e = 0 -> v < period <= v + 2 ^ e -> 2 * Z.of_nat n < life d - 2 ->
  exists v' d', fine n fuel (2 ^ e) (Delayer v d) = Ret (tt, Delayer v' d') /\
    v <= v' /\ v' < period <= v' + 2 ^ Z.max 0 (e - Z.of_nat n).
Proof.
  induction n as [|n IH]; intros e v d Hr Hp Hf He Hve Hm Hv Hlife.
  { exists v, d. rewrite Z.sub_0_r, Z.max_r by lia. split_and!; (done || lia). }
  cbn [fine]. cbn zeta. rewrite (Z.shiftr_div_pow2 _ 1) by lia. change (2 ^ 1) with 2.
  destruct (Z.eqb_spec e 0) as [-> | Hne].
  { exists v, d. rewrite Z.max_l by lia. split_and!; (done || lia). }
  assert (2 ^ e = 2 ^ (e - 1) * 2) as E2 by (replace e with ((e - 1) + 1) at 1 by lia; rewrite Z.pow_add_r by lia; lia).
  pose proof (Z.pow_pos_nonneg 2 (e - 1)). rewrite E2, Z.div_mul, (proj2 (Z.eqb_neq _ _)) by lia.
  unfold get, set_count, modify. unfold mbind at 1, st_bind at 1. cbn zeta. cbn [delay_count device].
  unfold mbind at 1, st_bind at 1. assert (e = e - 1 + 1) as Ee by lia.
  rewrite set_bit_below by (rewrite <- ?Ee; (done || lia)).
  destruct (measure_runs fuel (v + 2 ^ (e - 1)) d) as (d1 & E & Hr1 & Hf1); [done|lia|done|lia|].
  unfold mbind at 1, st_bind at 1. rewrite (on_device_run _ _ _ _ _ E).
  assert ((2 ^ (e - 1) | v)) as [q Hq].
  { apply Z.mod_divide; [lia|]. apply Z.mod_divide in Hm as [q Hq]; [|lia]. rewrite Hq, E2.
    apply Z.mod_divide; [lia|]. exists (q * 2). lia. }
  unfold mbind at 1, st_bind at 1. destruct (Z.ltb_spec (v + 2 ^ (e - 1)) period); cbn [negb].
  - destruct (IH (e - 1) (v + 2 ^ (e - 1)) d1) as (v' & d' & E' & Hv' & Hb); [done|done|done|lia|lia| |lia|lia|].
    { rewrite Hq. replace (q * 2 ^ (e - 1) + 2 ^ (e - 1)) with ((q + 1) * 2 ^ (e - 1)) by lia. apply Z.mod_mul. lia. }
    exists v', d'. unfold mret, st_ret. rewrite E'. replace (e - Z.of_nat (S n)) with (e - 1 - Z.of_nat n) by lia.
    split_and!; (done || lia).
  - cbn [delay_count device]. assert (e < 32) as He32.
    { apply (Z.pow_lt_mono_r_iff 2); [lia..|]. change (2 ^ 32) with 4294967296. lia. }
    rewrite clear_bit_below by (rewrite <- ?Ee; (done || lia || (change (2 ^ 32) with 4294967296; lia))).
    destruct (IH (e - 1) v d1) as (v' & d' & E' & Hv' & Hb); [done|done|done|lia|lia| |lia|lia|].
    { rewrite Hq. apply Z.mod_mul. lia. }
    exists v', d'. rewrite E'. replace (e - Z.of_nat (S n)) with (e - 1 - Z.of_nat n) by lia. split_and!; (done || lia).
Qed.

Lemma calibration_runs fuel d : ready d -> 84 <= life d -> 2 <= period <= 2147483648 -> period < Z.of_nat fuel ->
  exists v d', calibrateDelayLoop 32 fuel (Delayer 1 d) = Ret (v / 1000, Delayer (v / 1000) d') /\
    v < period <= v + Z.max 1 (v / 256).
Proof.
  intros Hd Hlife Hp Hf. unfold calibrateDelayLoop.
  destruct (hook_runs d Hd) as (d1 & E1 & Hr1 & Hl1).
  unfold mbind at 1, st_bind at 1. rewrite (on_device_run _ _ _ _ _ E1).
  destruct (coarse_runs fuel 32 0 d1) as (k & d2 & E2 & Hr2 & Hk & Hkp & Hl2); [done|lia|done|lia|cbn; lia|lia|lia|].
  change (2 ^ 0) with 1 in E2. unfold mbind at 1, st_bind at 1. rewrite E2.
  unfold_st. unfold get, set_count, modify. cbn [delay_count device].
  assert (2 ^ (k + 1) = 2 ^ k * 2) as E by (rewrite Z.pow_add_r by lia; lia).
  rewrite (Z.shiftr_div_pow2 _ 1) by lia. change (2 ^ 1) with 2. rewrite E, Z.div_mul by lia.
  destruct (fine_runs fuel PRECISION k (2 ^ k) d2) as (v & d3 & E3 & Hv & Hb); [done|lia|done|lia|lia| |lia| |].
  { apply Z.mod_same. pose proof (Z.pow_pos_nonneg 2 k). lia. }
  { unfold PRECISION. lia. }
  rewrite E3. exists v, d3. split; [reflexivity|].
  destruct Hb as [Hb1 Hb2]. split; [done|]. etrans; [exact Hb2|]. apply Z.add_le_mono_l.
  unfold PRECISION. destruct (Z.le_gt_cases k 8).
  - rewrite Z.max_l by lia. lia.
  - rewrite Z.max_r by lia. etrans; [|apply Z.le_max_r]. apply Z.div_le_lower_bound; [lia|].
    replace 256 with (2 ^ 8) by done. rewrite <- Z.pow_add_r by lia. replace (8 + (k - Z.of_nat 8)) with k by lia. done.
Qed.
End Calibration.

(** ** The timer obeys the laws *)

Section Machine.
Context (cycle : Z) (Hcycle : 0 < cycle).

#[local] Instance machine_ticker : Ticker machine := {
  turn := pit_turn cycle;
  ticks m := snd (timer m);
  hook := pit_hook
}.

(** The counters are within their types. *)
Definition machine_ok (m : machine) : Prop :=
  length (pit_handlers_tab (fst (timer m))) = 2%nat /\ 0 <= tick (fst (timer m)) < 2147483648 /\
  0 <= since m < cycle /\ 0 <= snd (timer m) < 4294967296.

(** The calibration handler is installed. *)
Definition calibrating (m : machine) : Prop :=
  machine_ok m /\ pit_mode (fst (timer m)) = PIT_DELAYCALIB /\ pit_handlers_tab (fst (timer m)) !! 1%nat = Some 1.

Definition turns_left (m : machine) : Z := (17 - tick (fst (timer m)) mod 18) * cycle + (cycle - since m).

(** The calls of the handler before [tick] overflows. *)
Definition calls_left (m : machine) : Z := 2147483647 / 18 - tick (fst (timer m)) / 18.

Lemma pit_hook_runs m : machine_ok m -> exists m', pit_hook m = Ret (tt, m') /\ calibrating m' /\ calls_left m' = calls_left m.
Proof.
  intros (Hl & Ht & Hs & Hx). eexists. split; [reflexivity|]. split; [|done]. split; [split|split; [done|]].
  - cbn. by rewrite length_insert.
  - done.
  - cbn. apply list_lookup_insert_eq. lia.
Qed.

Lemma pit_turn_counts m : calibrating m -> 0 < calls_left m -> exists m', pit_turn cycle m = Ret (tt, m') /\ calibrating m' /\
  if turns_left m =? 1
  then snd (timer m') = u32 (snd (timer m) + 1) /\ turns_left m' = 18 * cycle /\ calls_left m' = calls_left m - 1
  else snd (timer m') = snd (timer m) /\ turns_left m' = turns_left m - 1 /\ calls_left m' = calls_left m.
Proof.
  intros ((Hl & Ht & Hs & Hx) & Hmode & Htab) Hc. unfold pit_turn. destruct m as [[p x] c].
  unfold turns_left, calls_left in *. cbn [timer since fst snd] in *. change (2147483647 / 18) with 119304647 in *.
  pose proof (Z.mod_pos_bound (tick p) 18). pose proof (Z.div_mod (tick p) 18).
  destruct (Z.ltb_spec (c + 1) cycle).
  - eexists. split; [reflexivity|]. split; [by unfold calibrating, machine_ok; cbn [timer since fst snd]; split_and!; (done || lia)|].
    cbn [timer since fst snd]. rewrite (proj2 (Z.eqb_neq _ _)) by nia. split; [done|]. split; [lia|done].
  - rewrite pit_handler_calls by (done || lia). cbv zeta.
    assert ((tick p + 1) mod 18 = if tick p mod 18 =? 17 then 0 else tick p mod 18 + 1) as Em.
    { destruct (Z.eqb_spec (tick p mod 18) 17); symmetry; [apply (Z.mod_unique _ _ (tick p / 18 + 1))|apply (Z.mod_unique _ _ (tick p / 18))]; lia. }
    assert ((tick p + 1) / 18 = if tick p mod 18 =? 17 then tick p / 18 + 1 else tick p / 18) as Ed.
    { destruct (Z.eqb_spec (tick p mod 18) 17); symmetry; [apply (Z.div_unique _ _ _ 0)|apply (Z.div_unique _ _ _ (tick p mod 18 + 1))]; lia. }
    replace c with (cycle - 1) in * by lia. rewrite Em. destruct (Z.eqb_spec (tick p mod 18) 17) as [E17|E17]; cbn [Z.eqb].
    + rewrite Hmode. cbn [Z.eqb Pos.eqb PIT_DELAYCALIB PIT_SCHEDULER]. unfold call_handler, get, checked.
      unfold_st. cbn [fst snd pit_handlers_tab]. rewrite Htab. cbn [Z.eqb].
      eexists. split; [reflexivity|]. rewrite E17. replace ((17 - 17) * cycle + (cycle - (cycle - 1))) with 1 by lia.
      cbn [timer since fst snd tick Z.eqb Pos.eqb]. rewrite Em, Ed. split; [|split_and!; (done || lia)].
      unfold calibrating, machine_ok. cbn [timer since fst snd tick pit_handlers_tab pit_mode].
      pose proof (u32_range (x + 1)). split_and!; (done || lia).
    + rewrite (proj2 (Z.eqb_neq (_ + 1) 0)) by lia.
      eexists. split; [reflexivity|]. rewrite (proj2 (Z.eqb_neq _ _)) by nia.
      cbn [timer since fst snd tick]. rewrite Em, Ed. split; [|split_and!; (done || lia)].
      unfold calibrating, machine_ok. cbn [timer since fst snd tick pit_handlers_tab pit_mode]. split_and!; (done || lia).
Qed.

#[local] Program Instance machine_laws : TickerLaws machine := {
  period := 18 * cycle;
  ready := machine_ok;
  running := calibrating;
  left := turns_left;
  life := calls_left
}.
Next Obligation. apply pit_hook_runs. Qed.
Next Obligation.
  intros m ((_ & _ & Hs & _) & _). unfold turns_left. pose proof (Z.mod_pos_bound (tick (fst (timer m))) 18). nia.
Qed.
Next Obligation. intros m ((_ & _ & _ & Hx) & _). exact Hx. Qed.
Next Obligation. apply pit_turn_counts. Qed.

Lemma calibration_on_pit fuel m : machine_ok m -> tick (fst (timer m)) < 2147480000 ->
  2 <= 18 * cycle <= 2147483648 -> 18 * cycle < Z.of_nat fuel ->
  exists v m', calibrateDelayLoop 32 fuel (Delayer 1 m) = Ret (v / 1000, Delayer (v / 1000) m') /\
    v < 18 * cycle <= v + Z.max 1 (v / 256).
Proof.
  intros Hm Ht Hc Hf. apply (calibration_runs (H0 := machine_laws) fuel m Hm); [|done..]. cbn [life machine_laws]. unfold calls_left.
  destruct Hm as (_ & H0 & _). change (2147483647 / 18) with 119304647. Z.div_mod_to_equations. lia.
Qed.
End Machine.

(** ** Results *)

(** C29: The calibration of the delay loop ends, and finds the number of turns between
    two calls of the timer's handler (18 interrupts, [cycle] turns each) from below,
    to within one turn or one part in 256: [delay_count] is a thousandth of it. *)
Theorem calibrateDelayLoop_correct cycle fuel m :
  0 < cycle -> machine_ok cycle m -> tick (fst (timer m)) < 2147480000 ->
  18 * cycle <= 2147483648 -> 18 * cycle < Z.of_nat fuel ->
  exists v m', calibrateDelayLoop (H := machine_ticker cycle) 32 fuel (Delayer 1 m) =
      Ret (v / 1000, Delayer (v / 1000) m') /\
    v < 18 * cycle <= v + Z.max 1 (v / 256).
Proof. intros. apply calibration_on_pit; (done || lia). Qed.

Lemma calibrateDelayLoop_correct_witness :
  exists v m', calibrateDelayLoop (H := machine_ticker 1000) 32 (Z.to_nat 20000) (Delayer 1 (Machine (pit_boot, 0) 0)) =
      Ret (v / 1000, Delayer (v / 1000) m') /\
    v < 18 * 1000 <= v + Z.max 1 (v / 256).
Proof.
  apply (calibrateDelayLoop_correct 1000 (Z.to_nat 20000) (Machine (pit_boot, 0) 0)); [lia| |cbn; lia|lia|lia].
  by split_and!.
Defined.

(** With more than 2^31 turns to a tick [delay_count] becomes 0, and stage 1 goes on
    with delays of no length. *)
Lemma coarse_overflow : u32 (Z.shiftl (2 ^ 31) 1) = 0 /\ u32 (Z.shiftl 0 1) = 0.
Proof. done. Qed.
