(* ===== verification/Ide.v ===== *)
(** * Finding the drives ([drivers/src/block/ide/ide.c])

    The driver that identifies the drives, and [ata_disk_size] of [pioutil.c], which
    calls it for a disk without a partition table.  The ports are reached through
    the parameter [Bus]; [insl(port, buffer, n)] is the [4 * n] bytes it stores.
    [local_sleep] changes nothing here, and what is printed is left out. *)

From S2P Require Import Prelude Device Layout Alloc Segment Interrupt.

Definition ATA_SR_BSY : Z := 0x80.
Definition ATA_SR_DF : Z := 0x20.
Definition ATA_SR_DRQ : Z := 0x08.
Definition ATA_SR_ERR : Z := 0x01.

Definition ATA_ER_BBK : Z := 0x80.
Definition ATA_ER_UNC : Z := 0x40.
Definition ATA_ER_MC : Z := 0x20.
Definition ATA_ER_IDNF : Z := 0x10.
Definition ATA_ER_MCR : Z := 0x08.
Definition ATA_ER_ABRT : Z := 0x04.
Definition ATA_ER_TK0NF : Z := 0x02.
Definition ATA_ER_AMNF : Z := 0x01.

Definition ATA_CMD_IDENTIFY_PACKET : Z := 0xA1.
Definition ATA_CMD_IDENTIFY : Z := 0xEC.

Definition ATA_IDENT_DEVICETYPE : nat := 0.
Definition ATA_IDENT_MODEL : nat := 54.
Definition ATA_IDENT_CAPABILITIES : nat := 98.
Definition ATA_IDENT_MAX_LBA : nat := 120.
Definition ATA_IDENT_COMMANDSETS : nat := 164.
Definition ATA_IDENT_MAX_LBA_EXT : nat := 200.

Definition IDE_ATA : Z := 0x00.
Definition IDE_ATAPI : Z := 0x01.

Definition ATA_REG_DATA : Z := 0x00.
Definition ATA_REG_ERROR : Z := 0x01.
Definition ATA_REG_LBA1 : Z := 0x04.
Definition ATA_REG_LBA2 : Z := 0x05.
Definition ATA_REG_HDDEVSEL : Z := 0x06.
Definition ATA_REG_COMMAND : Z := 0x07.
Definition ATA_REG_STATUS : Z := 0x07.
Definition ATA_REG_CONTROL : Z := 0x0C.
Definition ATA_REG_ALTSTATUS : Z := 0x0C.

Definition ATA_PRIMARY : Z := 0x00.
Definition ATA_SECONDARY : Z := 0x01.

(** ** State *)

Record IDEChannelRegisters := Channel_regs { ch_base : Z; ch_ctrl : Z; ch_bmide : Z; ch_nIEN : Z }.

Record ide_device := Ide_device {
  d_Reserved : Z; d_Channel : Z; d_Drive : Z; d_Type : Z; d_Signature : Z; d_Capabilities : Z; d_CommandSets : Z;
  d_Size : Z; d_Model : list Z
}.

Class Bus (D : Type) := {
  inb : Z -> st D Z;
  outb : Z -> Z -> st D unit;
  insl : Z -> nat -> st D (list Z)
}.

Record ide (D : Type) := Ide { channels : list IDEChannelRegisters; ide_devices : list ide_device; ide_buf : list Z; bus : D }.
Arguments Ide {D}.
Arguments channels {D} _.
Arguments ide_devices {D} _.
Arguments ide_buf {D} _.
Arguments bus {D} _.

Definition no_device : ide_device := Ide_device 0 0 0 0 0 0 0 0 (replicate 41 0).

(** What the static data hold at first. *)
Definition ide_boot {D} (d : D) : ide D :=
  Ide (replicate 2 (Channel_regs 0 0 0 0)) (replicate 4 no_device) (replicate 2048 0) d.

Section Driver.
Context {D : Type} `{Bus D}.

Abbreviation I := (ide D).

Definition on_bus {A} (m : st D A) : st I A := fun s =>
  match m (bus s) with
  | Ret (a, d) => Ret (a, Ide (channels s) (ide_devices s) (ide_buf s) d)
  | Panic => Panic | Fault => Fault | NoFuel => NoFuel
  end.

Definition channel_of (channel : Z) : st I IDEChannelRegisters := s ← get; checked (channels s !! Z.to_nat channel).

(** The port of a register, when it has one: the tests of [reg] in the three transfers. *)
Definition port_of (c : IDEChannelRegisters) (reg : Z) : option Z :=
  if reg <? 0x08 then Some (ch_base c + reg - 0x00)
  else if reg <? 0x0C then Some (ch_base c + reg - 0x06)
  else if reg <? 0x0E then Some (ch_ctrl c + reg - 0x0A)
  else if reg <? 0x16 then Some (ch_bmide c + reg - 0x0E)
  else None.

(** [reg > 0x07 && reg < 0x0C] *)
Definition high_order (reg : Z) : bool := (0x07 <? reg) && (reg <? 0x0C).

(** [fuel] bounds the depth of the calls of [ide_write] to itself; 2 is enough. *)
Fixpoint ide_write (fuel : nat) (channel reg data : Z) : st I unit :=
  match fuel with
  | O => lift NoFuel
  | S fuel =>
      c ← channel_of channel;
      _ ← (if high_order reg then ide_write fuel channel ATA_REG_CONTROL (u8 (Z.lor 0x80 (ch_nIEN c))) else mret tt);
      _ ← (match port_of c reg with Some p => on_bus (outb p data) | None => mret tt end);
      if high_order reg then ide_write fuel channel ATA_REG_CONTROL (ch_nIEN c) else mret tt
  end.

Definition ide_read (channel reg : Z) : st I Z :=
  c ← channel_of channel;
  _ ← (if high_order reg then ide_write 2 channel ATA_REG_CONTROL (u8 (Z.lor 0x80 (ch_nIEN c))) else mret tt);
  result ← (match port_of c reg with Some p => on_bus (inb p) | None => mret 0 end);
  _ ← (if high_order reg then ide_write 2 channel ATA_REG_CONTROL (ch_nIEN c) else mret tt);
  mret result.

(** The buffer is [ide_buf]. *)
Definition store_buf (l : list Z) : st I unit :=
  s ← get;
  if (length l <=? length (ide_buf s))%nat then put (Ide (channels s) (ide_devices s) (l ++ drop (length l) (ide_buf s)) (bus s))
  else fault.

Definition ide_read_buffer (channel reg : Z) (quads : nat) : st I unit :=
  c ← channel_of channel;
  _ ← (if high_order reg then ide_write 2 channel ATA_REG_CONTROL (u8 (Z.lor 0x80 (ch_nIEN c))) else mret tt);
  _ ← (match port_of c reg with Some p => l ← on_bus (insl p quads); store_buf l | None => mret tt end);
  if high_order reg then ide_write 2 channel ATA_REG_CONTROL (ch_nIEN c) else mret tt.

(** ** Polling *)

Fixpoint repeat_read (n : nat) (channel reg : Z) : st I unit :=
  match n with O => mret tt | S n => _ ← ide_read channel reg; repeat_read n channel reg end.

Definition has (b v : Z) : bool := negb (Z.land v b =? 0).

Fixpoint wait_not_busy (fuel : nat) (channel : Z) : st I unit :=
  match fuel with
  | O => lift NoFuel
  | S fuel => s ← ide_read channel ATA_REG_STATUS; if has ATA_SR_BSY s then wait_not_busy fuel channel else mret tt
  end.

Definition ide_polling (fuel : nat) (channel : Z) (advanced_check : bool) : st I Z :=
  _ ← repeat_read 4 channel ATA_REG_ALTSTATUS;
  _ ← wait_not_busy fuel channel;
  if advanced_check then
    state ← ide_read channel ATA_REG_STATUS;
    if has ATA_SR_ERR state then mret 2
    else if has ATA_SR_DF state then mret 1
    else if Z.land state ATA_SR_DRQ =? 0 then mret 3
    else mret 0
  else mret 0.

(** The tests of the error register, in their order: the last one that holds decides. *)
Definition error_tests : list (Z * Z) :=
  [(ATA_ER_AMNF, 7); (ATA_ER_TK0NF, 3); (ATA_ER_ABRT, 20); (ATA_ER_MCR, 3); (ATA_ER_IDNF, 21); (ATA_ER_MC, 3);
   (ATA_ER_UNC, 22); (ATA_ER_BBK, 13)].

Definition ide_print_error (drive err : Z) : st I Z :=
  if err =? 0 then mret err
  else
    s ← get;
    d ← checked (ide_devices s !! Z.to_nat drive);
    err ← (if err =? 1 then mret 19
           else if err =? 2 then
             r ← ide_read (d_Channel d) ATA_REG_ERROR;
             mret (foldl (fun err t => if has t.1 r then t.2 else err) err error_tests)
           else if err =? 3 then mret 23
           else if err =? 4 then mret 8
           else mret err);
    (* the names of the channel and of the drive come from arrays of two *)
    if (2 <=? d_Channel d) || (2 <=? d_Drive d) then fault else mret err.

(** ** Identifying the drives *)

Definition set_channels (l : list IDEChannelRegisters) : st I unit :=
  modify (fun s => Ide l (ide_devices s) (ide_buf s) (bus s)).

(** [ide_devices[count].f = v] *)
Definition set_device (count : nat) (f : ide_device -> ide_device) : st I unit :=
  s ← get;
  d ← checked (ide_devices s !! count);
  put (Ide (channels s) (<[count := f d]> (ide_devices s)) (ide_buf s) (bus s)).

Definition not_reserved (d : ide_device) : ide_device :=
  Ide_device 0 (d_Channel d) (d_Drive d) (d_Type d) (d_Signature d) (d_Capabilities d) (d_CommandSets d) (d_Size d) (d_Model d).

(** The loop for the answer: [true] when it is an error. *)
Fixpoint wait_identify (fuel : nat) (i : Z) : st I bool :=
  match fuel with
  | O => lift NoFuel
  | S fuel =>
      status ← ide_read i ATA_REG_STATUS;
      if has ATA_SR_ERR status then mret true
      else if negb (has ATA_SR_BSY status) && has ATA_SR_DRQ status then mret false
      else wait_identify fuel i
  end.

Definition field (o n : nat) (l : list Z) : Z := of_le (take n (drop o l)).

(** The bytes of each pair are swapped; the last byte is NUL. *)
Fixpoint swap_pairs (n : nat) (l : list Z) : list Z :=
  match n, l with S n, a :: b :: l => b :: a :: swap_pairs n l | _, _ => [] end.

Definition device_info (i j type : Z) (buf : list Z) : ide_device :=
  let sets := field ATA_IDENT_COMMANDSETS 4 buf in
  Ide_device 1 i j type (field ATA_IDENT_DEVICETYPE 2 buf) (field ATA_IDENT_CAPABILITIES 2 buf) sets
    (if has (Z.shiftl 1 26) sets then field ATA_IDENT_MAX_LBA_EXT 4 buf else field ATA_IDENT_MAX_LBA 4 buf)
    (swap_pairs 20 (drop ATA_IDENT_MODEL buf) ++ [0]).

(** The body of the loops over the channels and their drives; the local carried is [count]. *)
Definition probe (fuel : nat) (i j : Z) (count : nat) : st I nat :=
  _ ← set_device count not_reserved;
  _ ← ide_write 2 i ATA_REG_HDDEVSEL (Z.lor 0xA0 (Z.shiftl j 4));
  _ ← ide_write 2 i ATA_REG_COMMAND ATA_CMD_IDENTIFY;
  status ← ide_read i ATA_REG_STATUS;
  if status =? 0 then mret count
  else
    err ← wait_identify fuel i;
    type ← (if err : bool then
              cl ← ide_read i ATA_REG_LBA1;
              ch ← ide_read i ATA_REG_LBA2;
              if (cl =? 0x14) && (ch =? 0xEB) || (cl =? 0x69) && (ch =? 0x96) then
                _ ← ide_write 2 i ATA_REG_COMMAND ATA_CMD_IDENTIFY_PACKET;
                mret (Some IDE_ATAPI)
              else mret None
            else mret (Some IDE_ATA));
    match type with
    | None => mret count
    | Some type =>
        _ ← ide_read_buffer i ATA_REG_DATA 128;
        s ← get;
        _ ← set_device count (fun _ => device_info i j type (ide_buf s));
        mret (count + 1)%nat
    end.

(** [(BAR & 0xFFFFFFFC) + d * (!BAR)], in an unsigned short *)
Definition from_bar (bar d : Z) : Z := u16 (Z.land bar 0xFFFFFFFC + (if bar =? 0 then d else 0)).

Definition ide_initialize (fuel : nat) (BAR0 BAR1 BAR2 BAR3 BAR4 : Z) : st I unit :=
  s ← get;
  let n i := default 0 (ch_nIEN <$> channels s !! i) in
  _ ← set_channels [Channel_regs (from_bar BAR0 0x1F0) (from_bar BAR1 0x3F4) (u16 (Z.land BAR4 0xFFFFFFFC + 0)) (n 0%nat);
                    Channel_regs (from_bar BAR2 0x170) (from_bar BAR3 0x374) (u16 (Z.land BAR4 0xFFFFFFFC + 8)) (n 1%nat)];
  _ ← ide_write 2 ATA_PRIMARY ATA_REG_CONTROL 2;
  _ ← ide_write 2 ATA_SECONDARY ATA_REG_CONTROL 2;
  count ← probe fuel 0 0 0;
  count ← probe fuel 0 1 count;
  count ← probe fuel 1 0 count;
  _ ← probe fuel 1 1 count;
  mret tt.

End Driver.

(** ** The interrupt of the disk ([pioutil.c]) *)

(** The end of the interrupt, [EOI], goes to both controllers. *)
Definition ide_handler {D} `{Bus D} (irq : Z) : st D irq_stat_t :=
  _ ← outb 0x20 0x20;
  _ ← outb 0xA0 0x20;
  mret IRQ_ENABLE.

(** The addresses of [ide_handler] and of [ide_info]. *)
Definition ide_enable (handler info : Z) : st irqs unit :=
  _ ← interrupt_install_handler 14 IRQ_EXCL (driver handler) info;
  enable_irq 14.

(** What is printed for each bit of [error_reg] is left out. *)
Definition ata_status_check (operation error_reg status_reg : Z) : Z :=
  if negb (Z.land status_reg 0x1 =? 0) && (Z.land status_reg 0x80 =? 0) then 1 else 0.

(** ** The size of the disk *)

(** The fields of [struct partition] that are used, at byte [0x1BE] of the sector. *)
Definition start_sector_at : nat := 454.
Definition nr_sectors_at : nat := 458.

Definition put_field (o : nat) (v : Z) (buf : list Z) : list Z := take o buf ++ le_bytes 4 v ++ drop (o + 4) buf.

Definition signed_table (buf : list Z) : bool :=
  (default 0 (buf !! 510%nat) =? 0x55) && (default 0 (buf !! 511%nat) =? 0xAA).

Section Size.
Context {B D : Type} `{Bus B} `{PioDrive D}.

(** The state: the driver above and the disk; [cmos] as for [ata_nr_drives].  The
    second result is [*start_sector], when it is set. *)
Definition ata_disk_size (fuel : nat) (cmos drive : Z) : st (ide B * D) (Z * option Z) := fun s =>
  let (i, d) := s in
  if ata_nr_drives cmos =? 0 then Ret ((0, None), s)
  else
    '(_, buf) ← ata_read d drive 0;
    if negb (signed_table buf) then
      '(_, i) ← ide_initialize fuel 0x1F0 0x3F4 0x170 0x374 0 i;
      match ide_devices i !! 0%nat with
      | None => Fault
      | Some dev =>
          if d_Size dev =? 0 then Panic
          else
            let buf := put_field nr_sectors_at (d_Size dev) buf in
            let buf := put_field start_sector_at BLOCK_START buf in
            let buf := <[511%nat := 0xAA]> (<[510%nat := 0x55]> buf) in
            '(_, d) ← ata_write d drive 0 buf;
            '(_, back) ← ata_read d drive 0;
            if negb (signed_table back) then Panic
            else Ret ((u32 (field nr_sectors_at 4 back * 512), Some BLOCK_START), (i, d))
      end
    else Ret ((u32 (field nr_sectors_at 4 buf * 512), Some (field start_sector_at 4 buf)), (i, d)).

End Size.
