(* ===== verification/IdeSpec.v ===== *)
(** * What finding the drives does

    The laws a controller keeps when it is asked to identify its drives, the table
    [ide_initialize] makes of them, and the partition table that [ata_disk_size]
    installs. *)

From S2P Require Import Prelude Device Layout Alloc Ide.

(** ** The ports *)

Definition base_port (i : Z) : Z := if i =? 0 then 0x1F0 else 0x170.
Definition ctrl_port (i : Z) : Z := if i =? 0 then 0x3F6 else 0x376.
Definition unit_no (i : Z) : Prop := i = 0 \/ i = 1.

(** [ide_write] calls itself for the control register only, which needs no further call. *)
Lemma ide_write_depth {D} `{Bus D} n channel reg v (s : ide D) : (2 <= n)%nat -> ide_write n channel reg v s = ide_write 2 channel reg v s.
Proof. intros Hn. destruct n as [|[|n]]; [lia..|]. done. Qed.

(** A drive: whether it takes packets, and the block it identifies itself with. *)
Record ata := Ata { is_packet : bool; ident : list Z }.

(** What a controller does when a drive is selected and asked to identify itself: without a
    drive the status is 0; a drive is busy for a number of reads, then offers its block, or, a packet
    device, reports an error with its signature in the address registers and offers the block when
    asked by the other command. *)
Class AtaLaws (D : Type) `{Bus D} := {
  present : Z -> Z -> option ata;
  patience : nat;
  at_rest : D -> Prop;
  addressed : Z -> Z -> D -> Prop;
  absent : Z -> D -> Prop;
  asked : Z -> Z -> nat -> D -> Prop;
  offered : Z -> Z -> D -> Prop;
  ident_length i j a : present i j = Some a -> length (ident a) = 512%nat;
  control_law i v d : unit_no i -> at_rest d -> exists d', outb (ctrl_port i) v d = Ret (tt, d') /\ at_rest d';
  select_law i j d : unit_no i -> unit_no j -> at_rest d ->
    exists d', outb (base_port i + 6) (Z.lor 0xA0 (Z.shiftl j 4)) d = Ret (tt, d') /\ addressed i j d';
  identify_law i j d : addressed i j d ->
    exists d', outb (base_port i + 7) ATA_CMD_IDENTIFY d = Ret (tt, d') /\
      match present i j with None => absent i d' | Some _ => exists n, (n <= patience)%nat /\ asked i j n d' end;
  absent_law i d : absent i d -> exists d', inb (base_port i + 7) d = Ret (0, d') /\ at_rest d';
  busy_law i j n d : asked i j (S n) d ->
    exists v d', inb (base_port i + 7) d = Ret (v, d') /\ has ATA_SR_BSY v = true /\ has ATA_SR_ERR v = false /\ asked i j n d';
  settled_law i j a d : present i j = Some a -> asked i j 0 d ->
    exists v d', inb (base_port i + 7) d = Ret (v, d') /\ has ATA_SR_ERR v = is_packet a /\
      (is_packet a = false -> has ATA_SR_BSY v = false /\ has ATA_SR_DRQ v = true) /\ asked i j 0 d';
  signature_law i j a d : present i j = Some a -> is_packet a = true -> asked i j 0 d ->
    exists d1 d2, inb (base_port i + 4) d = Ret (0x14, d1) /\ inb (base_port i + 5) d1 = Ret (0xEB, d2) /\ asked i j 0 d2;
  packet_law i j a d : present i j = Some a -> is_packet a = true -> asked i j 0 d ->
    exists d', outb (base_port i + 7) ATA_CMD_IDENTIFY_PACKET d = Ret (tt, d') /\ offered i j d';
  direct_law i j a d : present i j = Some a -> is_packet a = false -> asked i j 0 d -> offered i j d;
  data_law i j a d : present i j = Some a -> offered i j d ->
    exists d', insl (base_port i) 128 d = Ret (ident a, d') /\ at_rest d'
}.

(** ** Fields of the block *)

Lemma field_app o n (l r : list Z) : (o + n <= length l)%nat -> field o n (l ++ r) = field o n l.
Proof. intros H. unfold field. rewrite drop_app_le, take_app_le by (rewrite ?length_drop; lia). done. Qed.

Lemma swap_pairs_app n : forall l r, (2 * n <= length l)%nat -> swap_pairs n (l ++ r) = swap_pairs n l.
Proof.
  induction n as [|n IH]; intros l r H; [done|]. destruct l as [|a [|b l]]; cbn [length] in H; [lia..|].
  cbn [swap_pairs app]. rewrite IH by lia. done.
Qed.

Lemma device_info_app i j t l r : length l = 512%nat -> device_info i j t (l ++ r) = device_info i j t l.
Proof.
  intros Hl. unfold device_info. rewrite !field_app by (rewrite Hl; cbv; lia).
  rewrite drop_app_le by (rewrite Hl; cbv; lia). rewrite swap_pairs_app; [done|]. rewrite length_drop, Hl. cbv. lia.
Qed.

Section Probe.
Context {D : Type} `{HL : AtaLaws D}.

Abbreviation I := (ide D).

(** The ports of the two channels. *)
Record ported (s : I) : Prop := {
  po_channels : exists b0 n0 b1 n1, channels s = [Channel_regs 0x1F0 0x3F4 b0 n0; Channel_regs 0x170 0x374 b1 n1];
  po_devices : length (ide_devices s) = 4%nat;
  po_buf : length (ide_buf s) = 2048%nat
}.

Definition with_bus (d : D) (s : I) : I := Ide (channels s) (ide_devices s) (ide_buf s) d.

Lemma ported_bus d s : ported s -> ported (with_bus d s).
Proof. by intros []. Qed.

Lemma channel_run s i : ported s -> unit_no i ->
  exists c, channel_of i s = Ret (c, s) /\ ch_base c = base_port i /\ ch_ctrl c + 2 = ctrl_port i.
Proof.
  intros [(b0 & n0 & b1 & n1 & Hc) _ _] Hi. unfold channel_of, mbind, st_bind, get. rewrite Hc.
  destruct Hi as [-> | ->]; eexists; by split.
Qed.

Lemma low_port c reg : 0 <= reg < 8 -> high_order reg = false /\ port_of c reg = Some (ch_base c + reg).
Proof.
  intros Hr. unfold high_order, port_of. assert ((reg <? 8) = true) as -> by lia.
  assert ((0x07 <? reg) = false) as -> by lia. by rewrite Z.sub_0_r.
Qed.

Lemma write_low s i reg v d : ported s -> unit_no i -> 0 <= reg < 8 -> outb (base_port i + reg) v (bus s) = Ret (tt, d) ->
  ide_write 2 i reg v s = Ret (tt, with_bus d s).
Proof.
  intros Hp Hi Hr E. destruct (channel_run s i Hp Hi) as (c & Ec & Eb & _). destruct (low_port c reg Hr) as [Hh Hpt].
  rewrite <- Eb in E. cbn [ide_write]. unfold mbind, st_bind. rewrite Ec, Hh, Hpt. unfold mret, st_ret, on_bus. by rewrite E.
Qed.

Lemma write_control s i v d : ported s -> unit_no i -> outb (ctrl_port i) v (bus s) = Ret (tt, d) ->
  ide_write 2 i ATA_REG_CONTROL v s = Ret (tt, with_bus d s).
Proof.
  intros Hp Hi E. destruct (channel_run s i Hp Hi) as (c & Ec & _ & Ek). cbn [ide_write].
  change (high_order ATA_REG_CONTROL) with false. unfold mbind, st_bind. rewrite Ec.
  assert (port_of c ATA_REG_CONTROL = Some (ctrl_port i)) as ->.
  { rewrite <- Ek. unfold port_of, ATA_REG_CONTROL. cbn. f_equal. lia. }
  unfold mret, st_ret, on_bus. by rewrite E.
Qed.

Lemma read_low s i reg v d : ported s -> unit_no i -> 0 <= reg < 8 -> inb (base_port i + reg) (bus s) = Ret (v, d) ->
  ide_read i reg s = Ret (v, with_bus d s).
Proof.
  intros Hp Hi Hr E. destruct (channel_run s i Hp Hi) as (c & Ec & Eb & _). destruct (low_port c reg Hr) as [Hh Hpt].
  rewrite <- Eb in E. unfold ide_read, mbind, st_bind. rewrite Ec, Hh, Hpt. unfold mret, st_ret, on_bus. by rewrite E.
Qed.

Definition with_buf (l : list Z) (s : I) : I := Ide (channels s) (ide_devices s) (l ++ drop (length l) (ide_buf s)) (bus s).

Lemma read_block s i l d : ported s -> unit_no i -> length l = 512%nat -> insl (base_port i) 128 (bus s) = Ret (l, d) ->
  ide_read_buffer i ATA_REG_DATA 128 s = Ret (tt, with_buf l (with_bus d s)).
Proof.
  intros Hp Hi Hl E. destruct (channel_run s i Hp Hi) as (c & Ec & Eb & _).
  destruct (low_port c ATA_REG_DATA ltac:(unfold ATA_REG_DATA; lia)) as [Hh Hpt]. unfold ATA_REG_DATA in *.
  rewrite Eb, Z.add_0_r in Hpt. unfold ide_read_buffer, mbind, st_bind. rewrite Ec, Hh, Hpt. unfold mret, st_ret, on_bus. rewrite E.
  unfold store_buf, mbind, st_bind, get. cbn [ide_buf]. unfold with_buf. cbn [ide_buf with_bus]. rewrite Hl, (po_buf _ Hp). reflexivity.
Qed.

(** ** One drive *)

Lemma wait_run s i j a n fuel : ported s -> unit_no i -> present i j = Some a -> asked i j n (bus s) -> (n < fuel)%nat ->
  exists d, wait_identify fuel i s = Ret (is_packet a, with_bus d s) /\ asked i j 0 d.
Proof.
  intros Hp Hi Ha. revert s fuel Hp. induction n as [|n IH]; intros s fuel Hp Hs Hf; (destruct fuel as [|fuel]; [lia|]);
    cbn [wait_identify]; unfold mbind, st_bind.
  - destruct (settled_law i j a _ Ha Hs) as (v & d & E & He & Hd & Hs'). exists d. split; [|done].
    change ATA_REG_STATUS with 7. rewrite (read_low s i 7 v d Hp Hi ltac:(lia) E). rewrite He.
    destruct (is_packet a); [done|]. destruct (Hd eq_refl) as [-> ->]. done.
  - destruct (busy_law i j n _ Hs) as (v & d & E & Hb & He & Hs').
    change ATA_REG_STATUS with 7. rewrite (read_low s i 7 v d Hp Hi ltac:(lia) E). rewrite He, Hb. cbn [negb andb].
    destruct (IH (with_bus d s) fuel (ported_bus d s Hp) Hs' ltac:(lia)) as (d' & E' & H'). exists d'. by split.
Qed.

(** A drive that reports neither an error nor data is waited for without end. *)
Lemma wait_unready (stuck : D -> Prop) i fuel : unit_no i ->
  (forall d, stuck d -> exists v d', inb (base_port i + 7) d = Ret (v, d') /\ has ATA_SR_ERR v = false /\
     (has ATA_SR_BSY v = true \/ has ATA_SR_DRQ v = false) /\ stuck d') ->
  forall s, ported s -> stuck (bus s) -> wait_identify fuel i s = NoFuel.
Proof.
  intros Hi Hst. induction fuel as [|fuel IH]; intros s Hp Hs; [done|]. cbn [wait_identify].
  destruct (Hst _ Hs) as (v & d & E & He & Hv & Hs'). unfold mbind, st_bind. change ATA_REG_STATUS with 7.
  rewrite (read_low s i 7 v d Hp Hi ltac:(lia) E), He.
  assert ((negb (has ATA_SR_BSY v) && has ATA_SR_DRQ v)%bool = false) as ->.
  { destruct Hv as [-> | ->]; [done|]. by rewrite andb_false_r. }
  apply IH; [by apply ported_bus|done].
Qed.

(** What the table says of a drive. *)
Definition info (i j : Z) (a : ata) : ide_device :=
  device_info i j (if is_packet a then IDE_ATAPI else IDE_ATA) (ident a).

Definition cleared (count : nat) (l : list ide_device) : list ide_device :=
  match l !! count with Some d => <[count := not_reserved d]> l | None => l end.

Definition probed (i j : Z) (count : nat) (l : list ide_device) : nat * list ide_device :=
  match present i j with
  | None => (count, cleared count l)
  | Some a => ((count + 1)%nat, <[count := info i j a]> l)
  end.

Lemma set_device_run (s : I) count f x : ide_devices s !! count = Some x ->
  set_device count f s = Ret (tt, Ide (channels s) (<[count := f x]> (ide_devices s)) (ide_buf s) (bus s)).
Proof. intros E. unfold set_device, mbind, st_bind, get. by rewrite E. Qed.

(** The first status read is not 0, and uses up at most one busy answer. *)
Lemma first_status i j a n d : present i j = Some a -> asked i j n d ->
  exists v d' m, inb (base_port i + 7) d = Ret (v, d') /\ (v =? 0) = false /\ asked i j m d' /\ (m <= n)%nat.
Proof.
  intros Ha Hs. assert (forall b w, has b w = true -> (w =? 0) = false) as Hnz.
  { intros b w Hw. apply Z.eqb_neq. by intros ->. }
  destruct n as [|n].
  - destruct (settled_law i j a d Ha Hs) as (v & d' & E & He & Hd & Hs'). exists v, d', 0%nat. split; [done|]. split; [|done].
    destruct (is_packet a) eqn:Hk; [by apply (Hnz ATA_SR_ERR)|]. apply (Hnz ATA_SR_DRQ). by apply Hd.
  - destruct (busy_law i j n d Hs) as (v & d' & E & Hb & _ & Hs'). exists v, d', n. split; [done|].
    split; [by apply (Hnz ATA_SR_BSY)|]. split; [done|lia].
Qed.

(** Telling packet devices by their signature, and asking them again. *)
Lemma kind_run s i j a : ported s -> unit_no i -> present i j = Some a -> asked i j 0 (bus s) ->
  exists d, offered i j d /\
    ((if is_packet a then
        cl ← ide_read i ATA_REG_LBA1;
        ch ← ide_read i ATA_REG_LBA2;
        if (cl =? 0x14) && (ch =? 0xEB) || (cl =? 0x69) && (ch =? 0x96) then
          _ ← ide_write 2 i 7 ATA_CMD_IDENTIFY_PACKET;
          mret (Some IDE_ATAPI)
        else mret None
      else mret (Some IDE_ATA)) : st I (option Z)) s = Ret (Some (if is_packet a then IDE_ATAPI else IDE_ATA), with_bus d s).
Proof.
  intros Hp Hi Ha Hs. destruct (is_packet a) eqn:Hk.
  - destruct (signature_law i j a _ Ha Hk Hs) as (d1 & d2 & E1 & E2 & H2).
    destruct (packet_law i j a d2 Ha Hk H2) as (d3 & E3 & H3). exists d3. split; [done|].
    unfold mbind, st_bind. change ATA_REG_LBA1 with 4. change ATA_REG_LBA2 with 5.
    rewrite (read_low s i 4 _ d1 Hp Hi ltac:(lia) E1).
    rewrite (read_low (with_bus d1 s) i 5 _ d2 (ported_bus _ _ Hp) Hi ltac:(lia) E2). cbn [Z.eqb Pos.eqb andb orb].
    by rewrite (write_low (with_bus d2 (with_bus d1 s)) i 7 _ d3 (ported_bus _ _ (ported_bus _ _ Hp)) Hi ltac:(lia) E3).
  - exists (bus s). split; [by apply (direct_law i j a)|]. by destruct s.
Qed.

Lemma probe_run s i j count fuel : ported s -> unit_no i -> unit_no j -> at_rest (bus s) -> (count < 4)%nat ->
  (patience < fuel)%nat ->
  exists s', probe fuel i j count s = Ret ((probed i j count (ide_devices s)).1, s') /\ ported s' /\ at_rest (bus s') /\
    ide_devices s' = (probed i j count (ide_devices s)).2.
Proof.
  intros Hp Hi Hj Hr Hc Hf. destruct (lookup_lt_is_Some_2 (ide_devices s) count) as [x Ex]; [by rewrite (po_devices _ Hp)|].
  unfold probe. unfold mbind at 1, st_bind at 1. rewrite (set_device_run s count not_reserved x Ex).
  set (s1 := Ide _ _ _ _). assert (ported s1) as Hp1 by (destruct Hp; split; cbn; [done|by rewrite length_insert|done]).
  assert (ide_devices s1 = cleared count (ide_devices s)) as Hd1 by (unfold cleared; by rewrite Ex).
  destruct (select_law i j (bus s1) Hi Hj Hr) as (d2 & E2 & H2).
  unfold mbind at 1, st_bind at 1. change ATA_REG_HDDEVSEL with 6.
  rewrite (write_low s1 i 6 _ d2 Hp1 Hi ltac:(lia) E2). set (s2 := with_bus d2 s1).
  destruct (identify_law i j d2 H2) as (d3 & E3 & H3). unfold mbind at 1, st_bind at 1. change ATA_REG_COMMAND with 7.
  assert (ported s2) as Hp2 by by apply ported_bus.
  rewrite (write_low s2 i 7 _ d3 Hp2 Hi ltac:(lia) E3). set (s3 := with_bus d3 s2).
  assert (ported s3) as Hp3 by by apply ported_bus.
  unfold mbind at 1, st_bind at 1. change ATA_REG_STATUS with 7. unfold probed.
  destruct (present i j) as [a|] eqn:Ha.
  2: { destruct (absent_law i d3 H3) as (d4 & E4 & H4). rewrite (read_low s3 i 7 0 d4 Hp3 Hi ltac:(lia) E4). cbn [Z.eqb].
       exists (with_bus d4 s3). split; [done|]. split; [by apply ported_bus|]. split; [exact H4|exact Hd1]. }
  destruct H3 as (n & Hn & H3).
  destruct (first_status i j a n d3 Ha H3) as (v & d4 & m & E4 & Hv & H4 & Hm).
  rewrite (read_low s3 i 7 v d4 Hp3 Hi ltac:(lia) E4), Hv. set (s4 := with_bus d4 s3).
  assert (ported s4) as Hp4 by by apply ported_bus.
  destruct (wait_run s4 i j a m fuel Hp4 Hi Ha H4 ltac:(lia)) as (d5 & E5 & H5).
  unfold mbind at 1, st_bind at 1. rewrite E5. set (s5 := with_bus d5 s4). assert (ported s5) as Hp5 by by apply ported_bus.
  destruct (kind_run s5 i j a Hp5 Hi Ha H5) as (d6 & H6 & E6).
  unfold mbind at 1, st_bind at 1. change ATA_REG_COMMAND with 7. rewrite E6.
  destruct (data_law i j a d6 Ha H6) as (d7 & E7 & H7).
  unfold mbind at 1, st_bind at 1.
  rewrite (read_block (with_bus d6 s5) i (ident a) d7 (ported_bus _ _ Hp5) Hi (ident_length i j a Ha) E7).
  set (s6 := with_buf _ _). unfold mbind at 1, st_bind at 1, get.
  assert (ide_devices s6 !! count = Some (not_reserved x)) as Ex6.
  { change (ide_devices s6) with (ide_devices s1). cbn. rewrite list_lookup_insert_eq; [done|]. by rewrite (po_devices _ Hp). }
  unfold mbind at 1, st_bind at 1. rewrite (set_device_run s6 count _ _ Ex6). eexists. split; [reflexivity|].
  cbn [ide_devices channels ide_buf bus]. split; [|split; [exact H7|]].
  - destruct Hp5 as [Hc5 Hl5 Hb5]. split; cbn [channels ide_devices ide_buf]; [exact Hc5|by rewrite length_insert|].
    unfold s6, with_buf. cbn [ide_buf with_bus]. rewrite length_app, length_drop, (ident_length i j a Ha).
    change (ide_buf s5) with (ide_buf s1). rewrite (po_buf _ Hp1). reflexivity.
  - unfold s6, with_buf. cbn [ide_buf]. rewrite device_info_app by by apply (ident_length i j).
    change (ide_devices (with_buf (ident a) (with_bus d7 (with_bus d6 s5)))) with (ide_devices s1). cbn.
    by rewrite list_insert_insert_eq.
Qed.

(** ** All of them *)

(** The four positions in the order of the loops, and the drives there. *)
Definition positions : list (Z * Z) := [(0, 0); (0, 1); (1, 0); (1, 1)].

Definition found_at (ij : Z * Z) : option ide_device := info ij.1 ij.2 <$> present ij.1 ij.2.

Definition found : list ide_device := omap found_at positions.

(** The table after some positions: the devices found, then free entries. *)
Definition lists (l : list ide_device) (t : list ide_device) : Prop :=
  length t = 4%nat /\ take (length l) t = l /\ Forall (fun d => d_Reserved d = 0) (drop (length l) t).

Lemma probed_lists i j l t : lists l t -> (length l < 4)%nat ->
  let r := probed i j (length l) t in let l' := l ++ option_list (found_at (i, j)) in r.1 = length l' /\ lists l' r.2.
Proof.
  intros (Hl & Ht & Hd) Hlt. destruct (lookup_lt_is_Some_2 t (length l)) as [x Ex]; [lia|].
  assert (forall y, take (length l) (<[length l := y]> t) = l) as Htake.
  { intros y. by rewrite take_insert_ge by lia. }
  assert (forall y, drop (length l) (<[length l := y]> t) = y :: drop (Datatypes.S (length l)) t) as Hdrop.
  { intros y. rewrite (drop_S _ y) by (apply list_lookup_insert_eq; lia). by rewrite drop_insert_lt by lia. }
  rewrite (drop_S _ _ _ Ex) in Hd. apply Forall_cons in Hd as [_ Hd].
  cbv zeta. unfold probed, found_at, cleared. cbn [fst snd]. destruct (present i j) as [a|]; cbn [fmap option_fmap option_map option_list fst snd].
  - rewrite length_app. cbn [length]. split; [done|]. split; [by rewrite length_insert|]. rewrite length_app. cbn [length].
    rewrite Nat.add_1_r. split.
    + rewrite (take_S_r _ _ (info i j a)) by (apply list_lookup_insert_eq; lia). by rewrite Htake.
    + rewrite drop_insert_lt by lia. done.
  - rewrite app_nil_r, Ex. split; [done|]. split; [by rewrite length_insert|]. split; [apply Htake|]. rewrite Hdrop.
    by constructor.
Qed.

Lemma found_length n : (length (omap found_at (take n positions)) <= n)%nat.
Proof.
  transitivity (length (take n positions)); [|rewrite length_take; lia]. generalize (take n positions) as l.
  induction l as [|p l IH]; cbn [omap list_omap]; [done|]. destruct (found_at p); cbn [length]; lia.
Qed.

(** One position. *)
Lemma probe_lists s i j fuel n : ported s -> at_rest (bus s) -> (patience < fuel)%nat -> unit_no i -> unit_no j ->
  positions !! n = Some (i, j) -> lists (omap found_at (take n positions)) (ide_devices s) ->
  exists s', probe fuel i j (length (omap found_at (take n positions))) s =
      Ret (length (omap found_at (take (Datatypes.S n) positions)), s') /\
    ported s' /\ at_rest (bus s') /\ lists (omap found_at (take (Datatypes.S n) positions)) (ide_devices s').
Proof.
  intros Hp Hr Hf Hi Hj Hn Hl. pose proof (found_length n) as Hle. pose proof (lookup_lt_Some _ _ _ Hn) as Hlt. cbn in Hlt.
  destruct (probe_run s i j (length (omap found_at (take n positions))) fuel Hp Hi Hj Hr ltac:(lia) Hf) as (s' & E & Hp' & Hr' & Hd').
  destruct (probed_lists i j _ _ Hl ltac:(lia)) as [E1 H1]. exists s'.
  assert (omap found_at (take (Datatypes.S n) positions) =
    omap found_at (take n positions) ++ option_list (found_at (i, j))) as Eo.
  { rewrite (take_S_r _ _ _ Hn), omap_app. f_equal. }
  rewrite Eo, <- E1, Hd'. done.
Qed.

Lemma ide_initialize_run fuel s :
  (patience < fuel)%nat -> at_rest (bus s) -> length (channels s) = 2%nat -> length (ide_buf s) = 2048%nat ->
  length (ide_devices s) = 4%nat -> Forall (fun d => d_Reserved d = 0) (ide_devices s) ->
  exists s', ide_initialize fuel 0x1F0 0x3F4 0x170 0x374 0 s = Ret (tt, s') /\
    take (length found) (ide_devices s') = found /\ Forall (fun d => d_Reserved d = 0) (drop (length found) (ide_devices s')).
Proof.
  intros Hf Hr Hc Hb Hl Hfree. unfold ide_initialize, set_channels. unfold mbind at 1, st_bind at 1, get.
  unfold mbind at 1, st_bind at 1, modify. set (s0 := Ide _ _ _ _).
  assert (ported s0) as Hp0 by (split; [by do 4 eexists|done|done]).
  destruct (control_law 0 2 (bus s0) (or_introl eq_refl) Hr) as (d1 & E1 & H1).
  unfold mbind at 1, st_bind at 1, ATA_PRIMARY. rewrite (write_control s0 0 2 d1 Hp0 (or_introl eq_refl) E1).
  destruct (control_law 1 2 d1 (or_intror eq_refl) H1) as (d2 & E2 & H2). pose proof (ported_bus d1 _ Hp0) as Hp1.
  unfold mbind at 1, st_bind at 1, ATA_SECONDARY. rewrite (write_control _ 1 2 d2 Hp1 (or_intror eq_refl) E2).
  pose proof (ported_bus d2 _ Hp1) as Hp2. set (s2 := with_bus d2 _) in *.
  assert (lists (omap found_at (take 0 positions)) (ide_devices s2)) as L2 by done.
  destruct (probe_lists s2 0 0 fuel 0 Hp2 H2 Hf (or_introl eq_refl) (or_introl eq_refl) eq_refl L2) as (s3 & E3 & Hp3 & H3 & L3).
  destruct (probe_lists s3 0 1 fuel 1 Hp3 H3 Hf (or_introl eq_refl) (or_intror eq_refl) eq_refl L3) as (s4 & E4 & Hp4 & H4 & L4).
  destruct (probe_lists s4 1 0 fuel 2 Hp4 H4 Hf (or_intror eq_refl) (or_introl eq_refl) eq_refl L4) as (s5 & E5 & Hp5 & H5 & L5).
  destruct (probe_lists s5 1 1 fuel 3 Hp5 H5 Hf (or_intror eq_refl) (or_intror eq_refl) eq_refl L5) as (s6 & E6 & _ & _ & (_ & L6 & L6')).
  exists s6. split; [|by split]. unfold mbind, st_bind. change (length (omap found_at (take 0 positions))) with 0%nat in E3. by rewrite E3, E4, E5, E6.
Qed.


End Probe.

(** ** The partition table *)

Lemma length_put_field o v buf : (o + 4 <= length buf)%nat -> length (put_field o v buf) = length buf.
Proof. intros Ho. unfold put_field. rewrite !length_app, length_take, le_bytes_length, length_drop. lia. Qed.

Lemma field_put_field o v buf : (o + 4 <= length buf)%nat -> field o 4 (put_field o v buf) = v mod 2 ^ 32.
Proof.
  intros Ho. unfold field, put_field. rewrite drop_app_ge, length_take by (rewrite length_take; lia).
  replace (o - o `min` length buf)%nat with 0%nat by lia. rewrite drop_0, take_app_le by by rewrite le_bytes_length.
  rewrite take_ge by by rewrite le_bytes_length. rewrite of_le_bytes. done.
Qed.

Lemma field_insert o k b buf : (o + 4 <= k)%nat -> field o 4 (<[k := b]> buf) = field o 4 buf.
Proof. intros Hk. unfold field. rewrite drop_insert_ge by lia. by rewrite take_insert_ge by lia. Qed.

Lemma field_put_after o o' v buf : (o + 4 <= o' \/ o' + 4 <= o)%nat -> (o' + 4 <= length buf)%nat -> field o 4 (put_field o' v buf) = field o 4 buf.
Proof.
  intros Ho Hl. unfold field, put_field. f_equal. apply list_eq. intros n.
  destruct (decide (n < 4)%nat) as [Hn|Hn].
  - rewrite !lookup_take_lt, !lookup_drop by done. destruct Ho as [Ho|Ho].
    + rewrite lookup_app_l by (rewrite length_take; lia). by rewrite lookup_take_lt by lia.
    + rewrite lookup_app_r, length_take by (rewrite length_take; lia). rewrite lookup_app_r, le_bytes_length by (rewrite le_bytes_length; lia).
      rewrite lookup_drop. f_equal. lia.
  - by rewrite !lookup_take_ge by lia.
Qed.

(** The sector [ata_disk_size] writes. *)
Definition installed (v : Z) (buf : list Z) : list Z :=
  <[511%nat := 0xAA]> (<[510%nat := 0x55]> (put_field start_sector_at BLOCK_START (put_field nr_sectors_at v buf))).

Lemma installed_spec v buf : length buf = 512%nat ->
  length (installed v buf) = 512%nat /\ signed_table (installed v buf) = true /\
  field nr_sectors_at 4 (installed v buf) = v mod 2 ^ 32 /\ field start_sector_at 4 (installed v buf) = BLOCK_START.
Proof.
  intros Hl. assert (nr_sectors_at + 4 <= 510 /\ start_sector_at + 4 <= 510)%nat as [H1 H2] by (cbv; lia).
  assert (start_sector_at + 4 <= nr_sectors_at)%nat as H3 by (cbv; lia).
  assert (length (put_field nr_sectors_at v buf) = 512%nat) as L1 by (rewrite length_put_field; lia).
  assert (length (put_field start_sector_at BLOCK_START (put_field nr_sectors_at v buf)) = 512%nat) as L2
    by (rewrite length_put_field; lia).
  unfold installed. split; [by rewrite !length_insert|]. split; [|split].
  - unfold signed_table. rewrite list_lookup_insert_ne, list_lookup_insert_eq by (rewrite ?length_insert; lia).
    by rewrite list_lookup_insert_eq by (rewrite length_insert; lia).
  - rewrite !field_insert, field_put_after by lia. apply field_put_field. lia.
  - rewrite !field_insert, field_put_field by lia. reflexivity.
Qed.

Section Size.
Context {B D : Type} `{HB : AtaLaws B} `{HD : PioDriveOk D}.

Lemma ata_read_block (d : D) drive b : block_ok drive b -> ata_read d drive b = Ret (0, block_content d drive b).
Proof.
  intros (_ & _ & Hs). unfold ata_read, block_content, sector_regs in *.
  by destruct (pio_read_ok d _ _ _ _ Hs) as (x & -> & _).
Qed.

Lemma ata_write_block (d : D) drive b x : block_ok drive b -> length x = 512%nat ->
  exists d', ata_write d drive b x = Ret (0, d') /\ block_content d' drive b = x /\
    forall dev' b', block_ok dev' b' -> (dev', b') <> (drive, b) -> block_content d' dev' b' = block_content d dev' b'.
Proof.
  intros Hok Hx. destruct (block_ok_wrap _ _ Hok) as [E1 E2]. destruct (dev_write_pio d drive b x Hok Hx) as (d' & E & Hr & Ho).
  exists d'. split; [|by split]. unfold dev_write in E. rewrite E1, E2 in E.
  destruct (ata_write d drive b x) as [[r d1]| | |] eqn:Ew; cbn in E; [|discriminate..].
  unfold ata_write in Ew. destruct (pio_write _ _ _ _ _ _); [|discriminate]. injection Ew as <- <-. by injection E as ->.
Qed.

(** The table is written, and found again. *)
Lemma size_installed fuel cmos drive (i : ide B) (d : D) dev l :
  ata_nr_drives cmos <> 0 -> block_ok drive 0 -> signed_table (block_content d drive 0) = false ->
  (patience < fuel)%nat -> at_rest (bus i) -> length (channels i) = 2%nat -> length (ide_buf i) = 2048%nat ->
  length (ide_devices i) = 4%nat -> Forall (fun x => d_Reserved x = 0) (ide_devices i) ->
  found = dev :: l -> 0 < d_Size dev < 2 ^ 32 ->
  exists i' d', ata_disk_size fuel cmos drive (i, d) = Ret ((u32 (d_Size dev * 512), Some BLOCK_START), (i', d')) /\
    ata_disk_size fuel cmos drive (i', d') = Ret ((u32 (d_Size dev * 512), Some BLOCK_START), (i', d')) /\
    field nr_sectors_at 4 (block_content d' drive 0) = d_Size dev /\
    forall dev' b', block_ok dev' b' -> (dev', b') <> (drive, 0) -> block_content d' dev' b' = block_content d dev' b'.
Proof.
  intros Hcm Hok Hs Hf Hr Hc Hb Hl Hfree Hfd Hsz.
  destruct (ide_initialize_run fuel i Hf Hr Hc Hb Hl Hfree) as (i' & Ei & Ht & _). rewrite Hfd in Ht.
  assert (ide_devices i' !! 0%nat = Some dev) as Hdev.
  { rewrite <- (lookup_take_lt _ (length (dev :: l))) by (cbn; lia). by rewrite Ht. }
  assert (length (block_content d drive 0) = 512%nat) as Hlen by exact (content_length (DeviceLaws := device_of_pio) d drive 0 Hok).
  destruct (installed_spec (d_Size dev) _ Hlen) as (Hl' & Hsig & Hnr & Hst).
  destruct (ata_write_block d drive 0 _ Hok Hl') as (d' & Ew & Hback & Hother).
  rewrite Z.mod_small in Hnr by lia. exists i', d'.
  assert (forall x, ata_disk_size fuel cmos drive (x, d') = Ret ((u32 (d_Size dev * 512), Some BLOCK_START), (x, d'))) as Hagain.
  { intros x. unfold ata_disk_size. rewrite (proj2 (Z.eqb_neq _ _) Hcm), ata_read_block by done.
    cbn [mbind outcome_bind]. by rewrite Hback, Hsig, Hst, Hnr. }
  split; [|split; [apply Hagain|split; [by rewrite Hback|exact Hother]]].
  unfold ata_disk_size. rewrite (proj2 (Z.eqb_neq _ _) Hcm), ata_read_block by done. cbn [mbind outcome_bind].
  rewrite Hs. cbn [negb]. rewrite Ei. cbn [mbind outcome_bind]. rewrite Hdev, (proj2 (Z.eqb_neq _ _)) by lia.
  fold (installed (d_Size dev) (block_content d drive 0)). rewrite Ew. cbn [mbind outcome_bind].
  rewrite ata_read_block by done. cbn [mbind outcome_bind]. by rewrite Hback, Hsig, Hnr.
Qed.

(** C28: On a disk without a partition table, the size of the disk is that of the first drive the
    controller has, in bytes modulo 2^32; it is written into a table whose partition starts at sector
    4096, no other block changes, and the next call finds the table and gives the same answer. *)
Theorem ata_disk_size_stable fuel cmos drive (i : ide B) (d : D) dev l :
  ata_nr_drives cmos <> 0 -> block_ok drive 0 -> signed_table (block_content d drive 0) = false ->
  (patience < fuel)%nat -> at_rest (bus i) -> length (channels i) = 2%nat -> length (ide_buf i) = 2048%nat ->
  length (ide_devices i) = 4%nat -> Forall (fun x => d_Reserved x = 0) (ide_devices i) ->
  found = dev :: l -> 0 < d_Size dev < 2 ^ 32 ->
  exists i' d', ata_disk_size fuel cmos drive (i, d) = Ret ((u32 (d_Size dev * 512), Some BLOCK_START), (i', d')) /\
    ata_disk_size fuel cmos drive (i', d') = Ret ((u32 (d_Size dev * 512), Some BLOCK_START), (i', d')) /\
    field nr_sectors_at 4 (block_content d' drive 0) = d_Size dev /\
    forall dev' b', block_ok dev' b' -> (dev', b') <> (drive, 0) -> block_content d' dev' b' = block_content d dev' b'.
Proof. apply size_installed. Qed.

End Size.

(** ** A controller with a disk and a packet device *)

Inductive phase := Quiet | Answering (n : nat) | Offering.

(** The drive selected, by channel and number. *)
Record controller := Controller { selected : Z * Z; state : phase }.

Definition block_of (l : list (nat * Z)) : list Z := foldr (fun e b => <[e.1 := e.2]> b) (replicate 512 0) l.

(** A disk of 20160 sectors as the first drive, a packet device as the third. *)
Definition drive_at (i j : Z) : option ata :=
  if (i =? 0) && (j =? 0) then Some (Ata false (block_of [(120%nat, 192); (121%nat, 78); (54%nat, 75); (55%nat, 81)]))
  else if (i =? 1) && (j =? 0) then Some (Ata true (block_of [(120%nat, 7)]))
  else None.

#[local] Instance controller_bus : Bus controller := {|
  inb p := fun c =>
    let (i, j) := selected c in
    if p =? base_port i + 7 then
      match drive_at i j, state c with
      | None, _ => Ret (0, c)
      | Some _, Answering (S n) => Ret (0x80, Controller (i, j) (Answering n))
      | Some a, _ => Ret (if is_packet a then 0x41 else 0x58, c)
      end
    else Ret (if p =? base_port i + 4 then 0x14 else if p =? base_port i + 5 then 0xEB else 0, c);
  outb p v := fun c =>
    if p =? 0x1F6 then Ret (tt, Controller (0, Z.shiftr (Z.land v 0x10) 4) Quiet)
    else if p =? 0x176 then Ret (tt, Controller (1, Z.shiftr (Z.land v 0x10) 4) Quiet)
    else if (p =? base_port (selected c).1 + 7) && (v =? ATA_CMD_IDENTIFY) then Ret (tt, Controller (selected c) (Answering 2))
    else if (p =? base_port (selected c).1 + 7) && (v =? ATA_CMD_IDENTIFY_PACKET) then Ret (tt, Controller (selected c) Offering)
    else Ret (tt, c);
  insl p n := fun c =>
    let (i, j) := selected c in
    match drive_at i j with Some a => Ret (ident a, Controller (i, j) Quiet) | None => Ret (replicate (4 * n) 0, c) end
|}.

Definition chosen (i j : Z) (c : controller) : Prop := unit_no i /\ unit_no j /\ selected c = (i, j).

#[local] Program Instance controller_laws : AtaLaws controller := {|
  present := drive_at;
  patience := 2;
  at_rest _ := True;
  addressed := chosen;
  absent i c := exists j, chosen i j c /\ drive_at i j = None;
  asked i j n c := chosen i j c /\ is_Some (drive_at i j) /\ state c = Answering n;
  offered i j c := chosen i j c
|}.
Next Obligation.
  intros i j a. unfold drive_at. destruct (_ && _); [by intros [= <-]|]. destruct (_ && _); [by intros [= <-]|done].
Qed.
Next Obligation. intros i v d [-> | ->] _; cbn; destruct (_ && _); eauto; destruct (_ && _); eauto. Qed.
Next Obligation. intros i j d [-> | ->] [-> | ->] _; eexists; (split; [reflexivity|]); repeat split; (by left) || by right. Qed.
Next Obligation.
  intros i j [sel ph] (Hi & Hj & E). cbn in E. subst sel. exists (Controller (i, j) (Answering 2)). split.
  - destruct Hi as [-> | ->]; reflexivity.
  - destruct (drive_at i j) eqn:Ha; [by exists 2%nat|]. by exists j.
Qed.
Next Obligation.
  intros i [sel ph] (j & (Hi & Hj & E) & Ha). cbn in E. subst sel. cbn. rewrite Z.eqb_refl, Ha. by eexists.
Qed.
Next Obligation.
  intros i j n [sel ph] ((Hi & Hj & E) & [a Ha] & Es). cbn in E, Es. subst sel ph. cbn. rewrite Z.eqb_refl, Ha.
  exists 128, (Controller (i, j) (Answering n)). split; [done|]. split; [done|]. split; [done|]. split; [done|]. split; [by exists a|done].
Qed.
Next Obligation.
  intros i j a [sel ph] Ha ((Hi & Hj & E) & _ & Es). cbn in E, Es. subst sel ph. cbn. rewrite Z.eqb_refl, Ha.
  eexists _, _. split; [reflexivity|].
  split; [by destruct (is_packet a)|]. split; [intros ->; by split|]. split; [done|]. split; [by exists a|done].
Qed.
Next Obligation.
  intros i j a [sel ph] Ha Hk ((Hi & Hj & E) & Hs & Es). cbn in E, Es. subst sel ph. cbn.
  exists (Controller (i, j) (Answering 0)), (Controller (i, j) (Answering 0)).
  split; [|split; [|exact (conj (conj Hi (conj Hj eq_refl)) (conj Hs eq_refl))]]; by destruct Hi as [-> | ->].
Qed.
Next Obligation.
  intros i j a [sel ph] Ha Hk ((Hi & Hj & E) & _ & Es). cbn in E, Es. subst sel ph.
  exists (Controller (i, j) Offering). split; [by destruct Hi as [-> | ->]|done].
Qed.
Next Obligation. by intros i j a c _ _ (Hc & _). Qed.
Next Obligation.
  intros i j a [sel ph] Ha (Hi & Hj & E). cbn in E. subst sel. cbn. rewrite Ha. by eexists.
Qed.


Lemma ata_disk_size_stable_witness :
  exists i' d', ata_disk_size 3 0x10 0 (ide_boot (Controller (0, 0) Quiet), (∅ : mem_drive)) = Ret ((10321920, Some BLOCK_START), (i', d')) /\
    ata_disk_size 3 0x10 0 (i', d') = Ret ((10321920, Some BLOCK_START), (i', d')).
Proof.
  destruct (ata_disk_size_stable 3 0x10 0 (ide_boot (Controller (0, 0) Quiet)) (∅ : mem_drive) (info 0 0 (Ata false
    (block_of [(120%nat, 192); (121%nat, 78); (54%nat, 75); (55%nat, 81)]))) (tail found)) as (i' & d' & E1 & E2 & _).
  - discriminate.
  - split; [lia|]. split; [unfold CHS_LIMIT, SPT, HPC; lia|exact I].
  - reflexivity.
  - cbn. lia.
  - exact I.
  - reflexivity.
  - reflexivity.
  - reflexivity.
  - by apply Forall_replicate.
  - reflexivity.
  - vm_compute. split; reflexivity.
  - exists i', d'. split; [exact E1|exact E2].
Defined.
