(* ===== verification/FsInit.v ===== *)
(** * File system start-up ([fs/init.c])

    [fs_init] sizes the disk, tries to open the file system of device 0, makes one
    when there is none, and opens it.  The state is that of the IDE driver and of
    the file system, whose medium is the same disk. *)

From S2P Require Import Prelude Errno Bits Device Block Layout Ide IdeSpec Alloc AllocSpec Mkfs Store StoreSpec StoreFs.

Definition FS_INIT_OK : Z := 0.
Definition FS_INIT_FAIL : Z := 1.

(** "/" *)
Definition root_path : list Z := [47].

Section Init.
Context {B D : Type} `{Bus B} `{PioDrive D}.

Definition on_fs {A} (m : st (fs D) A) : st (ide B * fs D) A := fun s =>
  '(a, f) ← m (snd s); Ret (a, (fst s, f)).

Definition fs_reset (cmos : Z) : st (fs D) unit :=
  let '(_, dev) := dev_open cmos 0 in
  _ ← cached (device_write dev BLOCK_START (replicate 512 0)); mret tt.

(** The call of [ata_disk_size], on the medium of the file system. *)
Definition size_disk (fuel : nat) (cmos : Z) : st (ide B * fs D) Z := fun s =>
  '((disk_size, _), (i, d)) ← ata_disk_size fuel cmos 0 (fst s, disk (bst (snd s)));
  Ret (disk_size, (i, set_bst (BState (cache (bst (snd s))) d) (snd s))).

(** [None]: after making a file system the function ends without a value. *)
Definition fs_init (fuel : nat) (cmos requested_size : Z) : st (ide B * fs D) (option Z) :=
  disk_size ← size_disk fuel cmos;
  if disk_size =? 0 then mret (Some FS_INIT_FAIL)
  else
    '(rtvl, dev) ← on_fs (inode_dev_open cmos (Some root_path) (Some 0));
    match rtvl with
    | INODE_INIT =>
        let disk_size := if requested_size <? disk_size then requested_size else disk_size in
        r ← on_fs (inode_mkfs cmos disk_size);
        match r with
        | INODE_OK =>
            '(r, _) ← on_fs (inode_dev_open cmos (Some root_path) dev);
            match r with INODE_OK => mret None | _ => mret (Some FS_INIT_FAIL) end
        | _ => mret (Some FS_INIT_FAIL)
        end
    | INODE_OK =>
        d ← checked dev;
        _ ← on_fs (master_set_dev (Some root_path) d);
        mret (Some FS_INIT_OK)
    | _ => mret (Some FS_INIT_FAIL)
    end.
End Init.

(** ** A device without a file system *)

Section Open.
Context {D : Type} `{DeviceLaws D}.

(** Opening a device whose master inode is zero reports it, and leaves every
    table empty. *)
Lemma open_blank cmos path (s : fs D) j w :
  init_master s = false -> init (cache (bst s)) = false ->
  0 <= highest (cache (bst s)) < BLOCK_MAX_LRU - Z.of_nat (S j) -> (w < 128)%nat ->
  dvalid 0 BLOCK_START -> content (disk (bst s)) 0 BLOCK_START = zeros ->
  exists σ, inode_dev_open cmos (Some path) (Some 0) s =
      Ret ((INODE_INIT, Some 0), sys σ free_entry zeros zeros (master_dev_tab s) (errno s)) /\
    0 <= highest (cache σ) < BLOCK_MAX_LRU - Z.of_nat j.
Proof.
  intros Hi Hc Hh Hw Hv Hz.
  destruct (block_open_spec (bst s) cmos path 0 (S j) Hc Hh) as (σ1 & E1 & Hd1 & _ & Hinv & Hr & Hview).
  change (snd (dev_open cmos 0)) with ((dev_open cmos 0).2) in E1. rewrite dev_open_first in E1.
  assert (ready (S j) (S w) (cache σ1)) as Hr1 by (apply (ready_weaken _ 128); [done|lia]).
  unfold inode_dev_open. unfold_st. rewrite (run_cache _ _ _ _ E1). cbn [block_bad checked].
  rewrite (sys_init (set_bst σ1 s) Hi). cbn [bst set_bst master_dev_tab errno]. fold zeros.
  rewrite sys_alloc, sys_get by done. rewrite sys_master.
  destruct (block_read_spec σ1 j w 0 BLOCK_START (enc master_inode_codec (set_m_dev 0 free_entry)) Hinv Hr1 Hv)
    as (σ2 & E2 & Hd2 & Hinv2 & Hr2 & _).
  erewrite sys_cached by exact E2. cbn beta iota. rewrite sys_set.
  rewrite Hview, Hz by done. cbn [block_bad]. rewrite sys_master.
  assert (magic (dec master_inode_codec zeros) = 0 /\ m_dev (dec master_inode_codec zeros) = 0) as [Hm Hdev]
    by (split; vm_compute; reflexivity).
  rewrite Hm. cbn [Z.eqb negb INODE_MAGIC].
  assert (device_read 0 BLOCK_START σ2 = Ret ((DEV_OK, zeros), σ2)) as E3.
  { unfold device_read. rewrite dev_read_content, Hd2, Hd1, Hz by done. done. }
  erewrite sys_cached by exact E3. cbn beta iota. rewrite sys_set. cbn [dev_bad].
  rewrite sys_master, Hm. change (negb (0 =? INODE_MAGIC)) with true. cbn beta iota. rewrite sys_free by done.
  exists σ2. split; [done|]. apply Hr2.
Qed.

Lemma reset_run cmos (s : fs D) : dvalid 0 BLOCK_START ->
  exists d, fs_reset cmos s = Ret (tt, on_medium d s) /\
    forall b, dvalid 0 b -> content d 0 b = if b =? BLOCK_START then zeros else content (medium s) 0 b.
Proof.
  intros Hv. destruct (run_device_write s 0 BLOCK_START zeros Hv) as (d & E & Hc); [apply length_replicate|].
  exists d. split; [|exact Hc]. unfold fs_reset. pose proof (dev_open_first cmos) as Hd.
  destruct (dev_open cmos 0) as [r dev]. cbn [snd] in Hd. subst dev.
  change (replicate 512 0) with zeros. unfold_st. by rewrite E.
Qed.
End Open.

(** ** Starting up *)

Section Start.
Context {B D : Type} `{HB : AtaLaws B} `{HD : PioDriveOk D}.

Lemma on_fs_run {A} (m : st (fs D) A) (i : ide B) s a s' : m s = Ret (a, s') -> on_fs m (i, s) = Ret (a, (i, s')).
Proof. intros E. unfold on_fs. cbn [snd fst]. by rewrite E. Qed.

(** The disk, with [size_disk] having run. *)
Lemma sized fuel cmos (i : ide B) (s : fs D) dev l :
  dvalid 0 0 -> ata_nr_drives cmos <> 0 -> signed_table (content (medium s) 0 0) = false ->
  (patience < fuel)%nat -> at_rest (bus i) -> length (channels i) = 2%nat -> length (ide_buf i) = 2048%nat ->
  length (ide_devices i) = 4%nat -> Forall (fun x => d_Reserved x = 0) (ide_devices i) ->
  IdeSpec.found = dev :: l -> 0 < d_Size dev < 2 ^ 32 ->
  exists i' d, size_disk fuel cmos (i, s) = Ret (u32 (d_Size dev * 512), (i', on_medium d s)) /\
    forall b, dvalid 0 b -> b <> 0 -> content d 0 b = content (medium s) 0 b.
Proof.
  intros Hv0 Hcm Hsig Hf Hr Hc Hb Hl Hfree Hfd Hsz.
  destruct (size_installed fuel cmos 0 i (medium s) dev l) as (i' & d & E & _ & _ & Ho); try done.
  exists i', d. split.
  - unfold size_disk. cbn [fst snd]. change (disk (bst s)) with (medium s). by rewrite E.
  - intros b Hv Hne. apply Ho; [exact Hv|congruence].
Qed.

(** With no path in the table of mounted devices, looking one up dereferences a null
    pointer: this is how making a file system leaves the table. *)
Lemma unmounted_lookup (s : fs D) path v t : master_dev_tab s = (None, v) :: t -> master_get_dev path s = Fault.
Proof. intros E. unfold master_get_dev, get. unfold_st. by rewrite E. Qed.

(** Opening a file system that is on the disk. *)
Lemma open_made cmos path (s : fs D) m j w :
  init_master s = false -> init (cache (bst s)) = false ->
  0 <= highest (cache (bst s)) < BLOCK_MAX_LRU - Z.of_nat (3 + j) -> (w < 128)%nat -> made_master (medium s) m ->
  exists σ, inode_dev_open cmos (Some path) (Some 0) s =
      Ret ((INODE_OK, Some 0),
           sys σ (opened_master m) (content (medium s) 0 (bmap_map_start m)) (content (medium s) 0 (inode_map_start m))
             (master_dev_tab s) (errno s)) /\
    bgood j (S w) σ /\ forall b, dvalid 0 b -> bview σ 0 b = content (medium s) 0 b.
Proof.
  intros Hi Hc Hh Hw Hm.
  destruct (run_open cmos path 0 (bst s) (master_dev_tab s) (errno s) m j w) as (σ & E & Hg & Hv); try done;
    [apply dev_open_first|].
  exists σ. split; [|done]. change (medium s) with (disk (bst s)). rewrite <- E.
  destruct (block_open_spec (bst s) cmos path 0 (3 + j) Hc Hh) as (σ1 & E1 & _).
  unfold inode_dev_open. unfold_st. rewrite (run_cache _ _ _ _ E1). erewrite sys_cached by exact E1.
  change (snd (dev_open cmos 0)) with ((dev_open cmos 0).2). rewrite dev_open_first. cbn [block_bad checked].
  rewrite (sys_init (set_bst σ1 s) Hi). done.
Qed.

(** A disk with a file system is opened and mounted: nothing on it changes, and "/" is
    found on device 0 from now on. *)
Lemma fs_init_mounts fuel cmos requested (i i' : ide B) (s : fs D) d n st m j w v t :
  ata_disk_size fuel cmos 0 (i, medium s) = Ret ((n, st), (i', d)) -> n <> 0 ->
  init_master s = false -> init (cache (bst s)) = false ->
  0 <= highest (cache (bst s)) < BLOCK_MAX_LRU - Z.of_nat (3 + j) -> (w < 128)%nat -> made_master d m ->
  master_dev_tab s = (None, v) :: t ->
  exists σ s', fs_init fuel cmos requested (i, s) = Ret (Some FS_INIT_OK, (i', s')) /\
    s' = sys σ (opened_master m) (content d 0 (bmap_map_start m)) (content d 0 (inode_map_start m))
           ((Some root_path, 0) :: t) (errno s) /\
    (forall b, dvalid 0 b -> bview σ 0 b = content d 0 b) /\ bgood j (S w) σ /\
    forall path, master_get_dev path s' = Ret (0, s').
Proof.
  intros E Hn Hi Hc Hh Hw Hm Ht. change (medium s) with (disk (bst s)) in E.
  destruct (open_made cmos root_path (on_medium d s) m j w) as (σ & Eo & Hg & Hv); try done.
  exists σ. eexists. split; [|split; [reflexivity|split; [exact Hv|split; [exact Hg|]]]].
  - unfold fs_init. unfold mbind at 1, st_bind at 1. unfold size_disk. cbn [fst snd]. rewrite E.
    cbn [mbind outcome_bind]. rewrite (proj2 (Z.eqb_neq _ _)) by done.
    unfold mbind at 1, st_bind at 1. fold (on_medium d s). rewrite (on_fs_run _ _ _ _ _ Eo).
    unfold checked. unfold_st. change (master_dev_tab (on_medium d s)) with (master_dev_tab s). rewrite Ht. reflexivity.
  - intros path. reflexivity.
Qed.

(** C38: Resetting the disk and starting the file system up sizes the disk, makes a file system
    of the requested size, or of the size of the disk when that is smaller, and opens it: it
    implements the store of blocks of the inode tree, with no block in use.  The function
    ends without a value, and the table of mounted paths stays as it was. *)
Theorem fs_init_formats fuel cmos requested (i : ide B) (s : fs D) dev l j w :
  (forall b, 0 <= b < 4194304 -> dvalid 0 b) -> ata_nr_drives cmos <> 0 -> signed_table (content (medium s) 0 0) = false ->
  (patience < fuel)%nat -> at_rest (bus i) -> length (channels i) = 2%nat -> length (ide_buf i) = 2048%nat ->
  length (ide_devices i) = 4%nat -> Forall (fun x => d_Reserved x = 0) (ide_devices i) ->
  IdeSpec.found = dev :: l -> 0 < d_Size dev < 2 ^ 32 ->
  init_master s = false -> init (cache (bst s)) = false ->
  0 <= highest (cache (bst s)) < BLOCK_MAX_LRU - Z.of_nat (4 + j) -> (w < 128)%nat ->
  let size := Z.min requested (u32 (d_Size dev * 512)) in
  size_ok size -> 512 <= inodes (fresh_master size) ->
  let m := opened_master (fresh_master size) in
  exists i' s', (_ ← on_fs (fs_reset cmos); fs_init fuel cmos requested) (i, s) = Ret (None, (i', s')) /\
    master_dev_tab s' = master_dev_tab s /\
    laid_out (D := D) 0 m /\ fs_good 0 m j (S w) s' /\ forall b, ~ fs_used 0 m s' b.
Proof.
  intros Hdrive Hcm Hsig Hf Hr Hc Hb Hl Hfree Hfd Hsz Hi Hci Hh Hw size Hsize Hin m.
  assert (dvalid 0 0 /\ dvalid 0 BLOCK_START) as [Hv0 Hstart] by (split; apply Hdrive; unfold BLOCK_START; lia).
  destruct (reset_run cmos s Hstart) as (d1 & E1 & C1).
  destruct (sized fuel cmos i (on_medium d1 s) dev l) as (i' & d2 & E2 & C2); try done.
  { change (medium (on_medium d1 s)) with d1. by rewrite C1. }
  set (s2 := on_medium d2 (on_medium d1 s)) in *.
  destruct (open_blank cmos root_path s2 (3 + j) w) as (σ & E3 & Hσ); try done.
  { change (disk (bst s2)) with d2. rewrite C2 by done. change (medium (on_medium d1 s)) with d1. by rewrite C1. }
  set (s3 := sys σ free_entry zeros zeros (master_dev_tab s2) (errno s2)) in *.
  destruct (made_gives_store cmos root_path 0 size s3 σ (master_dev_tab s2) (errno s2) j w)
    as (s' & E4 & Ht & Hstore); try done; [apply dev_open_first|].
  exists i', s'. split; [|done].
  unfold mbind at 1, st_bind at 1. rewrite (on_fs_run _ _ _ _ _ E1).
  unfold fs_init. unfold mbind at 1, st_bind at 1. rewrite E2.
  pose proof Hsize as [[Hpos _] _]. unfold TWOMEG in Hpos. rewrite (proj2 (Z.eqb_neq _ _)) by lia.
  unfold mbind at 1, st_bind at 1. rewrite (on_fs_run _ _ _ _ _ E3).
  revert E4. unfold mbind at 1, st_bind at 1.
  assert ((if requested <? u32 (d_Size dev * 512) then requested else u32 (d_Size dev * 512)) = size) as ->
    by (unfold size; destruct (Z.ltb_spec requested (u32 (d_Size dev * 512))); lia).
  destruct (inode_mkfs cmos size s3) as [[r s4]| | |] eqn:Em; try discriminate. intros E4.
  unfold mbind at 1, st_bind at 1. rewrite (on_fs_run _ _ _ _ _ Em).
  destruct (run_mkfs Hdrive cmos size s3 σ (master_dev_tab s2) (errno s2) eq_refl Hsize) as (d4 & Em' & _).
  rewrite Em in Em'. injection Em' as -> _.
  unfold mbind at 1, st_bind at 1. by rewrite (on_fs_run _ _ _ _ _ E4).
Qed.
End Start.

(** ** A concrete start *)

Lemma fs_init_formats_witness :
  exists i' s', (_ ← on_fs (fs_reset 0x10); fs_init (H := controller_bus) 3 0x10 seven_meg) (ide_boot (Controller (0, 0) Quiet), boot) =
      Ret (None, (i', s')) /\ master_get_dev (Some root_path) s' = Fault.
Proof.
  destruct (fs_init_formats (HB := controller_laws) 3 0x10 seven_meg (ide_boot (Controller (0, 0) Quiet)) boot (info 0 0 (Ata false
    (IdeSpec.block_of [(120%nat, 192); (121%nat, 78); (54%nat, 75); (55%nat, 81)]))) (tail (IdeSpec.found (HL := controller_laws))) 1000 100)
    as (i' & s' & E & Ht & _).
  - exact mem_drive_blocks.
  - discriminate.
  - reflexivity.
  - cbn. lia.
  - exact I.
  - reflexivity.
  - reflexivity.
  - reflexivity.
  - by apply Forall_replicate.
  - reflexivity.
  - vm_compute. split; reflexivity.
  - reflexivity.
  - reflexivity.
  - change (highest (cache (bst boot))) with 0. unfold BLOCK_MAX_LRU. lia.
  - lia.
  - exact seven_meg_ok.
  - vm_compute. discriminate.
  - exists i', s'. split; [exact E|]. eapply unmounted_lookup. rewrite Ht. reflexivity.
Defined.
