(* ===== verification/Process.v ===== *)
(** * Processes and the process table

    [struct process] of [include/ox/process.h], restricted to the fields the
    scheduler, signals and process queues use: the memory image, the exec
    arguments, the open files and all of the TSS but its [eip] ([p_eip] here)
    are left out.  A pointer is an address, 0 is [NULL]; the heap of processes
    is a finite map, so a pointer to no process is a fault.  [process_tab] has
    one circular doubly linked queue per priority. *)

From S2P Require Import Prelude.

Definition Nr_PRIORITY : nat := 32.

Definition P_RUNNING : Z := 1.
Definition P_INTERRUPTIBLE : Z := 2.
Definition P_UNINTERUPTIBLE : Z := 3.
Definition P_ZOMBIE : Z := 4.
Definition P_STOPPED : Z := 5.

Record sigaction := Sigaction { sa_handler : Z; sa_mask : Z; sa_flags : Z }.

Record process := Process {
  p_state : Z; p_counter : Z; p_priority : Z; p_signal : Z; p_blocked : Z; p_tss_seg : Z;
  p_exit_code : Z; p_pid : Z; p_parent : Z; p_pgrp : Z; p_session : Z; p_leader : Z; p_uid
  : Z; p_euid : Z; p_suid : Z; p_gid : Z; p_egid : Z; p_sgid : Z; p_alarm : Z; p_utime :
  Z; p_stime : Z; p_cutime : Z; p_cstime : Z; p_start_time : Z; p_first_exec : Z; p_eip :
  Z; p_sigaction : list sigaction; p_next : Z; p_prev : Z
}.

(** The process with one field assigned. *)
Definition set_p_state (v : Z) (p : process) : process :=
  {| p_state := v; p_counter := p_counter p; p_priority := p_priority p; p_signal :=
     p_signal p; p_blocked := p_blocked p; p_tss_seg := p_tss_seg p; p_exit_code :=
     p_exit_code p; p_pid := p_pid p; p_parent := p_parent p; p_pgrp := p_pgrp p; p_session
     := p_session p; p_leader := p_leader p; p_uid := p_uid p; p_euid := p_euid p; p_suid :=
     p_suid p; p_gid := p_gid p; p_egid := p_egid p; p_sgid := p_sgid p; p_alarm := p_alarm
     p; p_utime := p_utime p; p_stime := p_stime p; p_cutime := p_cutime p; p_cstime :=
     p_cstime p; p_start_time := p_start_time p; p_first_exec := p_first_exec p; p_eip :=
     p_eip p; p_sigaction := p_sigaction p; p_next := p_next p; p_prev := p_prev p |}.

Definition set_p_counter (v : Z) (p : process) : process :=
  {| p_state := p_state p; p_counter := v; p_priority := p_priority p; p_signal := p_signal
     p; p_blocked := p_blocked p; p_tss_seg := p_tss_seg p; p_exit_code := p_exit_code p;
     p_pid := p_pid p; p_parent := p_parent p; p_pgrp := p_pgrp p; p_session := p_session p;
     p_leader := p_leader p; p_uid := p_uid p; p_euid := p_euid p; p_suid := p_suid p; p_gid
     := p_gid p; p_egid := p_egid p; p_sgid := p_sgid p; p_alarm := p_alarm p; p_utime :=
     p_utime p; p_stime := p_stime p; p_cutime := p_cutime p; p_cstime := p_cstime p;
     p_start_time := p_start_time p; p_first_exec := p_first_exec p; p_eip := p_eip p;
     p_sigaction := p_sigaction p; p_next := p_next p; p_prev := p_prev p |}.

Definition set_p_priority (v : Z) (p : process) : process :=
  {| p_state := p_state p; p_counter := p_counter p; p_priority := v; p_signal := p_signal
     p; p_blocked := p_blocked p; p_tss_seg := p_tss_seg p; p_exit_code := p_exit_code p;
     p_pid := p_pid p; p_parent := p_parent p; p_pgrp := p_pgrp p; p_session := p_session p;
     p_leader := p_leader p; p_uid := p_uid p; p_euid := p_euid p; p_suid := p_suid p; p_gid
     := p_gid p; p_egid := p_egid p; p_sgid := p_sgid p; p_alarm := p_alarm p; p_utime :=
     p_utime p; p_stime := p_stime p; p_cutime := p_cutime p; p_cstime := p_cstime p;
     p_start_time := p_start_time p; p_first_exec := p_first_exec p; p_eip := p_eip p;
     p_sigaction := p_sigaction p; p_next := p_next p; p_prev := p_prev p |}.

Definition set_p_signal (v : Z) (p : process) : process :=
  {| p_state := p_state p; p_counter := p_counter p; p_priority := p_priority p; p_signal :=
     v; p_blocked := p_blocked p; p_tss_seg := p_tss_seg p; p_exit_code := p_exit_code p;
     p_pid := p_pid p; p_parent := p_parent p; p_pgrp := p_pgrp p; p_session := p_session p;
     p_leader := p_leader p; p_uid := p_uid p; p_euid := p_euid p; p_suid := p_suid p; p_gid
     := p_gid p; p_egid := p_egid p; p_sgid := p_sgid p; p_alarm := p_alarm p; p_utime :=
     p_utime p; p_stime := p_stime p; p_cutime := p_cutime p; p_cstime := p_cstime p;
     p_start_time := p_start_time p; p_first_exec := p_first_exec p; p_eip := p_eip p;
     p_sigaction := p_sigaction p; p_next := p_next p; p_prev := p_prev p |}.

Definition set_p_blocked (v : Z) (p : process) : process :=
  {| p_state := p_state p; p_counter := p_counter p; p_priority := p_priority p; p_signal :=
     p_signal p; p_blocked := v; p_tss_seg := p_tss_seg p; p_exit_code := p_exit_code p;
     p_pid := p_pid p; p_parent := p_parent p; p_pgrp := p_pgrp p; p_session := p_session p;
     p_leader := p_leader p; p_uid := p_uid p; p_euid := p_euid p; p_suid := p_suid p; p_gid
     := p_gid p; p_egid := p_egid p; p_sgid := p_sgid p; p_alarm := p_alarm p; p_utime :=
     p_utime p; p_stime := p_stime p; p_cutime := p_cutime p; p_cstime := p_cstime p;
     p_start_time := p_start_time p; p_first_exec := p_first_exec p; p_eip := p_eip p;
     p_sigaction := p_sigaction p; p_next := p_next p; p_prev := p_prev p |}.

Definition set_p_exit_code (v : Z) (p : process) : process :=
  {| p_state := p_state p; p_counter := p_counter p; p_priority := p_priority p; p_signal :=
     p_signal p; p_blocked := p_blocked p; p_tss_seg := p_tss_seg p; p_exit_code := v; p_pid
     := p_pid p; p_parent := p_parent p; p_pgrp := p_pgrp p; p_session := p_session p;
     p_leader := p_leader p; p_uid := p_uid p; p_euid := p_euid p; p_suid := p_suid p; p_gid
     := p_gid p; p_egid := p_egid p; p_sgid := p_sgid p; p_alarm := p_alarm p; p_utime :=
     p_utime p; p_stime := p_stime p; p_cutime := p_cutime p; p_cstime := p_cstime p;
     p_start_time := p_start_time p; p_first_exec := p_first_exec p; p_eip := p_eip p;
     p_sigaction := p_sigaction p; p_next := p_next p; p_prev := p_prev p |}.

Definition set_p_parent (v : Z) (p : process) : process :=
  {| p_state := p_state p; p_counter := p_counter p; p_priority := p_priority p; p_signal :=
     p_signal p; p_blocked := p_blocked p; p_tss_seg := p_tss_seg p; p_exit_code :=
     p_exit_code p; p_pid := p_pid p; p_parent := v; p_pgrp := p_pgrp p; p_session :=
     p_session p; p_leader := p_leader p; p_uid := p_uid p; p_euid := p_euid p; p_suid :=
     p_suid p; p_gid := p_gid p; p_egid := p_egid p; p_sgid := p_sgid p; p_alarm := p_alarm
     p; p_utime := p_utime p; p_stime := p_stime p; p_cutime := p_cutime p; p_cstime :=
     p_cstime p; p_start_time := p_start_time p; p_first_exec := p_first_exec p; p_eip :=
     p_eip p; p_sigaction := p_sigaction p; p_next := p_next p; p_prev := p_prev p |}.

Definition set_p_uid (v : Z) (p : process) : process :=
  {| p_state := p_state p; p_counter := p_counter p; p_priority := p_priority p; p_signal :=
     p_signal p; p_blocked := p_blocked p; p_tss_seg := p_tss_seg p; p_exit_code :=
     p_exit_code p; p_pid := p_pid p; p_parent := p_parent p; p_pgrp := p_pgrp p; p_session
     := p_session p; p_leader := p_leader p; p_uid := v; p_euid := p_euid p; p_suid :=
     p_suid p; p_gid := p_gid p; p_egid := p_egid p; p_sgid := p_sgid p; p_alarm := p_alarm
     p; p_utime := p_utime p; p_stime := p_stime p; p_cutime := p_cutime p; p_cstime :=
     p_cstime p; p_start_time := p_start_time p; p_first_exec := p_first_exec p; p_eip :=
     p_eip p; p_sigaction := p_sigaction p; p_next := p_next p; p_prev := p_prev p |}.

Definition set_p_euid (v : Z) (p : process) : process :=
  {| p_state := p_state p; p_counter := p_counter p; p_priority := p_priority p; p_signal :=
     p_signal p; p_blocked := p_blocked p; p_tss_seg := p_tss_seg p; p_exit_code :=
     p_exit_code p; p_pid := p_pid p; p_parent := p_parent p; p_pgrp := p_pgrp p; p_session
     := p_session p; p_leader := p_leader p; p_uid := p_uid p; p_euid := v; p_suid := p_suid
     p; p_gid := p_gid p; p_egid := p_egid p; p_sgid := p_sgid p; p_alarm := p_alarm p;
     p_utime := p_utime p; p_stime := p_stime p; p_cutime := p_cutime p; p_cstime :=
     p_cstime p; p_start_time := p_start_time p; p_first_exec := p_first_exec p; p_eip :=
     p_eip p; p_sigaction := p_sigaction p; p_next := p_next p; p_prev := p_prev p |}.

Definition set_p_gid (v : Z) (p : process) : process :=
  {| p_state := p_state p; p_counter := p_counter p; p_priority := p_priority p; p_signal :=
     p_signal p; p_blocked := p_blocked p; p_tss_seg := p_tss_seg p; p_exit_code :=
     p_exit_code p; p_pid := p_pid p; p_parent := p_parent p; p_pgrp := p_pgrp p; p_session
     := p_session p; p_leader := p_leader p; p_uid := p_uid p; p_euid := p_euid p; p_suid :=
     p_suid p; p_gid := v; p_egid := p_egid p; p_sgid := p_sgid p; p_alarm := p_alarm p;
     p_utime := p_utime p; p_stime := p_stime p; p_cutime := p_cutime p; p_cstime :=
     p_cstime p; p_start_time := p_start_time p; p_first_exec := p_first_exec p; p_eip :=
     p_eip p; p_sigaction := p_sigaction p; p_next := p_next p; p_prev := p_prev p |}.

Definition set_p_egid (v : Z) (p : process) : process :=
  {| p_state := p_state p; p_counter := p_counter p; p_priority := p_priority p; p_signal :=
     p_signal p; p_blocked := p_blocked p; p_tss_seg := p_tss_seg p; p_exit_code :=
     p_exit_code p; p_pid := p_pid p; p_parent := p_parent p; p_pgrp := p_pgrp p; p_session
     := p_session p; p_leader := p_leader p; p_uid := p_uid p; p_euid := p_euid p; p_suid :=
     p_suid p; p_gid := p_gid p; p_egid := v; p_sgid := p_sgid p; p_alarm := p_alarm p;
     p_utime := p_utime p; p_stime := p_stime p; p_cutime := p_cutime p; p_cstime :=
     p_cstime p; p_start_time := p_start_time p; p_first_exec := p_first_exec p; p_eip :=
     p_eip p; p_sigaction := p_sigaction p; p_next := p_next p; p_prev := p_prev p |}.

Definition set_p_alarm (v : Z) (p : process) : process :=
  {| p_state := p_state p; p_counter := p_counter p; p_priority := p_priority p; p_signal :=
     p_signal p; p_blocked := p_blocked p; p_tss_seg := p_tss_seg p; p_exit_code :=
     p_exit_code p; p_pid := p_pid p; p_parent := p_parent p; p_pgrp := p_pgrp p; p_session
     := p_session p; p_leader := p_leader p; p_uid := p_uid p; p_euid := p_euid p; p_suid :=
     p_suid p; p_gid := p_gid p; p_egid := p_egid p; p_sgid := p_sgid p; p_alarm := v;
     p_utime := p_utime p; p_stime := p_stime p; p_cutime := p_cutime p; p_cstime :=
     p_cstime p; p_start_time := p_start_time p; p_first_exec := p_first_exec p; p_eip :=
     p_eip p; p_sigaction := p_sigaction p; p_next := p_next p; p_prev := p_prev p |}.

Definition set_p_first_exec (v : Z) (p : process) : process :=
  {| p_state := p_state p; p_counter := p_counter p; p_priority := p_priority p; p_signal :=
     p_signal p; p_blocked := p_blocked p; p_tss_seg := p_tss_seg p; p_exit_code :=
     p_exit_code p; p_pid := p_pid p; p_parent := p_parent p; p_pgrp := p_pgrp p; p_session
     := p_session p; p_leader := p_leader p; p_uid := p_uid p; p_euid := p_euid p; p_suid :=
     p_suid p; p_gid := p_gid p; p_egid := p_egid p; p_sgid := p_sgid p; p_alarm := p_alarm
     p; p_utime := p_utime p; p_stime := p_stime p; p_cutime := p_cutime p; p_cstime :=
     p_cstime p; p_start_time := p_start_time p; p_first_exec := v; p_eip := p_eip p;
     p_sigaction := p_sigaction p; p_next := p_next p; p_prev := p_prev p |}.

Definition set_p_eip (v : Z) (p : process) : process :=
  {| p_state := p_state p; p_counter := p_counter p; p_priority := p_priority p; p_signal :=
     p_signal p; p_blocked := p_blocked p; p_tss_seg := p_tss_seg p; p_exit_code :=
     p_exit_code p; p_pid := p_pid p; p_parent := p_parent p; p_pgrp := p_pgrp p; p_session
     := p_session p; p_leader := p_leader p; p_uid := p_uid p; p_euid := p_euid p; p_suid :=
     p_suid p; p_gid := p_gid p; p_egid := p_egid p; p_sgid := p_sgid p; p_alarm := p_alarm
     p; p_utime := p_utime p; p_stime := p_stime p; p_cutime := p_cutime p; p_cstime :=
     p_cstime p; p_start_time := p_start_time p; p_first_exec := p_first_exec p; p_eip := v;
     p_sigaction := p_sigaction p; p_next := p_next p; p_prev := p_prev p |}.

Definition set_p_sigaction (v : list sigaction) (p : process) : process :=
  {| p_state := p_state p; p_counter := p_counter p; p_priority := p_priority p; p_signal :=
     p_signal p; p_blocked := p_blocked p; p_tss_seg := p_tss_seg p; p_exit_code :=
     p_exit_code p; p_pid := p_pid p; p_parent := p_parent p; p_pgrp := p_pgrp p; p_session
     := p_session p; p_leader := p_leader p; p_uid := p_uid p; p_euid := p_euid p; p_suid :=
     p_suid p; p_gid := p_gid p; p_egid := p_egid p; p_sgid := p_sgid p; p_alarm := p_alarm
     p; p_utime := p_utime p; p_stime := p_stime p; p_cutime := p_cutime p; p_cstime :=
     p_cstime p; p_start_time := p_start_time p; p_first_exec := p_first_exec p; p_eip :=
     p_eip p; p_sigaction := v; p_next := p_next p; p_prev := p_prev p |}.

Definition set_p_next (v : Z) (p : process) : process :=
  {| p_state := p_state p; p_counter := p_counter p; p_priority := p_priority p; p_signal :=
     p_signal p; p_blocked := p_blocked p; p_tss_seg := p_tss_seg p; p_exit_code :=
     p_exit_code p; p_pid := p_pid p; p_parent := p_parent p; p_pgrp := p_pgrp p; p_session
     := p_session p; p_leader := p_leader p; p_uid := p_uid p; p_euid := p_euid p; p_suid :=
     p_suid p; p_gid := p_gid p; p_egid := p_egid p; p_sgid := p_sgid p; p_alarm := p_alarm
     p; p_utime := p_utime p; p_stime := p_stime p; p_cutime := p_cutime p; p_cstime :=
     p_cstime p; p_start_time := p_start_time p; p_first_exec := p_first_exec p; p_eip :=
     p_eip p; p_sigaction := p_sigaction p; p_next := v; p_prev := p_prev p |}.

Definition set_p_prev (v : Z) (p : process) : process :=
  {| p_state := p_state p; p_counter := p_counter p; p_priority := p_priority p; p_signal :=
     p_signal p; p_blocked := p_blocked p; p_tss_seg := p_tss_seg p; p_exit_code :=
     p_exit_code p; p_pid := p_pid p; p_parent := p_parent p; p_pgrp := p_pgrp p; p_session
     := p_session p; p_leader := p_leader p; p_uid := p_uid p; p_euid := p_euid p; p_suid :=
     p_suid p; p_gid := p_gid p; p_egid := p_egid p; p_sgid := p_sgid p; p_alarm := p_alarm
     p; p_utime := p_utime p; p_stime := p_stime p; p_cutime := p_cutime p; p_cstime :=
     p_cstime p; p_start_time := p_start_time p; p_first_exec := p_first_exec p; p_eip :=
     p_eip p; p_sigaction := p_sigaction p; p_next := p_next p; p_prev := v |}.

(** The kernel state these components share. [first_time] and [sched_count]
    are the function statics of [schedule]. *)
Record kstate := KState {
  procs : gmap Z process;
  process_tab : list Z;
  process_size_tab : list Z;
  current_process : Z;
  previous_process : Z;
  first_time : bool;
  sched_count : Z
}.

Definition set_procs (m : gmap Z process) (s : kstate) : kstate :=
  {| procs := m; process_tab := process_tab s; process_size_tab := process_size_tab s;
     current_process := current_process s; previous_process := previous_process s;
     first_time := first_time s; sched_count := sched_count s |}.

Definition set_tab (i : nat) (p : Z) (s : kstate) : kstate :=
  {| procs := procs s; process_tab := <[i := p]> (process_tab s);
     process_size_tab := process_size_tab s;
     current_process := current_process s; previous_process := previous_process s;
     first_time := first_time s; sched_count := sched_count s |}.

Definition set_size (i : nat) (n : Z) (s : kstate) : kstate :=
  {| procs := procs s; process_tab := process_tab s;
     process_size_tab := <[i := n]> (process_size_tab s);
     current_process := current_process s; previous_process := previous_process s;
     first_time := first_time s; sched_count := sched_count s |}.

Definition set_current (prev curr : Z) (s : kstate) : kstate :=
  {| procs := procs s; process_tab := process_tab s; process_size_tab := process_size_tab s;
     current_process := curr; previous_process := prev;
     first_time := first_time s; sched_count := sched_count s |}.

Definition set_first_time (b : bool) (s : kstate) : kstate :=
  {| procs := procs s; process_tab := process_tab s; process_size_tab := process_size_tab s;
     current_process := current_process s; previous_process := previous_process s;
     first_time := b; sched_count := sched_count s |}.

Definition set_sched_count (n : Z) (s : kstate) : kstate :=
  {| procs := procs s; process_tab := process_tab s; process_size_tab := process_size_tab s;
     current_process := current_process s; previous_process := previous_process s;
     first_time := first_time s; sched_count := n |}.

(** ** Access through pointers *)

(** [*p] *)
Definition load (p : Z) : st kstate process := fun s =>
  match procs s !! p with Some q => Ret (q, s) | None => Fault end.

(** An assignment to a field of [*p]. *)
Definition update (p : Z) (f : process -> process) : st kstate unit := fun s =>
  match procs s !! p with
  | Some q => Ret (tt, set_procs (<[p := f q]> (procs s)) s)
  | None => Fault
  end.

(** [process_tab[i]] and [process_size_tab[i]], for an [int] or [long] index. *)
Definition tab (i : Z) : st kstate Z := fun s =>
  if 0 <=? i then
    match process_tab s !! Z.to_nat i with Some p => Ret (p, s) | None => Fault end
  else Fault.

Definition tab_set (i p : Z) : st kstate unit := fun s =>
  if (0 <=? i) && (i <? Z.of_nat (length (process_tab s))) then
    Ret (tt, set_tab (Z.to_nat i) p s)
  else Fault.

Definition size_of (i : Z) : st kstate Z := fun s =>
  if 0 <=? i then
    match process_size_tab s !! Z.to_nat i with Some n => Ret (n, s) | None => Fault end
  else Fault.

(** Sizes are [unsigned long]. *)
Definition size_add (i n : Z) : st kstate unit := fun s =>
  if 0 <=? i then
    match process_size_tab s !! Z.to_nat i with
    | Some k => Ret (tt, set_size (Z.to_nat i) (u32 (k + n)) s)
    | None => Fault
    end
  else Fault.

(** ** Walking all the processes

    The loop that [find_process], [schedule], [kkill], [kexit],
    [terminate_session] and [signal_parent] repeat:
<<
    for(i = 0; i < Nr_PRIORITY; ++i) {
      curr = process_tab[i];
      do { if(curr) { body; curr = curr->p_next; } else { break; } }
      while(curr != process_tab[i]);
    }
>>
    [body] carries the locals [a] of the enclosing function ([inl]) or returns
    from it with a result ([inr]).  The fuel is one more than the number of
    processes, and a queue visits a process once. *)

Fixpoint walk {A R} (fuel : nat) (body : Z -> A -> st kstate (A + R)) (head curr : Z) (a : A)
    : st kstate (A + R) :=
  match fuel with
  | O => fun _ => NoFuel
  | S fuel =>
      if curr =? 0 then mret (inl a)
      else
        r ← body curr a;
        match r with
        | inr _ => mret r
        | inl a =>
            p ← load curr;
            if p_next p =? head then mret (inl a) else walk fuel body head (p_next p) a
        end
  end.

Fixpoint walk_from {A R} (fuel k : nat) (i : Z) (body : Z -> A -> st kstate (A + R)) (a : A)
    : st kstate (A + R) :=
  match k with
  | O => mret (inl a)
  | S k =>
      head ← tab i;
      r ← walk fuel body head head a;
      match r with
      | inr _ => mret r
      | inl a => walk_from fuel k (i + 1) body a
      end
  end.

Definition for_processes {A R} (body : Z -> A -> st kstate (A + R)) (a : A) : st kstate (A + R) :=
  s ← get;
  walk_from (S (size (procs s))) Nr_PRIORITY 0 body a.

(** A body that only changes fields of the process visited. *)
Definition each (f : process -> process) (p : Z) (_ : unit) : st kstate (unit + unit) :=
  _ ← update p f; mret (inl tt).

(** ** The queues as lists

    [Q] lists the members of each queue in order from the head. *)

Definition next_in (m : gmap Z process) (p : Z) : option Z := p_next <$> m !! p.
Definition prev_in (m : gmap Z process) (p : Z) : option Z := p_prev <$> m !! p.

(** [b] follows [a]. *)
Definition linked (m : gmap Z process) (a b : Z) : Prop :=
  next_in m a = Some b /\ prev_in m b = Some a.

(** Following the links from [x] visits [l] and then [z]. *)
Fixpoint chain (m : gmap Z process) (x : Z) (l : list Z) (z : Z) : Prop :=
  match l with
  | [] => linked m x z
  | y :: l => linked m x y /\ chain m y l z
  end.

Definition ring (m : gmap Z process) (l : list Z) : Prop :=
  match l with [] => True | h :: t => chain m h t h end.

Record queues_ok (Q : list (list Z)) (s : kstate) : Prop := {
  queues_tab : process_tab s = map (hd 0) Q;
  queues_length : length Q = Nr_PRIORITY;
  queues_ring l : l ∈ Q -> ring (procs s) l;
  queues_nodup : NoDup (concat Q);
  queues_procs p : p ∈ concat Q -> p <> 0 /\ is_Some (procs s !! p)
}.

(** The sizes the queue operations keep. *)
Definition sizes_ok (Q : list (list Z)) (s : kstate) : Prop :=
  process_size_tab s = map (fun l => Z.of_nat (length l)) Q.

(** What the loop does, on the list. *)
Fixpoint visit {A R} (body : Z -> A -> st kstate (A + R)) (l : list Z) (a : A) : st kstate (A + R) :=
  match l with
  | [] => mret (inl a)
  | p :: l =>
      r ← body p a;
      match r with inr _ => mret r | inl a => visit body l a end
  end.

(** A body that changes no link. *)
Definition keeps_links {A R} (body : Z -> A -> st kstate (A + R)) : Prop :=
  forall p a s r s', body p a s = Ret (r, s') ->
    process_tab s' = process_tab s /\ size (procs s') = size (procs s) /\
    forall q, next_in (procs s') q = next_in (procs s) q /\
              prev_in (procs s') q = prev_in (procs s) q.

Definition same_links (s s' : kstate) : Prop :=
  process_tab s' = process_tab s /\ size (procs s') = size (procs s) /\
  forall q, next_in (procs s') q = next_in (procs s) q /\
            prev_in (procs s') q = prev_in (procs s) q.

Lemma same_links_refl s : same_links s s.
Proof. done. Qed.

Lemma same_links_trans s1 s2 s3 : same_links s1 s2 -> same_links s2 s3 -> same_links s1 s3.
Proof.
  intros (T1 & S1 & L1) (T2 & S2 & L2). split; [congruence|]. split; [congruence|].
  intros q. destruct (L1 q), (L2 q). split; congruence.
Qed.

Lemma chain_same m m' l : forall x z,
  (forall q, next_in m' q = next_in m q /\ prev_in m' q = prev_in m q) ->
  chain m x l z -> chain m' x l z.
Proof.
  intros x z H. revert x.
  assert (forall a b, linked m a b -> linked m' a b) as Hl.
  { intros a b [E1 E2]. destruct (H a) as [Ea _], (H b) as [_ Eb]. split; congruence. }
  induction l as [|y l IH]; simpl; intros x; [apply Hl|]. intros [? ?]. auto.
Qed.

Lemma next_in_Some m a b : next_in m a = Some b -> exists q, m !! a = Some q /\ p_next q = b.
Proof. intros (q & Hq & ->)%fmap_Some. eauto. Qed.

Lemma chain_next m x l z : chain m x l z -> next_in m x = Some (hd z l).
Proof. destruct l; [intros [? _]|intros [[? _] _]]; done. Qed.

Lemma queues_same Q s s' : same_links s s' -> queues_ok Q s -> queues_ok Q s'.
Proof.
  intros (Ht & _ & Hl) [H1 H2 H3 H4 H5]. split; [congruence|done| |done|].
  - intros [|h t] Hin; [done|]. eapply chain_same; [exact Hl|]. exact (H3 _ Hin).
  - intros p Hp. destruct (H5 p Hp) as [? [q Hq]]. split; [done|].
    destruct (Hl p) as [Hn _]. unfold next_in in Hn. rewrite Hq in Hn.
    destruct (procs s' !! p); [eauto|done].
Qed.

Lemma walk_visit {A R} (body : Z -> A -> st kstate (A + R)) head : keeps_links body ->
  forall l fuel s curr a,
  chain (procs s) curr l head -> head ∉ l -> (forall p, p ∈ curr :: l -> p <> 0) ->
  (length l < fuel)%nat ->
  walk fuel body head curr a s = visit body (curr :: l) a s.
Proof.
  intros Hk. induction l as [|y l IH]; intros fuel s curr a Hc Hh H0 Hf;
    (destruct fuel as [|fuel]; [simpl in Hf; lia|]); cbn [walk visit];
    rewrite (proj2 (Z.eqb_neq _ _)) by (apply H0; left).
  all: unfold mbind, st_bind; destruct (body curr a s) as [[[b|r] s1]| | |] eqn:E; try done.
  all: destruct (Hk _ _ _ _ _ E) as (_ & _ & Hl).
  all: pose proof (chain_same _ _ _ _ _ Hl Hc) as Hc1.
  all: apply chain_next in Hc1 as Hn; apply next_in_Some in Hn as (q & Hq & En).
  all: unfold load; rewrite Hq, En; simpl.
  - by rewrite Z.eqb_refl.
  - rewrite (proj2 (Z.eqb_neq _ _)) by (intros ->; apply Hh; left).
    apply IH; [exact (proj2 Hc1)|intros Hin; apply Hh; by right|intros p Hp; apply H0; by right|].
    simpl in Hf. lia.
Qed.

Lemma visit_keeps {A R} (body : Z -> A -> st kstate (A + R)) : keeps_links body ->
  forall l a s r s', visit body l a s = Ret (r, s') -> same_links s s'.
Proof.
  intros Hk l. induction l as [|p l IH]; intros a s r s' E.
  - injection E as <- <-. apply same_links_refl.
  - cbn in E. unfold mbind, st_bind in E.
    destruct (body p a s) as [[[b|x] s1]| | |] eqn:E1; try done.
    + eapply same_links_trans; [exact (Hk _ _ _ _ _ E1)|]. by eapply IH.
    + injection E as <- <-. exact (Hk _ _ _ _ _ E1).
Qed.

Lemma visit_app {A R} (body : Z -> A -> st kstate (A + R)) l1 l2 a s :
  visit body (l1 ++ l2) a s =
    match visit body l1 a s with
    | Ret (inr r, s') => Ret (inr r, s')
    | Ret (inl a', s') => visit body l2 a' s'
    | Panic => Panic | Fault => Fault | NoFuel => NoFuel
    end.
Proof.
  revert a s. induction l1 as [|p l1 IH]; intros a s; [done|]. cbn. unfold mbind, st_bind.
  destruct (body p a s) as [[[b|x] s1]| | |]; auto.
Qed.

Lemma members_size l (m : gmap Z process) :
  NoDup l -> (forall p, p ∈ l -> is_Some (m !! p)) -> (length l <= size m)%nat.
Proof.
  intros Hn Hl. rewrite <- (size_list_to_set (C := gset Z)) by done. rewrite <- size_dom.
  apply subseteq_size. intros p Hp%elem_of_list_to_set. apply elem_of_dom. auto.
Qed.

Lemma elem_of_concat' (Q : list (list Z)) p l : l ∈ Q -> p ∈ l -> p ∈ concat Q.
Proof. intros Hl Hp. apply list_elem_of_In, in_concat. exists l. split; by apply list_elem_of_In. Qed.

Lemma NoDup_concat_elem (Q : list (list Z)) l : NoDup (concat Q) -> l ∈ Q -> NoDup l.
Proof.
  intros Hn Hl. induction Q as [|l' Q IH]; [by apply not_elem_of_nil in Hl|].
  cbn in Hn. apply NoDup_app in Hn as (H1 & _ & H2).
  apply elem_of_cons in Hl as [-> | Hl]; auto.
Qed.

Lemma walk_from_visit {A R} (body : Z -> A -> st kstate (A + R)) fuel Q0 : keeps_links body ->
  forall Q pre a s, Q0 = pre ++ Q -> queues_ok Q0 s -> (size (procs s) < fuel)%nat ->
  walk_from fuel (length Q) (Z.of_nat (length pre)) body a s = visit body (concat Q) a s.
Proof.
  intros Hk. induction Q as [|l Q IH]; intros pre a s EQ Hok Hf; [done|].
  cbn [length walk_from concat]. rewrite visit_app. unfold mbind, st_bind, tab.
  rewrite (proj2 (Z.leb_le _ _)), Nat2Z.id by lia.
  assert (process_tab s !! length pre = Some (hd 0 l)) as ->.
  { rewrite (queues_tab _ _ Hok), EQ, list_lookup_fmap.
    rewrite lookup_app_r, Nat.sub_diag by lia. done. }
  assert (l ∈ Q0) as Hl by (rewrite EQ; apply elem_of_app; right; left).
  assert (walk fuel body (hd 0 l) (hd 0 l) a s = visit body l a s) as ->.
  { destruct l as [|h t]; [destruct fuel; [lia|done]|].
    pose proof (NoDup_concat_elem _ _ (queues_nodup _ _ Hok) Hl) as Hnd. apply NoDup_cons in Hnd as [Hh Hnd].
    apply walk_visit; [done|exact (queues_ring _ _ Hok _ Hl)|done| |].
    - intros p Hp. apply (queues_procs _ _ Hok). by eapply elem_of_concat'.
    - pose proof (members_size t (procs s) Hnd). 
      assert (length t <= size (procs s))%nat; [|lia]. apply H. intros p Hp.
      apply (queues_procs _ _ Hok). eapply elem_of_concat'; [done|by right]. }
  destruct (visit body l a s) as [[[b|x] s1]| | |] eqn:E; try done.
  pose proof (visit_keeps _ Hk _ _ _ _ _ E) as Hs.
  replace (Z.of_nat (length pre) + 1) with (Z.of_nat (length (pre ++ [l]))) by (rewrite length_app; simpl; lia).
  apply IH; [rewrite <- app_assoc; exact EQ|exact (queues_same _ _ _ Hs Hok)|].
  destruct Hs as (_ & -> & _). exact Hf.
Qed.

(** The loops of the source over all the processes are a visit of the members
    of the queues, in order. *)
Lemma for_processes_visit {A R} (body : Z -> A -> st kstate (A + R)) Q a s :
  keeps_links body -> queues_ok Q s -> for_processes body a s = visit body (concat Q) a s.
Proof.
  intros Hk Hok. unfold for_processes, mbind, st_bind, get. rewrite <- (queues_length _ _ Hok).
  exact (walk_from_visit body (S (size (procs s))) Q Hk Q [] a s eq_refl Hok ltac:(lia)).
Qed.

(** *** Bodies that update the process visited *)

Definition keeps_next_prev (f : process -> process) : Prop :=
  forall p, p_next (f p) = p_next p /\ p_prev (f p) = p_prev p.

Lemma insert_links m p q f :
  m !! p = Some q -> keeps_next_prev f ->
  forall r, next_in (<[p := f q]> m) r = next_in m r /\ prev_in (<[p := f q]> m) r = prev_in m r.
Proof.
  intros Hq Hf r. unfold next_in, prev_in. destruct (decide (p = r)) as [<- | ].
  - rewrite lookup_insert_eq, Hq. destruct (Hf q) as [E1 E2]. simpl. by rewrite E1, E2.
  - by rewrite lookup_insert_ne.
Qed.

Lemma update_links s p q f :
  procs s !! p = Some q -> keeps_next_prev f ->
  same_links s (set_procs (<[p := f q]> (procs s)) s).
Proof.
  intros Hq Hf. split; [done|]. split.
  - simpl. rewrite map_size_insert_Some by eauto. done.
  - by apply insert_links.
Qed.

Lemma each_keeps f : keeps_next_prev f -> keeps_links (each f).
Proof.
  intros Hf p [] s r s' E. unfold each, update, mbind, st_bind in E.
  destruct (procs s !! p) as [q|] eqn:Hq; [|done]. injection E as <- <-. by apply update_links.
Qed.

(** [f] applied to every member of [l]. *)
Definition update_all (f : process -> process) (l : list Z) (m : gmap Z process) : gmap Z process :=
  foldl (fun m p => alter f p m) m l.

Lemma update_all_lookup f l : forall m p, NoDup l ->
  update_all f l m !! p = if decide (p ∈ l) then f <$> m !! p else m !! p.
Proof.
  induction l as [|x l IH]; intros m p Hn; [done|]. apply NoDup_cons in Hn as [Hx Hn].
  cbn [update_all foldl]. fold (update_all f l (alter f x m)). rewrite IH by done.
  destruct (decide (p = x)) as [-> | Hne].
  - rewrite decide_False, decide_True by (done || left). by rewrite lookup_alter_eq.
  - rewrite lookup_alter_ne by done. destruct (decide (p ∈ l)) as [Hin|Hin].
    + by rewrite decide_True by (by right).
    + rewrite decide_False; [done|]. by intros [-> | ?]%elem_of_cons.
Qed.

Lemma visit_each f l : forall s,
  (forall p, p ∈ l -> is_Some (procs s !! p)) ->
  visit (each f) l tt s = Ret (inl tt, set_procs (update_all f l (procs s)) s).
Proof.
  induction l as [|x l IH]; intros s Hl; [by destruct s|].
  cbn [visit]. unfold mbind at 1, st_bind at 1, each at 1, update, mbind, st_bind.
  destruct (Hl x) as [q Hq]; [left|]. rewrite Hq. cbn [mret st_ret].
  assert (<[x := f q]> (procs s) = alter f x (procs s)) as ->.
  { apply map_eq. intros i. destruct (decide (i = x)) as [-> | ].
    - by rewrite lookup_insert_eq, lookup_alter_eq, Hq.
    - by rewrite lookup_insert_ne, lookup_alter_ne. }
  rewrite IH; [done|]. intros p Hp. simpl. destruct (Hl p) as [q' Hq']; [by right|].
  destruct (decide (p = x)) as [-> | ].
  - rewrite lookup_alter_eq, Hq. eauto.
  - rewrite lookup_alter_ne by done. eauto.
Qed.

(** *** Relating the states before and after a run *)

Definition run_rel {A} (R : relation kstate) (m : st kstate A) : Prop :=
  forall s r s', m s = Ret (r, s') -> R s s'.

Section RunRel.
Context (R : relation kstate) `{!PreOrder R}.

Lemma rel_ret {A} (a : A) : run_rel R (mret a : st kstate A).
Proof. intros s r s' [= _ <-]. reflexivity. Qed.

Lemma rel_bind {A B} (m : st kstate A) (k : A -> st kstate B) :
  run_rel R m -> (forall a, run_rel R (k a)) -> run_rel R (m ≫= k).
Proof.
  intros Hm Hk s r s' E. unfold mbind, st_bind in E.
  destruct (m s) as [[a s1]| | |] eqn:E1; try done.
  transitivity s1; [by eapply Hm|by eapply Hk].
Qed.

Lemma rel_load p : run_rel R (load p).
Proof. intros s r s' E. unfold load in E. destruct (_ !! _); [|done]. injection E as _ <-. reflexivity. Qed.

Lemma rel_gets {A} (f : kstate -> A) : run_rel R (gets f).
Proof. intros s r s' [= _ <-]. reflexivity. Qed.

Lemma rel_get : run_rel R get.
Proof. intros s r s' [= _ <-]. reflexivity. Qed.

Lemma rel_tab i : run_rel R (tab i).
Proof.
  intros s r s' E. unfold tab in E. destruct (0 <=? i); [|done]. destruct (_ !! _); [|done].
  injection E as _ <-. reflexivity.
Qed.

Lemma rel_checked {A} (o : option A) : run_rel R (checked o).
Proof. intros s r s' E. destruct o; [|done]. injection E as _ <-. reflexivity. Qed.

Lemma rel_panic {A} : run_rel R (panic : st kstate A).
Proof. done. Qed.

Lemma rel_update p f :
  (forall s q, procs s !! p = Some q -> R s (set_procs (<[p := f q]> (procs s)) s)) ->
  run_rel R (update p f).
Proof.
  intros Hf s r s' E. unfold update in E. destruct (procs s !! p) eqn:Hp; [|done].
  injection E as _ <-. by apply Hf.
Qed.

Lemma rel_modify f : (forall s, R s (f s)) -> run_rel R (modify f).
Proof. intros Hf s r s' [= _ <-]. apply Hf. Qed.

Lemma rel_walk {A B} (body : Z -> A -> st kstate (A + B)) fuel : forall head curr a,
  (forall p a, run_rel R (body p a)) -> run_rel R (walk fuel body head curr a).
Proof.
  induction fuel as [|fuel IH]; intros head curr a Hb; cbn [walk]; [done|].
  destruct (_ =? _); [apply rel_ret|]. apply rel_bind; [done|]. intros [b|b]; [|apply rel_ret].
  apply rel_bind; [apply rel_load|]. intros p. destruct (_ =? _); [apply rel_ret|by apply IH].
Qed.

Lemma rel_for_processes {A B} (body : Z -> A -> st kstate (A + B)) a :
  (forall p a, run_rel R (body p a)) -> run_rel R (for_processes body a).
Proof.
  intros Hb. apply rel_bind; [apply rel_get|]. intros s0. generalize (S (size (procs s0))) 0 a.
  induction Nr_PRIORITY as [|k IH]; intros fuel i b; cbn [walk_from]; [apply rel_ret|].
  apply rel_bind; [apply rel_tab|]. intros head. apply rel_bind; [by apply rel_walk|].
  intros [c|c]; [apply IH|apply rel_ret].
Qed.
End RunRel.

#[export] Instance same_links_preorder : PreOrder same_links.
Proof. split; [exact same_links_refl|exact same_links_trans]. Qed.

Abbreviation run_keeps := (run_rel same_links).

Lemma keeps_update p f : keeps_next_prev f -> run_keeps (update p f).
Proof. intros Hf. apply rel_update. intros s q Hq. by apply update_links. Qed.

#[export] Hint Resolve keeps_update rel_ret rel_load rel_gets rel_panic : ox.

(** Reduces [run_rel R m], for code made of these, to the updates. *)
Ltac run_steps :=
  repeat first
    [ solve [auto 2 with ox nocore]
    | apply rel_ret; apply _ | apply rel_load; apply _ | apply rel_gets; apply _
    | apply rel_panic | apply rel_checked; apply _
    | apply rel_for_processes; [apply _|intros ? ?]
    | apply rel_bind; [apply _| |intros ?]
    | match goal with
      | |- run_rel _ (if ?b then _ else _) => destruct b
      | |- run_rel _ (match ?x with _ => _ end) => destruct x
      | |- run_rel _ (let _ := _ in _) => cbv zeta
      end ].

Ltac keeps :=
  run_steps;
  repeat first [apply keeps_update; intros ?; split; reflexivity
               | apply rel_modify; intros ?; by split].

Lemma keeps_links_run {A R} (body : Z -> A -> st kstate (A + R)) :
  (forall p a, run_keeps (body p a)) -> keeps_links body.
Proof. intros H p a s r s' E. by eapply H. Qed.

(** *** Visits with locals

    A body that, as long as [I] holds, applies [f] to the process visited and
    [g] to the locals. *)
Lemma visit_fold {A R} (body : Z -> A -> st kstate (A + R)) (I : kstate -> Prop)
    (P : Z -> Prop) (f : process -> process) (g : A -> process -> A) :
  (forall p q a s, P p -> I s -> procs s !! p = Some q ->
     body p a s = Ret (inl (g a q), set_procs (<[p := f q]> (procs s)) s) /\
     I (set_procs (<[p := f q]> (procs s)) s)) ->
  forall l a s, I s -> NoDup l -> (forall p, p ∈ l -> P p /\ is_Some (procs s !! p)) ->
  let s' := set_procs (update_all f l (procs s)) s in
  visit body l a s =
    Ret (inl (foldl (fun a p => match procs s !! p with Some q => g a q | None => a end) a l), s') /\
  I s'.
Proof.
  intros Hb l. induction l as [|x l IH]; intros a s HI Hn Hl; [by destruct s|].
  apply NoDup_cons in Hn as [Hx Hn]. destruct (Hl x) as [HP [q Hq]]; [left|].
  destruct (Hb x q a s HP HI Hq) as [E HI']. cbn [visit foldl]. unfold mbind, st_bind.
  rewrite E, Hq. destruct (IH (g a q) _ HI' Hn) as [E2 HI2].
  { intros p Hp. split; [apply Hl; by right|]. cbn.
    destruct (decide (p = x)) as [-> | ]; [done|].
    rewrite lookup_insert_ne by done. apply Hl. by right. }
  rewrite E2. cbn [procs set_procs] in *. cbn [update_all foldl].
  assert (<[x := f q]> (procs s) = alter f x (procs s)) as Ea.
  { apply map_eq. intros i. destruct (decide (i = x)) as [-> | ].
    - by rewrite lookup_insert_eq, lookup_alter_eq, Hq.
    - by rewrite lookup_insert_ne, lookup_alter_ne. }
  rewrite Ea in *. fold (update_all f l (alter f x (procs s))). split; [|exact HI2].
  do 3 f_equal. rewrite <- Ea. generalize (g a q). clear -Hx.
  induction l as [|y l IH]; intros b; [done|]. cbn [foldl].
  rewrite not_elem_of_cons in Hx. destruct Hx as [Hxy Hx].
  rewrite (lookup_insert_ne _ x y) by done. by apply IH.
Qed.

(** A process with given pid and links, for concrete tables. *)
Definition some_process (pid next prev : Z) : process :=
  {| p_state := P_RUNNING; p_counter := 0; p_priority := 0; p_signal := 0; p_blocked := 0;
     p_tss_seg := 48; p_exit_code := 0; p_pid := pid; p_parent := 1; p_pgrp := 0;
     p_session := 0; p_leader := 0; p_uid := 0; p_euid := 0; p_suid := 0; p_gid := 0;
     p_egid := 0; p_sgid := 0; p_alarm := 0; p_utime := 0; p_stime := 0; p_cutime := 0;
     p_cstime := 0; p_start_time := 0; p_first_exec := 0; p_eip := 1;
     p_sigaction := replicate 32 {| sa_handler := 0; sa_mask := 0; sa_flags := 0 |};
     p_next := next; p_prev := prev |}.

(** Process 1 alone on queue 0; process 2 at address 200 on none. *)
Definition two_processes : kstate :=
  {| procs := {[100 := some_process 1 100 100; 200 := some_process 2 0 0]};
     process_tab := 100 :: replicate 31 0; process_size_tab := 1 :: replicate 31 0;
     current_process := 100; previous_process := 0; first_time := true; sched_count := 0 |}.

Lemma two_processes_queues : queues_ok ([100] :: replicate 31 []) two_processes.
Proof.
  split; [done|done| | |].
  - intros l [-> | [-> _]%elem_of_replicate]%elem_of_cons; [|done]. by split.
  - simpl. apply NoDup_singleton.
  - simpl. intros p ->%list_elem_of_singleton. split; [done|]. by eexists.
Qed.
