(* ===== verification/ProcQueue.v ===== *)
(** * Process queues ([kernel/process_queue.c])

    The queue operations on [process_tab] and [process_size_tab], as the kernel
    is built (the checking macros are empty), and their refinement: under the
    representation of the queues as lists they are the operations of a FIFO per
    priority. *)

From S2P Require Import Prelude Process.

(** [proc_q->p_next == proc_q && proc_q->p_prev == proc_q] *)
Definition alone (q : Z) (n : process) : bool := (p_next n =? q) && (p_prev n =? q).

Definition queue_read_front (proc_q : Z) : st kstate Z :=
  n ← load proc_q;
  let priority := p_priority n in
  size ← size_of priority;
  if alone proc_q n && (i32 size =? 1) then
    _ ← tab_set priority 0;
    _ ← update proc_q (set_p_prev 0);
    _ ← update proc_q (set_p_next 0);
    _ ← size_add priority (-1);
    mret proc_q
  else if alone proc_q n && negb (i32 size =? 1) then panic
  else
    head ← tab priority;
    a ← load head;
    _ ← update (p_prev a) (set_p_next (p_next a));
    a ← load head;
    _ ← update (p_next a) (set_p_prev (p_prev a));
    a ← load head;
    _ ← tab_set priority (p_next a);
    _ ← update proc_q (set_p_prev 0);
    _ ← update proc_q (set_p_next 0);
    _ ← size_add priority (-1);
    mret proc_q.

(** The four assignments that append to a queue that is not empty. *)
Definition append (priority proc : Z) : st kstate unit :=
  head ← tab priority;
  _ ← update proc (set_p_next head);
  a ← load head;
  _ ← update proc (set_p_prev (p_prev a));
  a ← load head;
  _ ← update (p_prev a) (set_p_next proc);
  update head (set_p_prev proc).

Definition queue_insert (proc_q proc : Z) : st kstate unit :=
  n ← load proc_q;
  let priority := p_priority n in
  _ ← update proc (set_p_priority priority);
  _ ← append priority proc;
  size_add priority 1.

Definition queue_insert_p (proc_q priority : Z) : st kstate unit :=
  _ ← update proc_q (set_p_priority priority);
  head ← tab priority;
  size ← size_of priority;
  if (head =? 0) && (size =? 0) then
    _ ← update proc_q (set_p_prev proc_q);
    _ ← update proc_q (set_p_next proc_q);
    _ ← tab_set priority proc_q;
    size_add priority 1
  else if (head =? 0) && negb (size =? 0) then panic
  else
    _ ← append priority proc_q;
    size_add priority 1.

Definition queue_remove (proc_q : Z) : st kstate unit :=
  n ← load proc_q;
  let priority := p_priority n in
  size ← size_of priority;
  head ← tab priority;
  if (i32 size =? 0) && (head =? 0) then mret tt
  else if alone proc_q n && (i32 size =? 1) then
    _ ← tab_set priority 0;
    _ ← update proc_q (set_p_prev 0);
    _ ← update proc_q (set_p_next 0);
    _ ← size_add priority (-1);
    mret tt
  else if alone proc_q n && negb (i32 size =? 1) then panic
  else
    let tmp := head in
    _ ← (if tmp =? proc_q then tab_set priority (p_next n) else mret tt);
    t ← load tmp;
    _ ← (if p_prev t =? proc_q then
           h ← tab priority;
           b ← load (p_prev n);
           update h (set_p_prev (p_prev b))
         else mret tt);
    n ← load proc_q;
    _ ← update (p_prev n) (set_p_next (p_next n));
    n ← load proc_q;
    _ ← update (p_next n) (set_p_prev (p_prev n));
    _ ← update proc_q (set_p_prev 0);
    _ ← update proc_q (set_p_next 0);
    _ ← size_add priority (-1);
    mret tt.

Definition queue_size (proc_q : Z) : st kstate Z :=
  n ← load proc_q;
  size_of (p_priority n).

Definition queue_increment_size (priority : Z) : st kstate unit := size_add priority 1.
Definition queue_decrement_size (priority : Z) : st kstate unit := size_add priority (-1).

(** ** Links under updates *)

Definition prio_in (m : gmap Z process) (p : Z) : option Z := p_priority <$> m !! p.

Lemma update_alter s p f :
  is_Some (procs s !! p) -> update p f s = Ret (tt, set_procs (alter f p (procs s)) s).
Proof.
  intros [q Hq]. unfold update. rewrite Hq. do 3 f_equal. apply map_eq. intros i.
  destruct (decide (i = p)) as [-> | ].
  - by rewrite lookup_insert_eq, lookup_alter_eq, Hq.
  - by rewrite lookup_insert_ne, lookup_alter_ne.
Qed.

Lemma alter_is_Some (m : gmap Z process) f p r : is_Some (alter f p m !! r) <-> is_Some (m !! r).
Proof.
  destruct (decide (r = p)) as [-> | ].
  - by rewrite lookup_alter_eq, fmap_is_Some.
  - by rewrite lookup_alter_ne.
Qed.

Section Links.
Context (m : gmap Z process) (p v : Z).

Lemma next_set_next r : is_Some (m !! p) ->
  next_in (alter (set_p_next v) p m) r = if decide (r = p) then Some v else next_in m r.
Proof.
  intros [q Hq]. unfold next_in. case_decide as E; [subst|by rewrite lookup_alter_ne].
  by rewrite lookup_alter_eq, Hq.
Qed.

Lemma prev_set_prev r : is_Some (m !! p) ->
  prev_in (alter (set_p_prev v) p m) r = if decide (r = p) then Some v else prev_in m r.
Proof.
  intros [q Hq]. unfold prev_in. case_decide as E; [subst|by rewrite lookup_alter_ne].
  by rewrite lookup_alter_eq, Hq.
Qed.

Lemma prio_set_prio r : is_Some (m !! p) ->
  prio_in (alter (set_p_priority v) p m) r = if decide (r = p) then Some v else prio_in m r.
Proof.
  intros [q Hq]. unfold prio_in. case_decide as E; [subst|by rewrite lookup_alter_ne].
  by rewrite lookup_alter_eq, Hq.
Qed.

Lemma next_set_prev r : next_in (alter (set_p_prev v) p m) r = next_in m r.
Proof.
  unfold next_in. destruct (decide (r = p)) as [-> | ]; [|by rewrite lookup_alter_ne].
  rewrite lookup_alter_eq. by destruct (m !! p).
Qed.

Lemma prev_set_next r : prev_in (alter (set_p_next v) p m) r = prev_in m r.
Proof.
  unfold prev_in. destruct (decide (r = p)) as [-> | ]; [|by rewrite lookup_alter_ne].
  rewrite lookup_alter_eq. by destruct (m !! p).
Qed.

Lemma next_set_prio r : next_in (alter (set_p_priority v) p m) r = next_in m r.
Proof.
  unfold next_in. destruct (decide (r = p)) as [-> | ]; [|by rewrite lookup_alter_ne].
  rewrite lookup_alter_eq. by destruct (m !! p).
Qed.

Lemma prev_set_prio r : prev_in (alter (set_p_priority v) p m) r = prev_in m r.
Proof.
  unfold prev_in. destruct (decide (r = p)) as [-> | ]; [|by rewrite lookup_alter_ne].
  rewrite lookup_alter_eq. by destruct (m !! p).
Qed.

Lemma prio_set_next r : prio_in (alter (set_p_next v) p m) r = prio_in m r.
Proof.
  unfold prio_in. destruct (decide (r = p)) as [-> | ]; [|by rewrite lookup_alter_ne].
  rewrite lookup_alter_eq. by destruct (m !! p).
Qed.

Lemma prio_set_prev r : prio_in (alter (set_p_prev v) p m) r = prio_in m r.
Proof.
  unfold prio_in. destruct (decide (r = p)) as [-> | ]; [|by rewrite lookup_alter_ne].
  rewrite lookup_alter_eq. by destruct (m !! p).
Qed.
End Links.

(** ** Chains *)

Lemma chain_ext m m' l : forall x z,
  (forall a, a ∈ x :: l -> next_in m' a = next_in m a) ->
  (forall b, b ∈ l ++ [z] -> prev_in m' b = prev_in m b) ->
  chain m x l z -> chain m' x l z.
Proof.
  induction l as [|y l IH]; intros x z Hn Hp; simpl.
  - intros [E1 E2]. split; [rewrite Hn by left|rewrite Hp by left]; done.
  - intros [[E1 E2] H]. split.
    + split; [rewrite Hn by left|rewrite Hp by left]; done.
    + apply IH; [intros a Ha; apply Hn; by right|intros b Hb; apply Hp; by right|done].
Qed.

Lemma chain_app m l1 : forall x y l2 z,
  chain m x (l1 ++ y :: l2) z <-> chain m x l1 y /\ chain m y l2 z.
Proof.
  induction l1 as [|w l1 IH]; intros x y l2 z; simpl; [done|]. rewrite IH. tauto.
Qed.

Lemma ring_rotate m l1 l2 : ring m (l1 ++ l2) -> ring m (l2 ++ l1).
Proof.
  destruct l1 as [|x l1], l2 as [|y l2]; simpl; rewrite ?app_nil_r; try done.
  rewrite !chain_app. tauto.
Qed.

Lemma ring_ext m m' l :
  (forall a, a ∈ l -> next_in m' a = next_in m a) ->
  (forall a, a ∈ l -> prev_in m' a = prev_in m a) -> ring m l -> ring m' l.
Proof.
  destruct l as [|h t]; [done|]. intros Hn Hp. apply chain_ext; [done|].
  intros b [Hb | ->%list_elem_of_singleton]%elem_of_app; apply Hp; [by right|left].
Qed.

Lemma ring_insert m m' h t p last :
  ring m (h :: t) -> NoDup (h :: t) -> p ∉ h :: t -> prev_in m h = Some last ->
  (forall a, next_in m' a = if decide (a = p) then Some h else
                            if decide (a = last) then Some p else next_in m a) ->
  (forall b, prev_in m' b = if decide (b = p) then Some last else
                            if decide (b = h) then Some p else prev_in m b) ->
  ring m' (h :: t ++ [p]).
Proof.
  intros Hr Hn Hp Hl Hnext Hprev. assert (h <> p) as Hhp by (intros ->; apply Hp; left).
  destruct t as [|x t _] using rev_ind; simpl in Hr |- *.
  - destruct Hr as [E1 E2]. rewrite E2 in Hl. injection Hl as <-.
    unfold linked. rewrite !Hnext, !Hprev. by repeat case_decide.
  - rewrite <- app_assoc. simpl. rewrite chain_app in *. destruct Hr as [Hc [E1 E2]].
    rewrite E2 in Hl. injection Hl as <-.
    assert (x <> p) as Hxp by (intros ->; apply Hp; right; apply elem_of_app; right; left).
    apply NoDup_cons in Hn as [Hh Hn]. apply NoDup_app in Hn as (Hn1 & Hn2 & _).
    split.
    + revert Hc. apply chain_ext.
      * intros a Ha. rewrite Hnext. case_decide as Ea.
        { subst a. destruct Hp. apply elem_of_cons in Ha as [-> | Ha]; [left|].
          right. apply elem_of_app. by left. }
        case_decide as Ea'; [|done]. subst a. apply elem_of_cons in Ha as [-> | Ha].
        { destruct Hh. apply elem_of_app. right. left. }
        destruct (Hn2 _ Ha). left.
      * intros b Hb. rewrite Hprev. case_decide as Ea; [subst b; destruct Hp; by right|].
        case_decide as Ea'; [subst b; done|done].
    + cbn [chain]. unfold linked. rewrite !Hnext, !Hprev. repeat case_decide; done.
Qed.

(** Unlinking the head of a ring of two or more. *)
Lemma ring_remove_head m m' p l nxt prv :
  ring m (p :: l) -> NoDup (p :: l) -> l <> [] ->
  next_in m p = Some nxt -> prev_in m p = Some prv ->
  (forall a, a <> p -> next_in m' a = if decide (a = prv) then Some nxt else next_in m a) ->
  (forall b, b <> p -> prev_in m' b = if decide (b = nxt) then Some prv else prev_in m b) ->
  ring m' l /\ nxt = hd 0 l.
Proof.
  intros Hr Hn Hl En Ep Hnext Hprev. destruct l as [|y l]; [done|]. clear Hl.
  simpl in Hr. destruct Hr as [[E1 E2] Hc]. rewrite E1 in En. injection En as <-.
  apply NoDup_cons in Hn as [Hp Hn]. assert (y <> p) as Hyp by (intros ->; apply Hp; left).
  split; [|done]. destruct l as [|x l _] using rev_ind; simpl in Hc |- *.
  - destruct Hc as [E3 E4]. rewrite E4 in Ep. injection Ep as <-.
    split; [rewrite Hnext by done|rewrite Hprev by done]; by case_decide.
  - rewrite chain_app in *. destruct Hc as [Hc [E3 E4]]. rewrite E4 in Ep. injection Ep as <-.
    assert (x <> p) as Hxp by (intros ->; apply Hp; right; apply elem_of_app; right; left).
    apply NoDup_cons in Hn as [Hy Hn]. apply NoDup_app in Hn as (Hn1 & Hn2 & _).
    split.
    + revert Hc. apply chain_ext.
      * intros a Ha. rewrite Hnext.
        { case_decide as Ea; [|done]. subst a. apply elem_of_cons in Ha as [-> | Ha].
          - destruct Hy. apply elem_of_app. right. left.
          - destruct (Hn2 _ Ha). left. }
        intros ->. apply Hp. apply elem_of_cons in Ha as [-> | Ha]; [left|].
        right. apply elem_of_app. by left.
      * intros b Hb. rewrite Hprev by (intros ->; apply Hp; by right).
        case_decide as Ea; [subst b; done|done].
    + split; [rewrite Hnext by done|rewrite Hprev by done]; by case_decide.
Qed.

Lemma ring_remove m m' p l1 l2 nxt prv :
  ring m (l1 ++ p :: l2) -> NoDup (l1 ++ p :: l2) -> l1 ++ l2 <> [] ->
  next_in m p = Some nxt -> prev_in m p = Some prv ->
  (forall a, a <> p -> next_in m' a = if decide (a = prv) then Some nxt else next_in m a) ->
  (forall b, b <> p -> prev_in m' b = if decide (b = nxt) then Some prv else prev_in m b) ->
  ring m' (l1 ++ l2) /\ nxt = hd 0 (l2 ++ l1).
Proof.
  intros Hr Hn Hl En Ep Hnext Hprev.
  destruct (ring_remove_head m m' p (l2 ++ l1) nxt prv) as [H1 H2]; try done.
  - by apply ring_rotate in Hr.
  - by rewrite (Permutation_app_comm l1 (p :: l2)) in Hn.
  - intros [-> ->]%app_eq_nil. done.
  - split; [by apply ring_rotate|done].
Qed.

(** ** The invariant of the queues *)

Record pq_ok (Q : list (list Z)) (s : kstate) : Prop := {
  pq_queues : queues_ok Q s;
  pq_sizes : sizes_ok Q s;
  pq_prio i l p : Q !! i = Some l -> p ∈ l -> prio_in (procs s) p = Some (Z.of_nat i);
  pq_short l : l ∈ Q -> Z.of_nat (length l) < 2147483647
}.

(** [m'] agrees with [m] outside [l]. *)
Definition frame (l : list Z) (m m' : gmap Z process) : Prop :=
  (forall a, is_Some (m !! a) -> is_Some (m' !! a)) /\
  forall a, a ∉ l -> next_in m' a = next_in m a /\ prev_in m' a = prev_in m a /\
                     prio_in m' a = prio_in m a.

Lemma concat_split (Q1 Q2 : list (list Z)) l : concat (Q1 ++ l :: Q2) ≡ₚ l ++ concat Q1 ++ concat Q2.
Proof. rewrite concat_app. simpl. rewrite !(assoc (++)). by rewrite (Permutation_app_comm (concat Q1) l). Qed.

(** Replacing one queue: what an operation must establish about the new one. *)
Lemma pq_replace Q1 l l' Q2 s s' :
  pq_ok (Q1 ++ l :: Q2) s ->
  process_tab s' = <[length Q1 := hd 0 l']> (process_tab s) ->
  process_size_tab s' = <[length Q1 := Z.of_nat (length l')]> (process_size_tab s) ->
  frame (l ++ l') (procs s) (procs s') -> ring (procs s') l' -> NoDup l' ->
  (forall p, p ∈ l' -> p ∈ l \/ p ∉ concat (Q1 ++ l :: Q2)) ->
  (forall p, p ∈ l' -> p <> 0 /\ is_Some (procs s' !! p) /\
     prio_in (procs s') p = Some (Z.of_nat (length Q1))) ->
  Z.of_nat (length l') < 2147483647 ->
  pq_ok (Q1 ++ l' :: Q2) s'.
Proof.
  intros [Hq Hs Hp Hb] Ht Hsz [Hdom Hf] Hr Hn Hin Hl' Hlen.
  pose proof (queues_nodup _ _ Hq) as Hnd. rewrite concat_split in Hnd.
  apply NoDup_app in Hnd as (Hn1 & Hn2 & Hn3).
  assert (forall p, p ∈ concat Q1 ++ concat Q2 -> p ∉ l ++ l') as Hother.
  { intros p Hp1 [Hp2 | Hp2]%elem_of_app; [by apply (Hn2 p Hp2)|].
    destruct (Hin p Hp2) as [H | H]; [by apply (Hn2 p H)|]. apply H. rewrite concat_split.
    apply elem_of_app. by right. }
  assert (forall l0 p, l0 ∈ Q1 \/ l0 ∈ Q2 -> p ∈ l0 -> p ∈ concat Q1 ++ concat Q2) as Hmem.
  { intros l0 p [H | H] Hp0; apply elem_of_app; [left|right]; by eapply elem_of_concat'. }
  split.
  - split.
    + rewrite Ht, (queues_tab _ _ Hq), !map_app. simpl.
      rewrite insert_app_r_alt by (by rewrite length_map). rewrite length_map, Nat.sub_diag. done.
    + pose proof (queues_length _ _ Hq) as H. rewrite length_app in *. exact H.
    + intros l0 [H | [-> | H]%elem_of_cons]%elem_of_app; [|done|].
      all: assert (l0 ∈ Q1 ++ l :: Q2) as H0 by (apply elem_of_app; rewrite elem_of_cons; auto).
      all: apply (ring_ext (procs s)); [intros a Ha..|by apply (queues_ring _ _ Hq)].
      all: apply Hf, Hother, (Hmem l0); auto.
    + rewrite concat_split. apply NoDup_app. split; [done|]. split; [|done].
      intros p H1 H2. apply (Hother p H2). apply elem_of_app. by right.
    + intros p. rewrite concat_split. intros [H | H]%elem_of_app; [by destruct (Hl' p H) as (? & ? & _)|].
      destruct (queues_procs _ _ Hq p) as [H1 H2]; [rewrite concat_split; apply elem_of_app; by right|].
      auto.
  - unfold sizes_ok in *. rewrite Hsz, Hs, !map_app. simpl.
    rewrite insert_app_r_alt by (by rewrite length_map). rewrite length_map, Nat.sub_diag. done.
  - intros i l0 p Hi Hp0. destruct (decide (i = length Q1)) as [-> | Hne].
    + rewrite lookup_app_r, Nat.sub_diag in Hi by done. injection Hi as <-. by apply Hl'.
    + assert ((Q1 ++ l :: Q2) !! i = Some l0 /\ (l0 ∈ Q1 \/ l0 ∈ Q2)) as [Hi' Hmem0].
      { apply lookup_app_Some in Hi as [Hi | [Hge Hi]].
        - split; [by apply lookup_app_l_Some|left; by eapply list_elem_of_lookup_2].
        - rewrite lookup_app_r by done. destruct (i - length Q1)%nat eqn:Ei; [lia|].
          split; [done|]. right. simpl in Hi. by eapply list_elem_of_lookup_2. }
      destruct (Hf p) as (_ & _ & ->); [|by eapply Hp]. apply Hother. by eapply Hmem.
  - intros l0 [H | [-> | H]%elem_of_cons]%elem_of_app; [|done|];
      apply Hb, elem_of_app; rewrite elem_of_cons; auto.
Qed.

(** The same for the links alone, when processes may also be freed. *)
Lemma queues_replace Q1 l l' Q2 s s' :
  queues_ok (Q1 ++ l :: Q2) s -> process_tab s' = <[length Q1 := hd 0 l']> (process_tab s) ->
  (forall a, a ∉ l ++ l' -> is_Some (procs s !! a) -> is_Some (procs s' !! a)) ->
  (forall a, a ∉ l ++ l' -> next_in (procs s') a = next_in (procs s) a /\ prev_in (procs s') a = prev_in (procs s) a) ->
  ring (procs s') l' -> NoDup l' ->
  (forall p, p ∈ l' -> p <> 0 /\ is_Some (procs s' !! p) /\ p ∉ concat Q1 ++ concat Q2) ->
  queues_ok (Q1 ++ l' :: Q2) s'.
Proof.
  intros Hq Ht Hd Hf Hr Hn Hl. pose proof (queues_nodup _ _ Hq) as Hnd. rewrite concat_split in Hnd.
  apply NoDup_app in Hnd as (Hn1 & Hn2 & Hn3).
  assert (forall p, p ∈ concat Q1 ++ concat Q2 -> p ∉ l ++ l') as Hother.
  { intros p Hp [H | H]%elem_of_app; [by apply (Hn2 p H)|]. by destruct (Hl p H) as (_ & _ & ?). }
  assert (forall l0 p, l0 ∈ Q1 \/ l0 ∈ Q2 -> p ∈ l0 -> p ∈ concat Q1 ++ concat Q2) as Hmem.
  { intros l0 p [H | H] Hp0; apply elem_of_app; [left|right]; by eapply elem_of_concat'. }
  split.
  - rewrite Ht, (queues_tab _ _ Hq), !map_app. simpl.
    rewrite insert_app_r_alt by (by rewrite length_map). rewrite length_map, Nat.sub_diag. done.
  - pose proof (queues_length _ _ Hq) as H. rewrite length_app in *. exact H.
  - intros l0 [H | [-> | H]%elem_of_cons]%elem_of_app; [|done|].
    all: assert (l0 ∈ Q1 ++ l :: Q2) as H0 by (apply elem_of_app; rewrite elem_of_cons; auto).
    all: apply (ring_ext (procs s)); [intros a Ha..|by apply (queues_ring _ _ Hq)].
    all: apply Hf, Hother, (Hmem l0); auto.
  - rewrite concat_split. apply NoDup_app. split; [done|]. split; [|done].
    intros p H1 H2. by destruct (Hl p H1) as (_ & _ & ?).
  - intros p. rewrite concat_split. intros [H | H]%elem_of_app; [by destruct (Hl p H) as (? & ? & _)|].
    destruct (queues_procs _ _ Hq p) as [H1 H2]; [rewrite concat_split; apply elem_of_app; by right|].
    split; [done|]. apply Hd; [by apply Hother|done].
Qed.

(** ** Steps of the code *)

Lemma links_load m p : is_Some (m !! p) ->
  exists q, m !! p = Some q /\ next_in m p = Some (p_next q) /\ prev_in m p = Some (p_prev q) /\
    prio_in m p = Some (p_priority q).
Proof. intros [q Hq]. exists q. unfold next_in, prev_in, prio_in. by rewrite Hq. Qed.

Lemma tab_ok s i p : process_tab s !! i = Some p -> tab (Z.of_nat i) s = Ret (p, s).
Proof. intros H. unfold tab. rewrite (proj2 (Z.leb_le _ _)), Nat2Z.id, H by lia. done. Qed.

Lemma tab_set_ok s i p :
  (i < length (process_tab s))%nat -> tab_set (Z.of_nat i) p s = Ret (tt, set_tab i p s).
Proof.
  intros H. unfold tab_set. rewrite (proj2 (Z.leb_le _ _)), (proj2 (Z.ltb_lt _ _)), Nat2Z.id by lia.
  done.
Qed.

Lemma size_of_ok s i n : process_size_tab s !! i = Some n -> size_of (Z.of_nat i) s = Ret (n, s).
Proof. intros H. unfold size_of. rewrite (proj2 (Z.leb_le _ _)), Nat2Z.id, H by lia. done. Qed.

Lemma size_add_ok s i k n :
  process_size_tab s !! i = Some k -> size_add (Z.of_nat i) n s = Ret (tt, set_size i (u32 (k + n)) s).
Proof. intros H. unfold size_add. rewrite (proj2 (Z.leb_le _ _)), Nat2Z.id, H by lia. done. Qed.

(** What the two table cells of a queue hold. *)
Lemma pq_cells Q1 l Q2 s :
  pq_ok (Q1 ++ l :: Q2) s ->
  process_tab s !! length Q1 = Some (hd 0 l) /\
  process_size_tab s !! length Q1 = Some (Z.of_nat (length l)) /\
  (length Q1 < length (process_tab s))%nat.
Proof.
  intros [Hq Hs _ _]. rewrite (queues_tab _ _ Hq), Hs, !list_lookup_fmap.
  rewrite lookup_app_r, Nat.sub_diag, length_map, length_app by done. simpl. split; [done|].
  split; [done|]. lia.
Qed.

(** The pointwise effect of appending and of unlinking. *)
Definition appended (h last p : Z) (m m' : gmap Z process) : Prop :=
  (forall a, is_Some (m !! a) -> is_Some (m' !! a)) /\
  (forall a, next_in m' a = if decide (a = p) then Some h else
                            if decide (a = last) then Some p else next_in m a) /\
  (forall b, prev_in m' b = if decide (b = p) then Some last else
                            if decide (b = h) then Some p else prev_in m b) /\
  forall a, prio_in m' a = prio_in m a.

Lemma append_spec s i h p last :
  process_tab s !! i = Some h -> h <> p -> last <> p -> prev_in (procs s) h = Some last ->
  is_Some (procs s !! h) -> is_Some (procs s !! p) -> is_Some (procs s !! last) ->
  exists m', append (Z.of_nat i) p s = Ret (tt, set_procs m' s) /\ appended h last p (procs s) m'.
Proof.
  intros Ht Hhp Hlp Hlast Hh Hp Hl. unfold append, mbind, st_bind. rewrite (tab_ok _ _ _ Ht).
  rewrite update_alter by done. set (m1 := alter (set_p_next h) p (procs s)).
  assert (forall a, is_Some (procs s !! a) -> is_Some (m1 !! a)) as D1 by (intros; by apply alter_is_Some).
  destruct (links_load m1 h) as (q1 & L1 & _ & P1 & _); [auto|].
  unfold load. cbn [procs set_procs]. rewrite L1. cbn [mret].
  unfold m1 in P1 at 1. rewrite prev_set_next, Hlast in P1. injection P1 as P1. rewrite <- P1.
  rewrite update_alter by (cbn; auto). cbn [procs set_procs].
  set (m2 := alter (set_p_prev last) p m1).
  assert (forall a, is_Some (procs s !! a) -> is_Some (m2 !! a)) as D2 by (intros; apply alter_is_Some; auto).
  destruct (links_load m2 h) as (q2 & L2 & _ & P2 & _); [auto|]. rewrite L2.
  unfold m2 in P2 at 1. rewrite prev_set_prev, decide_False in P2 by auto.
  unfold m1 in P2 at 1. rewrite prev_set_next, Hlast in P2. injection P2 as P2. rewrite <- P2.
  rewrite update_alter by (cbn; auto). cbn [procs set_procs].
  set (m3 := alter (set_p_next p) last m2).
  rewrite update_alter by (cbn; apply alter_is_Some; auto). cbn [procs set_procs].
  exists (alter (set_p_prev p) h m3). split; [done|]. split; [|split; [|split]].
  - intros a Ha. apply alter_is_Some, alter_is_Some. auto.
  - intros a. rewrite next_set_prev. unfold m3. rewrite next_set_next by auto.
    unfold m2. rewrite next_set_prev. unfold m1. rewrite next_set_next by done.
    repeat case_decide; congruence.
  - intros b. rewrite prev_set_prev by (apply alter_is_Some; auto).
    unfold m3. rewrite prev_set_next. unfold m2. rewrite prev_set_prev by auto.
    unfold m1. rewrite prev_set_next. repeat case_decide; congruence.
  - intros a. rewrite prio_set_prev. unfold m3. rewrite prio_set_next.
    unfold m2. rewrite prio_set_prev. unfold m1. by rewrite prio_set_next.
Qed.

Lemma ring_last m h t :
  ring m (h :: t) -> exists last, last ∈ h :: t /\ prev_in m h = Some last /\ next_in m last = Some h.
Proof.
  destruct t as [|x t _] using rev_ind; simpl.
  - intros [E1 E2]. exists h. split; [left|done].
  - rewrite chain_app. intros [_ [E1 E2]]. exists x. split; [|done].
    right. apply elem_of_app. right. left.
Qed.

Lemma ring_prev m h t : ring m (h :: t) -> exists last, last ∈ h :: t /\ prev_in m h = Some last.
Proof. intros (last & ? & ? & _)%ring_last. eauto. Qed.

Lemma pq_member Q1 l Q2 s p :
  pq_ok (Q1 ++ l :: Q2) s -> p ∈ l ->
  p <> 0 /\ is_Some (procs s !! p) /\ prio_in (procs s) p = Some (Z.of_nat (length Q1)) /\
  p ∈ concat (Q1 ++ l :: Q2).
Proof.
  intros Hpq Hp. assert (p ∈ concat (Q1 ++ l :: Q2)) as Hc.
  { rewrite concat_split. apply elem_of_app. by left. }
  destruct (queues_procs _ _ (pq_queues _ _ Hpq) p Hc) as [H1 H2]. split; [done|].
  split; [done|]. split; [|done]. apply (pq_prio _ _ Hpq _ l); [|done].
  by rewrite lookup_app_r, Nat.sub_diag.
Qed.

Lemma pq_ring Q1 l Q2 s :
  pq_ok (Q1 ++ l :: Q2) s -> ring (procs s) l /\ NoDup l /\ Z.of_nat (length l) < 2147483647.
Proof.
  intros Hpq. assert (l ∈ Q1 ++ l :: Q2) as Hl by (apply elem_of_app; right; left).
  split; [by apply (queues_ring _ _ (pq_queues _ _ Hpq))|]. split; [|by apply (pq_short _ _ Hpq)].
  eapply NoDup_concat_elem; [apply (queues_nodup _ _ (pq_queues _ _ Hpq))|done].
Qed.

(** Appending to a queue that has members, then counting. *)
Lemma append_count_spec Q1 h t Q2 s p m0 :
  let l := h :: t in let i := Z.of_nat (length Q1) in
  pq_ok (Q1 ++ l :: Q2) s -> p <> 0 -> p ∉ concat (Q1 ++ l :: Q2) -> is_Some (procs s !! p) ->
  Z.of_nat (length l) + 1 < 2147483647 ->
  m0 = alter (set_p_priority i) p (procs s) ->
  exists s', (_ ← append i p; size_add i 1) (set_procs m0 s) = Ret (tt, s') /\
    pq_ok (Q1 ++ (l ++ [p]) :: Q2) s'.
Proof.
  intros l i Hpq H0 Hp Hsome Hlen ->. destruct (pq_cells _ _ _ _ Hpq) as (Ht & Hs & Hi).
  destruct (pq_ring _ _ _ _ Hpq) as (Hr & Hn & _).
  destruct (ring_prev _ _ _ Hr) as (last & Hlast & Ep).
  assert (forall a, a ∈ l -> a <> p /\ is_Some (procs s !! a)) as Hmem.
  { intros a Ha. destruct (pq_member _ _ _ _ _ Hpq Ha) as (_ & ? & _ & Hc). split; [|done].
    intros ->. done. }
  set (m0 := alter (set_p_priority i) p (procs s)).
  assert (forall a, is_Some (procs s !! a) -> is_Some (m0 !! a)) as D0 by (intros; by apply alter_is_Some).
  destruct (append_spec (set_procs m0 s) (length Q1) h p last) as (m' & E & D & Hnext & Hprev & Hprio);
    [done|apply Hmem; left|by apply Hmem| | | | |].
  { unfold m0. cbn. by rewrite prev_set_prio. }
  { cbn. apply D0, Hmem. left. }
  { cbn. auto. }
  { cbn. apply D0. by apply Hmem. }
  unfold mbind, st_bind. unfold i at 1. rewrite E. unfold i.
  rewrite (size_add_ok _ (length Q1) (Z.of_nat (length l))) by exact Hs.
  eexists. split; [done|]. cbn [procs set_procs] in *.
  eapply (pq_replace Q1 l (l ++ [p]) Q2 s); [done|..]; cbn [process_tab process_size_tab procs set_size set_procs].
  - change (hd 0 (l ++ [p])) with (hd 0 l). symmetry. by apply list_insert_id.
  - f_equal. rewrite u32_small, length_app by lia. simpl. lia.
  - split; [auto|]. intros a Ha.
    assert (a <> p /\ a <> h /\ a <> last) as (Ha1 & Ha2 & Ha3).
    { split; [|split]; intros ->; apply Ha; rewrite !elem_of_app.
      - right. right. left.
      - left. left.
      - by left. }
    rewrite Hnext, Hprev, Hprio. unfold m0. rewrite next_set_prio, prev_set_prio, prio_set_prio by done.
    by rewrite !decide_False.
  - eapply (ring_insert m0 m' h t p last); try done.
    + eapply ring_ext; [| |exact Hr]; intros a _; unfold m0; [apply next_set_prio|apply prev_set_prio].
    + intros Hin. by apply (Hmem p).
    + unfold m0. by rewrite prev_set_prio.
  - apply NoDup_app. split; [done|]. split; [|apply NoDup_singleton].
    intros a Ha ->%list_elem_of_singleton. by apply (Hmem p).
  - intros a [Ha | ->%list_elem_of_singleton]%elem_of_app; auto.
  - intros a Ha. rewrite Hprio. unfold m0. rewrite prio_set_prio by done.
    apply elem_of_app in Ha as [Ha | ->%list_elem_of_singleton].
    + destruct (pq_member _ _ _ _ _ Hpq Ha) as (? & ? & ? & _). split; [done|]. split; [auto|].
      rewrite decide_False by apply (Hmem a Ha). done.
    + split; [done|]. split; [auto|]. by rewrite decide_True.
  - rewrite length_app. simpl length in *. lia.
Qed.

Lemma queue_insert_p_spec Q1 l Q2 s p :
  pq_ok (Q1 ++ l :: Q2) s -> p <> 0 -> p ∉ concat (Q1 ++ l :: Q2) -> is_Some (procs s !! p) ->
  Z.of_nat (length l) + 1 < 2147483647 ->
  exists s', queue_insert_p p (Z.of_nat (length Q1)) s = Ret (tt, s') /\
    pq_ok (Q1 ++ (l ++ [p]) :: Q2) s'.
Proof.
  intros Hpq H0 Hp Hsome Hlen. destruct (pq_cells _ _ _ _ Hpq) as (Ht & Hs & Hi).
  set (i := Z.of_nat (length Q1)). set (m0 := alter (set_p_priority i) p (procs s)).
  unfold queue_insert_p. unfold mbind at 1, st_bind at 1. rewrite update_alter by done. fold m0.
  unfold mbind at 1, st_bind at 1, i at 1. rewrite (tab_ok _ _ (hd 0 l)) by exact Ht.
  unfold mbind at 1, st_bind at 1, i at 1. rewrite (size_of_ok _ _ (Z.of_nat (length l))) by exact Hs.
  destruct l as [|h t].
  2: { destruct (pq_member _ _ _ _ h Hpq) as (Hh0 & _); [left|]. cbn [hd].
       rewrite (proj2 (Z.eqb_neq h 0)) by done. cbn [andb]. by eapply append_count_spec. }
  cbn [hd length]. change ((0 =? 0) && (Z.of_nat 0 =? 0)) with true. cbv iota.
  assert (forall a, is_Some (procs s !! a) -> is_Some (m0 !! a)) as D0 by (intros; by apply alter_is_Some).
  unfold mbind, st_bind. rewrite update_alter by (cbn; auto). cbn [procs set_procs].
  rewrite update_alter by (cbn; apply alter_is_Some; auto). cbn [procs set_procs].
  unfold i. rewrite tab_set_ok by exact Hi.
  rewrite (size_add_ok _ (length Q1) 0) by exact Hs. eexists. split; [done|].
  assert (forall a, is_Some (procs s !! a) ->
    is_Some (alter (set_p_next p) p (alter (set_p_prev p) p m0) !! a)) as D.
  { intros a Ha. apply alter_is_Some, alter_is_Some. auto. }
  eapply (pq_replace Q1 [] [p] Q2 s); [done|..]; cbn [process_tab process_size_tab procs set_size set_tab set_procs].
  - done.
  - done.
  - split; [exact D|]. intros a Ha.
    assert (a <> p) as Hne by (intros ->; apply Ha; left).
    rewrite next_set_next, next_set_prev, prev_set_next, prev_set_prev, prio_set_next, prio_set_prev
      by (try apply alter_is_Some; auto). rewrite !decide_False by done.
    unfold m0. rewrite next_set_prio, prev_set_prio, prio_set_prio, decide_False by done. done.
  - simpl. unfold linked. rewrite next_set_next, prev_set_next, prev_set_prev
      by (try apply alter_is_Some; auto). by rewrite !decide_True.
  - apply NoDup_singleton.
  - intros a ->%list_elem_of_singleton. auto.
  - intros a ->%list_elem_of_singleton. split; [done|]. split; [auto|].
    rewrite prio_set_next, prio_set_prev. unfold m0. by rewrite prio_set_prio, decide_True.
  - simpl. lia.
Qed.

(** Unlinking [p] from between [prv] and [nxt]. *)
Definition unlinked (p nxt prv : Z) (m m' : gmap Z process) : Prop :=
  (forall a, is_Some (m !! a) -> is_Some (m' !! a)) /\
  (forall a, a <> p -> next_in m' a = if decide (a = prv) then Some nxt else next_in m a) /\
  (forall b, b <> p -> prev_in m' b = if decide (b = nxt) then Some prv else prev_in m b) /\
  forall a, prio_in m' a = prio_in m a.

(** The two assignments around [p], then the two that clear its links, from a
    heap [m1] that differs from [m] in the [p_prev] of [nxt] at most. *)
Lemma unlinked_intro p nxt prv m m1 :
  (forall a, is_Some (m !! a) <-> is_Some (m1 !! a)) ->
  (forall a, next_in m1 a = next_in m a) -> (forall a, prio_in m1 a = prio_in m a) ->
  (forall b, b <> nxt -> prev_in m1 b = prev_in m b) ->
  is_Some (m !! p) -> is_Some (m !! nxt) -> is_Some (m !! prv) ->
  unlinked p nxt prv m
    (alter (set_p_next 0) p (alter (set_p_prev 0) p
      (alter (set_p_prev prv) nxt (alter (set_p_next nxt) prv m1)))).
Proof.
  intros D Hn Hpr Hp Sp Sn Sv. apply D in Sp, Sn, Sv. split; [|split; [|split]].
  - intros a Ha. rewrite !alter_is_Some. by apply D.
  - intros a Ha. rewrite next_set_next, decide_False, !next_set_prev, next_set_next, Hn
      by (rewrite ?alter_is_Some; done). done.
  - intros b Hb. rewrite prev_set_next, prev_set_prev, decide_False, prev_set_prev, prev_set_next
      by (rewrite ?alter_is_Some; done). case_decide; [done|]. by apply Hp.
  - intros a. by rewrite prio_set_next, !prio_set_prev, prio_set_next.
Qed.

(** The neighbours of a member of a queue of two or more. *)
Lemma ring_neighbours m p l1 l2 :
  ring m (l1 ++ p :: l2) -> NoDup (l1 ++ p :: l2) -> l1 ++ l2 <> [] ->
  exists nxt prv, next_in m p = Some nxt /\ prev_in m p = Some prv /\
    nxt ∈ l1 ++ l2 /\ prv ∈ l1 ++ l2 /\ nxt <> p /\ prv <> p.
Proof.
  intros Hr Hn Hl. apply ring_rotate in Hr. rewrite (Permutation_app_comm l1 (p :: l2)) in Hn.
  simpl in Hr, Hn. apply NoDup_cons in Hn as [Hp _].
  assert (forall a, a ∈ l2 ++ l1 -> a ∈ l1 ++ l2 /\ a <> p) as Hm.
  { intros a Ha. split; [by rewrite (Permutation_app_comm l1 l2)|]. by intros ->. }
  destruct (l2 ++ l1) as [|y l] eqn:El; [by apply app_eq_nil in El as [-> ->]|].
  pose proof (ring_prev m p (y :: l) Hr) as (last & Hlast & E2).
  destruct Hr as [[E1 _] Hc]. exists y, last. split; [done|]. split; [done|].
  assert (last <> p) as Hne.
  { destruct l as [|x l' _] using rev_ind; simpl in Hc.
    - destruct Hc as [_ E]. rewrite E in E2. injection E2 as <-. by apply Hm; left.
    - rewrite chain_app in Hc. destruct Hc as [_ [_ E]]. rewrite E in E2. injection E2 as <-.
      apply Hm. right. apply elem_of_app. right. left. }
  apply elem_of_cons in Hlast as [-> | Hlast]; [done|].
  destruct (Hm y) as [? ?]; [left|]. by destruct (Hm _ Hlast).
Qed.

Lemma pq_unlink Q1 l1 p l2 Q2 s s' nxt prv m' :
  pq_ok (Q1 ++ (l1 ++ p :: l2) :: Q2) s -> l1 ++ l2 <> [] ->
  next_in (procs s) p = Some nxt -> prev_in (procs s) p = Some prv ->
  unlinked p nxt prv (procs s) m' -> procs s' = m' ->
  process_tab s' = <[length Q1 := hd 0 (l1 ++ l2)]> (process_tab s) ->
  process_size_tab s' =
    <[length Q1 := u32 (Z.of_nat (length (l1 ++ p :: l2)) + -1)]> (process_size_tab s) ->
  pq_ok (Q1 ++ (l1 ++ l2) :: Q2) s'.
Proof.
  intros Hpq Hl En Ep (D & Hn' & Hp' & Hprio) Em Ht Hs.
  destruct (pq_ring _ _ _ _ Hpq) as (Hr & Hnd & Hlen).
  destruct (ring_neighbours _ _ _ _ Hr Hnd Hl) as (nxt' & prv' & En' & Ep' & Hnxt & Hprv & _).
  rewrite En in En'. rewrite Ep in Ep'. injection En' as <-. injection Ep' as <-.
  assert (forall a, a ∈ l1 ++ l2 -> a ∈ l1 ++ p :: l2) as Hsub.
  { intros a. rewrite !elem_of_app, elem_of_cons. tauto. }
  eapply pq_replace; [exact Hpq|done|..]; rewrite ?Em.
  - rewrite Hs. f_equal. rewrite !length_app in *. simpl length in *. rewrite u32_small; lia.
  - split; [done|]. intros a Ha. rewrite elem_of_app in Ha.
    assert (a <> p /\ a <> nxt /\ a <> prv) as (Ha1 & Ha2 & Ha3).
    { split; [|split]; intros ->; apply Ha; [left|right|right]; [|done..].
      apply elem_of_app. right. left. }
    rewrite Hn', Hp', Hprio by done. by rewrite !decide_False.
  - by apply (ring_remove (procs s) m' p l1 l2 nxt prv).
  - rewrite (Permutation_app_comm l1 (p :: l2)) in Hnd. apply NoDup_cons in Hnd as [_ Hnd].
    by rewrite (Permutation_app_comm l1 l2).
  - intros a Ha. left. auto.
  - intros a Ha. rewrite Hprio. destruct (pq_member _ _ _ _ _ Hpq (Hsub a Ha)) as (? & ? & ? & _). auto.
  - rewrite !length_app in *. simpl in *. lia.
Qed.

Lemma load_links s p a b :
  next_in (procs s) p = Some a -> prev_in (procs s) p = Some b ->
  exists q, load p s = Ret (q, s) /\ p_next q = a /\ p_prev q = b /\
    prio_in (procs s) p = Some (p_priority q).
Proof.
  intros Ha Hb. apply next_in_Some in Ha as (q & Hq & <-). exists q. unfold load. rewrite Hq.
  split; [done|]. split; [done|]. unfold prev_in, prio_in in *. rewrite Hq in *. injection Hb as <-. done.
Qed.

(** A queue of one. *)
Lemma pq_single Q1 p Q2 s s' :
  pq_ok (Q1 ++ [p] :: Q2) s ->
  procs s' = alter (set_p_next 0) p (alter (set_p_prev 0) p (procs s)) ->
  process_tab s' = <[length Q1 := 0]> (process_tab s) ->
  process_size_tab s' = <[length Q1 := u32 (1 + -1)]> (process_size_tab s) ->
  pq_ok (Q1 ++ [] :: Q2) s'.
Proof.
  intros Hpq Em Ht Hs. destruct (pq_member _ _ _ _ p Hpq) as (_ & Hp & _); [left|].
  eapply pq_replace; [exact Hpq|done|done|rewrite Em|done|constructor|..].
  - split; [intros a; by rewrite !alter_is_Some|]. intros a Ha.
    assert (a <> p) by (intros ->; apply Ha; left).
    rewrite next_set_next, decide_False, next_set_prev, prev_set_next, prev_set_prev, decide_False,
      prio_set_next, prio_set_prev by (rewrite ?alter_is_Some; done). done.
  - intros a Ha. by apply not_elem_of_nil in Ha.
  - intros a Ha. by apply not_elem_of_nil in Ha.
  - done.
Qed.

(** What reading the fields of a member finds. *)
Lemma member_fields Q1 l1 p l2 Q2 s :
  pq_ok (Q1 ++ (l1 ++ p :: l2) :: Q2) s ->
  exists q, load p s = Ret (q, s) /\ p_priority q = Z.of_nat (length Q1) /\
    next_in (procs s) p = Some (p_next q) /\ prev_in (procs s) p = Some (p_prev q) /\
    alone p q = bool_decide (l1 ++ l2 = []).
Proof.
  intros Hpq. destruct (pq_member _ _ _ _ p Hpq) as (_ & Hs & Hpr & _).
  { apply elem_of_app. right. left. }
  destruct (links_load _ _ Hs) as (q & Hq & E1 & E2 & E3). exists q. unfold load. rewrite Hq.
  split; [done|]. split; [congruence|]. split; [done|]. split; [done|].
  destruct (pq_ring _ _ _ _ Hpq) as (Hr & Hnd & _). unfold alone.
  destruct (decide (l1 ++ l2 = [])) as [E | Hne].
  - rewrite bool_decide_true by done. apply app_eq_nil in E as [-> ->]. destruct Hr as [F1 F2].
    rewrite E1 in F1. rewrite E2 in F2. injection F1 as ->. injection F2 as ->. by rewrite !Z.eqb_refl.
  - rewrite bool_decide_false by done.
    destruct (ring_neighbours _ _ _ _ Hr Hnd Hne) as (n & v & F1 & F2 & _ & _ & Hn & _).
    rewrite E1 in F1. injection F1 as ->. by rewrite (proj2 (Z.eqb_neq n p)).
Qed.

Lemma size_one_or_more (l1 l2 : list Z) (p : Z) :
  Z.of_nat (length (l1 ++ p :: l2)) < 2147483647 ->
  (i32 (Z.of_nat (length (l1 ++ p :: l2))) =? 1) = bool_decide (l1 ++ l2 = []) /\
  (i32 (Z.of_nat (length (l1 ++ p :: l2))) =? 0) = false.
Proof.
  intros H. rewrite i32_small by lia. rewrite length_app in *. simpl length in *. split.
  - destruct l1 as [|x l1], l2 as [|y l2]; simpl length; case_bool_decide; try done;
      apply Z.eqb_neq; lia.
  - apply Z.eqb_neq. lia.
Qed.

(** The clearing of one queue, on its computed state. *)
Lemma clear_single Q1 p Q2 s A (a : A) :
  pq_ok (Q1 ++ [p] :: Q2) s ->
  exists s', (_ ← tab_set (Z.of_nat (length Q1)) 0; _ ← update p (set_p_prev 0);
              _ ← update p (set_p_next 0); _ ← size_add (Z.of_nat (length Q1)) (-1);
              mret a) s = Ret (a, s') /\
    pq_ok (Q1 ++ [] :: Q2) s'.
Proof.
  intros Hpq. destruct (pq_cells _ _ _ _ Hpq) as (Ht & Hs & Hi).
  destruct (pq_member _ _ _ _ p Hpq) as (_ & Hp & _); [left|].
  unfold mbind, st_bind. rewrite tab_set_ok by done.
  rewrite update_alter by done. rewrite update_alter by (cbn; by rewrite alter_is_Some).
  rewrite (size_add_ok _ (length Q1) 1) by exact Hs. eexists. split; [done|].
  by apply (pq_single Q1 p Q2 s).
Qed.

(** The two assignments that take [p] out of its ring. *)
Lemma unlink_steps s p nxt prv A (k : st kstate A) :
  next_in (procs s) p = Some nxt -> prev_in (procs s) p = Some prv -> nxt <> p -> prv <> p ->
  is_Some (procs s !! nxt) -> is_Some (procs s !! prv) ->
  (n ← load p; _ ← update (p_prev n) (set_p_next (p_next n));
   n ← load p; _ ← update (p_next n) (set_p_prev (p_prev n)); k) s =
  k (set_procs (alter (set_p_prev prv) nxt (alter (set_p_next nxt) prv (procs s))) s).
Proof.
  intros En Ep Hn Hv Sn Sv. unfold mbind, st_bind.
  destruct (load_links s p nxt prv En Ep) as (q & -> & -> & -> & _).
  rewrite update_alter by done. set (m1 := alter (set_p_next nxt) prv (procs s)).
  destruct (load_links (set_procs m1 s) p nxt prv) as (q1 & -> & -> & -> & _).
  { unfold m1. cbn. by rewrite next_set_next, decide_False by done. }
  { unfold m1. cbn. by rewrite prev_set_next. }
  rewrite update_alter by (unfold m1; cbn; by rewrite alter_is_Some). done.
Qed.

(** The end of both functions. *)
Lemma clear_links_spec s p i n k A (a : A) :
  is_Some (procs s !! p) -> process_size_tab s !! i = Some n ->
  (_ ← update p (set_p_prev 0); _ ← update p (set_p_next 0);
   _ ← size_add (Z.of_nat i) k; mret a) s =
  Ret (a, set_size i (u32 (n + k))
            (set_procs (alter (set_p_next 0) p (alter (set_p_prev 0) p (procs s))) s)).
Proof.
  intros Hp Hn. unfold mbind, st_bind. rewrite update_alter by done.
  rewrite update_alter by (cbn; by rewrite alter_is_Some).
  by rewrite (size_add_ok _ i n) by exact Hn.
Qed.

(** Side conditions on pointers: distinct, or in the heap. *)
Ltac ptr := solve [done | congruence | rewrite ?alter_is_Some; auto].

(** Taking the head from a queue. *)
Lemma queue_read_front_spec Q1 p l Q2 s :
  pq_ok (Q1 ++ (p :: l) :: Q2) s ->
  exists s', queue_read_front p s = Ret (p, s') /\ pq_ok (Q1 ++ l :: Q2) s'.
Proof.
  intros Hpq. destruct (pq_cells _ _ _ _ Hpq) as (Ht & Hs & Hi).
  destruct (pq_ring _ _ _ _ Hpq) as (Hr & Hnd & Hlen).
  destruct (member_fields Q1 [] p l Q2 s Hpq) as (q & El & Epr & En & Ep & Ea).
  destruct (size_one_or_more [] l p Hlen) as [E1 _]. cbn [app] in *.
  unfold queue_read_front. unfold mbind at 1, st_bind at 1. rewrite El, Epr.
  unfold mbind at 1, st_bind at 1. rewrite (size_of_ok _ _ _ Hs), Ea, E1.
  destruct (decide (l = [])) as [-> | Hl].
  { rewrite bool_decide_true by done. cbn [andb]. by apply clear_single. }
  rewrite bool_decide_false by done. cbn [andb negb].
  destruct (ring_neighbours _ p [] l Hr Hnd Hl) as (nxt & prv & Fn & Fp & Hin1 & Hin2 & Hn & Hv).
  cbn [app] in Hin1, Hin2.
  assert (forall a, a ∈ p :: l -> is_Some (procs s !! a)) as Hmem.
  { intros a Ha. by destruct (pq_member _ _ _ _ _ Hpq Ha) as (_ & ? & _). }
  pose proof (Hmem nxt ltac:(by right)) as Sn. pose proof (Hmem prv ltac:(by right)) as Sv.
  unfold mbind at 1, st_bind at 1. rewrite (tab_ok _ _ _ Ht). cbn [hd].
  rewrite (unlink_steps s p nxt prv) by (done || (apply Hmem; by right)).
  set (m2 := alter _ _ _). unfold mbind at 1, st_bind at 1.
  destruct (load_links (set_procs m2 s) p nxt prv) as (q2 & -> & -> & _).
  { unfold m2. cbn. by rewrite next_set_prev, next_set_next, decide_False by ptr. }
  { unfold m2. cbn. by rewrite prev_set_prev, decide_False, prev_set_next by ptr. }
  unfold mbind at 1, st_bind at 1. rewrite tab_set_ok by done.
  rewrite (clear_links_spec _ p (length Q1) (Z.of_nat (length (p :: l))))
    by (cbn; unfold m2; rewrite ?alter_is_Some; auto; apply Hmem; left).
  eexists. split; [done|].
  assert (nxt = hd 0 l) as ->. { destruct l; [done|]. destruct Hr as [[F _] _]. simpl. congruence. }
  eapply (pq_unlink Q1 [] p l Q2 s); [done|done|exact Fn|exact Fp| |done|done|done].
  apply unlinked_intro; auto; try done; try (apply Hmem; (left || by right)).
Qed.

(** Removing a member wherever it is. *)
Lemma queue_remove_spec Q1 l1 p l2 Q2 s :
  pq_ok (Q1 ++ (l1 ++ p :: l2) :: Q2) s ->
  exists s', queue_remove p s = Ret (tt, s') /\ pq_ok (Q1 ++ (l1 ++ l2) :: Q2) s'.
Proof.
  intros Hpq. destruct (pq_cells _ _ _ _ Hpq) as (Ht & Hs & Hi).
  destruct (pq_ring _ _ _ _ Hpq) as (Hr & Hnd & Hlen).
  destruct (member_fields Q1 l1 p l2 Q2 s Hpq) as (q & El & Epr & En & Ep & Ea).
  destruct (size_one_or_more l1 l2 p Hlen) as [E1 E0].
  unfold queue_remove. unfold mbind at 1, st_bind at 1. rewrite El, Epr.
  unfold mbind at 1, st_bind at 1. rewrite (size_of_ok _ _ _ Hs).
  unfold mbind at 1, st_bind at 1. rewrite (tab_ok _ _ _ Ht), Ea, E1, E0. cbn [andb].
  destruct (decide (l1 ++ l2 = [])) as [E | Hl].
  { apply app_eq_nil in E as [-> ->]. rewrite bool_decide_true by done. cbn [andb].
    by apply clear_single. }
  rewrite bool_decide_false by done. cbn [andb negb].
  destruct (ring_neighbours _ p l1 l2 Hr Hnd Hl) as (nxt & prv & Fn & Fp & Hin1 & Hin2 & Hn & Hv).
  rewrite En in Fn. rewrite Ep in Fp. injection Fn as Fn. injection Fp as Fp.
  assert (forall a, a ∈ l1 ++ p :: l2 -> is_Some (procs s !! a)) as Hmem.
  { intros a Ha. by destruct (pq_member _ _ _ _ _ Hpq Ha) as (_ & ? & _). }
  assert (forall a, a ∈ l1 ++ l2 -> is_Some (procs s !! a)) as Hmem'.
  { intros a Ha. apply Hmem. rewrite elem_of_app, elem_of_cons in *. tauto. }
  pose proof (Hmem' nxt Hin1) as Sn. pose proof (Hmem' prv Hin2) as Sv.
  pose proof (Hmem p ltac:(apply elem_of_app; right; left)) as Sp.
  (* the table cell after the first test: the head of what stays *)
  assert (exists s1, (if hd 0 (l1 ++ p :: l2) =? p then tab_set (Z.of_nat (length Q1)) (p_next q)
                      else mret tt) s = Ret (tt, s1) /\
    s1 = set_tab (length Q1) (hd 0 (l1 ++ l2)) s) as (s1 & E & Es1).
  { destruct l1 as [|h l1]; cbn [app hd].
    - rewrite Z.eqb_refl, tab_set_ok, Fn by done. eexists. split; [done|]. f_equal.
      destruct l2 as [|y l2]; [done|]. destruct Hr as [[F _] _]. simpl. congruence.
    - apply NoDup_cons in Hnd as [Hh _]. rewrite (proj2 (Z.eqb_neq h p))
        by (intros ->; apply Hh, elem_of_app; right; left).
      eexists. split; [done|]. cbn [app hd] in Ht. unfold set_tab. rewrite list_insert_id by done.
      by destruct s. }
  unfold mbind at 1, st_bind at 1. rewrite E. clear E.
  (* the second test assigns the p_prev of the successor at most *)
  assert (hd 0 (l1 ++ p :: l2) ∈ l1 ++ p :: l2) as Hhd by (destruct l1; left).
  destruct (links_load _ _ (Hmem _ Hhd)) as (t & Et & _ & Etp & _).
  unfold mbind at 1, st_bind at 1. unfold load at 1. rewrite Es1. cbn [procs set_tab]. rewrite Et.
  assert (exists m1, (if p_prev t =? p then
            h ← tab (Z.of_nat (length Q1)); b ← load (p_prev q); update h (set_p_prev (p_prev b))
          else mret tt) (set_tab (length Q1) (hd 0 (l1 ++ l2)) s) =
      Ret (tt, set_procs m1 (set_tab (length Q1) (hd 0 (l1 ++ l2)) s)) /\
    (forall a, is_Some (procs s !! a) <-> is_Some (m1 !! a)) /\
    (forall a, next_in m1 a = next_in (procs s) a) /\
    (forall a, prio_in m1 a = prio_in (procs s) a) /\
    (forall b, b <> nxt -> prev_in m1 b = prev_in (procs s) b)) as (m1 & E & D & M1 & M2 & M3).
  { destruct (Z.eqb_spec (p_prev t) p) as [Etp' | _].
    2: { exists (procs s). split; [|done]. by destruct s. }
    set (h0 := hd 0 (l1 ++ p :: l2)) in *.
    assert (nxt = h0) as ->.
    { destruct (l1 ++ p :: l2) as [|x l] eqn:Ell; [by apply app_eq_nil in Ell as [_ ?]|].
      destruct (ring_last _ _ _ Hr) as (last & _ & F1 & F2). subst h0. cbn [hd] in *. congruence. }
    assert (hd 0 (l1 ++ l2) = h0) as ->.
    { subst h0. destruct l1; [done|done]. }
    unfold mbind, st_bind. rewrite (tab_ok _ _ h0) by (cbn; by apply list_lookup_insert_eq).
    unfold load. cbn [procs set_tab]. rewrite Fp. destruct Sv as [b Sv]. rewrite Sv.
    rewrite update_alter by done. eexists. split; [done|]. cbn [procs set_tab].
    split; [intros a; by rewrite alter_is_Some|]. split; [intros a; apply next_set_prev|].
    split; [intros a; apply prio_set_prev|]. intros b' Hb'. by rewrite prev_set_prev, decide_False. }
  unfold mbind at 1, st_bind at 1. rewrite E. clear E.
  rewrite (unlink_steps _ p nxt prv); cbn [procs set_procs set_tab];
    [|rewrite M1; congruence|rewrite M3 by ptr; congruence|done|done|by apply D|by apply D].
  rewrite (clear_links_spec _ p (length Q1) (Z.of_nat (length (l1 ++ p :: l2))))
    by (cbn; rewrite ?alter_is_Some; (apply D + idtac); done).
  eexists. split; [done|].
  eapply (pq_unlink Q1 l1 p l2 Q2 s); [done|done|rewrite <- Fn; exact En|rewrite <- Fp; exact Ep| |done|done|done].
  rewrite Fn, Fp. by apply unlinked_intro.
Qed.

Lemma queue_insert_spec Q1 l Q2 s q p :
  pq_ok (Q1 ++ l :: Q2) s -> q ∈ l -> p <> 0 -> p ∉ concat (Q1 ++ l :: Q2) ->
  is_Some (procs s !! p) -> Z.of_nat (length l) + 1 < 2147483647 ->
  exists s', queue_insert q p s = Ret (tt, s') /\ pq_ok (Q1 ++ (l ++ [p]) :: Q2) s'.
Proof.
  intros Hpq Hq H0 Hp Hsome Hlen. apply list_elem_of_split in Hq as (l1 & l2 & ->).
  destruct (member_fields Q1 l1 q l2 Q2 s Hpq) as (n & El & Epr & _).
  unfold queue_insert. unfold mbind at 1, st_bind at 1. rewrite El, Epr.
  unfold mbind at 1, st_bind at 1. rewrite update_alter by done.
  destruct (l1 ++ q :: l2) as [|h t] eqn:E; [by apply app_eq_nil in E as [_ ?]|].
  by eapply append_count_spec.
Qed.

(** ** The FIFO specification *)

Inductive qop : Type :=
| Insert_p (p i : Z)
| Insert (q p : Z)
| Remove (p : Z)
| Read_front (p : Z)
| Size (p : Z).

Definition run_qop (o : qop) : st kstate Z :=
  match o with
  | Insert_p p i => _ ← queue_insert_p p i; mret 0
  | Insert q p => _ ← queue_insert q p; mret 0
  | Remove p => _ ← queue_remove p; mret 0
  | Read_front p => queue_read_front p
  | Size p => queue_size p
  end.

(** A process that is not on a queue can join one. *)
Definition joins (s : kstate) (Q : list (list Z)) (l : list Z) (p : Z) : Prop :=
  p <> 0 /\ (p ∉ concat Q) /\ is_Some (procs s !! p) /\ Z.of_nat (length l) + 1 < 2147483647.

(** What each operation does to the lists, and returns. *)
Inductive qspec (s : kstate) : list (list Z) -> qop -> Z -> list (list Z) -> Prop :=
| spec_insert_p Q1 l Q2 p :
    joins s (Q1 ++ l :: Q2) l p ->
    qspec s (Q1 ++ l :: Q2) (Insert_p p (Z.of_nat (length Q1))) 0 (Q1 ++ (l ++ [p]) :: Q2)
| spec_insert Q1 l Q2 q p :
    q ∈ l -> joins s (Q1 ++ l :: Q2) l p ->
    qspec s (Q1 ++ l :: Q2) (Insert q p) 0 (Q1 ++ (l ++ [p]) :: Q2)
| spec_remove Q1 l1 p l2 Q2 :
    qspec s (Q1 ++ (l1 ++ p :: l2) :: Q2) (Remove p) 0 (Q1 ++ (l1 ++ l2) :: Q2)
| spec_read_front Q1 p l Q2 :
    qspec s (Q1 ++ (p :: l) :: Q2) (Read_front p) p (Q1 ++ l :: Q2)
| spec_size Q1 l1 p l2 Q2 :
    qspec s (Q1 ++ (l1 ++ p :: l2) :: Q2) (Size p) (Z.of_nat (length (l1 ++ p :: l2)))
      (Q1 ++ (l1 ++ p :: l2) :: Q2).

(** C18: the process queues refine one FIFO list per priority: inserting appends
    at the tail, reading the front of a queue takes its head, removing deletes a
    member anywhere, and the counted size is the length; the circular links, the
    table and the sizes stay consistent through every operation. *)
Theorem queues_refine_fifo Q s o r Q' :
  pq_ok Q s -> qspec s Q o r Q' ->
  exists s', run_qop o s = Ret (r, s') /\ pq_ok Q' s'.
Proof.
  intros Hpq Ho. destruct Ho as [Q1 l Q2 p (H1 & H2 & H3 & H4)|Q1 l Q2 q p Hq (H1 & H2 & H3 & H4)|
    Q1 l1 p l2 Q2|Q1 p l Q2|Q1 l1 p l2 Q2]; cbn [run_qop].
  - destruct (queue_insert_p_spec Q1 l Q2 s p) as (s' & E & ?); [done..|].
    exists s'. unfold mbind, st_bind. by rewrite E.
  - destruct (queue_insert_spec Q1 l Q2 s q p) as (s' & E & ?); [done..|].
    exists s'. unfold mbind, st_bind. by rewrite E.
  - destruct (queue_remove_spec Q1 l1 p l2 Q2 s) as (s' & E & ?); [done..|].
    exists s'. unfold mbind, st_bind. by rewrite E.
  - by apply queue_read_front_spec.
  - exists s. split; [|done]. destruct (member_fields Q1 l1 p l2 Q2 s Hpq) as (n & El & Epr & _).
    unfold queue_size, mbind, st_bind. rewrite El, Epr. apply size_of_ok. by eapply pq_cells.
Qed.

Lemma two_processes_ok : pq_ok ([] ++ [100] :: replicate 31 []) two_processes.
Proof.
  split.
  - exact two_processes_queues.
  - done.
  - intros [|i] l p Hi Hp.
    + injection Hi as <-. by apply list_elem_of_singleton in Hp as ->.
    + assert (replicate 31 [] !! i = Some l) as [-> _]%lookup_replicate by exact Hi.
      by apply not_elem_of_nil in Hp.
  - intros l [-> | [-> _]%elem_of_replicate]%elem_of_cons; simpl; lia.
Qed.

Lemma queues_refine_fifo_witness :
  exists s', queue_insert_p 200 0 two_processes = Ret (tt, s') /\
    pq_ok ([100; 200] :: replicate 31 []) s'.
Proof.
  destruct (queues_refine_fifo _ two_processes (Insert_p 200 (Z.of_nat (length (@nil (list Z))))) 0
    ([] ++ ([100] ++ [200]) :: replicate 31 []) two_processes_ok) as (s' & E & Hpq).
  - apply spec_insert_p. split; [done|]. split; [|split; [by eexists|simpl; lia]].
    simpl. intros H%list_elem_of_singleton. done.
  - exists s'. split; [|exact Hpq]. cbn [run_qop] in E. unfold mbind, st_bind in E.
    change (Z.of_nat (length [])) with 0 in E.
    destruct (queue_insert_p 200 0 two_processes) as [[[] s1]| | |]; [|discriminate..].
    injection E as ->. reflexivity.
Defined.
