(* ===== verification/Sched.v ===== *)
(** * The scheduler ([kernel/scheduler.c])

    Processes are found and scheduled by walking every queue.  The time
    [ktime] returns is the argument [now] (the clock does not tick during one
    call), the address of [kstart] is an argument, and the task switch itself,
    an assembly routine, is the value [schedule] returns: the process whose TSS
    is saved (0 the first time), the process switched to, and the mode. *)

From S2P Require Import Prelude Process.

Definition SIGHUP : Z := 1.
Definition SIGKILL : Z := 9.
Definition SIGALRM : Z := 14.
Definition SIGCHLD : Z := 17.
Definition SIGSTOP : Z := 19.
Definition SIGTTOU : Z := 22.

(** [p->p_signal |= (1 << signal)] *)
Definition raise_signal (signal : Z) (p : process) : process :=
  set_p_signal (i32 (Z.lor (p_signal p) (Z.shiftl 1 signal))) p.

Definition find_body (pid : Z) (p : Z) (_ : unit) : st kstate (unit + Z) :=
  q ← load p;
  if p_pid q =? pid then mret (inr p) else mret (inl tt).

Definition find_process (pid : Z) : st kstate Z :=
  r ← for_processes (find_body pid) tt;
  mret (match r with inr p => p | inl _ => 0 end).

Definition find_init : st kstate Z := find_process 1.

(** The static [can_block] of [schedule]. *)
Definition can_block : Z :=
  u32 (Z.lnot (Z.lor (Z.shiftl 1 SIGKILL) (Z.shiftl 1 SIGSTOP))).

(** The first loop: alarms, and the processes a signal wakes. *)
Definition wake (now : Z) (p : process) : process :=
  let p :=
    if negb (p_alarm p =? 0) && (u32 now <=? u32 (p_alarm p + p_start_time p)) then
      set_p_alarm 0 (raise_signal SIGALRM p)
    else p in
  if negb (Z.land (u32 (p_signal p)) (u32 (Z.lnot (Z.land can_block (u32 (p_blocked p))))) =? 0)
     && (p_state p =? P_INTERRUPTIBLE) then
    set_p_state P_RUNNING p
  else p.

(** The second loop: every counter is decremented. *)
Definition tick (p : process) : process := set_p_counter (i32 (p_counter p - 1)) p.

Definition tick_body (p : Z) (_ : unit) : st kstate (unit + unit) :=
  _ ← update p tick;
  _ ← modify (fun s => set_sched_count (u32 (sched_count s + 1)) s);
  mret (inl tt).

(** The third: the first process with the highest counter; [proc] starts as the
    current process. *)
Definition pick_body (p : Z) (proc : Z) : st kstate (Z + unit) :=
  a ← load proc;
  b ← load p;
  mret (inl (if p_counter a <? p_counter b then p else proc)).

(** The walk that prints the queues before the panic. *)
Definition count_body (p : Z) (_ : unit) : st kstate (unit + unit) :=
  _ ← modify (fun s => set_sched_count (u32 (sched_count s + 1)) s);
  mret (inl tt).

(** What [schedule] does once a process is chosen. *)
Definition switch_to (kstart proc : Z) : st kstate (option (Z * Z * Z)) :=
  curr ← gets current_process;
  _ ← modify (set_current curr proc);
  q ← load proc;
  let mode := if (p_first_exec q =? 0) || (p_first_exec q =? 1) then 1 else 0 in
  _ ← (if p_first_exec q =? 1 then update proc (set_p_eip kstart) else mret tt);
  _ ← update proc (set_p_first_exec 2);
  q ← load proc;
  if p_eip q =? 0 then
    _ ← modify (set_sched_count 0);
    _ ← for_processes count_body tt;
    panic
  else
    first ← gets first_time;
    if (first : bool) then
      _ ← modify (set_first_time false);
      mret (Some (0, proc, mode))
    else
      prev ← gets previous_process;
      mret (Some (prev, proc, mode)).

Definition schedule (now kstart : Z) : st kstate (option (Z * Z * Z)) :=
  proc ← gets current_process;
  if proc =? 0 then panic
  else
    _ ← for_processes (each (wake now)) tt;
    _ ← for_processes tick_body tt;
    r ← for_processes pick_body proc;
    let proc := match r with inl p => p | inr _ => proc end in
    if proc =? 0 then mret None
    else
      curr ← gets current_process;
      _ ← update curr tick;
      c ← load curr;
      first ← gets first_time;
      if (first : bool) || (negb (proc =? curr) && negb (p_tss_seg c =? 0)) then switch_to kstart proc
      else mret None.

Definition kpause (now kstart : Z) : st kstate Z :=
  curr ← gets current_process;
  _ ← update curr (set_p_state P_INTERRUPTIBLE);
  _ ← schedule now kstart;
  mret 0.

Definition knice (value : Z) : st kstate Z :=
  curr ← gets current_process;
  c ← load curr;
  if 0 <? i32 (p_counter c - value) then
    _ ← update curr (set_p_counter (i32 (p_counter c - value)));
    mret 0
  else mret 0.

Definition kgetpgid (pid : Z) : st kstate Z :=
  if pid =? 0 then
    curr ← gets current_process;
    c ← load curr;
    mret (p_gid c)
  else
    proc ← find_process pid;
    if proc =? 0 then mret (-1)
    else q ← load proc; mret (p_gid q).

(** ** Finding a process *)

(** The first member with the pid. *)
Definition first_with (pid : Z) (m : gmap Z process) (l : list Z) : option Z :=
  snd <$> list_find (fun p => p_pid <$> m !! p = Some pid) l.

Lemma find_visit pid s l :
  (forall p, p ∈ l -> is_Some (procs s !! p)) ->
  visit (find_body pid) l tt s =
    Ret (match first_with pid (procs s) l with Some p => inr p | None => inl tt end, s).
Proof.
  unfold first_with. induction l as [|x l IH]; intros Hl; [done|]. cbn [visit list_find].
  destruct (Hl x) as [q Hq]; [left|]. unfold mbind, st_bind. unfold find_body at 1.
  unfold mbind, st_bind, load.
  rewrite Hq. cbn [fmap option_fmap option_map].
  case_decide as E.
  - injection E as ->. by rewrite Z.eqb_refl.
  - rewrite (proj2 (Z.eqb_neq _ _)) by (intros Ep; apply E; by rewrite Ep). cbn [mret st_ret].
    rewrite IH by (intros p Hp; apply Hl; by right). do 2 f_equal.
    by destruct (list_find _ l) as [[i p]|].
Qed.

Lemma find_process_spec pid Q s :
  queues_ok Q s ->
  find_process pid s = Ret (default 0 (first_with pid (procs s) (concat Q)), s).
Proof.
  intros Hok. unfold find_process, mbind, st_bind.
  rewrite (for_processes_visit _ Q) by (try apply keeps_links_run; unfold find_body; intros; keeps; done).
  rewrite find_visit by apply Hok. by destruct (first_with _ _ _).
Qed.

(** The walk over the circular queues terminates, changes nothing and finds
    a process: the address returned is a queued process with the pid, and 0 is
    returned only when no queued process has it. *)
Theorem find_process_correct pid Q s :
  queues_ok Q s ->
  exists p, find_process pid s = Ret (p, s) /\
    if p =? 0 then forall q, q ∈ concat Q -> p_pid <$> procs s !! q <> Some pid
    else p ∈ concat Q /\ p_pid <$> procs s !! p = Some pid.
Proof.
  intros Hok. exists (default 0 (first_with pid (procs s) (concat Q))).
  split; [by apply find_process_spec|]. unfold first_with.
  destruct (list_find _ (concat Q)) as [[i p]|] eqn:E; simpl.
  - apply list_find_Some in E as (Hi & E & _).
    assert (p ∈ concat Q) as Hp by (by eapply list_elem_of_lookup_2).
    destruct (queues_procs _ _ Hok p Hp) as [H0 _]. by rewrite (proj2 (Z.eqb_neq p 0)).
  - intros q Hq. apply list_find_None in E. rewrite Forall_forall in E. by apply E.
Qed.

(** ** Scheduling *)

Definition counter (m : gmap Z process) (p : Z) : Z :=
  match m !! p with Some q => p_counter q | None => 0 end.

(** The heap after the first two loops. *)
Definition ticked (now : Z) (l : list Z) (m : gmap Z process) : gmap Z process :=
  update_all tick l (update_all (wake now) l m).

Definition pick (m : gmap Z process) (proc p : Z) : Z :=
  if counter m proc <? counter m p then p else proc.

Lemma visit_tick l : forall s,
  (forall p, p ∈ l -> is_Some (procs s !! p)) ->
  exists n, visit tick_body l tt s =
    Ret (inl tt, set_sched_count n (set_procs (update_all tick l (procs s)) s)).
Proof.
  induction l as [|x l IH]; intros s Hl; [exists (sched_count s); by destruct s|].
  cbn [visit]. unfold mbind, st_bind. unfold tick_body at 1. unfold update, modify, mbind, st_bind.
  destruct (Hl x) as [q Hq]; [left|]. rewrite Hq. cbn [mret st_ret].
  assert (<[x := tick q]> (procs s) = alter tick x (procs s)) as ->.
  { apply map_eq. intros i. destruct (decide (i = x)) as [-> | ].
    - by rewrite lookup_insert_eq, lookup_alter_eq, Hq.
    - by rewrite lookup_insert_ne, lookup_alter_ne. }
  match goal with |- context [visit tick_body l tt ?s0] => destruct (IH s0) as [n E] end; [|eauto].
  intros p Hp. cbn. destruct (decide (p = x)) as [-> | ].
  - rewrite lookup_alter_eq, Hq. eauto.
  - rewrite lookup_alter_ne by done. apply Hl. by right.
Qed.

Lemma visit_pick l : forall proc s,
  is_Some (procs s !! proc) -> (forall p, p ∈ l -> is_Some (procs s !! p)) ->
  visit pick_body l proc s = Ret (inl (foldl (pick (procs s)) proc l), s).
Proof.
  induction l as [|x l IH]; intros proc s [a Ha] Hl; [done|]. destruct (Hl x) as [b Hb]; [left|].
  cbn [visit foldl]. unfold mbind, st_bind. unfold pick_body at 1.
  unfold load, mbind, st_bind. rewrite Ha, Hb. cbn [mret st_ret].
  unfold pick at 2, counter. rewrite Ha, Hb.
  apply IH; [|intros p Hp; apply Hl; by right]. destruct (_ <? _); eauto.
Qed.

Lemma visit_count l : forall s, exists n, visit count_body l tt s = Ret (inl tt, set_sched_count n s).
Proof.
  induction l as [|x l IH]; intros s; [exists (sched_count s); by destruct s|].
  cbn [visit]. unfold mbind, st_bind. unfold count_body at 1. unfold modify, mbind, st_bind.
  cbn [mret st_ret]. match goal with |- context [visit count_body l tt ?s0] => destruct (IH s0) as [n E] end.
  eauto.
Qed.

Lemma foldl_pick m l : forall proc,
  let sel := foldl (pick m) proc l in
  (sel = proc \/ sel ∈ l) /\ (forall p, p ∈ proc :: l -> counter m p <= counter m sel) /\
  (sel = proc \/ counter m proc < counter m sel).
Proof.
  induction l as [|x l IH]; intros proc; simpl.
  - split; [auto|]. split; [|auto]. intros p ->%list_elem_of_singleton. done.
  - destruct (IH (pick m proc x)) as (H1 & H2 & H3). set (sel := foldl (pick m) (pick m proc x) l) in *.
    unfold pick in H1, H2, H3. destruct (Z.ltb_spec (counter m proc) (counter m x)) as [Hlt | Hge].
    + assert (counter m x <= counter m sel) by (apply H2; left).
      split; [right; rewrite elem_of_cons; destruct H1; auto|]. split; [|right; lia].
      intros p [-> | Hp]%elem_of_cons; [lia|by apply H2].
    + assert (counter m proc <= counter m sel) by (apply H2; left).
      split; [rewrite elem_of_cons; destruct H1; auto|]. split; [|done].
      intros p [-> | [-> | Hp]%elem_of_cons]%elem_of_cons; [done|lia|]. apply H2. by right.
Qed.

Lemma update_all_some f l m p : NoDup l -> is_Some (m !! p) -> is_Some (update_all f l m !! p).
Proof. intros Hn H. rewrite update_all_lookup by done. case_decide; [by apply fmap_is_Some|done]. Qed.

Lemma wake_links now : keeps_next_prev (wake now).
Proof.
  intros p. unfold wake. destruct (negb (p_alarm p =? 0) && _); destruct (_ && _); done.
Qed.

Lemma tick_links : keeps_next_prev tick.
Proof. done. Qed.

Lemma update_all_links f l s : keeps_next_prev f -> NoDup l ->
  same_links s (set_procs (update_all f l (procs s)) s).
Proof.
  intros Hf Hn. split; [done|]. split.
  - cbn. rewrite <- !size_dom. f_equal. apply set_eq. intros p. rewrite !elem_of_dom.
    rewrite update_all_lookup by done. case_decide; [by rewrite fmap_is_Some|done].
  - intros p. cbn. unfold next_in, prev_in. rewrite update_all_lookup by done.
    case_decide; [|done]. destruct (procs s !! p) as [q|]; [|done]. cbn.
    destruct (Hf q) as [-> ->]. done.
Qed.

(** The three loops. *)
Lemma schedule_loops now Q s c :
  queues_ok Q s -> c ∈ concat Q -> current_process s = c ->
  exists n, let s1 := set_sched_count n (set_procs (ticked now (concat Q) (procs s)) s) in
    queues_ok Q s1 /\
    (_ ← for_processes (each (wake now)) tt; _ ← for_processes tick_body tt;
     for_processes pick_body c) s =
    Ret (inl (foldl (pick (procs s1)) c (concat Q)), s1).
Proof.
  intros Hok Hc Hcur. pose proof (queues_nodup _ _ Hok) as Hn.
  set (s0 := set_procs (update_all (wake now) (concat Q) (procs s)) s).
  assert (queues_ok Q s0) as Hok0.
  { eapply queues_same; [|exact Hok]. apply update_all_links; [apply wake_links|done]. }
  destruct (visit_tick (concat Q) s0) as [n E].
  { intros p Hp. by apply (queues_procs _ _ Hok0). }
  exists n. set (s1 := set_sched_count n (set_procs (ticked now (concat Q) (procs s)) s)).
  assert (queues_ok Q s1) as Hok1.
  { eapply queues_same; [|exact Hok0].
    pose proof (update_all_links tick (concat Q) s0 tick_links Hn) as H. exact H. }
  split; [done|]. unfold mbind, st_bind.
  rewrite (for_processes_visit _ Q) by (try apply each_keeps; try apply wake_links; done).
  rewrite visit_each by (intros p Hp; by apply (queues_procs _ _ Hok)). fold s0.
  rewrite (for_processes_visit _ Q); [|apply keeps_links_run; unfold tick_body; intros; keeps|done].
  rewrite E. change (set_sched_count n _) with s1.
  rewrite (for_processes_visit _ Q) by (try (apply keeps_links_run; unfold pick_body; intros; keeps); done).
  apply visit_pick; [|intros p Hp]; by apply (queues_procs _ _ Hok1).
Qed.

(** The loops leave the fields a switch reads. *)
Lemma ticked_fields now l m : NoDup l ->
  forall p q, ticked now l m !! p = Some q -> exists q0, m !! p = Some q0 /\
    p_tss_seg q = p_tss_seg q0 /\ p_eip q = p_eip q0 /\ p_first_exec q = p_first_exec q0.
Proof.
  intros Hn p q. unfold ticked. rewrite !update_all_lookup by done.
  destruct (m !! p) as [q0|]; [|by repeat case_decide].
  intros Hq. exists q0. split; [done|]. repeat case_decide; simpl in Hq; injection Hq as <-; [|done].
  unfold wake. destruct (negb (p_alarm q0 =? 0) && _); destruct (_ && _); done.
Qed.

(** What a switch to [sel] leaves. *)
Definition switched (sel : Z) (s : kstate) (r : option (Z * Z * Z)) (s' : kstate) : Prop :=
  current_process s' = sel /\ previous_process s' = current_process s /\ first_time s' = false /\
  p_first_exec <$> procs s' !! sel = Some 2 /\
  exists mode, r = Some (if first_time s then 0 else current_process s, sel, mode).

(** A process that can run: it has an instruction pointer, or gets one. *)
Definition runnable (kstart : Z) (q : process) : Prop :=
  kstart <> 0 /\ (p_eip q <> 0 \/ p_first_exec q = 1).

Lemma switch_to_spec kstart sel q s :
  procs s !! sel = Some q -> runnable kstart q ->
  exists r s', switch_to kstart sel s = Ret (r, s') /\ switched sel s r s'.
Proof.
  intros Hq [Hk Hr]. unfold switch_to, mbind, st_bind, gets, modify, load.
  cbn [procs set_current]. rewrite Hq.
  set (mode := if (p_first_exec q =? 0) || (p_first_exec q =? 1) then 1 else 0).
  set (q1 := set_p_first_exec 2 (if p_first_exec q =? 1 then set_p_eip kstart q else q)).
  assert (p_eip q1 <> 0) as Hp.
  { subst q1. destruct (Z.eqb_spec (p_first_exec q) 1); cbn; [done|]. by destruct Hr. }
  assert ((if p_first_exec q =? 1 then update sel (set_p_eip kstart) else mret tt)
            (set_current (current_process s) sel s) =
          Ret (tt, set_procs (<[sel := if p_first_exec q =? 1 then set_p_eip kstart q else q]> (procs s))
                 (set_current (current_process s) sel s))) as ->.
  { destruct (p_first_exec q =? 1).
    - unfold update. cbn. by rewrite Hq.
    - rewrite insert_id by done. by destruct s. }
  unfold update. cbn [procs set_procs set_current]. rewrite lookup_insert_eq.
  rewrite insert_insert_eq. fold q1. cbn [procs set_procs]. rewrite lookup_insert_eq.
  rewrite (proj2 (Z.eqb_neq _ _)) by done. cbn [first_time set_procs set_current].
  destruct (first_time s) eqn:Ef; eexists _, _; (split; [reflexivity|]).
  all: split; [done|]; split; [done|]; split; [done|]; cbn; rewrite lookup_insert_eq, Ef.
  all: split; [done|]; by eexists.
Qed.

(** One round. *)
Lemma schedule_round now kstart Q s :
  queues_ok Q s -> current_process s ∈ concat Q ->
  (forall p q, procs s !! p = Some q -> runnable kstart q) ->
  let c := current_process s in let m := ticked now (concat Q) (procs s) in
  exists sel r s', schedule now kstart s = Ret (r, s') /\
    sel ∈ concat Q /\ (forall p, p ∈ concat Q -> counter m p <= counter m sel) /\
    (counter m sel = counter m c -> sel = c) /\
    if first_time s || (negb (sel =? c) && negb (default 0 (p_tss_seg <$> procs s !! c) =? 0))
    then switched sel s r s'
    else r = None /\ current_process s' = c /\ first_time s' = false.
Proof.
  intros Hok Hc Hrun c m. destruct (schedule_loops now Q s c Hok Hc eq_refl) as (n & Hok1 & E).
  set (s1 := set_sched_count n (set_procs m s)) in *.
  set (sel := foldl (pick (procs s1)) c (concat Q)) in *.
  pose proof (foldl_pick m (concat Q) c) as H. cbv zeta in H.
  change (foldl (pick m) c (concat Q)) with sel in H. destruct H as (H1 & H2 & H3).
  assert (sel ∈ concat Q) as Hsel by (destruct H1 as [E1 | ?]; [rewrite E1|]; done).
  pose proof (ticked_fields now (concat Q) (procs s) (queues_nodup _ _ Hok)) as Hm. fold m in Hm.
  destruct (queues_procs _ _ Hok1 c Hc) as [Hc0 [qc Hqc]]. destruct (queues_procs _ _ Hok1 sel Hsel) as [Hs0 [qs Hqs]].
  exists sel. unfold schedule. unfold mbind at 1, st_bind at 1, gets at 1. fold c.
  rewrite (proj2 (Z.eqb_neq c 0)) by done. unfold mbind, st_bind in E |- *.
  destruct (for_processes (each (wake now)) tt s) as [[r1 t1]| | |]; try done.
  destruct (for_processes tick_body tt t1) as [[r2 t2]| | |]; try done.
  match type of E with ?l = _ => change (l = Ret (inl sel, s1)) in E end. rewrite E.
  rewrite (proj2 (Z.eqb_neq sel 0)) by done. unfold gets, update, load.
  change (m !! c = Some qc) in Hqc. change (m !! sel = Some qs) in Hqs.
  change (current_process s1) with c. change (procs s1) with m. rewrite Hqc. cbn [procs set_procs].
  rewrite lookup_insert_eq. destruct (Hm _ _ Hqc) as (qc0 & Hqc0 & Et & _).
  change (first_time (set_procs _ s1)) with (first_time s).
  change (current_process s1) with c. change (p_tss_seg (tick qc)) with (p_tss_seg qc).
  rewrite Hqc0, Et. cbn [default fmap option_fmap option_map].
  assert (counter m sel = counter m c -> sel = c) as Htie by (intros; destruct H3; [done|lia]).
  assert (forall p, p ∈ concat Q -> counter m p <= counter m sel) as Hmax.
  { intros p Hp. apply H2. by right. }
  destruct (first_time s || _) eqn:Eb.
  - destruct (Hm _ _ Hqs) as (qs0 & Hqs0 & _ & Ee & Ef).
    destruct (switch_to_spec kstart sel (if decide (sel = c) then tick qc else qs)
      (set_procs (<[c := tick qc]> m) s1)) as (r & s' & Er & Hsw).
    + cbn. case_decide as Ed; [by rewrite Ed, lookup_insert_eq|by rewrite lookup_insert_ne].
    + destruct (Hrun _ _ Hqs0) as [Hk Hr]. split; [done|].
      case_decide as Ed; [|by rewrite Ee, Ef]. cbn. rewrite Ed in Hqs0, Hqs.
      replace qc with qs by congruence. by rewrite Ee, Ef.
    + exists r, s'. auto.
  - exists None, (set_procs (<[c := tick qc]> m) s1). split; [done|]. split; [done|]. split; [done|].
    split; [done|]. split; [done|]. split; [done|]. cbn. by apply orb_false_elim in Eb as [? _].
Qed.


Lemma raise_signal_testbit signal p i :
  0 <= signal -> 0 <= i < 32 ->
  Z.testbit (p_signal (raise_signal signal p)) i = (i =? signal) || Z.testbit (p_signal p) i.
Proof.
  intros Hs Hi. cbn. rewrite swrap_testbit, Z.lor_spec, shiftl1_testbit by lia. apply orb_comm.
Qed.

(** The alarm test is inverted: a round delivers SIGALRM to a process while
    its alarm time is still to come, and never once it has passed. *)
Theorem alarm_inverted now p :
  p_alarm p <> 0 -> 0 <= p_alarm p + p_start_time p < 4294967296 -> 0 <= now < 4294967296 ->
  (now <= p_alarm p + p_start_time p ->
     p_alarm (wake now p) = 0 /\ Z.testbit (p_signal (wake now p)) SIGALRM = true) /\
  (p_alarm p + p_start_time p < now ->
     p_alarm (wake now p) = p_alarm p /\ p_signal (wake now p) = p_signal p).
Proof.
  intros Ha Hd Hn. unfold wake. rewrite (proj2 (Z.eqb_neq (p_alarm p) 0)), (u32_small now), (u32_small (_ + _)) by lia.
  cbn [negb andb]. split; intros H.
  - rewrite (proj2 (Z.leb_le _ _)) by done. cbv zeta.
    assert (Z.testbit (p_signal (raise_signal SIGALRM p)) SIGALRM = true) as E
      by (by rewrite raise_signal_testbit).
    destruct (_ && _); (split; [done|exact E]).
  - rewrite (proj2 (Z.leb_gt _ _)) by done. by destruct (_ && _).
Qed.

(** A process that asked for an alarm in 10 seconds at time 1000. *)
Lemma alarm_inverted_witness :
  let p := set_p_alarm 10 (some_process 1 100 100) in
  p_alarm (wake 5 p) = 0 /\ Z.testbit (p_signal (wake 5 p)) SIGALRM = true.
Proof.
  intros p. destruct (alarm_inverted 5 p) as [H _]; [done|simpl; lia|lia|].
  apply H. simpl. lia.
Defined.


Lemma find_process_correct_witness :
  exists p, find_process 1 two_processes = Ret (p, two_processes).
Proof.
  destruct (find_process_correct 1 _ two_processes two_processes_queues) as (p & E & _).
  exists p. exact E.
Defined.
