(* ===== verification/Signal.v ===== *)
(** * Signals, exit and credentials

    [kernel/signal.c] (handlers and delivery), the signalling part of
    [kernel/exit.c] ([kkill], [kexit] and their helpers) and the credentials of
    [kernel/misc.c].  [current_process] is never [NULL] here: a null pointer
    faults. *)

From S2P Require Import Prelude Errno Process Sched.

Definition SA_ONESHOT : Z := 0x40000000.
Definition SA_NOMASK : Z := 0x80000000.
Definition SIG_DFL : Z := 0.
Definition SIG_IGN : Z := 1.
Definition ROOT : Z := 0.

(** [current_process->f] *)
Definition current : st kstate process :=
  curr ← gets current_process; load curr.

Definition update_current (f : process -> process) : st kstate unit :=
  curr ← gets current_process; update curr f.

(** ** kernel/signal.c *)

(** An assignment to [p_sigaction[signal]]. *)
Definition set_action (signal : Z) (f : sigaction -> sigaction) (p : process) : process :=
  set_p_sigaction (alter f (Z.to_nat signal) (p_sigaction p)) p.

Definition invalid_signal (signal : Z) : bool := (signal <? SIGHUP) || (SIGTTOU <? signal).

Definition ksignal (signal handler : Z) : st kstate Z :=
  if invalid_signal signal || (signal =? SIGKILL) || (handler =? 0) then mret (-1)
  else
    c ← current;
    old ← checked (p_sigaction c !! Z.to_nat signal);
    _ ← update_current (set_action signal (fun a => {| sa_handler := handler;
          sa_mask := Z.lor SA_ONESHOT SA_NOMASK; sa_flags := 0 |}));
    mret (i32 (sa_handler old)).

(** [action] and [old] are the contents of the two structures passed, [None]
    for a null pointer; the second result is what is stored through [old]. *)
Definition ksigaction (signal : Z) (action old : option sigaction)
    : st kstate (Z * option sigaction) :=
  match action, old with
  | Some action, Some _ =>
      if invalid_signal signal || (signal =? SIGKILL) then mret (-1, old)
      else
        c ← current;
        prev ← checked (p_sigaction c !! Z.to_nat signal);
        _ ← update_current (set_action signal (fun _ => action));
        _ ← update_current (set_action signal (fun a =>
              if negb (Z.land (u32 (sa_flags a)) SA_NOMASK =? 0) then
                {| sa_handler := sa_handler a; sa_mask := 0; sa_flags := sa_flags a |}
              else
                {| sa_handler := sa_handler a;
                   sa_mask := u32 (Z.lor (sa_mask a) (Z.shiftl 1 signal));
                   sa_flags := sa_flags a |}));
        mret (0, Some prev)
  | _, _ => mret (-1, old)
  end.

(** The loop of [whichbit]: [k] values of [i] are left. *)
Fixpoint whichbit_loop (k : nat) (bits i : Z) : Z :=
  match k with
  | O => -1
  | S k => if negb (Z.land bits i =? 0) then i else whichbit_loop k bits (i + 1)
  end.

Definition whichbit (bits : Z) : Z := whichbit_loop 32 bits 0.

(** ** kernel/exit.c *)

Definition is_super_user : st kstate bool := c ← current; mret (p_euid c =? ROOT).

(** [is_root] is an [int] used as a condition. *)
Definition dispatch_signal (signal is_root proc : Z) : st kstate Z :=
  if invalid_signal signal || (proc =? 0) then mret EINVAL
  else
    c ← current;
    q ← load proc;
    super ← is_super_user;
    if negb (is_root =? 0) || (p_euid c =? p_euid q) || (super : bool) then
      _ ← update proc (raise_signal signal);
      mret 0
    else mret EPERM.

Definition session_body (p : Z) (_ : unit) : st kstate (unit + unit) :=
  q ← load p;
  c ← current;
  if p_session q =? p_session c then
    _ ← update p (raise_signal SIGHUP); mret (inl tt)
  else mret (inl tt).

Definition terminate_session : st kstate unit :=
  _ ← for_processes session_body tt; mret tt.

Definition parent_body (pid p : Z) (_ : unit) : st kstate (unit + unit) :=
  q ← load p;
  if p_pid q =? pid then _ ← update p (raise_signal SIGCHLD); mret (inr tt)
  else mret (inl tt).

Definition signal_parent (pid : Z) : st kstate unit :=
  r ← for_processes (parent_body pid) tt;
  match r with inr _ => mret tt | inl _ => panic end.

(** [kkill]: the local carried is [rtvl]. *)
Definition kill_body (pid signal p rtvl : Z) : st kstate (Z + unit) :=
  q ← load p;
  c ← current;
  if (pid =? 0) && (p_pgrp q =? p_pid c) then
    error ← dispatch_signal signal 1 p;
    mret (inl (if error =? 0 then rtvl else error))
  else if (0 <? pid) && (p_pid q =? pid) then
    error ← dispatch_signal signal 0 p;
    mret (inl (if error =? 0 then rtvl else error))
  else if pid =? -1 then
    error ← dispatch_signal signal 0 p;
    mret (inl (if error =? 0 then rtvl else error))
  else if p_pgrp q =? i32 (- pid) then
    error ← dispatch_signal signal 0 p;
    mret (inl (if error =? 0 then rtvl else error))
  else mret (inl rtvl).

Definition kkill (pid signal : Z) : st kstate Z :=
  r ← for_processes (kill_body pid signal) 0;
  mret (match r with inl rtvl => rtvl | inr _ => 0 end).

Definition exit_body (init p : Z) (_ : unit) : st kstate (unit + unit) :=
  q ← load p;
  c ← current;
  if p_parent q =? p_pid c then
    _ ← update p (set_p_parent 1);
    q ← load p;
    if p_state q =? P_ZOMBIE then
      _ ← dispatch_signal SIGCHLD init p; mret (inl tt)
    else mret (inl tt)
  else mret (inl tt).

Definition kexit (now kstart exit_code : Z) : st kstate Z :=
  init ← find_init;
  if init =? 0 then mret 0
  else
    _ ← for_processes (exit_body init) tt;
    c ← current;
    _ ← (if negb (p_leader c =? 0) then terminate_session else mret tt);
    _ ← update_current (set_p_exit_code (i32 exit_code));
    c ← current;
    _ ← signal_parent (p_parent c);
    _ ← schedule now kstart;
    mret (-1).

(** The saved registers [signal_exec] uses. *)
Record cpu_ctx := Ctx { ctx_eip : Z; ctx_esp : Z }.

(** Delivery of a pending signal.  The second result is the context after the
    call with the word stored at [esp - 4], when one is stored. *)
Definition signal_exec (now kstart oldmask : Z) (ctx : option cpu_ctx)
    : st kstate (Z * option (cpu_ctx * Z)) :=
  curr ← gets current_process;
  c ← load curr;
  let signal := whichbit (Z.land (u32 (p_signal c)) (u32 (Z.lnot oldmask))) in
  if signal =? 0 then mret (0, None)
  else
    match ctx with
    | None => mret (-1, None)
    | Some x =>
        if invalid_signal signal then mret (-1, None)
        else
          sig ← checked (p_sigaction c !! Z.to_nat signal);
          let handler := sa_handler sig in
          if handler =? SIG_IGN then mret (0, None)
          else if (handler =? SIG_DFL) && (signal =? SIGCHLD) then mret (0, None)
          else
            _ ← (if handler =? SIG_DFL then kexit now kstart (Z.shiftl 1 signal) else mret 0);
            _ ← (if negb (Z.land (u32 (sa_flags sig)) SA_ONESHOT =? 0) then
                   update curr (set_action signal (fun a =>
                     {| sa_handler := 0; sa_mask := sa_mask a; sa_flags := sa_flags a |}))
                 else mret tt);
            _ ← update_current (fun p => set_p_blocked (i32 (Z.lor (u32 (p_blocked p)) (sa_mask sig))) p);
            mret (0, Some ({| ctx_eip := handler; ctx_esp := ctx_esp x |}, signal))
    end.

(** ** kernel/misc.c: credentials *)

Definition ksetregid (rgid egid : Z) : st kstate Z :=
  c ← current;
  super ← is_super_user;
  if (0 <? rgid) && negb ((p_gid c =? rgid) || (super : bool)) then mret EPERM
  else
    _ ← (if 0 <? rgid then update_current (set_p_gid (u16 rgid)) else mret tt);
    c ← current;
    if 0 <? egid then
      super ← is_super_user;
      if (p_gid c =? egid) || (p_egid c =? egid) || (p_sgid c =? egid) || (super : bool) then
        _ ← update_current (set_p_egid (u16 egid)); mret 0
      else mret EPERM
    else mret 0.

Definition ksetreuid (ruid euid : Z) : st kstate Z :=
  c ← current;
  let old := p_uid c in
  super ← is_super_user;
  if (0 <? ruid) && negb ((p_euid c =? ruid) || (old =? ruid) || (super : bool)) then mret EPERM
  else
    _ ← (if 0 <? ruid then update_current (set_p_uid (u16 ruid)) else mret tt);
    c ← current;
    if 0 <? euid then
      super ← is_super_user;
      if (old =? euid) || (p_euid c =? euid) || (super : bool) then
        _ ← update_current (set_p_euid (u16 euid)); mret 0
      else
        _ ← update_current (set_p_uid (u16 old)); mret 0
    else mret 0.

Definition kgetpid : st kstate Z := c ← current; mret (p_pid c).
Definition kgetppid : st kstate Z := c ← current; mret (p_parent c).
Definition kgetuid : st kstate Z := c ← current; mret (p_uid c).
Definition kgeteuid : st kstate Z := c ← current; mret (p_euid c).
Definition kgetgid : st kstate Z := c ← current; mret (p_gid c).
Definition kgetegid : st kstate Z := c ← current; mret (p_egid c).

(** ** Sending signals *)

Lemma current_spec s c : procs s !! current_process s = Some c -> current s = Ret (c, s).
Proof. intros H. unfold current, mbind, st_bind, gets, load. by rewrite H. Qed.

Lemma set_procs_id s : set_procs (procs s) s = s.
Proof. by destruct s. Qed.

(** The processes [kkill] addresses, and those that a root flag or the
    effective users allow it to signal. *)
Definition addressed (pid : Z) (c q : process) : bool :=
  ((pid =? 0) && (p_pgrp q =? p_pid c)) || ((0 <? pid) && (p_pid q =? pid)) || (pid =? -1) ||
  (p_pgrp q =? i32 (- pid)).

Definition allowed (pid : Z) (c q : process) : bool :=
  ((pid =? 0) && (p_pgrp q =? p_pid c)) || (p_euid c =? p_euid q) || (p_euid c =? ROOT).

Definition killed (pid signal : Z) (c q : process) : process :=
  if addressed pid c q && allowed pid c q then raise_signal signal q else q.

(** The identity of the caller, which signals do not change. *)
Definition same_caller (cur : Z) (c : process) (s : kstate) : Prop :=
  current_process s = cur /\
  exists c', procs s !! cur = Some c' /\ p_pid c' = p_pid c /\ p_euid c' = p_euid c.

Lemma same_caller_insert cur c s p q q' :
  same_caller cur c s -> procs s !! p = Some q -> p_pid q' = p_pid q -> p_euid q' = p_euid q ->
  same_caller cur c (set_procs (<[p := q']> (procs s)) s).
Proof.
  intros (Hc & c' & H1 & H2 & H3) Hq E1 E2. split; [done|]. cbn.
  destruct (decide (p = cur)) as [-> | ].
  - rewrite lookup_insert_eq. exists q'. rewrite H1 in Hq. injection Hq as <-.
    split; [done|]. split; congruence.
  - rewrite lookup_insert_ne by done. eauto.
Qed.

Lemma dispatch_signal_spec signal is_root p q c s :
  invalid_signal signal = false -> p <> 0 -> procs s !! p = Some q ->
  same_caller (current_process s) c s ->
  dispatch_signal signal is_root p s =
    if negb (is_root =? 0) || (p_euid c =? p_euid q) || (p_euid c =? ROOT)
    then Ret (0, set_procs (<[p := raise_signal signal q]> (procs s)) s) else Ret (EPERM, s).
Proof.
  intros Hs Hp Hq (_ & c' & H1 & H2 & H3). unfold dispatch_signal. rewrite Hs.
  rewrite (proj2 (Z.eqb_neq p 0)) by done. cbn [orb].
  unfold mbind at 1, st_bind at 1. rewrite (current_spec s c' H1).
  unfold mbind at 1, st_bind at 1. unfold load. rewrite Hq.
  unfold is_super_user, mbind, st_bind. rewrite (current_spec s c' H1). cbn [mret st_ret].
  rewrite H3. destruct (_ || _); [|done]. unfold update. by rewrite Hq.
Qed.

Lemma kill_body_spec pid signal c cur p q rtvl s :
  invalid_signal signal = false -> p <> 0 -> same_caller cur c s -> procs s !! p = Some q ->
  kill_body pid signal p rtvl s =
    Ret (inl (if addressed pid c q && negb (allowed pid c q) then EPERM else rtvl),
         set_procs (<[p := killed pid signal c q]> (procs s)) s) /\
  same_caller cur c (set_procs (<[p := killed pid signal c q]> (procs s)) s).
Proof.
  intros Hs Hp Hc Hq. split.
  2: { eapply same_caller_insert; [done|done| |]; unfold killed; by destruct (_ && _). }
  pose proof Hc as (Hcur & c' & H1 & H2 & H3). subst cur.
  unfold kill_body. unfold mbind at 1, st_bind at 1, load at 1. rewrite Hq.
  unfold mbind at 1, st_bind at 1. rewrite (current_spec s c' H1), H2.
  unfold addressed, allowed, killed, addressed, allowed. unfold mbind, st_bind.
  assert (Ret (inl (B := unit) rtvl, set_procs (<[p := q]> (procs s)) s) = Ret (inl rtvl, s)) as Eid.
  { rewrite insert_id by done. by rewrite set_procs_id. }
  destruct ((pid =? 0) && (p_pgrp q =? p_pid c)); cbn [orb negb andb].
  { by rewrite (dispatch_signal_spec signal _ p q c) by done. }
  destruct ((0 <? pid) && (p_pid q =? pid)), (pid =? -1), (p_pgrp q =? i32 (- pid));
    cbn [orb andb]; rewrite ?(dispatch_signal_spec signal _ p q c) by done; cbn [Z.eqb negb orb];
    destruct ((p_euid c =? p_euid q) || (p_euid c =? ROOT)); cbn [negb andb];
    rewrite ?Eid, ?insert_id, ?set_procs_id by done; done.
Qed.

(** The fold of the return value: the last refusal wins. *)
Lemma kill_result pid c (m : gmap Z process) (l : list Z) : forall a,
  let r := foldl (fun a p => match m !! p with
    | Some q => if addressed pid c q && negb (allowed pid c q) then EPERM else a
    | None => a end) a l in
  (r = EPERM /\ (exists p q, p ∈ l /\ m !! p = Some q /\
     addressed pid c q && negb (allowed pid c q) = true) \/
   r = a /\ forall p q, p ∈ l -> m !! p = Some q -> addressed pid c q && negb (allowed pid c q) = false).
Proof.
  induction l as [|x l IH]; intros a; cbn [foldl].
  { right. split; [done|]. intros p q Hp. by apply not_elem_of_nil in Hp. }
  destruct (IH (match m !! x with
    | Some q => if addressed pid c q && negb (allowed pid c q) then EPERM else a
    | None => a end)) as [(-> & p & q & Hp & H) | [-> H]].
  { left. split; [done|]. exists p, q. split; [by right|done]. }
  destruct (m !! x) as [q|] eqn:Hx; [destruct (_ && _) eqn:Eb|].
  - left. split; [done|]. exists x, q. split; [left|done].
  - right. split; [done|]. intros p q' [-> | Hp]%elem_of_cons Hq; [congruence|]. by eapply H.
  - right. split; [done|]. intros p q' [-> | Hp]%elem_of_cons Hq; [congruence|]. by eapply H.
Qed.

(** C20: [kkill] with a valid signal terminates, sets the signal's bit in exactly
    the queued processes that the pid addresses and the caller may signal,
    changes nothing else, and returns EPERM if it was refused an addressed
    process, 0 otherwise. *)
Theorem kkill_correct pid signal Q s c :
  queues_ok Q s -> procs s !! current_process s = Some c -> invalid_signal signal = false ->
  exists r s', kkill pid signal s = Ret (r, s') /\
    (forall p, procs s' !! p =
       if decide (p ∈ concat Q) then killed pid signal c <$> procs s !! p else procs s !! p) /\
    (r = EPERM /\ (exists p q, p ∈ concat Q /\ procs s !! p = Some q /\
                     addressed pid c q && negb (allowed pid c q) = true) \/
     r = 0 /\ forall p q, p ∈ concat Q -> procs s !! p = Some q ->
                addressed pid c q && negb (allowed pid c q) = false).
Proof.
  intros Hok Hc Hs. unfold kkill, mbind, st_bind. 
  rewrite (for_processes_visit _ Q); [| |done].
  2: { apply keeps_links_run. unfold kill_body, dispatch_signal, is_super_user, current. intros; keeps. }
  assert (forall p, p ∈ concat Q -> p <> 0 /\ is_Some (procs s !! p)) as Hmem by apply Hok.
  pose proof (queues_nodup _ _ Hok) as Hn.
  set (g := fun (a : Z) (q : process) => if addressed pid c q && negb (allowed pid c q) then EPERM else a).
  destruct (visit_fold (kill_body pid signal) (same_caller (current_process s) c) (fun p => p <> 0)
    (killed pid signal c) g) with (l := concat Q) (a := 0) (s := s) as [E _]; [|by split; [|exists c]|done..|].
  { intros p q a s0 Hp HI Hq. by apply kill_body_spec. }
  rewrite E. eexists _, _. split; [reflexivity|].
  split; [intros p; cbn; by rewrite update_all_lookup|]. clear E. unfold g.
  apply kill_result.
Qed.

(** ** Exit *)

(** The process has ended or stopped. *)
Definition ended (q : process) : bool := (p_state q =? P_ZOMBIE) || (p_state q =? P_STOPPED).

(** No process becomes a zombie, or stops. *)
Definition no_new_zombie (s s' : kstate) : Prop :=
  forall p q', procs s' !! p = Some q' -> ended q' = true ->
  exists q, procs s !! p = Some q /\ ended q = true.

#[export] Instance no_new_zombie_preorder : PreOrder no_new_zombie.
Proof.
  split.
  - intros s p q Hq Hz. eauto.
  - intros s1 s2 s3 H1 H2 p q Hq Hz. destruct (H2 p q Hq Hz) as (q2 & Hq2 & Hz2). eauto.
Qed.

Lemma zombie_update p f :
  (forall q, ended (f q) = true -> ended q = true) -> run_rel no_new_zombie (update p f).
Proof.
  intros Hf. apply rel_update. intros s q Hq p' q' Hq' Hz. cbn in Hq'.
  apply lookup_insert_Some in Hq' as [[<- <-] | [_ Hq']]; eauto.
Qed.

Lemma zombie_modify f : (forall s, procs (f s) = procs s) -> run_rel no_new_zombie (modify f).
Proof. intros Hf. apply rel_modify. intros s p q. rewrite Hf. eauto. Qed.

Ltac no_zombie :=
  run_steps;
  repeat first [apply zombie_modify; reflexivity
               | apply zombie_update; intros ?; unfold ended; cbn; (done || discriminate)].

Lemma wake_zombie now q : ended (wake now q) = true -> ended q = true.
Proof. unfold wake, ended. destruct (negb (p_alarm q =? 0) && _); destruct (_ && _); done. Qed.

Lemma schedule_zombie now kstart : run_rel no_new_zombie (schedule now kstart).
Proof.
  unfold schedule, switch_to, each, tick_body, pick_body, count_body. no_zombie.
  apply zombie_update, wake_zombie.
Qed.
#[export] Hint Resolve schedule_zombie : ox.

(** [kexit] turns no process into a zombie, the exiting one included: no
    state it leaves has a zombie, or a stopped process, that was none before. *)
Theorem kexit_makes_no_zombie now kstart code s r s' :
  kexit now kstart code s = Ret (r, s') -> no_new_zombie s s'.
Proof.
  revert s r s'. change (run_rel no_new_zombie (kexit now kstart code)).
  unfold kexit, find_init, find_process, find_body, exit_body, terminate_session, session_body,
    signal_parent, parent_body, dispatch_signal, is_super_user, update_current, current.
  no_zombie.
Qed.

(** ** Pending signals *)

(** The lowest set bit of the five low bits, as a mask: what [whichbit] finds. *)
Definition low_bit_mask (bits : Z) : Z :=
  if Z.testbit bits 0 then 1 else if Z.testbit bits 1 then 2 else if Z.testbit bits 2 then 4
  else if Z.testbit bits 3 then 8 else if Z.testbit bits 4 then 16 else -1.

Lemma whichbit_loop_mod k : forall bits i,
  0 <= i -> i + Z.of_nat k <= 32 -> whichbit_loop k bits i = whichbit_loop k (bits mod 32) i.
Proof.
  induction k as [|k IH]; intros bits i Hi Hk; [done|]. cbn [whichbit_loop].
  rewrite (IH bits) by lia.
  assert (Z.land bits i = Z.land (bits mod 32) i) as ->; [|done].
  apply Z.bits_inj'. intros n Hn.
  rewrite !Z.land_spec. change 32 with (2 ^ 5). destruct (Z.lt_ge_cases n 5).
  - by rewrite Z.mod_pow2_bits_low.
  - rewrite Z.mod_pow2_bits_high by lia. rewrite <- (Z.mod_small i (2 ^ 5)) by lia.
    by rewrite !Z.mod_pow2_bits_high, !andb_false_r by lia.
Qed.

Lemma whichbit_spec bits : whichbit bits = low_bit_mask bits.
Proof.
  unfold whichbit. rewrite whichbit_loop_mod by lia.
  assert (low_bit_mask bits = low_bit_mask (bits mod 32)) as ->.
  { unfold low_bit_mask. change 32 with (2 ^ 5). by rewrite !Z.mod_pow2_bits_low by lia. }
  assert (forallb (fun b => whichbit_loop 32 b 0 =? low_bit_mask b) (seqZ 0 32) = true) as E
    by (vm_compute; done).
  rewrite forallb_forall in E. apply Z.eqb_eq, E. rewrite <- list_elem_of_In, elem_of_seqZ.
  pose proof (Z.mod_pos_bound bits 32). lia.
Qed.

(** [whichbit] does not return the position of the first bit that is on: it
    returns the value of the lowest of the five low bits, and -1 when they are
    all off, whatever the other bits. *)
Theorem whichbit_is_mask bits : whichbit bits = low_bit_mask bits.
Proof. apply whichbit_spec. Qed.

(** No signal from SIGTRAP (5) on is ever delivered: when none of the four
    lowest signals is pending and unblocked, [signal_exec] returns -1 and
    changes nothing. *)
Theorem high_signals_undelivered now kstart oldmask ctx s c :
  procs s !! current_process s = Some c ->
  (forall i, 0 <= i < 5 -> Z.testbit (p_signal c) i = true -> Z.testbit oldmask i = true) ->
  signal_exec now kstart oldmask ctx s = Ret ((-1, None), s).
Proof.
  intros Hc Hlow. unfold signal_exec, mbind, st_bind, gets, load. rewrite Hc. cbv zeta.
  assert (forall i, 0 <= i < 5 ->
    Z.testbit (Z.land (u32 (p_signal c)) (u32 (Z.lnot oldmask))) i = false) as Hb.
  { intros i Hi. rewrite Z.land_spec, !uwrap_testbit, Z.lnot_spec by lia.
    destruct (Z.testbit (p_signal c) i) eqn:E; [|done]. by rewrite Hlow. }
  replace (whichbit _) with (-1).
  - by destruct ctx.
  - rewrite whichbit_spec. unfold low_bit_mask. by rewrite !Hb by lia.
Qed.

(** ** Handlers *)

Definition handler_of (signal : Z) (p : process) : option Z :=
  sa_handler <$> p_sigaction p !! Z.to_nat signal.

(** The handler of SIGKILL is the same in every process. *)
Definition same_kill (s s' : kstate) : Prop :=
  forall p, handler_of SIGKILL <$> procs s' !! p = handler_of SIGKILL <$> procs s !! p.

#[export] Instance same_kill_preorder : PreOrder same_kill.
Proof. split; [done|]. intros s1 s2 s3 H1 H2 p. by rewrite H2. Qed.

Lemma same_kill_set_action signal f p :
  0 <= signal -> signal <> SIGKILL -> run_rel same_kill (update p (set_action signal f)).
Proof.
  intros H0 Hs. apply rel_update. intros s q Hq p'. cbn.
  destruct (decide (p = p')) as [<- | ]; [|by rewrite lookup_insert_ne].
  rewrite lookup_insert_eq, Hq. cbn. unfold handler_of. cbn. rewrite list_lookup_alter_ne; [done|].
  unfold SIGKILL in *. lia.
Qed.

(** No process can install a handler for SIGKILL: whatever the arguments,
    [ksignal] and [ksigaction] leave its handler in every process. *)
Theorem sigkill_handler_fixed signal handler action old s r s' :
  ksignal signal handler s = Ret (r, s') \/
    (exists o, ksigaction signal action old s = Ret ((r, o), s')) ->
  same_kill s s'.
Proof.
  assert (forall g, invalid_signal signal || (signal =? SIGKILL) || g = false ->
    0 <= signal /\ signal <> SIGKILL) as Hsig.
  { unfold invalid_signal, SIGHUP. intros g [[[H1%Z.ltb_ge _]%orb_false_elim H2%Z.eqb_neq]%orb_false_elim _]%orb_false_elim.
    split; [lia|done]. }
  intros [E | [o E]]; revert E.
  - assert (run_rel same_kill (ksignal signal handler)) as H; [|by apply H].
    unfold ksignal. destruct (_ || _) eqn:Eb; [apply rel_ret; apply _|].
    apply Hsig in Eb as [H0 H1]. unfold current, update_current. run_steps.
    by apply same_kill_set_action.
  - assert (run_rel same_kill (ksigaction signal action old)) as H; [|by apply H].
    unfold ksigaction. destruct action as [a|], old as [b|]; try (apply rel_ret; apply _).
    destruct (_ || _) eqn:Eb; [apply rel_ret; apply _|].
    destruct (Hsig false) as [H0 H1]; [by rewrite orb_false_r|]. unfold current, update_current. run_steps;
      by apply same_kill_set_action.
Qed.

(** ** Credentials *)

(** The identity of the current process. *)
Definition cred (s : kstate) : option (Z * Z) :=
  (fun p => (p_uid p, p_euid p)) <$> procs s !! current_process s.

Lemma update_current_spec s c f :
  procs s !! current_process s = Some c ->
  update_current f s = Ret (tt, set_procs (<[current_process s := f c]> (procs s)) s).
Proof. intros H. unfold update_current, mbind, st_bind, gets, update. by rewrite H. Qed.

(** C21: without privilege [ksetreuid] gives a process no identity it did not
    have: the real and the effective user id are afterwards among those of
    before. *)
Theorem setreuid_no_escalation ruid euid s c :
  procs s !! current_process s = Some c -> p_euid c <> ROOT ->
  0 <= p_uid c < 65536 -> 0 <= p_euid c < 65536 ->
  exists r s' u e, ksetreuid ruid euid s = Ret (r, s') /\ cred s' = Some (u, e) /\
    (u = p_uid c \/ u = p_euid c) /\ (e = p_uid c \/ e = p_euid c).
Proof.
  intros Hc Hroot Hu He. unfold ksetreuid, is_super_user, mbind, st_bind.
  rewrite !(current_spec s c Hc). cbn [mret st_ret].
  rewrite (proj2 (Z.eqb_neq (p_euid c) ROOT)) by done.
  destruct ((0 <? ruid) && _) eqn:E1.
  { exists EPERM, s, (p_uid c), (p_euid c). unfold cred. rewrite Hc. auto. }
  assert (exists c1, (if 0 <? ruid then update_current (set_p_uid (u16 ruid)) else mret tt) s =
      Ret (tt, set_procs (<[current_process s := c1]> (procs s)) s) /\
    (p_uid c1 = p_uid c \/ p_uid c1 = p_euid c) /\ p_euid c1 = p_euid c) as (c1 & -> & Hu1 & He1).
  { destruct (0 <? ruid).
    - rewrite (update_current_spec s c) by done. eexists. split; [done|]. cbn.
      split; [|done]. cbn in E1. apply negb_false_iff in E1. rewrite orb_false_r in E1.
      apply orb_true_iff in E1 as [<-%Z.eqb_eq | <-%Z.eqb_eq]; rewrite uwrap_small by (pow2; lia); auto.
    - exists c. rewrite insert_id, set_procs_id by done. auto. }
  set (s1 := set_procs _ s).
  assert (procs s1 !! current_process s1 = Some c1) as Hc1 by apply lookup_insert_eq.
  rewrite !(current_spec s1 c1 Hc1). cbn [mret st_ret].
  destruct (0 <? euid).
  2: { exists 0, s1, (p_uid c1), (p_euid c1). split; [done|].
       split; [unfold cred; by rewrite Hc1|]. rewrite He1. auto. }
  rewrite !(current_spec s1 c1 Hc1). cbn [mret st_ret].
  rewrite He1, (proj2 (Z.eqb_neq (p_euid c) ROOT)), orb_false_r by done.
  destruct ((p_uid c =? euid) || (p_euid c =? euid)) eqn:E2; cbv beta; rewrite (update_current_spec s1 c1) by done.
  - eexists 0, _, (p_uid c1), (u16 euid). split; [done|]. unfold cred. cbn.
    rewrite lookup_insert_eq. split; [done|]. split; [done|].
    apply orb_true_iff in E2 as [<-%Z.eqb_eq | <-%Z.eqb_eq]; rewrite uwrap_small by (pow2; lia); auto.
  - eexists 0, _, (u16 (p_uid c)), (p_euid c1). split; [done|]. unfold cred. cbn.
    rewrite lookup_insert_eq. split; [done|]. rewrite uwrap_small by (pow2; lia). auto.
Qed.

(** ** Concrete runs *)

Lemma kkill_correct_witness :
  exists r s', kkill 1 15 two_processes = Ret (r, s') /\
    procs s' !! 100 = Some (raise_signal 15 (some_process 1 100 100)).
Proof.
  destruct (kkill_correct 1 15 _ two_processes (some_process 1 100 100) two_processes_queues)
    as (r & s' & E & H & _); [reflexivity|reflexivity|].
  exists r, s'. split; [exact E|]. rewrite H. reflexivity.
Defined.

Lemma kexit_makes_no_zombie_witness :
  exists r s', kexit 5 7 0 two_processes = Ret (r, s') /\ no_new_zombie two_processes s'.
Proof.
  assert (exists r s', kexit 5 7 0 two_processes = Ret (r, s')) as (r & s' & E)
    by (eexists _, _; vm_compute; reflexivity).
  exists r, s'. split; [exact E|]. exact (kexit_makes_no_zombie 5 7 0 two_processes r s' E).
Defined.

(** Process 1 with SIGTERM pending. *)
Definition sigterm_pending : kstate :=
  set_procs {[100 := raise_signal 15 (some_process 1 100 100)]} two_processes.

Lemma high_signals_undelivered_witness :
  signal_exec 5 7 0 (Some {| ctx_eip := 1; ctx_esp := 64 |}) sigterm_pending =
    Ret ((-1, None), sigterm_pending).
Proof.
  apply (high_signals_undelivered 5 7 0 _ sigterm_pending (raise_signal 15 (some_process 1 100 100))).
  - reflexivity.
  - intros i Hi. change (p_signal (raise_signal 15 (some_process 1 100 100))) with (2 ^ 15).
    rewrite Z.pow2_bits_false by lia. discriminate.
Defined.

Lemma sigkill_handler_fixed_witness :
  exists r s', ksignal 15 1000 two_processes = Ret (r, s') /\ same_kill two_processes s'.
Proof.
  assert (exists r s', ksignal 15 1000 two_processes = Ret (r, s')) as (r & s' & E)
    by (eexists _, _; vm_compute; reflexivity).
  exists r, s'. split; [exact E|].
  exact (sigkill_handler_fixed 15 1000 None None two_processes r s' (or_introl E)).
Defined.

(** Process 1 run by user 1000, set-uid 1001. *)
Definition user_process : kstate :=
  set_procs {[100 := set_p_euid 1001 (set_p_uid 1000 (some_process 1 100 100))]} two_processes.

Lemma setreuid_no_escalation_witness :
  exists r s' u e, ksetreuid 1001 1000 user_process = Ret (r, s') /\ cred s' = Some (u, e).
Proof.
  destruct (setreuid_no_escalation 1001 1000 user_process
    (set_p_euid 1001 (set_p_uid 1000 (some_process 1 100 100)))) as (r & s' & u & e & E & H & _).
  - reflexivity.
  - discriminate.
  - simpl. lia.
  - simpl. lia.
  - exists r, s', u, e. split; [exact E|exact H].
Defined.
