(* ===== verification/Clock.v ===== *)
(** * The clock ([kernel/mktime.c])

    Reading the date from the CMOS clock and turning it into seconds since 1970.
    The clock chip is an argument: the value of a register at each of the reads
    made so far.  A [long] has 32 bits; an overflow wraps.  [ktimes] works on the
    record of the current process and is left to the caller. *)

From S2P Require Import Prelude.

Record tm := Tm { tm_sec : Z; tm_min : Z; tm_hour : Z; tm_mday : Z; tm_mon : Z; tm_year : Z }.

Definition MINUTE : Z := 60.
Definition HOUR : Z := 60 * MINUTE.
Definition DAY : Z := 24 * HOUR.
Definition YEAR : Z := 365 * DAY.

(** Seconds before each month of a leap year. *)
Definition month : list Z :=
  [0;
   DAY * 31;
   DAY * (31 + 29);
   DAY * (31 + 29 + 31);
   DAY * (31 + 29 + 31 + 30);
   DAY * (31 + 29 + 31 + 30 + 31);
   DAY * (31 + 29 + 31 + 30 + 31 + 30);
   DAY * (31 + 29 + 31 + 30 + 31 + 30 + 31);
   DAY * (31 + 29 + 31 + 30 + 31 + 30 + 31 + 31);
   DAY * (31 + 29 + 31 + 30 + 31 + 30 + 31 + 31 + 30);
   DAY * (31 + 29 + 31 + 30 + 31 + 30 + 31 + 31 + 30 + 31);
   DAY * (31 + 29 + 31 + 30 + 31 + 30 + 31 + 31 + 30 + 31 + 30)].

(** An array read; the index is a C [int]. *)
Definition at_index {A} (l : list A) (i : Z) : outcome A :=
  if i <? 0 then Fault else match l !! Z.to_nat i with Some x => Ret x | None => Fault end.

Definition kmktime (t : tm) : outcome Z :=
  let year := i32 (tm_year t - 70) in
  let res := i32 (YEAR * year + DAY * Z.quot (year + 1) 4) in
  m ← at_index month (tm_mon t);
  let res := i32 (res + m) in
  let res := if (1 <? tm_mon t) && negb (Z.rem (year + 2) 4 =? 0) then i32 (res - DAY) else res in
  let res := i32 (res + DAY * (tm_mday t - 1)) in
  let res := i32 (res + HOUR * tm_hour t) in
  let res := i32 (res + MINUTE * tm_min t) in
  Ret (i32 (res + tm_sec t)).

Definition BCD_TO_BIN (v : Z) : Z := Z.land v 15 + Z.shiftr v 4 * 10.

(** [CMOS_READ]: the [k]th read of the clock since the start. *)
Definition cmos : Type := nat -> Z -> Z.

(** The body of the loop: the date and the seconds read once more. *)
Definition read_date (c : cmos) (k : nat) : tm * Z :=
  (Tm (c k 0) (c (k + 1)%nat 2) (c (k + 2)%nat 4) (c (k + 3)%nat 7) (c (k + 4)%nat 8) (c (k + 5)%nat 9),
   c (k + 6)%nat 0).

Fixpoint ktime_loop (fuel : nat) (c : cmos) (k : nat) : outcome tm :=
  match fuel with
  | O => NoFuel
  | S fuel =>
      let (t, again) := read_date c k in
      if tm_sec t =? again then Ret t else ktime_loop fuel c (k + 7)
  end.

Definition from_bcd (t : tm) : tm :=
  Tm (BCD_TO_BIN (tm_sec t)) (BCD_TO_BIN (tm_min t)) (BCD_TO_BIN (tm_hour t)) (BCD_TO_BIN (tm_mday t))
    (BCD_TO_BIN (tm_mon t) - 1) (BCD_TO_BIN (tm_year t)).

Definition ktime (fuel : nat) (c : cmos) (k : nat) : outcome Z :=
  t ← ktime_loop fuel c k; kmktime (from_bcd t).

(** ** The calendar *)

Definition leap (y : Z) : bool := (y mod 4 =? 0) && negb (y mod 100 =? 0) || (y mod 400 =? 0).

Definition month_days (y : Z) (m : nat) : Z :=
  match m with
  | 1%nat => if leap y then 29 else 28
  | 3%nat | 5%nat | 8%nat | 10%nat => 30
  | _ => 31
  end.

Definition year_days (y : Z) : Z := if leap y then 366 else 365.

(** Days before the year [1970 + n] and before the month [m]. *)
Fixpoint days_before_year (n : nat) : Z :=
  match n with O => 0 | S n => days_before_year n + year_days (1970 + Z.of_nat n) end.

Fixpoint days_before_month (y : Z) (m : nat) : Z :=
  match m with O => 0 | S m => days_before_month y m + month_days y m end.

Definition days (t : tm) : Z :=
  days_before_year (Z.to_nat (tm_year t - 70)) +
  days_before_month (1900 + tm_year t) (Z.to_nat (tm_mon t)) + (tm_mday t - 1).

Definition epoch_seconds (t : tm) : Z :=
  DAY * days t + HOUR * tm_hour t + MINUTE * tm_min t + tm_sec t.

(** A date of the calendar whose year has two or three digits. *)
Record valid_date (t : tm) : Prop := ValidDate {
  vd_mon : 0 <= tm_mon t <= 11;
  vd_mday : 1 <= tm_mday t <= month_days (1900 + tm_year t) (Z.to_nat (tm_mon t));
  vd_hour : 0 <= tm_hour t <= 23;
  vd_min : 0 <= tm_min t <= 59;
  vd_sec : 0 <= tm_sec t <= 59
}.

(** What the code computes for the first day of month [m] of [1970 + year]. *)
Definition month_start (year : Z) (m : nat) : Z :=
  let res := YEAR * year + DAY * Z.quot (year + 1) 4 + default 0 (month !! m) in
  if (1 <? Z.of_nat m) && negb (Z.rem (year + 2) 4 =? 0) then res - DAY else res.

Lemma forall_months (f : Z -> nat -> bool) (lo : Z) (n : nat) :
  forallb (fun y => forallb (f (lo + Z.of_nat y)) (seq 0 12)) (seq 0 n) = true ->
  forall year m, lo <= year < lo + Z.of_nat n -> (m < 12)%nat -> f year m = true.
Proof.
  intros Hall year m Hy Hm. rewrite forallb_forall in Hall.
  specialize (Hall (Z.to_nat (year - lo)) ltac:(apply in_seq; lia)). rewrite forallb_forall in Hall.
  replace year with (lo + Z.of_nat (Z.to_nat (year - lo))) by lia. apply Hall, in_seq. lia.
Qed.

(** The calendar and the table agree on every month up to 2037. *)
Lemma month_start_days year m : 0 <= year < 68 -> (m < 12)%nat ->
  month_start year m =
    DAY * (days_before_year (Z.to_nat year) + days_before_month (1970 + year) m) /\
  0 <= month_start year m <= 2143238400.
Proof.
  intros Hy Hm.
  pose proof (forall_months (fun year m =>
    (month_start year m =? DAY * (days_before_year (Z.to_nat year) + days_before_month (1970 + year) m)) &&
    (0 <=? month_start year m) && (month_start year m <=? 2143238400)) 0 68
    ltac:(vm_compute; reflexivity) year m Hy Hm) as [[]%andb_true_iff]%andb_true_iff. lia.
Qed.

Lemma month_start_negative year m : -68 <= year < 0 -> (m < 12)%nat ->
  -2147000000 <= month_start year m <= -31 * DAY.
Proof.
  intros Hy Hm.
  pose proof (forall_months (fun year m =>
    (-2147000000 <=? month_start year m) && (month_start year m <=? -31 * DAY)) (-68) 68
    ltac:(vm_compute; reflexivity) year m Hy Hm) as []%andb_true_iff. lia.
Qed.

Lemma month_table m : (m < 12)%nat -> exists v, month !! m = Some v /\ 0 <= v <= 335 * DAY.
Proof. intros Hm. do 12 (destruct m as [|m]; [by eexists|]). lia. Qed.

Lemma month_days_le y m : month_days y m <= 31.
Proof. unfold month_days. do 11 (destruct m as [|m]; [destruct (leap y); lia|]). lia. Qed.

(** The sum of the code stays inside 32 bits when that of the month does. *)
Lemma kmktime_sum t :
  valid_date t -> 2 <= tm_year t <= 137 ->
  -2147000000 <= month_start (tm_year t - 70) (Z.to_nat (tm_mon t)) <= 2143238400 ->
  kmktime t = Ret (month_start (tm_year t - 70) (Z.to_nat (tm_mon t)) + DAY * (tm_mday t - 1) +
    HOUR * tm_hour t + MINUTE * tm_min t + tm_sec t).
Proof.
  intros [Hmo Hmd Hh Hmi Hs] Hy Hr.
  destruct (month_table (Z.to_nat (tm_mon t))) as (v & Ev & Hv); [lia|].
  pose proof (month_days_le (1900 + tm_year t) (Z.to_nat (tm_mon t))).
  unfold kmktime, at_index. rewrite (proj2 (Z.ltb_ge (tm_mon t) 0)), Ev by lia.
  cbn [mbind outcome_bind]. unfold month_start in *. rewrite Ev, Z2Nat.id in * by lia.
  cbn [default from_option id] in *. unfold YEAR, DAY, HOUR, MINUTE in *.
  rewrite (i32_small (tm_year t - 70)) by lia.
  set (year := tm_year t - 70) in *.
  assert (-17 <= Z.quot (year + 1) 4 <= 70) as Hq.
  { pose proof (Z.quot_rem' (year + 1) 4). pose proof (Z.rem_bound_abs (year + 1) 4). lia. }
  destruct ((1 <? tm_mon t) && negb (Z.rem (year + 2) 4 =? 0)); unwrap_i32; f_equal; lia.
Qed.

Lemma kmktime_epoch t : valid_date t -> 70 <= tm_year t <= 137 -> kmktime t = Ret (epoch_seconds t).
Proof.
  intros Ht Hy. pose proof (vd_mon _ Ht).
  destruct (month_start_days (tm_year t - 70) (Z.to_nat (tm_mon t))) as [Hd Hr]; [lia..|].
  rewrite kmktime_sum by (done || lia). f_equal. rewrite Hd. unfold epoch_seconds, days.
  replace (1970 + (tm_year t - 70)) with (1900 + tm_year t) by lia. lia.
Qed.

(** ** Reading the chip *)

(** The registers hold two decimal digits; months count from one. *)
Definition bcd (v : Z) : Z := v / 10 * 16 + v mod 10.
Definition bcd_date (t : tm) : tm :=
  Tm (bcd (tm_sec t)) (bcd (tm_min t)) (bcd (tm_hour t)) (bcd (tm_mday t)) (bcd (tm_mon t + 1)) (bcd (tm_year t)).

Lemma BCD_TO_BIN_bcd v : 0 <= v <= 99 -> BCD_TO_BIN (bcd v) = v.
Proof.
  intros Hv. assert (forallb (fun n => BCD_TO_BIN (bcd (Z.of_nat n)) =? Z.of_nat n) (seq 0 100) = true) as Hall
    by (vm_compute; reflexivity).
  rewrite forallb_forall in Hall. specialize (Hall (Z.to_nat v)). rewrite Z2Nat.id in Hall by lia.
  apply Z.eqb_eq, Hall, in_seq. lia.
Qed.

Lemma from_bcd_date t : valid_date t -> 0 <= tm_year t <= 99 -> from_bcd (bcd_date t) = t.
Proof.
  intros [Hmo Hmd Hh Hmi Hs] Hy.
  pose proof (month_days_le (1900 + tm_year t) (Z.to_nat (tm_mon t))).
  unfold from_bcd, bcd_date. cbn [tm_sec tm_min tm_hour tm_mday tm_mon tm_year].
  rewrite !BCD_TO_BIN_bcd by lia. rewrite Z.add_simpl_r. by destruct t.
Qed.

(** The attempt [j]: the seconds did not change while the date was read. *)
Definition attempt (c : cmos) (k j : nat) : tm := fst (read_date c (k + 7 * j)).
Definition steady (c : cmos) (k j : nat) : Prop :=
  tm_sec (attempt c k j) = snd (read_date c (k + 7 * j)).

Lemma attempt_next c k j : attempt c (k + 7) j = attempt c k (S j) /\ (steady c (k + 7) j <-> steady c k (S j)).
Proof.
  unfold steady, attempt. replace (k + 7 + 7 * j)%nat with (k + 7 * S j)%nat by lia. done.
Qed.

Lemma ktime_loop_first c n : forall k fuel,
  steady c k n -> (forall i, (i < n)%nat -> ~ steady c k i) -> (n < fuel)%nat ->
  ktime_loop fuel c k = Ret (attempt c k n).
Proof.
  induction n as [|n IH]; intros k fuel Hs Hfirst Hf; destruct fuel as [|fuel]; try lia; cbn [ktime_loop].
  - unfold steady, attempt in *. rewrite Nat.mul_0_r, Nat.add_0_r in *.
    destruct (read_date c k) as [t again]. cbn [fst snd] in *. by rewrite (proj2 (Z.eqb_eq _ _)).
  - assert (~ steady c k 0) as H0 by (apply Hfirst; lia). unfold steady, attempt in H0.
    rewrite Nat.mul_0_r, Nat.add_0_r in H0. destruct (read_date c k) as [t again]. cbn [fst snd] in H0.
    rewrite (proj2 (Z.eqb_neq _ _)) by done. rewrite IH; [by rewrite (proj1 (attempt_next c k n))|..|lia].
    + by apply attempt_next.
    + intros i Hi Hsi. apply (Hfirst (S i)); [lia|]. by apply attempt_next.
Qed.

(** C22: on every date from 1970 to 2037 [kmktime] is the number of seconds that
    the calendar gives, counted year by year and month by month. *)
Theorem kmktime_correct t : valid_date t -> 70 <= tm_year t <= 137 -> kmktime t = Ret (epoch_seconds t).
Proof. apply kmktime_epoch. Qed.

(** The loop that reads the chip ends at the first attempt during which the
    second did not change, whatever was read before, and when the chip then shows
    a date of the years 70 to 99 the result is its time. *)
Theorem ktime_correct c k n t fuel :
  steady c k n -> (forall i, (i < n)%nat -> ~ steady c k i) -> (n < fuel)%nat ->
  valid_date t -> 70 <= tm_year t <= 99 -> attempt c k n = bcd_date t ->
  ktime fuel c k = Ret (epoch_seconds t).
Proof.
  intros Hs Hf Hn Ht Hy Ha. unfold ktime. rewrite (ktime_loop_first c n) by done.
  cbn [mbind outcome_bind]. rewrite Ha, from_bcd_date by (done || lia). apply kmktime_epoch; [done|lia].
Qed.

(** The chip shows two digits of the year, so the dates of 2002 to 2069 all
    come before 1970: their time is negative. *)
Theorem kmktime_year_2000 t : valid_date t -> 2 <= tm_year t <= 69 -> exists r, kmktime t = Ret r /\ r < 0.
Proof.
  intros Ht Hy. pose proof Ht as [Hmo Hmd Hh Hmi Hs].
  pose proof (month_start_negative (tm_year t - 70) (Z.to_nat (tm_mon t))) as Hr.
  pose proof (month_days_le (1900 + tm_year t) (Z.to_nat (tm_mon t))).
  unfold DAY, HOUR, MINUTE in Hr. eexists. split; [apply kmktime_sum; [done|lia|]|]; unfold DAY, HOUR, MINUTE; lia.
Qed.

(** ** Instances *)

(** The last second of February 2000, and 1 June 2026 as the chip shows it. *)
Definition leap_day : tm := Tm 59 59 23 29 1 100.
Definition june_2026 : tm := Tm 0 0 12 1 5 26.

Lemma kmktime_correct_witness : valid_date leap_day /\ kmktime leap_day = Ret 951868799.
Proof. split; [by repeat split|]. rewrite kmktime_correct; [reflexivity|by repeat split|by split]. Defined.

Lemma kmktime_year_2000_witness : valid_date june_2026 /\ exists r, kmktime june_2026 = Ret r /\ r < 0.
Proof.
  assert (valid_date june_2026) as Hv by (by repeat split).
  split; [exact Hv|]. apply kmktime_year_2000; [exact Hv|by split].
Defined.

(** A chip whose second changes during the first attempt. *)
Definition ticking : cmos := fun k r =>
  if (r =? 0) && (k <? 6)%nat then 88 else
  match r with 0 => 89 | 2 => 89 | 4 => 35 | 7 => 49 | 8 => 18 | 9 => 153 | _ => 0 end.

Lemma ktime_correct_witness : ktime 2 ticking 0 = Ret 946684799.
Proof.
  rewrite (ktime_correct ticking 0 1 (Tm 59 59 23 31 11 99)); [reflexivity|reflexivity| |lia| |by split|reflexivity].
  - intros i Hi. assert (i = 0)%nat as -> by lia. unfold steady. vm_compute. discriminate.
  - by repeat split.
Defined.
