(* ===== verification/Conv.v ===== *)
(** * Numbers as text ([libk/ultostr.c], [libk/strtoul.c], [ox/lib/ctype.h])

    A C string is the list of the characters before its NUL, a pointer into it a
    suffix of the list; the character at the end is 0.  A buffer is the list of
    the characters stored in it.  [char] is signed, [long] has 32 bits. *)

From S2P Require Import Prelude.

(** ** Characters *)

Definition isdigit (c : Z) : bool := (48 <=? c) && (c <=? 57).
Definition islower (c : Z) : bool := (97 <=? c) && (c <=? 122).
Definition isupper (c : Z) : bool := (65 <=? c) && (c <=? 90).
Definition isalpha (c : Z) : bool := isupper c || islower c.
Definition isxdigit (c : Z) : bool :=
  isdigit c || ((65 <=? c) && (c <=? 70) || (97 <=? c) && (c <=? 102)).
Definition tolower (c : Z) : Z := if isupper c then c + 32 else c.

Definition BIN : Z := 2.
Definition DEC : Z := 10.
Definition OCT : Z := 8.
Definition HEX : Z := 16.
Definition Nr_DIGITS : nat := 11.

(** The character a pointer is at. *)
Definition char_at (s : list Z) : Z := default 0 (head s).

(** ** From numbers to text *)

Definition digit_char (tmp : Z) : Z := if 10 <=? tmp then tmp - 10 + 65 else tmp + 48.

(** The conversion loop; [room] is what is left of [tbuf]. *)
Fixpoint to_digits (room : nat) (val base : Z) : outcome (list Z) :=
  if val =? 0 then Ret []
  else
    match room with
    | O => Fault
    | S room =>
        let tmp := i8 (val mod base) in
        ds ← to_digits room (val / base) base;
        Ret (i8 (digit_char tmp) :: ds)
    end.

(** The characters stored at [buf] before the NUL; their number is returned. *)
Definition ultostr (buf val base : Z) : outcome (list Z) :=
  if buf =? 0 then Ret []
  else
    let base := if base =? 0 then DEC else base in
    let t := if base =? OCT then [48] else [] in
    let t := if base =? HEX then t ++ [48; 120] else t in
    if val =? 0 then Ret (t ++ [48])
    else
      ds ← to_digits (Nr_DIGITS + 2) val (u32 base);
      Ret (t ++ rev ds).

Definition ltostr (buf val base : Z) : outcome (list Z) :=
  if (val <? 0) && ((base =? DEC) || (base =? 0)) then
    s ← ultostr (u32 (buf + 1)) (u32 (- val)) DEC; Ret (45 :: s)
  else ultostr buf (u32 val) base.

Definition itoa (buf val : Z) : outcome (list Z) := ltostr buf val DEC.

(** ** From text to numbers *)

(** The loop that accumulates the result: the number and the rest of the text. *)
Fixpoint accumulate (res base : Z) (s : list Z) : Z * list Z :=
  match s with
  | [] => (res, [])
  | c :: s' =>
      if isdigit c then accumulate (u32 (res * base + (c - 48))) base s'
      else if islower c && ((97 <=? c) && (c <=? 102)) then
        accumulate (u32 (res * base + (c - 97 + 10))) base s'
      else if isupper c && ((65 <=? c) && (c <=? 70)) then
        accumulate (u32 (res * base + (c - 65 + 10))) base s'
      else if (c =? 48) || (c =? 120) then accumulate res base s'
      else (res, s)
  end.

(** [None] is the null pointer; the rest of the text is what [endptr] gets. *)
Definition strtoul (charp : option (list Z)) (base : Z) : Z * list Z :=
  match charp with
  | None => (0, [])
  | Some s =>
      let '(s, base) :=
        if base =? 0 then
          let '(s, base) := if char_at s =? 48 then (tail s, OCT) else (s, DEC) in
          if (base =? OCT) && (char_at s =? 120) && isxdigit (char_at (tail s)) then (tail s, HEX)
          else (s, base)
        else (s, base) in
      accumulate 0 (u32 base) s
  end.

Definition strtol (s : list Z) (base : Z) : Z * list Z :=
  if char_at s =? 45 then
    let (v, rest) := strtoul (Some (tail s)) base in (i32 (u32 (- v)), rest)
  else
    let (v, rest) := strtoul (Some s) base in (i32 v, rest).

Definition atoi (s : list Z) : Z := i32 (fst (strtol s DEC)).

Definition std_base (base : Z) : Prop := base = DEC \/ base = OCT \/ base = HEX.

(** ** The digits *)

(** Digits with the lowest first. *)
Fixpoint digits_value (base : Z) (ds : list Z) : Z :=
  match ds with [] => 0 | d :: ds => d + base * digits_value base ds end.

Lemma i8_small z : -128 <= z < 128 -> i8 z = z.
Proof. apply (swrap_small 8). lia. Qed.

Lemma to_digits_spec base : 2 <= base <= 16 -> forall room val,
  0 <= val < base ^ Z.of_nat room ->
  exists ds, to_digits room val base = Ret (map digit_char ds) /\
    Forall (fun d => 0 <= d < base) ds /\ digits_value base ds = val /\
    (length ds <= room)%nat /\ (val = 0 -> ds = []) /\ (val <> 0 -> exists ds' d, ds = ds' ++ [d] /\ d <> 0).
Proof.
  intros Hb. induction room as [|room IH]; intros val Hv.
  { assert (val = 0) as -> by (simpl in Hv; lia). exists []. split; [done|]. split; [constructor|]. split; [done|]. split; [simpl; lia|]. done. }
  cbn [to_digits]. destruct (Z.eqb_spec val 0) as [-> | Hnz].
  { exists []. split; [done|]. split; [constructor|]. split; [done|]. split; [simpl; lia|]. done. }
  rewrite Nat2Z.inj_succ, Z.pow_succ_r in Hv by lia.
  pose proof (Z.div_mod val base). pose proof (Z.mod_pos_bound val base).
  destruct (IH (val / base)) as (ds & -> & Hds & Hval & Hlen & Hnil & Hlast).
  { split; [apply Z.div_pos; lia|]. apply Z.div_lt_upper_bound; lia. }
  exists (val mod base :: ds). cbn [mbind outcome_bind map digits_value length]. repeat split.
  - rewrite (i8_small (val mod base)) by lia. rewrite i8_small; [done|]. unfold digit_char. destruct (Z.leb_spec 10 (val mod base)); lia.
  - by constructor; [lia|].
  - rewrite Hval. lia.
  - lia.
  - done.
  - intros _. destruct (decide (val / base = 0)) as [E|E].
    + exists [], (val mod base). rewrite (Hnil E). split; [done|]. lia.
    + destruct (Hlast E) as (ds' & d & -> & Hd). by exists (val mod base :: ds'), d.
Qed.

(** Reading one digit. *)
Lemma accumulate_digit res base d s : 0 <= d < 16 ->
  accumulate res base (digit_char d :: s) = accumulate (u32 (res * base + d)) base s.
Proof.
  intros Hd. unfold digit_char. cbn [accumulate]. destruct (Z.leb_spec 10 d).
  - unfold isdigit, islower, isupper.
    rewrite (proj2 (Z.leb_gt (d - 10 + 65) 57)), (proj2 (Z.leb_gt 97 (d - 10 + 65))) by lia.
    rewrite andb_false_r. cbn [andb]. rewrite !(proj2 (Z.leb_le _ _)) by lia. cbn [andb].
    do 2 f_equal. lia.
  - unfold isdigit. rewrite !(proj2 (Z.leb_le _ _)) by lia. cbn [andb]. do 2 f_equal. lia.
Qed.

Lemma digits_value_nonneg base ds : 0 <= base -> Forall (fun d => 0 <= d < base) ds -> 0 <= digits_value base ds.
Proof. intros Hb. induction 1 as [|d ds Hd _ IH]; cbn [digits_value]; nia. Qed.

(** Reading the digits back, the highest first. *)
Lemma accumulate_digits base : 2 <= base <= 16 -> forall ds res rest,
  Forall (fun d => 0 <= d < base) ds ->
  0 <= res -> res * base ^ Z.of_nat (length ds) + digits_value base ds < 4294967296 ->
  accumulate res base (rev (map digit_char ds) ++ rest) =
    accumulate (res * base ^ Z.of_nat (length ds) + digits_value base ds) base rest.
Proof.
  intros Hb. induction ds as [|d ds IH]; intros res rest Hds Hres Hlt.
  { cbn [map rev length digits_value app]. f_equal. simpl. lia. }
  apply Forall_cons in Hds as [Hd Hds]. pose proof (digits_value_nonneg base ds ltac:(lia) Hds).
  cbn [map rev length digits_value] in *. rewrite Nat2Z.inj_succ, Z.pow_succ_r in * by lia.
  rewrite <- app_assoc. cbn [app].
  assert (0 <= base ^ Z.of_nat (length ds)) by (apply Z.pow_nonneg; lia).
  rewrite (IH res) by (try done; nia). rewrite accumulate_digit by lia.
  rewrite u32_small by nia. f_equal. lia.
Qed.

Lemma accumulate_value base ds : 2 <= base <= 16 -> Forall (fun d => 0 <= d < base) ds ->
  digits_value base ds < 4294967296 ->
  accumulate 0 base (rev (map digit_char ds)) = (digits_value base ds, []).
Proof.
  intros Hb Hds Hv. rewrite <- (app_nil_r (rev _)), accumulate_digits by (done || lia). cbn [accumulate]. done.
Qed.

(** Enough room in [tbuf] for 32 bits in the three bases. *)
Lemma room_enough base val : std_base base -> 0 <= val < 4294967296 -> 0 <= val < base ^ Z.of_nat (Nr_DIGITS + 2).
Proof.
  intros Hb Hv. assert (4294967296 <= base ^ Z.of_nat (Nr_DIGITS + 2)); [|lia].
  by destruct Hb as [->|[-> | ->]].
Qed.

(** ** Writing and reading back *)

Definition prefix (base : Z) : list Z :=
  if base =? OCT then [48] else if base =? HEX then [48; 120] else [].

Lemma std_base_range base : std_base base -> 2 <= base <= 16 /\ base <> 0 /\ u32 base = base.
Proof. by intros [->|[-> | ->]]. Qed.

(** What [ultostr] writes: the prefix and the digits, the highest one not 0
    unless it is the only one. *)
Lemma ultostr_spec buf val base :
  buf <> 0 -> std_base base -> 0 <= val < 4294967296 ->
  exists ds d, ultostr buf val base = Ret (prefix base ++ rev (map digit_char (ds ++ [d]))) /\
    Forall (fun d => 0 <= d < base) (ds ++ [d]) /\ digits_value base (ds ++ [d]) = val /\
    (d = 0 -> ds = []) /\ (length (ds ++ [d]) <= 13)%nat.
Proof.
  intros Hbuf Hb Hv. destruct (std_base_range _ Hb) as (Hr & Hz & Hu). unfold ultostr.
  rewrite (proj2 (Z.eqb_neq _ _) Hbuf), (proj2 (Z.eqb_neq _ _) Hz).
  assert ((if base =? HEX then (if base =? OCT then [48] else []) ++ [48; 120]
           else if base =? OCT then [48] else []) = prefix base) as -> by by destruct Hb as [->|[-> | ->]].
  destruct (Z.eqb_spec val 0) as [-> | Hnz].
  { exists [], 0. split; [done|]. split; [repeat constructor; lia|]. cbn [digits_value app]. split; [lia|]. split; [done|]. simpl; lia. }
  rewrite Hu. destruct (to_digits_spec base Hr _ _ (room_enough _ _ Hb Hv)) as (ds & -> & Hds & Hval & Hlen & _ & Hlast).
  destruct (Hlast Hnz) as (ds' & d & -> & Hd). exists ds', d. split_and!; (done || exact Hlen).
Qed.

Lemma isxdigit_digit d : 0 <= d < 16 -> isxdigit (digit_char d) = true /\ (digit_char d = 48 <-> d = 0).
Proof. intros Hd. unfold isxdigit, isdigit, digit_char. destruct (Z.leb_spec 10 d); lia. Qed.

Lemma ultostr_read buf val base : buf <> 0 -> std_base base -> 0 <= val < 4294967296 ->
  exists s, ultostr buf val base = Ret s /\
    strtoul (Some s) 0 = (val, []) /\ strtoul (Some s) base = (val, []) /\ char_at s <> 45 /\
    Forall (fun c => c <> 0) s /\ (length s <= 15)%nat.
Proof.
  intros Hbuf Hb Hv. destruct (std_base_range _ Hb) as (Hr & Hz & Hu).
  destruct (ultostr_spec buf val base Hbuf Hb Hv) as (ds & d & -> & Hds & Hval & Hd & Hlen).
  eexists. split; [reflexivity|].
  assert (Forall (fun c => c <> 0) (prefix base ++ rev (map digit_char (ds ++ [d]))) /\
    (length (prefix base ++ rev (map digit_char (ds ++ [d]))) <= 15)%nat) as Htext.
  { split.
    - apply Forall_app. split; [by destruct Hb as [->|[-> | ->]]; repeat constructor|].
      apply Forall_rev, Forall_map. eapply Forall_impl; [exact Hds|]. intros x Hx. cbn beta in Hx |- *.
      unfold compose, digit_char. destruct (Z.leb_spec 10 x); lia.
    - rewrite length_app, length_rev, length_map.
      assert (length (prefix base) <= 2)%nat by (destruct Hb as [->|[-> | ->]]; cbv; lia). lia. }
  assert (0 <= d < base) as Hdb by (apply Forall_app in Hds as [_ Hds]; by inversion Hds).
  pose proof (accumulate_value base (ds ++ [d]) Hr Hds ltac:(lia)) as Hacc. rewrite Hval in Hacc.
  destruct (isxdigit_digit d) as [Hx H48]; [lia|].
  revert Htext. rewrite map_app, rev_app_distr in Hacc |- *. cbn [map rev app] in Hacc |- *.
  set (tl := rev (map digit_char ds)) in *.
  assert (digit_char d <> 120 /\ digit_char d <> 45) as [H120 H45] by (unfold digit_char; destruct (10 <=? d); lia).
  unfold strtoul. rewrite (proj2 (Z.eqb_neq base 0)) by done. rewrite Hu.
  destruct Hb as [->|[-> | ->]].
  - change (prefix DEC) with (@nil Z). cbn [app]. change (char_at (digit_char d :: tl)) with (digit_char d).
    intros Htext. split; [|exact (conj Hacc (conj H45 Htext))]. destruct (Z.eqb_spec (digit_char d) 48) as [E|E].
    + apply H48 in E as ->. assert (tl = []) as -> by (unfold tl; by rewrite (Hd eq_refl)).
      rewrite (Hd eq_refl) in Hval. rewrite <- Hval. reflexivity.
    + exact Hacc.
  - change (prefix OCT ++ digit_char d :: tl) with (48 :: digit_char d :: tl).
    change (char_at (48 :: digit_char d :: tl)) with 48. cbn [Z.eqb Pos.eqb tail].
    change (OCT =? OCT) with true. change (char_at (digit_char d :: tl)) with (digit_char d).
    rewrite (proj2 (Z.eqb_neq _ _) H120). intros Htext. split; [exact Hacc|]. split; [exact Hacc|]. split; [discriminate|exact Htext].
  - change (prefix HEX ++ digit_char d :: tl) with (48 :: 120 :: digit_char d :: tl).
    change (char_at (48 :: 120 :: digit_char d :: tl)) with 48. cbn [Z.eqb Pos.eqb tail].
    change (char_at (digit_char d :: tl)) with (digit_char d). rewrite Hx. intros Htext. split; [exact Hacc|]. split; [exact Hacc|]. split; [discriminate|exact Htext].
Qed.

(** ** Signed numbers *)

Lemma ltostr_read buf val : buf <> 0 -> buf <> 4294967295 -> 0 <= buf < 4294967296 ->
  -2147483648 <= val < 2147483648 ->
  exists s, ltostr buf val DEC = Ret s /\ strtol s DEC = (val, []) /\
    Forall (fun c => c <> 0) s /\ (length s <= 16)%nat.
Proof.
  intros Hbuf Hbuf' Hb32 Hv. unfold ltostr. change (DEC =? DEC) with true.
  destruct (Z.ltb_spec val 0) as [Hneg|Hpos]; cbn [andb orb].
  - destruct (ultostr_read (u32 (buf + 1)) (u32 (- val)) DEC) as (s & -> & _ & E & _ & Hz & Hl);
      [rewrite u32_small by lia; lia|by left|apply u32_range|].
    eexists. split; [reflexivity|]. split; [|split; [by constructor|cbn [length]; lia]].
    unfold strtol. change (char_at (45 :: s) =? 45) with true. cbn [tail].
    rewrite E. rewrite (u32_small (- val)) by lia. f_equal.
    unfold swrap, uwrap. pow2. rewrite Z.add_mod_idemp_l by lia.
    replace (- - val + 2147483648) with (val + 2147483648) by lia. rewrite Z.mod_small; lia.
  - destruct (ultostr_read buf (u32 val) DEC) as (s & -> & _ & E & Hs & Hz & Hl); [done|by left|apply u32_range|].
    eexists. split; [reflexivity|]. split; [|split; [done|lia]]. unfold strtol. rewrite (proj2 (Z.eqb_neq _ _) Hs), E.
    by rewrite u32_small, i32_small by lia.
Qed.

(** Decimal text has digits and a minus sign. *)
Lemma ltostr_chars buf val s : buf <> 0 -> buf <> 4294967295 -> 0 <= buf < 4294967296 ->
  ltostr buf val DEC = Ret s -> Forall (fun c => 45 <= c < 58) s.
Proof.
  intros Hbuf Hbuf' Hb32.
  assert (forall b v t, b <> 0 -> ultostr b (u32 v) DEC = Ret t -> Forall (fun c => 45 <= c < 58) t) as Hu.
  { intros b v t Hb E. destruct (ultostr_spec b (u32 v) DEC Hb (or_introl eq_refl) (u32_range v)) as (ds & d & E' & Hds & _).
    rewrite E in E'. injection E' as ->. change (prefix DEC) with (@nil Z). cbn [app].
    apply Forall_rev, Forall_map. eapply Forall_impl; [exact Hds|]. intros x Hx. cbv beta delta [DEC] in Hx.
    cbn beta. unfold compose, digit_char. destruct (Z.leb_spec 10 x); lia. }
  unfold ltostr. change (DEC =? DEC) with true. destruct (Z.ltb_spec val 0); cbn [andb orb].
  - specialize (Hu (u32 (buf + 1)) (- val)). rewrite (u32_small (buf + 1)) in * by lia.
    destruct (ultostr (buf + 1) (u32 (- val)) DEC) as [t| | |] eqn:E; try done. cbn [mbind outcome_bind].
    intros [= <-]. constructor; [lia|]. by apply Hu; [lia|].
  - intros E. by apply (Hu buf val).
Qed.

(** A number written in base 8, 10 or 16 reads back as itself, by [strtoul]
    with base 0, which takes the base from the prefix, and with the same base;
    the whole text is used. *)
Theorem ultostr_strtoul buf val base :
  buf <> 0 -> std_base base -> 0 <= val < 4294967296 ->
  exists s, ultostr buf val base = Ret s /\
    strtoul (Some s) 0 = (val, []) /\ strtoul (Some s) base = (val, []).
Proof.
  intros Hbuf Hb Hv. destruct (ultostr_read buf val base) as (s & H1 & H2 & H3 & _); [done..|]. by exists s.
Qed.

(** [atoi] reads back every 32 bit number that [itoa] writes, the least one
    included. *)
Theorem itoa_atoi buf val :
  0 < buf < 4294967295 -> -2147483648 <= val < 2147483648 ->
  exists s, itoa buf val = Ret s /\ atoi s = val.
Proof.
  intros Hbuf Hv. destruct (ltostr_read buf val) as (s & E & E' & _); [lia..|]. exists s. split; [exact E|].
  unfold atoi. rewrite E'. by apply i32_small.
Qed.

(** Base 2, which the header lists as valid, overruns the static buffer of 13
    digits from 8192 on. *)
Theorem ultostr_bin_overruns buf val :
  buf <> 0 -> 8192 <= val < 4294967296 -> ultostr buf val BIN = Fault.
Proof.
  intros Hbuf Hv. unfold ultostr. rewrite (proj2 (Z.eqb_neq _ _) Hbuf).
  change (BIN =? 0) with false. cbn iota. change (u32 BIN) with 2.
  rewrite (proj2 (Z.eqb_neq val 0)) by lia.
  assert (forall room v, 2 ^ Z.of_nat room <= v -> to_digits room v 2 = Fault) as H.
  { induction room as [|room IH]; intros v Hr; cbn [to_digits].
    - change (2 ^ Z.of_nat 0) with 1 in Hr. by rewrite (proj2 (Z.eqb_neq v 0)) by lia.
    - rewrite Nat2Z.inj_succ, Z.pow_succ_r in Hr by lia.
      pose proof (Z.pow_pos_nonneg 2 (Z.of_nat room)).
      rewrite (proj2 (Z.eqb_neq v 0)) by lia. rewrite IH; [done|]. apply Z.div_le_lower_bound; lia. }
  rewrite H; [done|]. change (2 ^ Z.of_nat (Nr_DIGITS + 2)) with 8192. lia.
Qed.

Lemma ultostr_strtoul_witness :
  exists s, ultostr 4096 3735928559 HEX = Ret s /\ strtoul (Some s) 0 = (3735928559, []).
Proof.
  destruct (ultostr_strtoul 4096 3735928559 HEX) as (s & H1 & H2 & _); [done|by right; right|done|].
  exists s. exact (conj H1 H2).
Defined.

Lemma itoa_atoi_witness : exists s, itoa 4096 (-2147483648) = Ret s /\ atoi s = -2147483648.
Proof. apply itoa_atoi; by split. Defined.

Lemma ultostr_bin_overruns_witness : ultostr 4096 9000 BIN = Fault.
Proof. apply ultostr_bin_overruns; done. Defined.
