(* ===== verification/Printk.v ===== *)
(** * Formatted text ([libk/vsprintk.c], [libk/util.c])

    [vsprintk] as a state machine on the format: a pointer into the format is a
    position, the character past the last one is its NUL, and a jump to
    [READ_FLAGS] is a turn of a loop.  The variable arguments are the values the
    caller passed; taking one of another kind, or one too many, is undefined.
    The text written is a list; the static buffer [tmp] is an array. *)

From S2P Require Import Prelude Conv.

Definition MAX_BUFFER : nat := 4096.

Inductive arg :=
| Int (v : Z)
| Str (s : option (list Z))
| Wide (s : option (list Z))
| Ptr (a : Z).

Record vflags := Vflags {
  type : Z; sign : Z; ljust : Z; sharp : Z; space : Z; vfill : Z; prec : Z; width : Z
}.

Definition no_flags : vflags := Vflags 0 0 0 0 0 0 0 0.

Definition set_type c f := Vflags c (sign f) (ljust f) (sharp f) (space f) (vfill f) (prec f) (width f).
Definition set_sign c f := Vflags (type f) c (ljust f) (sharp f) (space f) (vfill f) (prec f) (width f).
Definition set_ljust c f := Vflags (type f) (sign f) c (sharp f) (space f) (vfill f) (prec f) (width f).
Definition set_sharp c f := Vflags (type f) (sign f) (ljust f) c (space f) (vfill f) (prec f) (width f).
Definition set_space c f := Vflags (type f) (sign f) (ljust f) (sharp f) c (vfill f) (prec f) (width f).
Definition set_fill c f := Vflags (type f) (sign f) (ljust f) (sharp f) (space f) c (prec f) (width f).
Definition set_prec c f := Vflags (type f) (sign f) (ljust f) (sharp f) (space f) (vfill f) (i8 c) (width f).
Definition set_width c f := Vflags (type f) (sign f) (ljust f) (sharp f) (space f) (vfill f) (prec f) (i8 c).

(** The text written so far, the arguments left, [tmp], and what the [n]
    conversions stored: the pointer, the size and the value. *)
Record printer := Printer {
  out : list Z;
  args : list arg;
  tmp : list Z;
  stored : list (Z * Z * Z)
}.

Definition set_tmp (t : list Z) (s : printer) : printer := Printer (out s) (args s) t (stored s).

Definition emit (l : list Z) : st printer unit :=
  modify (fun s => Printer (out s ++ l) (args s) (tmp s) (stored s)).

Definition next_arg : st printer arg :=
  s ← get;
  match args s with
  | [] => fault
  | a :: l => _ ← put (Printer (out s) l (tmp s) (stored s)); mret a
  end.

Definition int_arg : st printer Z := a ← next_arg; match a with Int v => mret v | _ => fault end.
Definition ptr_arg : st printer Z := a ← next_arg; match a with Ptr p => mret p | _ => fault end.

(** Characters stored from the start of [tmp]. *)
Definition to_tmp (l : list Z) : st printer unit :=
  s ← get;
  if (length l <=? length (tmp s))%nat then put (set_tmp (l ++ drop (length l) (tmp s)) s) else fault.

(** The string at [tmp]. *)
Fixpoint cstring (l : list Z) : outcome (list Z) :=
  match l with
  | [] => Fault
  | c :: l => if c =? 0 then Ret [] else s ← cstring l; Ret (c :: s)
  end.

Definition tmp_string : st printer (list Z) := s ← get; lift (cstring (tmp s)).

(** [to_cp] *)
Fixpoint to_cp (buf widech : list Z) {struct widech} : outcome (list Z) :=
  match widech with
  | [] => Ret buf
  | w :: widech =>
      match buf with
      | [] => Fault
      | b :: buf =>
          if b =? 0 then Ret (b :: buf)
          else match buf with
               | [] => Fault
               | _ :: buf =>
                   r ← to_cp buf widech; Ret (i8 (Z.land w 255) :: i8 (Z.shiftr w 8) :: r)
               end
      end
  end.

(** [while(pad--)]: [pad] is a [char]. *)
Definition pads (pad c : Z) : list Z := replicate (Z.to_nat (u8 pad)) c.

Definition fill_char (f : vflags) : Z := if vfill f =? 48 then 48 else 32.
Definition left_adjusted (f : vflags) : bool := ljust f =? 45.

(** The conversions [c] and [s]: [n] characters of [text] between the pads. *)
Definition format_text (f : vflags) (n : Z) (text : list Z) : list Z :=
  (if negb (left_adjusted f) && (n <? width f) then pads (width f - n) (fill_char f) else []) ++
  take (Z.to_nat n) text ++
  (if left_adjusted f && (n <? width f) then pads (width f - n) 32 else []).

(** The prefix, its size [s], the text past what is skipped, and [n]. *)
Definition int_prefix (c : Z) (f : vflags) (n : Z) (text : list Z) : list Z * Z * list Z * Z :=
  if (c =? 100) || (c =? 105) then
    if char_at text =? 45 then ([45], 1, tail text, n)
    else if sign f =? 43 then ([43], 1, text, n + 1)
    else if space f =? 32 then ([32], 1, text, n + 1)
    else ([], 0, text, n)
  else if c =? 111 then
    if sharp f =? 35 then ([48], 1, drop 1 text, n) else ([], 0, drop 1 text, n - 1)
  else if (c =? 120) || (c =? 112) then
    if sharp f =? 35 then ([48; 120], 2, drop 2 text, n) else ([], 0, drop 2 text, n - 2)
  else if c =? 88 then
    if sharp f =? 35 then ([48; 88], 2, drop 2 text, n) else ([], 0, drop 2 text, n - 2)
  else ([], 0, text, n).

(** [MAIN_FORMATTING] *)
Definition format_int (c : Z) (f : vflags) (n : Z) (text : list Z) : list Z :=
  let fill := fill_char f in
  let '(prefix, s, text, n) := int_prefix c f n text in
  let x := if prec f + s <? n then n else prec f + s in
  (if negb (left_adjusted f) && (fill =? 48) then prefix else []) ++
  (if negb (left_adjusted f) && (x <? width f) then pads (width f - x) fill else []) ++
  (if left_adjusted f || (fill =? 32) then prefix else []) ++
  (if n - s <? prec f then pads (prec f - (n - s)) 48 else []) ++
  text ++
  (if left_adjusted f && (x <? width f) then pads (width f - x) 32 else []).

Section Code.
(** The address of [tmp]. *)
Context (tmp_addr : Z).
Context (fmt : list Z).

Definition char_of (p : nat) : Z := default 0 (fmt !! p).

(** A number converted into [tmp]: its length and the string. *)
Definition convert (o : outcome (list Z)) : st printer (Z * list Z) :=
  l ← lift o;
  _ ← to_tmp (l ++ [0]);
  text ← tmp_string;
  mret (Z.of_nat (length l), text).

Definition sized (f : vflags) (v : Z) : Z := if type f =? 104 then u16 v else u32 v.
Definition sized_signed (f : vflags) (v : Z) : Z := if type f =? 104 then swrap 16 v else i32 v.

Definition to_lower (l : list Z) : list Z := map (fun c => if isalpha c then tolower c else c) l.

(** One conversion; [false] when the character is not one. *)
Definition conversion (c : Z) (f : vflags) : st printer bool :=
  if c =? 37 then _ ← emit [c]; mret true
  else if c =? 99 then
    v ← int_arg;
    _ ← to_tmp [i8 v];
    let n := 1 in
    _ ← emit ((if negb (left_adjusted f) && (1 <? width f) then pads (width f - 1) (fill_char f) else []) ++
              [i8 v] ++
              (if left_adjusted f && (1 <? width f) then pads (width f - 1) 32 else []));
    mret true
  else if c =? 115 then
    a ← next_arg;
    text ← match type f =? 108, a with
           | true, Wide w => s ← get; t ← lift (to_cp (tmp s) (default [] w)); _ ← put (set_tmp t s); tmp_string
           | false, Str s => mret (default [] s)
           | _, _ => fault
           end;
    let n := Z.of_nat (length text) in
    let n := if 0 <? prec f then (if n <? prec f then n else prec f) else n in
    _ ← emit (format_text f n text); mret true
  else if c =? 117 then
    v ← int_arg; '(n, text) ← convert (ultostr tmp_addr (sized f v) DEC);
    _ ← emit (format_int c f n text); mret true
  else if c =? 111 then
    v ← int_arg; '(n, text) ← convert (ultostr tmp_addr (sized f v) OCT);
    _ ← emit (format_int c f n text); mret true
  else if (c =? 120) || (c =? 88) then
    v ← int_arg; '(n, text) ← convert (ultostr tmp_addr (sized f v) HEX);
    _ ← emit (format_int c f n (if c =? 120 then to_lower text else text)); mret true
  else if c =? 112 then
    v ← ptr_arg; '(n, text) ← convert (ultostr tmp_addr (u32 v) HEX);
    _ ← emit (format_int c f n text); mret true
  else if (c =? 100) || (c =? 105) then
    v ← int_arg; '(n, text) ← convert (ltostr tmp_addr (sized_signed f v) DEC);
    _ ← emit (format_int c f n text); mret true
  else if c =? 110 then
    a ← ptr_arg;
    _ ← modify (fun s => let n := Z.of_nat (length (out s)) in
          let v := if type f =? 104 then swrap 16 n else n in
          Printer (out s) (args s) (tmp s) (stored s ++ [(a, type f, v)]));
    mret true
  else mret false.

(** The digits from [p] on. *)
Fixpoint digits_of (l : list Z) : list Z :=
  match l with [] => [] | c :: l => if isdigit c then c :: digits_of l else [] end.

(** A number in the format, scanned through [tmp]: its value and the position of
    its last character. *)
Definition scan_number (p : nat) : st printer (Z * nat) :=
  let ds := digits_of (drop p fmt) in
  _ ← to_tmp (ds ++ [0]);
  text ← tmp_string;
  mret (atoi text, (p + length ds - 1)%nat).

(** [READ_FLAGS] *)
Fixpoint read_flags (fuel : nat) (p : nat) (f : vflags) : st printer (nat * vflags) :=
  match fuel with
  | O => fun _ => NoFuel
  | S fuel =>
      let p := (p + 1)%nat in
      let c := char_of p in
      if c =? 48 then read_flags fuel p (set_fill 48 f)
      else if c =? 46 then
        let p := (p + 1)%nat in
        if char_of p =? 42 then v ← int_arg; read_flags fuel p (set_prec v f)
        else '(v, p) ← scan_number p; read_flags fuel p (set_prec v f)
      else if isdigit c then '(v, p) ← scan_number p; read_flags fuel p (set_width v f)
      else if c =? 42 then v ← int_arg; read_flags fuel p (set_width v f)
      else if c =? 104 then read_flags fuel p (set_type 104 f)
      else if c =? 108 then read_flags fuel p (set_type 108 f)
      else if c =? 45 then read_flags fuel p (set_ljust 45 f)
      else if c =? 43 then read_flags fuel p (set_sign 43 f)
      else if c =? 32 then read_flags fuel p (set_space 32 f)
      else if c =? 35 then read_flags fuel p (set_sharp 35 f)
      else mret (p, f)
  end.

(** Back to the percent sign, or to the start. *)
Fixpoint back_to_percent (p : nat) : nat :=
  match p with
  | O => O
  | S q => if char_of p =? 37 then p else back_to_percent q
  end.

Fixpoint format_loop (fuel : nat) (p : nat) : st printer unit :=
  match fuel with
  | O => fun _ => NoFuel
  | S fuel =>
      let c := char_of p in
      if c =? 0 then mret tt
      else if negb (c =? 37) then _ ← emit [c]; format_loop fuel (p + 1)
      else
        '(p, f) ← read_flags (S (length fmt)) p no_flags;
        ok ← conversion (char_of p) f;
        if (ok : bool) then format_loop fuel (p + 1)
        else emit (drop (back_to_percent p) fmt)
  end.

(** The characters at [buf] before the NUL; their number is returned. *)
Definition vsprintk (l : list arg) (t : list Z) : outcome (list Z * printer) :=
  match format_loop (S (length fmt)) 0 (Printer [] l t []) with
  | Ret (_, s) => Ret (out s, s)
  | Panic => Panic | Fault => Fault | NoFuel => NoFuel
  end.
End Code.

(** ** Integers are laid out as the flags say *)

(** The layout: sign, digits filled up with zeros to the precision, and blanks
    on one side, or zeros between the sign and the digits, up to the width. *)
Definition layout (sgn digits : list Z) (precision wid : Z) (left zero : bool) : list Z :=
  let body := replicate (Z.to_nat (precision - Z.of_nat (length digits))) 48 ++ digits in
  let room := Z.to_nat (wid - Z.of_nat (length (sgn ++ body))) in
  if left then sgn ++ body ++ replicate room 32
  else if zero then sgn ++ replicate room 48 ++ body
  else replicate room 32 ++ sgn ++ body.

(** The sign of a decimal number. *)
Definition sign_of (f : vflags) (negative : bool) : list Z :=
  if negative then [45] else if sign f =? 43 then [43] else if space f =? 32 then [32] else [].

Lemma pads_small n c : 0 <= n < 256 -> pads n c = replicate (Z.to_nat n) c.
Proof. intros Hn. unfold pads. by rewrite u8_small. Qed.

Lemma pads_room (b : bool) w x c : -128 <= w < 128 -> 0 <= x ->
  (if b && (x <? w) then pads (w - x) c else []) =
    if b then replicate (Z.to_nat (w - x)) c else [].
Proof.
  intros Hw Hx. destruct b; [|done]. cbn [andb]. destruct (Z.ltb_spec x w).
  - by rewrite pads_small by lia.
  - by replace (Z.to_nat (w - x)) with O by lia.
Qed.

Lemma pads_prec w x c : -128 <= w < 128 -> 0 <= x ->
  (if x <? w then pads (w - x) c else []) = replicate (Z.to_nat (w - x)) c.
Proof. intros Hw Hx. exact (pads_room true w x c Hw Hx). Qed.

(** The common part of the integer conversions, the prefix being known. *)
Lemma format_int_layout c f n text prefix s digits n' :
  int_prefix c f n text = (prefix, s, digits, n') ->
  s = Z.of_nat (length prefix) -> n' = s + Z.of_nat (length digits) ->
  -128 <= prec f < 128 -> -128 <= width f < 128 ->
  format_int c f n text =
    layout prefix digits (prec f) (width f) (left_adjusted f) (vfill f =? 48).
Proof.
  intros E Hs Hn Hp Hw. unfold format_int. rewrite E. unfold layout, fill_char.
  set (x := if prec f + s <? n' then n' else prec f + s).
  assert (x = Z.of_nat (length (prefix ++ replicate (Z.to_nat (prec f - Z.of_nat (length digits))) 48 ++ digits))) as Hx.
  { unfold x. rewrite !length_app, length_replicate. destruct (Z.ltb_spec (prec f + s) n'); lia. }
  rewrite <- Hx. rewrite !pads_room, pads_prec by lia. replace (prec f - (n' - s)) with (prec f - Z.of_nat (length digits)) by lia.
  destruct (left_adjusted f), (vfill f =? 48); cbn [negb andb orb Z.eqb Pos.eqb]; rewrite ?app_nil_r, ?app_nil_l, <- ?app_assoc; done.
Qed.

(** An integer conversion is laid out as its flags say: sign or prefix,
    zeros up to the precision, digits, and the fill on the side of the flags. *)
Theorem format_int_correct f (negative : bool) digits :
  char_at digits <> 45 -> -128 <= prec f < 128 -> -128 <= width f < 128 ->
  format_int 100 f (Z.b2z negative + Z.of_nat (length digits)) ((if negative then [45] else []) ++ digits) =
    layout (sign_of f negative) digits (prec f) (width f) (left_adjusted f) (vfill f =? 48).
Proof.
  intros Hd Hp Hw. unfold sign_of. apply (format_int_layout _ _ _ _ _ (Z.of_nat (length
    (if negative then [45] else if sign f =? 43 then [43] else if space f =? 32 then [32] else []))) _
    (Z.of_nat (length (if negative then [45] else if sign f =? 43 then [43] else if space f =? 32 then [32] else [])) +
     Z.of_nat (length digits))); [|done..].
  unfold int_prefix. cbn [Z.eqb Pos.eqb orb]. destruct negative; cbn [app tail Z.b2z].
  - done.
  - rewrite (proj2 (Z.eqb_neq _ _) Hd).
    destruct (sign f =? 43); [|destruct (space f =? 32)]; cbn [length];
      (apply (f_equal2 pair); [reflexivity|lia]).
Qed.

(** ** The format is processed to its end *)

Section Safe.
Context (tmp_addr : Z) (fmt : list Z).

(** The run does not exhaust its fuel, and its result satisfies [Q]. *)
Definition safe {A} (Q : A -> Prop) (m : st printer A) : Prop :=
  forall s, match m s with Ret (a, _) => Q a | NoFuel => False | _ => True end.

Lemma safe_bind {A B} (Q : A -> Prop) (R : B -> Prop) (m : st printer A) (k : A -> st printer B) :
  safe Q m -> (forall a, Q a -> safe R (k a)) -> safe R (m ≫= k).
Proof.
  intros Hm Hk s. unfold mbind, st_bind. specialize (Hm s). destruct (m s) as [[a s']| | |]; try done.
  by apply (Hk a Hm).
Qed.

Lemma safe_ret {A} (Q : A -> Prop) a : Q a -> safe Q (mret a).
Proof. by intros Ha s. Qed.

Lemma safe_fault {A} (Q : A -> Prop) : safe Q fault.
Proof. by intros s. Qed.

Definition any {A} (a : A) : Prop := True.

Lemma safe_lift {A} (o : outcome A) : o <> NoFuel -> safe any (lift o).
Proof. intros Ho s. unfold lift. by destruct o. Qed.

Lemma safe_next_arg : safe any next_arg.
Proof. intros s. unfold next_arg, mbind, st_bind, get. by destruct (args s). Qed.

Lemma safe_int_arg : safe any int_arg.
Proof. apply (safe_bind any); [apply safe_next_arg|]. intros [] _; first [by apply safe_ret | apply safe_fault]. Qed.

Lemma safe_ptr_arg : safe any ptr_arg.
Proof. apply (safe_bind any); [apply safe_next_arg|]. intros [] _; first [by apply safe_ret | apply safe_fault]. Qed.

Lemma safe_emit l : safe any (emit l).
Proof. by intros s. Qed.

Lemma safe_to_tmp l : safe any (to_tmp l).
Proof. intros s. unfold to_tmp, mbind, st_bind, get. by destruct (_ <=? _)%nat. Qed.

Lemma cstring_fuel l : cstring l <> NoFuel.
Proof. induction l as [|c l IH]; cbn [cstring]; [done|]. destruct (c =? 0); [done|]. by destruct (cstring l). Qed.

Lemma safe_tmp_string : safe any tmp_string.
Proof. intros s. unfold tmp_string, mbind, st_bind, get, lift. pose proof (cstring_fuel (tmp s)). by destruct (cstring (tmp s)). Qed.

Lemma to_cp_fuel w : forall b, to_cp b w <> NoFuel.
Proof.
  induction w as [|c w IH]; intros b; cbn [to_cp]; [done|]. destruct b as [|x b]; [done|].
  destruct (x =? 0); [done|]. destruct b as [|y b]; [done|]. specialize (IH b). by destruct (to_cp b w).
Qed.

Lemma to_digits_fuel base : forall room v, to_digits room v base <> NoFuel.
Proof.
  induction room as [|room IH]; intros v; cbn [to_digits]; destruct (v =? 0); try done.
  specialize (IH (v / base)). by destruct (to_digits room (v / base) base).
Qed.

Lemma ultostr_fuel buf v base : ultostr buf v base <> NoFuel.
Proof.
  unfold ultostr. destruct (buf =? 0); [done|]. destruct (v =? 0); [done|].
  pose proof (to_digits_fuel (u32 (if base =? 0 then DEC else base)) (Nr_DIGITS + 2) v).
  by destruct (to_digits _ _ _).
Qed.

Lemma ltostr_fuel buf v base : ltostr buf v base <> NoFuel.
Proof.
  unfold ltostr. destruct (_ && _); [|apply ultostr_fuel].
  pose proof (ultostr_fuel (u32 (buf + 1)) (u32 (- v)) DEC). by destruct (ultostr _ _ _).
Qed.

Lemma safe_convert o : o <> NoFuel -> safe any (convert o).
Proof.
  intros Ho. apply (safe_bind any); [by apply safe_lift|]. intros l _.
  apply (safe_bind any); [apply safe_to_tmp|]. intros _ _.
  apply (safe_bind any); [apply safe_tmp_string|]. intros t _. by apply safe_ret.
Qed.

(** A conversion that writes text after one argument. *)
Lemma safe_number {A} (m : st printer A) (o : A -> outcome (list Z)) (g : A -> Z -> list Z -> list Z) :
  safe any m -> (forall a, o a <> NoFuel) ->
  safe any (v ← m; '(n, text) ← convert (o v); _ ← emit (g v n text); mret true).
Proof.
  intros Hm Ho. apply (safe_bind any); [done|]. intros v _.
  apply (safe_bind any); [by apply safe_convert|]. intros [n text] _.
  apply (safe_bind any); [apply safe_emit|]. intros _ _. by apply safe_ret.
Qed.

Lemma safe_string f : safe any
  (a ← next_arg;
   text ← match type f =? 108, a with
          | true, Wide w => s ← get; t ← lift (to_cp (tmp s) (default [] w)); _ ← put (set_tmp t s); tmp_string
          | false, Str s => mret (default [] s)
          | _, _ => fault
          end;
   let n := Z.of_nat (length text) in
   let n := if 0 <? prec f then (if n <? prec f then n else prec f) else n in
   _ ← emit (format_text f n text); mret true).
Proof.
  apply (safe_bind any); [apply safe_next_arg|]. intros a _. apply (safe_bind any).
  - destruct (type f =? 108), a; try apply safe_fault; [|by apply safe_ret].
    intros s'. unfold mbind, st_bind, get, lift, put. pose proof (to_cp_fuel (default [] s) (tmp s')).
    destruct (to_cp _ _); try done. by apply safe_tmp_string.
  - intros t _. cbn zeta. apply (safe_bind any); [apply safe_emit|]. intros _ _. by apply safe_ret.
Qed.

Lemma safe_conversion c f : safe (fun ok : bool => ok = true -> c <> 0) (conversion tmp_addr c f).
Proof.
  destruct (decide (c = 0)) as [-> | Hc]; [by apply safe_ret|].
  assert (safe any (conversion tmp_addr c f)) as H; [|intros s; specialize (H s); destruct (conversion _ _ _ s) as [[? ?]| | |]; done].
  unfold conversion. repeat match goal with |- safe _ (if ?b then _ else _) => destruct b end;
    try apply safe_string; try (apply safe_number; [apply safe_int_arg || apply safe_ptr_arg|intros; apply ultostr_fuel || apply ltostr_fuel]).
  - apply (safe_bind any); [apply safe_emit|]. intros _ _. by apply safe_ret.
  - apply (safe_bind any); [apply safe_int_arg|]. intros v _. apply (safe_bind any); [apply safe_to_tmp|]. intros _ _.
    cbn zeta. apply (safe_bind any); [apply safe_emit|]. intros _ _. by apply safe_ret.
  - apply (safe_bind any); [apply safe_ptr_arg|]. intros v _. by intros s.
  - by apply safe_ret.
Qed.

Lemma char_of_inside p : char_of fmt p <> 0 -> (p < length fmt)%nat.
Proof. unfold char_of. destruct (fmt !! p) eqn:E; [|done]. intros _. by eapply lookup_lt_Some. Qed.

Lemma digits_of_length l : (length (digits_of l) <= length l)%nat.
Proof. induction l as [|c l IH]; cbn [digits_of length]; [lia|]. destruct (isdigit c); cbn [length]; lia. Qed.

Lemma digits_of_pos p : isdigit (char_of fmt p) = true -> (0 < length (digits_of (drop p fmt)))%nat.
Proof.
  unfold char_of. intros Hd. destruct (fmt !! p) as [c|] eqn:E; [|done]. cbn in Hd.
  rewrite (drop_S _ _ _ E). cbn [digits_of]. rewrite Hd. cbn [length]. lia.
Qed.

(** The position after a number lies inside the format. *)
Lemma safe_scan p q : (q < length fmt)%nat -> p = (q + 1)%nat \/ p = q /\ isdigit (char_of fmt p) = true ->
  safe (fun r : Z * nat => (q <= r.2 < length fmt)%nat) (scan_number fmt p).
Proof.
  intros Hl Hp. apply (safe_bind any); [apply safe_to_tmp|]. intros _ _.
  apply (safe_bind any); [apply safe_tmp_string|]. intros t _. apply safe_ret. cbn [snd].
  pose proof (digits_of_length (drop p fmt)) as Hd. rewrite length_drop in Hd.
  destruct Hp as [-> | [-> Hdig%digits_of_pos]]; lia.
Qed.

Lemma safe_read_flags fuel : forall p f, (p < length fmt)%nat -> (length fmt < fuel + p)%nat ->
  safe (fun r : nat * vflags => (p < r.1 <= length fmt)%nat) (read_flags fmt fuel p f).
Proof.
  induction fuel as [|fuel IH]; intros p f Hp Hf; [lia|]. cbn [read_flags]. cbn zeta.
  assert (forall q f, (p < q < length fmt)%nat ->
    safe (fun r : nat * vflags => (p < r.1 <= length fmt)%nat) (read_flags fmt fuel q f)) as Hnext.
  { intros q f' Hq s. pose proof (IH q f' ltac:(lia) ltac:(lia) s) as H.
    destruct (read_flags fmt fuel q f' s) as [[? ?]| | |]; try done. lia. }
  assert (forall v, char_of fmt (p + 1) = v -> v <> 0 -> (p + 1 < length fmt)%nat) as Hin.
  { intros v Hv Hz. apply char_of_inside. by rewrite Hv. }
  repeat match goal with |- safe _ (if ?c =? ?v then _ else _) =>
    let E := fresh "E" in destruct (Z.eqb_spec c v) as [E|E];
      [try (apply Hnext; specialize (Hin _ E ltac:(lia)); lia)|] end.
  - specialize (Hin 46 ltac:(assumption) ltac:(lia)).
    apply (safe_bind any); [apply safe_int_arg|]. intros v _. apply Hnext.
    assert (p + 1 + 1 < length fmt)%nat by (apply char_of_inside; lia). lia.
  - specialize (Hin 46 ltac:(assumption) ltac:(lia)). apply (safe_bind (fun r : Z * nat => (p + 1 <= r.2 < length fmt)%nat)).
    + apply safe_scan; [lia|by left].
    + intros [v q] Hq. cbn [snd] in Hq. apply Hnext. lia.
  - destruct (isdigit (char_of fmt (p + 1))) eqn:Ed.
    + assert (p + 1 < length fmt)%nat as Hl.
      { apply char_of_inside. intros E'. by rewrite E' in Ed. }
      apply (safe_bind (fun r : Z * nat => (p + 1 <= r.2 < length fmt)%nat)).
      * apply safe_scan; [lia|by right].
      * intros [v q] Hq. cbn [snd] in Hq. apply Hnext. lia.
    + repeat match goal with |- safe _ (if ?c =? ?v then _ else _) =>
        let E := fresh "E" in destruct (Z.eqb_spec c v) as [E|E];
          [try (apply Hnext; specialize (Hin _ E ltac:(lia)); lia)|] end.
      * apply (safe_bind any); [apply safe_int_arg|]. intros v _. apply Hnext.
        specialize (Hin 42 ltac:(assumption) ltac:(lia)). lia.
      * apply safe_ret. cbn [fst]. lia.
Qed.

Lemma safe_format_loop fuel : forall p, (p <= length fmt)%nat -> (length fmt < fuel + p)%nat ->
  safe any (format_loop tmp_addr fmt fuel p).
Proof.
  induction fuel as [|fuel IH]; intros p Hp Hf; [lia|]. cbn [format_loop]. cbn zeta.
  destruct (Z.eqb_spec (char_of fmt p) 0) as [E|E]; [by apply safe_ret|].
  pose proof (char_of_inside p E) as Hin. destruct (Z.eqb_spec (char_of fmt p) 37); cbn [negb].
  - apply (safe_bind (fun r : nat * vflags => (p < r.1 <= length fmt)%nat)); [apply safe_read_flags; lia|].
    intros [q f] Hq. cbn [fst] in Hq.
    apply (safe_bind (fun ok : bool => ok = true -> char_of fmt q <> 0)); [apply safe_conversion|].
    intros [] Hok; [|apply safe_emit]. apply char_of_inside in Hok; [|done]. apply IH; lia.
  - apply (safe_bind any); [apply safe_emit|]. intros _ _. apply IH; lia.
Qed.
End Safe.

(** Whatever the format, the flags and the arguments are, the loops of
    [vsprintk] end: each turn moves the pointer on, also over numbers and back
    from a conversion that is not known. *)
Theorem vsprintk_ends tmp_addr fmt l t : vsprintk tmp_addr fmt l t <> NoFuel.
Proof.
  unfold vsprintk.
  pose proof (safe_format_loop tmp_addr fmt (S (length fmt)) 0 ltac:(lia) ltac:(lia) (Printer [] l t [])) as H.
  by destruct (format_loop _ _ _ _ _) as [[? ?]| | |].
Qed.

(** ** A decimal number inside text *)

Definition plain (c : Z) : Prop := c <> 0 /\ c <> 37.

Lemma char_of_app pre rest p : (p < length rest)%nat -> char_of (pre ++ rest) (length pre + p) = default 0 (rest !! p).
Proof. intros Hp. unfold char_of. rewrite lookup_app_r by lia. by rewrite Nat.add_comm, Nat.add_sub. Qed.

Lemma cstring_app s rest : Forall (fun c => c <> 0) s -> cstring (s ++ 0 :: rest) = Ret s.
Proof.
  induction 1 as [|c s Hc _ IH]; cbn [cstring app]; [done|].
  rewrite (proj2 (Z.eqb_neq _ _) Hc), IH. done.
Qed.

(** Plain characters are copied. *)
Lemma format_plain tmp_addr pre mid : forall rest fuel s,
  Forall plain mid -> (length mid <= fuel)%nat ->
  format_loop tmp_addr (pre ++ mid ++ rest) fuel (length pre) s =
    format_loop tmp_addr (pre ++ mid ++ rest) (fuel - length mid) (length (pre ++ mid))
      (Printer (out s ++ mid) (args s) (tmp s) (stored s)).
Proof.
  revert pre. induction mid as [|c mid IH]; intros pre rest fuel s Hmid Hf.
  - rewrite !app_nil_r, Nat.sub_0_r. by destruct s.
  - apply Forall_cons in Hmid as [[H0 H37] Hmid]. destruct fuel as [|fuel]; cbn [length] in Hf; [lia|].
    cbn [format_loop]. cbn zeta.
    assert (char_of (pre ++ (c :: mid) ++ rest) (length pre) = c) as ->.
    { rewrite <- (Nat.add_0_r (length pre)), char_of_app by (cbn [app length]; lia). done. }
    rewrite (proj2 (Z.eqb_neq _ _) H0), (proj2 (Z.eqb_neq _ _) H37). cbn [negb].
    unfold mbind, st_bind, emit, modify.
    replace (pre ++ (c :: mid) ++ rest) with ((pre ++ [c]) ++ mid ++ rest) by by rewrite <- app_assoc.
    replace (length pre + 1)%nat with (length (pre ++ [c])) by (rewrite length_app; done).
    rewrite IH by (done || lia). cbn [out args tmp stored length Nat.sub]. rewrite <- !app_assoc. done.
Qed.

Lemma format_end tmp_addr fmt fuel s : (0 < fuel)%nat -> format_loop tmp_addr fmt fuel (length fmt) s = Ret (tt, s).
Proof.
  intros Hf. destruct fuel as [|fuel]; [lia|]. cbn [format_loop]. unfold char_of.
  by rewrite (proj2 (lookup_ge_None _ _)) by lia.
Qed.

Lemma format_plain_end tmp_addr pre mid fuel s : Forall plain mid -> (length mid < fuel)%nat ->
  format_loop tmp_addr (pre ++ mid) fuel (length pre) s =
    Ret (tt, Printer (out s ++ mid) (args s) (tmp s) (stored s)).
Proof.
  intros Hm Hf. pose proof (format_plain tmp_addr pre mid [] fuel s Hm ltac:(lia)) as E.
  rewrite !app_nil_r in E. rewrite E. apply format_end. lia.
Qed.

Lemma format_no_flags text : format_int 100 no_flags (Z.of_nat (length text)) text = text.
Proof.
  assert (forall pre ds, int_prefix 100 no_flags (Z.of_nat (length text)) text =
      (pre, Z.of_nat (length pre), ds, Z.of_nat (length pre) + Z.of_nat (length ds)) -> pre ++ ds = text ->
    format_int 100 no_flags (Z.of_nat (length text)) text = text) as H.
  { intros pre ds E Et. rewrite (format_int_layout _ _ _ _ _ _ _ _ E) by done. unfold layout.
    cbn [prec width no_flags]. assert (forall n, Z.to_nat (0 - Z.of_nat n) = O) as Hz by lia. rewrite !Hz.
    change (left_adjusted no_flags) with false. cbn [vfill no_flags Z.eqb replicate app]. done. }
  unfold int_prefix in H. cbn [Z.eqb Pos.eqb orb sign space no_flags] in H.
  destruct text as [|d text]; [apply (H [] []); done|].
  cbn [char_at head default from_option id tail] in H. destruct (Z.eqb_spec d 45) as [-> | Hd].
  - apply (H [45] text); [|done]. cbn [length]. apply (f_equal2 pair); [reflexivity|lia].
  - by apply (H [] (d :: text)).
Qed.

Lemma conversion_decimal tmp_addr v l s o t w :
  ltostr tmp_addr v DEC = Ret s -> Forall (fun c => c <> 0) s -> (length s < length t)%nat ->
  -2147483648 <= v < 2147483648 ->
  conversion tmp_addr 100 no_flags (Printer o (Int v :: l) t w) =
    Ret (true, Printer (o ++ s) l (s ++ 0 :: drop (S (length s)) t) w).
Proof.
  intros Es Hnz Hlen Hv. unfold conversion. cbn [Z.eqb Pos.eqb orb].
  unfold int_arg, next_arg, convert, to_tmp, tmp_string, emit, sized_signed.
  unfold mbind, st_bind, get, put, modify, mret, st_ret, lift. cbn [args out tmp stored type no_flags Z.eqb].
  rewrite i32_small, Es by lia. cbn [args out tmp stored].
  rewrite length_app. cbn [length]. rewrite (proj2 (Nat.leb_le _ _)) by lia. cbn [tmp set_tmp].
  replace (length s + 1)%nat with (S (length s)) by lia. rewrite <- app_assoc. cbn [app].
  rewrite cstring_app by done. cbn [out args tmp stored]. by rewrite format_no_flags.
Qed.

(** ** Messages with several arguments *)

(** Plain text, [%d] and [%s]: the format, the argument and the text of each. *)
Inductive piece := Text (l : list Z) | Decimal (v : Z) | Quoted (s : list Z).

Definition piece_format (p : piece) : list Z := match p with Text l => l | Decimal _ => [37; 100] | Quoted _ => [37; 115] end.
Definition piece_args (p : piece) : list arg := match p with Text _ => [] | Decimal v => [Int v] | Quoted s => [Str (Some s)] end.
Definition format_of (ps : list piece) : list Z := concat (map piece_format ps).
Definition args_of (ps : list piece) : list arg := concat (map piece_args ps).

Definition decimal (tmp_addr v : Z) : list Z := match ltostr tmp_addr v DEC with Ret s => s | _ => [] end.
Definition piece_text (tmp_addr : Z) (p : piece) : list Z :=
  match p with Text l => l | Decimal v => decimal tmp_addr v | Quoted s => s end.
Definition text_of (tmp_addr : Z) (ps : list piece) : list Z := concat (map (piece_text tmp_addr) ps).

Definition piece_ok (p : piece) : Prop :=
  match p with Text l => Forall plain l | Decimal v => -2147483648 <= v < 2147483648 | Quoted s => True end.

Lemma decimal_spec tmp_addr v : 0 < tmp_addr < 4294967295 -> -2147483648 <= v < 2147483648 ->
  ltostr tmp_addr v DEC = Ret (decimal tmp_addr v) /\ atoi (decimal tmp_addr v) = v /\
  Forall (fun c => 45 <= c < 58) (decimal tmp_addr v) /\ (length (decimal tmp_addr v) <= 16)%nat.
Proof.
  intros Ha Hv. unfold decimal. destruct (ltostr_read tmp_addr v) as (s & E & Er & _ & Hl); [lia..|]. rewrite E.
  split; [done|]. split; [unfold atoi; rewrite Er; by apply i32_small|]. split; [|done].
  apply (ltostr_chars tmp_addr v); (lia || done).
Qed.

Lemma format_text_plain s : format_text no_flags (Z.of_nat (length s)) s = s.
Proof.
  unfold format_text. cbn [width no_flags]. rewrite Nat2Z.id.
  repeat match goal with |- context [(?a <? 0)] => rewrite (proj2 (Z.ltb_ge a 0)) by lia end.
  by rewrite ?andb_false_r, ?firstn_all, ?app_nil_r.
Qed.

Lemma conversion_string tmp_addr s l o t w :
  conversion tmp_addr 115 no_flags (Printer o (Str (Some s) :: l) t w) = Ret (true, Printer (o ++ s) l t w).
Proof.
  unfold conversion. cbn [Z.eqb Pos.eqb orb]. unfold next_arg, emit, modify, get, put. unfold_st.
  cbn [args out tmp stored type prec no_flags Z.eqb Z.ltb Z.compare default from_option id]. by rewrite format_text_plain.
Qed.

(** A percent sign and the letter of a conversion without flags. *)
Lemma format_conversion tmp_addr pre c rest fuel s s1 :
  c = 100 \/ c = 115 -> conversion tmp_addr c no_flags s = Ret (true, s1) ->
  format_loop tmp_addr (pre ++ 37 :: c :: rest) (S fuel) (length pre) s =
    format_loop tmp_addr (pre ++ 37 :: c :: rest) fuel (length (pre ++ [37; c])) s1.
Proof.
  intros Hc E. set (fmt := pre ++ 37 :: c :: rest).
  assert (char_of fmt (length pre) = 37) as E37.
  { unfold fmt. rewrite <- (Nat.add_0_r (length pre)), char_of_app by (cbn [app length]; lia). done. }
  assert (char_of fmt (length pre + 1) = c) as Ec.
  { unfold fmt. rewrite char_of_app by (cbn [app length]; lia). done. }
  cbn [format_loop]. cbn zeta. rewrite E37. cbn [Z.eqb Pos.eqb negb].
  unfold mbind at 1, st_bind at 1. cbn [read_flags]. cbn zeta. rewrite Ec.
  assert (length (pre ++ [37; c]) = Nat.add (Nat.add (length pre) 1) 1) as -> by (rewrite length_app; cbn [length]; lia).
  destruct Hc as [-> | ->]; cbn [Z.eqb Pos.eqb isdigit Z.leb Z.compare Pos.compare Pos.compare_cont andb];
    unfold mret at 1, st_ret at 1; cbn beta iota; rewrite Ec; unfold mbind at 1, st_bind at 1; by rewrite E.
Qed.

Lemma format_pieces tmp_addr ps : 0 < tmp_addr < 4294967295 -> Forall piece_ok ps -> forall pre fuel o l t w,
  (length (format_of ps) < fuel)%nat -> length t = MAX_BUFFER ->
  exists t', length t' = MAX_BUFFER /\
    format_loop tmp_addr (pre ++ format_of ps) fuel (length pre) (Printer o (args_of ps ++ l) t w) =
      Ret (tt, Printer (o ++ text_of tmp_addr ps) l t' w).
Proof.
  intros Ha. induction 1 as [|p ps Hp Hps IH]; intros pre fuel o l t w Hf Ht.
  - exists t. split; [done|]. unfold text_of. cbn [map concat]. rewrite !app_nil_r. apply format_end. lia.
  - unfold format_of, args_of, text_of in *. cbn [map concat] in *. rewrite length_app in Hf.
    destruct p as [mid|v|s]; cbn [piece_format piece_args piece_text app length] in *.
    + rewrite format_plain by (done || lia). cbn [out args tmp stored]. rewrite (app_assoc o), (app_assoc pre).
      apply IH; [lia|done].
    + destruct (decimal_spec tmp_addr v Ha Hp) as (Es & _ & Hc & Hl). destruct fuel as [|fuel]; [lia|].
      rewrite (format_conversion tmp_addr pre 100 _ fuel _ _ (or_introl eq_refl)
        (conversion_decimal tmp_addr v _ _ o t w Es ltac:(eapply Forall_impl; [exact Hc|]; cbn beta; lia)
          ltac:(rewrite Ht; unfold MAX_BUFFER; lia) Hp)).
      rewrite (app_assoc o). change (37 :: 100 :: ?r) with ([37; 100] ++ r). rewrite (app_assoc pre). apply IH; [lia|].
      rewrite length_app. cbn [length]. rewrite length_drop, Ht. unfold MAX_BUFFER. lia.
    + destruct fuel as [|fuel]; [lia|].
      rewrite (format_conversion tmp_addr pre 115 _ fuel _ _ (or_intror eq_refl) (conversion_string tmp_addr _ _ _ _ _)).
      rewrite (app_assoc o). change (37 :: 115 :: ?r) with ([37; 115] ++ r). rewrite (app_assoc pre). by apply IH; [lia|].
Qed.

(** A message of text, [%d] and [%s] comes out as the texts of its pieces. *)
Theorem vsprintk_pieces tmp_addr ps l t :
  0 < tmp_addr < 4294967295 -> Forall piece_ok ps -> length t = MAX_BUFFER ->
  exists t', vsprintk tmp_addr (format_of ps) (args_of ps ++ l) t =
      Ret (text_of tmp_addr ps, Printer (text_of tmp_addr ps) l t' []) /\ length t' = MAX_BUFFER.
Proof.
  intros Ha Hps Ht. destruct (format_pieces tmp_addr ps Ha Hps [] (S (length (format_of ps))) [] l t [] ltac:(lia) Ht)
    as (t' & Hl & E).
  exists t'. split; [|done]. unfold vsprintk. change ([] ++ format_of ps) with (format_of ps) in E. change (length []) with O in E.
  by rewrite E.
Qed.

(** In a format without other conversions, [%d] is replaced by the decimal
    text of its argument, which [atoi] reads back, and the rest is copied. *)
Theorem vsprintk_decimal tmp_addr pre post v l t :
  0 < tmp_addr < 4294967295 -> Forall plain pre -> Forall plain post ->
  -2147483648 <= v < 2147483648 -> length t = MAX_BUFFER ->
  exists s p, vsprintk tmp_addr (pre ++ [37; 100] ++ post) (Int v :: l) t = Ret (pre ++ s ++ post, p) /\
    atoi s = v.
Proof.
  intros Haddr Hpre Hpost Hv Ht.
  destruct (vsprintk_pieces tmp_addr [Text pre; Decimal v; Text post] l t) as (t' & E & _); [done| |done|].
  { repeat (apply List.Forall_cons; [done|]). apply List.Forall_nil. }
  unfold format_of, args_of, text_of in E. cbn [map concat piece_format piece_args piece_text] in E. rewrite !app_nil_r in E.
  destruct (decimal_spec tmp_addr v Haddr Hv) as (_ & Er & _). eexists _, _. split; [exact E|exact Er].
Qed.

(** ** Instances *)

(** "-042" from [%04d], and the text of a number in a message. *)
Lemma format_int_correct_witness :
  format_int 100 (set_width 4 (set_fill 48 no_flags)) 3 [45; 52; 50] = [45; 48; 52; 50].
Proof.
  pose proof (format_int_correct (set_width 4 (set_fill 48 no_flags)) true [52; 50]) as H.
  cbn [Z.b2z app] in H. change (1 + Z.of_nat (length [52; 50])) with 3 in H. rewrite H; [reflexivity|done..].
Defined.

Lemma vsprintk_decimal_witness :
  exists s p, vsprintk 4096 ([110; 61] ++ [37; 100] ++ [10]) [Int (-12)] (replicate MAX_BUFFER 0) =
      Ret ([110; 61] ++ s ++ [10], p) /\ atoi s = -12.
Proof.
  apply (vsprintk_decimal 4096 [110; 61] [10] (-12) []); [by split|..]; [by repeat constructor..|by split|].
  apply length_replicate.
Defined.
