(* ===== verification/Console.v ===== *)
(** * The console ([platform/i386/drivers/src/chara/console.c], [libk/printk.c])

    The text screen is the video memory from [VIDEO_MEMORY] on and the cursor kept
    by the display controller.  The controller is reached through its ports: the
    parameter [Crtc], with the laws [CrtcLaws] of its index and data ports.  The
    abstract terminal [term] is what the screen shows; [console_write] refines
    [type_text], one character after the other. *)

From S2P Require Import Prelude Conv Printk.

(** ** The display controller *)

Class Crtc (D : Type) := {
  io_inb : Z -> D -> Z * D;
  io_outb : Z -> Z -> D -> D;
  io_outw : Z -> Z -> D -> D
}.

(** The port 0x3d4 selects a register and 0x3d5 is the selected register; a word
    written to 0x3d4 reaches both. *)
Class CrtcLaws (D : Type) `{Crtc D} := {
  crtc_index : D -> Z;
  crtc_reg : D -> Z -> Z;
  outb_index v d : crtc_index (io_outb 0x3d4 v d) = v /\ forall r, crtc_reg (io_outb 0x3d4 v d) r = crtc_reg d r;
  outb_data v d : crtc_index (io_outb 0x3d5 v d) = crtc_index d /\
    forall r, crtc_reg (io_outb 0x3d5 v d) r = if r =? crtc_index d then v else crtc_reg d r;
  outw_both v d : io_outw 0x3d4 v d = io_outb 0x3d5 (v / 256) (io_outb 0x3d4 (v mod 256) d);
  inb_data d : fst (io_inb 0x3d5 d) = crtc_reg d (crtc_index d) /\
    crtc_index (snd (io_inb 0x3d5 d)) = crtc_index d /\ forall r, crtc_reg (snd (io_inb 0x3d5 d)) r = crtc_reg d r
}.

(** ** The driver *)

Definition VIDEO_MEMORY : Z := 0xB8000.

Record screen (D : Type) := Screen { vram : gmap Z Z; card : D }.
Arguments Screen {D} vram card.
Arguments vram {D} _.
Arguments card {D} _.

Section Driver.
Context {D : Type} `{Crtc D}.

Definition outb (port v : Z) : st (screen D) unit := modify (fun s => Screen (vram s) (io_outb port v (card s))).
Definition outw (port v : Z) : st (screen D) unit := modify (fun s => Screen (vram s) (io_outw port v (card s))).
Definition inb (port : Z) : st (screen D) Z :=
  s ← get; let r := io_inb port (card s) in _ ← put (Screen (vram s) (snd r)); mret (fst r).

(** [VIDEO_MEMORY[i]], read and assigned. *)
Definition video (i : Z) (m : gmap Z Z) : Z := default 0 (m !! u32 (VIDEO_MEMORY + i)).
Definition set_video (i v : Z) (m : gmap Z Z) : gmap Z Z := <[u32 (VIDEO_MEMORY + i) := v]> m.

Definition draw (f : gmap Z Z -> gmap Z Z) : st (screen D) unit := modify (fun s => Screen (f (vram s)) (card s)).

(** [for(i = 0; i < 160*24; i++)], [n] turns of it. *)
Fixpoint scroll_rows (n : nat) (i : Z) (m : gmap Z Z) : gmap Z Z :=
  match n with O => m | S n => scroll_rows n (i + 1) (set_video i (video (i + 160) m) m) end.

(** [for(i = 0; i < 80; i++)] from the byte [at_], [n] turns of it. *)
Fixpoint blank_cells (n : nat) (at_ i : Z) (m : gmap Z Z) : gmap Z Z :=
  match n with
  | O => m
  | S n => blank_cells n at_ (i + 1) (set_video (at_ + i * 2 + 1) 0x07 (set_video (at_ + i * 2) 0x20 m))
  end.

Definition scroll (m : gmap Z Z) : gmap Z Z := blank_cells 80 (160 * 24) 0 (scroll_rows (160 * 24) 0 m).

(** The [switch] on a character. *)
Definition console_char (curchar vidmem_off : Z) : st (screen D) Z :=
  if curchar =? 10 then mret (u32 (vidmem_off / 160 * 160 + 160))
  else if curchar =? 13 then mret (vidmem_off / 160 * 160)
  else if curchar =? 9 then mret (u32 (vidmem_off + 8))
  else if curchar =? 8 then
    let vidmem_off := u32 (vidmem_off - 2) in
    _ ← draw (set_video vidmem_off 0x20); mret vidmem_off
  else
    _ ← draw (set_video vidmem_off (u8 curchar));
    _ ← draw (set_video (u32 (vidmem_off + 1)) 0x07);
    mret (u32 (vidmem_off + 2)).

(** The loop through the string. *)
Fixpoint console_chars (string : list Z) (vidmem_off : Z) : st (screen D) Z :=
  match string with
  | [] => mret vidmem_off
  | c :: string =>
      vidmem_off ← console_char (u32 (i8 c)) vidmem_off;
      vidmem_off ← (if 160 * 25 <=? vidmem_off then _ ← draw scroll; mret (u32 (vidmem_off - 160)) else mret vidmem_off);
      console_chars string vidmem_off
  end.

(** The characters of [string] before its NUL. *)
Definition console_write (string : list Z) : st (screen D) unit :=
  _ ← outb 0x3d4 0x0e;
  hi ← inb 0x3d5;
  _ ← outb 0x3d4 0x0f;
  lo ← inb 0x3d5;
  vidmem_off ← console_chars string (u32 (Z.shiftl (u32 (Z.shiftl hi 8 + lo)) 1));
  let vidmem_off := Z.shiftr vidmem_off 1 in
  _ ← outb 0x3d4 0x0f;
  _ ← outb 0x3d5 (Z.land vidmem_off 0xff);
  _ ← outw 0x3d4 0x0e;
  outb 0x3d5 (u8 (Z.shiftr vidmem_off 8)).

Definition console_clear : st (screen D) unit :=
  _ ← draw (blank_cells (80 * 25) 0 0);
  _ ← outb 0x3d4 0x0f;
  _ ← outb 0x3d5 0;
  _ ← outw 0x3d4 0x0e;
  outb 0x3d5 0.
End Driver.

(** ** [printk] and [sprintk] *)

(** The screen, the static [tmp] of [vsprintk], and what the [n] conversions stored. *)
Record log (D : Type) := Log { con : screen D; tmp_buf : list Z; stores : list (Z * Z * Z) }.
Arguments Log {D} con tmp_buf stores.
Arguments con {D} _.
Arguments tmp_buf {D} _.
Arguments stores {D} _.

Section Messages.
Context {D : Type} `{Crtc D}.
(** The address of [tmp]. *)
Context (tmp_addr : Z).

(** The text goes through the static [buf] of [MAX_BUFFER] bytes. *)
Definition printk (message : list Z) (l : list arg) : st (log D) Z := fun k =>
  '(text, p) ← vsprintk tmp_addr message l (tmp_buf k);
  if (length text <? MAX_BUFFER)%nat then
    string ← cstring (text ++ [0]);
    '(_, s) ← console_write string (con k);
    Ret (i32 (Z.of_nat (length text)), Log s (tmp p) (stores k ++ stored p))
  else Fault.

(** [buf] is the space behind the pointer, [None] for a null pointer; what it holds afterwards is
    part of the result. *)
Definition sprintk (buf : option nat) (message : list Z) (l : list arg) : st (log D) (Z * list Z) := fun k =>
  match buf with
  | None => Panic
  | Some room =>
      '(text, p) ← vsprintk tmp_addr message l (tmp_buf k);
      if (length text <? room)%nat then
        Ret ((i32 (Z.of_nat (length text)), text ++ [0]), Log (con k) (tmp p) (stores k ++ stored p))
      else Fault
  end.
End Messages.

(** ** The terminal *)

(** 25 rows of 80 cells, each a character and its attribute, and the cell the
    cursor is at. *)
Record term := Term { cells : list (Z * Z); pos : Z }.

Definition blank : Z * Z := (0x20, 0x07).

(** Behind the last cell the first row goes, and a blank one comes. *)
Definition advance (t : term) : term :=
  if 2000 <=? pos t then Term (drop 80 (cells t) ++ replicate 80 blank) (pos t - 80) else t.

(** A character typed: [None] for a backspace at the first cell. *)
Definition type_char (t : term) (c : Z) : option term :=
  if c =? 10 then Some (advance (Term (cells t) ((pos t / 80 + 1) * 80)))
  else if c =? 13 then Some (Term (cells t) (pos t / 80 * 80))
  else if c =? 9 then Some (advance (Term (cells t) (pos t + 4)))
  else if c =? 8 then
    if pos t =? 0 then None
    else Some (Term (alter (fun ca => (0x20, snd ca)) (Z.to_nat (pos t - 1)) (cells t)) (pos t - 1))
  else Some (advance (Term (<[Z.to_nat (pos t) := (c, 0x07)]> (cells t)) (pos t + 1))).

Definition type_text (t : term) (string : list Z) : option term :=
  foldl (fun t c => t ≫= fun t => type_char t c) (Some t) string.

(** ** Video memory *)

(** The addresses in front of the wrap-around. *)
Definition video_range (i : Z) : Prop := 0 <= i < 0x10000.

Lemma video_set i v m j : video_range i -> video_range j ->
  video j (set_video i v m) = if j =? i then v else video j m.
Proof.
  unfold video_range, video, set_video, VIDEO_MEMORY. intros Hi Hj. rewrite !u32_small by lia.
  destruct (Z.eqb_spec j i) as [-> | Hne]; [by rewrite lookup_insert_eq|].
  by rewrite lookup_insert_ne by lia.
Qed.

Lemma video_scroll_rows n : forall i m j, 0 <= i -> i + Z.of_nat n <= 3840 -> video_range j ->
  video j (scroll_rows n i m) = if (i <=? j) && (j <? i + Z.of_nat n) then video (j + 160) m else video j m.
Proof.
  induction n as [|n IH]; intros i m j Hi Hn Hj; cbn [scroll_rows].
  - zcases; cbn [andb]; (done || lia).
  - unfold video_range in Hj. rewrite IH by (unfold video_range; lia).
    rewrite (video_set i (video (i + 160) m) m j) by (unfold video_range; lia).
    assert (i + 1 <= j < 3840 -> video (j + 160) (set_video i (video (i + 160) m) m) = video (j + 160) m) as Hn'.
    { intros Hij. rewrite video_set by (unfold video_range; lia). by rewrite (proj2 (Z.eqb_neq _ _)) by lia. }
    zcases; cbn [andb]; try lia; try done; try congruence; apply Hn'; lia.
Qed.

Lemma video_blank_cells n : forall at_ i m j, 0 <= at_ -> 0 <= i -> at_ + 2 * (i + Z.of_nat n) <= 4000 -> video_range j ->
  video j (blank_cells n at_ i m) =
    if (at_ + 2 * i <=? j) && (j <? at_ + 2 * (i + Z.of_nat n)) then (if Z.odd (j - at_) then 0x07 else 0x20)
    else video j m.
Proof.
  induction n as [|n IH]; intros at_ i m j Ha Hi Hn Hj; cbn [blank_cells].
  - zcases; cbn [andb]; (done || lia).
  - unfold video_range in Hj. rewrite IH by (unfold video_range; lia).
    rewrite !video_set by (unfold video_range; lia).
    zcases; cbn [andb]; try lia; try done.
    + subst j. replace (at_ + i * 2 + 1 - at_) with (1 + 2 * i) by lia. by rewrite Z.odd_add_mul_2.
    + subst j. replace (at_ + i * 2 - at_) with (0 + 2 * i) by lia. by rewrite Z.odd_add_mul_2.
Qed.

(** Nothing outside the screen changes. *)
Definition outside (a : Z) : Prop := a < VIDEO_MEMORY \/ VIDEO_MEMORY + 4000 <= a.
Definition kept (m m' : gmap Z Z) : Prop := forall a, outside a -> m' !! a = m !! a.

#[export] Instance kept_preorder : PreOrder kept.
Proof. split; [by intros m a|]. intros m1 m2 m3 H1 H2 a Ha. rewrite H2, H1 by done. done. Qed.

Lemma set_video_kept i v m : 0 <= i < 4000 -> kept m (set_video i v m).
Proof.
  intros Hi a Ha. unfold outside, VIDEO_MEMORY in Ha. unfold set_video, VIDEO_MEMORY.
  rewrite u32_small by lia. by rewrite lookup_insert_ne by lia.
Qed.

Lemma scroll_rows_kept n : forall i m, 0 <= i -> i + Z.of_nat n <= 4000 -> kept m (scroll_rows n i m).
Proof.
  induction n as [|n IH]; intros i m Hi Hn; cbn [scroll_rows]; [done|].
  etrans; [|apply IH; lia]. apply set_video_kept. lia.
Qed.

Lemma blank_cells_kept n : forall at_ i m, 0 <= at_ -> 0 <= i -> at_ + 2 * (i + Z.of_nat n) <= 4000 ->
  kept m (blank_cells n at_ i m).
Proof.
  induction n as [|n IH]; intros at_ i m Ha Hi Hn; cbn [blank_cells]; [done|].
  etrans; [|apply IH; lia]. etrans; apply set_video_kept; lia.
Qed.

Lemma scroll_kept m : kept m (scroll m).
Proof.
  unfold scroll. etrans; [apply (scroll_rows_kept (160 * 24) 0); lia|].
  apply (blank_cells_kept 80 (160 * 24) 0); lia.
Qed.

(** ** What is on the screen *)

Definition cell (m : gmap Z Z) (k : Z) : Z * Z := (video (2 * k) m, video (2 * k + 1) m).

Definition shows (l : list (Z * Z)) (m : gmap Z Z) : Prop :=
  length l = 2000%nat /\ forall k : nat, (k < 2000)%nat -> l !! k = Some (cell m (Z.of_nat k)).

Lemma shows_put l m k c a : shows l m -> 0 <= k < 2000 ->
  shows (<[Z.to_nat k := (c, a)]> l) (set_video (2 * k + 1) a (set_video (2 * k) c m)).
Proof.
  intros [Hl Hs] Hk. split; [by rewrite length_insert|]. intros j Hj. unfold cell.
  rewrite !video_set by (unfold video_range; lia).
  destruct (Z.eqb_spec (2 * Z.of_nat j) (2 * k)) as [E|E].
  - replace (Z.to_nat k) with j by lia. rewrite list_lookup_insert_eq by lia.
    zcases; try lia. done.
  - rewrite list_lookup_insert_ne by lia. rewrite Hs by done. unfold cell. zcases; (lia || done).
Qed.

Lemma shows_erase l m k : shows l m -> 0 <= k < 2000 ->
  shows (alter (fun ca => (0x20, snd ca)) (Z.to_nat k) l) (set_video (2 * k) 0x20 m).
Proof.
  intros [Hl Hs] Hk. split; [by rewrite length_alter|]. intros j Hj. unfold cell.
  rewrite !video_set by (unfold video_range; lia).
  destruct (Z.eqb_spec (2 * Z.of_nat j) (2 * k)) as [E|E].
  - replace (Z.to_nat k) with j by lia. rewrite list_lookup_alter_eq, Hs by done. cbn [fmap option_fmap option_map snd cell].
    zcases; try lia. done.
  - rewrite list_lookup_alter_ne by lia. rewrite Hs by done. unfold cell. zcases; (lia || done).
Qed.

Lemma odd_double k : Z.odd (2 * k) = false /\ Z.odd (2 * k + 1) = true.
Proof. split; [apply Z.odd_mul|]. by rewrite Z.add_comm, Z.odd_add_mul_2. Qed.

Lemma shows_scroll l m : shows l m -> shows (drop 80 l ++ replicate 80 blank) (scroll m).
Proof.
  intros [Hl Hs]. split; [rewrite length_app, length_drop, length_replicate; lia|].
  intros j Hj. unfold cell, scroll.
  rewrite !video_blank_cells, !video_scroll_rows by (unfold video_range; lia).
  destruct (odd_double (Z.of_nat j - 1920)) as [E0 E1].
  replace (2 * (Z.of_nat j - 1920)) with (2 * Z.of_nat j - 160 * 24) in E0 by lia.
  replace (2 * (Z.of_nat j - 1920) + 1) with (2 * Z.of_nat j + 1 - 160 * 24) in E1 by lia. rewrite E0, E1.
  destruct (Nat.lt_ge_cases j 1920) as [Hlt|Hge].
  - rewrite lookup_app_l, lookup_drop, Hs by (rewrite ?length_drop; lia). unfold cell.
    rewrite !(proj2 (Z.leb_gt (160 * 24 + _) _)), !(proj2 (Z.leb_le 0 _)), !(proj2 (Z.ltb_lt _ (0 + _))) by lia.
    cbn [andb]. do 2 f_equal; f_equal; lia.
  - rewrite lookup_app_r by (rewrite length_drop; lia). rewrite length_drop, Hl.
    rewrite lookup_replicate_2 by lia.
    rewrite !(proj2 (Z.leb_le (160 * 24 + _) _)), !(proj2 (Z.ltb_lt _ (160 * 24 + _))) by lia. done.
Qed.

Lemma shows_clear m : shows (replicate 2000 blank) (blank_cells (80 * 25) 0 0 m).
Proof.
  split; [apply length_replicate|]. intros j Hj. unfold cell.
  rewrite !video_blank_cells by (unfold video_range; lia). rewrite !Z.sub_0_r.
  destruct (odd_double (Z.of_nat j)) as [-> ->]. rewrite lookup_replicate_2 by lia.
  zcases; cbn [andb]; try lia. done.
Qed.

(** ** One character *)

Section Refinement.
Context {D : Type} `{CrtcLaws D}.

Definition cursor (d : D) : Z := 256 * crtc_reg d 14 + crtc_reg d 15.

(** The screen shows the terminal [t]. *)
Definition on_screen (t : term) (s : screen D) : Prop :=
  shows (cells t) (vram s) /\ 0 <= pos t < 2000 /\
  0 <= crtc_reg (card s) 15 < 256 /\ cursor (card s) = pos t.

(** The code at byte [2 * p] while the cells are [l]: it goes on at the position
    of [t] after showing its cells. *)
Definition types_to (t : term) (m : st (screen D) Z) (s : screen D) : Prop :=
  exists s', m s = Ret (2 * pos t, s') /\ shows (cells t) (vram s') /\ 0 <= pos t < 2000 /\
    card s' = card s /\ kept (vram s) (vram s').

(** The check for the end of the screen. *)
Definition check_end (vidmem_off : Z) : st (screen D) Z :=
  if 160 * 25 <=? vidmem_off then _ ← draw scroll; mret (u32 (vidmem_off - 160)) else mret vidmem_off.

Lemma check_advances t s : shows (cells t) (vram s) -> 0 <= pos t < 2080 ->
  types_to (advance t) (check_end (2 * pos t)) s.
Proof.
  intros Hs Hp. unfold types_to, check_end, advance. change (160 * 25) with (2 * 2000).
  destruct (Z.leb_spec 2000 (pos t)); destruct (Z.leb_spec (2 * 2000) (2 * pos t)); try lia.
  - exists (Screen (scroll (vram s)) (card s)). split; [|split_and!; cbn [pos cells vram card]; try done; try lia].
    + unfold_st. cbn [pos draw modify]. rewrite u32_small by lia. do 2 f_equal. lia.
    + by apply shows_scroll.
    + apply scroll_kept.
  - exists s. split_and!; (done || lia).
Qed.

(** A run that stores to the screen, in front of another. *)
Lemma types_after t (m : st (screen D) Z) (k : Z -> st (screen D) Z) s v off :
  m s = Ret (off, Screen v (card s)) -> kept (vram s) v -> types_to t (k off) (Screen v (card s)) ->
  types_to t (m ≫= k) s.
Proof.
  intros Em Hv (s' & Ek & Hs & Hp & Hc & Hk). exists s'.
  split; [unfold_st; by rewrite Em|]. split; [done|]. split; [done|]. split; [done|].
  etrans; [exact Hv|exact Hk].
Qed.

Lemma char_types t t' c s : shows (cells t) (vram s) -> 0 <= pos t < 2000 -> 0 <= c < 256 ->
  type_char t c = Some t' ->
  types_to t' (console_char (u32 (i8 c)) (2 * pos t) ≫= check_end) s.
Proof.
  intros Hs Hp Hc E. destruct s as [m d]. destruct t as [l p]. cbn [vram pos cells] in *.
  assert (u8 (u32 (i8 c)) = c) as Ec.
  { unfold i8, swrap. destruct (Z.lt_ge_cases c 128).
    - rewrite (Z.mod_small (c + _)) by (pow2; lia). rewrite u32_small by (pow2; lia). rewrite u8_small by (pow2; lia). pow2; lia.
    - replace ((c + 2 ^ (8 - 1)) mod 2 ^ 8) with (c - 128) by (pow2; apply (Z.mod_unique_pos _ _ 1); lia).
      unfold u32, u8, uwrap. pow2. Z.div_mod_to_equations. lia. }
  assert (forall k, 0 <= k < 128 -> (u32 (i8 c) =? k) = (c =? k)) as Ek.
  { intros k Hk. destruct (Z.eqb_spec c k) as [-> | Hne].
    - rewrite i8_small, u32_small by lia. apply Z.eqb_refl.
    - apply Z.eqb_neq. intros Ek. apply Hne. rewrite <- Ec, Ek. apply u8_small. lia. }
  assert (2 * p / 160 = p / 80) as Ed by (change 160 with (2 * 80); by rewrite Z.div_mul_cancel_l by lia).
  pose proof (Z.mul_div_le p 80 ltac:(lia)). pose proof (Z.mul_succ_div_gt p 80 ltac:(lia)).
  unfold type_char in E. cbn [pos cells] in E. unfold console_char. rewrite !Ek, Ed by lia.
  destruct (c =? 10); [|destruct (c =? 13); [|destruct (c =? 9); [|destruct (Z.eqb_spec c 8)]]].
  - injection E as <-. eapply types_after; [done|done|]. rewrite u32_small by lia.
    replace (p / 80 * 160 + 160) with (2 * pos (Term l ((p / 80 + 1) * 80))) by (cbn [pos]; lia).
    apply check_advances; cbn [cells pos]; [done|lia].
  - injection E as <-. eapply types_after; [done|done|].
    assert (advance (Term l (p / 80 * 80)) = Term l (p / 80 * 80)) as Ea by
      (unfold advance; cbn [pos]; by rewrite (proj2 (Z.leb_gt _ _)) by lia).
    rewrite <- Ea at 1. replace (p / 80 * 160) with (2 * pos (Term l (p / 80 * 80))) by (cbn [pos]; lia).
    apply check_advances; cbn [cells pos]; [done|lia].
  - injection E as <-. eapply types_after; [done|done|]. rewrite u32_small by lia.
    replace (2 * p + 8) with (2 * pos (Term l (p + 4))) by (cbn [pos]; lia).
    apply check_advances; cbn [cells pos]; [done|lia].
  - destruct (Z.eqb_spec p 0); [done|]. injection E as <-.
    rewrite u32_small by lia. replace (2 * p - 2) with (2 * (p - 1)) by lia.
    set (t' := Term (alter (fun ca => (0x20, snd ca)) (Z.to_nat (p - 1)) l) (p - 1)).
    assert (advance t' = t') as Ea by (unfold advance; cbn [t' pos]; by rewrite (proj2 (Z.leb_gt _ _)) by lia).
    rewrite <- Ea at 1. eapply types_after; [reflexivity|apply set_video_kept; lia|].
    change (2 * (p - 1)) with (2 * pos t'). apply check_advances; cbn [t' cells pos vram]; [apply shows_erase; [done|lia]|lia].
  - injection E as <-. rewrite Ec, !u32_small by lia.
    replace (2 * p + 2) with (2 * pos (Term (<[Z.to_nat p:=(c, 7)]> l) (p + 1))) by (cbn [pos]; lia).
    eapply types_after; [reflexivity|etrans; apply set_video_kept; lia|].
    apply check_advances; cbn [cells pos vram]; [apply shows_put; [done|lia]|lia].
Qed.

Lemma type_text_cons t c string : type_text t (c :: string) = type_char t c ≫= fun t => type_text t string.
Proof.
  unfold type_text. cbn [foldl mbind option_bind]. destruct (type_char t c) as [t'|]; [done|].
  cbn [mbind option_bind]. induction string as [|c' string IH]; [done|]. exact IH.
Qed.

Lemma console_chars_cons c string off s :
  console_chars (c :: string) off s = ((console_char (u32 (i8 c)) off ≫= check_end) ≫= console_chars string) s.
Proof.
  cbn [console_chars]. unfold mbind, st_bind. by destruct (console_char (u32 (i8 c)) off s) as [[o s']| | |].
Qed.

Lemma chars_type string : forall t t' s, shows (cells t) (vram s) -> 0 <= pos t < 2000 ->
  Forall (fun c => 0 <= c < 256) string -> type_text t string = Some t' ->
  types_to t' (console_chars string (2 * pos t)) s.
Proof.
  induction string as [|c string IH]; intros t t' s Hs Hp Hc E.
  - injection E as <-. exists s. split_and!; (done || lia).
  - apply Forall_cons in Hc as [Hc Hcs]. rewrite type_text_cons in E.
    destruct (type_char t c) as [t1|] eqn:E1; [|done]. cbn [mbind option_bind] in E.
    destruct (char_types t t1 c s Hs Hp Hc E1) as (s1 & Er & Hs1 & Hp1 & Hd1 & Hk1).
    destruct (IH t1 t' s1 Hs1 Hp1 Hcs E) as (s2 & Er2 & Hs2 & Hp2 & Hd2 & Hk2).
    exists s2. split; [|split; [done|split; [done|split; [congruence|etrans; [exact Hk1|exact Hk2]]]]].
    rewrite console_chars_cons. unfold mbind at 1, st_bind at 1. by rewrite Er.
Qed.

(** ** The cursor *)

(** The last four writes put the cursor on a cell. *)
Lemma set_cursor p s : 0 <= p < 2000 ->
  exists d, (_ ← outb 0x3d4 0x0f; _ ← outb 0x3d5 (Z.land p 0xff); _ ← outw 0x3d4 0x0e; outb 0x3d5 (u8 (Z.shiftr p 8))) s =
    Ret (tt, Screen (vram s) d) /\ 0 <= crtc_reg d 15 < 256 /\ cursor d = p.
Proof.
  intros Hp. eexists. split; [reflexivity|]. cbn [card vram]. rewrite outw_both.
  change 0xff with (Z.ones 8). rewrite Z.land_ones, Z.shiftr_div_pow2 by lia. change (2 ^ 8) with 256.
  change (0x0e mod 256) with 14. change (0x0e / 256) with 0.
  pose proof (Z.div_mod p 256 ltac:(lia)). pose proof (Z.mod_pos_bound p 256 ltac:(lia)).
  assert (0 <= p / 256 < 8) by (split; [apply Z.div_pos; lia|apply Z.div_lt_upper_bound; lia]).
  rewrite u8_small by lia. unfold cursor.
  set (d1 := io_outb 0x3d4 15 (card s)). set (d2 := io_outb 0x3d5 (p mod 256) d1).
  set (d3 := io_outb 0x3d4 14 d2). set (d4 := io_outb 0x3d5 0 d3).
  destruct (outb_index 15 (card s)) as [I1 R1]. destruct (outb_data (p mod 256) d1) as [I2 R2].
  destruct (outb_index 14 d2) as [I3 R3]. destruct (outb_data 0 d3) as [I4 R4].
  destruct (outb_data (p / 256) d4) as [I5 R5]. fold d1 in I1, R1. fold d2 in I2, R2. fold d3 in I3, R3. fold d4 in I4, R4.
  rewrite !R5, I4, I3, !R4, I3, !R3, !R2, I1. cbn [Z.eqb Pos.eqb]. lia.
Qed.

(** The first reads find it. *)
Definition after_reads (d : D) : D := snd (io_inb 0x3d5 (io_outb 0x3d4 15 (snd (io_inb 0x3d5 (io_outb 0x3d4 14 d))))).

Lemma get_cursor {A} s (k : Z -> Z -> st (screen D) A) :
  (_ ← outb 0x3d4 0x0e; hi ← inb 0x3d5; _ ← outb 0x3d4 0x0f; lo ← inb 0x3d5; k hi lo) s =
    k (crtc_reg (card s) 14) (crtc_reg (card s) 15) (Screen (vram s) (after_reads (card s))).
Proof.
  unfold_st. unfold outb, inb, modify, get, put. unfold_st. cbn [card vram].
  destruct (outb_index 14 (card s)) as [I1 R1]. destruct (inb_data (io_outb 0x3d4 14 (card s))) as (V2 & _ & R2).
  destruct (outb_index 15 (snd (io_inb 0x3d5 (io_outb 0x3d4 14 (card s))))) as [I3 R3].
  destruct (inb_data (io_outb 0x3d4 15 (snd (io_inb 0x3d5 (io_outb 0x3d4 14 (card s)))))) as (V4 & _ & R4).
  rewrite V2, V4, I1, I3, R1, R3, R2, R1. reflexivity.
Qed.

Lemma write_types t t' s string : on_screen t s -> Forall (fun c => 0 < c < 256) string ->
  type_text t string = Some t' ->
  exists s', console_write string s = Ret (tt, s') /\ on_screen t' s' /\ kept (vram s) (vram s').
Proof.
  intros (Hs & Hp & Hl & Hc) Hstr E. unfold console_write.
  rewrite get_cursor.
  unfold cursor in Hc. rewrite !Z.shiftl_mul_pow2 by lia.
  replace (u32 (u32 (crtc_reg (card s) 14 * 2 ^ 8 + crtc_reg (card s) 15) * 2 ^ 1)) with (2 * pos t)
    by (rewrite (u32_small (_ + _)), u32_small by lia; lia).
  destruct (chars_type string t t' (Screen (vram s) (after_reads (card s)))) as (s1 & Er & Hs1 & Hp1 & Hc1 & Hk1); try done.
  { eapply Forall_impl; [exact Hstr|]. cbn beta. lia. }
  unfold mbind at 1, st_bind at 1. rewrite Er. cbv beta zeta. rewrite (Z.shiftr_div_pow2 _ 1) by lia.
  replace (2 * pos t' / 2 ^ 1) with (pos t') by (change (2 ^ 1) with 2; rewrite Z.mul_comm, Z.div_mul; lia).
  destruct (set_cursor (pos t') s1 Hp1) as (d' & -> & Hl' & Hc').
  eexists. split; [reflexivity|]. by split_and!.
Qed.

(** Clearing shows a blank terminal with the cursor at its start. *)
Lemma clear_shows s : exists s', console_clear s = Ret (tt, s') /\
  on_screen (Term (replicate 2000 blank) 0) s' /\ kept (vram s) (vram s').
Proof.
  set (s1 := Screen (blank_cells (80 * 25) 0 0 (vram s)) (card s)).
  destruct (set_cursor 0 s1 ltac:(lia)) as (d & E & Hl & Hc).
  change (Z.land 0 0xff) with 0 in E. change (u8 (Z.shiftr 0 8)) with 0 in E.
  exists (Screen (vram s1) d). split; [unfold console_clear, mbind at 1, st_bind at 1, draw, modify; exact E|]. split.
  - unfold on_screen. cbn [cells vram pos card]. unfold s1. cbn [vram].
    split; [exact (shows_clear (vram s))|]. split; [lia|exact (conj Hl Hc)].
  - unfold s1. cbn [vram]. apply blank_cells_kept; [done|done|]. by vm_compute.
Qed.

(** A message that fits the buffer is shown as [vsprintk] lays it out. *)
Lemma printk_shows tmp_addr message l k text p t t' :
  vsprintk tmp_addr message l (tmp_buf k) = Ret (text, p) -> (length text < MAX_BUFFER)%nat ->
  Forall (fun c => 0 < c < 256) text -> on_screen t (con k) -> type_text t text = Some t' ->
  exists s', printk tmp_addr message l k =
      Ret (Z.of_nat (length text), Log s' (tmp p) (stores k ++ stored p)) /\
    on_screen t' s' /\ kept (vram (con k)) (vram s').
Proof.
  intros E Hlen Hnz Hs Ht. destruct (write_types t t' (con k) text Hs Hnz Ht) as (s' & Ew & Hs' & Hk).
  exists s'. split; [|done]. unfold printk. rewrite E. cbn [mbind outcome_bind].
  rewrite (proj2 (Nat.ltb_lt _ _)) by done. rewrite cstring_app by (eapply Forall_impl; [exact Hnz|]; cbn beta; lia).
  cbn [mbind outcome_bind]. rewrite Ew. cbn [mbind outcome_bind]. rewrite i32_small; [done|].
  unfold MAX_BUFFER in Hlen. lia.
Qed.

(** Only a backspace can leave the screen. *)
Lemma types_without_backspace string : forall t, Forall (fun c => c <> 8) string -> is_Some (type_text t string).
Proof.
  induction string as [|c string IH]; intros t H'; [by eexists|]. apply Forall_cons in H' as [Hc H'].
  rewrite type_text_cons. unfold type_char. rewrite (proj2 (Z.eqb_neq _ _) Hc).
  destruct (c =? 10), (c =? 13), (c =? 9); cbn [mbind option_bind]; by apply IH.
Qed.

(** The characters a message may have: no NUL, no backspace, no percent sign. *)
Definition shown_char (c : Z) : bool := (0 <? c) && (c <? 256) && negb (c =? 8) && negb (c =? 37).

Definition shown_piece (p : piece) : Prop :=
  match p with
  | Text l => Forall (fun c => shown_char c = true) l
  | Decimal v => -2147483648 <= v < 2147483648
  | Quoted s => Forall (fun c => shown_char c = true) s
  end.

(** The room a piece takes at most. *)
Definition piece_room (p : piece) : nat := match p with Text l => length l | Decimal _ => 16 | Quoted s => length s end.

Lemma shown_text tmp_addr ps : 0 < tmp_addr < 4294967295 -> Forall shown_piece ps ->
  Forall piece_ok ps /\ Forall (fun c => shown_char c = true) (text_of tmp_addr ps) /\
  (length (text_of tmp_addr ps) <= sum_list (map piece_room ps))%nat.
Proof.
  intros Ha. induction 1 as [|p ps Hp _ (IH1 & IH2 & IH3)]; [by split_and!|].
  unfold text_of. cbn [map concat]. change (sum_list (?a :: ?l)) with (a + sum_list l)%nat. rewrite length_app, Forall_app, Forall_cons.
  destruct p as [l|v|s]; cbn [piece_text piece_room piece_ok].
  - split_and!; [|done|exact Hp|exact IH2|unfold text_of in IH3; lia].
    eapply Forall_impl; [exact Hp|]. unfold shown_char, plain. intros c Hc. zcases; cbn in Hc; try done; lia.
  - destruct (decimal_spec tmp_addr v Ha Hp) as (_ & _ & Hc & Hl).
    split_and!; [exact (proj1 Hp)|exact (proj2 Hp)|done| |exact IH2|unfold text_of in IH3; lia].
    eapply Forall_impl; [exact Hc|]. cbn beta. unfold shown_char. intros c Hc'. zcases; (done || lia).
  - split_and!; [done|done|exact Hp|exact IH2|unfold text_of in IH3; lia].
Qed.

(** A message of text, numbers and strings that fits the buffer comes on the screen. *)
Lemma printk_pieces tmp_addr ps k t : 0 < tmp_addr < 4294967295 -> Forall shown_piece ps ->
  (sum_list (map piece_room ps) < MAX_BUFFER)%nat -> length (tmp_buf k) = MAX_BUFFER -> on_screen t (con k) ->
  exists t' k', type_text t (text_of tmp_addr ps) = Some t' /\
    printk tmp_addr (format_of ps) (args_of ps) k = Ret (Z.of_nat (length (text_of tmp_addr ps)), k') /\
    on_screen t' (con k') /\ length (tmp_buf k') = MAX_BUFFER /\ kept (vram (con k)) (vram (con k')).
Proof.
  intros Ha Hps Hroom Hb Hs. destruct (shown_text tmp_addr ps Ha Hps) as (Hok & Hc & Hlen).
  destruct (vsprintk_pieces tmp_addr ps [] (tmp_buf k) Ha Hok Hb) as (b & E & Hb'). rewrite app_nil_r in E.
  destruct (types_without_backspace (text_of tmp_addr ps) t) as [t' Et].
  { eapply Forall_impl; [exact Hc|]. unfold shown_char. intros c. zcases; done. }
  destruct (printk_shows tmp_addr _ _ k _ _ t t' E ltac:(lia)) as (s' & Er & Hs' & Hk); [|done|done|].
  { eapply Forall_impl; [exact Hc|]. unfold shown_char. intros c Hc'. zcases; try done; lia. }
  exists t'. eexists. split; [done|]. split; [exact Er|]. by split_and!.
Qed.
End Refinement.

(** ** Results *)

(** C23: [console_write] acts on the screen as a terminal does: each character is
    shown at the cursor with the attribute 7, the controls move the cursor, and
    behind the last cell everything moves up a row.  The cursor of the controller
    is left behind the text, and nothing outside the 4000 bytes of the screen is
    stored to, as long as no backspace comes at the first cell. *)
Theorem console_write_refines {D} `{CrtcLaws D} t t' (s : screen D) string :
  on_screen t s -> Forall (fun c => 0 < c < 256) string -> type_text t string = Some t' ->
  exists s', console_write string s = Ret (tt, s') /\ on_screen t' s' /\ kept (vram s) (vram s').
Proof. apply write_types. Qed.

(** A controller: the index and the registers. *)
#[export] Instance plain_crtc : Crtc (Z * gmap Z Z) := {
  io_inb port d := (default 0 (snd d !! fst d), d);
  io_outb port v d := if port =? 0x3d4 then (v, snd d) else (fst d, <[fst d := v]> (snd d));
  io_outw port v d := (v mod 256, <[v mod 256 := v / 256]> (snd d))
}.

#[export] Program Instance plain_crtc_laws : CrtcLaws (Z * gmap Z Z) := {
  crtc_index := fst;
  crtc_reg d r := default 0 (snd d !! r)
}.
Next Obligation. done. Qed.
Next Obligation.
  intros v d. split; [done|]. intros r. cbn. destruct (Z.eqb_spec r (fst d)) as [-> | Hne].
  - by rewrite lookup_insert_eq.
  - by rewrite lookup_insert_ne by congruence.
Qed.
Next Obligation. done. Qed.
Next Obligation. done. Qed.

(** A cleared screen. *)
Definition cleared : screen (Z * gmap Z Z) :=
  final_state console_clear (Screen ∅ (0, ∅)).

Lemma cleared_blank : on_screen (Term (replicate 2000 blank) 0) cleared.
Proof.
  destruct (clear_shows (D := Z * gmap Z Z) (Screen ∅ (0, ∅))) as (s' & E & Hs & _).
  unfold cleared, final_state. by rewrite E.
Qed.

Definition shows_hi : term := Term (<[1%nat := (105, 7)]> (<[0%nat := (72, 7)]> (replicate 2000 blank))) 80.

Lemma console_write_refines_witness : exists s',
  console_write [72; 105; 10] cleared = Ret (tt, s') /\ on_screen shows_hi s' /\ kept (vram cleared) (vram s').
Proof.
  apply (console_write_refines (Term (replicate 2000 blank) 0) shows_hi cleared [72; 105; 10]).
  - exact cleared_blank.
  - repeat (apply List.Forall_cons; [split; reflexivity|]). apply List.Forall_nil.
  - vm_compute. reflexivity.
Defined.

(** A backspace at the first cell stores in front of the video memory, scrolls, and
    leaves the cursor at cell 65455, which is not on the screen. *)
Lemma backspace_at_home :
  let s := final_state (console_write [8]) cleared in
  video 0 (vram cleared) = 0x20 /\ vram s !! 0xB7FFE = Some 0x20 /\ cursor (card s) = 65455.
Proof. vm_compute. auto. Qed.
