(* ===== verification/CString.v ===== *)
(** * String routines ([libk/string.c])

    Memory is a map from addresses to characters, [char] being signed; reading
    or writing an address that is not mapped is a fault.  [size_t] has 32 bits.
    A loop whose end depends on memory takes fuel. *)

From S2P Require Import Prelude.

Abbreviation memory := (gmap Z Z).

Definition ld (m : memory) (p : Z) : outcome Z := match m !! p with Some c => Ret c | None => Fault end.
Definition sto (m : memory) (p c : Z) : outcome memory :=
  match m !! p with Some _ => Ret (<[p := i8 c]> m) | None => Fault end.
Definition inc (p : Z) : Z := u32 (p + 1).

(** ** Copying *)

Fixpoint copy_loop (fuel : nat) (dest src : Z) (m : memory) : outcome memory :=
  match fuel with
  | O => NoFuel
  | S fuel =>
      c ← ld m src; m ← sto m dest c;
      if c =? 0 then Ret m else copy_loop fuel (inc dest) (inc src) m
  end.

Definition strcpy (fuel : nat) (dest src : Z) (m : memory) : outcome (Z * memory) :=
  m ← copy_loop fuel dest src m; Ret (dest, m).

(** The two loops of [strncpy]; [k] is [n - i]. *)
Fixpoint ncopy_loop (k : nat) (dest src : Z) (m : memory) : outcome (nat * Z * memory) :=
  match k with
  | O => Ret (O, dest, m)
  | S k' =>
      c ← ld m src; m ← sto m dest c;
      if c =? 0 then Ret (k, inc dest, m) else ncopy_loop k' (inc dest) (inc src) m
  end.

Definition npad_loop (k : nat) (dest : Z) (m : memory) : outcome memory :=
  match k with
  | O => Ret m
  | S _ => sto m dest 0
  end.

Definition strncpy (dest src n : Z) (m : memory) : outcome (Z * memory) :=
  '(k, d, m) ← ncopy_loop (Z.to_nat n) dest src m;
  m ← npad_loop k d m;
  Ret (dest, m).

(** [for( ; p && *p; p++)] *)
Fixpoint end_loop (fuel : nat) (p : Z) (m : memory) : outcome Z :=
  match fuel with
  | O => NoFuel
  | S fuel =>
      if p =? 0 then Ret p
      else c ← ld m p; if c =? 0 then Ret p else end_loop fuel (inc p) m
  end.

Definition strcat (fuel : nat) (dest src : Z) (m : memory) : outcome (Z * memory) :=
  d ← end_loop fuel dest m; m ← copy_loop fuel d src m; Ret (dest, m).

Definition strncat (fuel : nat) (dest src n : Z) (m : memory) : outcome (Z * memory) :=
  d ← end_loop fuel dest m;
  '(_, d, m) ← ncopy_loop (Z.to_nat n) d src m;
  m ← sto m d 0;
  Ret (dest, m).

(** ** Comparing and searching *)

Fixpoint strcmp (fuel : nat) (cs ct : Z) (m : memory) : outcome Z :=
  match fuel with
  | O => NoFuel
  | S fuel =>
      a ← ld m cs; b ← ld m ct;
      if a =? b then (if a =? 0 then Ret 0 else strcmp fuel (inc cs) (inc ct) m)
      else Ret (a - b)
  end.

Fixpoint ncmp_loop (k : nat) (cs ct : Z) (m : memory) : outcome Z :=
  match k with
  | O => a ← ld m cs; b ← ld m ct; Ret (a - b)
  | S k =>
      a ← ld m cs; b ← ld m ct;
      if a =? b then (if a =? 0 then Ret 0 else ncmp_loop k (inc cs) (inc ct) m)
      else Ret (a - b)
  end.

Definition strncmp (cs ct n : Z) (m : memory) : outcome Z := ncmp_loop (Z.to_nat n) cs ct m.

Fixpoint strlen_loop (fuel : nat) (cs i : Z) (m : memory) : outcome Z :=
  match fuel with
  | O => NoFuel
  | S fuel => c ← ld m cs; if c =? 0 then Ret i else strlen_loop fuel (inc cs) (u32 (i + 1)) m
  end.

Definition strlen (fuel : nat) (cs : Z) (m : memory) : outcome Z :=
  if cs =? 0 then Ret 0 else strlen_loop fuel cs 0 m.

Fixpoint strnlen_loop (fuel : nat) (ptr len : Z) (m : memory) : outcome Z :=
  match fuel with
  | O => NoFuel
  | S fuel =>
      c ← ld m ptr;
      if c =? 0 then Ret ptr
      else if len =? 0 then Ret ptr else strnlen_loop fuel (inc ptr) (u32 (len - 1)) m
  end.

Definition strnlen (fuel : nat) (str len : Z) (m : memory) : outcome Z :=
  p ← strnlen_loop fuel str len m; Ret (u32 (p - str)).

Fixpoint strchr (fuel : nat) (cs c : Z) (m : memory) : outcome Z :=
  match fuel with
  | O => NoFuel
  | S fuel =>
      if cs =? 0 then Ret 0
      else a ← ld m cs;
           if a =? 0 then Ret 0 else if a =? c then Ret cs else strchr fuel (inc cs) c m
  end.

(** [for( ; s != cs; cs--)] *)
Fixpoint back_loop (fuel : nat) (s cs c : Z) (m : memory) : outcome Z :=
  match fuel with
  | O => NoFuel
  | S fuel =>
      if s =? cs then Ret 0
      else a ← ld m cs; if a =? c then Ret cs else back_loop fuel s (u32 (cs - 1)) c m
  end.

Definition strrchr (fuel : nat) (cs c : Z) (m : memory) : outcome Z :=
  e ← end_loop fuel cs m; back_loop fuel cs e c m.

(** The inner loops of [strspn] and [strcspn]: one character of [ct]. *)
Fixpoint span_inner (fuel : nat) (same : bool) (b cs i : Z) (m : memory) : outcome (Z * Z) :=
  match fuel with
  | O => NoFuel
  | S fuel =>
      a ← ld m cs;
      if Bool.eqb (b =? a) same then span_inner fuel same b (inc cs) (u32 (i + 1)) m else Ret (cs, i)
  end.

Fixpoint span_loop (fuel : nat) (same : bool) (cs ct i : Z) (m : memory) : outcome Z :=
  match fuel with
  | O => NoFuel
  | S fuel' =>
      if (cs =? 0) || (ct =? 0) then Ret i
      else
        a ← ld m cs; b ← ld m ct;
        if (a =? 0) || (b =? 0) then Ret i
        else '(cs, i) ← span_inner fuel' same b cs i m; span_loop fuel' same cs (inc ct) i m
  end.

Definition strspn (fuel : nat) (cs ct : Z) (m : memory) : outcome Z := span_loop fuel true cs ct 0 m.
Definition strcspn (fuel : nat) (cs ct : Z) (m : memory) : outcome Z := span_loop fuel false cs ct 0 m.

(** The inner loop of [strpbrk]: [cs + i] is compared with the [i]th character of
    [ct]. *)
Fixpoint pbrk_inner (fuel : nat) (cs ct : Z) (m : memory) : outcome bool :=
  match fuel with
  | O => NoFuel
  | S fuel =>
      if ct =? 0 then Ret false
      else b ← ld m ct;
           if b =? 0 then Ret false
           else a ← ld m cs; if a =? b then Ret true else pbrk_inner fuel (inc cs) (inc ct) m
  end.

Fixpoint strpbrk (fuel : nat) (cs ct : Z) (m : memory) : outcome Z :=
  match fuel with
  | O => NoFuel
  | S fuel' =>
      if cs =? 0 then Ret 0
      else a ← ld m cs;
           if a =? 0 then Ret 0
           else r ← pbrk_inner fuel' cs ct m;
                if (r : bool) then Ret cs else strpbrk fuel' (inc cs) ct m
  end.

(** The inner loop of [strstr]: where the comparison stopped in [ct]. *)
Fixpoint str_inner (fuel : nat) (cs ct : Z) (m : memory) : outcome Z :=
  match fuel with
  | O => NoFuel
  | S fuel =>
      if ct =? 0 then Ret ct
      else b ← ld m ct;
           if b =? 0 then Ret ct
           else a ← ld m cs; if negb (a =? b) then Ret ct else str_inner fuel (inc cs) (inc ct) m
  end.

Fixpoint strstr (fuel : nat) (cs ct : Z) (m : memory) : outcome Z :=
  match fuel with
  | O => NoFuel
  | S fuel' =>
      if cs =? 0 then Ret 0
      else a ← ld m cs;
           if a =? 0 then Ret 0
           else e ← str_inner fuel' cs ct m;
                b ← ld m e;
                if b =? 0 then Ret cs else strstr fuel' (inc cs) ct m
  end.

(** The static pointer is an argument and a result. *)
Definition strtok (fuel : nat) (saved s ct : Z) (m : memory) : outcome (Z * Z * memory) :=
  let i := if s =? 0 then saved else s in
  if i =? 0 then Ret (0, saved, m)
  else
    n ← strspn fuel i ct m;
    let j := u32 (i + n) in
    c ← ld m j;
    if c =? 0 then Ret (0, saved, m)
    else
      k ← strpbrk fuel j ct m;
      if k =? 0 then Ret (j, 0, m)
      else m ← sto m k 0; Ret (j, inc k, m).

(** ** Blocks of memory *)

Fixpoint memcpy_loop (k : nat) (s t : Z) (m : memory) : outcome memory :=
  match k with
  | O => Ret m
  | S k => c ← ld m t; m ← sto m s c; memcpy_loop k (inc s) (inc t) m
  end.

Definition memcpy (dest src n : Z) (m : memory) : outcome (Z * memory) :=
  m ← memcpy_loop (Z.to_nat n) dest src m; Ret (dest, m).

(** [for(i=n-1; i >= 0; i--)]: the comparison of the unsigned [i] holds always. *)
Fixpoint move_back (fuel : nat) (i d s : Z) (m : memory) : outcome memory :=
  match fuel with
  | O => NoFuel
  | S fuel =>
      if 0 <=? i then
        c ← ld m (u32 (s + i)); m ← sto m (u32 (d + i)) c; move_back fuel (u32 (i - 1)) d s m
      else Ret m
  end.

Definition memmove (fuel : nat) (dest src n : Z) (m : memory) : outcome (Z * memory) :=
  if src <? dest then m ← move_back fuel (u32 (n - 1)) dest src m; Ret (dest, m)
  else m ← memcpy_loop (Z.to_nat n) dest src m; Ret (dest, m).

(** Where the comparison stopped: what is left of [n], and the two pointers. *)
Fixpoint memcmp_loop (k : nat) (s t : Z) (m : memory) : outcome (nat * Z * Z) :=
  match k with
  | O => Ret (O, s, t)
  | S k' => a ← ld m s; b ← ld m t; if a =? b then memcmp_loop k' (inc s) (inc t) m else Ret (k, s, t)
  end.

Definition memcmp (cs ct n : Z) (m : memory) : outcome Z :=
  '(k, s, t) ← memcmp_loop (Z.to_nat n) cs ct m;
  if (k =? 0)%nat then Ret 0 else a ← ld m s; b ← ld m t; Ret (a - b).

Fixpoint memchr_loop (k : nat) (s c : Z) (m : memory) : outcome Z :=
  match k with
  | O => Ret 0
  | S k => a ← ld m s; if a =? c then Ret s else memchr_loop k (inc s) c m
  end.

Definition memchr (cs c n : Z) (m : memory) : outcome Z := memchr_loop (Z.to_nat n) cs c m.

Fixpoint memset_loop (k : nat) (t c : Z) (m : memory) : outcome memory :=
  match k with
  | O => Ret m
  | S k => m ← sto m t c; memset_loop k (inc t) c m
  end.

Definition memset (s c n : Z) (m : memory) : outcome (Z * memory) :=
  m ← memset_loop (Z.to_nat n) s c m; Ret (s, m).

(** ** Strings in memory *)

Definition char_range (c : Z) : Prop := -128 <= c < 128.

(** The characters [l] from address [p] on. *)
Definition spans (m : memory) (p : Z) (l : list Z) : Prop :=
  0 < p /\ p + Z.of_nat (length l) < 4294967296 /\
  forall i c, l !! i = Some c -> m !! (p + Z.of_nat i) = Some c.

Record string_at (m : memory) (p : Z) (s : list Z) : Prop := StringAt {
  sa_spans : spans m p (s ++ [0]);
  sa_chars : Forall (fun c => c <> 0 /\ char_range c) s
}.

Definition mapped (m : memory) (p n : Z) : Prop :=
  0 < p /\ p + n < 4294967296 /\ forall a, p <= a < p + n -> is_Some (m !! a).

(** [m'] is [m] with [l] written at [p]. *)
Definition written (m m' : memory) (p : Z) (l : list Z) : Prop :=
  forall a, m' !! a = if decide (p <= a < p + Z.of_nat (length l)) then l !! Z.to_nat (a - p) else m !! a.

Lemma inc_small p : 0 <= p < 4294967295 -> inc p = p + 1.
Proof. intros Hp. apply u32_small. lia. Qed.

Lemma spans_cons m p c l : spans m p (c :: l) -> m !! p = Some c /\ (l <> [] -> spans m (p + 1) l).
Proof.
  intros (H0 & H1 & H2). cbn [length] in H1. split.
  - rewrite <- (Z.add_0_r p). by apply (H2 O).
  - intros _. split; [lia|]. split; [lia|]. intros i d Hd.
    replace (p + 1 + Z.of_nat i) with (p + Z.of_nat (S i)) by lia. by apply H2.
Qed.

Lemma string_at_cons m p c s : string_at m p (c :: s) ->
  m !! p = Some c /\ c <> 0 /\ char_range c /\ inc p = p + 1 /\ string_at m (p + 1) s.
Proof.
  intros [Hs Hc]. apply Forall_cons in Hc as [[Hc Hr] Hcs]. pose proof Hs as (H0 & H1 & _).
  cbn [app length] in Hs, H1. apply spans_cons in Hs as [Hp Hs].
  split; [done|]. split; [done|]. split; [done|]. split; [apply inc_small; lia|].
  split; [|done]. apply Hs. by destruct s.
Qed.

Lemma string_at_nil m p : string_at m p [] -> m !! p = Some 0 /\ 0 < p < 4294967295.
Proof. intros [Hs _]. pose proof Hs as (H0 & H1 & _). cbn in H1. apply spans_cons in Hs as [Hp _]. split; [done|lia]. Qed.

Lemma written_nil m p : written m m p [].
Proof. intros a. rewrite decide_False by (cbn [length]; lia). done. Qed.

Lemma written_cons m m' p c l : written (<[p := c]> m) m' (p + 1) l -> written m m' p (c :: l).
Proof.
  intros Hw a. rewrite Hw. cbn [length]. destruct (decide (a = p)) as [-> | Ha].
  - rewrite decide_False, lookup_insert_eq, decide_True by lia. by rewrite Z.sub_diag.
  - rewrite lookup_insert_ne by done.
    destruct (decide (p + 1 <= a < p + 1 + Z.of_nat (length l))).
    + rewrite decide_True by lia. by replace (Z.to_nat (a - p)) with (S (Z.to_nat (a - (p + 1)))) by lia.
    + by rewrite decide_False by lia.
Qed.

Lemma written_snoc m m' p l c : written m m' p l -> written m (<[p + Z.of_nat (length l) := c]> m') p (l ++ [c]).
Proof.
  intros Hw a. rewrite length_app. cbn [length]. destruct (decide (a = p + Z.of_nat (length l))) as [-> | Ha].
  - rewrite lookup_insert_eq, decide_True by lia.
    rewrite lookup_app_r by lia. by replace (Z.to_nat _ - length l)%nat with O by lia.
  - rewrite lookup_insert_ne, Hw by done. destruct (decide (p <= a < p + Z.of_nat (length l))).
    + rewrite decide_True, lookup_app_l by lia. done.
    + by rewrite decide_False by lia.
Qed.

Lemma mapped_written m m' p l : written m m' p l -> forall a, is_Some (m !! a) -> is_Some (m' !! a).
Proof.
  intros Hw a Ha. rewrite Hw. destruct (decide _); [|done]. apply lookup_lt_is_Some_2. lia.
Qed.

Lemma mapped_head m p n : mapped m p n -> 0 < n -> is_Some (m !! p) /\ inc p = p + 1.
Proof. intros (H0 & H1 & H2) Hn. split; [apply H2; lia|]. apply inc_small. lia. Qed.

Lemma mapped_tail m p n c : mapped m p n -> 1 < n -> mapped (<[p := c]> m) (p + 1) (n - 1).
Proof.
  intros (H0 & H1 & H2) Hn. split; [lia|]. split; [lia|]. intros a Ha.
  rewrite lookup_insert_ne by lia. apply H2. lia.
Qed.

(** Writing outside a string keeps it. *)
Lemma string_at_insert m p s a c :
  string_at m p s -> a < p \/ p + Z.of_nat (length s) < a -> string_at (<[a := c]> m) p s.
Proof.
  intros [(H0 & H1 & H2) Hc] Ha. split; [|done]. split; [done|]. split; [done|]. intros i d Hd.
  rewrite lookup_insert_ne; [by apply H2|]. apply lookup_lt_Some in Hd. rewrite length_app in Hd. cbn [length] in Hd. lia.
Qed.

(** The regions written and read do not meet. *)
Definition apart (dest nd src ns : Z) : Prop := dest + nd <= src \/ src + ns <= dest.

Lemma sto_mapped m p c : is_Some (m !! p) -> char_range c -> sto m p c = Ret (<[p := c]> m).
Proof. intros [x Hx] Hc. unfold sto. rewrite Hx. by rewrite (swrap_small 8). Qed.

(** ** [strncpy] *)

Lemma ncopy_short s : forall k dest src m,
  string_at m src s -> (length s < k)%nat -> mapped m dest (Z.of_nat (length s) + 2) ->
  apart dest (Z.of_nat (length s) + 2) src (Z.of_nat (length s) + 1) ->
  exists m', ncopy_loop k dest src m = Ret ((k - length s)%nat, dest + Z.of_nat (length s) + 1, m') /\
    written m m' dest (s ++ [0]).
Proof.
  induction s as [|c s IH]; intros k dest src m Hs Hk Hm Ha; destruct k as [|k]; cbn [length] in *; try lia;
    cbn [ncopy_loop].
  - apply string_at_nil in Hs as [Hp _]. unfold ld. rewrite Hp. cbn [mbind outcome_bind].
    destruct (mapped_head _ _ _ Hm) as [Hd Hi]; [lia|]. rewrite sto_mapped by done.
    cbn [mbind outcome_bind Z.eqb]. eexists. rewrite Hi, Z.add_0_r. split; [done|].
    apply written_cons, written_nil.
  - apply string_at_cons in Hs as (Hp & Hc & Hr & Hi & Hs). unfold ld. rewrite Hp. cbn [mbind outcome_bind].
    destruct (mapped_head _ _ _ Hm) as [Hd Hi']; [lia|]. rewrite sto_mapped by done. cbn [mbind outcome_bind].
    rewrite (proj2 (Z.eqb_neq _ _) Hc), Hi, Hi'.
    destruct (IH k (dest + 1) (src + 1) (<[dest := c]> m)) as (m' & E & Hw); [|lia|..].
    + apply string_at_insert; [done|]. unfold apart in Ha. lia.
    + replace (Z.of_nat (length s) + 2) with (Z.of_nat (S (length s)) + 2 - 1) by lia. apply mapped_tail; [done|lia].
    + unfold apart in *. lia.
    + exists m'. rewrite E. split; [|by apply written_cons]. f_equal. f_equal. f_equal. lia.
Qed.

Lemma ncopy_long k : forall s dest src m,
  string_at m src s -> (k <= length s)%nat -> mapped m dest (Z.of_nat k + 1) ->
  apart dest (Z.of_nat k) src (Z.of_nat (length s) + 1) ->
  exists m', ncopy_loop k dest src m = Ret (O, dest + Z.of_nat k, m') /\ written m m' dest (take k s).
Proof.
  induction k as [|k IH]; intros s dest src m Hs Hk Hm Ha; cbn [ncopy_loop].
  { exists m. rewrite Z.add_0_r. split; [done|]. apply written_nil. }
  destruct s as [|c s]; cbn [length] in *; [lia|].
  apply string_at_cons in Hs as (Hp & Hc & Hr & Hi & Hs). unfold ld. rewrite Hp. cbn [mbind outcome_bind].
  destruct (mapped_head _ _ _ Hm) as [Hd Hi']; [lia|]. rewrite sto_mapped by done. cbn [mbind outcome_bind].
  rewrite (proj2 (Z.eqb_neq _ _) Hc), Hi, Hi'.
  destruct (IH s (dest + 1) (src + 1) (<[dest := c]> m)) as (m' & E & Hw); [|lia|..].
  - apply string_at_insert; [done|]. unfold apart in Ha. lia.
  - replace (Z.of_nat k + 1) with (Z.of_nat (S k) + 1 - 1) by lia. apply mapped_tail; [done|lia].
  - unfold apart in *. lia.
  - exists m'. rewrite E. split; [|by apply written_cons]. f_equal. f_equal. f_equal. lia.
Qed.

(** [strncpy] of a string of at least [n] characters writes the first [n] and
    no terminator; of a shorter one it writes the string and two terminators,
    whatever [n] is: with [n - 1] characters that is one more than [n]. *)
Theorem strncpy_writes s dest src n m :
  string_at m src s -> 0 <= n < 4294967296 -> mapped m dest (Z.max n (Z.of_nat (length s)) + 2) ->
  apart dest (Z.max n (Z.of_nat (length s)) + 2) src (Z.of_nat (length s) + 1) ->
  exists m', strncpy dest src n m = Ret (dest, m') /\
    written m m' dest (if n <=? Z.of_nat (length s) then take (Z.to_nat n) s else s ++ [0; 0]).
Proof.
  intros Hs Hn Hm Ha. unfold strncpy.
  assert (forall k, k <= Z.max n (Z.of_nat (length s)) + 2 -> mapped m dest k) as Hm'.
  { intros k Hk. destruct Hm as (H0 & H1 & H2). split; [done|]. split; [lia|]. intros a Hap. apply H2. lia. }
  destruct (Z.leb_spec n (Z.of_nat (length s))).
  - destruct (ncopy_long (Z.to_nat n) s dest src m) as (m' & -> & Hw);
      [done|lia|apply Hm'; lia|unfold apart in *; lia|]. by exists m'.
  - destruct (ncopy_short s (Z.to_nat n) dest src m) as (m' & -> & Hw);
      [done|lia|apply Hm'; lia|unfold apart in *; lia|].
    cbn [mbind outcome_bind]. destruct (Z.to_nat n - length s)%nat eqn:Ek; [lia|]. cbn [npad_loop].
    assert (written m (<[dest + Z.of_nat (length (s ++ [0])) := 0]> m') dest ((s ++ [0]) ++ [0])) as Hw2
      by by apply written_snoc.
    rewrite length_app in Hw2. cbn [length] in Hw2.
    replace (dest + Z.of_nat (length s + 1)) with (dest + Z.of_nat (length s) + 1) in Hw2 by lia.
    rewrite sto_mapped; [|eapply mapped_written; [done|]; apply Hm; lia|done].
    eexists. split; [reflexivity|]. by rewrite <- app_assoc in Hw2.
Qed.

(** ** Comparison *)

(** Lexicographic comparison; the end of a string counts as 0. *)
Fixpoint compare_strings (s t : list Z) : Z :=
  match s, t with
  | [], [] => 0
  | c :: _, [] => c
  | [], d :: _ => - d
  | c :: s, d :: t => if c =? d then compare_strings s t else c - d
  end.

Lemma compare_strings_eq s : forall t,
  Forall (fun c => c <> 0 /\ char_range c) s -> Forall (fun c => c <> 0 /\ char_range c) t ->
  (compare_strings s t = 0 <-> s = t).
Proof.
  induction s as [|c s IH]; intros [|d t] Hs Ht; cbn [compare_strings]; try done.
  - apply Forall_cons in Ht as [[Hd _] _]. split; [lia|done].
  - apply Forall_cons in Hs as [[Hc _] _]. split; [lia|done].
  - apply Forall_cons in Hs as [_ Hs]. apply Forall_cons in Ht as [_ Ht].
    destruct (Z.eqb_spec c d) as [-> | Hne].
    + rewrite IH by done. split; congruence.
    + split; [lia|congruence].
Qed.

Lemma strcmp_spec s : forall t cs ct fuel m,
  string_at m cs s -> string_at m ct t -> (length s < fuel)%nat ->
  strcmp fuel cs ct m = Ret (compare_strings s t).
Proof.
  induction s as [|c s IH]; intros t cs ct fuel m Hs Ht Hf; (destruct fuel as [|fuel]; [lia|]);
    cbn [strcmp compare_strings]; unfold ld.
  - apply string_at_nil in Hs as [-> _]. cbn [mbind outcome_bind]. destruct t as [|d t].
    + apply string_at_nil in Ht as [-> _]. done.
    + apply string_at_cons in Ht as (-> & Hd & _). cbn [mbind outcome_bind].
      by rewrite (proj2 (Z.eqb_neq 0 d)) by done.
  - apply string_at_cons in Hs as (-> & Hc & _ & Hi & Hs). cbn [mbind outcome_bind length] in *. destruct t as [|d t].
    + apply string_at_nil in Ht as [-> _]. cbn [mbind outcome_bind].
      rewrite (proj2 (Z.eqb_neq c 0)) by done. f_equal. lia.
    + apply string_at_cons in Ht as (-> & Hd & _ & Hi' & Ht). cbn [mbind outcome_bind].
      destruct (Z.eqb_spec c d); [|done]. rewrite (proj2 (Z.eqb_neq c 0)), Hi, Hi' by done. apply IH; (done || lia).
Qed.

Lemma strncmp_spec k : forall s t cs ct m,
  string_at m cs s -> string_at m ct t ->
  ncmp_loop k cs ct m = Ret (compare_strings (take (S k) s) (take (S k) t)).
Proof.
  induction k as [|k IH]; intros s t cs ct m Hs Ht.
  - cbn [ncmp_loop]. unfold ld.
    destruct s as [|c s]; [apply string_at_nil in Hs as [-> _]|apply string_at_cons in Hs as (-> & _)];
    (destruct t as [|d t]; [apply string_at_nil in Ht as [-> _]|apply string_at_cons in Ht as (-> & _)]);
    cbn [mbind outcome_bind take compare_strings]; try (f_equal; lia).
    rewrite !take_0. destruct (Z.eqb_spec c d) as [-> | ]; [|done]. cbn [compare_strings]. f_equal. lia.
  - destruct s as [|c s], t as [|d t]; cbn [ncmp_loop take compare_strings]; unfold ld.
    + apply string_at_nil in Hs as [-> _]. apply string_at_nil in Ht as [-> _]. done.
    + apply string_at_nil in Hs as [-> _]. apply string_at_cons in Ht as (-> & Hd & _). cbn [mbind outcome_bind].
      by rewrite (proj2 (Z.eqb_neq 0 d)) by done.
    + apply string_at_cons in Hs as (-> & Hc & _). apply string_at_nil in Ht as [-> _]. cbn [mbind outcome_bind].
      rewrite (proj2 (Z.eqb_neq c 0)) by done. f_equal. lia.
    + apply string_at_cons in Hs as (-> & Hc & _ & Hi & Hs). apply string_at_cons in Ht as (-> & Hd & _ & Hi' & Ht).
      cbn [mbind outcome_bind]. destruct (Z.eqb_spec c d); [|done].
      rewrite (proj2 (Z.eqb_neq c 0)), Hi, Hi' by done. by apply IH.
Qed.

(** [strcmp] ends and is the lexicographic comparison, 0 exactly on equal
    strings; [strncmp] with [n] is that comparison on the first [n + 1]
    characters, one too many. *)
Theorem strcmp_correct s t cs ct fuel m :
  string_at m cs s -> string_at m ct t -> (length s < fuel)%nat ->
  strcmp fuel cs ct m = Ret (compare_strings s t) /\ (compare_strings s t = 0 <-> s = t) /\
  forall n, 0 <= n -> strncmp cs ct n m =
    Ret (compare_strings (take (Z.to_nat (n + 1)) s) (take (Z.to_nat (n + 1)) t)).
Proof.
  intros Hs Ht Hf. split; [by apply strcmp_spec|]. split; [apply compare_strings_eq; [apply Hs|apply Ht]|].
  intros n Hn. unfold strncmp. replace (Z.to_nat (n + 1)) with (S (Z.to_nat n)) by lia. by apply strncmp_spec.
Qed.

(** The loop counts an unsigned number down and waits for it to become negative. *)
Lemma move_back_stuck fuel : forall i dest src m m', 0 <= i -> move_back fuel i dest src m <> Ret m'.
Proof.
  induction fuel as [|fuel IH]; intros i dest src m m' Hi; cbn [move_back]; [done|].
  rewrite (proj2 (Z.leb_le _ _) Hi). unfold ld, sto.
  destruct (m !! u32 (src + i)); [|done]. cbn [mbind outcome_bind].
  destruct (m !! u32 (dest + i)); [|done]. cbn [mbind outcome_bind]. apply IH, u32_range.
Qed.

Lemma memmove_up_stuck fuel dest src n m r : src < dest -> memmove fuel dest src n m <> Ret r.
Proof.
  intros Hd. unfold memmove. rewrite (proj2 (Z.ltb_lt _ _) Hd).
  pose proof (move_back_stuck fuel (u32 (n - 1)) dest src m) as H.
  destruct (move_back fuel (u32 (n - 1)) dest src m); try done.
  by destruct (H a (proj1 (u32_range _))).
Qed.

(** Copying to a higher address never ends: the loop counts an unsigned
    number down and waits for it to become negative. *)
Theorem memmove_up_never_ends fuel dest src n m r : src < dest -> memmove fuel dest src n m <> Ret r.
Proof. apply memmove_up_stuck. Qed.

(** ** Instances *)

(** Two strings and a buffer. *)
Definition ab_memory : memory :=
  list_to_map [(4096, 97); (4097, 98); (4098, 0); (4104, 97); (4105, 99); (4106, 0);
               (4112, 7); (4113, 7); (4114, 7); (4115, 7); (4116, 7)].

Lemma ab_string : string_at ab_memory 4096 [97; 98] /\ string_at ab_memory 4104 [97; 99].
Proof.
  split; (split; [split; [lia|split; [cbn; lia|]]|repeat constructor; (done || unfold char_range; lia)]);
    intros i c Hi; do 3 (destruct i as [|i]; [cbn in Hi; injection Hi as <-; reflexivity|]); done.
Qed.

Lemma strcmp_correct_witness :
  strcmp 3 4096 4104 ab_memory = Ret (-1) /\ strncmp 4096 4104 1 ab_memory = Ret (-1).
Proof.
  destruct ab_string as [H1 H2].
  destruct (strcmp_correct [97; 98] [97; 99] 4096 4104 3 ab_memory H1 H2) as (E & _ & E'); [cbn; lia|].
  split; [exact E|]. exact (E' 1 ltac:(lia)).
Defined.

(** A string of two characters copied with [n = 3] stores four. *)
Lemma strncpy_writes_witness :
  exists m', strncpy 4112 4096 3 ab_memory = Ret (4112, m') /\ m' !! 4115 = Some 0.
Proof.
  destruct ab_string as [H1 _].
  destruct (strncpy_writes [97; 98] 4112 4096 3 ab_memory H1) as (m' & E & Hw); [lia| |right; cbn; lia|].
  - split; [lia|]. split; [cbn; lia|]. intros a Ha. cbn in Ha.
    assert (a = 4112 \/ a = 4113 \/ a = 4114 \/ a = 4115 \/ a = 4116) as [->|[->|[->|[-> | ->]]]] by lia;
      eexists; reflexivity.
  - exists m'. split; [exact E|]. exact (Hw 4115).
Defined.

Lemma memmove_up_never_ends_witness : memmove 1000 4112 4096 2 ab_memory <> Ret (4112, ab_memory).
Proof. apply memmove_up_never_ends. lia. Defined.
