(* ===== verification/UserLib.v ===== *)
(** * The C library of user programs ([libc/std/string.c], [libc/std/strerror.c]) and the
    fill helpers of [libk/util.c]

    The string routines of the user library are, character for character, those of
    [libk/string.c] without [strnlen]; only the names below are the user's. *)

From Stdlib Require Import String.
From S2P Require Import Prelude CString.

Module UserString.
Definition strcpy := CString.strcpy.
Definition strncpy := CString.strncpy.
Definition strcat := CString.strcat.
Definition strncat := CString.strncat.
Definition strcmp := CString.strcmp.
Definition strncmp := CString.strncmp.
Definition strchr := CString.strchr.
Definition strrchr := CString.strrchr.
Definition strspn := CString.strspn.
Definition strcspn := CString.strcspn.
Definition strpbrk := CString.strpbrk.
Definition strstr := CString.strstr.
Definition strlen := CString.strlen.
Definition strtok := CString.strtok.
Definition memcpy := CString.memcpy.
Definition memmove := CString.memmove.
Definition memcmp := CString.memcmp.
Definition memchr := CString.memchr.
Definition memset := CString.memset.
End UserString.

(** ** [strerror] *)

Local Open Scope string_scope.

Definition syserr_tab : list string :=
  ["OK";
   "NO PERMISSION";
   "NO ENTRY";
   "NO SUCH  PROCESS";
   "INTERRUPTED SYSTEM CALL";
   "INPUT/OUTPUT ERROR";
   "NO SUCH DEVICE/ADDRESS";
   "ARGUMENT LIST TOO BIG";
   "INVALID EXECUTABLE FORMAT";
   "BAD FILE DESCRIPTOR";
   "NO SUCH CHILD PROCESS";
   "RESOURCE TEMPORARILY N/A";
   "OUT OF MEMORY";
   "NO ACCESS/PERMISSION DENIED";
   "BAD ADDRESS/POINTER";
   "NOT A BLOCK SPECIAL FILE";
   "RESOURCE BUISY";
   "FILE EXISTS";
   "IMPROBER LINK";
   "NO SUCH DEVICE";
   "NOT A DIRECTORY";
   "IS A DIRECTORY";
   "INVALID ARGUMENT";
   "TOO MANY OPEN FILES IN SYSTEM";
   "TOO MANY OPEN FIELS";
   "INAPPROPERIATE I/O OPERATION";
   "NOT IN USE";
   "FILE TOO LARGE";
   "NO SPACE LEFT ON DEVICE";
   "INVALID SEEK";
   "READ-ONLY FILE SYSTEM";
   "TOO MANY LINKS";
   "BROKEN PIPE";
   "DOMAIN ERROR";
   "RANGE  ERROR";
   "RESOURCE DEADLOCK AVOIDED";
   "FILE NAME TOO LONG";
   "NO LOCKS AVAILABLE";
   "NOT IMPLEMENTED";
   "DIRECTORY NOT EMPTY";
   "TOO MANY SYMBOLIC LINKS"].

Local Close Scope string_scope.

Definition EGEN : Z := 58.

(** [nerror] is [ENERROR]: 41, or 58 when the networking errors are compiled in. *)
Definition ENERROR (networking : bool) : Z := if networking then 58 else 41.

Definition strerror (networking : bool) (errno : Z) : outcome string :=
  if (errno <? 0) || (ENERROR networking <=? errno) && negb (errno =? EGEN) then Ret "strerror: INVALID ERROR NUMBER"%string
  else if errno =? EGEN then Ret "GENERIC ERROR"%string
  else match syserr_tab !! Z.to_nat errno with Some s => Ret s | None => Fault end.

(** ** [libk/util.c] *)

(** [cl_buf] and [fl_buf]: every character before the NUL becomes [fill]. *)
Fixpoint fill_loop (fuel : nat) (p fill : Z) (m : memory) : outcome memory :=
  match fuel with
  | O => NoFuel
  | S fuel =>
      if p =? 0 then Ret m
      else c ← ld m p; if c =? 0 then Ret m else m ← sto m p fill; fill_loop fuel (inc p) fill m
  end.

Definition cl_buf (fuel : nat) (buf : Z) (m : memory) : outcome memory := fill_loop fuel buf 0 m.
Definition fl_buf (fuel : nat) (buf fill : Z) (m : memory) : outcome memory := fill_loop fuel buf fill m.

(** [cl_bufn] and [fl_bufn]: at most [k] characters. *)
Fixpoint nfill_loop (k : nat) (p fill : Z) (m : memory) : outcome memory :=
  if p =? 0 then Ret m
  else c ← ld m p;
       if c =? 0 then Ret m
       else match k with O => Ret m | S k => m ← sto m p fill; nfill_loop k (inc p) fill m end.

Definition cl_bufn (buf fill size : Z) (m : memory) : outcome memory := nfill_loop (Z.to_nat size) buf 0 m.
Definition fl_bufn (buf fill size : Z) (m : memory) : outcome memory := nfill_loop (Z.to_nat size) buf fill m.

(** ** What they do *)

(** Every number has a text: the table is as long as [ENERROR]. *)
Lemma strerror_total errno : strerror false errno <> Fault.
Proof.
  unfold strerror, ENERROR. destruct (Z.ltb_spec errno 0); [done|]. cbn [orb].
  destruct (Z.leb_spec 41 errno); cbn [andb].
  - destruct (errno =? EGEN); done.
  - destruct (errno =? EGEN); [done|].
    destruct (lookup_lt_is_Some_2 syserr_tab (Z.to_nat errno)) as [s ->]; [|done].
    change (length syserr_tab) with 41%nat. lia.
Qed.

(** With the networking errors the header counts 58 numbers, but the table tests
    another macro and keeps its 41 texts. *)
Lemma strerror_networking errno : 41 <= errno < 58 -> strerror true errno = Fault.
Proof.
  intros He. unfold strerror, ENERROR, EGEN.
  rewrite (proj2 (Z.ltb_ge _ _)), (proj2 (Z.leb_gt _ _)), (proj2 (Z.eqb_neq _ _)) by lia. cbn [orb andb].
  by rewrite (proj2 (lookup_ge_None syserr_tab _)) by (change (length syserr_tab) with 41%nat; lia).
Qed.

(** [fl_buf] replaces the characters of a string, and nothing else; [cl_buf] is
    the case of [fill] being 0. *)
Lemma fill_writes s : forall p m fill fuel, string_at m p s -> char_range fill -> (length s < fuel)%nat ->
  exists m', fill_loop fuel p fill m = Ret m' /\ written m m' p (replicate (length s) fill).
Proof.
  induction s as [|c s IH]; intros p m fill fuel Hs Hf Hn; destruct fuel as [|fuel]; cbn [length] in Hn; try lia; cbn [fill_loop].
  - destruct (string_at_nil _ _ Hs) as [Hm Hp]. rewrite (proj2 (Z.eqb_neq p 0)) by lia.
    unfold ld. rewrite Hm. exists m. split; [done|]. apply written_nil.
  - pose proof (sa_spans _ _ _ Hs) as (Hp0 & _ & _).
    destruct (string_at_cons _ _ _ _ Hs) as (Hm & Hc & _ & Hi & Hs').
    rewrite (proj2 (Z.eqb_neq p 0)) by lia. unfold ld at 1. rewrite Hm. cbn [mbind outcome_bind].
    rewrite (proj2 (Z.eqb_neq c 0)) by done. rewrite (sto_mapped m p fill) by (done || by eexists).
    cbn [mbind outcome_bind]. rewrite Hi.
    destruct (IH (p + 1) (<[p := fill]> m) fill fuel) as (m' & E & Hw); [|done|lia|].
    { apply string_at_insert; [done|]. left. lia. }
    exists m'. split; [done|]. cbn [length replicate]. by apply written_cons.
Qed.

(** [fl_bufn] replaces the first [size] characters of a longer string. *)
Lemma nfill_writes k : forall s p m fill, string_at m p s -> char_range fill -> (k <= length s)%nat ->
  exists m', nfill_loop k p fill m = Ret m' /\ written m m' p (replicate k fill).
Proof.
  induction k as [|k IH]; intros s p m fill Hs Hf Hk.
  - exists m. split; [|apply written_nil]. pose proof (sa_spans _ _ _ Hs) as (Hp & _ & Hl).
    cbn [nfill_loop]. rewrite (proj2 (Z.eqb_neq p 0)) by lia. unfold ld.
    destruct (s ++ [0]) as [|c l] eqn:E; [by destruct s|].
    pose proof (Hl O c eq_refl) as H0. rewrite Z.add_0_r in H0. rewrite H0. cbn [mbind outcome_bind]. by destruct (c =? 0).
  - destruct s as [|c s]; [cbn in Hk; lia|]. pose proof (sa_spans _ _ _ Hs) as (Hp0 & _ & _).
    destruct (string_at_cons _ _ _ _ Hs) as (Hm & Hc & _ & Hi & Hs'). cbn [nfill_loop].
    rewrite (proj2 (Z.eqb_neq p 0)) by lia. unfold ld at 1. rewrite Hm. cbn [mbind outcome_bind].
    rewrite (proj2 (Z.eqb_neq c 0)) by done. rewrite (sto_mapped m p fill) by (done || by eexists).
    cbn [mbind outcome_bind]. rewrite Hi.
    destruct (IH s (p + 1) (<[p := fill]> m) fill) as (m' & E & Hw); [|done|cbn in Hk; lia|].
    { apply string_at_insert; [done|]. left. lia. }
    exists m'. split; [done|]. cbn [replicate]. by apply written_cons.
Qed.
