(* ===== verification/Elf.v ===== *)
(** * Loading an ELF image ([image_load] and [is_image_valid] of [kernel/exec.c])

    The image of the file and the memory of the new process lie in one memory;
    an access to an address that is not mapped is a fault.  The heap and the page
    tables are reached through the interface [HeapOps], whose instance is the
    code of [mm/malloc.c] and [mm/page.c]. *)

From S2P Require Import Prelude Page Heap PagePools CString.

(** What program loading asks of the memory management. *)
Class HeapOps (H : Type) := {
  ho_malloc : Z -> st H Z;
  ho_free : Z -> st H unit;
  ho_set_read_only : Z -> Z -> st H unit;
  ho_unset_read_only : Z -> Z -> st H unit
}.

#[export] Instance user_heap_ops : HeapOps (heap mem) :=
  let _ : PagePool mem := user_pool in
  let on_pages (m : st mem unit) : st (heap mem) unit := fun h =>
    match m (pages h) with
    | Ret (u, p) => Ret (u, Heap.Heap (tables h) (Heap.last h) (nr_slot h) (words h) p)
    | Panic => Panic | Fault => Fault | NoFuel => NoFuel
    end in
  {| ho_malloc := malloc; ho_free := free;
     ho_set_read_only := fun a n => on_pages (mem_set_read_only a n);
     ho_unset_read_only := fun a n => on_pages (mem_unset_read_only a n) |}.

Record machine (H : Type) := Machine { ram : memory; heap_of : H }.
Arguments Machine {H}.
Arguments ram {H} _.
Arguments heap_of {H} _.

(** ** The structures of [include/elf.h] *)

Definition PT_LOAD : Z := 1.
Definition PF_W : Z := 2.
Definition ET_EXEC : Z := 2.
Definition EM_386 : Z := 3.
Definition sizeof_Phdr : Z := 32.

Record Elf32_Phdr := Phdr {
  p_type : Z; p_offset : Z; p_vaddr : Z; p_paddr : Z; p_filesz : Z; p_memsz : Z; p_flags : Z; p_align : Z
}.

Section Load.

Context {H : Type} `{HeapOps H}.

Abbreviation M := (machine H).

Definition on_ram {A} (f : memory -> outcome (A * memory)) : st M A := fun s =>
  match f (ram s) with
  | Ret (a, m) => Ret (a, Machine m (heap_of s))
  | Panic => Panic | Fault => Fault | NoFuel => NoFuel
  end.

Definition on_heap {A} (f : st H A) : st M A := fun s =>
  match f (heap_of s) with
  | Ret (a, h) => Ret (a, Machine (ram s) h)
  | Panic => Panic | Fault => Fault | NoFuel => NoFuel
  end.

(** Little-endian words. *)
Definition byte_at (a : Z) : st M Z := on_ram (fun m => c ← ld m (u32 a); Ret (u8 c, m)).
Definition half_at (a : Z) : st M Z := b0 ← byte_at a; b1 ← byte_at (a + 1); mret (b0 + 256 * b1).
Definition word_at (a : Z) : st M Z := h0 ← half_at a; h1 ← half_at (a + 2); mret (h0 + 65536 * h1).

(** The fields of the header that are used, by their offsets. *)
Definition e_ident (hdr i : Z) : st M Z := byte_at (hdr + i).
Definition e_type (hdr : Z) : st M Z := half_at (hdr + 16).
Definition e_machine (hdr : Z) : st M Z := half_at (hdr + 18).
Definition e_entry (hdr : Z) : st M Z := word_at (hdr + 24).
Definition e_phoff (hdr : Z) : st M Z := word_at (hdr + 28).
Definition e_phentsize (hdr : Z) : st M Z := half_at (hdr + 42).
Definition e_phnum (hdr : Z) : st M Z := half_at (hdr + 44).

(** [phdr[i]] *)
Definition phdr_at (phdr i : Z) : st M Elf32_Phdr :=
  let a := phdr + sizeof_Phdr * i in
  t ← word_at a; o ← word_at (a + 4); v ← word_at (a + 8); p ← word_at (a + 12);
  f ← word_at (a + 16); m ← word_at (a + 20); g ← word_at (a + 24); l ← word_at (a + 28);
  mret (Phdr t o v p f m g l).

(** ** Checking the header *)

(** The tests in their order; a test reads its fields when those before passed. *)
Definition is_image_valid (hdr : Z) : st M bool :=
  if hdr =? 0 then mret false
  else
    m0 ← e_ident hdr 0; m1 ← e_ident hdr 1; m2 ← e_ident hdr 2; m3 ← e_ident hdr 3;
    if negb ((m0 =? 0x7f) && (m1 =? 69) && (m2 =? 76) && (m3 =? 70)) then mret false
    else
      phoff ← e_phoff hdr; phnum ← e_phnum hdr;
      if (phoff =? 0) || (phnum =? 0) then mret false
      else
        size ← e_phentsize hdr;
        if negb (size =? sizeof_Phdr) then mret false
        else
          type ← e_type hdr;
          if negb (type =? ET_EXEC) then mret false
          else
            machine ← e_machine hdr;
            mret (machine =? EM_386).

(** ** Loading *)

(** The size of the process: [n] headers from [i] on. *)
Fixpoint image_extent (n : nat) (phdr i estart esize : Z) : st M Z :=
  match n with
  | O => mret esize
  | S n =>
      p ← phdr_at phdr i;
      if negb (p_type p =? PT_LOAD) then image_extent n phdr (i + 1) estart esize
      else
        let estart := if estart =? 0 then p_paddr p else estart in
        image_extent n phdr (i + 1) estart (u32 (esize + u32 (u32 (p_paddr p - estart) + p_memsz p)))
  end.

(** Copying the segments; [fuel] bounds a [memmove].  [None] is the early
    return, after [exec] was freed; otherwise [estart] and [offset]. *)
Fixpoint copy_segments (fuel n : nat) (elf_start phdr exec i estart offset : Z) : st M (option (Z * Z)) :=
  match n with
  | O => mret (Some (estart, offset))
  | S n =>
      p ← phdr_at phdr i;
      if negb (p_type p =? PT_LOAD) then copy_segments fuel n elf_start phdr exec (i + 1) estart offset
      else if p_memsz p <? p_filesz p then _ ← on_heap (ho_free exec); mret None
      else if p_filesz p =? 0 then
        _ ← on_ram (memset (u32 (exec + u32 (p_paddr p - estart))) 0x0 (p_memsz p));
        copy_segments fuel n elf_start phdr exec (i + 1) estart offset
      else
        let start := u32 (elf_start + p_offset p) in
        let estart := if estart =? 0 then p_paddr p else estart in
        let taddr := u32 (exec + offset) in
        _ ← on_ram (memmove fuel taddr start (p_filesz p));
        copy_segments fuel n elf_start phdr exec (i + 1) estart
          (u32 (offset + u32 (u32 (p_paddr p - estart) + p_memsz p)))
  end.

(** Marking the text read-only, from the [estart] and [offset] left by the
    copies. *)
Fixpoint protect_segments (n : nat) (phdr exec i estart offset : Z) : st M (option Z) :=
  match n with
  | O => mret (Some estart)
  | S n =>
      p ← phdr_at phdr i;
      if negb (p_type p =? PT_LOAD) then protect_segments n phdr exec (i + 1) estart offset
      else if p_memsz p <? p_filesz p then _ ← on_heap (ho_free exec); mret None
      else if p_filesz p =? 0 then protect_segments n phdr exec (i + 1) estart offset
      else
        let estart := if estart =? 0 then p_paddr p else estart in
        let taddr := u32 (exec + offset) in
        let offset := u32 (offset + u32 (u32 (p_paddr p - estart) + p_memsz p)) in
        _ ← (if Z.land (p_flags p) PF_W =? 0 then on_heap (ho_set_read_only taddr (p_filesz p / PAGE_SIZE))
             else mret tt);
        protect_segments n phdr exec (i + 1) estart offset
  end.

(** The entry point, 0 for failure, and what was stored through [exec_mem] and
    [exec_size]. *)
Definition image_load (fuel : nat) (elf_start : Z) : st M (Z * option (Z * Z)) :=
  valid ← is_image_valid elf_start;
  if negb valid then mret (0, None)
  else
    phoff ← e_phoff elf_start;
    phnum ← e_phnum elf_start;
    let n := Z.to_nat phnum in
    let phdr := u32 (elf_start + phoff) in
    esize ← image_extent n phdr 0 0 0;
    exec ← on_heap (ho_malloc esize);
    if exec =? 0 then mret (0, None)
    else
      _ ← on_ram (memset exec 0x0 esize);
      r ← copy_segments fuel n elf_start phdr exec 0 0 0;
      match r with
      | None => mret (0, None)
      | Some (estart, offset) =>
          r ← protect_segments n phdr exec 0 estart offset;
          match r with
          | None => mret (0, None)
          | Some estart =>
              entry ← e_entry elf_start;
              mret (u32 (u32 (entry - estart) + exec), Some (exec, esize))
          end
      end.

End Load.

(** ** Blocks of memory *)

Lemma memset_loop_run n : forall p c m,
  mapped m p (Z.of_nat n) -> char_range c ->
  exists m', memset_loop n p c m = Ret m' /\ written m m' p (replicate n c).
Proof.
  induction n as [|n IH]; intros p c m Hm Hc; cbn [memset_loop replicate].
  { exists m. split; [done | apply written_nil]. }
  destruct (mapped_head m p (Z.of_nat (S n)) Hm ltac:(lia)) as [Hp Hi].
  rewrite sto_mapped, Hi by done. cbn [mbind outcome_bind].
  destruct n as [|n].
  - exists (<[p := c]> m). split; [done|]. apply written_cons, written_nil.
  - destruct (IH (p + 1) c (<[p := c]> m)) as (m' & E & Hw); [|done|].
    { replace (Z.of_nat (S n)) with (Z.of_nat (S (S n)) - 1) by lia. apply mapped_tail; [done | lia]. }
    exists m'. split; [done|]. by apply written_cons.
Qed.

Lemma memcpy_loop_run l : forall dest src m,
  mapped m dest (Z.of_nat (length l)) -> (l <> [] -> spans m src l) -> Forall char_range l ->
  apart dest (Z.of_nat (length l)) src (Z.of_nat (length l)) ->
  exists m', memcpy_loop (length l) dest src m = Ret m' /\ written m m' dest l.
Proof.
  induction l as [|c l IH]; intros dest src m Hd Hs Hc Ha; cbn [memcpy_loop length].
  { exists m. split; [done | apply written_nil]. }
  specialize (Hs ltac:(done)). apply Forall_cons in Hc as [Hc Hl]. cbn [length] in *.
  pose proof Hs as (Hs0 & Hs1 & _). apply spans_cons in Hs as [Hhead Htail].
  destruct (mapped_head m dest _ Hd ltac:(lia)) as [Hp Hi].
  unfold ld. rewrite Hhead. cbn [mbind outcome_bind]. rewrite sto_mapped, Hi by done. cbn [mbind outcome_bind].
  rewrite inc_small by (cbn [length] in Hs1; lia).
  destruct l as [|c' l].
  - exists (<[dest := c]> m). split; [done|]. apply written_cons, written_nil.
  - destruct (IH (dest + 1) (src + 1) (<[dest := c]> m)) as (m' & E & Hw).
    + replace (Z.of_nat (length (c' :: l))) with (Z.of_nat (S (length (c' :: l))) - 1) by lia.
      apply mapped_tail; [done | cbn [length]; lia].
    + intros _. destruct (Htail ltac:(done)) as (H0 & H1 & H2). split; [lia|]. split; [lia|].
      intros i x Hx. rewrite lookup_insert_ne; [by apply H2|].
      apply lookup_lt_Some in Hx. unfold apart in Ha. lia.
    + done.
    + unfold apart in *. lia.
    + exists m'. split; [done|]. by apply written_cons.
Qed.

Lemma written_over m m1 m2 p l k :
  written m m1 p k -> written m1 m2 p l -> (length l <= length k)%nat ->
  written m m2 p (l ++ drop (length l) k).
Proof.
  intros H1 H2 Hl a. rewrite H2, H1. rewrite length_app, length_drop.
  destruct (decide (p <= a < p + Z.of_nat (length l))).
  - rewrite decide_True by lia. by rewrite lookup_app_l by lia.
  - destruct (decide (p <= a < p + Z.of_nat (length k))).
    + rewrite decide_True by lia. rewrite lookup_app_r, lookup_drop by lia. f_equal. lia.
    + by rewrite decide_False by lia.
Qed.

(** ** An image in memory *)

(** The bytes of the file from an address on, kept as [char]s. *)
Definition image_at (m : memory) (a : Z) (file : list Z) : Prop :=
  0 < a /\ a + Z.of_nat (length file) < 4294967296 /\
  Forall (fun b => 0 <= b < 256) file /\
  forall i b, file !! i = Some b -> m !! (a + Z.of_nat i) = Some (i8 b).

Lemma u8_i8 b : 0 <= b < 256 -> u8 (i8 b) = b.
Proof.
  intros Hb. unfold uwrap. rewrite (swrap_mod 8) by lia. apply Z.mod_small. pow2. lia.
Qed.

Lemma i8_range b : char_range (i8 b).
Proof. apply (swrap_range 8). lia. Qed.

(** Fields of a file. *)
Definition fbyte (file : list Z) (o : Z) : Z := default 0 (file !! Z.to_nat o).
Definition fhalf (file : list Z) (o : Z) : Z := fbyte file o + 256 * fbyte file (o + 1).
Definition fword (file : list Z) (o : Z) : Z := fhalf file o + 65536 * fhalf file (o + 2).

Definition fphdr (file : list Z) (o : Z) : Elf32_Phdr :=
  Phdr (fword file o) (fword file (o + 4)) (fword file (o + 8)) (fword file (o + 12))
       (fword file (o + 16)) (fword file (o + 20)) (fword file (o + 24)) (fword file (o + 28)).

Section Image.

Context {H : Type} `{HeapOps H}.
Context (file : list Z) (a : Z) (s : machine H) (Hi : image_at (ram s) a file).

Lemma byte_at_run x o : 0 <= o < Z.of_nat (length file) -> u32 x = a + o -> byte_at x s = Ret (fbyte file o, s).
Proof.
  intros Ho Hx. destruct Hi as (Ha0 & Ha1 & Hb & Hm). unfold byte_at, on_ram, ld. rewrite Hx.
  destruct (lookup_lt_is_Some_2 file (Z.to_nat o)) as [b Eb]; [lia|].
  pose proof (Hm _ _ Eb) as E. rewrite Z2Nat.id in E by lia. rewrite E. cbn [mbind outcome_bind].
  rewrite u8_i8 by (by apply (proj1 (Forall_lookup _ _) Hb _ _ Eb)).
  unfold fbyte. rewrite Eb. by destruct s.
Qed.

Lemma u32_offset x o d : u32 x = a + o -> 0 <= o -> 0 <= d -> o + d < Z.of_nat (length file) -> u32 (x + d) = a + (o + d).
Proof.
  intros Hx Ho Hd Hl. destruct Hi as (Ha0 & Ha1 & _). unfold uwrap in *.
  rewrite <- Zplus_mod_idemp_l, Hx. rewrite Z.mod_small by (pow2; lia). lia.
Qed.

Lemma half_at_run x o : 0 <= o -> o + 2 <= Z.of_nat (length file) -> u32 x = a + o -> half_at x s = Ret (fhalf file o, s).
Proof.
  intros Ho Hl Hx. unfold half_at, mbind, st_bind.
  rewrite (byte_at_run x o), (byte_at_run (x + 1) (o + 1)); [done|lia| |lia|done].
  by apply u32_offset; try lia.
Qed.

Lemma word_at_run x o : 0 <= o -> o + 4 <= Z.of_nat (length file) -> u32 x = a + o -> word_at x s = Ret (fword file o, s).
Proof.
  intros Ho Hl Hx. unfold word_at, mbind, st_bind.
  rewrite (half_at_run x o), (half_at_run (x + 2) (o + 2)); [done|lia|lia| |lia|lia|done].
  by apply u32_offset; try lia.
Qed.

Lemma phdr_at_run x o i :
  0 <= o -> 0 <= i -> o + 32 * i + 32 <= Z.of_nat (length file) -> u32 x = a + o ->
  phdr_at x i s = Ret (fphdr file (o + 32 * i), s).
Proof.
  intros Ho Hi' Hl Hx. unfold phdr_at, mbind, st_bind. change sizeof_Phdr with 32. cbv zeta.
  assert (u32 (x + 32 * i) = a + (o + 32 * i)) as E by (apply u32_offset; lia || done).
  assert (forall d, 0 <= d -> d + 4 <= 32 ->
    word_at (x + 32 * i + d) s = Ret (fword file (o + 32 * i + d), s)) as Hd.
  { intros d Hd Hd'. apply word_at_run; [lia | lia |]. apply u32_offset; lia || done. }
  rewrite (word_at_run (x + 32 * i) (o + 32 * i)), !Hd by (lia || done). done.
Qed.

End Image.

Definition valid_header (file : list Z) : bool :=
  (fbyte file 0 =? 0x7f) && (fbyte file 1 =? 69) && (fbyte file 2 =? 76) && (fbyte file 3 =? 70)
  && negb ((fword file 28 =? 0) || (fhalf file 44 =? 0)) && (fhalf file 42 =? sizeof_Phdr)
  && (fhalf file 16 =? ET_EXEC) && (fhalf file 18 =? EM_386).

Lemma is_image_valid_run {H} `{HeapOps H} file a (s : machine H) :
  image_at (ram s) a file -> 52 <= Z.of_nat (length file) ->
  is_image_valid a s = Ret (valid_header file, s).
Proof.
  intros Hi Hl. pose proof Hi as (Ha0 & Ha1 & _).
  assert (forall o, 0 <= o <= 52 -> u32 (a + o) = a + o) as Hu by (intros o Ho; apply u32_small; lia).
  unfold is_image_valid. rewrite (proj2 (Z.eqb_neq a 0)) by lia.
  unfold e_ident, e_phoff, e_phnum, e_phentsize, e_type, e_machine, mbind, st_bind.
  assert (forall o, 0 <= o < 52 -> byte_at (a + o) s = Ret (fbyte file o, s)) as Hb
    by (intros o Ho; apply (byte_at_run file a s Hi); [lia | apply Hu; lia]).
  rewrite !Hb by lia.
  unfold valid_header. destruct (_ && (fbyte file 3 =? 70)); cbn [negb andb]; [|done].
  rewrite (word_at_run file a s Hi _ 28), (half_at_run file a s Hi _ 44) by (lia || apply Hu; lia).
  destruct ((fword file 28 =? 0) || _); cbn [negb andb]; [done|].
  rewrite (half_at_run file a s Hi _ 42) by (lia || apply Hu; lia).
  destruct (fhalf file 42 =? sizeof_Phdr); cbn [negb andb]; [|done].
  rewrite (half_at_run file a s Hi _ 16) by (lia || apply Hu; lia).
  destruct (fhalf file 16 =? ET_EXEC); cbn [negb andb]; [|done].
  by rewrite (half_at_run file a s Hi _ 18) by (lia || apply Hu; lia).
Qed.

Lemma fbyte_range file o : Forall (fun b => 0 <= b < 256) file -> 0 <= fbyte file o < 256.
Proof.
  intros Hf. unfold fbyte. destruct (file !! Z.to_nat o) as [b|] eqn:E; [|done]. cbn.
  exact (proj1 (Forall_lookup _ _) Hf _ _ E).
Qed.

Lemma fword_range file o : Forall (fun b => 0 <= b < 256) file -> 0 <= fword file o < 4294967296.
Proof.
  intros Hf. unfold fword, fhalf.
  pose proof (fbyte_range file o Hf). pose proof (fbyte_range file (o + 1) Hf).
  pose proof (fbyte_range file (o + 2) Hf). pose proof (fbyte_range file (o + 2 + 1) Hf). lia.
Qed.

(** Header [k] of the [n] headers at offset [o] is the only one to be loaded. *)
Definition one_load (file : list Z) (o : Z) (n k : nat) : Prop :=
  (k < n)%nat /\ p_type (fphdr file (o + 32 * Z.of_nat k)) = PT_LOAD /\
  forall i, (i < n)%nat -> i <> k -> p_type (fphdr file (o + 32 * Z.of_nat i)) <> PT_LOAD.

Section Loops.

Context {H : Type} `{HeapOps H}.
Context (file : list Z) (a phdr o : Z) (Hp : u32 phdr = a + o) (Ho : 0 <= o).

Lemma image_extent_skip (s : machine H) n : forall i estart esize,
  image_at (ram s) a file -> o + 32 * Z.of_nat (i + n) <= Z.of_nat (length file) ->
  (forall j, (i <= j < i + n)%nat -> p_type (fphdr file (o + 32 * Z.of_nat j)) <> PT_LOAD) ->
  image_extent n phdr (Z.of_nat i) estart esize s = Ret (esize, s).
Proof.
  induction n as [|n IH]; intros i estart esize Hi Hl Hn; [done|]. cbn [image_extent]. unfold mbind, st_bind.
  rewrite (phdr_at_run file a s Hi phdr o) by (lia || done).
  rewrite (proj2 (Z.eqb_neq _ _)) by (apply Hn; lia). cbn [negb].
  replace (Z.of_nat i + 1) with (Z.of_nat (S i)) by lia. apply IH; [done | lia |]. intros j Hj. apply Hn. lia.
Qed.

Lemma copy_skip (s : machine H) fuel n exec : forall i estart offset,
  image_at (ram s) a file -> o + 32 * Z.of_nat (i + n) <= Z.of_nat (length file) ->
  (forall j, (i <= j < i + n)%nat -> p_type (fphdr file (o + 32 * Z.of_nat j)) <> PT_LOAD) ->
  copy_segments fuel n a phdr exec (Z.of_nat i) estart offset s = Ret (Some (estart, offset), s).
Proof.
  induction n as [|n IH]; intros i estart offset Hi Hl Hn; [done|]. cbn [copy_segments]. unfold mbind, st_bind.
  rewrite (phdr_at_run file a s Hi phdr o) by (lia || done).
  rewrite (proj2 (Z.eqb_neq _ _)) by (apply Hn; lia). cbn [negb].
  replace (Z.of_nat i + 1) with (Z.of_nat (S i)) by lia. apply IH; [done | lia |]. intros j Hj. apply Hn. lia.
Qed.

Lemma protect_skip (s : machine H) n exec : forall i estart offset,
  image_at (ram s) a file -> o + 32 * Z.of_nat (i + n) <= Z.of_nat (length file) ->
  (forall j, (i <= j < i + n)%nat -> p_type (fphdr file (o + 32 * Z.of_nat j)) <> PT_LOAD) ->
  protect_segments n phdr exec (Z.of_nat i) estart offset s = Ret (Some estart, s).
Proof.
  induction n as [|n IH]; intros i estart offset Hi Hl Hn; [done|]. cbn [protect_segments]. unfold mbind, st_bind.
  rewrite (phdr_at_run file a s Hi phdr o) by (lia || done).
  rewrite (proj2 (Z.eqb_neq _ _)) by (apply Hn; lia). cbn [negb].
  replace (Z.of_nat i + 1) with (Z.of_nat (S i)) by lia. apply IH; [done | lia |]. intros j Hj. apply Hn. lia.
Qed.

(** Up to the one segment that is loaded, and past it. *)
Lemma image_extent_one (s : machine H) p n k : forall i,
  image_at (ram s) a file -> o + 32 * Z.of_nat (i + n) <= Z.of_nat (length file) ->
  (i <= k < i + n)%nat -> fphdr file (o + 32 * Z.of_nat k) = p -> p_type p = PT_LOAD -> p_paddr p <> 0 ->
  (forall j, (i <= j < i + n)%nat -> j <> k -> p_type (fphdr file (o + 32 * Z.of_nat j)) <> PT_LOAD) ->
  image_extent n phdr (Z.of_nat i) 0 0 s = Ret (p_memsz p, s).
Proof.
  induction n as [|n IH]; intros i Hi Hl Hk Ep Ht Hpa Hn; [lia|]. cbn [image_extent]. unfold mbind, st_bind.
  rewrite (phdr_at_run file a s Hi phdr o) by (lia || done).
  replace (Z.of_nat i + 1) with (Z.of_nat (S i)) by lia. destruct (decide (i = k)) as [->|Hne].
  - rewrite Ep, Ht, Z.eqb_refl. cbn [negb]. rewrite Z.eqb_refl.
    rewrite image_extent_skip; [| done | lia | intros j Hj; apply Hn; lia].
    rewrite Z.sub_diag. change (u32 0) with 0. rewrite !Z.add_0_l.
    rewrite <- Ep. cbn [p_memsz fphdr]. pose proof Hi as (_ & _ & Hb & _).
    by rewrite !u32_small by (rewrite ?u32_small; apply fword_range; done).
  - rewrite (proj2 (Z.eqb_neq _ _)) by (apply Hn; lia). cbn [negb]. apply IH; [done | lia | lia | done | done | done |].
    intros j Hj. apply Hn. lia.
Qed.

Definition segment_bytes (p : Elf32_Phdr) : list Z :=
  firstn (Z.to_nat (p_filesz p)) (drop (Z.to_nat (p_offset p)) file).

Lemma image_at_written m m' e l : image_at m a file -> written m m' e l -> e + Z.of_nat (length l) <= a -> image_at m' a file.
Proof.
  intros (Ha0 & Ha1 & Hb & Hm) Hw He. split_and!; [done | done | done |]. intros i b Eb.
  rewrite Hw, decide_False by lia. by apply Hm.
Qed.

Lemma segment_spans m p : image_at m a file -> 0 <= p_offset p -> 0 < p_filesz p ->
  p_offset p + p_filesz p <= Z.of_nat (length file) ->
  length (segment_bytes p) = Z.to_nat (p_filesz p) /\
  spans m (a + p_offset p) (i8 <$> segment_bytes p).
Proof.
  intros (Ha0 & Ha1 & Hb & Hm) Hof Hf Hl.
  assert (length (segment_bytes p) = Z.to_nat (p_filesz p)) as Hlen.
  { unfold segment_bytes. rewrite length_take, length_drop. lia. }
  split; [done|]. split; [lia|]. rewrite length_fmap, Hlen. split; [lia|].
  intros i c Hc. rewrite list_lookup_fmap in Hc. destruct (segment_bytes p !! i) as [b|] eqn:Eb; [|done].
  injection Hc as <-. pose proof (lookup_lt_Some _ _ _ Eb) as Hil. rewrite Hlen in Hil.
  unfold segment_bytes in Eb. rewrite lookup_take_lt, lookup_drop in Eb by lia.
  rewrite <- (Hm _ _ Eb). f_equal. lia.
Qed.

Lemma copy_one fuel p exec n k : forall i (s : machine H),
  image_at (ram s) a file -> o + 32 * Z.of_nat (i + n) <= Z.of_nat (length file) ->
  (i <= k < i + n)%nat -> fphdr file (o + 32 * Z.of_nat k) = p -> p_type p = PT_LOAD -> p_paddr p <> 0 ->
  0 < p_filesz p <= p_memsz p -> 0 <= p_offset p -> p_offset p + p_filesz p <= Z.of_nat (length file) ->
  mapped (ram s) exec (p_memsz p) -> exec + p_memsz p <= a ->
  (forall j, (i <= j < i + n)%nat -> j <> k -> p_type (fphdr file (o + 32 * Z.of_nat j)) <> PT_LOAD) ->
  exists m, copy_segments fuel n a phdr exec (Z.of_nat i) 0 0 s
      = Ret (Some (p_paddr p, p_memsz p), Machine m (heap_of s)) /\
    written (ram s) m exec (i8 <$> segment_bytes p).
Proof.
  induction n as [|n IH]; intros i s Hi Hl Hk Ep Ht Hpa Hf Hof Hfl Hmap Hex Hn; [lia|].
  cbn [copy_segments]. unfold mbind, st_bind.
  rewrite (phdr_at_run file a s Hi phdr o) by (lia || done).
  replace (Z.of_nat i + 1) with (Z.of_nat (S i)) by lia. destruct (decide (i = k)) as [->|Hne].
  - rewrite Ep, Ht, Z.eqb_refl, (proj2 (Z.ltb_ge _ _)), (proj2 (Z.eqb_neq (p_filesz p) 0)) by lia.
    cbn [negb]. rewrite Z.eqb_refl.
    pose proof Hi as (Ha0 & Ha1 & Hb & _). destruct Hmap as (Hm0 & Hm1 & Hm2).
    destruct (segment_spans (ram s) p Hi Hof ltac:(lia) Hfl) as [Hlen Hspan].
    destruct (memcpy_loop_run (i8 <$> segment_bytes p) exec (a + p_offset p) (ram s)) as (m & E & Hw).
    { rewrite length_fmap, Hlen. split; [lia|]. split; [lia|]. intros x Hx. apply Hm2. lia. }
    { done. }
    { apply Forall_fmap, Forall_forall. intros x _. apply i8_range. }
    { rewrite length_fmap, Hlen. left. lia. }
    rewrite length_fmap, Hlen in E.
    assert (u32 (exec + 0) = exec) as -> by (rewrite Z.add_0_r; apply u32_small; lia).
    assert (u32 (a + p_offset p) = a + p_offset p) as -> by (apply u32_small; lia).
    unfold on_ram, memmove. rewrite (proj2 (Z.ltb_ge _ _)) by lia. rewrite E. cbn [mbind outcome_bind].
    exists m. split; [|done].
    rewrite copy_skip; cbn [ram]; [| | lia | intros j Hj; apply Hn; lia].
    + do 3 f_equal. rewrite Z.sub_diag. change (u32 0) with 0. rewrite !Z.add_0_l.
      rewrite <- Ep. cbn [p_memsz fphdr]. by rewrite !u32_small by (rewrite ?u32_small; apply fword_range; done).
    + apply (image_at_written _ _ _ _ Hi Hw). rewrite length_fmap, Hlen. lia.
  - rewrite (proj2 (Z.eqb_neq _ _)) by (apply Hn; lia). cbn [negb].
    apply IH; try done; try lia. intros j Hj. apply Hn. lia.
Qed.

(** What the marking asks of the page tables. *)
Definition protect_call (p : Elf32_Phdr) (taddr : Z) : st H unit :=
  if Z.land (p_flags p) PF_W =? 0 then ho_set_read_only taddr (p_filesz p / PAGE_SIZE) else mret tt.

Lemma protect_one p exec h n k : forall i (s : machine H),
  image_at (ram s) a file -> o + 32 * Z.of_nat (i + n) <= Z.of_nat (length file) ->
  (i <= k < i + n)%nat -> fphdr file (o + 32 * Z.of_nat k) = p -> p_type p = PT_LOAD -> p_paddr p <> 0 ->
  0 < p_filesz p <= p_memsz p ->
  protect_call p (u32 (exec + p_memsz p)) (heap_of s) = Ret (tt, h) ->
  (forall j, (i <= j < i + n)%nat -> j <> k -> p_type (fphdr file (o + 32 * Z.of_nat j)) <> PT_LOAD) ->
  protect_segments n phdr exec (Z.of_nat i) (p_paddr p) (p_memsz p) s = Ret (Some (p_paddr p), Machine (ram s) h).
Proof.
  induction n as [|n IH]; intros i s Hi Hl Hk Ep Ht Hpa Hf Hprot Hn; [lia|].
  cbn [protect_segments]. unfold mbind, st_bind.
  rewrite (phdr_at_run file a s Hi phdr o) by (lia || done).
  replace (Z.of_nat i + 1) with (Z.of_nat (S i)) by lia. destruct (decide (i = k)) as [->|Hne].
  - rewrite Ep, Ht, Z.eqb_refl, (proj2 (Z.ltb_ge _ _)), (proj2 (Z.eqb_neq (p_filesz p) 0)) by lia.
    cbn [negb]. rewrite (proj2 (Z.eqb_neq (p_paddr p) 0)) by done.
    assert ((if Z.land (p_flags p) PF_W =? 0
             then on_heap (ho_set_read_only (u32 (exec + p_memsz p)) (p_filesz p / PAGE_SIZE))
             else mret tt) s = Ret (tt, Machine (ram s) h)) as ->.
    { unfold protect_call in Hprot. destruct (_ =? 0); [unfold on_heap; by rewrite Hprot|].
      injection Hprot as <-. by destruct s. }
    apply protect_skip; [exact Hi | lia | intros j Hj; apply Hn; lia].
  - rewrite (proj2 (Z.eqb_neq _ _)) by (apply Hn; lia). cbn [negb].
    apply IH; try done; try lia. intros j Hj. apply Hn. lia.
Qed.

End Loops.

(** ** Images of one segment *)

Record loadable (file : list Z) (k : nat) (p : Elf32_Phdr) : Prop := {
  lo_valid : valid_header file = true;
  lo_length : 52 <= Z.of_nat (length file);
  lo_headers : fword file 28 + 32 * fhalf file 44 <= Z.of_nat (length file);
  lo_one : one_load file (fword file 28) (Z.to_nat (fhalf file 44)) k;
  lo_phdr : fphdr file (fword file 28 + 32 * Z.of_nat k) = p;
  lo_paddr : p_paddr p <> 0;
  lo_sizes : 0 < p_filesz p <= p_memsz p;
  lo_inside : p_offset p + p_filesz p <= Z.of_nat (length file)
}.

Section Theorems.

Context {H : Type} `{HeapOps H}.

(** The steps before the copy: the header is valid, the extent is that of the
    segment, the new memory is cleared. *)
Lemma image_load_start fuel file a k p (s : machine H) exec h1 :
  image_at (ram s) a file -> loadable file k p ->
  ho_malloc (p_memsz p) (heap_of s) = Ret (exec, h1) -> mapped (ram s) exec (p_memsz p) ->
  exec + p_memsz p <= a \/ a + Z.of_nat (length file) <= exec ->
  let n := Z.to_nat (fhalf file 44) in
  let phdr := u32 (a + fword file 28) in
  exists m1, written (ram s) m1 exec (replicate (Z.to_nat (p_memsz p)) 0) /\
    image_at m1 a file /\
    image_load fuel a s =
      (r ← copy_segments fuel n a phdr exec 0 0 0;
       match r with
       | None => mret (0, None)
       | Some (estart, offset) =>
           r ← protect_segments n phdr exec 0 estart offset;
           match r with
           | None => mret (0, None)
           | Some estart => entry ← e_entry a; mret (u32 (u32 (entry - estart) + exec), Some (exec, p_memsz p))
           end
       end) (Machine m1 h1).
Proof.
  intros Hi Hlo Hmal Hmap Hap n phdr. pose proof Hi as (Ha0 & Ha1 & Hb & Hbytes).
  destruct Hlo as [Hv Hl Hh (Hkn & Hkt & Hkn') Ep Hpa Hsz Hin].
  pose proof (fword_range file 28 Hb). pose proof (fbyte_range file 44 Hb). pose proof (fbyte_range file 45 Hb).
  assert (0 <= fhalf file 44) by (unfold fhalf; change (44 + 1) with 45; lia).
  assert (forall o, 0 <= o <= Z.of_nat (length file) -> u32 (a + o) = a + o) as Hu by (intros o Ho; apply u32_small; lia).
  unfold image_load, mbind at 1, st_bind at 1.
  rewrite (is_image_valid_run file a s Hi Hl), Hv. cbn [negb].
  unfold e_phoff, e_phnum. unfold mbind at 1, st_bind at 1.
  rewrite (word_at_run file a s Hi (a + 28) 28) by (lia || apply Hu; lia).
  unfold mbind at 1, st_bind at 1. rewrite (half_at_run file a s Hi (a + 44) 44) by (lia || apply Hu; lia).
  unfold mbind at 1, st_bind at 1.
  pose proof (image_extent_one (H := H) file a (u32 (a + fword file 28)) (fword file 28)) as Hext.
  rewrite (u32_small (a + fword file 28)) in Hext by lia.
  specialize (Hext ltac:(apply u32_small; lia) ltac:(lia) s p n k 0%nat Hi).
  unfold n, phdr in *. rewrite (u32_small (a + fword file 28)) by lia.
  change (Z.of_nat 0) with 0 in Hext.
  rewrite Hext; [| lia | lia | exact Ep | by rewrite <- Ep | done | intros j Hj Hne; apply Hkn'; [lia | done]].
  unfold mbind at 1, st_bind at 1, on_heap. rewrite Hmal.
  pose proof Hmap as (Hm0 & Hm1 & _). rewrite (proj2 (Z.eqb_neq exec 0)) by lia.
  destruct (memset_loop_run (Z.to_nat (p_memsz p)) exec 0 (ram s)) as (m1 & E & Hw);
    [by rewrite Z2Nat.id by lia | unfold char_range; lia |].
  exists m1. split; [done|]. split.
  - split_and!; [done | done | done |]. intros i b Eb. rewrite Hw, decide_False; [by apply Hbytes|].
    rewrite length_replicate. apply lookup_lt_Some in Eb. lia.
  - unfold mbind at 1, st_bind at 1, on_ram, memset. cbn [ram heap_of]. by rewrite E.
Qed.

(** Loading an image with one segment.  When the memory for the process lies below the image of
    the file, image_load puts the bytes of the segment at its start and zeros behind them, changes
    nothing else, and returns the entry point moved to where the segment now is. *)
Lemma image_load_correct fuel file a k p (s : machine H) exec h1 h2 :
  image_at (ram s) a file -> loadable file k p ->
  ho_malloc (p_memsz p) (heap_of s) = Ret (exec, h1) -> mapped (ram s) exec (p_memsz p) ->
  exec + p_memsz p <= a ->
  protect_call p (u32 (exec + p_memsz p)) h1 = Ret (tt, h2) ->
  exists m, image_load fuel a s =
      Ret ((u32 (u32 (fword file 24 - p_paddr p) + exec), Some (exec, p_memsz p)), Machine m h2) /\
    written (ram s) m exec
      ((i8 <$> segment_bytes file p) ++ replicate (Z.to_nat (p_memsz p - p_filesz p)) 0).
Proof.
  intros Hi Hlo Hmal Hmap Hex Hprot.
  destruct (image_load_start fuel file a k p s exec h1 Hi Hlo Hmal Hmap (or_introl Hex)) as (m1 & Hw1 & Hi1 & ->).
  pose proof Hi as (Ha0 & Ha1 & Hb & _). destruct Hlo as [Hv Hl Hh (Hkn & Hkt & Hkn') Ep Hpa Hsz Hin].
  pose proof (fword_range file 28 Hb). pose proof (fbyte_range file 44 Hb). pose proof (fbyte_range file 45 Hb).
  assert (0 <= fhalf file 44) by (unfold fhalf; change (44 + 1) with 45; lia).
  set (n := Z.to_nat (fhalf file 44)) in *. rewrite (u32_small (a + fword file 28)) by lia.
  set (phdr := a + fword file 28). assert (u32 phdr = a + fword file 28) as Hphdr by (apply u32_small; lia).
  assert (0 <= p_offset p) by (rewrite <- Ep; cbn [p_offset fphdr]; apply fword_range; done).
  assert (mapped m1 exec (p_memsz p)) as Hmap1.
  { destruct Hmap as (Hm0 & Hm1 & Hm2). split_and!; [done | done |]. intros x Hx.
    apply (mapped_written _ _ _ _ Hw1), Hm2. lia. }
  destruct (copy_one file a phdr (fword file 28) Hphdr ltac:(lia) fuel p exec n k 0%nat (Machine m1 h1))
    as (m & E & Hw); try done; try lia; [rewrite <- Ep; exact Hkt | intros j Hj; apply Hkn'; lia |].
  unfold mbind at 1, st_bind at 1. change (Z.of_nat 0) with 0 in E. rewrite E. cbn [ram heap_of] in *.
  destruct (segment_spans file a m1 p Hi1 ltac:(done) ltac:(lia) Hin) as [Hlen _].
  assert (image_at m a file) as Hi2.
  { apply (image_at_written file a _ _ _ _ Hi1 Hw). rewrite length_fmap, Hlen. lia. }
  pose proof (protect_one file a phdr (fword file 28) Hphdr ltac:(lia) p exec h2 n k 0%nat (Machine m h1)) as Hp.
  change (Z.of_nat 0) with 0 in Hp. unfold mbind at 1, st_bind at 1.
  rewrite Hp; try done; try lia; [| rewrite <- Ep; exact Hkt | intros j Hj; apply Hkn'; lia].
  unfold mbind, st_bind, e_entry. cbn [ram].
  rewrite (word_at_run file a (Machine m h2) Hi2 (a + 24) 24) by (lia || apply u32_small; lia).
  exists m. split; [done|].
  pose proof (written_over _ _ _ _ _ _ Hw1 Hw) as Hfin.
  rewrite length_fmap, length_replicate, Hlen, drop_replicate in Hfin.
  replace (Z.to_nat (p_memsz p - p_filesz p)) with (Z.to_nat (p_memsz p) - Z.to_nat (p_filesz p))%nat by lia.
  apply Hfin. lia.
Qed.

Lemma image_load_invalid fuel file a (s : machine H) :
  image_at (ram s) a file -> 52 <= Z.of_nat (length file) -> valid_header file = false ->
  image_load fuel a s = Ret ((0, None), s).
Proof. intros Hi Hl Hv. unfold image_load, mbind, st_bind. by rewrite (is_image_valid_run file a s Hi Hl), Hv. Qed.

Lemma copy_stuck file a phdr o fuel p exec n k r : u32 phdr = a + o -> 0 <= o -> forall i (s : machine H),
  image_at (ram s) a file -> o + 32 * Z.of_nat (i + n) <= Z.of_nat (length file) ->
  (i <= k < i + n)%nat -> fphdr file (o + 32 * Z.of_nat k) = p -> p_type p = PT_LOAD ->
  0 < p_filesz p <= p_memsz p -> 0 <= p_offset p -> p_offset p + p_filesz p <= Z.of_nat (length file) ->
  a + Z.of_nat (length file) <= exec -> exec < 4294967296 ->
  (forall j, (i <= j < i + n)%nat -> j <> k -> p_type (fphdr file (o + 32 * Z.of_nat j)) <> PT_LOAD) ->
  copy_segments fuel n a phdr exec (Z.of_nat i) 0 0 s <> Ret r.
Proof.
  intros Hp Ho. induction n as [|n IH]; intros i s Hi Hl Hk Ep Ht Hf Hof Hfl Hex Hex' Hn; [lia|].
  cbn [copy_segments]. unfold mbind, st_bind.
  rewrite (phdr_at_run file a s Hi phdr o) by (lia || done).
  replace (Z.of_nat i + 1) with (Z.of_nat (S i)) by lia. destruct (decide (i = k)) as [->|Hne].
  - rewrite Ep, Ht, Z.eqb_refl, (proj2 (Z.ltb_ge _ _)), (proj2 (Z.eqb_neq (p_filesz p) 0)) by lia.
    cbn [negb]. pose proof Hi as (Ha0 & Ha1 & _).
    assert (u32 (exec + 0) = exec) as -> by (rewrite Z.add_0_r; apply u32_small; lia).
    assert (u32 (a + p_offset p) = a + p_offset p) as -> by (apply u32_small; lia).
    unfold on_ram. pose proof (memmove_up_stuck fuel exec (a + p_offset p) (p_filesz p) (ram s)) as Hst.
    destruct (memmove fuel exec (a + p_offset p) (p_filesz p) (ram s)) as [r'| | |]; try done.
    destruct (Hst r'); [lia | done].
  - rewrite (proj2 (Z.eqb_neq _ _)) by (apply Hn; lia). cbn [negb].
    apply IH; try done; try lia. intros j Hj. apply Hn. lia.
Qed.

(** When the memory for the process lies above the image of the file, loading never comes back:
    the copy is a memmove to a higher address. *)
Theorem image_load_never_returns fuel file a k p (s : machine H) exec h1 r :
  image_at (ram s) a file -> loadable file k p ->
  ho_malloc (p_memsz p) (heap_of s) = Ret (exec, h1) -> mapped (ram s) exec (p_memsz p) ->
  a + Z.of_nat (length file) <= exec -> image_load fuel a s <> Ret r.
Proof.
  intros Hi Hlo Hmal Hmap Hex.
  destruct (image_load_start fuel file a k p s exec h1 Hi Hlo Hmal Hmap (or_intror Hex)) as (m1 & Hw1 & Hi1 & ->).
  pose proof Hi as (Ha0 & Ha1 & Hb & _). destruct Hlo as [Hv Hl Hh (Hkn & Hkt & Hkn') Ep Hpa Hsz Hin].
  pose proof (fword_range file 28 Hb). pose proof (fbyte_range file 44 Hb). pose proof (fbyte_range file 45 Hb).
  assert (0 <= fhalf file 44) by (unfold fhalf; change (44 + 1) with 45; lia).
  assert (0 <= p_offset p) by (rewrite <- Ep; cbn [p_offset fphdr]; apply fword_range; done).
  assert (u32 (u32 (a + fword file 28)) = a + fword file 28) as Hphdr by (rewrite !u32_small; rewrite ?u32_small; lia).
  destruct Hmap as (Hm0 & Hm1 & _). unfold mbind at 1, st_bind at 1.
  destruct (copy_segments fuel (Z.to_nat (fhalf file 44)) a (u32 (a + fword file 28)) exec 0 0 0 (Machine m1 h1))
    as [r'| | |] eqn:E; try done. exfalso.
  refine (copy_stuck file a _ (fword file 28) fuel p exec (Z.to_nat (fhalf file 44)) k r' Hphdr ltac:(lia)
    0%nat (Machine m1 h1) Hi1 _ _ Ep _ Hsz ltac:(done) Hin Hex ltac:(lia) _ E); [lia | lia | rewrite <- Ep; exact Hkt |].
  intros j Hj. apply Hkn'. lia.
Qed.

End Theorems.

(** ** A small image

    One segment of four bytes in the file and eight in memory. *)

Definition le4 (z : Z) : list Z := [z mod 256; z / 256 mod 256; z / 65536 mod 256; z / 16777216].

Definition tiny_file : list Z :=
  [0x7f; 69; 76; 70] ++ replicate 12 0 ++ [2; 0; 3; 0] ++ le4 1 ++ le4 0x100002 ++ le4 52 ++ le4 0 ++ le4 0
  ++ [52; 0; 32; 0; 1; 0; 0; 0; 0; 0; 0; 0]
  ++ le4 1 ++ le4 84 ++ le4 0x100000 ++ le4 0x100000 ++ le4 4 ++ le4 8 ++ le4 7 ++ le4 4096
  ++ [0x90; 0x90; 0xc3; 0xff].

Definition tiny_phdr : Elf32_Phdr := Phdr 1 84 0x100000 0x100000 4 8 7 4096.

Lemma tiny_loadable : loadable tiny_file 0 tiny_phdr.
Proof.
  split; try (vm_compute; reflexivity); try (vm_compute; discriminate).
  - split; [vm_compute; lia|]. split; [reflexivity|]. intros i Hi Hne. vm_compute in Hi. lia.
  - split; vm_compute; [reflexivity | discriminate].
Qed.

(** A heap that gives the same address for every request. *)
Definition fixed_heap (exec : Z) : HeapOps unit :=
  {| ho_malloc := fun _ => mret exec; ho_free := fun _ => mret tt;
     ho_set_read_only := fun _ _ => mret tt; ho_unset_read_only := fun _ _ => mret tt |}.

Definition cells (a : Z) (l : list Z) : list (Z * Z) := zip (seqZ a (Z.of_nat (length l))) l.

Definition tiny_memory : memory :=
  list_to_map (cells 4096 (replicate 16 7) ++ cells 8192 (i8 <$> tiny_file) ++ cells 12288 (replicate 16 7)).

Lemma tiny_image : image_at tiny_memory 8192 tiny_file.
Proof.
  split_and!; [lia | vm_compute; reflexivity | |].
  - apply Forall_forall. intros b Hb.
    assert (forallb (fun b => (0 <=? b) && (b <? 256)) tiny_file = true) as Hall by (vm_compute; reflexivity).
    rewrite forallb_forall in Hall. specialize (Hall b (proj1 (list_elem_of_In _ _) Hb)). lia.
  - intros i b Eb.
    assert (forallb (fun i => bool_decide (tiny_memory !! (8192 + Z.of_nat i) = i8 <$> (tiny_file !! i)))
      (seq 0 (length tiny_file)) = true) as Hall by (vm_compute; reflexivity).
    rewrite forallb_forall in Hall. specialize (Hall i).
    assert (In i (seq 0 (length tiny_file))) as Hin by (apply in_seq; apply lookup_lt_Some in Eb; lia).
    rewrite (bool_decide_eq_true_1 _ (Hall Hin)), Eb. done.
Qed.

Lemma tiny_mapped e : e = 4096 \/ e = 12288 -> mapped tiny_memory e 8.
Proof.
  intros He. split; [lia|]. split; [lia|]. intros x Hx.
  assert (forallb (fun x => bool_decide (is_Some (tiny_memory !! x))) (seqZ 4096 8 ++ seqZ 12288 8) = true) as Hall
    by (vm_compute; reflexivity).
  rewrite forallb_forall in Hall. apply (bool_decide_eq_true_1 _). apply Hall.
  apply list_elem_of_In, elem_of_app. rewrite !elem_of_seqZ. lia.
Qed.

Lemma image_load_correct_witness :
  exists m, image_load (H0 := fixed_heap 4096) 0 8192 (Machine tiny_memory tt) = Ret ((4098, Some (4096, 8)), Machine m tt) /\
    m !! 4098 = Some (i8 0xc3) /\ m !! 4101 = Some 0.
Proof.
  destruct (image_load_correct (H0 := fixed_heap 4096) 0 tiny_file 8192 0 tiny_phdr (Machine tiny_memory tt) 4096 tt tt)
    as (m & E & Hw).
  - exact tiny_image.
  - exact tiny_loadable.
  - reflexivity.
  - apply tiny_mapped. by left.
  - vm_compute. discriminate.
  - reflexivity.
  - exists m. split; [exact E|]. split; [exact (Hw 4098) | exact (Hw 4101)].
Defined.

Lemma image_load_never_returns_witness :
  image_load (H0 := fixed_heap 12288) 1000 8192 (Machine tiny_memory tt) <> Ret ((0, None), Machine tiny_memory tt).
Proof.
  apply (image_load_never_returns (H0 := fixed_heap 12288) 1000 tiny_file 8192 0 tiny_phdr (Machine tiny_memory tt) 12288 tt).
  - exact tiny_image.
  - exact tiny_loadable.
  - reflexivity.
  - apply tiny_mapped. by right.
  - vm_compute. discriminate.
Defined.
