(* ===== verification/Exec.v ===== *)
(** * Running a program ([kernel/exec.c])

    [kexecve]: the file is read into memory, a script is handed to its
    interpreter, and an image replaces that of the process.  An argument vector is
    the address of its array and, for each element, the address and the characters
    of the string; the characters of the vectors [kexecve] builds are kept there
    and not in the memory, so the second terminator that [strncpy] stores behind
    them is not seen.  The switch to another process at the end is the
    scheduler's. *)

From S2P Require Import Prelude Device Layout Paths Store Tree File Dir Page Heap CString Elf.

Definition EXEC_MAX_RECURSION : Z := 16.

Record argv_t := Argv { av_addr : Z; av_args : list (Z * list Z) }.

Definition null_argv : argv_t := Argv 0 [].

(** The fields of the process that execution sets. *)
Record image_t := Image {
  p_exec : Z; p_exec_size : Z; p_elf_entry : Z; p_argc : Z; p_argv : argv_t; p_envp : Z;
  p_delete_argv : bool; p_first_exec : bool
}.

Record execs (S H : Type) := Execs {
  x_dirs : dirs S;
  x_machine : machine H;
  x_image : image_t;
  nr_recursion : Z
}.
Arguments Execs {S H}.
Arguments x_dirs {S H} _.
Arguments x_machine {S H} _.
Arguments x_image {S H} _.
Arguments nr_recursion {S H} _.

Definition isspace (c : Z) : bool := (c =? 0x20) || ((0x09 <=? c) && (c <=? 0x0d)).

(** ** The first line of a script *)

(** The buffer and the string literal [strtok] works on, somewhere in memory. *)
Definition ARGS : Z := 4096.
Definition DELIM : Z := 8192.
Definition scratch (args : list Z) : memory :=
  list_to_map (zip (seqZ ARGS (Z.of_nat (length args))) args ++ [(DELIM, 0x20); (DELIM + 1, 0x09); (DELIM + 2, 0)]).

(** The characters from [p] to the NUL. *)
Fixpoint string_from (fuel : nat) (p : Z) (m : memory) : outcome (list Z) :=
  match fuel with
  | O => NoFuel
  | S fuel => c ← ld m p; if c =? 0 then Ret [] else l ← string_from fuel (inc p) m; Ret (c :: l)
  end.

(** The tokens, by calls of [strtok] until it returns NULL. *)
Fixpoint tokens (n fuel : nat) (s saved : Z) (m : memory) : outcome (list (list Z)) :=
  match n with
  | O => NoFuel
  | S n =>
      r ← strtok fuel saved s DELIM m;
      let '(arg, saved, m) := r in
      if arg =? 0 then Ret []
      else
        t ← string_from fuel arg m;
        l ← tokens n fuel 0 saved m; Ret (t :: l)
  end.

(** The tokens of a buffer of [MAX_PATH] characters; the buffer must hold a NUL. *)
Definition args_tokens (args : list Z) : outcome (list (list Z)) :=
  tokens (S (length args)) (S (length args) + 3) ARGS 0 (scratch args).

Section Code.
Context {T H : Type} `{FsOps T} `{DevOps T} `{HeapOps H} (who : caller) (umask : Z) (depth steps fuel : nat).

Abbreviation X := (execs T H).

Definition on_dirs {A} (m : st (dirs T) A) : st X A := fun s =>
  match m (x_dirs s) with
  | Ret (a, d) => Ret (a, Execs d (x_machine s) (x_image s) (nr_recursion s))
  | Panic => Panic | Fault => Fault | NoFuel => NoFuel
  end.

Definition on_machine {A} (m : st (machine H) A) : st X A := fun s =>
  match m (x_machine s) with
  | Ret (a, h) => Ret (a, Execs (x_dirs s) h (x_image s) (nr_recursion s))
  | Panic => Panic | Fault => Fault | NoFuel => NoFuel
  end.

Definition set_image (i : image_t) : st X unit := modify (fun s => Execs (x_dirs s) (x_machine s) i (nr_recursion s)).
Definition set_recursion (n : Z) : st X unit := modify (fun s => Execs (x_dirs s) (x_machine s) (x_image s) n).

Definition mal (n : Z) : st X Z := on_machine (on_heap (ho_malloc n)).
Definition fre (a : Z) : st X unit := on_machine (on_heap (ho_free a)).
Definition char_of (a : Z) : st X Z := on_machine (on_ram (fun m => c ← ld m (u32 a); Ret (c, m))).

(** ** Files *)

(** The bytes of a buffer, and storing them. *)
Fixpoint fetch (n : nat) (a : Z) (m : memory) : outcome (list Z) :=
  match n with
  | O => Ret []
  | S n => c ← ld m a; l ← fetch n (inc a) m; Ret (u8 c :: l)
  end.

Fixpoint store (l : list Z) (a : Z) (m : memory) : outcome memory :=
  match l with
  | [] => Ret m
  | b :: l => m ← sto m a b; store l (inc a) m
  end.

Definition read_into (fd mem size : Z) : st X Z :=
  buf ← on_machine (on_ram (fun m => l ← fetch (Z.to_nat size) mem m; Ret (l, m)));
  r ← on_dirs (on_files (kread who fd buf size));
  _ ← on_machine (on_ram (fun m => m ← store r.2 mem m; Ret (tt, m)));
  mret r.1.

(** The image and its size, when the result is 1. *)
Definition file_load (filename : option (list Z)) : st X (option (Z * Z)) :=
  match filename with
  | None => mret None
  | Some path =>
      r ← on_dirs (on_files (kstat who depth steps path true));
      let stbuf := default (Stat 0 0 0 0 0 0 0 0 0 0 0 0 0) r.2 in
      if r.1 =? -1 then mret None
      else
        mem ← mal (u32 (st_size stbuf + 1));
        if mem =? 0 then mret None
        else
          fd ← on_dirs (on_files (kopen who umask depth steps path O_RDONLY));
          if fd =? -1 then _ ← fre mem; mret None
          else
            n ← read_into fd mem (st_size stbuf);
            if negb (u32 n =? st_size stbuf) then
              _ ← fre mem; _ ← on_dirs (on_files (kclose who fd)); mret None
            else
              _ ← on_machine (on_ram (fun m => m ← sto m (u32 (mem + st_size stbuf)) 0; Ret (tt, m)));
              _ ← on_dirs (on_files (kclose who fd));
              mret (Some (mem, st_size stbuf))
  end.

Definition file_unload (image : Z) : st X bool :=
  if image =? 0 then mret false else _ ← fre image; mret true.

(** ** Scripts *)

(** The index of the first character from [i] on whose being a space is [want];
    0 when there is none before the end. *)
Fixpoint find_space (n : nat) (want : bool) (image i : Z) : st X Z :=
  match n with
  | O => mret 0
  | S n =>
      c ← char_of (image + i);
      if Bool.eqb (isspace c) want then mret i else find_space n want image (i + 1)
  end.

(** The name of the interpreter; [None] when it is too long. *)
Fixpoint copy_name (n : nat) (image i : Z) (l : list Z) : st X (option (list Z)) :=
  match n with
  | O => mret (Some l)
  | S n =>
      if (MAX_PATH <=? length l)%nat then mret None
      else c ← char_of (image + i); copy_name n image (i + 1) (l ++ [c])
  end.

(** The rest of the line; [args] has [MAX_PATH] characters. *)
Fixpoint copy_args (n : nat) (image i : Z) (l : list Z) : st X (list Z) :=
  match n with
  | O => mret l
  | S n =>
      c ← char_of (image + i);
      if c =? 10 then mret l
      else if (MAX_PATH <=? length l)%nat then fault
      else copy_args n image (i + 1) (l ++ [c])
  end.

Definition buffer (l : list Z) : list Z := l ++ replicate (MAX_PATH - length l) 0.

(** The string a buffer holds; without a NUL its end is not in the buffer. *)
Fixpoint c_string (l : list Z) : outcome (list Z) :=
  match l with
  | [] => Fault
  | c :: l => if c =? 0 then Ret [] else l ← c_string l; Ret (c :: l)
  end.

(** An element of [argv2]: writing through NULL is a fault. *)
Definition push_arg (limit : bool) (t : list Z) (v : argv_t) : st X argv_t :=
  let t := if limit then firstn 1024 t else t in
  p ← mal (Z.of_nat (length t) + 1);
  if (av_addr v =? 0) || (p =? 0) then fault else mret (Argv (av_addr v) (av_args v ++ [(p, t)])).

(** The tokens of the first line; [None] is the early return. *)
Fixpoint line_args (l : list (list Z)) (v : argv_t) : st X (option argv_t) :=
  match l with
  | [] => mret (Some v)
  | t :: l =>
      v ← (if av_addr v =? 0 then p ← mal (4 * Z.of_nat MAX_PATH + 1); mret (Argv p []) else mret v);
      if (MAX_PATH <=? length (av_args v))%nat then _ ← fre (av_addr v); mret None
      else v ← push_arg false t v; line_args l v
  end.

(** The arguments of the caller: what is left of them when the array is full. *)
Fixpoint rest_args (l : list (Z * list Z)) (v : argv_t) : st X (argv_t * list (Z * list Z)) :=
  match l with
  | [] => mret (v, [])
  | t :: l' =>
      if (MAX_PATH <=? length (av_args v))%nat then mret (v, l)
      else v ← push_arg true t.2 v; rest_args l' v
  end.

(** Interpreter and argument vector of a script, [None] for the return of -1. *)
Definition parse_script (image size : Z) (argv : argv_t) : st X (option (list Z * argv_t)) :=
  start ← find_space (Z.to_nat (size - 2)) false image 2;
  end_ ← find_space (Z.to_nat (size - (start + 1))) true image (start + 1);
  name ← copy_name (Z.to_nat (end_ - start)) image start [];
  match name with
  | None => mret None
  | Some name =>
      line ← copy_args (Z.to_nat (size - end_)) image end_ [];
      toks ← lift (args_tokens (buffer line));
      v ← line_args toks null_argv;
      match v with
      | None => mret None
      | Some v =>
          r ← (if av_addr argv =? 0 then fault else rest_args (av_args argv) v);
          let '(v, remain) := r in
          if negb (bool_decide (remain = [])) then _ ← fre (av_addr v); mret None
          else if (MAX_PATH <=? length (av_args v))%nat then _ ← fre (av_addr v); mret None
          else if av_addr v =? 0 then fault
          else mret (Some (buffer name, v))
      end
  end.

(** ** Replacing the process *)

(** Closing the descriptors: for each one, every entry of [file_tab] it may
    refer to. *)
Fixpoint close_desc (n : nat) (i j : nat) : st X unit :=
  match n with
  | O => mret tt
  | S n =>
      s ← get;
      e ← checked (file_desc (d_files (x_dirs s)) !! i);
      _ ← (if bool_decide (e = Some j) then on_dirs (on_files (kclose who (Z.of_nat i))) else mret 0);
      close_desc n i (j + 1)
  end.

Fixpoint close_files (n : nat) (i : nat) : st X unit :=
  match n with
  | O => mret tt
  | S n => _ ← close_desc MAX_FILES i 0; close_files n (i + 1)
  end.

Fixpoint close_dirs (n : nat) (i : nat) : st X unit :=
  match n with
  | O => mret tt
  | S n =>
      s ← get;
      d ← checked (dir_tab (x_dirs s) !! i);
      _ ← (if __allocation d =? DEV_BLOCK_SIZE then on_dirs (kclosedir who (Some i)) else mret 0);
      close_dirs n (i + 1)
  end.

Fixpoint free_args (n : nat) (l : list (Z * list Z)) : st X unit :=
  match n, l with
  | O, _ => mret tt
  | S n, (p, _) :: l => _ ← fre p; free_args n l
  | S n, [] => fault
  end.

(** The memory and the arguments of the program that ends. *)
Definition release_old : st X unit :=
  s ← get;
  let i := x_image s in
  _ ← (if p_exec i =? 0 then mret tt
       else _ ← on_machine (on_heap (ho_unset_read_only (p_exec i) (p_exec_size i))); fre (p_exec i));
  if p_delete_argv i then
    _ ← free_args (Z.to_nat (p_argc i)) (av_args (p_argv i)); fre (av_addr (p_argv i))
  else mret tt.

Definition replace_image (entry : Z) (mem : option (Z * Z)) (argc : Z) (argv2 : argv_t) (envp : Z) (del : bool) : st X unit :=
  _ ← release_old;
  _ ← close_files MAX_FILES 0;
  _ ← close_dirs MAX_DIR 0;
  let '(exec, exec_size) := default (0, 0) mem in
  set_image (Image exec exec_size entry argc argv2 envp del true).

(** An image that is no script, loaded at [image]. *)
Definition exec_binary (image : Z) (argv : argv_t) (envp : Z) : st X Z :=
  s ← get;
  let recursive := negb (nr_recursion s =? 0) in
  let argv2 := if recursive then null_argv else argv in
  if av_addr argv2 =? 0 then fault
  else
    let argc := Z.of_nat (length (av_args argv2)) in
    _ ← set_recursion (nr_recursion s - 1);
    r ← on_machine (image_load fuel image);
    u ← file_unload image;
    if negb u then
      s ← get;
      _ ← (if nr_recursion s =? 0 then mret tt
           else _ ← free_args (Z.to_nat argc) (av_args argv2); fre (av_addr argv2));
      mret (-1)
    else
      _ ← replace_image r.1 r.2 argc argv2 envp recursive;
      mret 0.

(** [depth_left] bounds the chain of interpreters. *)
Fixpoint kexecve (depth_left : nat) (filename : option (list Z)) (argv : argv_t) (envp : Z) : st X Z :=
  match depth_left with
  | O => lift NoFuel
  | S depth_left =>
      l ← file_load filename;
      match l with
      | None => mret (-1)
      | Some (image, image_size) =>
          c0 ← char_of image;
          c1 ← (if c0 =? 35 then char_of (image + 1) else mret 0);
          if (c0 =? 35) && (c1 =? 33) then
            r ← parse_script image image_size argv;
            match r with
            | None => mret (-1)
            | Some (interpreter, argv2) =>
                u ← file_unload image;
                if negb u then _ ← fre (av_addr argv2); mret (-1)
                else
                  s ← get;
                  if EXEC_MAX_RECURSION <? nr_recursion s then mret (-1)
                  else
                    _ ← set_recursion (nr_recursion s + 1);
                    name ← lift (c_string interpreter);
                    kexecve depth_left (Some name) argv2 envp
            end
          else exec_binary image argv envp
      end
  end.

(** The first thing a new program runs: the call of its entry point, with its
    arguments. *)
Definition kstart : st X (Z * Z * argv_t * Z) :=
  s ← get;
  let i := x_image s in
  if p_elf_entry i =? 0 then panic else mret (p_elf_entry i, p_argc i, p_argv i, p_envp i).

End Code.

(** ** A process without open files *)

Section Proofs.
Context {T H : Type} `{FsOps T} `{DevOps T} `{HeapOps H} (who : caller) (umask : Z) (depth steps fuel : nat).

Abbreviation X := (execs T H).

Record nothing_open (d : dirs T) : Prop := {
  no_desc : file_desc (d_files d) = replicate MAX_FILES None;
  no_dirs : length (dir_tab d) = MAX_DIR /\ Forall (fun e => __allocation e <> DEV_BLOCK_SIZE) (dir_tab d)
}.

Lemma close_desc_none n : forall i j (s : X),
  file_desc (d_files (x_dirs s)) !! i = Some None -> close_desc who n i j s = Ret (tt, s).
Proof.
  induction n as [|n IH]; intros i j s E; [done|]. cbn [close_desc].
  unfold mbind, st_bind, get, checked. rewrite E, bool_decide_false by done. by apply IH.
Qed.

Lemma close_files_none n : forall i (s : X),
  nothing_open (x_dirs s) -> (i + n <= MAX_FILES)%nat -> close_files who n i s = Ret (tt, s).
Proof.
  induction n as [|n IH]; intros i s Hn Hi; [done|]. cbn [close_files]. unfold mbind, st_bind.
  rewrite close_desc_none.
  - apply IH; [done | lia].
  - rewrite (no_desc _ Hn). apply lookup_replicate_2. lia.
Qed.

Lemma close_dirs_none n : forall i (s : X),
  nothing_open (x_dirs s) -> (i + n <= MAX_DIR)%nat -> close_dirs who n i s = Ret (tt, s).
Proof.
  induction n as [|n IH]; intros i s Hn Hi; [done|]. cbn [close_dirs].
  unfold mbind, st_bind, get, checked. destruct (no_dirs _ Hn) as [Hl Hf].
  destruct (lookup_lt_is_Some_2 (dir_tab (x_dirs s)) i) as [d Ed]; [lia|]. rewrite Ed.
  rewrite (proj2 (Z.eqb_neq _ _)) by exact (proj1 (Forall_lookup _ _) Hf _ _ Ed).
  apply IH; [done | lia].
Qed.

(** A process that never ran a program of its own. *)
Definition fresh_image (i : image_t) : Prop := p_exec i = 0 /\ p_delete_argv i = false.

Lemma replace_image_run entry mem argc argv envp del (s : X) :
  fresh_image (x_image s) -> nothing_open (x_dirs s) ->
  replace_image who entry mem argc argv envp del s =
    Ret (tt, Execs (x_dirs s) (x_machine s)
      (Image (default (0, 0) mem).1 (default (0, 0) mem).2 entry argc argv envp del true) (nr_recursion s)).
Proof.
  intros [He Hd] Hn. unfold replace_image, release_old, mbind, st_bind, get.
  rewrite He, Hd. cbn [Z.eqb]. unfold mret at 1 2, st_ret at 1 2.
  rewrite close_files_none, close_dirs_none by (done || lia).
  by destruct (default (0, 0) mem).
Qed.

(** From the image in memory on. *)
Lemma exec_binary_run image argv envp (s : X) r m h :
  nr_recursion s = 0 -> av_addr argv <> 0 -> image <> 0 ->
  fresh_image (x_image s) -> nothing_open (x_dirs s) ->
  image_load fuel image (x_machine s) = Ret (r, m) -> ho_free image (heap_of m) = Ret (tt, h) ->
  exec_binary who fuel image argv envp s =
    Ret (0, Execs (x_dirs s) (Machine (ram m) h)
      (Image (default (0, 0) r.2).1 (default (0, 0) r.2).2 r.1 (Z.of_nat (length (av_args argv))) argv envp false true) (-1)).
Proof.
  intros Hr Ha Hi Hf Hn El Eh. unfold exec_binary, mbind, st_bind, get. rewrite Hr. cbn [Z.eqb negb].
  rewrite (proj2 (Z.eqb_neq _ _) Ha). unfold set_recursion, modify.
  unfold on_machine at 1. cbn [x_machine]. rewrite El.
  unfold file_unload, mbind, st_bind, fre, on_machine, on_heap, mret, st_ret. rewrite (proj2 (Z.eqb_neq _ _) Hi).
  cbn [x_machine heap_of ram x_dirs x_image nr_recursion]. rewrite Eh. cbn [negb].
  rewrite replace_image_run by done. cbn [x_dirs x_machine nr_recursion]. reflexivity.
Qed.

(** Any program but the first: the counter of interpreters is no longer 0, and
    the arguments are taken for those of an interpreter. *)
Lemma exec_binary_again image argv envp (s : X) :
  nr_recursion s <> 0 -> exec_binary who fuel image argv envp s = Fault.
Proof.
  intros Hr. unfold exec_binary, mbind, st_bind, get. by rewrite (proj2 (Z.eqb_neq _ _) Hr).
Qed.

Lemma char_of_run file image i b (s : X) :
  image_at (ram (x_machine s)) image file -> file !! i = Some b -> char_of (image + Z.of_nat i) s = Ret (i8 b, s).
Proof.
  intros (Ha0 & Ha1 & Hb & Hm) E. unfold char_of, on_machine, on_ram, ld.
  rewrite u32_small by (apply lookup_lt_Some in E; lia). rewrite (Hm _ _ E). cbn. by destruct s as [? [] ? ?].
Qed.

(** A file that is no script reaches [exec_binary]. *)
Lemma kexecve_binary n filename argv envp (x x1 : X) image size file :
  file_load who umask depth steps filename x = Ret (Some (image, size), x1) ->
  image_at (ram (x_machine x1)) image file -> 2 <= Z.of_nat (length file) ->
  (fbyte file 0 <> 35 \/ fbyte file 1 <> 33) ->
  kexecve who umask depth steps fuel (S n) filename argv envp x = exec_binary who fuel image argv envp x1.
Proof.
  intros El Hi Hl Hs. cbn [kexecve]. unfold mbind, st_bind. rewrite El.
  destruct (lookup_lt_is_Some_2 file 0) as [b0 E0]; [lia|].
  destruct (lookup_lt_is_Some_2 file 1) as [b1 E1]; [lia|].
  pose proof Hi as (Ha0 & Ha1 & Hb & Hm).
  pose proof (proj1 (Forall_lookup _ _) Hb _ _ E0) as H0'. pose proof (proj1 (Forall_lookup _ _) Hb _ _ E1) as H1'.
  cbv beta in H0', H1'.
  pose proof (char_of_run file image 0 b0 x1 Hi E0) as C0. rewrite Z.add_0_r in C0. rewrite C0.
  pose proof (char_of_run file image 1 b1 x1 Hi E1) as C1. change (Z.of_nat 1) with 1 in C1.
  unfold fbyte in Hs. change (Z.to_nat 0) with 0%nat in Hs. change (Z.to_nat 1) with 1%nat in Hs.
  rewrite E0, E1 in Hs. cbn [default] in Hs.
  assert (forall b c, 0 <= b < 256 -> 0 <= c < 128 -> i8 b = c -> b = c) as Hi8.
  { intros b c Hb' Hc' E. rewrite <- (u8_i8 b) by done. rewrite E. apply u8_small. lia. }
  destruct (Z.eqb_spec (i8 b0) 35) as [Hc0|Hc0].
  - rewrite C1. apply Hi8 in Hc0; [|lia|lia]. destruct (Z.eqb_spec (i8 b1) 33) as [Hc1|Hc1]; [|done].
    apply Hi8 in Hc1; [|lia|lia]. cbn in Hs. lia.
  - unfold mret at 1, st_ret at 1. done.
Qed.

End Proofs.
