(* ===== verification/ExecSpec.v ===== *)
(** * What running a program does

    The calls of [kernel/exec.c] on a process that has nothing open, and a small
    program in a small file system. *)

From S2P Require Import Prelude Page Heap CString Elf.
From S2P Require Import Errno Layout Perms Alloc Store StoreSpec Paths PathsSpec Tree TreeSpec CreateSpec.
From S2P Require Import FileIO FileSpec FileCorrect File FdSpec TreeRuns FileRuns Dir Exec.

Section Spec.
Context {T H : Type} `{FsOps T} `{DevOps T} `{HeapOps H} (who : caller) (umask : Z) (depth steps fuel : nat).

Abbreviation X := (execs T H).

(** The process after [file_load], ready to be replaced. *)
Record ready (x : X) (image : Z) (file : list Z) : Prop := {
  rd_image : image_at (ram (x_machine x)) image file;
  rd_length : 52 <= Z.of_nat (length file);
  rd_first : nr_recursion x = 0;
  rd_fresh : fresh_image (x_image x);
  rd_closed : nothing_open (x_dirs x)
}.

Lemma valid_no_script file : valid_header file = true -> fbyte file 0 <> 35 \/ fbyte file 1 <> 33.
Proof. unfold valid_header. rewrite !andb_true_iff, Z.eqb_eq. intros (((((((Hb & _) & _) & _) & _) & _) & _) & _). left. lia. Qed.

(** The tail of [kexecve] once [image_load] has an answer. *)
Lemma kexecve_loaded n filename argv envp (x x1 : X) image size file r m h :
  file_load who umask depth steps filename x = Ret (Some (image, size), x1) -> ready x1 image file ->
  (fbyte file 0 <> 35 \/ fbyte file 1 <> 33) -> av_addr argv <> 0 ->
  image_load fuel image (x_machine x1) = Ret (r, m) -> ho_free image (heap_of m) = Ret (tt, h) ->
  kexecve who umask depth steps fuel (S n) filename argv envp x =
    Ret (0, Execs (x_dirs x1) (Machine (ram m) h)
      (Image (default (0, 0) r.2).1 (default (0, 0) r.2).2 r.1 (Z.of_nat (length (av_args argv))) argv envp false true) (-1)).
Proof.
  intros El [Hi Hl Hr Hf Hc] Hs Ha Ei Eh. pose proof Hi as (Hp & _).
  rewrite (kexecve_binary who umask depth steps fuel n filename argv envp x x1 image size file) by (done || lia).
  apply exec_binary_run; done || lia.
Qed.


(** A file that is no program replaces the process all the same: image_load answers 0, which
    kexecve does not look at; it returns 0, the process is left without memory, and when it is next
    scheduled the machine panics. *)
Theorem kexecve_invalid_panics n filename argv envp (x x1 : X) image size file h :
  file_load who umask depth steps filename x = Ret (Some (image, size), x1) -> ready x1 image file ->
  valid_header file = false -> (fbyte file 0 <> 35 \/ fbyte file 1 <> 33) -> av_addr argv <> 0 ->
  ho_free image (heap_of (x_machine x1)) = Ret (tt, h) ->
  exists x2, kexecve who umask depth steps fuel (S n) filename argv envp x = Ret (0, x2) /\
    p_exec (x_image x2) = 0 /\ kstart x2 = Panic.
Proof.
  intros El Hr Hv Hs Ha Ef. eexists. split; [apply (kexecve_loaded n filename argv envp x x1 image size file (0, None) (x_machine x1) h); try done|split; reflexivity].
  apply (image_load_invalid fuel file); [apply Hr | apply Hr | done].
Qed.

(** The next call of [kexecve] for a program, by any process: the counter of
    interpreters went below 0, and the argument vector is taken for that of an
    interpreter, which is NULL. *)
Lemma kexecve_again_faults n filename argv envp (x x1 : X) image size file :
  file_load who umask depth steps filename x = Ret (Some (image, size), x1) -> image_at (ram (x_machine x1)) image file ->
  2 <= Z.of_nat (length file) -> (fbyte file 0 <> 35 \/ fbyte file 1 <> 33) -> nr_recursion x1 <> 0 ->
  kexecve who umask depth steps fuel (S n) filename argv envp x = Fault.
Proof.
  intros El Hi Hl Hs Hr. rewrite (kexecve_binary who umask depth steps fuel n filename argv envp x x1 image size file) by done.
  by apply exec_binary_again.
Qed.

End Spec.

(** ** Two programs in a small file system *)

(** A heap that gives out the addresses of a list. *)
#[local] Instance list_heap : HeapOps (list Z) := {|
  ho_malloc _ := fun h => match h with [] => Ret (0, []) | a :: h => Ret (a, h) end;
  ho_free _ := mret tt;
  ho_set_read_only _ _ := mret tt;
  ho_unset_read_only _ _ := mret tt
|}.

Definition file_of (l : list Z) : st (files mem) (Z * Z * Z) :=
  fd ← kopen me 0 3 5 (rooted path_f) (Z.lor O_CREAT O_RDWR);
  n ← kwrite me fd l (Z.of_nat (length l));
  r ← kclose me fd;
  mret (fd, n, r).

Definition program : tree mem := Eval vm_compute in f_tree (final_state (file_of tiny_file) idle).
Definition plain_text : list Z := replicate 60 120.
Definition text : tree mem := Eval vm_compute in f_tree (final_state (file_of plain_text) idle).

Definition no_image : image_t := Image 0 0 0 0 null_argv 0 false false.
Definition two_args : argv_t := Argv 500 [(600, [97]); (602, [98])].

Definition machine_0 : machine (list Z) :=
  Machine (list_to_map (Elf.cells 4096 (replicate 16 7) ++ Elf.cells 8192 (replicate 100 1))) [8192; 4096].

Definition calm (t : tree mem) (m : machine (list Z)) : execs mem (list Z) :=
  Execs (Dirs (Files t (replicate 2 zero_inode) (replicate MAX_FILES None) mem_root) (replicate MAX_DIR zero_dir)) m no_image 0.

Definition load_f : st (execs mem (list Z)) (option (Z * Z)) :=
  file_load me 0 3 5 (Some (rooted path_f)).

Definition before (t : tree mem) : execs mem (list Z) := calm t machine_0.
Definition tree_of (x : execs mem (list Z)) : tree mem := f_tree (d_files (x_dirs x)).
Definition program_after : execs mem (list Z) :=
  calm ltac:(let t := eval vm_compute in (tree_of (final_state load_f (before program))) in exact t)
       ltac:(let m := eval vm_compute in (x_machine (final_state load_f (before program))) in exact m).
Definition text_after : execs mem (list Z) :=
  calm ltac:(let t := eval vm_compute in (tree_of (final_state load_f (before text))) in exact t)
       ltac:(let m := eval vm_compute in (x_machine (final_state load_f (before text))) in exact m).

Lemma program_loads : file_load me 0 3 5 (Some (rooted path_f)) (before program) = Ret (Some (8192, 88), program_after).
Proof. vm_compute. reflexivity. Qed.

Lemma text_loads : file_load me 0 3 5 (Some (rooted path_f)) (before text) = Ret (Some (8192, 60), text_after).
Proof. vm_compute. reflexivity. Qed.

Lemma image_check m a f : 0 < a -> a + Z.of_nat (length f) < 4294967296 -> forallb is_byte f = true ->
  forallb (fun i => bool_decide (m !! (a + Z.of_nat i) = i8 <$> (f !! i))) (seq 0 (length f)) = true -> image_at m a f.
Proof.
  intros Ha Hl Hb Hm. split_and!; [done | done | |].
  - apply Forall_forall. intros b Hin. rewrite forallb_forall in Hb.
    specialize (Hb b (proj1 (list_elem_of_In _ _) Hin)). unfold is_byte in Hb. lia.
  - intros i b Eb. rewrite forallb_forall in Hm. specialize (Hm i).
    assert (In i (seq 0 (length f))) as Hin by (apply in_seq; apply lookup_lt_Some in Eb; lia).
    rewrite (bool_decide_eq_true_1 _ (Hm Hin)), Eb. done.
Qed.

Lemma calm_closed t m : nothing_open (x_dirs (calm t m)).
Proof.
  split; [reflexivity|]. split; [exact (length_replicate _ _)|].
  apply Forall_forall. intros d Hd. apply elem_of_replicate in Hd as [-> _]. done.
Qed.

Lemma program_ready : ready program_after 8192 tiny_file.
Proof.
  split; [|vm_compute; discriminate|reflexivity|by split|apply calm_closed].
  apply image_check; [lia|vm_compute; reflexivity..].
Qed.

Lemma text_ready : ready text_after 8192 plain_text.
Proof.
  split; [|vm_compute; discriminate|reflexivity|by split|apply calm_closed].
  apply image_check; [lia|vm_compute; reflexivity..].
Qed.


Lemma kexecve_invalid_panics_witness :
  exists x2, kexecve me 0 3 5 100 1 (Some (rooted path_f)) two_args 700 (before text) = Ret (0, x2) /\ kstart x2 = Panic.
Proof.
  destruct (kexecve_invalid_panics me 0 3 5 100 0 (Some (rooted path_f)) two_args 700 (before text) text_after 8192 60
    plain_text [4096]) as (x2 & E & _ & Hk).
  - exact text_loads.
  - exact text_ready.
  - vm_compute. reflexivity.
  - left. vm_compute. discriminate.
  - discriminate.
  - reflexivity.
  - exists x2. split; [exact E | exact Hk].
Defined.

(** ** Scripts *)

(** [#!/f -a x] and [#!/f] *)
Definition script : list Z := [35; 33; 47; 102; 32; 45; 97; 32; 120; 10; 113; 10].
Definition bare_script : list Z := [35; 33; 47; 102; 10; 113; 10].

Definition with_script (l : list Z) : execs mem (list Z) :=
  calm text (Machine (list_to_map (Elf.cells 8192 (l ++ [0]))) (seqZ 100 50)).

Definition parsed (l : list Z) : outcome (option (list Z * list (list Z))) :=
  match parse_script 8192 (Z.of_nat (length l)) two_args (with_script l) with
  | Ret (Some (name, v), _) => n ← c_string name; Ret (Some (n, (av_args v).*2))
  | Ret (None, _) => Ret None
  | Panic => Panic | Fault => Fault | NoFuel => NoFuel
  end.

(** The arguments of the line come first, then those of the caller. *)
Example script_arguments : parsed script = Ret (Some ([47; 102], [[45; 97]; [120]; [97]; [98]])).
Proof. vm_compute. reflexivity. Qed.

(** A line without arguments leaves [argv2] NULL, and the arguments of the caller
    are stored through it. *)
Lemma bare_script_faults : parsed bare_script = Fault.
Proof. vm_compute. reflexivity. Qed.
