(* ===== verification/Fork.v ===== *)
(** * Making processes ([kernel/fork.c])

    The scheduler's part of a process is in [kstate]; the rest of
    [struct process] that [kfork] fills (memory image, arguments, files,
    directories and the task state segment but its [eip]) is a [body] at the same
    address.  User memory and its heap are reached through one instance of
    [HeapOps], the kernel's heap through another.  An element of [file_desc] is a
    pointer: into a [file_tab], or, as [kfork] writes it, to an element of a
    [file_desc]. *)

From S2P Require Import Prelude Layout Paths Store Tree FileIO File Dir Page Segment CString Elf Exec Process.

(** [struct tss] *)
Record tss := Tss {
  t_link : Z; t_esp0 : Z; t_ss0 : Z; t_cr3 : Z; t_eflags : Z; t_eax : Z; t_ebx : Z; t_ecx : Z;
  t_edx : Z; t_esp : Z; t_ebp : Z; t_esi : Z; t_edi : Z; t_es : Z; t_cs : Z; t_ss : Z; t_ds : Z;
  t_fs : Z; t_gs : Z; t_i387 : list Z
}.

(** [struct cpu_ctx]: the registers of the caller. *)
Record cpu_ctx := Ctx {
  c_ds : Z; c_es : Z; c_fs : Z; c_gs : Z; c_edi : Z; c_esi : Z; c_ebp : Z; c_esp : Z; c_ebx : Z;
  c_edx : Z; c_ecx : Z; c_eax : Z; c_tmp : Z; c_eip : Z; c_cs : Z; c_eflags : Z; c_sys_esp : Z; c_ss : Z
}.

Inductive desc_ptr := Null | In_tab (p : Z) (j : nat) | In_desc (p : Z) (j : nat).

#[export] Instance desc_ptr_eq_dec : EqDecision desc_ptr.
Proof. solve_decision. Defined.

Record body := Body {
  b_tss : tss; b_exec : Z; b_exec_size : Z; b_elf_entry : Z; b_argc : Z; b_argv : argv_t; b_envp : Z;
  b_delete_argv : Z; b_cwd : Z; b_umask : Z; b_owner : Z; b_group : Z;
  b_file_tab : list inode; b_file_desc : list desc_ptr; b_dir_tab : list DIR
}.

Record forks (H K : Type) := Forks {
  f_kernel : kstate;
  f_bodies : gmap Z body;
  f_tables : tables;
  f_pages : mem;
  f_user : machine H;
  f_kheap : K;
  next_pid : Z
}.
Arguments Forks {H K}.
Arguments f_kernel {H K} _.
Arguments f_bodies {H K} _.
Arguments f_tables {H K} _.
Arguments f_pages {H K} _.
Arguments f_user {H K} _.
Arguments f_kheap {H K} _.
Arguments next_pid {H K} _.

(** What [memset(proc, 0x0, msize)] leaves. *)
Definition zero_process : process :=
  Process 0 0 0 0 0 0 0 0 0 0 0 0 0 0 0 0 0 0 0 0 0 0 0 0 0 0 (replicate 32 (Sigaction 0 0 0)) 0 0.
Definition zero_tss : tss := Tss 0 0 0 0 0 0 0 0 0 0 0 0 0 0 0 0 0 0 0 (replicate 27 0).
Definition zero_body : body :=
  Body zero_tss 0 0 0 0 null_argv 0 0 0 0 0 0 (replicate MAX_FILES zero_inode) (replicate MAX_FILES Null)
       (replicate MAX_DIR zero_dir).

Definition KERNEL_DS : Z := 0x18.

(** ** Parts of the state *)

Section Fork.

Context {H K : Type} `{HeapOps H} (kmalloc : Z -> st K Z).

(** The sizes of the structures and the place of [p_tss]; the address of the
    page directory; the entry points of the first two tasks; what [fnsave]
    stores. *)
Context (sizeof_process sizeof_tss tss_offset KERNEL_PAGE_DIR init init_proc2_loop : Z) (fnsave : list Z).

Abbreviation F := (forks H K).

Definition on_kernel {A} (m : st kstate A) : st F A := fun s =>
  match m (f_kernel s) with
  | Ret (a, k) => Ret (a, Forks k (f_bodies s) (f_tables s) (f_pages s) (f_user s) (f_kheap s) (next_pid s))
  | Panic => Panic | Fault => Fault | NoFuel => NoFuel
  end.

Definition on_tables {A} (m : st tables A) : st F A := fun s =>
  match m (f_tables s) with
  | Ret (a, t) => Ret (a, Forks (f_kernel s) (f_bodies s) t (f_pages s) (f_user s) (f_kheap s) (next_pid s))
  | Panic => Panic | Fault => Fault | NoFuel => NoFuel
  end.

Definition on_pages {A} (m : st mem A) : st F A := fun s =>
  match m (f_pages s) with
  | Ret (a, p) => Ret (a, Forks (f_kernel s) (f_bodies s) (f_tables s) p (f_user s) (f_kheap s) (next_pid s))
  | Panic => Panic | Fault => Fault | NoFuel => NoFuel
  end.

Definition on_user {A} (m : st (machine H) A) : st F A := fun s =>
  match m (f_user s) with
  | Ret (a, u) => Ret (a, Forks (f_kernel s) (f_bodies s) (f_tables s) (f_pages s) u (f_kheap s) (next_pid s))
  | Panic => Panic | Fault => Fault | NoFuel => NoFuel
  end.

Definition on_kheap {A} (m : st K A) : st F A := fun s =>
  match m (f_kheap s) with
  | Ret (a, h) => Ret (a, Forks (f_kernel s) (f_bodies s) (f_tables s) (f_pages s) (f_user s) h (next_pid s))
  | Panic => Panic | Fault => Fault | NoFuel => NoFuel
  end.

Definition body_of (p : Z) : st F body := fun s =>
  match f_bodies s !! p with Some b => Ret (b, s) | None => Fault end.

Definition set_body (p : Z) (b : body) : st F unit :=
  modify (fun s => Forks (f_kernel s) (<[p := b]> (f_bodies s)) (f_tables s) (f_pages s) (f_user s) (f_kheap s) (next_pid s)).

Definition set_process (p : Z) (q : process) : st F unit :=
  on_kernel (modify (fun k => set_procs (<[p := q]> (procs k)) k)).

(** ** The steps *)

Definition load_tss_in_gdt (tss priv gdt : Z) : st F unit :=
  _ ← on_tables (get_segment_descriptor gdt);
  on_tables (at_gdt gdt (protect_init_tsssegment (u32 tss) sizeof_tss priv)).

(** [pid++ % (1 << 30)] of a signed [pid]. *)
Definition kgenpid : st F Z := fun s =>
  Ret (Z.rem (next_pid s) 1073741824,
       Forks (f_kernel s) (f_bodies s) (f_tables s) (f_pages s) (f_user s) (f_kheap s) (i32 (next_pid s + 1))).

Definition get_page_dir : Z := KERNEL_PAGE_DIR.

Definition msize : Z := 4096 + sizeof_process.

(** [kmalloc] and [memset]; storing through NULL is a fault. *)
Definition new_process : st F Z :=
  proc ← on_kheap (kmalloc msize);
  if proc =? 0 then fault
  else _ ← set_process proc zero_process; _ ← set_body proc zero_body; mret proc.

(** The process as the second of queue [i]. *)
Definition insert_second (i proc : Z) : st kstate unit :=
  head ← tab i;
  if negb (head =? 0) then
    h ← load head;
    _ ← update proc (set_p_next (p_next h));
    _ ← update proc (set_p_prev head);
    p ← load proc;
    _ ← update (p_next p) (set_p_prev proc);
    update head (set_p_next proc)
  else
    _ ← update proc (set_p_next proc);
    _ ← update proc (set_p_prev proc);
    tab_set i proc.

(** A process in queue 0 that has not run, as the kernel or with the ids and the
    first instruction of another. *)
Definition new_entry (tss_seg pid parent eip : Z) (ids : process) : process :=
  Process P_UNINTERUPTIBLE 1048576 0 0 0 tss_seg 0 pid parent 0 0 0
    (p_uid ids) (p_euid ids) (p_suid ids) (p_gid ids) (p_egid ids) (p_sgid ids) 0 0 0 0 0 0 0 eip
    (replicate 32 (Sigaction 0 0 0)) 0 0.

Definition init_tss (proc : Z) : tss :=
  let top := u32 (msize + proc) in
  Tss 0 top KERNEL_CS get_page_dir 0x0002 0 0 0 0 top 0 0 0 KERNEL_DS KERNEL_CS KERNEL_CS KERNEL_DS KERNEL_DS KERNEL_DS
      (replicate 27 0).

Definition create_task (entry : Z) : st F unit :=
  proc ← new_process;
  i ← on_pages alloc_gdt;
  _ ← load_tss_in_gdt (proc + tss_offset) 0 i;
  _ ← set_process proc (new_entry (u16 (i * 8)) 1 1 entry zero_process);
  _ ← set_body proc
    (Body (init_tss proc) 0 0 0 0 null_argv 0 0 0 0 0 0 (replicate MAX_FILES zero_inode) (replicate MAX_FILES Null)
          (replicate MAX_DIR zero_dir));
  on_kernel (insert_second 0 proc).

Definition create_init_task : st F unit := create_task init.
Definition create_init2_task : st F unit := create_task init_proc2_loop.

(** ** [kfork] *)

Definition child_tss (proc : Z) (c : cpu_ctx) : tss :=
  Tss 0 (u32 (msize + proc)) KERNEL_DS get_page_dir (c_eflags c) 0 (c_ebx c) (c_ecx c) (c_edx c)
      (c_esp c) (c_ebp c) (c_esi c) (c_edi c) (Z.land (c_es c) 0xffff) (Z.land (c_cs c) 0xffff)
      (Z.land (c_ss c) 0xffff) (Z.land (c_ds c) 0xffff) (Z.land (c_fs c) 0xffff) (Z.land (c_gs c) 0xffff) fnsave.

(** The deep copy of the arguments: [i < proc->p_argv] compares a count with an
    address, so the copy goes on behind the last argument, to its NULL. *)
Fixpoint copy_argv (n : nat) (i : nat) (src : list (Z * list Z)) (l : list (Z * list Z)) : st F (list (Z * list Z)) :=
  match n with
  | O => mret l
  | S n =>
      match src !! i with
      | None => fault
      | Some (_, t) =>
          let t := firstn 1024 t in
          p ← on_user (on_heap (ho_malloc (Z.of_nat (length t) + 1)));
          if p =? 0 then fault else copy_argv n (i + 1) src (l ++ [(p, t)])
      end
  end.

(** The inner loop over [j], and the loop over the child's descriptors. *)
Fixpoint match_desc (n j : nat) (parent child : Z) (descs : list desc_ptr) (e : desc_ptr) : outcome desc_ptr :=
  match n with
  | O => Ret e
  | S n =>
      match descs !! j with
      | None => Fault
      | Some d => match_desc n (j + 1) parent child descs
                    (if bool_decide (d = In_tab parent j) then In_desc child j else e)
      end
  end.

Fixpoint copy_desc (n i : nat) (parent child : Z) (descs : list desc_ptr) (l : list desc_ptr) : outcome (list desc_ptr) :=
  match n with
  | O => Ret l
  | S n =>
      e ← (match l !! i with Some e => Ret e | None => Fault end);
      e ← match_desc MAX_FILES 0 parent child descs e;
      copy_desc n (i + 1) parent child descs (<[i := e]> l)
  end.

Definition kfork (ctx : cpu_ctx) : st F Z :=
  proc ← new_process;
  s ← get;
  let current := current_process (f_kernel s) in
  q ← on_kernel (load current);
  let priv := if p_euid q =? 0 then 0 else 3 in
  i ← on_pages alloc_gdt;
  _ ← load_tss_in_gdt (proc + tss_offset) priv i;
  pid ← kgenpid;
  b ← body_of current;
  child ← body_of proc;
  let eip := u32 (b_exec child + u32 (c_eip ctx - b_exec b)) in
  exec ← on_user (on_heap (ho_malloc (b_exec_size b)));
  _ ← on_user (on_ram (memcpy exec (b_exec b) (b_exec_size b)));
  let del := b_delete_argv child in
  argv ← (if del =? 0 then mret (b_argv child)
          else p ← on_user (on_heap (ho_malloc (u32 (4 * b_argc b))));
               l ← copy_argv (Z.to_nat p) 0 (av_args (b_argv b)) []; mret (Argv p l));
  descs ← lift (copy_desc MAX_FILES 0 current proc (b_file_desc b) (b_file_desc child));
  _ ← set_process proc (new_entry (u16 (i * 8)) pid (p_pid q) eip q);
  _ ← set_body proc
    (Body (child_tss proc ctx) exec (b_exec_size b) (b_elf_entry b) (b_argc b) argv (b_envp b) del
          (b_cwd b) (b_umask b) (b_owner b) (b_group b) (b_file_tab b) descs (b_dir_tab b));
  _ ← on_kernel (insert_second 0 proc);
  mret pid.

End Fork.
