(* ===== verification/ForkSpec.v ===== *)
(** * What [kfork] does

    The child is the second process of queue 0, with the ids of its parent and a
    copy of its memory; the descriptors it gets are not those of its parent. *)

From S2P Require Import Prelude Layout Paths Store Tree FileIO File Dir Page Segment CString Elf Exec Process ProcQueue Fork.

(** ** Queues *)

Definition without_links (q : process) : process := set_p_next 0 (set_p_prev 0 q).

(** [m'] differs from [m] in links only. *)
Definition same_fields (m m' : gmap Z process) : Prop :=
  forall a, without_links <$> m' !! a = without_links <$> m !! a.

Lemma same_set_next m v p : same_fields m (alter (set_p_next v) p m).
Proof.
  intros a. destruct (decide (a = p)) as [-> | ]; [|by rewrite lookup_alter_ne].
  rewrite lookup_alter_eq. by destruct (m !! p).
Qed.

Lemma same_set_prev m v p : same_fields m (alter (set_p_prev v) p m).
Proof.
  intros a. destruct (decide (a = p)) as [-> | ]; [|by rewrite lookup_alter_ne].
  rewrite lookup_alter_eq. by destruct (m !! p).
Qed.

Lemma same_fields_trans m1 m2 m3 : same_fields m1 m2 -> same_fields m2 m3 -> same_fields m1 m3.
Proof. intros H1 H2 a. by rewrite H2, H1. Qed.

Lemma same_some m m' a : same_fields m m' -> is_Some (m !! a) -> is_Some (m' !! a).
Proof. intros H [q Hq]. specialize (H a). rewrite Hq in H. destruct (m' !! a); [eauto|done]. Qed.

(** The process as the second of the list. *)
Definition second (p : Z) (l : list Z) : list Z :=
  match l with [] => [p] | h :: t => h :: p :: t end.

(** A process in no queue may change. *)
Lemma queues_other Q s p q : queues_ok Q s -> p ∉ concat Q -> queues_ok Q (set_procs (<[p := q]> (procs s)) s).
Proof.
  intros [H1 H2 H3 H4 H5] Hp. split; [done|done| |done|]; cbn [procs set_procs].
  - intros l Hl. apply (ring_ext (procs s)); [intros a Ha..|by apply H3].
    all: unfold next_in, prev_in; rewrite lookup_insert_ne; [done|].
    all: intros ->; apply Hp; by eapply elem_of_concat'.
  - intros a Ha. destruct (H5 a Ha) as [? ?]. split; [done|]. rewrite lookup_insert_ne; [done|]. intros ->. done.
Qed.

(** Changing the first queue. *)
Lemma queues_first l l' Q s s' :
  queues_ok (l :: Q) s -> process_tab s' = <[0%nat := hd 0 l']> (process_tab s) -> same_fields (procs s) (procs s') ->
  (forall a, a ∉ l ++ l' -> next_in (procs s') a = next_in (procs s) a /\ prev_in (procs s') a = prev_in (procs s) a) ->
  ring (procs s') l' -> NoDup l' -> (forall p, p ∈ l' -> p <> 0 /\ is_Some (procs s !! p) /\ p ∉ concat Q) ->
  queues_ok (l' :: Q) s'.
Proof.
  intros Hq Ht Hsame Hf Hr Hn Hl. apply (queues_replace [] l l' Q s s'); try done.
  - intros a _. by apply same_some.
  - intros p Hp. destruct (Hl p Hp) as (? & ? & ?). split; [done|]. split; [by eapply same_some|done].
Qed.

(** Linking a process behind the head. *)
Lemma ring_second m m' h t p nxt :
  ring m (h :: t) -> NoDup (h :: t) -> p ∉ h :: t -> next_in m h = Some nxt ->
  (forall a, next_in m' a = if decide (a = h) then Some p else if decide (a = p) then Some nxt else next_in m a) ->
  (forall b, prev_in m' b = if decide (b = nxt) then Some p else if decide (b = p) then Some h else prev_in m b) ->
  ring m' (h :: p :: t).
Proof.
  intros Hr Hn Hp Hnxt Hnext Hprev. apply NoDup_cons in Hn as [Hh Hn].
  apply not_elem_of_cons in Hp as [Hph Hpt].
  destruct t as [|x t]; simpl in Hr |- *.
  - destruct Hr as [E1 E2]. rewrite E1 in Hnxt. injection Hnxt as <-.
    unfold linked. rewrite !Hnext, !Hprev. repeat case_decide; try done; by subst.
  - destruct Hr as [[E1 E2] Hc]. rewrite E1 in Hnxt. injection Hnxt as <-.
    apply not_elem_of_cons in Hpt as [Hpx Hpt]. apply not_elem_of_cons in Hh as [Hhx Hht].
    apply NoDup_cons in Hn as [Hx Hn].
    split; [|split].
    + split; rewrite ?Hnext, ?Hprev; repeat case_decide; by subst.
    + split; rewrite ?Hnext, ?Hprev; repeat case_decide; by subst.
    + revert Hc. apply chain_ext.
      * intros a Ha. rewrite Hnext, !decide_False; [done| |].
        -- intros ->. by apply elem_of_cons in Ha as [? | ?].
        -- intros ->. by apply elem_of_cons in Ha as [? | ?].
      * intros b Hb. rewrite Hprev, !decide_False; [done| |].
        -- intros ->. apply elem_of_app in Hb as [? | ->%list_elem_of_singleton]; done.
        -- intros ->. apply elem_of_app in Hb as [? | ->%list_elem_of_singleton]; done.
Qed.

Lemma insert_second_spec l Q s p :
  queues_ok (l :: Q) s -> p <> 0 -> p ∉ concat (l :: Q) -> is_Some (procs s !! p) ->
  exists s', insert_second 0 p s = Ret (tt, s') /\ queues_ok (second p l :: Q) s' /\
    same_fields (procs s) (procs s') /\ process_size_tab s' = process_size_tab s /\ current_process s' = current_process s /\
    first_time s' = first_time s.
Proof.
  intros Hq H0 Hp Hsome. pose proof (queues_tab _ _ Hq) as Htab.
  assert (process_tab s !! 0%nat = Some (hd 0 l)) as Ht by by rewrite Htab.
  assert (0 < length (process_tab s))%nat as Hlen by (rewrite Htab; simpl; lia).
  simpl in Hp. apply not_elem_of_app in Hp as [Hpl HpQ].
  unfold insert_second. unfold mbind at 1, st_bind at 1. change 0 with (Z.of_nat 0). rewrite (tab_ok _ _ _ Ht).
  change (Z.of_nat 0) with 0. destruct l as [|h t]; cbn [hd].
  - cbn [Z.eqb negb]. unfold mbind, st_bind.
    rewrite update_alter by done. cbn [procs set_procs]. rewrite update_alter by (cbn; by apply alter_is_Some).
    change 0 with (Z.of_nat 0). rewrite tab_set_ok by done. eexists. split; [done|].
    assert (same_fields (procs s) (alter (set_p_prev p) p (alter (set_p_next p) p (procs s)))) as Hsame
      by (eapply same_fields_trans; [apply same_set_next | apply same_set_prev]).
    split; [|done]. eapply (queues_first [] [p]); [exact Hq|done|exact Hsame|..]; cbn [procs set_procs set_tab].
    + intros a Ha. rewrite next_set_prev, prev_set_prev, next_set_next, prev_set_next by (try apply alter_is_Some; done).
      rewrite !decide_False by (intros ->; apply Ha; left). done.
    + simpl. unfold linked. rewrite next_set_prev, prev_set_prev, next_set_next by (try apply alter_is_Some; done).
      by rewrite !decide_True.
    + apply NoDup_singleton.
    + intros a ->%list_elem_of_singleton. done.
  - destruct (queues_procs _ _ Hq h) as [Hh0 Hh]; [left|]. rewrite (proj2 (Z.eqb_neq h 0)) by done. cbn [negb].
    pose proof (queues_ring _ _ Hq (h :: t) ltac:(left)) as Hr.
    pose proof (queues_nodup _ _ Hq) as Hnd. simpl in Hnd.
    destruct (links_load _ _ Hh) as (qh & Lh & Nh & _). set (nxt := p_next qh) in *.
    assert (nxt ∈ h :: t) as Hnin.
    { rewrite (chain_next _ _ _ _ Hr) in Nh. injection Nh as <-. destruct t; simpl; [left|right; left]. }
    assert (is_Some (procs s !! nxt)) as Hnx by (apply (queues_procs _ _ Hq); apply elem_of_app; by left).
    assert (h <> p) as Hhp by (intros ->; apply Hpl; left).
    assert (nxt <> p) as Hnp by (intros E; rewrite E in Hnin; done).
    unfold mbind, st_bind, load at 1. rewrite Lh.
    rewrite update_alter by done. cbn [procs set_procs]. set (m1 := alter _ p (procs s)).
    assert (same_fields (procs s) m1) as S1 by apply same_set_next.
    rewrite update_alter by (cbn; by eapply same_some). cbn [procs set_procs]. set (m2 := alter _ p m1).
    assert (same_fields (procs s) m2) as S2 by (eapply same_fields_trans; [exact S1|apply same_set_prev]).
    destruct (links_load m2 p) as (qp & Lp & Np & _); [by eapply same_some|].
    unfold load. cbn [procs set_procs]. rewrite Lp.
    unfold m2 in Np at 1. rewrite next_set_prev in Np. unfold m1 in Np at 1.
    rewrite next_set_next, decide_True in Np by done. injection Np as Np. rewrite <- Np. fold nxt.
    rewrite update_alter by (cbn; by eapply same_some). cbn [procs set_procs]. set (m3 := alter _ nxt m2).
    assert (same_fields (procs s) m3) as S3 by (eapply same_fields_trans; [exact S2|apply same_set_prev]).
    rewrite update_alter by (cbn; by eapply same_some). cbn [procs set_procs]. set (m4 := alter _ h m3).
    assert (same_fields (procs s) m4) as S4 by (eapply same_fields_trans; [exact S3|apply same_set_next]).
    assert (forall a, next_in m4 a = if decide (a = h) then Some p else if decide (a = p) then Some nxt else next_in (procs s) a) as Hnext.
    { intros a. unfold m4. rewrite next_set_next by (by eapply same_some). unfold m3. rewrite next_set_prev.
      unfold m2. rewrite next_set_prev. unfold m1. by rewrite next_set_next. }
    assert (forall b, prev_in m4 b = if decide (b = nxt) then Some p else if decide (b = p) then Some h else prev_in (procs s) b) as Hprev.
    { intros b. unfold m4. rewrite prev_set_next. unfold m3. rewrite prev_set_prev by (by eapply same_some).
      unfold m2. rewrite prev_set_prev by (by eapply same_some). unfold m1. by rewrite prev_set_next. }
    eexists. split; [done|]. split; [|done].
    assert (NoDup (h :: t)) as Hht by (apply (NoDup_app (h :: t)) in Hnd; apply Hnd).
    eapply (queues_first (h :: t) (h :: p :: t)); [exact Hq|..]; cbn [procs set_procs process_tab].
    + simpl. symmetry. by apply list_insert_id.
    + exact S4.
    + intros a Ha. rewrite Hnext, Hprev. apply not_elem_of_app in Ha as [Ha Ha'].
      assert (a <> h /\ a <> p /\ a <> nxt) as (Ea & Eb & Ec).
      { split; [|split]; intros ->; [apply Ha; left | apply Ha'; right; left | done]. }
      by rewrite !decide_False.
    + by eapply ring_second.
    + apply NoDup_cons in Hht as [Hh' Ht']. apply NoDup_cons. split.
      * apply not_elem_of_cons. done.
      * apply NoDup_cons. split; [|done]. intros ?. apply Hpl. by right.
    + intros a Ha. apply (NoDup_app (h :: t)) in Hnd as (_ & Hd & _).
      destruct (decide (a = p)) as [-> | Hne]; [done|].
      assert (a ∈ h :: t) as Hin.
      { apply elem_of_cons in Ha as [-> | Ha]; [left|]. apply elem_of_cons in Ha as [-> | Ha]; [done|by right]. }
      destruct (queues_procs _ _ Hq a) as [? ?]; [apply elem_of_app; by left|]. split; [done|]. split; [done|]. by apply Hd.
Qed.

(** ** Descriptors *)

Fixpoint last_match (n j : nat) (parent child : Z) (descs : list desc_ptr) (e : desc_ptr) : desc_ptr :=
  match n with
  | O => e
  | S n => last_match n (j + 1) parent child descs
             (if bool_decide (descs !! j = Some (In_tab parent j)) then In_desc child j else e)
  end.

Lemma match_desc_run n parent child descs : forall j e, (j + n <= length descs)%nat ->
  match_desc n j parent child descs e = Ret (last_match n j parent child descs e).
Proof.
  induction n as [|n IH]; intros j e Hj; [done|]. cbn [match_desc last_match].
  destruct (lookup_lt_is_Some_2 descs j) as [d Ed]; [lia|]. rewrite Ed, IH by lia. do 2 f_equal.
  by rewrite (bool_decide_ext (d = In_tab parent j) (Some d = Some (In_tab parent j))) by (split; congruence).
Qed.

(** A descriptor that an outer turn overwrites is not seen by the inner one. *)
Lemma last_match_ind (P : desc_ptr -> Prop) n parent child descs : forall j e,
  P e -> (forall k, (j <= k < j + n)%nat -> descs !! k = Some (In_tab parent k) -> P (In_desc child k)) ->
  P (last_match n j parent child descs e).
Proof.
  induction n as [|n IH]; intros j e He Hm; [done|]. cbn [last_match]. apply IH.
  - case_bool_decide; [apply Hm; [lia|done]|done].
  - intros k Hk. apply Hm. lia.
Qed.

Lemma last_match_found n parent child descs : forall j e k,
  (j <= k < j + n)%nat -> descs !! k = Some (In_tab parent k) ->
  exists k', last_match n j parent child descs e = In_desc child k' /\ (k <= k')%nat /\ descs !! k' = Some (In_tab parent k').
Proof.
  induction n as [|n IH]; intros j e k Hk Ek; [lia|]. cbn [last_match].
  destruct (decide (j = k)) as [-> | Hne]; [|apply IH; [lia|done]].
  rewrite bool_decide_true by done.
  apply (last_match_ind (fun e => exists k', e = In_desc child k' /\ (k <= k')%nat /\ descs !! k' = Some (In_tab parent k')));
    [eauto|]. intros k' Hk' E'. exists k'. split; [done|]. split; [lia|done].
Qed.

Lemma copy_desc_run n parent child descs : forall i, length descs = MAX_FILES ->
  let x := last_match MAX_FILES 0 parent child descs Null in
  copy_desc n i parent child descs (replicate i x ++ replicate n Null) = Ret (replicate (i + n) x).
Proof.
  induction n as [|n IH]; intros i Hl x; cbn [copy_desc].
  - by rewrite app_nil_r, Nat.add_0_r.
  - rewrite lookup_app_r, length_replicate, Nat.sub_diag by (by rewrite length_replicate). cbn [replicate lookup list_lookup mbind outcome_bind].
    rewrite match_desc_run by lia. cbn [mbind outcome_bind]. fold x.
    rewrite insert_app_r_alt, length_replicate, Nat.sub_diag by (by rewrite length_replicate). cbn [insert list_insert].
    rewrite cons_middle, app_assoc. change [x] with (replicate 1 x). rewrite <- replicate_add.
    rewrite IH by done. do 2 f_equal. lia.
Qed.

(** ** The call *)

Section Calls.

Context {H K : Type} `{HeapOps H} (kmalloc : Z -> st K Z).
Context (sizeof_process sizeof_tss tss_offset KERNEL_PAGE_DIR : Z) (fnsave : list Z).

Abbreviation F := (forks H K).

(** A state in which everything [kfork] asks for is granted: the address of the
    child, its descriptor [k], its memory [exec] for the parent's [img]. *)
Record fork_granted (s : F) (l : list Z) (Q : list (list Z)) (q : process) (b : body) (proc : Z) (kh : K)
    (k : nat) (pg : mem) (exec : Z) (uh : H) (img : list Z) : Prop := {
  fg_queues : queues_ok (l :: Q) (f_kernel s);
  fg_current : procs (f_kernel s) !! current_process (f_kernel s) = Some q;
  fg_body : f_bodies s !! current_process (f_kernel s) = Some b;
  fg_kmalloc : kmalloc (msize sizeof_process) (f_kheap s) = Ret (proc, kh);
  fg_proc : proc <> 0 /\ procs (f_kernel s) !! proc = None /\ proc <> current_process (f_kernel s);
  fg_gdt : alloc_gdt (f_pages s) = Ret (Z.of_nat k, pg);
  fg_free : GDT (f_tables s) !! k = Some zero_descriptor;
  fg_malloc : ho_malloc (b_exec_size b) (heap_of (f_user s)) = Ret (exec, uh);
  fg_image : b_exec_size b = Z.of_nat (length img) /\ Forall char_range img /\ (img <> [] -> spans (ram (f_user s)) (b_exec b) img);
  fg_room : mapped (ram (f_user s)) exec (b_exec_size b) /\ apart exec (b_exec_size b) (b_exec b) (b_exec_size b);
  fg_descs : length (b_file_desc b) = MAX_FILES
}.

(** What the child is. *)
Record forked (s s' : F) (ctx : cpu_ctx) (q : process) (b : body) (proc : Z) (k : nat) (exec : Z) (pid eip : Z) : Prop := {
  fk_process : exists c, procs (f_kernel s') !! proc = Some c /\
    without_links c = without_links (new_entry (u16 (Z.of_nat k * 8)) pid (p_pid q) eip q);
  fk_others a : a <> proc -> without_links <$> procs (f_kernel s') !! a = without_links <$> procs (f_kernel s) !! a;
  fk_body : f_bodies s' = <[proc := Body (child_tss sizeof_process KERNEL_PAGE_DIR fnsave proc ctx) exec (b_exec_size b)
    (b_elf_entry b) (b_argc b) null_argv (b_envp b) 0 (b_cwd b) (b_umask b) (b_owner b) (b_group b) (b_file_tab b)
    (replicate MAX_FILES (last_match MAX_FILES 0 (current_process (f_kernel s)) proc (b_file_desc b) Null))
    (b_dir_tab b)]> (f_bodies s);
  fk_gdt : GDT (f_tables s') = <[k := protect_init_tsssegment (u32 (proc + tss_offset)) sizeof_tss
    (if p_euid q =? 0 then 0 else 3) zero_descriptor]> (GDT (f_tables s))
}.

Lemma kfork_run s ctx l Q q b proc kh k pg exec uh img :
  fork_granted s l Q q b proc kh k pg exec uh img ->
  let pid := Z.rem (next_pid s) 1073741824 in
  exists s', kfork kmalloc sizeof_process sizeof_tss tss_offset KERNEL_PAGE_DIR fnsave ctx s = Ret (pid, s') /\
    queues_ok (second proc l :: Q) (f_kernel s') /\
    process_size_tab (f_kernel s') = process_size_tab (f_kernel s) /\
    forked s s' ctx q b proc k exec pid (u32 (0 + u32 (c_eip ctx - b_exec b))) /\
    written (ram (f_user s)) (ram (f_user s')) exec img.
Proof.
  intros [Hq Hcur Hb Hkm (Hp0 & Hpn & Hpc) Hg Hfree Hm (Hsz & Hch & Hsp) [Hmap Hap] Hd] pid.
  assert (proc ∉ concat (l :: Q)) as Hpq.
  { intros Hin. destruct (queues_procs _ _ Hq proc Hin) as (_ & q0 & E). congruence. }
  destruct (memcpy_loop_run img exec (b_exec b) (ram (f_user s))) as (m' & Em & Hw);
    [by rewrite <- Hsz|done|done|by rewrite <- Hsz|].
  set (k1 := set_procs (<[proc := zero_process]> (procs (f_kernel s))) (f_kernel s)).
  set (child := new_entry (u16 (Z.of_nat k * 8)) pid (p_pid q) (u32 (0 + u32 (c_eip ctx - b_exec b))) q).
  set (k2 := set_procs (<[proc := child]> (procs k1)) k1).
  assert (queues_ok (l :: Q) k2) as Hq2 by (apply queues_other; [apply queues_other|]; done).
  destruct (insert_second_spec l Q k2 proc Hq2 Hp0 Hpq) as (k3 & Ei & Hq3 & Hsame & Hsize & _).
  { unfold k2. cbn. rewrite lookup_insert_eq. by eexists. }
  set (d := protect_init_tsssegment (u32 (proc + tss_offset)) sizeof_tss (if p_euid q =? 0 then 0 else 3)).
  set (x := last_match MAX_FILES 0 (current_process (f_kernel s)) proc (b_file_desc b) Null).
  set (cb := Body (child_tss sizeof_process KERNEL_PAGE_DIR fnsave proc ctx) exec (b_exec_size b) (b_elf_entry b)
    (b_argc b) null_argv (b_envp b) 0 (b_cwd b) (b_umask b) (b_owner b) (b_group b) (b_file_tab b)
    (replicate MAX_FILES x) (b_dir_tab b)).
  exists (Forks k3 (<[proc := cb]> (<[proc := zero_body]> (f_bodies s)))
    (set_GDT (<[k := d zero_descriptor]> (GDT (f_tables s))) (f_tables s)) pg (Machine m' uh) kh (i32 (next_pid s + 1))).
  split; [|split; [exact Hq3|split; [exact Hsize|split; [|exact Hw]]]].
  - unfold kfork, new_process, mbind, st_bind. unfold on_kheap. rewrite Hkm. rewrite (proj2 (Z.eqb_neq _ _) Hp0).
    unfold set_process, on_kernel, modify. cbn [f_kernel]. fold k1. unfold set_body, modify, mret, st_ret, get.
    cbn [f_kernel f_bodies f_tables f_pages f_user f_kheap next_pid].
    change (current_process k1) with (current_process (f_kernel s)).
    unfold load at 1. cbn [procs set_procs k1]. rewrite lookup_insert_ne, Hcur by done.
    unfold Fork.on_pages. cbn [f_pages]. rewrite Hg.
    unfold load_tss_in_gdt, mbind, st_bind, on_tables, get_segment_descriptor, at_gdt, mbind, st_bind, get, checked.
    cbn [f_tables]. rewrite (proj2 (Z.leb_le 0 _)), Nat2Z.id, Hfree by lia.
    cbn [f_tables]. unfold update_table. rewrite (proj2 (Z.leb_le 0 _)), Nat2Z.id, Hfree by lia.
    unfold put. cbn [f_kernel f_bodies f_tables f_pages f_user f_kheap next_pid].
    unfold kgenpid. cbn [next_pid]. fold pid. unfold body_of. cbn [f_bodies].
    rewrite lookup_insert_ne, Hb by done. cbn [f_bodies]. rewrite lookup_insert_eq.
    unfold on_user, on_heap, on_ram. cbn [f_user heap_of ram]. rewrite Hm. cbn [f_user heap_of ram].
    unfold memcpy. rewrite Hsz, Nat2Z.id, Em. cbn [mbind outcome_bind].
    cbn [zero_body b_exec b_delete_argv b_argv b_file_desc Z.eqb]. unfold lift.
    pose proof (copy_desc_run MAX_FILES (current_process (f_kernel s)) proc (b_file_desc b) 0 Hd) as Ec.
    cbv zeta in Ec. fold x in Ec. change (replicate 0 x) with (@nil desc_ptr) in Ec. cbn [app Nat.add] in Ec. rewrite Ec.
    cbn [f_kernel f_bodies f_tables f_pages f_user f_kheap next_pid].
    fold child. fold k2. rewrite Ei. rewrite <- Hsz. reflexivity.
  - split; cbn [f_kernel f_bodies f_tables].
    + specialize (Hsame proc). unfold k2 in Hsame. cbn [procs set_procs] in Hsame. rewrite lookup_insert_eq in Hsame.
      destruct (procs k3 !! proc) as [c|]; [|done]. exists c. split; [done|]. exact (Some_inj _ _ Hsame).
    + intros a Ha. rewrite (Hsame a). unfold k2, k1. cbn [procs set_procs]. by rewrite !lookup_insert_ne.
    + by rewrite insert_insert_eq.
    + done.
Qed.


(** The child of kfork has none of the parent's files open.  No element of its descriptor table
    points into a table of files, and when any descriptor [j] of the parent is the file [j] of its
    table, all elements of the child's table point at one and the same element of that table. *)
Theorem kfork_loses_files s ctx l Q q b proc kh k pg exec uh img :
  fork_granted s l Q q b proc kh k pg exec uh img ->
  exists pid s' cb, kfork kmalloc sizeof_process sizeof_tss tss_offset KERNEL_PAGE_DIR fnsave ctx s = Ret (pid, s') /\
    f_bodies s' !! proc = Some cb /\ b_file_tab cb = b_file_tab b /\
    (forall i p j, b_file_desc cb !! i <> Some (In_tab p j)) /\
    forall j, (j < MAX_FILES)%nat -> b_file_desc b !! j = Some (In_tab (current_process (f_kernel s)) j) ->
      exists j', b_file_desc cb = replicate MAX_FILES (In_desc proc j').
Proof.
  intros Hg. destruct (kfork_run s ctx l Q q b proc kh k pg exec uh img Hg) as (s' & E & _ & _ & Hf & _).
  eexists _, s', _. split; [exact E|]. rewrite (fk_body _ _ _ _ _ _ _ _ _ _ Hf). split; [apply lookup_insert_eq|].
  split; [done|]. cbn [b_file_desc]. split.
  - intros i p j Hi. apply lookup_replicate in Hi as [Hi _]. revert Hi.
    apply (last_match_ind (fun e => In_tab p j <> e)); done.
  - intros j Hj Ej.
    destruct (last_match_found MAX_FILES (current_process (f_kernel s)) proc (b_file_desc b) 0 Null j) as (k' & -> & _);
      [lia|done|]. by exists k'.
Qed.

(** The sizes of the queues are not kept. *)
Lemma second_sizes_wrong s s' l Q p :
  sizes_ok (l :: Q) s -> process_size_tab s' = process_size_tab s -> ~ sizes_ok (second p l :: Q) s'.
Proof.
  unfold sizes_ok. intros -> E' E. rewrite E in E'. apply (f_equal (hd 0)) in E'. destruct l; cbn [map hd second length] in E'; lia.
Qed.

(** After 2^30 processes the numbers start again at 0. *)
Lemma kgenpid_repeats (s : F) : next_pid s = 1073741824 ->
  exists s1 s2, kgenpid s = Ret (0, s1) /\ kgenpid s1 = Ret (1, s2).
Proof. intros E. unfold kgenpid. rewrite E. by eexists _, _. Qed.

End Calls.

(** ** The first tasks *)

Section Tasks.

Context {H K : Type} `{HeapOps H} (kmalloc : Z -> st K Z).
Context (sizeof_process sizeof_tss tss_offset KERNEL_PAGE_DIR init init_proc2_loop : Z).

Abbreviation F := (forks H K).

(** Every task made this way has the number 1. *)
Lemma create_task_run entry (s : F) l Q proc kh k pg :
  queues_ok (l :: Q) (f_kernel s) -> kmalloc (msize sizeof_process) (f_kheap s) = Ret (proc, kh) ->
  proc <> 0 -> procs (f_kernel s) !! proc = None -> alloc_gdt (f_pages s) = Ret (Z.of_nat k, pg) ->
  GDT (f_tables s) !! k = Some zero_descriptor ->
  exists s', create_task kmalloc sizeof_process sizeof_tss tss_offset KERNEL_PAGE_DIR entry s = Ret (tt, s') /\
    queues_ok (second proc l :: Q) (f_kernel s') /\
    first_time (f_kernel s') = first_time (f_kernel s) /\
    (forall a, a <> proc -> without_links <$> procs (f_kernel s') !! a = without_links <$> procs (f_kernel s) !! a) /\
    exists c, procs (f_kernel s') !! proc = Some c /\
      without_links c = without_links (new_entry (u16 (Z.of_nat k * 8)) 1 1 entry zero_process).
Proof.
  intros Hq Hkm Hp0 Hpn Hg Hfree.
  assert (proc ∉ concat (l :: Q)) as Hpq.
  { intros Hin. destruct (queues_procs _ _ Hq proc Hin) as (_ & q0 & E). congruence. }
  set (k1 := set_procs (<[proc := zero_process]> (procs (f_kernel s))) (f_kernel s)).
  set (child := new_entry (u16 (Z.of_nat k * 8)) 1 1 entry zero_process).
  set (k2 := set_procs (<[proc := child]> (procs k1)) k1).
  assert (queues_ok (l :: Q) k2) as Hq2 by (apply queues_other; [apply queues_other|]; done).
  destruct (insert_second_spec l Q k2 proc Hq2 Hp0 Hpq) as (k3 & Ei & Hq3 & Hsame & _ & _ & Hfirst).
  { unfold k2. cbn. rewrite lookup_insert_eq. by eexists. }
  assert (forall a, a <> proc -> without_links <$> procs k3 !! a = without_links <$> procs (f_kernel s) !! a) as Hothers.
  { intros a Ha. rewrite Hsame. unfold k2, k1. cbn. by rewrite !lookup_insert_ne by done. }
  specialize (Hsame proc). unfold k2 in Hsame. cbn [procs set_procs] in Hsame. rewrite lookup_insert_eq in Hsame.
  destruct (procs k3 !! proc) as [c|] eqn:Ec; [|done].
  unfold create_task, new_process, mbind, st_bind, on_kheap. rewrite Hkm, (proj2 (Z.eqb_neq _ _) Hp0).
  unfold set_process, on_kernel, set_body, modify, mret, st_ret, get. cbn [f_kernel]. fold k1.
  unfold Fork.on_pages. cbn [f_pages f_kernel f_bodies f_tables f_user f_kheap next_pid]. rewrite Hg.
  unfold load_tss_in_gdt, on_tables, get_segment_descriptor, at_gdt, mbind, st_bind, get, checked.
  cbn [f_tables]. rewrite (proj2 (Z.leb_le 0 _)), Nat2Z.id, Hfree by lia.
  cbn [f_tables]. unfold update_table. rewrite (proj2 (Z.leb_le 0 _)), Nat2Z.id, Hfree by lia.
  unfold put. cbn [f_kernel f_bodies f_tables f_pages f_user f_kheap next_pid]. fold child. fold k2. rewrite Ei.
  eexists. split; [reflexivity|]. split; [exact Hq3|]. split; [exact Hfirst|]. split; [exact Hothers|]. exists c. split; [exact Ec|exact (Some_inj _ _ Hsame)].
Qed.

End Tasks.

(** ** A process that forks *)

Definition parent_body : body :=
  Body zero_tss 5000 3 5000 0 null_argv 0 0 7 0 1 1 (replicate MAX_FILES zero_inode)
       (In_tab 100 0 :: replicate 1023 Null) [].

Definition few_pages : mem :=
  Mem (MemParams 0 0 0 0 0 0 0 0 0 0 0 0 0 0 0 0) ∅ 0 0 0 0 ∅ ∅ (replicate 6 1 ++ replicate 10 0).

Definition before_fork : forks unit unit :=
  Forks two_processes {[100 := parent_body]} static_tables few_pages
    (Machine (list_to_map (Elf.cells 5000 [1; 2; 3] ++ Elf.cells 4000 [7; 7; 7; 7])) tt) tt 2.

Definition user_ctx : cpu_ctx := Ctx 35 35 35 35 0 0 0 900 0 0 0 0 0 5002 27 514 0 35.

Lemma before_fork_granted :
  fork_granted (H0 := fixed_heap 4000) (fun _ => mret 300) 100 before_fork [100] (replicate 31 []) (some_process 1 100 100)
    parent_body 300 tt 6 (set_gdt_map (replicate 7 1 ++ replicate 9 0) few_pages) 4000 tt [1; 2; 3].
Proof.
  split; cbn [f_kernel f_bodies f_tables f_pages f_user f_kheap before_fork ram heap_of].
  - exact two_processes_queues.
  - reflexivity.
  - reflexivity.
  - reflexivity.
  - split; [discriminate|]. split; [reflexivity|discriminate].
  - reflexivity.
  - reflexivity.
  - reflexivity.
  - split; [reflexivity|]. split; [repeat constructor; discriminate|]. intros _. split; [reflexivity|]. split; [reflexivity|].
    intros [|[|[|i]]] c Hc; [injection Hc as <-; reflexivity..|destruct i; discriminate Hc].
  - split.
    + split; [reflexivity|]. split; [reflexivity|]. change (b_exec_size parent_body) with 3. intros a Ha.
      assert (a = 4000 \/ a = 4001 \/ a = 4002) as [-> | [-> | ->]] by lia; by eexists.
    + left. vm_compute. discriminate.
  - vm_compute. reflexivity.
Qed.


Lemma kfork_loses_files_witness :
  exists pid s' cb j, kfork (H0 := fixed_heap 4000) (fun _ => mret 300) 100 104 20 8192 [] user_ctx before_fork = Ret (pid, s') /\
    f_bodies s' !! 300 = Some cb /\ b_file_desc cb = replicate MAX_FILES (In_desc 300 j).
Proof.
  destruct (kfork_loses_files (H0 := fixed_heap 4000) (fun _ => mret 300) 100 104 20 8192 [] before_fork user_ctx _ _ _ _ _ _ _ _ _ _ _
    before_fork_granted) as (pid & s' & cb & E & Eb & _ & _ & Hj).
  destruct (Hj 0%nat) as [j Ej]; [unfold MAX_FILES; lia|reflexivity|].
  exists pid, s', cb, j. split; [exact E|]. split; [exact Eb|exact Ej].
Defined.
