(* ===== verification/Boot.v ===== *)
(** * Starting the scheduler ([scheduler_init] of [kernel/scheduler.c])

    The first task, the scheduler's handler in the timer, and what the timer's
    interrupts make of them.  The state is that of the timer beside that of
    [kernel/fork.c]. *)

From S2P Require Import Prelude Interrupt Timer Store Tree FileIO File Dir Page Segment CString Elf Exec Process ProcQueue Sched Fork ForkSpec.

Section Boot.

Context {H K : Type} (kmalloc : Z -> st K Z).
Context (sizeof_process sizeof_tss tss_offset KERNEL_PAGE_DIR init : Z).
(** The time, the address of [kstart] and that of [scheduler_interrupt_handler]. *)
Context (now kstart handler : Z).

Abbreviation F := (forks H K).

Definition scheduler_interrupt_handler (irq : Z) : st F irq_stat_t :=
  _ ← Fork.on_kernel (schedule now kstart); mret IRQ_ENABLE.

(** What the timer finds at an address. *)
Definition timer_call (h irq : Z) : st F irq_stat_t :=
  if h =? handler then scheduler_interrupt_handler irq else fault.

(** [current_process = process_tab[0]]; [INIT_TASK] is read nowhere. *)
Definition set_first_current : st kstate unit :=
  first ← tab 0; modify (fun k => set_current (previous_process k) first k).

Definition on_pit {A} (m : st pit A) : st (pit * F) A := fun s => '(a, p) ← m (fst s); Ret (a, (p, snd s)).

Definition scheduler_init : st (pit * F) unit :=
  _ ← on_rest (create_init_task kmalloc sizeof_process sizeof_tss tss_offset KERNEL_PAGE_DIR init);
  _ ← on_rest (Fork.on_kernel set_first_current);
  on_pit (pit_install_handler PIT_SCHEDULER handler).

(** ** The first task starts with the timer *)

Lemma on_rest_run {A} (m : st F A) p s a s' : m s = Ret (a, s') -> on_rest m (p, s) = Ret (a, (p, s')).
Proof. intros E. unfold on_rest. cbn [snd fst]. by rewrite E. Qed.

Lemma queues_set_current Q a b k : queues_ok Q k -> queues_ok Q (set_current a b k).
Proof. by intros [? ? ? ? ?]. Qed.

(** The state [scheduler_init] leaves: one process, the current one, in queue 0. *)
Lemma scheduler_init_run (p : pit) (s : F) proc kh k pg :
  queues_ok (replicate 32 []) (f_kernel s) -> procs (f_kernel s) = ∅ ->
  kmalloc (msize sizeof_process) (f_kheap s) = Ret (proc, kh) -> proc <> 0 ->
  alloc_gdt (f_pages s) = Ret (Z.of_nat k, pg) -> GDT (f_tables s) !! k = Some zero_descriptor ->
  exists s', scheduler_init (p, s) = Ret (tt, (Pit PIT_SCHEDULER (Timer.tick p) (<[0%nat := handler]> (pit_handlers_tab p)), s')) /\
    queues_ok ([proc] :: replicate 31 []) (f_kernel s') /\ current_process (f_kernel s') = proc /\
    first_time (f_kernel s') = first_time (f_kernel s) /\
    (exists c, procs (f_kernel s') !! proc = Some c /\
      without_links c = without_links (new_entry (u16 (Z.of_nat k * 8)) 1 1 init zero_process)) /\
    forall a, a <> proc -> procs (f_kernel s') !! a = None.
Proof.
  intros Hq He Hkm Hp0 Hg Hfree.
  destruct (create_task_run kmalloc sizeof_process sizeof_tss tss_offset KERNEL_PAGE_DIR init s [] (replicate 31 []) proc kh k pg)
    as (s1 & E1 & Hq1 & Hf1 & Ho1 & c & Hc & Ec); try done.
  { by rewrite He. }
  unfold scheduler_init. unfold mbind at 1, st_bind at 1. rewrite (on_rest_run _ _ _ _ _ E1).
  assert (process_tab (f_kernel s1) !! 0%nat = Some proc) as Ht by by rewrite (queues_tab _ _ Hq1).
  assert (set_first_current (f_kernel s1) = Ret (tt, set_current (previous_process (f_kernel s1)) proc (f_kernel s1))) as E2.
  { unfold set_first_current. unfold mbind, st_bind. change 0 with (Z.of_nat 0). by rewrite (tab_ok _ _ _ Ht). }
  assert (exists s2, Fork.on_kernel set_first_current s1 = Ret (tt, s2) /\
    f_kernel s2 = set_current (previous_process (f_kernel s1)) proc (f_kernel s1)) as (s2 & E3 & Ek2).
  { eexists. unfold Fork.on_kernel. rewrite E2. by split. }
  unfold mbind at 1, st_bind at 1. rewrite (on_rest_run _ _ _ _ _ E3).
  exists s2. split; [reflexivity|]. rewrite Ek2. cbn [procs current_process first_time set_current].
  split; [by apply queues_set_current|]. split; [done|]. split; [done|]. split; [by exists c|].
  intros a Ha. specialize (Ho1 a Ha). rewrite He, lookup_empty in Ho1. by destruct (procs (f_kernel s1) !! a).
Qed.

(** C39: With no process yet, starting the scheduler and eighteen interrupts of the timer start the
    first task: it is made, it is the current process, and the one round of the scheduler those
    interrupts cause switches to it. *)
Theorem timer_starts_init (p : pit) (s : F) proc kh k pg :
  queues_ok (replicate 32 []) (f_kernel s) -> procs (f_kernel s) = ∅ -> first_time (f_kernel s) = true ->
  kmalloc (msize sizeof_process) (f_kheap s) = Ret (proc, kh) -> proc <> 0 ->
  alloc_gdt (f_pages s) = Ret (Z.of_nat k, pg) -> GDT (f_tables s) !! k = Some zero_descriptor ->
  0 <= Timer.tick p -> Timer.tick p + 18 < 2147483648 -> length (pit_handlers_tab p) = 2%nat ->
  handler <> 0 -> kstart <> 0 -> init <> 0 ->
  exists p' s', (_ ← scheduler_init; interrupts timer_call 18) (p, s) = Ret (tt, (p', s')) /\
    Timer.tick p' = Timer.tick p + 18 /\ pit_mode p' = PIT_SCHEDULER /\
    current_process (f_kernel s') = proc /\ first_time (f_kernel s') = false /\
    p_first_exec <$> procs (f_kernel s') !! proc = Some 2.
Proof.
  intros Hq He Hfirst Hkm Hp0 Hg Hfree Ht0 Ht Hl Hh Hk Hi.
  destruct (scheduler_init_run p s proc kh k pg Hq He Hkm Hp0 Hg Hfree) as (s1 & E1 & Hq1 & Hcur & Hf1 & (c & Hc & Ec) & Ho).
  destruct (schedule_round now kstart _ _ Hq1) as (sel & r & k2 & E2 & Hsel & _ & _ & Hsw).
  { rewrite Hcur. left. }
  { intros a q Ha. split; [done|]. left. destruct (decide (a = proc)) as [->|Hne]; [|by rewrite Ho in Ha].
    rewrite Hc in Ha. injection Ha as <-. by rewrite (f_equal p_eip Ec : p_eip c = init). }
  assert (sel = proc) as ->.
  { change (concat ([proc] :: replicate 31 [])) with [proc] in Hsel. by apply list_elem_of_singleton in Hsel. }
  rewrite Hf1, Hfirst in Hsw. cbn [orb] in Hsw. destruct Hsw as (Hsc & _ & Hsf & Hse & _).
  set (p1 := Pit PIT_SCHEDULER (Timer.tick p) (<[0%nat := handler]> (pit_handlers_tab p))) in *.
  eexists (Pit _ _ _), _. split.
  - unfold mbind, st_bind. rewrite E1.
    apply (eighteen_interrupts timer_call p1 s1 handler IRQ_ENABLE); cbn [p1 Timer.tick pit_mode pit_handlers_tab]; try done.
    + by rewrite length_insert.
    + apply list_lookup_insert_eq. lia.
    + unfold timer_call, scheduler_interrupt_handler, on_kernel. rewrite Z.eqb_refl. unfold_st. by rewrite E2.
  - by cbn [Timer.tick pit_mode f_kernel p1].
Qed.
End Boot.

(** ** A start *)

Definition no_processes : kstate := KState ∅ (replicate 32 0) (replicate 32 0) 0 0 true 0.

Lemma no_processes_queues : queues_ok (replicate 32 []) no_processes.
Proof.
  split; [done|done| |apply NoDup_nil_2|by intros p Hp%elem_of_nil].
  intros l Hl%elem_of_replicate_inv. by subst l.
Qed.

Definition before_init : forks unit unit :=
  Forks no_processes ∅ static_tables few_pages (Elf.Machine ∅ tt) tt 1.

Lemma timer_starts_init_witness : exists p' s',
  (_ ← scheduler_init (fun _ => mret 300) 100 104 60 0 9000 77; interrupts (timer_call 5 7 77) 18)
    (pit_boot, before_init) = Ret (tt, (p', s')) /\
  current_process (f_kernel s') = 300 /\ first_time (f_kernel s') = false.
Proof.
  destruct (timer_starts_init (fun _ => mret 300) 100 104 60 0 9000 5 7 77 pit_boot before_init
    300 tt 6 (set_gdt_map (replicate 7 1 ++ replicate 9 0) few_pages)) as (p' & s' & E & _ & _ & Hc & Hf & _);
    [exact no_processes_queues|reflexivity|reflexivity|reflexivity|lia|reflexivity|reflexivity|cbn; lia|cbn; lia|reflexivity|lia|lia|lia|].
  exists p', s'. split; [exact E|]. split; [exact Hc|exact Hf].
Defined.
