(* ===== verification/Exception.v ===== *)
(** * Exceptions of the processor ([platform/i386/arch/exception.c])

    Each handler prints a report with the registers and ends the current process
    through [kexit].  The state is the console beside the processes. *)

From Stdlib Require Import String.
From S2P Require Import Prelude Conv Printk Console Process Sched Signal Fork.

(** ** The report *)

(** A line of the second format: [name=%d], each behind with a tab, and a newline. *)
Definition reg_line (names : list string) : list Z :=
  concat (map (fun r => literal r ++ literal "=%d" ++ [9]) names) ++ [10].

Definition error_format : list Z := literal "ERROR=[%s] CODE=[%d]" ++ [10].
Definition registers_format : list Z :=
  reg_line ["ds"; "es"; "fs"; "gs"]%string ++ reg_line ["edi"; "esi"; "ebp"; "esp"]%string ++
  reg_line ["ebx"; "edx"; "ecx"; "eax"]%string ++ reg_line ["tmp"; "eip"; "cs"; "eflags"]%string ++
  reg_line ["sys_esp"; "ss"]%string.

Definition registers (ctx : cpu_ctx) : list Z :=
  [c_ds ctx; c_es ctx; c_fs ctx; c_gs ctx; c_edi ctx; c_esi ctx; c_ebp ctx; c_esp ctx;
   c_ebx ctx; c_edx ctx; c_ecx ctx; c_eax ctx; c_tmp ctx; c_eip ctx; c_cs ctx; c_eflags ctx;
   c_sys_esp ctx; c_ss ctx].

Section Handlers.
Context {D : Type} `{CrtcLaws D}.
(** The address of the static buffer of [vsprintk], the time, and the address of [kstart]. *)
Context (tmp_addr now kstart : Z).

Abbreviation M := (st (log D * kstate)).

Definition on_console {A} (m : st (log D) A) : M A := fun s => '(a, k) ← m (fst s); Ret (a, (k, snd s)).
Definition on_processes {A} (m : st kstate A) : M A := fun s => '(a, k) ← m (snd s); Ret (a, (fst s, k)).

Definition log_and_exit (mesg : list Z) (ctx : cpu_ctx) (error_code : Z) : M unit :=
  _ ← on_console (printk tmp_addr error_format [Str (Some mesg); Int error_code]);
  _ ← on_console (printk tmp_addr registers_format (map Int (registers ctx)));
  _ ← on_processes (kexit now kstart error_code);
  mret tt.

Definition do_divide_error (ctx : cpu_ctx) (error_code : Z) : M unit := log_and_exit (literal "divide_error") ctx error_code.
Definition do_debug (ctx : cpu_ctx) (error_code : Z) : M unit := log_and_exit (literal "debug") ctx error_code.
Definition do_nmi (ctx : cpu_ctx) (error_code : Z) : M unit := log_and_exit (literal "nmi") ctx error_code.
Definition do_int3 (ctx : cpu_ctx) (error_code : Z) : M unit := log_and_exit (literal "int3") ctx error_code.
Definition do_overflow (ctx : cpu_ctx) (error_code : Z) : M unit := log_and_exit (literal "overflow") ctx error_code.
Definition do_bounds (ctx : cpu_ctx) (error_code : Z) : M unit := log_and_exit (literal "bounds") ctx error_code.
Definition do_invalid_operation (ctx : cpu_ctx) (error_code : Z) : M unit :=
  log_and_exit (literal "invalid_operation") ctx error_code.
Definition do_device_not_available (ctx : cpu_ctx) (error_code : Z) : M unit :=
  log_and_exit (literal "device_not_available") ctx error_code.
Definition do_coprocessor_segment_overrun (ctx : cpu_ctx) (error_code : Z) : M unit :=
  log_and_exit (literal "coprocessor_segment_overrun") ctx error_code.
Definition do_reserved (ctx : cpu_ctx) (error_code : Z) : M unit := log_and_exit (literal "reserved") ctx error_code.
Definition do_coprocessor_error (ctx : cpu_ctx) (error_code : Z) : M unit :=
  log_and_exit (literal "coprocessor_error") ctx error_code.
Definition do_invalid_TSS (ctx : cpu_ctx) (error_code : Z) : M unit := log_and_exit (literal "invalid_TSS") ctx error_code.
Definition do_segment_not_present (ctx : cpu_ctx) (error_code : Z) : M unit :=
  log_and_exit (literal "segment_not_present") ctx error_code.
Definition do_stack_segment (ctx : cpu_ctx) (error_code : Z) : M unit := log_and_exit (literal "stack_segment") ctx error_code.
Definition do_general_protection (ctx : cpu_ctx) (error_code : Z) : M unit :=
  log_and_exit (literal "general_protection") ctx error_code.
Definition do_alignment_check (ctx : cpu_ctx) (error_code : Z) : M unit := log_and_exit (literal "alignment_check") ctx error_code.
Definition do_page_fault (ctx : cpu_ctx) (error_code : Z) : M unit := log_and_exit (literal "page_fault") ctx error_code.
Definition do_double_fault (ctx : cpu_ctx) (error_code : Z) : M unit := log_and_exit (literal "double_fault") ctx error_code.

(** The handlers, by the names they print. *)
Definition exception_handlers : list (string * (cpu_ctx -> Z -> M unit)) :=
  [("divide_error", do_divide_error); ("debug", do_debug); ("nmi", do_nmi); ("int3", do_int3);
   ("overflow", do_overflow); ("bounds", do_bounds); ("invalid_operation", do_invalid_operation);
   ("device_not_available", do_device_not_available);
   ("coprocessor_segment_overrun", do_coprocessor_segment_overrun); ("reserved", do_reserved);
   ("coprocessor_error", do_coprocessor_error); ("invalid_TSS", do_invalid_TSS);
   ("segment_not_present", do_segment_not_present); ("stack_segment", do_stack_segment);
   ("general_protection", do_general_protection); ("alignment_check", do_alignment_check);
   ("page_fault", do_page_fault); ("double_fault", do_double_fault)]%string.

(** ** What a handler does *)

Definition error_pieces (mesg : list Z) (error_code : Z) : list piece :=
  [Text (literal "ERROR=["); Quoted mesg; Text (literal "] CODE=["); Decimal error_code; Text (literal "]" ++ [10])].

(** Each register behind its name. *)
Definition registers_pieces (ctx : cpu_ctx) : list piece :=
  [Text (literal "ds="); Decimal (c_ds ctx); Text (9 :: literal "es="); Decimal (c_es ctx);
   Text (9 :: literal "fs="); Decimal (c_fs ctx); Text (9 :: literal "gs="); Decimal (c_gs ctx); Text [9; 10];
   Text (literal "edi="); Decimal (c_edi ctx); Text (9 :: literal "esi="); Decimal (c_esi ctx);
   Text (9 :: literal "ebp="); Decimal (c_ebp ctx); Text (9 :: literal "esp="); Decimal (c_esp ctx); Text [9; 10];
   Text (literal "ebx="); Decimal (c_ebx ctx); Text (9 :: literal "edx="); Decimal (c_edx ctx);
   Text (9 :: literal "ecx="); Decimal (c_ecx ctx); Text (9 :: literal "eax="); Decimal (c_eax ctx); Text [9; 10];
   Text (literal "tmp="); Decimal (c_tmp ctx); Text (9 :: literal "eip="); Decimal (c_eip ctx);
   Text (9 :: literal "cs="); Decimal (c_cs ctx); Text (9 :: literal "eflags="); Decimal (c_eflags ctx); Text [9; 10];
   Text (literal "sys_esp="); Decimal (c_sys_esp ctx); Text (9 :: literal "ss="); Decimal (c_ss ctx); Text [9; 10]].

Definition report (mesg : list Z) (ctx : cpu_ctx) (error_code : Z) : list Z :=
  text_of tmp_addr (error_pieces mesg error_code) ++ text_of tmp_addr (registers_pieces ctx).

Definition int_range (v : Z) : Prop := -2147483648 <= v < 2147483648.

Lemma registers_shown ctx : Forall int_range (registers ctx) -> Forall shown_piece (registers_pieces ctx).
Proof.
  unfold registers. rewrite !Forall_cons. intros Hr. decompose [and] Hr. unfold registers_pieces.
  repeat (apply List.Forall_cons; [first [assumption|by repeat constructor]|]). apply List.Forall_nil.
Qed.

Lemma type_text_app t a b : type_text t (a ++ b) = type_text t a ≫= fun t => type_text t b.
Proof.
  revert t. induction a as [|c a IH]; intros t; [done|]. cbn [app]. rewrite !type_text_cons.
  destruct (type_char t c); cbn [mbind option_bind]; [apply IH|done].
Qed.

(** A short name, the registers, and then [kexit]. *)
Lemma log_and_exit_run mesg ctx error_code t k s :
  0 < tmp_addr < 4294967295 -> Forall (fun c => shown_char c = true) mesg -> (length mesg <= 64)%nat ->
  Forall int_range (error_code :: registers ctx) -> length (tmp_buf k) = MAX_BUFFER -> on_screen t (con k) ->
  exists t' k', type_text t (report mesg ctx error_code) = Some t' /\
    log_and_exit mesg ctx error_code (k, s) = (_ ← on_processes (kexit now kstart error_code); mret tt) (k', s) /\
    on_screen t' (con k') /\ kept (vram (con k)) (vram (con k')).
Proof.
  intros Ha Hm Hl [Hc Hr]%Forall_cons Hb Hs.
  destruct (printk_pieces tmp_addr (error_pieces mesg error_code) k t Ha) as (t1 & k1 & T1 & E1 & S1 & B1 & K1);
    [|unfold MAX_BUFFER; cbn; lia|done|done|].
  { unfold error_pieces. repeat (apply List.Forall_cons; [first [assumption|by repeat constructor]|]). apply List.Forall_nil. }
  destruct (printk_pieces tmp_addr (registers_pieces ctx) k1 t1 Ha (registers_shown ctx Hr)) as (t2 & k2 & T2 & E2 & S2 & B2 & K2);
    [unfold MAX_BUFFER; cbn; lia|done|done|].
  exists t2, k2. split; [|split; [|split; [done|by etrans]]].
  - unfold report. rewrite type_text_app, T1. exact T2.
  - unfold log_and_exit. unfold mbind at 1, st_bind at 1. unfold on_console at 1. cbn [fst snd].
    change error_format with (format_of (error_pieces mesg error_code)).
    change [Str (Some mesg); Int error_code] with (args_of (error_pieces mesg error_code)). rewrite E1. cbn [mbind outcome_bind].
    unfold mbind at 1, st_bind at 1. unfold on_console at 1. cbn [fst snd].
    change registers_format with (format_of (registers_pieces ctx)).
    change (map Int (registers ctx)) with (args_of (registers_pieces ctx)). by rewrite E2.
Qed.

Lemma handlers_log : Forall (fun e => snd e = log_and_exit (literal (fst e)) /\
    Forall (fun c => shown_char c = true) (literal (fst e)) /\ (length (literal (fst e)) <= 64)%nat) exception_handlers.
Proof.
  unfold exception_handlers.
  repeat (apply List.Forall_cons; [split; [reflexivity|split; [by repeat constructor|cbn; lia]]|]). apply List.Forall_nil.
Qed.

(** C40: Whatever exception the processor raises, its handler shows a report with the name of the
    exception, its error code and the value of each register in decimal, stores to nothing outside
    the screen, and goes on as [kexit] does with the error code as the exit code; the process that
    raised it is not ended by that. *)
Theorem exceptions_report name h ctx error_code t k s :
  (name, h) ∈ exception_handlers -> 0 < tmp_addr < 4294967295 ->
  Forall int_range (error_code :: registers ctx) -> length (tmp_buf k) = MAX_BUFFER -> on_screen t (con k) ->
  exists t' k', type_text t (report (literal name) ctx error_code) = Some t' /\
    h ctx error_code (k, s) = (_ ← on_processes (kexit now kstart error_code); mret tt) (k', s) /\
    on_screen t' (con k') /\ kept (vram (con k)) (vram (con k')) /\
    forall s' k'', h ctx error_code (k, s) = Ret (tt, (k'', s')) -> no_new_zombie s s'.
Proof.
  intros Hin Ha Hr Hb Hs. pose proof (proj1 (Forall_forall _ _) handlers_log _ Hin) as (Eh & Hm & Hl). cbn [fst snd] in *. subst h.
  destruct (log_and_exit_run (literal name) ctx error_code t k s Ha Hm Hl Hr Hb Hs) as (t' & k' & T & E & S' & K).
  exists t', k'. do 4 (split; [done|]). intros s' k''. rewrite E. unfold on_processes. unfold_st. cbn [snd].
  destruct (kexit now kstart error_code s) as [[r s1]| | |] eqn:Ek; try done. cbn [mbind outcome_bind fst]. intros [= _ <-].
  exact (kexit_makes_no_zombie now kstart error_code s r s1 Ek).
Qed.
End Handlers.

(** ** A division by zero *)

Definition divided : cpu_ctx := Ctx 35 35 35 35 0 0 0 900 0 0 0 0 0 5002 27 514 0 35.

Definition cleared_log : log (Z * gmap Z Z) := Log cleared (replicate MAX_BUFFER 0) [].

Lemma exceptions_report_witness : exists t' k',
  type_text (Term (replicate 2000 blank) 0) (report 4096 (literal "divide_error") divided 0) = Some t' /\
  do_divide_error 4096 5 7 divided 0 (cleared_log, two_processes) =
    (_ ← on_processes (kexit 5 7 0); mret tt) (k', two_processes) /\ on_screen t' (con k').
Proof.
  destruct (exceptions_report 4096 5 7 "divide_error" (do_divide_error 4096 5 7) divided 0
    (Term (replicate 2000 blank) 0) cleared_log two_processes) as (t' & k' & T & E & S' & _).
  - left.
  - by split.
  - unfold registers, int_range. repeat (apply List.Forall_cons; [split; [discriminate|reflexivity]|]). apply List.Forall_nil.
  - apply length_replicate.
  - exact cleared_blank.
  - exists t', k'. split; [exact T|]. split; [exact E|exact S'].
Defined.
