(* ===== verification/IoRegion.v ===== *)
(** * Port regions ([platform/i386/arch/io_req.c])

    The table in which drivers reserve ranges of ports.  A result is the slot of the
    region, or [IO_INVALID]; the messages of the refusals are left out. *)

From S2P Require Import Prelude.

Definition NR_IO_DESCRIP_NAME_MAX : Z := 128.
Definition NR_IO_REGIONS : Z := 32.
Definition IO_INVALID : Z := -1.

Record io_region := IoRegion { io_id : Z; io_start : Z; io_finish : Z; io_descr : list Z }.

Record regions := Regions { io_tab : list io_region; curr : Z; id : Z }.

Definition zero_region : io_region := IoRegion 0 0 0 (replicate 128 0).
Definition no_regions : regions := Regions (replicate 32 zero_region) 0 0.

(** ** Operations *)

(** [strncpy] into the array of 128, and the NUL at [len]. *)
Definition descr_of (desc : list Z) : list Z :=
  <[length desc := 0]> (take 128 desc ++ replicate (128 - length desc) 0).

(** The two tests of the loop. *)
Definition overlaps (start finished : Z) (r : io_region) : bool :=
  ((io_start r <=? start) && (start <=? io_finish r)) || ((io_start r <=? finished) && (finished <=? io_finish r)).

(** [desc] is [None] for NULL, and the characters before the NUL. *)
Definition io_request_region (start finished : Z) (desc : option (list Z)) : st regions Z :=
  s ← get;
  match desc with
  | None => mret IO_INVALID
  | Some desc =>
      if finished <=? start then mret IO_INVALID
      else if i32 start <? 0 then mret IO_INVALID
      else if i32 finished <? 0 then mret IO_INVALID
      else if curr s + 1 =? NR_IO_REGIONS then mret IO_INVALID
      else if NR_IO_DESCRIP_NAME_MAX <=? Z.of_nat (length desc) then mret IO_INVALID
      else if existsb (overlaps start finished) (take (Z.to_nat (curr s)) (io_tab s)) then mret IO_INVALID
      else
        let curr := u32 (curr s + 1) in
        let id := u32 (id s + 1) in
        let r := IoRegion (i32 id) start finished (descr_of desc) in
        if (Z.to_nat curr <? length (io_tab s))%nat then
          _ ← put (Regions (<[Z.to_nat curr := r]> (io_tab s)) curr id); mret (i32 curr)
        else fault
  end.

(** [io_tab[i] = io_tab[j]], [n] turns. *)
Fixpoint move_down (n i j : nat) (tab : list io_region) : list io_region :=
  match n with O => tab | S n => move_down n (S i) (S j) (<[i := nth j tab zero_region]> tab) end.

(** The loop from [i] on, [n] turns. *)
Fixpoint release_from (n i : nat) (rid : Z) (s : regions) : regions :=
  match n with
  | O => s
  | S n =>
      if io_id (nth i (io_tab s) zero_region) =? rid then
        Regions (move_down (Z.to_nat (curr s) - (i + 1)) i (i + 1) (io_tab s)) (u32 (curr s - 1)) (id s)
      else release_from n (S i) rid s
  end.

Definition io_release_region (rid : Z) : st regions unit := modify (fun s => release_from (Z.to_nat (curr s)) 0 rid s).

(** What [*region] and [*len] become; [false] for a null pointer. *)
Definition io_region_info (region len : bool) : st regions (option (list io_region * Z)) :=
  if negb region || negb len then mret None else s ← get; mret (Some (io_tab s, curr s)).

(** ** A region that is granted *)

(** The slots up to [curr] have identifiers up to [id], and no two the same. *)
Record io_ok (s : regions) : Prop := IoOk {
  io_length : length (io_tab s) = 32%nat;
  io_curr : 0 <= curr s < 32;
  io_ids : curr s <= id s;
  io_low i r : Z.of_nat i <= curr s -> io_tab s !! i = Some r -> 0 <= io_id r <= id s;
  io_distinct i j r q : Z.of_nat i <= curr s -> Z.of_nat j <= curr s ->
    io_tab s !! i = Some r -> io_tab s !! j = Some q -> io_id r = io_id q -> i = j
}.

Lemma no_regions_ok : io_ok no_regions.
Proof.
  split; cbn [io_tab curr id no_regions]; [done|lia|lia| |lia].
  intros i r _ [-> _]%lookup_replicate. done.
Qed.

(** The checks passed. *)
Definition grantable (start finished : Z) (desc : list Z) (s : regions) : Prop :=
  start < finished /\ finished < 2147483648 /\ curr s + 1 < NR_IO_REGIONS /\ Z.of_nat (length desc) < NR_IO_DESCRIP_NAME_MAX /\
  Forall (fun r => ~ io_start r <= start <= io_finish r /\ ~ io_start r <= finished <= io_finish r)
    (take (Z.to_nat (curr s)) (io_tab s)).

Lemma overlaps_spec start finished r :
  overlaps start finished r = false <-> ~ io_start r <= start <= io_finish r /\ ~ io_start r <= finished <= io_finish r.
Proof. unfold overlaps. zcases; cbn; (split; [lia|done]) || (split; [done|lia]). Qed.

Definition granted (start finished : Z) (desc : list Z) (s : regions) : regions :=
  Regions (<[Z.to_nat (curr s + 1) := IoRegion (id s + 1) start finished (descr_of desc)]> (io_tab s)) (curr s + 1) (id s + 1).

(** A request is granted exactly when the checks hold, and takes the slot behind the last. *)
Lemma request_spec start finished desc s : io_ok s -> 0 <= start -> 0 <= finished < 4294967296 -> id s < 2147483647 ->
  (grantable start finished desc s /\
    io_request_region start finished (Some desc) s = Ret (curr s + 1, granted start finished desc s)) \/
  (~ grantable start finished desc s /\ io_request_region start finished (Some desc) s = Ret (IO_INVALID, s)).
Proof.
  intros [Hl Hc Hi _ _] Hs Hf Hid. unfold grantable, io_request_region, NR_IO_REGIONS, NR_IO_DESCRIP_NAME_MAX.
  unfold get. unfold_st. cbn beta iota.
  destruct (Z.leb_spec finished start); [right; split; [lia|done]|].
  assert (i32 finished < 0 <-> 2147483648 <= finished) as Ef.
  { destruct (Z.lt_ge_cases finished 2147483648); [rewrite i32_small by lia; lia|].
    unfold i32, swrap. pow2. Z.div_mod_to_equations. lia. }
  destruct (Z.ltb_spec (i32 start) 0) as [Hn|_].
  { right. split; [|done]. intros (_ & ? & _). rewrite i32_small in Hn; lia. }
  destruct (Z.ltb_spec (i32 finished) 0) as [Hn|Hn]; [right; split; [lia|done]|].
  destruct (Z.eqb_spec (curr s + 1) 32); [right; split; [lia|done]|].
  destruct (Z.leb_spec 128 (Z.of_nat (length desc))); [right; split; [lia|done]|].
  destruct (existsb _ _) eqn:Ex.
  - right. split; [|done]. intros (_ & _ & _ & _ & Hno). apply existsb_exists in Ex as (r & Hr & Ho).
    rewrite Forall_forall in Hno. specialize (Hno r (proj2 (list_elem_of_In _ _) Hr)). apply overlaps_spec in Hno. congruence.
  - left. split.
    + do 4 (split; [lia|]). apply Forall_forall. intros r Hr. apply overlaps_spec.
      destruct (overlaps start finished r) eqn:Eo; [|done]. rewrite <- Ex. symmetry. apply existsb_exists.
      exists r. split; [by apply list_elem_of_In|done].
    + rewrite !u32_small, !i32_small by lia. rewrite (proj2 (Nat.ltb_lt _ _)) by lia. done.
Qed.

Lemma granted_ok start finished desc s : io_ok s -> grantable start finished desc s -> io_ok (granted start finished desc s).
Proof.
  intros [Hl Hc Hi Hlow Hd] (_ & _ & Hn & _). unfold NR_IO_REGIONS in Hn. split; cbn [io_tab curr id granted].
  - by rewrite length_insert.
  - lia.
  - lia.
  - intros i r Hir E. destruct (decide (i = Z.to_nat (curr s + 1))) as [->|Hne].
    + rewrite list_lookup_insert_eq in E by lia. injection E as <-. cbn [io_id]. lia.
    + rewrite list_lookup_insert_ne in E by done. specialize (Hlow i r ltac:(lia) E). lia.
  - intros i j r q Hir Hjq Er Eq Eid.
    destruct (decide (i = Z.to_nat (curr s + 1))) as [->|Hni], (decide (j = Z.to_nat (curr s + 1))) as [->|Hnj]; [done| | |].
    + rewrite list_lookup_insert_eq in Er by lia. injection Er as <-. rewrite list_lookup_insert_ne in Eq by done.
      specialize (Hlow j q ltac:(lia) Eq). cbn [io_id] in Eid. lia.
    + rewrite list_lookup_insert_eq in Eq by lia. injection Eq as <-. rewrite list_lookup_insert_ne in Er by done.
      specialize (Hlow i r ltac:(lia) Er). cbn [io_id] in Eid. lia.
    + rewrite list_lookup_insert_ne in Er, Eq by done. apply (Hd i j r q); (lia || done).
Qed.

(** A request and what it leaves: the slot of the region is the result, no region
    that is checked contains one of its ends, and the other slots are kept. *)
Theorem request_grants start finished desc s r s' :
  io_ok s -> 0 <= start -> 0 <= finished < 4294967296 -> id s < 2147483647 ->
  io_request_region start finished (Some desc) s = Ret (r, s') -> r <> IO_INVALID ->
  io_ok s' /\ 0 < r < NR_IO_REGIONS /\ curr s' = r /\
  io_tab s' !! Z.to_nat r = Some (IoRegion (id s') start finished (descr_of desc)) /\
  forall i q, io_tab s !! i = Some q -> i <> Z.to_nat r ->
    io_tab s' !! i = Some q /\ (Z.of_nat i < curr s -> ~ io_start q <= start <= io_finish q /\ ~ io_start q <= finished <= io_finish q).
Proof.
  intros Hok Hs Hf Hid E Hr. destruct (request_spec start finished desc s Hok Hs Hf Hid) as [[Hg E']|[_ E']];
    rewrite E' in E; injection E as <- <-; [|done].
  pose proof (granted_ok start finished desc s Hok Hg) as Hok'. destruct Hok as [Hl Hc Hi _ _].
  destruct Hg as (_ & _ & Hn & _ & Hno). unfold NR_IO_REGIONS in *. cbn [curr id io_tab granted].
  split; [done|]. split; [lia|]. split; [done|]. split; [apply list_lookup_insert_eq; lia|].
  intros i q Eq Hne. rewrite list_lookup_insert_ne by done. split; [done|]. intros Hir.
  rewrite Forall_forall in Hno. apply Hno. apply list_elem_of_lookup. exists i. rewrite lookup_take_lt by lia. done.
Qed.

(** ** What the loops leave out *)

(** The last region is not looked at: the same ports are granted again at once. *)
Theorem newest_granted_again start finished desc s :
  io_ok s -> 0 < start -> 0 <= finished < 4294967296 -> id s + 1 < 2147483647 ->
  grantable start finished desc s -> curr s + 2 < NR_IO_REGIONS ->
  io_finish (nth (Z.to_nat (curr s)) (io_tab s) zero_region) < start ->
  io_request_region start finished (Some desc) (granted start finished desc s) =
    Ret (curr s + 2, granted start finished desc (granted start finished desc s)).
Proof.
  intros Hok Hs Hf Hid Hg Hn Hlast. pose proof (granted_ok start finished desc s Hok Hg) as Hok'.
  destruct (request_spec start finished desc _ Hok' ltac:(lia) Hf ltac:(cbn [id granted]; lia)) as [[_ E]|[Hno _]].
  - rewrite E. cbn [curr granted]. do 2 f_equal. lia.
  - exfalso. apply Hno. destruct Hok as [Hl Hc Hi _ _]. destruct Hg as (H1 & H2 & _ & H4 & H5).
    unfold grantable, NR_IO_REGIONS in *. do 2 (split; [done|]). split; [cbn [curr granted]; lia|]. split; [done|].
    cbn [curr io_tab granted]. rewrite take_insert_ge by lia.
    replace (Z.to_nat (curr s + 1)) with (S (Z.to_nat (curr s))) by lia.
    destruct (lookup_lt_is_Some_2 (io_tab s) (Z.to_nat (curr s))) as [r Er]; [lia|].
    rewrite (take_S_r _ _ r Er). apply Forall_app. split; [exact H5|]. apply Forall_singleton.
    rewrite (nth_lookup_Some _ _ _ _ Er) in Hlast. lia.
Qed.

Lemma move_down_spec n : forall i tab, (i + n < length tab)%nat ->
  move_down n i (i + 1) tab = take i tab ++ take n (drop (i + 1) tab) ++ drop (i + n) tab.
Proof.
  induction n as [|n IH]; intros i tab Hn; cbn [move_down].
  - rewrite take_0, Nat.add_0_r. cbn [app]. by rewrite take_drop.
  - change (S (i + 1)) with (S i + 1)%nat. rewrite IH by (rewrite length_insert; lia).
    destruct (lookup_lt_is_Some_2 tab (i + 1)) as [r Er]; [lia|]. rewrite (nth_lookup_Some _ _ _ _ Er).
    destruct (lookup_lt_is_Some_2 tab i) as [q Eq]; [lia|].
    rewrite (take_S_r _ _ r) by (rewrite list_lookup_insert_eq by lia; done).
    rewrite take_insert_ge, !drop_insert_lt by lia.
    rewrite (drop_S tab r (i + 1)) by done. cbn [take]. rewrite <- !app_assoc. cbn [app].
    replace (S i + 1)%nat with (S (i + 1)) by lia. by replace (S i + n)%nat with (i + S n)%nat by lia.
Qed.

(** The first slot with the identifier is found. *)
Lemma release_from_spec rid s n : forall i k r, (i <= k < i + n)%nat -> io_tab s !! k = Some r -> io_id r = rid ->
  (forall j q, (i <= j < k)%nat -> io_tab s !! j = Some q -> io_id q <> rid) -> (k < length (io_tab s))%nat ->
  release_from n i rid s =
    Regions (move_down (Z.to_nat (curr s) - (k + 1)) k (k + 1) (io_tab s)) (u32 (curr s - 1)) (id s).
Proof.
  induction n as [|n IH]; intros i k r Hk Er Hid Hno Hl; [lia|]. cbn [release_from].
  destruct (decide (i = k)) as [->|Hne].
  - rewrite (nth_lookup_Some _ _ _ _ Er), Hid, Z.eqb_refl. done.
  - destruct (lookup_lt_is_Some_2 (io_tab s) i) as [q Eq]; [lia|]. rewrite (nth_lookup_Some _ _ _ _ Eq).
    rewrite (proj2 (Z.eqb_neq _ _)) by (apply (Hno i q); [lia|done]).
    apply (IH (S i) k r); try done; [lia|]. intros j q' Hj. apply Hno. lia.
Qed.

Lemma release_from_none rid s n : forall i, (i + n <= length (io_tab s))%nat ->
  (forall j q, (i <= j < i + n)%nat -> io_tab s !! j = Some q -> io_id q <> rid) -> release_from n i rid s = s.
Proof.
  induction n as [|n IH]; intros i Hl Hno; cbn [release_from]; [done|].
  destruct (lookup_lt_is_Some_2 (io_tab s) i) as [q Eq]; [lia|]. rewrite (nth_lookup_Some _ _ _ _ Eq).
  rewrite (proj2 (Z.eqb_neq _ _)) by (apply (Hno i q); [lia|done]).
  apply IH; [lia|]. intros j q' Hj. apply Hno. lia.
Qed.

(** The last region is not found either. *)
Theorem newest_not_released s r : io_ok s -> io_tab s !! Z.to_nat (curr s) = Some r ->
  io_release_region (io_id r) s = Ret (tt, s).
Proof.
  intros [Hl Hc _ _ Hd] Er. unfold io_release_region, modify. rewrite release_from_none; [done|lia|].
  intros j q Hj Eq Eid. assert (j = Z.to_nat (curr s)) by (apply (Hd j _ q r); (lia || done)). lia.
Qed.

(** Another region that is released goes, and the last one with it: only what was
    checked before is left. *)
Theorem release_forgets_newest s i r newest : io_ok s -> Z.of_nat i < curr s ->
  io_tab s !! i = Some r -> io_tab s !! Z.to_nat (curr s) = Some newest ->
  exists s', io_release_region (io_id r) s = Ret (tt, s') /\ curr s' = curr s - 1 /\
    forall j q, Z.of_nat j <= curr s' -> io_tab s' !! j = Some q -> io_id q <> io_id newest.
Proof.
  intros [Hl Hc _ _ Hd] Hi Er En. eexists. split; [reflexivity|].
  rewrite (release_from_spec _ _ _ 0 i r) by
    (done || lia || (intros j q Hj Eq Eid; assert (j = i) by (apply (Hd j i q r); (lia || done)); lia)).
  cbn [curr io_tab]. rewrite u32_small by lia. split; [done|]. intros j q Hj Ej Eid.
  assert (exists k, (k < Z.to_nat (curr s))%nat /\ io_tab s !! k = Some q) as (k & Hk & Ek).
  { rewrite move_down_spec in Ej by lia. set (n := (Z.to_nat (curr s) - (i + 1))%nat) in Ej.
    apply lookup_app_Some in Ej as [Ej | [H1 Ej]].
    - apply lookup_take_Some in Ej as [Ej ?]. exists j. split; [lia|done].
    - rewrite length_take in *. apply lookup_app_Some in Ej as [Ej | [H2 Ej]].
      + apply lookup_take_Some in Ej as [Ej ?]. rewrite lookup_drop in Ej. eexists. split; [|exact Ej]. lia.
      + rewrite length_take, length_drop in *. rewrite lookup_drop in Ej. eexists. split; [|exact Ej]. lia. }
  assert (k = Z.to_nat (curr s)) by (apply (Hd k _ q newest); (lia || done)). lia.
Qed.

(** ** From boot *)

(** Three regions: their slots, the same ports once more, and a region around the first. *)
Lemma regions_granted :
  (a ← io_request_region 0x60 0x64 (Some [107]); b ← io_request_region 0x1F0 0x1F7 (Some [100]);
   c ← io_request_region 0x1F0 0x1F7 (Some [100]); d ← io_request_region 0x10 0x70 (Some [120]);
   mret [a; b; c; d]) no_regions ≫= (fun r => Ret (fst r)) = Ret [1; 2; 3; 4].
Proof. reflexivity. Qed.
