(* ===== verification/Dma.v ===== *)
(** * Programming a DMA channel ([mm/dma.c])

    The state is the sequence of bytes written to ports.  Interrupts are disabled
    around the writes of [_dma_io]; the two instructions are left out. *)

From S2P Require Import Prelude.

Definition LOW_BYTE (x : Z) : Z := Z.land x 0x00FF.
Definition HI_BYTE (x : Z) : Z := Z.shiftr (Z.land x 0xFF00) 8.

Definition MaskReg : list Z := [0x0A; 0x0A; 0x0A; 0x0A; 0xD4; 0xD4; 0xD4; 0xD4].
Definition ModeReg : list Z := [0x0B; 0x0B; 0x0B; 0x0B; 0xD6; 0xD6; 0xD6; 0xD6].
Definition ClearReg : list Z := [0x0C; 0x0C; 0x0C; 0x0C; 0xD8; 0xD8; 0xD8; 0xD8].
Definition PagePort : list Z := [0x87; 0x83; 0x81; 0x82; 0x8F; 0x8B; 0x89; 0x8A].
Definition AddrPort : list Z := [0x00; 0x02; 0x04; 0x06; 0xC0; 0xC4; 0xC8; 0xCC].
Definition CountPort : list Z := [0x01; 0x03; 0x05; 0x07; 0xC2; 0xC6; 0xCA; 0xCE].

Definition ports := list (Z * Z).

Definition out_to (tab : list Z) (channel v : Z) : st ports unit := fun s =>
  match tab !! Z.to_nat channel with Some p => Ret (tt, s ++ [(p, u8 v)]) | None => Fault end.

Definition _dma_io (DMA_channel page offset length mode : Z) : st ports unit :=
  _ ← out_to MaskReg DMA_channel (Z.lor 0x04 DMA_channel);
  _ ← out_to ClearReg DMA_channel 0;
  _ ← out_to ModeReg DMA_channel mode;
  _ ← out_to AddrPort DMA_channel (LOW_BYTE offset);
  _ ← out_to AddrPort DMA_channel (HI_BYTE offset);
  _ ← out_to PagePort DMA_channel page;
  _ ← out_to CountPort DMA_channel (LOW_BYTE length);
  _ ← out_to CountPort DMA_channel (HI_BYTE length);
  out_to MaskReg DMA_channel DMA_channel.

Definition dma_io (channel address length read : Z) : st ports unit :=
  let mode := if negb (read =? 0) then u8 (0x48 + channel) else u8 (0x44 + channel) in
  let page := u8 (Z.shiftr address 16) in
  let offset := Z.land address 0xFFFF in
  let length := u32 (length - 1) in
  _dma_io channel page offset length mode.

(** ** What the controller is told *)

(** The bytes a port gets, in their order. *)
Definition written (p : Z) (s : ports) : list Z := map snd (filter (fun w => fst w = p) s).

(** Two bytes, the low one first. *)
Definition word (l : list Z) : option Z := match l with [lo; hi] => Some (lo + 256 * hi) | _ => None end.

Lemma low_high x : 0 <= LOW_BYTE x < 256 /\ 0 <= HI_BYTE x < 256 /\ LOW_BYTE x + 256 * HI_BYTE x = x mod 65536.
Proof.
  unfold LOW_BYTE, HI_BYTE. change 0x00FF with (Z.ones 8). rewrite Z.shiftr_land. change (Z.shiftr 0xFF00 8) with (Z.ones 8).
  rewrite !Z.land_ones, Z.shiftr_div_pow2 by lia. change (2 ^ 8) with 256. Z.div_mod_to_equations. lia.
Qed.

(** The fields of the byte for the mode register: the channel, and the direction. *)
Definition mode_channel (m : Z) : Z := m mod 4.
Definition mode_transfer (m : Z) : Z := m / 4 mod 4.

(** On the channels of the first controller: the channel is masked first and
    enabled last, and in between the controller gets the channel's mode, the address
    below the page, the page, and one less than the length. *)
Theorem dma_io_programs channel address length read :
  0 <= channel < 4 -> 0 <= address < 16777216 -> 0 < length <= 65536 ->
  exists s page mode, dma_io channel address length read [] = Ret (tt, s) /\
    written 0x0A s = [4 + channel; channel] /\ head s = Some (0x0A, 4 + channel) /\ last s = Some (0x0A, channel) /\
    written 0x0B s = [mode] /\ mode_channel mode = channel /\ mode_transfer mode = (if read =? 0 then 1 else 2) /\
    written (nth (Z.to_nat channel) PagePort 0) s = [page] /\ 65536 * page + address mod 65536 = address /\
    word (written (nth (Z.to_nat channel) AddrPort 0) s) = Some (address mod 65536) /\
    word (written (nth (Z.to_nat channel) CountPort 0) s) = Some (length - 1).
Proof.
  intros Hc Ha Hl. set (page := address / 65536). set (mode := (if read =? 0 then 0x44 else 0x48) + channel).
  assert (u8 (Z.shiftr address 16) = page) as Ep.
  { rewrite Z.shiftr_div_pow2 by lia. change (2 ^ 16) with 65536. apply u8_small. subst page. Z.div_mod_to_equations. lia. }
  assert ((if negb (read =? 0) then u8 (0x48 + channel) else u8 (0x44 + channel)) = mode) as Em.
  { subst mode. destruct (read =? 0); cbn [negb]; apply u8_small; lia. }
  pose proof (low_high (Z.land address 0xFFFF)) as (Hl1 & Hh1 & E1). pose proof (low_high (u32 (length - 1))) as (Hl2 & Hh2 & E2).
  change 0xFFFF with (Z.ones 16) in *. rewrite land_low in * by lia. change (2 ^ 16) with 65536 in *. rewrite Z.mod_mod in E1 by lia.
  rewrite (u32_small (length - 1)), Z.mod_small in E2 by lia.
  unfold dma_io. rewrite Ep, Em, (land_low 16) by lia. change (2 ^ 16) with 65536.
  assert (0 <= page < 256) as Hp by (subst page; Z.div_mod_to_equations; lia).
  assert (mode_channel mode = channel /\ mode_transfer mode = (if read =? 0 then 1 else 2) /\ 0 <= mode < 256) as (Hm1 & Hm2 & Hm3).
  { subst mode. unfold mode_channel, mode_transfer. destruct (read =? 0); Z.div_mod_to_equations; lia. }
  assert (65536 * page + address mod 65536 = address) as Hpage by (subst page; Z.div_mod_to_equations; lia).
  rewrite (u32_small (length - 1)) in * by lia. clearbody page mode. clear Ep Em.
  set (lo1 := LOW_BYTE (address mod 65536)) in *. set (hi1 := HI_BYTE (address mod 65536)) in *. set (lo2 := LOW_BYTE (length - 1)) in *. set (hi2 := HI_BYTE (length - 1)) in *.
  unfold _dma_io, out_to. fold lo1 hi1 lo2 hi2. clearbody lo1 hi1 lo2 hi2.
  assert (channel = 0 \/ channel = 1 \/ channel = 2 \/ channel = 3) as [-> | [-> | [-> | ->]]] by lia; unfold_st;
    cbn [lookup list_lookup Z.to_nat Pos.to_nat Pos.iter_op Init.Nat.add MaskReg ClearReg ModeReg AddrPort CountPort PagePort app];
    rewrite !u8_small by (lia || by split); do 3 eexists; (split; [reflexivity|]); split_and!; try reflexivity; try done; first [rewrite <- E1; reflexivity | rewrite <- E2; reflexivity].
Qed.

(** On the second controller the last byte, which is to enable the channel, has the
    bit that masks it. *)
Lemma second_never_enabled channel address length read s : 4 <= channel < 8 ->
  dma_io channel address length read [] = Ret (tt, s) -> last s = Some (0xD4, channel) /\ Z.testbit channel 2 = true.
Proof.
  intros Hc. unfold dma_io, _dma_io, out_to. unfold_st.
  assert (channel = 4 \/ channel = 5 \/ channel = 6 \/ channel = 7) as [-> | [-> | [-> | ->]]] by lia;
    cbn [lookup list_lookup Z.to_nat Pos.to_nat Pos.iter_op Init.Nat.add MaskReg ClearReg ModeReg AddrPort CountPort PagePort app];
    intros [= <-]; done.
Qed.

(** No bytes at all are 65536. *)
Lemma zero_length_is_64K : exists s, dma_io 2 0 0 1 [] = Ret (tt, s) /\ word (written 0x05 s) = Some 65535.
Proof. eexists. split; reflexivity. Qed.
