(* ===== verification/Exit.v ===== *)
(** * Waiting for processes ([free_process] and [kwaitpid] of [kernel/exit.c])

    Freeing a process closes its files through the file layer, takes it out of its
    queue and gives back its descriptor and its memory.  The state is that of
    [kfork] with the file system beside it; what the processor does while a
    process that waits is switched out is a parameter. *)

From S2P Require Import Prelude Errno Device Layout Store Tree FileIO File Dir Page Segment Elf Exec.
From S2P Require Import Process Sched Signal Fork.

Definition WNOHANG : Z := 1.
Definition WUNTRACED : Z := 2.
Definition EINTR : Z := 4.

Record exits (T H K : Type) := Exits { e_forks : forks H K; e_fs : tree T }.
Arguments Exits {T H K}.
Arguments e_forks {T H K} _.
Arguments e_fs {T H K} _.

(** ** Files of a process *)

(** The file a descriptor refers to, when it points into the table of [proc]. *)
Definition own_desc (proc : Z) (d : desc_ptr) : option nat :=
  match d with In_tab p j => if p =? proc then Some j else None | _ => None end.

Definition as_dirs {T} (proc : Z) (b : body) (t : tree T) : dirs T :=
  Dirs (Files t (b_file_tab b) (own_desc proc <$> b_file_desc b) (b_cwd b)) (b_dir_tab b).

(** Additions to the times of the waiting process. *)
Definition add_child_times (u s : Z) (p : process) : process :=
  Process (p_state p) (p_counter p) (p_priority p) (p_signal p) (p_blocked p) (p_tss_seg p) (p_exit_code p) (p_pid p)
    (p_parent p) (p_pgrp p) (p_session p) (p_leader p) (p_uid p) (p_euid p) (p_suid p) (p_gid p) (p_egid p) (p_sgid p)
    (p_alarm p) (p_utime p) (p_stime p) (i32 (p_cutime p + u)) (i32 (p_cstime p + s)) (p_start_time p)
    (Process.p_first_exec p) (p_eip p) (p_sigaction p) (p_next p) (p_prev p).

(** [p_signal &= ~(1 << SIGCHLD)] *)
Definition clear_sigchld (p : process) : process :=
  set_p_signal (i32 (Z.land (p_signal p) (Z.lnot (Z.shiftl 1 SIGCHLD)))) p.

Inductive wait_hit := Stopped (p : Z) | Zombie (p : Z).

(** The body of the walk; the local carried is [fixup]. *)
Definition wait_body (pid options p : Z) (fixup : bool) : st kstate (bool + wait_hit) :=
  cur ← gets current_process;
  if p =? cur then mret (inl fixup)
  else
    c ← current;
    q ← load p;
    if negb (p_parent q =? p_pid c) then mret (inl fixup)
    else if (0 <? pid) && negb (p_pid q =? pid) then mret (inl fixup)
    else if (pid =? 0) && negb (p_pgrp q =? p_pgrp c) then mret (inl fixup)
    else if negb (0 <? pid) && negb (pid =? 0) && negb (pid =? -1) && negb (p_pgrp q =? i32 (- pid)) then mret (inl fixup)
    else if p_state q =? P_STOPPED then
      if Z.land options WUNTRACED =? 0 then mret (inl fixup) else mret (inr (Stopped p))
    else if p_state q =? P_ZOMBIE then mret (inr (Zombie p))
    else mret (inl true).

(** Taking [proc] out of its queue. *)
Definition unlink (proc : Z) : st kstate unit :=
  q ← load proc;
  let i := p_priority q in
  if (i <? 0) || (Z.of_nat Nr_PRIORITY <=? i) then panic
  else
    head ← tab i;
    _ ← (if head =? proc then tab_set i (p_next q) else mret tt);
    _ ← (if p_next q =? 0 then mret tt else update (p_next q) (set_p_prev (p_prev q)));
    q ← load proc;
    if p_prev q =? 0 then mret tt else update (p_prev q) (set_p_next (p_next q)).

(** The descriptor of a process. *)
Definition free_gdt (i : Z) : st mem unit :=
  if (i <? 0) || (Nr_GDT <? i) then panic
  else
    m ← get;
    if (Z.to_nat i <? length (GDT_MAP m))%nat then put (set_gdt_map (<[Z.to_nat i := 0]> (GDT_MAP m)) m) else fault.

Section Exit.

Context {T H K : Type} `{FsOps T} `{DevOps T} `{HeapOps H} (kfree : Z -> st K unit).

(** The time, the address of [kstart], the bounds of the walks of the file layer, and what runs while
    the current process is switched out. *)
Context (now kstart : Z) (elsewhere : st (exits T H K) unit).

Abbreviation E := (exits T H K).

Definition on_forks {A} (m : st (forks H K) A) : st E A := fun s =>
  match m (e_forks s) with
  | Ret (a, f) => Ret (a, Exits f (e_fs s))
  | Panic => Panic | Fault => Fault | NoFuel => NoFuel
  end.

Definition on_kern {A} (m : st kstate A) : st E A := on_forks (on_kernel m).

(** The image and the arguments of a process. *)
Fixpoint free_strings (n : nat) (l : list (Z * list Z)) : st H unit :=
  match n, l with
  | O, _ => mret tt
  | S n, (p, _) :: l => _ ← ho_free p; free_strings n l
  | S n, [] => fault
  end.

Definition release_memory (b : body) : st H unit :=
  _ ← (if b_exec b =? 0 then mret tt
       else _ ← ho_unset_read_only (b_exec b) (b_exec_size b); ho_free (b_exec b));
  if b_delete_argv b =? 0 then mret tt
  else _ ← free_strings (Z.to_nat (b_argc b)) (av_args (b_argv b)); ho_free (av_addr (b_argv b)).

(** The two loops that close files and directories, as the process itself. *)
Definition close_all (proc : Z) : st E unit := fun s =>
  match f_bodies (e_forks s) !! proc with
  | None => Fault
  | Some b =>
      let who := Caller (b_group b) (b_owner b) now in
      let x := Execs (as_dirs proc b (e_fs s)) (f_user (e_forks s)) (Image 0 0 0 0 null_argv 0 false false) 0 in
      match (_ ← close_files who MAX_FILES 0; close_dirs who MAX_DIR 0) x with
      | Ret (_, x) => Ret (tt, Exits (e_forks s) (f_tree (d_files (x_dirs x))))
      | Panic => Panic | Fault => Fault | NoFuel => NoFuel
      end
  end.

(** [kfree(proc)]: the process and the rest of it are gone. *)
Definition forget (proc : Z) : st E unit :=
  _ ← on_forks (on_kheap (kfree proc));
  _ ← on_kern (modify (fun k => set_procs (delete proc (procs k)) k));
  on_forks (modify (fun f => Forks (f_kernel f) (delete proc (f_bodies f)) (f_tables f) (f_pages f) (f_user f) (f_kheap f) (next_pid f))).

Definition free_process (proc : Z) : st E unit :=
  if proc =? 0 then mret tt
  else
    b ← on_forks (body_of proc);
    _ ← on_forks (on_user (on_heap (release_memory b)));
    _ ← close_all proc;
    _ ← on_kern (unlink proc);
    q ← on_kern (load proc);
    _ ← on_forks (Fork.on_pages (free_gdt (p_tss_seg q / 8)));
    forget proc.

(** The result, [None] when the function ends without one, and what is stored
    in [*status]. *)
Fixpoint kwaitpid (fuel : nat) (pid options : Z) : st E (option Z * option Z) :=
  match fuel with
  | O => lift NoFuel
  | S fuel =>
      r ← on_kern (for_processes (wait_body pid options) false);
      match r with
      | inr (Stopped p) => q ← on_kern (load p); mret (Some (p_pid q), Some 0x7F)
      | inr (Zombie p) =>
          q ← on_kern (load p);
          _ ← on_kern (update_current (add_child_times (p_utime q) (p_stime q)));
          _ ← free_process p;
          mret (Some (p_pid q), Some (p_exit_code q))
      | inl false => mret (None, None)
      | inl true =>
          if negb (Z.land options WNOHANG =? 0) then mret (Some 0, None)
          else
            _ ← on_kern (update_current (set_p_state P_INTERRUPTIBLE));
            _ ← on_kern (schedule now kstart);
            _ ← elsewhere;
            _ ← on_kern (update_current clear_sigchld);
            c ← on_kern current;
            if Z.land (p_signal c) (Z.shiftl 1 SIGCHLD) =? 0 then kwaitpid fuel pid options
            else mret (Some EINTR, None)
      end
  end.

End Exit.
