(* ===== verification/ExitSpec.v ===== *)
(** * What waiting and freeing do *)

From S2P Require Import Prelude Device Layout Perms Alloc Paths Store StoreSpec TreeSpec FileSpec TreeRuns FileRuns Tree FileIO File Dir Page Segment CString Elf Exec.
From S2P Require Import Process ProcQueue Sched Signal Fork ForkSpec Exit.

(** ** Taking a process out of its queue *)

Lemma queue_number Q1 (l : list Z) Q2 s : queues_ok (Q1 ++ l :: Q2) s -> (length Q1 < 32)%nat.
Proof. intros Hq. pose proof (queues_length _ _ Hq) as H. rewrite length_app in H. cbn [length] in H. unfold Nr_PRIORITY in H. lia. Qed.

Lemma queue_head Q1 (l : list Z) Q2 s : queues_ok (Q1 ++ l :: Q2) s ->
  process_tab s !! length Q1 = Some (hd 0 l) /\ (length Q1 < length (process_tab s))%nat.
Proof.
  intros Hq. rewrite (queues_tab _ _ Hq), list_lookup_fmap, lookup_app_r, Nat.sub_diag, length_map, length_app by done.
  cbn [length]. split; [done | lia].
Qed.

Lemma queue_member Q1 (l : list Z) Q2 s a : queues_ok (Q1 ++ l :: Q2) s -> a ∈ l -> a <> 0 /\ is_Some (procs s !! a).
Proof. intros Hq Ha. apply (queues_procs _ _ Hq). rewrite concat_split. apply elem_of_app. by left. Qed.

Lemma queue_ring Q1 (l : list Z) Q2 s : queues_ok (Q1 ++ l :: Q2) s -> ring (procs s) l /\ NoDup l.
Proof.
  intros Hq. split; [apply (queues_ring _ _ Hq), elem_of_app; right; left|].
  pose proof (queues_nodup _ _ Hq) as Hn. rewrite concat_split in Hn. by apply NoDup_app in Hn as (? & _).
Qed.

(** The heap after [unlink] in a queue of two or more. *)
Lemma unlink_run Q1 l1 p l2 Q2 s q :
  queues_ok (Q1 ++ (l1 ++ p :: l2) :: Q2) s -> l1 ++ l2 <> [] -> procs s !! p = Some q -> p_priority q = Z.of_nat (length Q1) ->
  exists nxt prv, next_in (procs s) p = Some nxt /\ prev_in (procs s) p = Some prv /\ nxt <> p /\ prv <> p /\
    is_Some (procs s !! nxt) /\ is_Some (procs s !! prv) /\
    unlink p s = Ret (tt, set_procs (alter (set_p_next nxt) prv (alter (set_p_prev prv) nxt (procs s)))
      (set_tab (length Q1) (hd 0 (l1 ++ l2)) s)).
Proof.
  intros Hq Hl Eq Epr. destruct (queue_head _ _ _ _ Hq) as [Ht Hi]. pose proof (queue_number _ _ _ _ Hq) as Hlt.
  destruct (queue_ring _ _ _ _ Hq) as [Hr Hnd].
  destruct (ring_neighbours _ p l1 l2 Hr Hnd Hl) as (nxt & prv & Fn & Fp & Hin1 & Hin2 & Hn & Hv).
  assert (forall a, a ∈ l1 ++ l2 -> a ∈ l1 ++ p :: l2) as Hsub by (intros a; rewrite !elem_of_app, elem_of_cons; tauto).
  destruct (queue_member _ _ _ _ nxt Hq (Hsub _ Hin1)) as [Hn0 Sn].
  destruct (queue_member _ _ _ _ prv Hq (Hsub _ Hin2)) as [Hv0 Sv].
  assert (p_next q = nxt) as En by (unfold next_in in Fn; rewrite Eq in Fn; by injection Fn).
  assert (p_prev q = prv) as Ep by (unfold prev_in in Fp; rewrite Eq in Fp; by injection Fp).
  exists nxt, prv. split_and!; try done.
  assert ((if hd 0 (l1 ++ p :: l2) =? p then tab_set (Z.of_nat (length Q1)) nxt else mret tt) s =
    Ret (tt, set_tab (length Q1) (hd 0 (l1 ++ l2)) s)) as Etab.
  { destruct l1 as [|h l1]; cbn [app hd].
    - rewrite Z.eqb_refl, tab_set_ok by done. do 3 f_equal.
      destruct l2 as [|y l2]; [done|]. destruct Hr as [[F _] _]. simpl. congruence.
    - apply NoDup_cons in Hnd as [Hh _]. rewrite (proj2 (Z.eqb_neq h p)) by (intros ->; apply Hh, elem_of_app; right; left).
      cbn [app hd] in Ht. unfold set_tab. rewrite list_insert_id by done. by destruct s. }
  unfold unlink, mbind, st_bind. unfold load at 1. rewrite Eq, Epr.
  rewrite (proj2 (Z.ltb_ge _ _)), (proj2 (Z.leb_gt _ _)) by (unfold Nr_PRIORITY; lia). cbn [orb].
  rewrite (tab_ok _ _ _ Ht), En, Etab. rewrite (proj2 (Z.eqb_neq nxt 0)) by done. rewrite Ep.
  rewrite update_alter by done. unfold load. cbn [procs set_procs set_tab].
  rewrite lookup_alter_ne by done. rewrite Eq, Ep, (proj2 (Z.eqb_neq prv 0)), En by done.
  rewrite update_alter by (cbn; by rewrite alter_is_Some). reflexivity.
Qed.

Lemma unlink_queues Q1 l1 p l2 Q2 s q :
  queues_ok (Q1 ++ (l1 ++ p :: l2) :: Q2) s -> l1 ++ l2 <> [] -> procs s !! p = Some q -> p_priority q = Z.of_nat (length Q1) ->
  exists s', unlink p s = Ret (tt, s') /\ queues_ok (Q1 ++ (l1 ++ l2) :: Q2) (set_procs (delete p (procs s')) s') /\
    same_fields (procs s) (procs s') /\ current_process s' = current_process s.
Proof.
  intros Hq Hl Eq Epr. destruct (queue_ring _ _ _ _ Hq) as [Hr Hnd].
  destruct (unlink_run Q1 l1 p l2 Q2 s q Hq Hl Eq Epr) as (nxt & prv & Fn & Fp & Hn & Hv & Sn & Sv & E).
  set (m' := alter (set_p_next nxt) prv (alter (set_p_prev prv) nxt (procs s))) in *.
  assert (same_fields (procs s) m') as Hsame by (eapply same_fields_trans; [apply same_set_prev | apply same_set_next]).
  assert (forall a, a <> p -> next_in (delete p m') a = if decide (a = prv) then Some nxt else next_in (procs s) a) as Hnext.
  { intros a Ha. unfold next_in at 1. rewrite lookup_delete_ne by done. fold (next_in m' a). unfold m'.
    by rewrite next_set_next, next_set_prev by (by rewrite alter_is_Some). }
  assert (forall a, a <> p -> prev_in (delete p m') a = if decide (a = nxt) then Some prv else prev_in (procs s) a) as Hprev.
  { intros a Ha. unfold prev_in at 1. rewrite lookup_delete_ne by done. fold (prev_in m' a). unfold m'.
    by rewrite prev_set_next, prev_set_prev. }
  destruct (ring_neighbours _ p l1 l2 Hr Hnd Hl) as (nxt' & prv' & Fn' & Fp' & Hin1 & Hin2 & _).
  rewrite Fn in Fn'. rewrite Fp in Fp'. injection Fn' as <-. injection Fp' as <-.
  assert (forall a, a ∈ l1 ++ l2 -> a ∈ l1 ++ p :: l2 /\ a <> p) as Hsub.
  { rewrite (Permutation_app_comm l1 (p :: l2)) in Hnd. apply NoDup_cons in Hnd as [Hp _]. intros a Ha. split.
    - revert Ha. rewrite !elem_of_app, elem_of_cons. tauto.
    - intros ->. apply Hp. revert Ha. rewrite !elem_of_app. tauto. }
  eexists. split; [exact E|]. split; [|split; [exact Hsame|done]].
  eapply (queues_replace Q1 (l1 ++ p :: l2) (l1 ++ l2) Q2 s); [exact Hq|done|..]; cbn [procs set_procs].
  - intros a Ha Hs. rewrite lookup_delete_ne; [by eapply same_some|]. intros <-. apply Ha.
    rewrite !elem_of_app, elem_of_cons. tauto.
  - intros a Ha. rewrite !elem_of_app, elem_of_cons in Ha.
    assert (a <> p /\ a <> nxt /\ a <> prv) as (Ha1 & Ha2 & Ha3).
    { rewrite elem_of_app in Hin1, Hin2. split; [|split]; intros ->; tauto. }
    rewrite Hnext, Hprev by done. by rewrite !decide_False.
  - by apply (ring_remove (procs s) (delete p m') p l1 l2 nxt prv).
  - rewrite (Permutation_app_comm l1 (p :: l2)) in Hnd. apply NoDup_cons in Hnd as [_ Hnd].
    by rewrite (Permutation_app_comm l1 l2).
  - intros a Ha. destruct (Hsub a Ha) as [Hin Hne]. destruct (queue_member _ _ _ _ a Hq Hin) as [H0 Hs]. split; [done|].
    split; [rewrite lookup_delete_ne by done; by eapply same_some|].
    pose proof (queues_nodup _ _ Hq) as Hd. rewrite concat_split in Hd. apply NoDup_app in Hd as (_ & Hd & _). by apply Hd.
Qed.

(** The last process of a queue stays the head of it. *)
Lemma unlink_last Q1 p Q2 s q :
  queues_ok (Q1 ++ [p] :: Q2) s -> procs s !! p = Some q -> p_priority q = Z.of_nat (length Q1) ->
  exists s', unlink p s = Ret (tt, s') /\ process_tab s' = process_tab s /\ same_fields (procs s) (procs s') /\
    current_process s' = current_process s.
Proof.
  intros Hq Eq Epr. destruct (queue_head _ _ _ _ Hq) as [Ht Hi]. pose proof (queue_number _ _ _ _ Hq) as Hlt.
  destruct (queue_ring _ _ _ _ Hq) as [[Fn Fp] _]. destruct (queue_member _ _ _ _ p Hq ltac:(left)) as [H0 _].
  assert (p_next q = p) as En by (unfold next_in in Fn; rewrite Eq in Fn; by injection Fn).
  assert (p_prev q = p) as Ep by (unfold prev_in in Fp; rewrite Eq in Fp; by injection Fp).
  cbn [hd] in Ht. unfold unlink, mbind, st_bind. unfold load at 1. rewrite Eq, Epr.
  rewrite (proj2 (Z.ltb_ge _ _)), (proj2 (Z.leb_gt _ _)) by (unfold Nr_PRIORITY; lia). cbn [orb].
  rewrite (tab_ok _ _ _ Ht), En, Ep, Z.eqb_refl, tab_set_ok, (proj2 (Z.eqb_neq p 0)) by done.
  rewrite update_alter by (by eexists). unfold load. cbn [procs set_procs set_tab].
  rewrite lookup_alter_eq, Eq. cbn [fmap option_fmap option_map p_prev p_next set_p_prev].
  rewrite (proj2 (Z.eqb_neq p 0)), En by done. rewrite update_alter by (cbn; rewrite alter_is_Some; by eexists).
  eexists. split; [done|]. cbn [process_tab procs set_procs set_tab current_process].
  split; [by apply list_insert_id|]. split; [|done].
  eapply same_fields_trans; [apply same_set_prev | apply same_set_next].
Qed.

Section Calls.

Context {T H K : Type} `{FsOps T} `{DevOps T} `{HeapOps H} (kfree : Z -> st K unit).
Context (now kstart : Z) (elsewhere : st (exits T H K) unit).

Abbreviation E := (exits T H K).

(** The state with the heap of users after [release_memory]. *)
Definition with_user_heap (u : H) (s : E) : E :=
  let f := e_forks s in
  Exits (Forks (f_kernel f) (f_bodies f) (f_tables f) (f_pages f) (Machine (ram (f_user f)) u) (f_kheap f) (next_pid f)) (e_fs s).

(** What freeing [p] asks of the heaps, the file layer and the table of descriptors. *)
Record freeable (s : E) (p : Z) (q : process) (b : body) (k : nat) (u : H) (t : tree T) (kh : K) : Prop := {
  fr_nonzero : p <> 0;
  fr_process : procs (f_kernel (e_forks s)) !! p = Some q;
  fr_body : f_bodies (e_forks s) !! p = Some b;
  fr_memory : release_memory b (heap_of (f_user (e_forks s))) = Ret (tt, u);
  fr_close : close_all now p (with_user_heap u s) = Ret (tt, Exits (e_forks (with_user_heap u s)) t);
  fr_descriptor : p_tss_seg q / 8 = Z.of_nat k;
  fr_map : (k < length (GDT_MAP (f_pages (e_forks s))))%nat /\ Z.of_nat k <= Nr_GDT;
  fr_kfree : kfree p (f_kheap (e_forks s)) = Ret (tt, kh)
}.

Lemma free_gdt_run k m : (k < length (GDT_MAP m))%nat -> Z.of_nat k <= Nr_GDT ->
  free_gdt (Z.of_nat k) m = Ret (tt, set_gdt_map (<[k := 0]> (GDT_MAP m)) m).
Proof.
  intros Hk Hn. unfold free_gdt. rewrite (proj2 (Z.ltb_ge (Z.of_nat k) 0)), (proj2 (Z.ltb_ge Nr_GDT (Z.of_nat k))) by lia. cbn [orb].
  unfold mbind, st_bind, get. rewrite Nat2Z.id, (proj2 (Nat.ltb_lt _ _)) by done. done.
Qed.

(** Everything but the queues. *)
Lemma free_process_run s p q b k u t kh k' :
  freeable s p q b k u t kh -> unlink p (f_kernel (e_forks s)) = Ret (tt, k') ->
  same_fields (procs (f_kernel (e_forks s))) (procs k') ->
  let f := e_forks s in
  free_process kfree now p s = Ret (tt, Exits
    (Forks (set_procs (delete p (procs k')) k') (delete p (f_bodies f)) (f_tables f)
      (set_gdt_map (<[k := 0]> (GDT_MAP (f_pages f))) (f_pages f)) (Machine (ram (f_user f)) u) kh (next_pid f)) t).
Proof.
  intros [Hz Hq Hb Hm Hc Hd [Hk Hn] Hf] Hu Hsame f. unfold free_process. rewrite (proj2 (Z.eqb_neq p 0)) by done.
  unfold mbind, st_bind. unfold on_forks at 1, body_of. rewrite Hb.
  unfold on_forks at 1, on_user, on_heap. cbn [e_forks e_fs]. rewrite Hm.
  cbn [e_forks e_fs]. unfold with_user_heap in Hc. cbn [e_forks] in Hc. fold f. fold f in Hc. rewrite Hc.
  unfold on_kern at 1, on_forks at 1, on_kernel at 1. cbn [e_forks e_fs f_kernel]. fold f in Hu. rewrite Hu.
  pose proof (Hsame p) as Hp. rewrite Hq in Hp.
  destruct (procs k' !! p) as [q'|] eqn:Eq'; [|done].
  assert (p_tss_seg q' = p_tss_seg q) as Et.
  { apply (f_equal (option_map p_tss_seg)) in Hp. cbn in Hp. by injection Hp. }
  unfold on_kern at 1, on_forks at 1, on_kernel at 1, load. cbn [e_forks e_fs f_kernel]. rewrite Eq'.
  unfold on_forks at 1, Fork.on_pages. cbn [e_forks e_fs f_pages]. rewrite Et, Hd, free_gdt_run by done.
  unfold forget, mbind, st_bind. unfold on_forks at 1, on_kheap. cbn [e_forks e_fs f_kheap]. fold f in Hf. rewrite Hf.
  reflexivity.
Qed.

(** Freeing a process that shares its queue with others gives back its descriptor and takes it out of the
    heap and of the queue, whose order and links stay those of the other processes. *)
Lemma free_process_shared s p q b k u t kh Q1 l1 l2 Q2 :
  freeable s p q b k u t kh -> queues_ok (Q1 ++ (l1 ++ p :: l2) :: Q2) (f_kernel (e_forks s)) ->
  p_priority q = Z.of_nat (length Q1) -> l1 ++ l2 <> [] ->
  exists s', free_process kfree now p s = Ret (tt, s') /\
    queues_ok (Q1 ++ (l1 ++ l2) :: Q2) (f_kernel (e_forks s')) /\
    procs (f_kernel (e_forks s')) !! p = None /\ f_bodies (e_forks s') = delete p (f_bodies (e_forks s)) /\
    GDT_MAP (f_pages (e_forks s')) = <[k := 0]> (GDT_MAP (f_pages (e_forks s))) /\
    forall a, a <> p -> without_links <$> procs (f_kernel (e_forks s')) !! a = without_links <$> procs (f_kernel (e_forks s)) !! a.
Proof.
  intros Hf Hq Hpr Hl. destruct (unlink_queues Q1 l1 p l2 Q2 _ q Hq Hl (fr_process _ _ _ _ _ _ _ _ Hf) Hpr)
    as (k' & Hu & Hq' & Hsame & _).
  eexists. split; [by eapply free_process_run|]. cbn [e_forks f_kernel f_bodies f_pages procs set_procs].
  split; [exact Hq'|]. split; [apply lookup_delete_eq|]. split; [done|]. split; [done|].
  intros a Ha. rewrite lookup_delete_ne by done. apply Hsame.
Qed.

(** Freeing the only process of queue 0 leaves the head of the queue pointing to freed memory, and
    the scheduler, which walks the queue, reads it. *)
Theorem free_last_dangles s p q b k u t kh Q2 n ks :
  freeable s p q b k u t kh -> queues_ok ([p] :: Q2) (f_kernel (e_forks s)) -> p_priority q = 0 ->
  current_process (f_kernel (e_forks s)) <> 0 ->
  exists s', free_process kfree now p s = Ret (tt, s') /\
    process_tab (f_kernel (e_forks s')) !! 0%nat = Some p /\ procs (f_kernel (e_forks s')) !! p = None /\
    schedule n ks (f_kernel (e_forks s')) = Fault.
Proof.
  intros Hf Hq Hpr Hc. pose proof (fr_process _ _ _ _ _ _ _ _ Hf) as Hp.
  destruct (unlink_last [] p Q2 _ q Hq Hp Hpr) as (k' & Hu & Ht & Hsame & Ec).
  eexists. split; [by eapply free_process_run|]. cbn [e_forks f_kernel process_tab set_procs procs].
  destruct (queue_head [] [p] Q2 _ Hq) as [Hh _]. cbn [hd length] in Hh. rewrite Ht. split; [done|]. split; [apply lookup_delete_eq|].
  unfold schedule, mbind, st_bind, gets. cbn [current_process set_procs]. rewrite Ec, (proj2 (Z.eqb_neq _ _) Hc).
  unfold for_processes, mbind, st_bind, get. change Nr_PRIORITY with (Datatypes.S 31).
  cbn [walk_from]. unfold mbind, st_bind. unfold tab. cbn [Z.leb Z.compare]. change (Z.to_nat 0) with 0%nat.
  cbn [process_tab set_procs]. rewrite Ht, Hh. cbn [walk].
  rewrite (proj2 (Z.eqb_neq p 0)) by apply Hf. unfold mbind, st_bind, each, mbind, st_bind, update.
  cbn [procs set_procs]. by rewrite lookup_delete_eq.
Qed.

(** ** Waiting *)

(** The process [q] is one [pid] asks for, and has something to report. *)
Definition matches (pid : Z) (c q : process) : bool :=
  (p_parent q =? p_pid c) &&
  (if 0 <? pid then p_pid q =? pid else if pid =? 0 then p_pgrp q =? p_pgrp c
   else (pid =? -1) || (p_pgrp q =? i32 (- pid))).

Definition reports (options : Z) (q : process) : bool :=
  (p_state q =? P_ZOMBIE) || (p_state q =? P_STOPPED) && negb (Z.land options WUNTRACED =? 0).

Ltac wait_cases :=
  repeat match goal with |- context [if ?b then _ else _] => destruct b end; done.

Lemma wait_body_run pid options p fixup k c q :
  procs k !! current_process k = Some c -> procs k !! p = Some q ->
  wait_body pid options p fixup k = Ret (
    if (p =? current_process k) || negb (matches pid c q) then inl fixup
    else if p_state q =? P_STOPPED then (if Z.land options WUNTRACED =? 0 then inl fixup else inr (Stopped p))
    else if p_state q =? P_ZOMBIE then inr (Zombie p) else inl true, k).
Proof.
  intros Hc Hq. unfold wait_body, current, mbind, st_bind, gets. destruct (p =? current_process k); [done|].
  unfold load. rewrite Hc, Hq. unfold matches. cbn [orb].
  destruct (p_parent q =? p_pid c); cbn [andb negb]; [|done].
  destruct (0 <? pid) eqn:E1; cbn [andb negb].
  - assert ((pid =? 0) = false) as -> by lia. cbn [andb negb]. destruct (p_pid q =? pid); cbn [andb negb]; [|done].
    wait_cases.
  - destruct (pid =? 0) eqn:E2; cbn [andb negb]; [destruct (p_pgrp q =? p_pgrp c); cbn [andb negb]; [wait_cases|done]|].
    destruct (pid =? -1); cbn [andb negb orb]; [wait_cases|].
    destruct (p_pgrp q =? i32 (- pid)); cbn [andb negb]; [wait_cases|done].
Qed.

Lemma wait_keeps pid options : keeps_links (wait_body pid options).
Proof. apply keeps_links_run. unfold wait_body, current. intros. keeps. Qed.

(** A part of the walk with nothing to report. *)
Lemma visit_nothing pid options c k l : procs k !! current_process k = Some c -> forall fixup,
  (forall a, a ∈ l -> exists q, procs k !! a = Some q /\
     (a = current_process k \/ matches pid c q = false \/ reports options q = false)) ->
  exists fixup', visit (wait_body pid options) l fixup k = Ret (inl fixup', k) /\
    ((forall a q, a ∈ l -> procs k !! a = Some q -> a = current_process k \/ matches pid c q = false) -> fixup' = fixup).
Proof.
  intros Hc. induction l as [|a l IH]; intros fixup Hl; [by exists fixup|].
  destruct (Hl a) as (q & Hq & Hor); [left|]. cbn [visit]. unfold mbind at 1, st_bind at 1.
  rewrite (wait_body_run pid options a fixup k c q Hc Hq).
  destruct ((a =? current_process k) || negb (matches pid c q)) eqn:Em.
  - destruct (IH fixup) as (f' & E & Hf); [intros b Hb; apply Hl; by right|]. exists f'. split; [done|].
    intros Hn. apply Hf. intros b qb Hb. apply Hn. by right.
  - apply orb_false_iff in Em as [Em1 Em2%negb_false_iff]. apply Z.eqb_neq in Em1.
    destruct Hor as [Hor | [Hor | Hor]]; [done|congruence|]. unfold reports in Hor. apply orb_false_iff in Hor as [Hz Hs].
    rewrite Hz. destruct (p_state q =? P_STOPPED); cbn [andb] in Hs; [apply negb_false_iff in Hs; rewrite Hs|].
    + destruct (IH fixup) as (f' & E & Hf); [intros b Hb; apply Hl; by right|]. exists f'. split; [done|].
      intros Hn. destruct (Hn a q ltac:(left) Hq); [done|congruence].
    + destruct (IH true) as (f' & E & Hf); [intros b Hb; apply Hl; by right|]. exists f'. split; [done|].
      intros Hn. destruct (Hn a q ltac:(left) Hq); [done|congruence].
Qed.

(** The whole walk, when [p] is the first process with something to report. *)
Lemma wait_finds pid options k c q Q1 l1 p l2 Q2 :
  queues_ok (Q1 ++ (l1 ++ p :: l2) :: Q2) k -> procs k !! current_process k = Some c -> procs k !! p = Some q ->
  (forall a qa, a ∈ concat Q1 ++ l1 -> procs k !! a = Some qa ->
     a = current_process k \/ matches pid c qa = false \/ reports options qa = false) ->
  p <> current_process k -> matches pid c q = true -> p_state q = P_ZOMBIE ->
  for_processes (wait_body pid options) false k = Ret (inr (Zombie p), k).
Proof.
  intros Hq Hc Hp Hbefore Hcur Hm Hz. rewrite (for_processes_visit _ _ _ _ (wait_keeps pid options) Hq).
  assert (concat (Q1 ++ (l1 ++ p :: l2) :: Q2) = (concat Q1 ++ l1) ++ p :: l2 ++ concat Q2) as EQ.
  { rewrite concat_app. cbn [concat]. by rewrite <- !app_assoc. }
  rewrite EQ, visit_app.
  destruct (visit_nothing pid options c k (concat Q1 ++ l1) Hc false) as (f & E & _).
  { intros a Ha. destruct (queues_procs _ _ Hq a) as (_ & qa & Ea).
    { rewrite EQ. by apply elem_of_app; left. }
    exists qa. split; [done|]. by apply (Hbefore a qa). }
  rewrite E. cbn [app visit]. unfold mbind, st_bind. rewrite (wait_body_run pid options p f k c q Hc Hp), Hm, Hz.
  rewrite (proj2 (Z.eqb_neq p _)) by done. reflexivity.
Qed.

Definition with_kernel (k : kstate) (s : E) : E :=
  let f := e_forks s in
  Exits (Forks k (f_bodies f) (f_tables f) (f_pages f) (f_user f) (f_kheap f) (next_pid f)) (e_fs s).

(** Freeing depends on the processes only through [p] itself. *)
Lemma freeable_kernel s p q b k u t kh k' :
  freeable s p q b k u t kh -> procs k' !! p = Some q -> freeable (with_kernel k' s) p q b k u t kh.
Proof.
  intros [Hz Hq Hb Hm Hc Hd Hk Hf] Hp. split; try done. revert Hc. unfold close_all, with_user_heap, with_kernel.
  cbn [e_forks e_fs f_bodies f_user f_kernel]. rewrite Hb.
  match goal with |- context [match ?m with _ => _ end = _] => destruct m as [[[] x]| | |]; [|done..] end.
  intros H3. apply (f_equal (fun r => match r with Ret (_, e) => Some (e_fs e) | _ => None end)) in H3. cbn in H3. by injection H3 as ->.
Qed.

Lemma add_times_queues Q k u v : is_Some (procs k !! current_process k) ->
  queues_ok Q k -> queues_ok Q (set_procs (alter (add_child_times u v) (current_process k) (procs k)) k).
Proof.
  intros Hc. apply queues_same. refine (keeps_update (current_process k) (add_child_times u v) _ k tt _ _); [by intros q|].
  by apply update_alter.
Qed.


(** *** The signal of the children *)

Lemma sigchld_cleared q : Z.land (p_signal (clear_sigchld q)) (Z.shiftl 1 SIGCHLD) = 0.
Proof.
  unfold clear_sigchld. cbn [p_signal set_p_signal]. change SIGCHLD with 17. apply Z.bits_inj'. intros n Hn.
  rewrite Z.land_spec, Z.testbit_0_l. destruct (decide (n = 17)) as [->|Hne].
  - rewrite swrap_testbit by lia. rewrite Z.land_spec. change (Z.testbit (Z.lnot (Z.shiftl 1 17)) 17) with false.
    by rewrite andb_false_r.
  - change (Z.shiftl 1 17) with (2 ^ 17). rewrite Z.pow2_bits_false by lia. by rewrite andb_false_r.
Qed.

(** Waiting never ends with an error number: when nothing is reported the result is 0, which only
    [WNOHANG] gives, or, for a process without children, no result at all.  The signal that ends a wait
    is cleared before it is tested. *)
Theorem kwaitpid_never_interrupted n pid options (s s' : E) r :
  kwaitpid kfree now kstart elsewhere n pid options s = Ret ((r, None), s') ->
  r = None \/ r = Some 0 /\ Z.land options WNOHANG <> 0.
Proof.
  revert s. induction n as [|n IH]; intros s; [done|]. cbn [kwaitpid]. unfold mbind, st_bind.
  destruct (on_kern (for_processes (wait_body pid options) false) s) as [[[[|]|[p|p]] s1]| | |] eqn:E1; [..|discriminate|discriminate|discriminate].
  - destruct (Z.land options WNOHANG =? 0) eqn:Eo; cbn [negb].
    2: { intros [=]. subst. right. split; [done|lia]. }
    destruct (on_kern (update_current (set_p_state P_INTERRUPTIBLE)) s1) as [[[] s2]| | |]; [|discriminate..].
    destruct (on_kern (schedule now kstart) s2) as [[? s3]| | |]; [|discriminate..].
    destruct (elsewhere s3) as [[[] s4]| | |]; [|discriminate..].
    destruct (on_kern (update_current clear_sigchld) s4) as [[[] s5]| | |] eqn:E5; [|discriminate..].
    destruct (on_kern current s5) as [[c s6]| | |] eqn:E6; [|discriminate..].
    assert (Z.land (p_signal c) (Z.shiftl 1 SIGCHLD) = 0) as ->; [|by apply IH].
    clear -E5 E6. unfold on_kern, on_forks, on_kernel, update_current, current, mbind, st_bind, gets, update, load in E5, E6.
    destruct s4 as [f fs]. cbn [e_forks e_fs] in E5.
    destruct (procs (f_kernel f) !! current_process (f_kernel f)) as [q|] eqn:Eq; [|done]. injection E5 as <-.
    cbn [e_forks e_fs f_kernel procs current_process set_procs] in E6. rewrite lookup_insert_eq in E6.
    apply (f_equal (fun r => match r with Ret (c, _) => Some c | _ => None end)), Some_inj in E6. cbn in E6. subst c.
    apply sigchld_cleared.
  - intros [=]. by left.
  - destruct (on_kern (load p) s1) as [[q s2]| | |]; done.
  - destruct (on_kern (load p) s1) as [[q s2]| | |]; [|discriminate..].
    destruct (on_kern (update_current _) s2) as [[[] s3]| | |]; [|discriminate..].
    by destruct (free_process kfree now p s3) as [[[] s4]| | |].
Qed.

(** A process with nothing open closes nothing. *)
Lemma close_all_nothing p b (s : E) :
  f_bodies (e_forks s) !! p = Some b -> b_file_desc b = replicate MAX_FILES Null ->
  length (b_dir_tab b) = MAX_DIR -> Forall (fun e => __allocation e <> DEV_BLOCK_SIZE) (b_dir_tab b) ->
  close_all now p s = Ret (tt, s).
Proof.
  intros Hb Hd Hl Hf. unfold close_all. rewrite Hb. unfold mbind, st_bind.
  set (x := Execs _ _ _ _). assert (nothing_open (x_dirs x)) as Hn.
  { split; [|by split]. unfold x, as_dirs. cbn [x_dirs d_files file_desc]. by rewrite Hd, fmap_replicate. }
  rewrite close_files_none, close_dirs_none by (exact Hn || lia). by destruct s.
Qed.

End Calls.

(** ** A process and its child *)

Definition ended_child : process := set_p_exit_code 7 (set_p_state P_ZOMBIE (some_process 2 100 100)).

Definition family : kstate :=
  set_procs {[100 := some_process 1 200 200; 200 := ended_child]} two_processes.

(** The child alone in its queue, the current process being another. *)
Definition orphan : kstate :=
  set_procs {[200 := set_p_next 200 (set_p_prev 200 ended_child)]} (set_tab 0 200 two_processes).

Definition bare_body : body :=
  Body zero_tss 0 0 0 0 null_argv 0 0 7 0 1 1 (replicate MAX_FILES zero_inode) (replicate MAX_FILES Null) (replicate MAX_DIR zero_dir).

Definition six_taken : mem := set_gdt_map (replicate 7 1 ++ replicate 9 0) few_pages.

Definition waiting (k : kstate) : exits StoreSpec.mem unit unit :=
  Exits (Forks k {[200 := bare_body]} static_tables six_taken (Machine ∅ tt) tt 3) small.

#[local] Abbreviation freed := (fun _ => mret tt : st unit unit).

Lemma family_queues : queues_ok ([] ++ ([100] ++ 200 :: []) :: replicate 31 []) family.
Proof.
  split; [done|done| | |].
  - intros l [-> | [-> _]%elem_of_replicate]%elem_of_cons; [|done]. by repeat split.
  - apply (bool_decide_eq_true_1 (NoDup [100; 200])). reflexivity.
  - intros p [-> | ->%list_elem_of_singleton]%elem_of_cons; (split; [done|by eexists]).
Qed.

Lemma orphan_queues : queues_ok ([] ++ [200] :: replicate 31 []) orphan.
Proof.
  split; [done|done| | |].
  - intros l [-> | [-> _]%elem_of_replicate]%elem_of_cons; [|done]. by split.
  - apply (bool_decide_eq_true_1 (NoDup [200])). reflexivity.
  - intros p ->%list_elem_of_singleton. split; [done|by eexists].
Qed.

Lemma waiting_freeable k q : procs k !! 200 = Some q -> p_tss_seg q = 48 ->
  freeable (H2 := fixed_heap 0) freed 5 (waiting k) 200 q bare_body 6 tt small tt.
Proof.
  intros Hq Ht. split; [discriminate|exact Hq|reflexivity|reflexivity| |by rewrite Ht|split; [vm_compute; lia|discriminate]|reflexivity].
  apply (close_all_nothing (H := unit) (K := unit) 5 200 bare_body);
    [reflexivity|reflexivity|exact (length_replicate MAX_DIR zero_dir)|].
  apply Forall_forall. intros d Hd. apply elem_of_replicate in Hd as [-> _]. discriminate.
Qed.


Lemma free_last_dangles_witness :
  exists s', free_process (H2 := fixed_heap 0) freed 5 200 (waiting orphan) = Ret (tt, s') /\
    schedule 5 0 (f_kernel (e_forks s')) = Fault.
Proof.
  destruct (free_last_dangles (H2 := fixed_heap 0) freed 5 (waiting orphan) 200 (set_p_next 200 (set_p_prev 200 ended_child))
    bare_body 6 tt small tt (replicate 31 []) 5 0) as (s' & E & _ & _ & Ef).
  - by apply waiting_freeable.
  - exact orphan_queues.
  - reflexivity.
  - discriminate.
  - exists s'. split; [exact E|exact Ef].
Defined.

(** The child runs, and the process does not wait for it. *)
Definition busy : exits StoreSpec.mem unit unit :=
  Exits (Forks (set_procs {[100 := some_process 1 200 200; 200 := some_process 2 100 100]} two_processes)
    ∅ static_tables six_taken (Machine ∅ tt) tt 3) small.

Lemma kwaitpid_never_interrupted_witness :
  kwaitpid (H2 := fixed_heap 0) freed 5 0 (mret tt) 1 2 WNOHANG busy = Ret ((Some 0, None), busy) /\
  Z.land WNOHANG WNOHANG <> 0.
Proof.
  assert (kwaitpid (H2 := fixed_heap 0) freed 5 0 (mret tt) 1 2 WNOHANG busy = Ret ((Some 0, None), busy)) as E by reflexivity.
  split; [exact E|].
  destruct (kwaitpid_never_interrupted (H2 := fixed_heap 0) freed 5 0 (mret tt) 1 2 WNOHANG _ _ _ E) as [? | [_ Hn]];
    [discriminate|exact Hn].
Defined.
