(* ===== verification/DefInt.v ===== *)
(** * Deferred interrupts ([kernel/def_int.c])

    Handlers are installed in one of two tables, scheduled, marked in use, and run
    by [defint_exec] on the way out of the kernel, as long as [DEFINT_PENDING] is
    not 0.  A handler is an address, 0 is [NULL]; what handlers do is a parameter
    of the functions that call them. *)

From S2P Require Import Prelude.

Definition NR_DEFINT_INT : Z := 32.
Definition NR_DEFINT_EXEC : Z := 32.
Definition NR_DEFINT_PRIORITY : Z := 4.
Definition NR_DEFINT : Z := NR_DEFINT_INT + NR_DEFINT_EXEC.
(** [-1] as a [defint_id_t] *)
Definition DEFINT_IDALLOC : Z := 4294967295.

Inductive defint_status := DEFINT_OK | DEFINT_FAILED | DEFINT_IDINVAL | DEFINT_PRINVAL | DEFINT_TINVAL.

#[export] Instance defint_status_eq_dec : EqDecision defint_status.
Proof. solve_decision. Defined.

(** [defint_type_t] and the subtype of handlers that run on every exit. *)
Definition DEFINT_EXEC : Z := 0.
Definition DEFINT_INT : Z := 1.
Definition DEFINT_CURR : Z := 0.

Record defint_lock_t := Lock { l_type : Z; l_flags : Z; l_counter : Z }.
Record defint_tab_t := Int { i_entry : Z; i_lock : defint_lock_t }.
Record defint_exec_tab_t := Exec { e_args : Z; e_entry : Z; e_lock : defint_lock_t }.

(** The statics, and what the handlers act on. *)
Record dstate (W : Type) := DState {
  defint_tab : list defint_tab_t;
  defint_exec_tab : list defint_exec_tab_t;
  DEFINT_PENDING : Z;
  world : W
}.
Arguments DState {W}.
Arguments defint_tab {W} _.
Arguments defint_exec_tab {W} _.
Arguments DEFINT_PENDING {W} _.
Arguments world {W} _.

(** ** The lock *)

Definition zero_lock : defint_lock_t := Lock 0 0 0.
Definition set_flags (v : Z) (x : defint_lock_t) : defint_lock_t := Lock (l_type x) v (l_counter x).
Definition set_counter (v : Z) (x : defint_lock_t) : defint_lock_t := Lock (l_type x) (l_flags x) v.

Definition SET_SCHED (x : defint_lock_t) : defint_lock_t := set_flags (Z.lor (l_flags x) 1) x.
Definition UNSET_SCHED (x : defint_lock_t) : defint_lock_t := set_flags (Z.land (l_flags x) 0xFFFFFFFE) x.
Definition UNSET_USE (x : defint_lock_t) : defint_lock_t := set_flags (Z.land (l_flags x) 0xFFFFFFFD) x.
Definition RUNNABLE (x : defint_lock_t) : bool := Z.land (l_flags x) 3 =? 3.
Definition IS_CURR (x : defint_lock_t) : bool := l_type x =? 0.
Definition IS_TYPE (x : defint_lock_t) (y : Z) : bool := l_type x =? y.
Definition LOCK_INIT : defint_lock_t := Lock 0 0 1.

(** [atom_dec_test] and [atom_increment] on the counter, [atom_bit_set] of
    [PUSE_BIT] on the flags. *)
Definition atom_dec_test (x : defint_lock_t) : bool * defint_lock_t :=
  let c := u32 (l_counter x - 1) in (c =? 0, set_counter c x).
Definition atom_increment (x : defint_lock_t) : defint_lock_t := set_counter (u32 (l_counter x + 1)) x.
Definition SET_USE (x : defint_lock_t) : defint_lock_t := set_flags (Z.lor (l_flags x) 2) x.

Section Code.

Context {W : Type}.

Abbreviation D := (dstate W).

(** ** Access to the tables *)

Definition at_index {A} (l : list A) (i : Z) : option A :=
  if (0 <=? i) && (i <? Z.of_nat (length l)) then l !! Z.to_nat i else None.

Definition int_at (i : Z) : st D defint_tab_t := s ← get; checked (at_index (defint_tab s) i).
Definition exec_at (i : Z) : st D defint_exec_tab_t := s ← get; checked (at_index (defint_exec_tab s) i).

Definition put_int (i : Z) (e : defint_tab_t) : st D unit :=
  modify (fun s => DState (<[Z.to_nat i := e]> (defint_tab s)) (defint_exec_tab s) (DEFINT_PENDING s) (world s)).
Definition put_exec (i : Z) (e : defint_exec_tab_t) : st D unit :=
  modify (fun s => DState (defint_tab s) (<[Z.to_nat i := e]> (defint_exec_tab s)) (DEFINT_PENDING s) (world s)).
Definition add_pending (n : Z) : st D unit :=
  modify (fun s => DState (defint_tab s) (defint_exec_tab s) (u32 (DEFINT_PENDING s + n)) (world s)).

Definition SET_PENDING (x : defint_lock_t) : st D unit :=
  if (l_type x =? 0) && RUNNABLE x then add_pending 1 else mret tt.
Definition UNSET_PENDING : st D unit := add_pending (-1).

Definition lock_int (i : Z) (f : defint_lock_t -> defint_lock_t) : st D unit :=
  e ← int_at i; put_int i (Int (i_entry e) (f (i_lock e))).
Definition lock_exec (i : Z) (f : defint_lock_t -> defint_lock_t) : st D unit :=
  e ← exec_at i; put_exec i (Exec (e_args e) (e_entry e) (f (e_lock e))).

(** ** Running *)

Section Run.

Context (call_int : Z -> st D unit) (call_exec : Z -> Z -> st D unit).

Fixpoint run_ints (n : nat) (i : Z) : st D unit :=
  match n with
  | O => mret tt
  | S n =>
      p ← int_at i;
      _ ← (if RUNNABLE (i_lock p) && negb (i_entry p =? 0) then
             _ ← lock_int i UNSET_USE; _ ← UNSET_PENDING; call_int (i_entry p)
           else mret tt);
      run_ints n (i + 1)
  end.

(** The second loop, and that of [defint_exec_selected], which does not count. *)
Fixpoint run_execs (counts : bool) (type : Z) (n : nat) (i : Z) : st D unit :=
  match n with
  | O => mret tt
  | S n =>
      p ← exec_at i;
      _ ← (if IS_TYPE (e_lock p) type && RUNNABLE (e_lock p) && negb (e_entry p =? 0) then
             _ ← lock_exec i UNSET_USE;
             _ ← (if counts then UNSET_PENDING else mret tt);
             call_exec (e_entry p) (e_args p)
           else mret tt);
      run_execs counts type n (i + 1)
  end.

Definition defint_exec : st D unit :=
  _ ← run_ints (Z.to_nat NR_DEFINT_INT) 0; run_execs true DEFINT_CURR (Z.to_nat NR_DEFINT_EXEC) 0.

Definition defint_exec_selected (type : Z) : st D unit := run_execs false type (Z.to_nat NR_DEFINT_EXEC) 0.

(** The loop around it on the way out of the kernel: [handle_defint] calls [defint_exec] until
    [DEFINT_PENDING] is 0. *)
Fixpoint handle_defint (fuel : nat) : st D unit :=
  match fuel with
  | O => lift NoFuel
  | S fuel =>
      s ← get;
      if DEFINT_PENDING s =? 0 then mret tt else _ ← defint_exec; handle_defint fuel
  end.

End Run.

(** ** Installing *)

(** The first entry from [i] on without a handler, of [n]. *)
Fixpoint free_entry (n : nat) (i : Z) : st D (option Z) :=
  match n with
  | O => mret None
  | S n => e ← int_at i; if i_entry e =? 0 then mret (Some i) else free_entry n (i + 1)
  end.

(** The check of an id the caller chose.  [NOT_INT] is an [if] without [else], so the [else] for
    deferred execution belongs to it, and to [type == DEFINT_INT]. *)
Definition chosen_id (type id : Z) : option Z :=
  if type =? DEFINT_INT then
    if (id <? 0) || (NR_DEFINT_INT <=? id) then None
    else if (id <? NR_DEFINT_INT) || (NR_DEFINT <=? id) then None
    else Some (u32 (id - NR_DEFINT_INT))
  else Some id.

(** The entry in the table at [_id]. *)
Definition install_at (type _id entry args subtype : Z) : st D defint_status :=
  if type =? DEFINT_INT then
    e ← int_at _id;
    if negb (i_entry e =? 0) then mret DEFINT_IDINVAL
    else _ ← put_int _id (Int entry (Lock DEFINT_CURR 0 1)); mret DEFINT_OK
  else
    e ← exec_at _id;
    if negb (e_entry e =? 0) then mret DEFINT_IDINVAL
    else _ ← put_exec _id (Exec args entry (Lock subtype 0 1)); mret DEFINT_OK.

(** The status and the value of [*id]. *)
Definition defint_install_handler (type id priority entry args subtype : Z) : st D (defint_status * Z) :=
  if negb (type =? DEFINT_INT) && negb (type =? DEFINT_EXEC) then mret (DEFINT_TINVAL, id)
  else if (priority <? 0) || (NR_DEFINT_PRIORITY <=? priority) then mret (DEFINT_PRINVAL, id)
  else if id =? DEFINT_IDALLOC then
    let limit := if type =? DEFINT_INT then NR_DEFINT_INT else NR_DEFINT_EXEC in
    let start := Z.shiftl priority 3 in
    r ← free_entry (Z.to_nat (limit - start)) start;
    match r with
    | None => mret (DEFINT_IDINVAL, id)
    | Some _id =>
        let id := if type =? DEFINT_INT then _id else _id + NR_DEFINT_INT in
        st ← install_at type _id entry args subtype; mret (st, id)
    end
  else
    match chosen_id type id with
    | None => mret (DEFINT_IDINVAL, id)
    | Some _id => st ← install_at type _id entry args subtype; mret (st, id)
    end.

(** ** The other calls

    The [else] of each belongs to the second test alone. *)

Definition is_int (id : Z) : bool := (0 <=? id) && (id <? NR_DEFINT_INT).
Definition is_exec (id : Z) : bool := (NR_DEFINT_INT <=? id) && (id <? NR_DEFINT).

Definition two_tests (id : Z) (on_int on_exec : Z -> st D unit) : st D defint_status :=
  _ ← (if is_int id then on_int id else mret tt);
  if is_exec id then _ ← on_exec (id - NR_DEFINT_INT); mret DEFINT_OK else mret DEFINT_IDINVAL.

Definition defint_uninstall_handler (id : Z) : st D defint_status :=
  two_tests id (fun i => _ ← int_at i; put_int i (Int 0 zero_lock)) (fun i => _ ← exec_at i; put_exec i (Exec 0 0 zero_lock)).

Definition defint_schedule (id : Z) : st D defint_status :=
  two_tests id
    (fun i => e ← int_at i; _ ← lock_int i (fun x => (atom_dec_test x).2);
              if (atom_dec_test (i_lock e)).1 then lock_int i SET_SCHED else mret tt)
    (fun i => e ← exec_at i; _ ← lock_exec i (fun x => (atom_dec_test x).2);
              if (atom_dec_test (e_lock e)).1 then lock_exec i SET_SCHED else mret tt).

Definition defint_unschedule (id : Z) : st D defint_status :=
  two_tests id
    (fun i => _ ← lock_int i UNSET_SCHED; lock_int i atom_increment)
    (fun i => _ ← lock_exec i UNSET_SCHED; lock_exec i atom_increment).

Definition defint_inuse (id : Z) : st D defint_status :=
  two_tests id
    (fun i => _ ← lock_int i SET_USE; e ← int_at i; SET_PENDING (i_lock e))
    (fun i => _ ← lock_exec i SET_USE; e ← exec_at i; SET_PENDING (e_lock e)).

End Code.
