(* ===== verification/DefIntSpec.v ===== *)
(** * What deferred interrupts promise

    [DEFINT_PENDING] is the number of handlers that are due, as long as the calls
    follow a discipline the code does not enforce; then leaving the kernel runs
    every handler that is due once and ends. *)

From S2P Require Import Prelude DefInt.

(** ** Flags *)

Definition scheduled (x : defint_lock_t) : bool := Z.testbit (l_flags x) 0.
Definition in_use (x : defint_lock_t) : bool := Z.testbit (l_flags x) 1.

Lemma runnable_bits x : RUNNABLE x = scheduled x && in_use x.
Proof.
  unfold RUNNABLE, scheduled, in_use. destruct x as [t f c]. cbn [l_flags]. change 3 with (Z.ones 2).
  rewrite Z.land_ones by lia. change (Z.ones 2) with 3.
  rewrite <- (Z.mod_pow2_bits_low f 2 0), <- (Z.mod_pow2_bits_low f 2 1) by lia. change (2 ^ 2) with 4.
  pose proof (Z.mod_pos_bound f 4 ltac:(lia)).
  assert (f mod 4 = 0 \/ f mod 4 = 1 \/ f mod 4 = 2 \/ f mod 4 = 3) as [-> | [-> | [-> | ->]]] by lia; reflexivity.
Qed.

Lemma flags_bits x :
  (scheduled (SET_SCHED x) = true /\ in_use (SET_SCHED x) = in_use x) /\
  (scheduled (UNSET_SCHED x) = false /\ in_use (UNSET_SCHED x) = in_use x) /\
  (scheduled (SET_USE x) = scheduled x /\ in_use (SET_USE x) = true) /\
  (scheduled (UNSET_USE x) = scheduled x /\ in_use (UNSET_USE x) = false).
Proof.
  unfold scheduled, in_use, SET_SCHED, UNSET_SCHED, SET_USE, UNSET_USE, set_flags. cbn [l_flags].
  rewrite !Z.lor_spec, !Z.land_spec. cbn [Z.testbit Pos.testbit].
  by rewrite ?orb_false_r, ?orb_true_r, ?andb_false_r, ?andb_true_r.
Qed.

(** ** Handlers that are due *)

Definition due_int (e : defint_tab_t) : bool := RUNNABLE (i_lock e) && negb (i_entry e =? 0).
Definition due_exec (e : defint_exec_tab_t) : bool :=
  IS_CURR (e_lock e) && RUNNABLE (e_lock e) && negb (e_entry e =? 0).

Definition count {A} (f : A -> bool) (l : list A) : Z := Z.of_nat (length (List.filter f l)).

Lemma count_nil {A} (f : A -> bool) : count f [] = 0.
Proof. done. Qed.

Lemma count_cons {A} (f : A -> bool) x l : count f (x :: l) = Z.b2z (f x) + count f l.
Proof. unfold count. cbn [List.filter]. destruct (f x); cbn [length Z.b2z]; lia. Qed.

Lemma count_app {A} (f : A -> bool) l k : count f (l ++ k) = count f l + count f k.
Proof. induction l as [|x l IH]; [done|]. cbn [app]. rewrite !count_cons, IH. lia. Qed.

Lemma count_bound {A} (f : A -> bool) l : 0 <= count f l <= Z.of_nat (length l).
Proof. induction l as [|x l IH]; [done|]. rewrite count_cons. cbn [length]. destruct (f x); cbn [Z.b2z]; lia. Qed.

Lemma count_insert {A} (f : A -> bool) l : forall i x y,
  l !! i = Some x -> count f (<[i := y]> l) = count f l - Z.b2z (f x) + Z.b2z (f y).
Proof.
  induction l as [|z l IH]; intros [|i] x y E; try done.
  - injection E as ->. change (<[0%nat := y]> (x :: l)) with (y :: l). rewrite !count_cons. lia.
  - change (<[Datatypes.S i := y]> (z :: l)) with (z :: <[i := y]> l). rewrite !count_cons, (IH i x y E). lia.
Qed.

Lemma count_member {A} (f : A -> bool) l i x : l !! i = Some x -> Z.b2z (f x) <= count f l.
Proof.
  revert i. induction l as [|z l IH]; intros [|i] E; try done; rewrite count_cons; pose proof (count_bound f l).
  - injection E as ->. lia.
  - specialize (IH i E). destruct (f z); cbn [Z.b2z]; lia.
Qed.

Lemma count_zero {A} (f : A -> bool) l : count f l = 0 <-> Forall (fun x => f x = false) l.
Proof.
  induction l as [|x l IH]; [done|]. rewrite count_cons, Forall_cons, <- IH. pose proof (count_bound f l).
  destruct (f x); cbn [Z.b2z]; split; [lia | intros []; congruence | lia | intros [_ ->]; done].
Qed.

Section Spec.

Context {W : Type}.

Abbreviation D := (dstate W).

Definition nr_due (s : D) : Z := count due_int (defint_tab s) + count due_exec (defint_exec_tab s).

Record d_ok (s : D) : Prop := {
  ok_ints : length (defint_tab s) = 32%nat;
  ok_execs : length (defint_exec_tab s) = 32%nat;
  ok_types : Forall (fun e => l_type (i_lock e) = 0) (defint_tab s);
  ok_pending : DEFINT_PENDING s = nr_due s
}.

Lemma nr_due_bound s : length (defint_tab s) = 32%nat -> length (defint_exec_tab s) = 32%nat -> 0 <= nr_due s <= 64.
Proof.
  intros H1 H2. unfold nr_due. pose proof (count_bound due_int (defint_tab s)).
  pose proof (count_bound due_exec (defint_exec_tab s)). lia.
Qed.

(** ** Running them *)

(** An entry after its turn. *)
Definition ran_int (e : defint_tab_t) : defint_tab_t :=
  if due_int e then Int (i_entry e) (UNSET_USE (i_lock e)) else e.
Definition ran_exec (e : defint_exec_tab_t) : defint_exec_tab_t :=
  if due_exec e then DefInt.Exec (e_args e) (e_entry e) (UNSET_USE (e_lock e)) else e.

Lemma ran_int_idle e : due_int (ran_int e) = false.
Proof.
  unfold ran_int. destruct (due_int e) eqn:E; [|done]. unfold due_int. cbn [i_lock i_entry].
  rewrite runnable_bits. destruct (flags_bits (i_lock e)) as (_ & _ & _ & [_ ->]). by rewrite andb_false_r.
Qed.

Lemma ran_exec_idle e : due_exec (ran_exec e) = false.
Proof.
  unfold ran_exec. destruct (due_exec e) eqn:E; [|done]. unfold due_exec. cbn [e_lock e_entry].
  rewrite runnable_bits. destruct (flags_bits (e_lock e)) as (_ & _ & _ & [_ ->]). by rewrite !andb_false_r.
Qed.

Lemma count_ran {A} (f : A -> bool) (g : A -> A) l : (forall x, f (g x) = false) -> count f (map g l) = 0.
Proof. intros H. apply count_zero, Forall_forall. intros x Hx. apply list_elem_of_In, in_map_iff in Hx as (y & <- & _). apply H. Qed.

(** Handlers that leave the tables alone. *)
Context (call_int : Z -> st D unit) (call_exec : Z -> Z -> st D unit).
Context (act_int : Z -> W -> W) (act_exec : Z -> Z -> W -> W).

Definition with_world (w : W) (s : D) : D := DState (defint_tab s) (defint_exec_tab s) (DEFINT_PENDING s) w.

Definition quiet : Prop :=
  (forall f s, call_int f s = Ret (tt, with_world (act_int f (world s)) s)) /\
  (forall f a s, call_exec f a s = Ret (tt, with_world (act_exec f a (world s)) s)).

Definition effect_ints (l : list defint_tab_t) (w : W) : W :=
  foldl (fun w e => act_int (i_entry e) w) w (List.filter due_int l).
Definition effect_execs (l : list defint_exec_tab_t) (w : W) : W :=
  foldl (fun w e => act_exec (e_entry e) (e_args e) w) w (List.filter due_exec l).

Lemma at_index_app {A} (pre : list A) x l : at_index (pre ++ x :: l) (Z.of_nat (length pre)) = Some x.
Proof.
  unfold at_index. rewrite length_app. cbn [length].
  rewrite (proj2 (Z.leb_le _ _)), (proj2 (Z.ltb_lt _ _)) by lia. cbn [andb].
  by rewrite Nat2Z.id, lookup_app_r, Nat.sub_diag by done.
Qed.

Lemma insert_at_app {A} (pre : list A) x y l : <[length pre := y]> (pre ++ x :: l) = (pre ++ [y]) ++ l.
Proof. rewrite insert_app_r_alt, Nat.sub_diag by done. cbn. by rewrite <- app_assoc. Qed.

Lemma run_ints_run l : quiet -> forall pre et p w,
  0 <= p < 4294967296 ->
  run_ints call_int (length l) (Z.of_nat (length pre)) (DState (pre ++ l) et p w) =
    Ret (tt, DState (pre ++ map ran_int l) et (u32 (p - count due_int l)) (effect_ints l w)).
Proof.
  intros [Hq _]. induction l as [|e l IH]; intros pre et p w Hp; cbn [run_ints length map].
  - rewrite count_nil, Z.sub_0_r, u32_small by done. done.
  - unfold mbind, st_bind, int_at, mbind, st_bind, get, checked. cbn [defint_tab]. rewrite at_index_app.
    change (RUNNABLE (i_lock e) && negb (i_entry e =? 0)) with (due_int e).
    assert (Z.of_nat (length pre) + 1 = Z.of_nat (length (pre ++ [ran_int e]))) as Hl by (rewrite length_app; cbn; lia).
    rewrite count_cons. unfold effect_ints. cbn [List.filter].
    destruct (due_int e) eqn:Ed; cbn [Z.b2z foldl].
    + unfold lock_int, int_at, put_int, UNSET_PENDING, add_pending, mbind, st_bind, get, checked, modify.
      cbn [defint_tab defint_exec_tab DEFINT_PENDING world]. rewrite at_index_app, Nat2Z.id.
      cbn [defint_tab defint_exec_tab DEFINT_PENDING world]. rewrite insert_at_app, Hq.
      unfold with_world. cbn [defint_tab defint_exec_tab DEFINT_PENDING world].
      assert (ran_int e = Int (i_entry e) (UNSET_USE (i_lock e))) as <- by (unfold ran_int; by rewrite Ed).
      rewrite Hl, IH by (apply u32_range). rewrite <- app_assoc. cbn [app]. do 3 f_equal.
      unfold uwrap. rewrite Zminus_mod_idemp_l. f_equal. lia.
    + unfold mret, st_ret.
      assert (ran_int e = e) as E by (unfold ran_int; by rewrite Ed). rewrite E in *.
      replace (pre ++ e :: l) with ((pre ++ [e]) ++ l) by (by rewrite <- app_assoc).
      rewrite Hl, IH by done. rewrite <- app_assoc. cbn [app]. rewrite Z.add_0_l. reflexivity.
Qed.

Lemma run_execs_run l : quiet -> forall pre it p w,
  0 <= p < 4294967296 ->
  run_execs call_exec true DEFINT_CURR (length l) (Z.of_nat (length pre)) (DState it (pre ++ l) p w) =
    Ret (tt, DState it (pre ++ map ran_exec l) (u32 (p - count due_exec l)) (effect_execs l w)).
Proof.
  intros [_ Hq]. induction l as [|e l IH]; intros pre it p w Hp; cbn [run_execs length map].
  - rewrite count_nil, Z.sub_0_r, u32_small by done. done.
  - unfold mbind, st_bind, exec_at, mbind, st_bind, get, checked. cbn [defint_exec_tab]. rewrite at_index_app.
    change (IS_TYPE (e_lock e) DEFINT_CURR && RUNNABLE (e_lock e) && negb (e_entry e =? 0)) with (due_exec e).
    assert (Z.of_nat (length pre) + 1 = Z.of_nat (length (pre ++ [ran_exec e]))) as Hl by (rewrite length_app; cbn; lia).
    rewrite count_cons. unfold effect_execs. cbn [List.filter].
    destruct (due_exec e) eqn:Ed; cbn [Z.b2z foldl].
    + unfold lock_exec, exec_at, put_exec, UNSET_PENDING, add_pending, mbind, st_bind, get, checked, modify.
      cbn [defint_tab defint_exec_tab DEFINT_PENDING world]. rewrite at_index_app, Nat2Z.id.
      cbn [defint_tab defint_exec_tab DEFINT_PENDING world]. rewrite insert_at_app, Hq.
      unfold with_world. cbn [defint_tab defint_exec_tab DEFINT_PENDING world].
      assert (ran_exec e = DefInt.Exec (e_args e) (e_entry e) (UNSET_USE (e_lock e))) as <- by (unfold ran_exec; by rewrite Ed).
      rewrite Hl, IH by (apply u32_range). rewrite <- app_assoc. cbn [app]. do 3 f_equal.
      unfold uwrap. rewrite Zminus_mod_idemp_l. f_equal. lia.
    + unfold mret, st_ret.
      assert (ran_exec e = e) as E by (unfold ran_exec; by rewrite Ed). rewrite E in *.
      replace (pre ++ e :: l) with ((pre ++ [e]) ++ l) by (by rewrite <- app_assoc).
      rewrite Hl, IH by done. rewrite <- app_assoc. cbn [app]. rewrite Z.add_0_l. reflexivity.
Qed.

Lemma defint_exec_run (s : D) : quiet -> length (defint_tab s) = 32%nat -> length (defint_exec_tab s) = 32%nat ->
  0 <= DEFINT_PENDING s < 4294967296 ->
  defint_exec call_int call_exec s =
    Ret (tt, DState (map ran_int (defint_tab s)) (map ran_exec (defint_exec_tab s)) (u32 (DEFINT_PENDING s - nr_due s))
      (effect_execs (defint_exec_tab s) (effect_ints (defint_tab s) (world s)))).
Proof.
  intros Hq H1 H2 Hp. destruct s as [it et p w]. cbn [defint_tab defint_exec_tab DEFINT_PENDING world] in *.
  unfold defint_exec, mbind, st_bind.
  change (Z.to_nat NR_DEFINT_INT) with 32%nat. change (Z.to_nat NR_DEFINT_EXEC) with 32%nat.
  pose proof (run_ints_run it Hq [] et p w Hp) as E1. rewrite H1 in E1. change (Z.of_nat (length [])) with 0 in E1.
  cbn [app] in E1. rewrite E1.
  pose proof (run_execs_run et Hq [] (map ran_int it) (u32 (p - count due_int it)) (effect_ints it w) (u32_range _)) as E2.
  rewrite H2 in E2. change (Z.of_nat (length [])) with 0 in E2. cbn [app] in E2. rewrite E2. do 3 f_equal.
  unfold nr_due, uwrap. cbn [defint_tab defint_exec_tab]. rewrite Zminus_mod_idemp_l. f_equal. lia.
Qed.

Lemma map_idle {A} (f : A -> bool) (g : A -> A) l : (forall x, f x = false -> g x = x) -> count f l = 0 -> map g l = l.
Proof.
  intros Hg Hc. apply count_zero in Hc. induction Hc as [|x l Hx _ IH]; [done|]. cbn [map]. by rewrite Hg, IH.
Qed.

Lemma filter_idle {A} (f : A -> bool) l : count f l = 0 -> List.filter f l = [].
Proof. unfold count. destruct (List.filter f l); [done|]. cbn [length]. lia. Qed.

(** With nothing due, running changes nothing; the counter stays as it is. *)
Lemma defint_exec_idle (s : D) : quiet -> length (defint_tab s) = 32%nat -> length (defint_exec_tab s) = 32%nat ->
  0 <= DEFINT_PENDING s < 4294967296 -> nr_due s = 0 -> defint_exec call_int call_exec s = Ret (tt, s).
Proof.
  intros Hq H1 H2 Hp H0. rewrite defint_exec_run by done. rewrite H0, Z.sub_0_r, u32_small by done.
  pose proof (count_bound due_int (defint_tab s)). pose proof (count_bound due_exec (defint_exec_tab s)).
  unfold nr_due in H0. unfold effect_ints, effect_execs. rewrite !filter_idle by lia.
  rewrite (map_idle due_int ran_int), (map_idle due_exec ran_exec); try lia; [by destruct s|..];
    intros x Hx; [unfold ran_exec | unfold ran_int]; by rewrite Hx.
Qed.


(** A count that exceeds the handlers that are due never becomes 0. *)
Lemma handle_defint_stuck fuel (s : D) : quiet -> length (defint_tab s) = 32%nat -> length (defint_exec_tab s) = 32%nat ->
  nr_due s < DEFINT_PENDING s < 4294967296 -> handle_defint call_int call_exec fuel s = NoFuel.
Proof.
  intros Hq. revert s. induction fuel as [|fuel IH]; intros s H1 H2 Hp; [done|]. cbn [handle_defint].
  pose proof (nr_due_bound s H1 H2). unfold mbind, st_bind, get. rewrite (proj2 (Z.eqb_neq _ _)) by lia.
  rewrite defint_exec_run by (done || lia). apply IH; cbn [defint_tab defint_exec_tab DEFINT_PENDING];
    [by rewrite length_map | by rewrite length_map |].
  unfold nr_due at 1. cbn [defint_tab defint_exec_tab].
  rewrite !count_ran; [|intros x; apply ran_exec_idle|intros x; apply ran_int_idle]. rewrite u32_small by lia. lia.
Qed.

End Spec.

(** ** The calls *)

Section Calls.

Context {W : Type}.

Abbreviation D := (dstate W).

Lemma at_index_some {A} (l : list A) i : 0 <= i < Z.of_nat (length l) ->
  exists x, at_index l i = Some x /\ l !! Z.to_nat i = Some x.
Proof.
  intros Hi. unfold at_index. rewrite (proj2 (Z.leb_le _ _)), (proj2 (Z.ltb_lt _ _)) by lia. cbn [andb].
  destruct (lookup_lt_is_Some_2 l (Z.to_nat i)) as [x Ex]; [lia|]. eauto.
Qed.

Lemma at_index_insert {A} (l : list A) i x : 0 <= i < Z.of_nat (length l) -> at_index (<[Z.to_nat i := x]> l) i = Some x.
Proof.
  intros Hi. unfold at_index. rewrite length_insert, (proj2 (Z.leb_le _ _)), (proj2 (Z.ltb_lt _ _)) by lia.
  cbn [andb]. apply list_lookup_insert_eq. lia.
Qed.

(** Replacing the entry at an index. *)
Definition with_int (i : Z) (e : defint_tab_t) (p : Z) (s : D) : D :=
  DState (<[Z.to_nat i := e]> (defint_tab s)) (defint_exec_tab s) p (world s).
Definition with_exec (i : Z) (e : defint_exec_tab_t) (p : Z) (s : D) : D :=
  DState (defint_tab s) (<[Z.to_nat i := e]> (defint_exec_tab s)) p (world s).

Lemma with_int_ok s i e e' p : d_ok s -> defint_tab s !! Z.to_nat i = Some e -> l_type (i_lock e') = 0 ->
  p = DEFINT_PENDING s - Z.b2z (due_int e) + Z.b2z (due_int e') -> d_ok (with_int i e' p s).
Proof.
  intros [H1 H2 H4 H3] E Ht ->.
  split; cbn [with_int defint_tab defint_exec_tab DEFINT_PENDING]; [by rewrite length_insert|done|by apply Forall_insert|].
  unfold nr_due in *. cbn [with_int defint_tab defint_exec_tab]. rewrite (count_insert _ _ _ _ _ E). lia.
Qed.

Lemma with_exec_ok s i e e' p : d_ok s -> defint_exec_tab s !! Z.to_nat i = Some e ->
  p = DEFINT_PENDING s - Z.b2z (due_exec e) + Z.b2z (due_exec e') -> d_ok (with_exec i e' p s).
Proof.
  intros [H1 H2 H4 H3] E ->.
  split; cbn [with_exec defint_tab defint_exec_tab DEFINT_PENDING]; [done|by rewrite length_insert|done|].
  unfold nr_due in *. cbn [with_exec defint_tab defint_exec_tab]. rewrite (count_insert _ _ _ _ _ E). lia.
Qed.

(** What a call does to the entry it is for: the change of the lock and of the counter. *)
Definition after_schedule (x : defint_lock_t) : defint_lock_t :=
  let '(b, y) := atom_dec_test x in if b then SET_SCHED y else y.
Definition after_unschedule (x : defint_lock_t) : defint_lock_t := atom_increment (UNSET_SCHED x).
Definition counted (x : defint_lock_t) : Z := if (l_type x =? 0) && RUNNABLE x then 1 else 0.

Lemma two_tests_int id (s : D) (f g : Z -> st D unit) s' : is_int id = true -> f id s = Ret (tt, s') ->
  two_tests id f g s = Ret (DEFINT_IDINVAL, s').
Proof.
  intros Hi E. unfold two_tests, mbind, st_bind. rewrite Hi, E. unfold is_int, is_exec in *.
  destruct (Z.leb_spec NR_DEFINT_INT id); [lia|]. done.
Qed.

Lemma two_tests_exec id (s : D) (f g : Z -> st D unit) s' : is_exec id = true -> g (id - NR_DEFINT_INT) s = Ret (tt, s') ->
  two_tests id f g s = Ret (DEFINT_OK, s').
Proof.
  intros Hi E. unfold two_tests, mbind, st_bind, is_int, is_exec in *.
  destruct (Z.ltb_spec id NR_DEFINT_INT); [lia|]. rewrite andb_false_r. unfold mret at 1, st_ret at 1. by rewrite Hi, E.
Qed.

Lemma two_tests_none id (s : D) (f g : Z -> st D unit) : is_int id = false -> is_exec id = false ->
  two_tests id f g s = Ret (DEFINT_IDINVAL, s).
Proof. intros H1 H2. unfold two_tests, mbind, st_bind. by rewrite H1, H2. Qed.

Section One.

Context (s : D) (i : Z).

Lemma lock_int_run e f : at_index (defint_tab s) i = Some e ->
  lock_int i f s = Ret (tt, with_int i (Int (i_entry e) (f (i_lock e))) (DEFINT_PENDING s) s).
Proof. intros E. unfold lock_int, int_at, mbind, st_bind, get, checked. by rewrite E. Qed.

Lemma lock_exec_run e f : at_index (defint_exec_tab s) i = Some e ->
  lock_exec i f s = Ret (tt, with_exec i (DefInt.Exec (e_args e) (e_entry e) (f (e_lock e))) (DEFINT_PENDING s) s).
Proof. intros E. unfold lock_exec, exec_at, mbind, st_bind, get, checked. by rewrite E. Qed.

Lemma at_index_range {A} (l : list A) e : at_index l i = Some e -> 0 <= i < Z.of_nat (length l).
Proof. unfold at_index. destruct (Z.leb_spec 0 i), (Z.ltb_spec i (Z.of_nat (length l))); cbn [andb]; done || lia. Qed.

Lemma with_int_twice e e' p p' : with_int i e' p' (with_int i e p s) = with_int i e' p' s.
Proof. unfold with_int. cbn [defint_tab defint_exec_tab world]. by rewrite list_insert_insert_eq. Qed.

Lemma with_exec_twice e e' p p' : with_exec i e' p' (with_exec i e p s) = with_exec i e' p' s.
Proof. unfold with_exec. cbn [defint_tab defint_exec_tab world]. by rewrite list_insert_insert_eq. Qed.

End One.

Lemma with_int_at s i e e' p : at_index (defint_tab s) i = Some e -> at_index (defint_tab (with_int i e' p s)) i = Some e'.
Proof. intros E. apply at_index_range in E. by apply at_index_insert. Qed.

Lemma with_exec_at s i e e' p : at_index (defint_exec_tab s) i = Some e -> at_index (defint_exec_tab (with_exec i e' p s)) i = Some e'.
Proof. intros E. apply at_index_range in E. by apply at_index_insert. Qed.

(** The four calls on an id of the first table, and on one of the second. *)
Lemma calls_int id (s : D) e : is_int id = true -> at_index (defint_tab s) id = Some e ->
  let p := DEFINT_PENDING s in let x := i_lock e in
  defint_uninstall_handler id s = Ret (DEFINT_IDINVAL, with_int id (Int 0 zero_lock) p s) /\
  defint_schedule id s = Ret (DEFINT_IDINVAL, with_int id (Int (i_entry e) (after_schedule x)) p s) /\
  defint_unschedule id s = Ret (DEFINT_IDINVAL, with_int id (Int (i_entry e) (after_unschedule x)) p s) /\
  (0 <= p + counted (SET_USE x) < 4294967296 ->
   defint_inuse id s = Ret (DEFINT_IDINVAL, with_int id (Int (i_entry e) (SET_USE x)) (p + counted (SET_USE x)) s)).
Proof.
  intros Hi E p x. split; [|split; [|split]].
  - apply two_tests_int; [done|]. unfold mbind, st_bind, int_at, mbind, st_bind, get, checked. by rewrite E.
  - apply two_tests_int; [done|]. unfold mbind, st_bind, int_at, mbind, st_bind, get, checked. rewrite E.
    rewrite (lock_int_run s id e) by done. fold x. unfold after_schedule.
    destruct (atom_dec_test x) as [[] y] eqn:Ey; cbn [fst snd]; [|done].
    rewrite (lock_int_run _ id (Int (i_entry e) y)) by (by eapply with_int_at). cbn [i_entry i_lock].
    by rewrite with_int_twice.
  - apply two_tests_int; [done|]. unfold mbind, st_bind. rewrite (lock_int_run s id e) by done. fold x.
    rewrite (lock_int_run _ id (Int (i_entry e) (UNSET_SCHED x))) by (by eapply with_int_at). cbn [i_entry i_lock].
    by rewrite with_int_twice.
  - intros Hp. apply two_tests_int; [done|]. unfold mbind, st_bind. rewrite (lock_int_run s id e) by done. fold x.
    unfold int_at, mbind, st_bind, get, checked. erewrite with_int_at by done. cbn [i_lock].
    unfold SET_PENDING, counted in *. destruct ((l_type (SET_USE x) =? 0) && RUNNABLE (SET_USE x)).
    + unfold add_pending, modify. cbn [DEFINT_PENDING with_int]. rewrite u32_small by done. done.
    + by rewrite Z.add_0_r.
Qed.

Lemma calls_exec id (s : D) e : is_exec id = true -> at_index (defint_exec_tab s) (id - NR_DEFINT_INT) = Some e ->
  let p := DEFINT_PENDING s in let x := e_lock e in let i := id - NR_DEFINT_INT in
  defint_uninstall_handler id s = Ret (DEFINT_OK, with_exec i (DefInt.Exec 0 0 zero_lock) p s) /\
  defint_schedule id s = Ret (DEFINT_OK, with_exec i (DefInt.Exec (e_args e) (e_entry e) (after_schedule x)) p s) /\
  defint_unschedule id s = Ret (DEFINT_OK, with_exec i (DefInt.Exec (e_args e) (e_entry e) (after_unschedule x)) p s) /\
  (0 <= p + counted (SET_USE x) < 4294967296 ->
   defint_inuse id s = Ret (DEFINT_OK, with_exec i (DefInt.Exec (e_args e) (e_entry e) (SET_USE x)) (p + counted (SET_USE x)) s)).
Proof.
  intros Hi E p x i. fold i in E. split; [|split; [|split]].
  - apply two_tests_exec; [done|]. unfold mbind, st_bind, exec_at, mbind, st_bind, get, checked. fold i. by rewrite E.
  - apply two_tests_exec; [done|]. unfold mbind, st_bind, exec_at, mbind, st_bind, get, checked. fold i. rewrite E.
    rewrite (lock_exec_run s i e) by done. fold x. unfold after_schedule.
    destruct (atom_dec_test x) as [[] y] eqn:Ey; cbn [fst snd]; [|done].
    rewrite (lock_exec_run _ i (DefInt.Exec (e_args e) (e_entry e) y)) by (by eapply with_exec_at). cbn [e_args e_entry e_lock].
    by rewrite with_exec_twice.
  - apply two_tests_exec; [done|]. unfold mbind, st_bind. fold i. rewrite (lock_exec_run s i e) by done. fold x.
    rewrite (lock_exec_run _ i (DefInt.Exec (e_args e) (e_entry e) (UNSET_SCHED x))) by (by eapply with_exec_at).
    cbn [e_args e_entry e_lock]. by rewrite with_exec_twice.
  - intros Hp. apply two_tests_exec; [done|]. unfold mbind, st_bind. fold i. rewrite (lock_exec_run s i e) by done. fold x.
    unfold exec_at, mbind, st_bind, get, checked. erewrite with_exec_at by done. cbn [e_lock].
    unfold SET_PENDING, counted in *. destruct ((l_type (SET_USE x) =? 0) && RUNNABLE (SET_USE x)).
    + unfold add_pending, modify. cbn [DEFINT_PENDING with_exec]. rewrite u32_small by done. done.
    + by rewrite Z.add_0_r.
Qed.

(** ** The discipline *)

(** The handler an id names, and its lock. *)
Definition entry_at (id : Z) (s : D) : option (Z * defint_lock_t) :=
  if is_int id then (fun e => (i_entry e, i_lock e)) <$> at_index (defint_tab s) id
  else if is_exec id then (fun e => (e_entry e, e_lock e)) <$> at_index (defint_exec_tab s) (id - NR_DEFINT_INT)
  else None.

Definition due (r : Z * defint_lock_t) : bool := IS_CURR r.2 && RUNNABLE r.2 && negb (r.1 =? 0).

(** A handler may be removed or unscheduled unless it is due, scheduled unless it is in use, and
    marked in use once. *)
Definition allowed_at (s : D) (id : Z) (ok : Z * defint_lock_t -> bool) : bool :=
  match entry_at id s with Some r => ok r | None => true end.

Lemma due_int_due e : l_type (i_lock e) = 0 -> due_int e = due (i_entry e, i_lock e).
Proof. intros E. unfold due_int, due, IS_CURR. cbn [fst snd]. by rewrite E. Qed.

Lemma due_unscheduled f x : due (f, after_unschedule x) = false.
Proof.
  unfold due. cbn [fst snd]. rewrite runnable_bits. change (scheduled (after_unschedule x)) with (scheduled (UNSET_SCHED x)).
  destruct (flags_bits x) as (_ & [-> _] & _). by rewrite andb_false_r.
Qed.

Lemma due_not_in_use f x : in_use x = false -> due (f, x) = false.
Proof. intros E. unfold due. cbn [fst snd]. by rewrite runnable_bits, E, !andb_false_r. Qed.

Lemma in_use_scheduled x : in_use (after_schedule x) = in_use x.
Proof.
  unfold after_schedule, atom_dec_test. destruct (_ =? 0).
  - destruct (flags_bits (set_counter (u32 (l_counter x - 1)) x)) as ([_ ->] & _). done.
  - done.
Qed.

Lemma counted_due f x : (f =? 0) && scheduled x = false -> counted (SET_USE x) = Z.b2z (due (f, SET_USE x)).
Proof.
  intros Hf. unfold counted, due, IS_CURR. cbn [fst snd]. rewrite runnable_bits.
  destruct (flags_bits x) as (_ & _ & [-> ->] & _). destruct (l_type (SET_USE x) =? 0); [|done].
  destruct (scheduled x), (f =? 0); cbn in *; done.
Qed.

(** Installing in a free entry. *)
Lemma install_at_run type i entry args subtype (s : D) : d_ok s -> 0 <= i < 32 ->
  exists r s', install_at type i entry args subtype s = Ret (r, s') /\ d_ok s' /\
    (r = DEFINT_OK \/ r = DEFINT_IDINVAL /\ s' = s).
Proof.
  intros Hok Hi. pose proof Hok as [H1 H2 H4 H3]. unfold install_at. destruct (type =? DEFINT_INT).
  - destruct (at_index_some (defint_tab s) i) as (e & E & El); [lia|].
    unfold mbind, st_bind, int_at, mbind, st_bind, get, checked. rewrite E.
    destruct (Z.eqb_spec (i_entry e) 0) as [E0|E0]; cbn [negb]; [|eexists _, _; split; [done|]; split; [done|by right]].
    eexists _, _. split; [done|]. split; [|by left]. change (d_ok (with_int i (Int entry (Lock DEFINT_CURR 0 1)) (DEFINT_PENDING s) s)).
    eapply with_int_ok; [done|exact El|done|]. unfold due_int. cbn [i_lock i_entry]. rewrite E0, andb_false_r.
    change (RUNNABLE (Lock DEFINT_CURR 0 1)) with false. cbn [andb Z.b2z]. lia.
  - destruct (at_index_some (defint_exec_tab s) i) as (e & E & El); [lia|].
    unfold mbind, st_bind, exec_at, mbind, st_bind, get, checked. rewrite E.
    destruct (Z.eqb_spec (e_entry e) 0) as [E0|E0]; cbn [negb]; [|eexists _, _; split; [done|]; split; [done|by right]].
    eexists _, _. split; [done|]. split; [|by left].
    change (d_ok (with_exec i (DefInt.Exec args entry (Lock subtype 0 1)) (DEFINT_PENDING s) s)).
    eapply with_exec_ok; [done|exact El|]. unfold due_exec. cbn [e_lock e_entry]. rewrite E0, andb_false_r.
    change (RUNNABLE (Lock subtype 0 1)) with false. rewrite andb_false_r. cbn [andb Z.b2z]. lia.
Qed.

Lemma free_entry_run (s : D) n : forall i, 0 <= i -> i + Z.of_nat n <= Z.of_nat (length (defint_tab s)) ->
  exists r, free_entry n i s = Ret (r, s) /\
    match r with Some j => i <= j < i + Z.of_nat n | None => True end.
Proof.
  induction n as [|n IH]; intros i Hi Hn; cbn [free_entry]; [by exists None|].
  destruct (at_index_some (defint_tab s) i) as (e & E & _); [lia|].
  unfold mbind, st_bind, int_at, mbind, st_bind, get, checked. rewrite E.
  destruct (i_entry e =? 0); [exists (Some i); split; [done|lia]|].
  destruct (IH (i + 1)) as ([j|] & Er & Hr); [lia|lia|exists (Some j); split; [done|lia]|by exists None].
Qed.

Section Steps.

Context (call_int : Z -> st D unit) (call_exec : Z -> Z -> st D unit).
Context (act_int : Z -> W -> W) (act_exec : Z -> Z -> W -> W).

Inductive dop :=
  | Install (type id priority entry args subtype : Z) | Uninstall (id : Z) | Schedule (id : Z)
  | Unschedule (id : Z) | Inuse (id : Z) | Run.

Definition run_op (o : dop) : st D defint_status :=
  match o with
  | Install type id priority entry args subtype =>
      r ← defint_install_handler type id priority entry args subtype; mret r.1
  | Uninstall id => defint_uninstall_handler id
  | Schedule id => defint_schedule id
  | Unschedule id => defint_unschedule id
  | Inuse id => defint_inuse id
  | Run => _ ← defint_exec call_int call_exec; mret DEFINT_OK
  end.

Definition allowed (s : D) (o : dop) : bool :=
  match o with
  | Install type id _ _ _ _ => (id =? DEFINT_IDALLOC) || (type =? DEFINT_INT) || is_int id
  | Uninstall id | Unschedule id => allowed_at s id (fun r => negb (due r))
  | Schedule id => allowed_at s id (fun r => negb (in_use r.2))
  | Inuse id => allowed_at s id (fun r => negb (due r) && negb ((r.1 =? 0) && scheduled r.2))
  | Run => true
  end.

Lemma install_step (s : D) type id priority entry args subtype : d_ok s ->
  (id =? DEFINT_IDALLOC) || (type =? DEFINT_INT) || is_int id = true ->
  exists r s', defint_install_handler type id priority entry args subtype s = Ret (r, s') /\ d_ok s'.
Proof.
  intros Hok Ha. pose proof Hok as [H1 H2 _ _]. unfold defint_install_handler.
  destruct (negb (type =? DEFINT_INT) && negb (type =? DEFINT_EXEC)); [by eexists _, _|].
  destruct ((priority <? 0) || (NR_DEFINT_PRIORITY <=? priority)) eqn:Ep; [by eexists _, _|].
  apply orb_false_iff in Ep as [Ep1 Ep2]. change NR_DEFINT_PRIORITY with 4 in Ep2.
  destruct (Z.eqb_spec id DEFINT_IDALLOC) as [Eid|Eid].
  - replace (if type =? DEFINT_INT then NR_DEFINT_INT else NR_DEFINT_EXEC) with 32 by (by destruct (type =? DEFINT_INT)).
    cbv zeta. rewrite Z.shiftl_mul_pow2 by lia. change (2 ^ 3) with 8.
    destruct (free_entry_run s (Z.to_nat (32 - priority * 8)) (priority * 8)) as (r & Er & Hr); [lia|lia|].
    unfold mbind, st_bind. rewrite Er. destruct r as [j|]; [|by eexists _, _].
    destruct (install_at_run type j entry args subtype s Hok) as (r & s' & E & Hs & _); [lia|]. rewrite E.
    by eexists _, _.
  - unfold chosen_id. destruct (Z.eqb_spec type DEFINT_INT) as [Et|Et].
    + assert (forall A (k : A), (if (id <? 0) || (NR_DEFINT_INT <=? id) then None
        else if (id <? NR_DEFINT_INT) || (NR_DEFINT <=? id) then None else Some k) = None) as Hn.
      { intros A k. destruct (Z.ltb_spec id 0), (Z.leb_spec NR_DEFINT_INT id), (Z.ltb_spec id NR_DEFINT_INT); cbn [orb]; done || lia. }
      rewrite Hn. by eexists _, _.
    + cbn [orb] in Ha. unfold is_int in Ha. change NR_DEFINT_INT with 32 in Ha.
      destruct (install_at_run type id entry args subtype s Hok) as (r & s' & E & Hs & _); [lia|].
      unfold mbind, st_bind. rewrite E. by eexists _, _.
Qed.

(** A call that acts on the entry an id names. *)
Lemma at_entry (s : D) id : d_ok s ->
  (is_int id = true /\ exists e, at_index (defint_tab s) id = Some e /\ defint_tab s !! Z.to_nat id = Some e /\
     l_type (i_lock e) = 0 /\ entry_at id s = Some (i_entry e, i_lock e)) \/
  (is_exec id = true /\ exists e, at_index (defint_exec_tab s) (id - NR_DEFINT_INT) = Some e /\
     defint_exec_tab s !! Z.to_nat (id - NR_DEFINT_INT) = Some e /\ entry_at id s = Some (e_entry e, e_lock e)) \/
  is_int id = false /\ is_exec id = false.
Proof.
  intros [H1 H2 H4 _]. unfold entry_at. destruct (is_int id) eqn:Ei; [left|right].
  - split; [done|]. destruct (at_index_some (defint_tab s) id) as (e & E & El).
    { unfold is_int in Ei. change NR_DEFINT_INT with 32 in Ei. lia. }
    exists e. rewrite E. split; [done|]. split; [done|]. split; [|done].
    exact (proj1 (Forall_lookup _ _) H4 _ _ El).
  - destruct (is_exec id) eqn:Ee; [left|by right]. split; [done|].
    destruct (at_index_some (defint_exec_tab s) (id - NR_DEFINT_INT)) as (e & E & El).
    { unfold is_exec in Ee. change NR_DEFINT_INT with 32 in *. change NR_DEFINT with 64 in Ee. lia. }
    exists e. by rewrite E.
Qed.

(** [m] changes the entry an id names by [g], and the counter by [c]. *)
Definition touches (m : Z -> st D defint_status) (g : Z * defint_lock_t -> Z * defint_lock_t) (c : Z * defint_lock_t -> Z) : Prop :=
  forall id s,
    (forall e, is_int id = true -> at_index (defint_tab s) id = Some e ->
       let r := (i_entry e, i_lock e) in 0 <= DEFINT_PENDING s + c r < 4294967296 ->
       exists st, m id s = Ret (st, with_int id (Int (g r).1 (g r).2) (DEFINT_PENDING s + c r) s)) /\
    (forall e, is_exec id = true -> at_index (defint_exec_tab s) (id - NR_DEFINT_INT) = Some e ->
       let r := (e_entry e, e_lock e) in 0 <= DEFINT_PENDING s + c r < 4294967296 ->
       exists st a, m id s = Ret (st, with_exec (id - NR_DEFINT_INT) (DefInt.Exec a (g r).1 (g r).2) (DEFINT_PENDING s + c r) s)) /\
    (is_int id = false -> is_exec id = false -> m id s = Ret (DEFINT_IDINVAL, s)).

Lemma calls_touch :
  touches defint_uninstall_handler (fun _ => (0, zero_lock)) (fun _ => 0) /\
  touches defint_schedule (fun r => (r.1, after_schedule r.2)) (fun _ => 0) /\
  touches defint_unschedule (fun r => (r.1, after_unschedule r.2)) (fun _ => 0) /\
  touches defint_inuse (fun r => (r.1, SET_USE r.2)) (fun r => counted (SET_USE r.2)).
Proof.
  split_and!; intros id s; (split; [|split; [|intros Hi He; by apply two_tests_none]]); intros e Hi E r Hp;
    [destruct (calls_int id s e Hi E) as (E1 & E2 & E3 & E4) | destruct (calls_exec id s e Hi E) as (E1 & E2 & E3 & E4)
    |destruct (calls_int id s e Hi E) as (E1 & E2 & E3 & E4) | destruct (calls_exec id s e Hi E) as (E1 & E2 & E3 & E4)
    |destruct (calls_int id s e Hi E) as (E1 & E2 & E3 & E4) | destruct (calls_exec id s e Hi E) as (E1 & E2 & E3 & E4)
    |destruct (calls_int id s e Hi E) as (E1 & E2 & E3 & E4) | destruct (calls_exec id s e Hi E) as (E1 & E2 & E3 & E4)];
    rewrite ?Z.add_0_r; eauto.
Qed.

Lemma touch_step m g c (s : D) id : touches m g c -> d_ok s ->
  (forall r, entry_at id s = Some r -> (l_type r.2 = 0 -> l_type (g r).2 = 0) /\ c r = Z.b2z (due (g r)) - Z.b2z (due r)) ->
  exists r s', m id s = Ret (r, s') /\ d_ok s'.
Proof.
  intros Hm Hok Hg. destruct (Hm id s) as (Hint & Hexec & Hnone). pose proof Hok as [H1 H2 _ H3].
  pose proof (nr_due_bound s H1 H2) as Hb.
  destruct (at_entry s id Hok) as [(Hi & e & E & El & Et & Ee)|[(Hi & e & E & El & Ee)|[Hi He]]].
  - destruct (Hg _ Ee) as [Ht Hd]. specialize (Ht Et).
    assert (due_int e = due (i_entry e, i_lock e)) as Ed by by apply due_int_due.
    pose proof (count_member due_int _ _ _ El) as Hpos. pose proof (count_bound due_exec (defint_exec_tab s)).
    destruct (Hint e Hi E) as (st & Er).
    { rewrite Hd, <- Ed. destruct (due (g _)), (due_int e); cbn [Z.b2z] in *; unfold nr_due in *; lia. }
    rewrite Er. eexists _, _. split; [done|]. eapply with_int_ok; [done|exact El|exact Ht|].
    rewrite Ed, due_int_due by done. cbn [i_entry i_lock]. rewrite Hd. destruct (g (i_entry e, i_lock e)). cbn [fst snd]. lia.
  - destruct (Hg _ Ee) as [_ Hd].
    pose proof (count_member due_exec _ _ _ El) as Hpos. pose proof (count_bound due_int (defint_tab s)).
    change (due_exec e) with (due (e_entry e, e_lock e)) in Hpos.
    destruct (Hexec e Hi E) as (st & a & Er).
    { rewrite Hd. destruct (due (g _)), (due (e_entry e, e_lock e)); cbn [Z.b2z] in *; unfold nr_due in *; lia. }
    rewrite Er. eexists _, _. split; [done|]. eapply with_exec_ok; [done|exact El|].
    change (due_exec e) with (due (e_entry e, e_lock e)).
    match goal with |- context [due_exec ?x] => change (due_exec x) with (due (e_entry x, e_lock x)) end.
    cbn [e_entry e_lock]. rewrite Hd. destruct (g (e_entry e, e_lock e)). cbn [fst snd]. lia.
  - rewrite Hnone by done. by eexists _, _.
Qed.

Lemma allowed_step (s : D) o : quiet call_int call_exec act_int act_exec -> d_ok s -> allowed s o = true ->
  exists r s', run_op o s = Ret (r, s') /\ d_ok s'.
Proof.
  intros Hq Hok Ha. destruct calls_touch as (T1 & T2 & T3 & T4).
  destruct o as [type id priority entry args subtype|id|id|id|id|]; cbn [run_op allowed] in *; unfold allowed_at in Ha.
  - destruct (install_step s type id priority entry args subtype Hok Ha) as (r & s' & E & Hs).
    unfold mbind, st_bind. rewrite E. by eexists _, _.
  - apply (touch_step _ _ _ s id T1 Hok). intros r Er. rewrite Er in Ha. apply negb_true_iff in Ha. by rewrite Ha.
  - apply (touch_step _ _ _ s id T2 Hok). intros r Er. rewrite Er in Ha. apply negb_true_iff in Ha. cbn [fst snd]. split.
    + intros Ht. unfold after_schedule. cbn. by destruct (_ =? 0).
    + destruct r as [f x]. cbn [fst snd] in *. by rewrite !due_not_in_use by (by rewrite ?in_use_scheduled).
  - apply (touch_step _ _ _ s id T3 Hok). intros r Er. rewrite Er in Ha. apply negb_true_iff in Ha. cbn [fst snd].
    split; [done|]. by rewrite due_unscheduled, Ha.
  - apply (touch_step _ _ _ s id T4 Hok). intros r Er. rewrite Er in Ha.
    apply andb_true_iff in Ha as [Hd%negb_true_iff Hs%negb_true_iff]. cbn [fst snd]. split; [done|].
    rewrite Hd, (counted_due r.1) by done. cbn [Z.b2z]. lia.
  - pose proof Hok as [H1 H2 H4 H3]. pose proof (nr_due_bound s H1 H2) as Hb.
    unfold mbind, st_bind. rewrite (defint_exec_run _ _ act_int act_exec) by (done || lia).
    eexists _, _. split; [done|]. rewrite H3, Z.sub_diag.
    split; cbn [defint_tab defint_exec_tab DEFINT_PENDING]; [by rewrite length_map | by rewrite length_map | |].
    + apply Forall_map. eapply Forall_impl; [exact H4|]. intros e He. unfold ran_int. by destruct (due_int e).
    + unfold nr_due. cbn [defint_tab defint_exec_tab]. rewrite !count_ran; [done|intros x; apply ran_exec_idle|intros x; apply ran_int_idle].
Qed.

(** The states the calls reach from the statics, as long as each is allowed. *)
Inductive disciplined : D -> Prop :=
  | disc_boot w : disciplined (DState (replicate 32 (Int 0 zero_lock)) (replicate 32 (DefInt.Exec 0 0 zero_lock)) 0 w)
  | disc_step s o r s' : disciplined s -> allowed s o = true -> run_op o s = Ret (r, s') -> disciplined s'.

(** C33: DEFINT_PENDING is the number of handlers that are due, after any calls of which each was made
    in order: an id that is free or chosen by the system, no handler removed or unscheduled while it is
    due, scheduled while in use, or marked in use twice; every such call returns. *)
Theorem pending_counts_due (s : D) : quiet call_int call_exec act_int act_exec -> disciplined s ->
  d_ok s /\ forall o, allowed s o = true -> exists r s', run_op o s = Ret (r, s').
Proof.
  intros Hq Hs.
  assert (d_ok s) as Hok.
  { induction Hs as [w|s o r s' _ IH Ha E].
    - split; [done|done| |done]. by apply Forall_replicate.
    - destruct (allowed_step s o Hq IH Ha) as (r' & s1 & E' & Hok). rewrite E in E'. injection E' as _ ->. done. }
  split; [done|]. intros o Ha. destruct (allowed_step s o Hq Hok Ha) as (r & s' & E & _). by eexists _, _.
Qed.

Lemma set_use_twice x : SET_USE (SET_USE x) = SET_USE x.
Proof. unfold SET_USE, set_flags. cbn [l_flags l_type l_counter]. by rewrite <- Z.lor_assoc. Qed.

Lemma inuse_twice (s : D) id f x : d_ok s -> entry_at id s = Some (f, x) -> f <> 0 -> l_type x = 0 ->
  scheduled x = true -> in_use x = false ->
  exists st1 s1 st2 s2, defint_inuse id s = Ret (st1, s1) /\ defint_inuse id s1 = Ret (st2, s2) /\
    length (defint_tab s2) = 32%nat /\ length (defint_exec_tab s2) = 32%nat /\ nr_due s2 < DEFINT_PENDING s2 < 4294967296.
Proof.
  intros Hok Ee Hf Ht Hs Hu. pose proof Hok as [H1 H2 _ H3]. pose proof (nr_due_bound s H1 H2) as Hb.
  destruct calls_touch as (_ & _ & _ & T4).
  assert (due (f, x) = false) as Hd by by apply due_not_in_use.
  assert (counted (SET_USE x) = 1) as Hc.
  { unfold counted. rewrite runnable_bits. destruct (flags_bits x) as (_ & _ & [-> ->] & _). rewrite Hs.
    change (l_type (SET_USE x)) with (l_type x). by rewrite Ht. }
  assert (forall r, entry_at id s = Some r -> (l_type r.2 = 0 -> l_type (SET_USE r.2) = 0) /\
    counted (SET_USE r.2) = Z.b2z (due (r.1, SET_USE r.2)) - Z.b2z (due r)) as Hg.
  { intros r Er. rewrite Ee in Er. injection Er as <-. cbn [fst snd]. split; [done|].
    rewrite Hd, (counted_due f); [cbn; lia|]. by rewrite (proj2 (Z.eqb_neq f 0)). }
  destruct (touch_step _ _ _ s id T4 Hok Hg) as (st1 & s1 & E1 & Hok1). pose proof Hok1 as [K1 K2 _ K3].
  destruct (at_entry s id Hok) as [(Hi & e & E & El & Et & Ee')|[(Hi & e & E & El & Ee')|[Hi He]]].
  - rewrite Ee in Ee'. injection Ee' as -> ->. destruct (calls_int id s e Hi E) as (_ & _ & _ & Er).
    rewrite Hc in Er. rewrite Er in E1 by lia. injection E1 as <- <-.
    destruct (calls_int id _ _ Hi (with_int_at s id e (Int (i_entry e) (SET_USE (i_lock e))) (DEFINT_PENDING s + 1) E))
      as (_ & _ & _ & Er2). cbn [i_entry i_lock DEFINT_PENDING with_int] in Er2. rewrite set_use_twice, Hc, with_int_twice in Er2.
    eexists _, _, _, _. split; [apply Er; lia|]. split; [apply Er2; lia|]. split; [exact K1|]. split; [exact K2|].
    change (nr_due (with_int id (Int (i_entry e) (SET_USE (i_lock e))) (DEFINT_PENDING s + 1) s) <
      DEFINT_PENDING s + 1 + 1 < 4294967296). rewrite <- K3. cbn [DEFINT_PENDING with_int]. lia.
  - rewrite Ee in Ee'. injection Ee' as -> ->. destruct (calls_exec id s e Hi E) as (_ & _ & _ & Er).
    rewrite Hc in Er. rewrite Er in E1 by lia. injection E1 as <- <-.
    destruct (calls_exec id _ _ Hi (with_exec_at s (id - NR_DEFINT_INT) e
      (DefInt.Exec (e_args e) (e_entry e) (SET_USE (e_lock e))) (DEFINT_PENDING s + 1) E)) as (_ & _ & _ & Er2).
    cbn [e_args e_entry e_lock DEFINT_PENDING with_exec] in Er2. rewrite set_use_twice, Hc, with_exec_twice in Er2.
    eexists _, _, _, _. split; [apply Er; lia|]. split; [apply Er2; lia|]. split; [exact K1|]. split; [exact K2|].
    change (nr_due (with_exec (id - NR_DEFINT_INT) (DefInt.Exec (e_args e) (e_entry e) (SET_USE (e_lock e))) (DEFINT_PENDING s + 1) s) <
      DEFINT_PENDING s + 1 + 1 < 4294967296). rewrite <- K3. cbn [DEFINT_PENDING with_exec]. lia.
  - unfold entry_at in Ee. by rewrite Hi, He in Ee.
Qed.

(** A handler that is marked in use again before it ran is counted twice, and the loop on the way
    out of the kernel, which ends when DEFINT_PENDING is 0, never ends. *)
Theorem inuse_twice_never_ends (s : D) id f x : quiet call_int call_exec act_int act_exec -> d_ok s ->
  entry_at id s = Some (f, x) -> f <> 0 -> l_type x = 0 -> scheduled x = true -> in_use x = false ->
  exists st1 s1 st2 s2, defint_inuse id s = Ret (st1, s1) /\ defint_inuse id s1 = Ret (st2, s2) /\
    forall fuel, handle_defint call_int call_exec fuel s2 = NoFuel.
Proof.
  intros Hq Hok Ee Hf Ht Hs Hu.
  destruct (inuse_twice s id f x Hok Ee Hf Ht Hs Hu) as (st1 & s1 & st2 & s2 & E1 & E2 & H1 & H2 & H3).
  exists st1, s1, st2, s2. split; [done|]. split; [done|]. intros fuel. by eapply handle_defint_stuck.
Qed.

End Steps.

(** Ids chosen by the caller do not work.  The check for interrupt handlers refuses every id, and
    that for deferred execution is skipped: an id of the documented range indexes the table past its
    end. *)
Theorem chosen_ids_fail (s : D) id priority entry args subtype : length (defint_exec_tab s) = 32%nat ->
  0 <= priority < NR_DEFINT_PRIORITY -> 0 <= id < DEFINT_IDALLOC ->
  defint_install_handler DEFINT_INT id priority entry args subtype s = Ret ((DEFINT_IDINVAL, id), s) /\
  (NR_DEFINT_INT <= id -> defint_install_handler DEFINT_EXEC id priority entry args subtype s = Fault).
Proof.
  intros Hl Hp Hi. unfold defint_install_handler. cbn [Z.eqb DEFINT_INT DEFINT_EXEC Pos.eqb negb andb].
  rewrite (proj2 (Z.ltb_ge priority 0)), (proj2 (Z.leb_gt NR_DEFINT_PRIORITY priority)), (proj2 (Z.eqb_neq id DEFINT_IDALLOC)) by lia.
  cbn [orb]. unfold chosen_id. cbn [Z.eqb Pos.eqb DEFINT_INT DEFINT_EXEC]. split.
  - rewrite (proj2 (Z.ltb_ge id 0)) by lia. cbn [orb]. destruct (Z.leb_spec NR_DEFINT_INT id); [done|].
    by rewrite (proj2 (Z.ltb_lt id NR_DEFINT_INT)) by lia.
  - intros Hge. unfold install_at. cbn [Z.eqb Pos.eqb DEFINT_INT DEFINT_EXEC].
    unfold mbind, st_bind, exec_at, mbind, st_bind, get, checked, at_index. rewrite Hl.
    change (Z.of_nat 32) with NR_DEFINT_INT. rewrite (proj2 (Z.ltb_ge id NR_DEFINT_INT)) by lia. by rewrite andb_false_r.
Qed.

End Calls.

(** ** A kernel with two handlers *)

Definition log_int (f : Z) : st (dstate (list Z)) unit := modify (fun s => with_world (world s ++ [f]) s).
Definition log_exec (f a : Z) : st (dstate (list Z)) unit := modify (fun s => with_world (world s ++ [f; a]) s).

Lemma log_quiet : quiet log_int log_exec (fun f w => w ++ [f]) (fun f a w => w ++ [f; a]).
Proof. by split. Qed.

Definition boot : dstate (list Z) := DState (replicate 32 (Int 0 zero_lock)) (replicate 32 (DefInt.Exec 0 0 zero_lock)) 0 [].

(** An interrupt handler at 7, chosen by the system, and deferred execution at 9. *)
Definition two_handlers : st (dstate (list Z)) unit :=
  _ ← defint_install_handler DEFINT_INT DEFINT_IDALLOC 1 7 0 0;
  _ ← defint_install_handler DEFINT_EXEC DEFINT_IDALLOC 0 9 5 DEFINT_CURR;
  _ ← defint_schedule 8; _ ← defint_schedule 32; mret tt.

Definition installed : dstate (list Z) := Eval vm_compute in final_state two_handlers boot.
Definition both_due : dstate (list Z) :=
  Eval vm_compute in final_state (_ ← defint_inuse 32; defint_inuse 8) installed.

Lemma d_ok_check (s : dstate (list Z)) :
  length (defint_tab s) = 32%nat -> length (defint_exec_tab s) = 32%nat ->
  forallb (fun e => l_type (i_lock e) =? 0) (defint_tab s) = true -> DEFINT_PENDING s = nr_due s -> d_ok s.
Proof.
  intros H1 H2 H3 H4. split; [done|done| |done]. apply Forall_forall. intros e He. rewrite forallb_forall in H3.
  apply Z.eqb_eq, H3. by apply list_elem_of_In.
Qed.


Lemma pending_counts_due_witness : exists s, d_ok s /\ DEFINT_PENDING s = 1 /\
  run_op log_int log_exec (Inuse 8) s = Ret (DEFINT_IDINVAL, both_due).
Proof.
  assert (disciplined log_int log_exec boot) as D0 by apply disc_boot.
  set (o1 := Install DEFINT_INT DEFINT_IDALLOC 1 7 0 0). set (o2 := Install DEFINT_EXEC DEFINT_IDALLOC 0 9 5 DEFINT_CURR).
  pose (s1 := final_state (run_op log_int log_exec o1) boot).
  pose (s2 := final_state (run_op log_int log_exec o2) s1).
  pose (s3 := final_state (run_op log_int log_exec (Schedule 8)) s2).
  pose (s4 := final_state (run_op log_int log_exec (Schedule 32)) s3).
  pose (s5 := final_state (run_op log_int log_exec (Inuse 32)) s4).
  assert (disciplined log_int log_exec s1) as D1 by (apply (disc_step _ _ boot o1 DEFINT_OK); [exact D0|vm_compute; reflexivity..]).
  assert (disciplined log_int log_exec s2) as D2 by (apply (disc_step _ _ s1 o2 DEFINT_OK); [exact D1|vm_compute; reflexivity..]).
  assert (disciplined log_int log_exec s3) as D3 by (apply (disc_step _ _ s2 (Schedule 8) DEFINT_IDINVAL); [exact D2|vm_compute; reflexivity..]).
  assert (disciplined log_int log_exec s4) as D4 by (apply (disc_step _ _ s3 (Schedule 32) DEFINT_OK); [exact D3|vm_compute; reflexivity..]).
  assert (disciplined log_int log_exec s5) as D5 by (apply (disc_step _ _ s4 (Inuse 32) DEFINT_OK); [exact D4|vm_compute; reflexivity..]).
  exists s5. split; [|split; vm_compute; reflexivity].
  exact (proj1 (pending_counts_due log_int log_exec _ _ s5 log_quiet D5)).
Defined.

Lemma inuse_twice_never_ends_witness : exists st1 s1 st2 s2,
  defint_inuse 8 installed = Ret (st1, s1) /\ defint_inuse 8 s1 = Ret (st2, s2) /\
  forall fuel, handle_defint log_int log_exec fuel s2 = NoFuel.
Proof.
  apply (inuse_twice_never_ends log_int log_exec _ _ installed 8 7 (Lock 0 1 0) log_quiet).
  - apply d_ok_check; vm_compute; reflexivity.
  - vm_compute. reflexivity.
  - discriminate.
  - reflexivity.
  - reflexivity.
  - reflexivity.
Defined.

Lemma chosen_ids_fail_witness :
  defint_install_handler DEFINT_INT 5 0 7 0 0 boot = Ret ((DEFINT_IDINVAL, 5), boot) /\
  defint_install_handler DEFINT_EXEC 40 0 9 5 0 boot = Fault.
Proof.
  split.
  - apply (chosen_ids_fail boot 5 0 7 0 0); [reflexivity|vm_compute; split; [discriminate|reflexivity]..].
  - apply (chosen_ids_fail boot 40 0 9 5 0); [reflexivity|vm_compute; split; [discriminate|reflexivity]..|vm_compute; discriminate].
Defined.

(** Ids for deferred execution are chosen where the table of interrupt handlers is free: with none of
    these, the second one is refused. *)
Example second_exec_refused :
  (_ ← defint_install_handler DEFINT_EXEC DEFINT_IDALLOC 0 9 5 0; defint_install_handler DEFINT_EXEC DEFINT_IDALLOC 0 11 5 0) boot =
  Ret ((DEFINT_IDINVAL, 32), final_state (defint_install_handler DEFINT_EXEC DEFINT_IDALLOC 0 9 5 0) boot).
Proof. vm_compute. reflexivity. Qed.
