(* ===== verification/Syscall.v ===== *)
(** * System calls ([kernel/syscall_tab.c], [kernel/syscall])

    The table of the calls, and the calls themselves, run by the current process on
    the state of processes, memory and files together.  The calls on files work on
    the tables of the current process.  Path arguments are not NULL; a
    pointer argument that only says where a result goes is [false] for NULL.  The
    instructions that disable and enable interrupts around a call are left out. *)

From Stdlib Require Import String.
From S2P Require Import Prelude Errno Device Layout Paths Store Tree FileIO File Dir Page Segment Elf Exec.
From S2P Require Import Process Sched Signal Clock Fork Exit.

(** ** The table *)

Inductive call :=
  | CALL_startup | CALL_access | CALL_acct | CALL_alarm | CALL_brk | CALL_chdir | CALL_chmod | CALL_chown
  | CALL_chroot | CALL_creat | CALL_close | CALL_dup | CALL_dup2 | CALL_execve | CALL_exit | CALL_fcntl
  | CALL_fork | CALL_getpid | CALL_getegid | CALL_getgid | CALL_geteuid | CALL_getuid | CALL_getppid
  | CALL_getpgid | CALL_getcwd | CALL_ioctl | CALL_kill | CALL_link | CALL_lseek | CALL_mkdir | CALL_mknod
  | CALL_mount | CALL_nice | CALL_open | CALL_pause | CALL_pipe | CALL_ptrace | CALL_read | CALL_rmdir
  | CALL_setpgid | CALL_setgid | CALL_setuid | CALL_setsid | CALL_setreuid | CALL_setregid | CALL_sleep
  | CALL_nanosleep | CALL_sigaction | CALL_sigprocmask | CALL_sigpending | CALL_sigsuspend | CALL_sigreturn
  | CALL_sigemptyset | CALL_sigfillset | CALL_sigaddset | CALL_sigdelset | CALL_sigismember | CALL_stat
  | CALL_fstat | CALL_sync | CALL_time | CALL_times | CALL_ftime | CALL_stime | CALL_utime | CALL_umask
  | CALL_umount | CALL_uname | CALL_unlink | CALL_ustat | CALL_waitpid | CALL_write | CALL_reboot | CALL_lstat
  | CALL_fchmod | CALL_getwd | CALL_get_current_dir_name | CALL_fchdir | CALL_rename | CALL_opendir
  | CALL_closedir | CALL_rewinddir | CALL_readdir | CALL_fchown | CALL_lchown | CALL_signal | CALL_mktime.

#[export] Instance call_eq_dec : EqDecision call.
Proof. solve_decision. Defined.

Definition Nr_SYS_CALL : nat := 87.

(** The numbers a program puts in [eax]. *)
Definition call_number (c : call) : Z :=
  match c with
  | CALL_startup => 0 | CALL_access => 1 | CALL_acct => 2 | CALL_alarm => 3 | CALL_brk => 4 | CALL_chdir => 5
  | CALL_chmod => 6 | CALL_chown => 7 | CALL_chroot => 8 | CALL_creat => 9 | CALL_close => 10 | CALL_dup => 11
  | CALL_dup2 => 12 | CALL_execve => 13 | CALL_exit => 14 | CALL_fcntl => 15 | CALL_fork => 16
  | CALL_getpid => 17 | CALL_getegid => 18 | CALL_getgid => 19 | CALL_geteuid => 20 | CALL_getuid => 21
  | CALL_getppid => 22 | CALL_getpgid => 23 | CALL_getcwd => 24 | CALL_ioctl => 25 | CALL_kill => 26
  | CALL_link => 27 | CALL_lseek => 28 | CALL_mkdir => 29 | CALL_mknod => 30 | CALL_mount => 31
  | CALL_nice => 32 | CALL_open => 33 | CALL_pause => 34 | CALL_pipe => 35 | CALL_ptrace => 36
  | CALL_read => 37 | CALL_rmdir => 38 | CALL_setpgid => 39 | CALL_setgid => 40 | CALL_setuid => 41
  | CALL_setsid => 42 | CALL_setreuid => 43 | CALL_setregid => 44 | CALL_sleep => 45 | CALL_nanosleep => 46
  | CALL_sigaction => 47 | CALL_sigprocmask => 48 | CALL_sigpending => 49 | CALL_sigsuspend => 50
  | CALL_sigreturn => 51 | CALL_sigemptyset => 52 | CALL_sigfillset => 53 | CALL_sigaddset => 54
  | CALL_sigdelset => 55 | CALL_sigismember => 56 | CALL_stat => 57 | CALL_fstat => 58 | CALL_sync => 59
  | CALL_time => 60 | CALL_times => 61 | CALL_ftime => 62 | CALL_stime => 63 | CALL_utime => 64
  | CALL_umask => 65 | CALL_umount => 66 | CALL_uname => 67 | CALL_unlink => 68 | CALL_ustat => 69
  | CALL_waitpid => 70 | CALL_write => 71 | CALL_reboot => 72 | CALL_lstat => 73 | CALL_fchmod => 74
  | CALL_getwd => 75 | CALL_get_current_dir_name => 76 | CALL_fchdir => 77 | CALL_rename => 78
  | CALL_opendir => 79 | CALL_closedir => 80 | CALL_rewinddir => 81 | CALL_readdir => 82 | CALL_fchown => 83
  | CALL_lchown => 84 | CALL_signal => 85 | CALL_mktime => 86
  end.

(** The entry [CALL_x] is [sys_x]. *)
Definition syscall_dispatch_tab : list call := [
  CALL_startup; CALL_access; CALL_acct; CALL_alarm; CALL_brk; CALL_chdir; CALL_chmod; CALL_chown; CALL_chroot;
  CALL_creat; CALL_close; CALL_dup; CALL_dup2; CALL_execve; CALL_exit; CALL_fcntl; CALL_fork; CALL_getpid;
  CALL_getegid; CALL_getgid; CALL_geteuid; CALL_getuid; CALL_getppid; CALL_getpgid; CALL_getcwd; CALL_ioctl;
  CALL_kill; CALL_link; CALL_lseek; CALL_mkdir; CALL_mknod; CALL_mount; CALL_nice; CALL_open; CALL_pause;
  CALL_pipe; CALL_ptrace; CALL_read; CALL_rmdir; CALL_setpgid; CALL_setgid; CALL_setuid; CALL_setsid;
  CALL_setreuid; CALL_setregid; CALL_sleep; CALL_nanosleep; CALL_sigaction; CALL_sigprocmask; CALL_sigpending;
  CALL_sigsuspend; CALL_sigreturn; CALL_sigemptyset; CALL_sigfillset; CALL_sigaddset; CALL_sigdelset;
  CALL_sigismember; CALL_stat; CALL_fstat; CALL_sync; CALL_time; CALL_times; CALL_ftime; CALL_stime;
  CALL_utime; CALL_umask; CALL_umount; CALL_uname; CALL_unlink; CALL_ustat; CALL_waitpid; CALL_write;
  CALL_reboot; CALL_lstat; CALL_fchmod; CALL_getwd; CALL_get_current_dir_name; CALL_fchdir; CALL_rename;
  CALL_opendir; CALL_closedir; CALL_rewinddir; CALL_readdir; CALL_fchown; CALL_lchown; CALL_signal; CALL_mktime
].

(** The calls whose body is empty. *)
Definition empty_body (c : call) : bool :=
  match c with
  | CALL_startup | CALL_access | CALL_acct | CALL_brk | CALL_chown | CALL_chroot | CALL_execve | CALL_fcntl
  | CALL_ioctl | CALL_mknod | CALL_mount | CALL_pipe | CALL_ptrace | CALL_setpgid | CALL_setsid | CALL_sleep
  | CALL_nanosleep | CALL_sigaction | CALL_sigprocmask | CALL_sigpending | CALL_sigsuspend | CALL_sigreturn
  | CALL_sigemptyset | CALL_sigfillset | CALL_sigaddset | CALL_sigdelset | CALL_sigismember | CALL_ftime
  | CALL_stime | CALL_umount | CALL_ustat | CALL_reboot | CALL_fchown | CALL_lchown => true
  | _ => false
  end.

(** ** Parts of processes *)

Definition set_p_start_time (v : Z) (p : process) : process :=
  Process (p_state p) (p_counter p) (p_priority p) (p_signal p) (p_blocked p) (p_tss_seg p) (p_exit_code p) (p_pid p)
    (p_parent p) (p_pgrp p) (p_session p) (p_leader p) (p_uid p) (p_euid p) (p_suid p) (p_gid p) (p_egid p) (p_sgid p)
    (p_alarm p) (p_utime p) (p_stime p) (p_cutime p) (p_cstime p) v (Process.p_first_exec p) (p_eip p) (p_sigaction p)
    (p_next p) (p_prev p).

Record tms := Tms { tms_utime : Z; tms_stime : Z; tms_cutime : Z; tms_cstime : Z }.

Definition set_times (t : tms) (p : process) : process :=
  Process (p_state p) (p_counter p) (p_priority p) (p_signal p) (p_blocked p) (p_tss_seg p) (p_exit_code p) (p_pid p)
    (p_parent p) (p_pgrp p) (p_session p) (p_leader p) (p_uid p) (p_euid p) (p_suid p) (p_gid p) (p_egid p) (p_sgid p)
    (p_alarm p) (tms_utime t) (tms_stime t) (tms_cutime t) (tms_cstime t) (p_start_time p) (Process.p_first_exec p) (p_eip p)
    (p_sigaction p) (p_next p) (p_prev p).

Definition set_umask (v : Z) (b : body) : body :=
  Body (b_tss b) (b_exec b) (b_exec_size b) (b_elf_entry b) (b_argc b) (b_argv b) (b_envp b) (b_delete_argv b) (b_cwd b)
    v (b_owner b) (b_group b) (b_file_tab b) (b_file_desc b) (b_dir_tab b).

(** What [uname] stores, each name in its array. *)
Record utsname := Utsname {
  sysname : list Z; nodename : list Z; release : list Z; version : list Z; machine_name : list Z; domainname : list Z
}.

Definition OX_RELEASE_STR : list Z := literal "0.1".
Definition OX_VERSION_STR : list Z := literal "0.0.68".

(** ** The tables of the current process *)

(** Every descriptor in use refers to an entry of the table of [proc]. *)
Definition own_table (proc : Z) (l : list desc_ptr) : bool :=
  forallb (fun d => match d with Null => true | In_tab p _ => p =? proc | In_desc _ _ => false end) l.

Definition desc_to (proc : Z) (d : option nat) : desc_ptr :=
  match d with Some j => In_tab proc j | None => Null end.

(** The process after a call on its files. *)
Definition with_dirs {T} (proc : Z) (d : dirs T) (b : body) : body :=
  Body (b_tss b) (b_exec b) (b_exec_size b) (b_elf_entry b) (b_argc b) (b_argv b) (b_envp b) (b_delete_argv b)
    (cwd (d_files d)) (b_umask b) (b_owner b) (b_group b) (file_tab (d_files d)) (desc_to proc <$> file_desc (d_files d))
    (dir_tab d).

Section Syscalls.

Context {T H K : Type} `{FsOps T} `{DevOps T} `{HeapOps H} (kmalloc : Z -> st K Z) (kfree : Z -> st K unit).

(** The parameters of the components: the time, the address of [kstart], what other processes do meanwhile,
    the sizes [kfork] uses, and the bounds of the walks over names, directories and queues. *)
Context (now kstart : Z) (elsewhere : st (exits T H K) unit).
Context (sizeof_process sizeof_tss tss_offset KERNEL_PAGE_DIR : Z) (fnsave : list Z) (depth steps fuel : nat).

Abbreviation E := (exits T H K).

(** A call on files, run by the current process. *)
Definition as_current {A} (m : caller -> Z -> st (dirs T) A) : st E A := fun s =>
  let f := e_forks s in
  let proc := current_process (f_kernel f) in
  match f_bodies f !! proc with
  | None => Fault
  | Some b =>
      if own_table proc (b_file_desc b) then
        match m (Caller (b_group b) (b_owner b) now) (b_umask b) (as_dirs proc b (e_fs s)) with
        | Ret (a, d) =>
            Ret (a, Exits (Forks (f_kernel f) (<[proc := with_dirs proc d b]> (f_bodies f)) (f_tables f) (f_pages f)
                             (f_user f) (f_kheap f) (next_pid f)) (f_tree (d_files d)))
        | Panic => Panic | Fault => Fault | NoFuel => NoFuel
        end
      else Fault
  end.

Definition with_files {A} (m : caller -> Z -> st (files T) A) : st E A :=
  as_current (fun who umask => on_files (m who umask)).

(** ** syscall_0.c *)

Definition sys_fork (ctx : Fork.cpu_ctx) : st E Z :=
  on_forks (kfork kmalloc sizeof_process sizeof_tss tss_offset KERNEL_PAGE_DIR fnsave ctx).
Definition sys_getpid : st E Z := on_kern kgetpid.
Definition sys_getegid : st E Z := on_kern kgetegid.
Definition sys_getgid : st E Z := on_kern kgetgid.
Definition sys_geteuid : st E Z := on_kern kgeteuid.
Definition sys_getuid : st E Z := on_kern kgetuid.
Definition sys_getppid : st E Z := on_kern kgetppid.
Definition sys_pause : st E Z := on_kern (kpause now kstart).
Definition sys_sync : st E Z := _ ← with_files (fun _ _ => ksync); mret 0.
Definition sys_get_current_dir_name : st E (option (list Z)) := with_files (fun _ _ => kget_current_dir_name).

(** ** syscall_1.c *)

Definition sys_alarm (seconds : Z) : st E Z :=
  on_kern (
    c ← current;
    let old_alarm := p_alarm c in
    _ ← update_current (set_p_alarm seconds);
    _ ← update_current (set_p_start_time now);
    mret old_alarm).
Definition sys_chdir (path : list Z) : st E Z := with_files (fun who _ => kchdir who depth steps path).
Definition sys_fchdir (fd : Z) : st E Z := with_files (fun _ _ => kfchdir fd).
Definition sys_close (fd : Z) : st E Z := with_files (fun who _ => kclose who fd).
Definition sys_dup (fd : Z) : st E Z := with_files (fun _ _ => kdup fd).
Definition sys_exit (status : Z) : st E unit := _ ← on_kern (kexit now kstart status); mret tt.
Definition sys_getpgid (pid : Z) : st E Z := on_kern (kgetpgid pid).
Definition sys_nice (val : Z) : st E Z := on_kern (knice val).
Definition sys_rmdir (path : list Z) : st E Z := as_current (fun who _ => krmdir who depth steps path).
Definition sys_setgid (gid : Z) : st E Z := on_kern (ksetregid gid gid).
Definition sys_setuid (uid : Z) : st E Z := on_kern (ksetreuid uid uid).
Definition sys_time : st E Z := mret now.

(** [ktimes] of [kernel/mktime.c]: the structure is read, not filled. *)
Definition ktimes (buf : option tms) : st kstate Z :=
  _ ← match buf with Some t => update_current (set_times t) | None => mret tt end;
  mret now.
Definition sys_times (buf : option tms) : st E Z := on_kern (ktimes buf).
Definition sys_mktime (t : tm) : st E Z := lift (kmktime t).

Definition sys_umask (mask : Z) : st E Z := on_forks (
  s ← get;
  let proc := current_process (f_kernel s) in
  b ← body_of proc;
  _ ← set_body proc (set_umask (Z.land mask 511) b);
  mret (b_umask b)).
Definition sys_uname (name : bool) : st E (Z * option utsname) :=
  if negb name then mret (-1, None)
  else mret (0, Some (Utsname (literal "OX") (literal "nodename") OX_RELEASE_STR OX_VERSION_STR (literal "machine") (literal "dommainname"))).
Definition sys_unlink (path : list Z) : st E Z := with_files (fun who _ => kunlink who depth steps path).
Definition sys_getwd : st E (option (list Z)) := with_files (fun _ _ => kgetwd).
Definition sys_opendir (path : list Z) : st E (option nat) := as_current (fun who _ => kopendir who depth steps path).
Definition sys_closedir (dir : option nat) : st E Z := as_current (fun who _ => kclosedir who dir).
Definition sys_rewinddir (dir : option nat) : st E unit := as_current (fun _ _ => krewinddir dir).
Definition sys_readdir (dir : option nat) : st E (option dirent) := as_current (fun who _ => kreaddir who depth steps dir).

(** ** syscall_2.c *)

Definition sys_chmod (path : list Z) (mode : Z) : st E Z := with_files (fun who umask => kchmod who umask depth steps path mode).
Definition sys_fchmod (fd mode : Z) : st E Z := with_files (fun who umask => kfchmod who umask fd mode).
Definition sys_creat (path : list Z) (mode : Z) : st E Z := with_files (fun who umask => kcreat who umask depth steps path mode).
Definition sys_dup2 (fd1 fd2 : Z) : st E Z := with_files (fun who _ => kdup2 who fd1 fd2).
Definition sys_fstat (fd : Z) (stbuf : bool) : st E (Z * option stat) := with_files (fun _ _ => kfstat fd stbuf).
Definition sys_getcwd (buf : bool) (size : Z) : st E (option (list Z)) := with_files (fun _ _ => kgetcwd buf size).
Definition sys_kill (pid sig : Z) : st E Z := on_kern (kkill pid sig).
Definition sys_link (oldpath newpath : list Z) : st E Z :=
  with_files (fun who umask => klink who umask depth steps (Some oldpath) (Some newpath)).
Definition sys_mkdir (path : list Z) (mode : Z) : st E Z := as_current (fun who umask => kmkdir who umask depth steps path mode).
Definition sys_setregid (rgid egid : Z) : st E Z := on_kern (ksetregid rgid egid).
Definition sys_setreuid (ruid euid : Z) : st E Z := on_kern (ksetreuid ruid euid).
Definition sys_stat (path : list Z) (stbuf : bool) : st E (Z * option stat) :=
  with_files (fun who _ => kstat who depth steps path stbuf).
Definition sys_lstat (path : list Z) (buf : bool) : st E (Z * option stat) :=
  with_files (fun who _ => klstat who depth steps path buf).
Definition sys_utime (file : list Z) (buf : option (Z * Z)) : st E Z := with_files (fun who _ => kutime who depth steps file buf).
Definition sys_rename (oldpath newpath : list Z) : st E Z := with_files (fun who umask => krename who umask depth steps oldpath newpath).
Definition sys_signal (signum handler : Z) : st E Z := on_kern (ksignal signum handler).

(** ** syscall_3.c *)

Definition sys_open (path : list Z) (flag mode : Z) : st E Z :=
  with_files (fun who umask =>
    if mode =? 0 then kopen who umask depth steps path flag else kopen2 who umask depth steps path flag mode).
Definition sys_lseek (fd offset whence : Z) : st E Z := with_files (fun _ _ => klseek fd offset whence).
Definition sys_read (fd : Z) (buf : list Z) (count : Z) : st E (Z * list Z) := with_files (fun who _ => kread who fd buf count).
Definition sys_waitpid (pid options : Z) : st E (option Z * option Z) :=
  kwaitpid kfree now kstart elsewhere fuel pid options.
Definition sys_write (fd : Z) (buf : list Z) (count : Z) : st E Z := with_files (fun who _ => kwrite who fd buf count).

(** ** A call with its arguments *)

Inductive request :=
  | Fork (ctx : Fork.cpu_ctx) | Getpid | Getegid | Getgid | Geteuid | Getuid | Getppid | Pause | Sync | Get_current_dir_name
  | Alarm (seconds : Z) | Chdir (path : list Z) | Fchdir (fd : Z) | Close (fd : Z) | Dup (fd : Z) | Exit (status : Z)
  | Getpgid (pid : Z) | Nice (val : Z) | Rmdir (path : list Z) | Setgid (gid : Z) | Setuid (uid : Z) | Time
  | Times (buf : option tms) | Mktime (t : tm) | Umask (mask : Z) | Uname (name : bool) | Unlink (path : list Z) | Getwd
  | Opendir (path : list Z) | Closedir (dir : option nat) | Rewinddir (dir : option nat) | Readdir (dir : option nat)
  | Chmod (path : list Z) (mode : Z) | Fchmod (fd mode : Z) | Creat (path : list Z) (mode : Z) | Dup2 (fd1 fd2 : Z)
  | Fstat (fd : Z) (stbuf : bool) | Getcwd (buf : bool) (size : Z) | Kill (pid sig : Z) | Link (oldpath newpath : list Z)
  | Mkdir (path : list Z) (mode : Z) | Setregid (rgid egid : Z) | Setreuid (ruid euid : Z)
  | Stat (path : list Z) (stbuf : bool) | Lstat (path : list Z) (buf : bool) | Utime (file : list Z) (buf : option (Z * Z))
  | Rename (oldpath newpath : list Z) | Signal (signum handler : Z) | Open (path : list Z) (flag mode : Z)
  | Lseek (fd offset whence : Z) | Read (fd : Z) (buf : list Z) (count : Z) | Waitpid (pid options : Z)
  | Write (fd : Z) (buf : list Z) (count : Z) | Empty (c : call).

(** The entry of the table a request goes to. *)
Definition call_of (r : request) : call :=
  match r with
  | Fork _ => CALL_fork | Getpid => CALL_getpid | Getegid => CALL_getegid | Getgid => CALL_getgid
  | Geteuid => CALL_geteuid | Getuid => CALL_getuid | Getppid => CALL_getppid | Pause => CALL_pause
  | Sync => CALL_sync | Get_current_dir_name => CALL_get_current_dir_name | Alarm _ => CALL_alarm
  | Chdir _ => CALL_chdir | Fchdir _ => CALL_fchdir | Close _ => CALL_close | Dup _ => CALL_dup
  | Exit _ => CALL_exit | Getpgid _ => CALL_getpgid | Nice _ => CALL_nice | Rmdir _ => CALL_rmdir
  | Setgid _ => CALL_setgid | Setuid _ => CALL_setuid | Time => CALL_time | Times _ => CALL_times
  | Mktime _ => CALL_mktime | Umask _ => CALL_umask | Uname _ => CALL_uname | Unlink _ => CALL_unlink
  | Getwd => CALL_getwd | Opendir _ => CALL_opendir | Closedir _ => CALL_closedir
  | Rewinddir _ => CALL_rewinddir | Readdir _ => CALL_readdir | Chmod _ _ => CALL_chmod
  | Fchmod _ _ => CALL_fchmod | Creat _ _ => CALL_creat | Dup2 _ _ => CALL_dup2 | Fstat _ _ => CALL_fstat
  | Getcwd _ _ => CALL_getcwd | Kill _ _ => CALL_kill | Link _ _ => CALL_link | Mkdir _ _ => CALL_mkdir
  | Setregid _ _ => CALL_setregid | Setreuid _ _ => CALL_setreuid | Stat _ _ => CALL_stat
  | Lstat _ _ => CALL_lstat | Utime _ _ => CALL_utime | Rename _ _ => CALL_rename | Signal _ _ => CALL_signal
  | Open _ _ _ => CALL_open | Lseek _ _ _ => CALL_lseek | Read _ _ _ => CALL_read | Waitpid _ _ => CALL_waitpid
  | Write _ _ _ => CALL_write
  | Empty c => c
  end.

Inductive reply :=
  | R_int (z : Z) | R_void | R_string (s : option (list Z)) | R_dir (d : option nat) | R_dirent (e : option dirent)
  | R_stat (z : Z) (s : option stat) | R_read (z : Z) (buf : list Z) | R_uname (z : Z) (n : option utsname)
  | R_wait (z status : option Z) | R_unspecified.

Definition int {A} (m : st A Z) : st A reply := z ← m; mret (R_int z).
Definition text {A} (m : st A (option (list Z))) : st A reply := s ← m; mret (R_string s).

Definition sys_call (r : request) : st E reply :=
  match r with
  | Fork ctx => int (sys_fork ctx)
  | Getpid => int sys_getpid
  | Getegid => int sys_getegid
  | Getgid => int sys_getgid
  | Geteuid => int sys_geteuid
  | Getuid => int sys_getuid
  | Getppid => int sys_getppid
  | Pause => int sys_pause
  | Sync => int sys_sync
  | Get_current_dir_name => text sys_get_current_dir_name
  | Alarm seconds => int (sys_alarm seconds)
  | Chdir path => int (sys_chdir path)
  | Fchdir fd => int (sys_fchdir fd)
  | Close fd => int (sys_close fd)
  | Dup fd => int (sys_dup fd)
  | Exit status => _ ← sys_exit status; mret R_void
  | Getpgid pid => int (sys_getpgid pid)
  | Nice val => int (sys_nice val)
  | Rmdir path => int (sys_rmdir path)
  | Setgid gid => int (sys_setgid gid)
  | Setuid uid => int (sys_setuid uid)
  | Time => int sys_time
  | Times buf => int (sys_times buf)
  | Mktime t => int (sys_mktime t)
  | Umask mask => int (sys_umask mask)
  | Uname name => r ← sys_uname name; mret (R_uname r.1 r.2)
  | Unlink path => int (sys_unlink path)
  | Getwd => text sys_getwd
  | Opendir path => d ← sys_opendir path; mret (R_dir d)
  | Closedir dir => int (sys_closedir dir)
  | Rewinddir dir => _ ← sys_rewinddir dir; mret R_void
  | Readdir dir => e ← sys_readdir dir; mret (R_dirent e)
  | Chmod path mode => int (sys_chmod path mode)
  | Fchmod fd mode => int (sys_fchmod fd mode)
  | Creat path mode => int (sys_creat path mode)
  | Dup2 fd1 fd2 => int (sys_dup2 fd1 fd2)
  | Fstat fd stbuf => r ← sys_fstat fd stbuf; mret (R_stat r.1 r.2)
  | Getcwd buf size => text (sys_getcwd buf size)
  | Kill pid sig => int (sys_kill pid sig)
  | Link oldpath newpath => int (sys_link oldpath newpath)
  | Mkdir path mode => int (sys_mkdir path mode)
  | Setregid rgid egid => int (sys_setregid rgid egid)
  | Setreuid ruid euid => int (sys_setreuid ruid euid)
  | Stat path stbuf => r ← sys_stat path stbuf; mret (R_stat r.1 r.2)
  | Lstat path buf => r ← sys_lstat path buf; mret (R_stat r.1 r.2)
  | Utime file buf => int (sys_utime file buf)
  | Rename oldpath newpath => int (sys_rename oldpath newpath)
  | Signal signum handler => int (sys_signal signum handler)
  | Open path flag mode => int (sys_open path flag mode)
  | Lseek fd offset whence => int (sys_lseek fd offset whence)
  | Read fd buf count => r ← sys_read fd buf count; mret (R_read r.1 r.2)
  | Waitpid pid options => r ← sys_waitpid pid options; mret (R_wait r.1 r.2)
  | Write fd buf count => int (sys_write fd buf count)
  | Empty _ => mret R_unspecified
  end.

End Syscalls.
