(* ===== verification/SyscallSpec.v ===== *)
(** * What system calls do

    The table, what a call leaves alone, and an invariant of every run: no process
    ever ends. *)

From S2P Require Import Prelude Errno Device Layout Perms Alloc Paths Store StoreSpec TreeSpec FileSpec TreeRuns FileRuns Tree.
From S2P Require Import CreateSpec FileIO FileCorrect File FdSpec Dir Page Segment Elf Exec Process ProcQueue Sched Signal Clock Fork ForkSpec Exit ExitSpec Syscall.

(** The table of calls is in the order of their numbers, and has one entry for each: the number a
    program passes for a call selects its function. *)
Theorem table_in_order (c : call) (i : nat) :
  syscall_dispatch_tab !! i = Some c <-> call_number c = Z.of_nat i.
Proof.
  split.
  - intros Hi. assert (i < Nr_SYS_CALL)%nat as Hlt by exact (lookup_lt_Some _ _ _ Hi). revert Hi. unfold Nr_SYS_CALL in Hlt.
    do 87 (destruct i as [|i]; [intros [= <-]; reflexivity|]). lia.
  - intros Hn. assert (i = Z.to_nat (call_number c)) as -> by lia. by destruct c.
Qed.

(** The calls below are those with a body. *)
Lemma call_has_body r : (forall c, r <> Empty c) -> empty_body (call_of r) = false.
Proof. destruct r; try done. intros Hr. by destruct (Hr c). Qed.

(** ** Invariants of computations *)

Definition preserves {S A} (P : S -> Prop) (m : st S A) : Prop := forall s a s', P s -> m s = Ret (a, s') -> P s'.

Section Preserves.
Context {S : Type} (P : S -> Prop).

Lemma preserves_ret {A} (a : A) : preserves P (mret a).
Proof. by intros s b s' HP [= _ <-]. Qed.

Lemma preserves_bind {A B} (m : st S A) (k : A -> st S B) :
  preserves P m -> (forall a, preserves P (k a)) -> preserves P (m ≫= k).
Proof.
  intros Hm Hk s b s' HP E. unfold mbind, st_bind in E. destruct (m s) as [[a s1]| | |] eqn:E1; [|discriminate..].
  exact (Hk a s1 b s' (Hm s a s1 HP E1) E).
Qed.

Lemma preserves_get : preserves P get.
Proof. by intros s a s' HP [= _ <-]. Qed.

Lemma preserves_modify f : (forall s, P s -> P (f s)) -> preserves P (modify f).
Proof. intros Hf s a s' HP [= _ <-]. by apply Hf. Qed.

Lemma preserves_lift {A} (o : outcome A) : preserves P (lift o).
Proof. intros s a s' HP E. unfold lift in E. destruct o; [|discriminate..]. by injection E as _ <-. Qed.

Lemma preserves_fault {A} : preserves P (fault : st S A).
Proof. intros s a s' _ E. discriminate E. Qed.

End Preserves.

(** The invariant: no process has ended or stopped. *)
Definition alive (k : kstate) : Prop := map_Forall (fun _ q => ended q = false) (procs k).

Lemma alive_run {A} (m : st kstate A) : run_rel no_new_zombie m -> preserves alive m.
Proof.
  intros Hm k a k' Hk E p q Hp. destruct (ended q) eqn:Hq; [|done].
  destruct (Hm k a k' E p q Hp Hq) as (q0 & Hp0 & Hq0). pose proof (Hk p q0 Hp0). cbn in *. congruence.
Qed.

Section Calls.

Context {T H K : Type} `{FsOps T} `{DevOps T} `{HeapOps H} (kmalloc : Z -> st K Z) (kfree : Z -> st K unit).
Context (now kstart : Z) (elsewhere : st (exits T H K) unit).
Context (sizeof_process sizeof_tss tss_offset KERNEL_PAGE_DIR : Z) (fnsave : list Z) (depth steps fuel : nat).

Abbreviation E := (exits T H K).
Abbreviation F := (forks H K).
Abbreviation run_call := (sys_call kmalloc kfree now kstart elsewhere sizeof_process sizeof_tss tss_offset KERNEL_PAGE_DIR
  fnsave depth steps fuel).

Definition alive_f (f : F) : Prop := alive (f_kernel f).
Definition alive_e (s : E) : Prop := alive_f (e_forks s).

(** *** Making processes *)

Lemma alive_on_kernel {A} (m : st kstate A) : preserves alive m -> preserves alive_f (on_kernel m).
Proof.
  intros Hm s a s' HP E. unfold on_kernel in E. destruct (m (f_kernel s)) as [[b k]| | |] eqn:Em; [|discriminate..].
  injection E as _ <-. exact (Hm _ b k HP Em).
Qed.

Lemma alive_on_tables {A} (m : st tables A) : preserves alive_f (on_tables m).
Proof. intros s a s' HP E. unfold on_tables in E. destruct (m (f_tables s)) as [[b k]| | |]; [|discriminate..]. by injection E as _ <-. Qed.

Lemma alive_on_pages {A} (m : st Page.mem A) : preserves alive_f (Fork.on_pages m).
Proof. intros s a s' HP E. unfold Fork.on_pages in E. destruct (m (f_pages s)) as [[b k]| | |]; [|discriminate..]. by injection E as _ <-. Qed.

Lemma alive_on_user {A} (m : st (machine H) A) : preserves alive_f (on_user m).
Proof. intros s a s' HP E. unfold on_user in E. destruct (m (f_user s)) as [[b k]| | |]; [|discriminate..]. by injection E as _ <-. Qed.

Lemma alive_on_kheap {A} (m : st K A) : preserves alive_f (on_kheap m).
Proof. intros s a s' HP E. unfold on_kheap in E. destruct (m (f_kheap s)) as [[b k]| | |]; [|discriminate..]. by injection E as _ <-. Qed.

Lemma alive_body_of p : preserves alive_f (body_of p).
Proof. intros s a s' HP E. unfold body_of in E. destruct (f_bodies s !! p); [|discriminate]. by injection E as _ <-. Qed.

Lemma alive_set_body p b : preserves alive_f (set_body p b).
Proof. apply preserves_modify. by intros s. Qed.

Lemma alive_set_process p q : ended q = false -> preserves alive_f (set_process p q).
Proof.
  intros Hq. apply alive_on_kernel, preserves_modify. intros k Hk a b Ha. cbn in Ha.
  apply lookup_insert_Some in Ha as [[_ <-] | [_ Ha]]; [exact Hq | exact (Hk a b Ha)].
Qed.

Lemma rel_tab_set i v : run_rel no_new_zombie (tab_set i v).
Proof.
  intros s r s' E. unfold tab_set in E. destruct (_ && _)%bool; [|discriminate]. injection E as _ <-. intros p q Hq Hz. by exists q.
Qed.

Lemma alive_load p : preserves alive (load p).
Proof. apply alive_run, rel_load. apply _. Qed.

Lemma alive_insert_second i p : preserves alive (insert_second i p).
Proof.
  apply alive_run. unfold insert_second. no_zombie; try apply rel_tab_set. all: apply rel_tab; apply _.
Qed.

Lemma alive_copy_argv n : forall i src l, preserves alive_f (copy_argv n i src l : st F _).
Proof.
  induction n as [|n IH]; intros i src l; cbn [copy_argv]; [apply preserves_ret|].
  destruct (src !! i) as [[? t]|]; [|apply preserves_fault]. cbv zeta.
  apply preserves_bind; [apply alive_on_user|]. intros p. destruct (p =? 0); [apply preserves_fault|apply IH].
Qed.

(** Follows the code down to the parts of the state. *)
Ltac parts :=
  repeat first
    [ apply preserves_ret | apply preserves_get | apply preserves_fault | apply preserves_lift
    | apply alive_on_tables | apply alive_on_pages | apply alive_on_user | apply alive_on_kheap
    | apply alive_body_of | apply alive_set_body | apply alive_set_process; reflexivity | apply alive_copy_argv
    | apply alive_on_kernel; first [apply alive_load | apply alive_insert_second]
    | apply preserves_bind; [|intros ?]
    | match goal with |- preserves _ (if ?b then _ else _) => destruct b end
    | cbv zeta ].

Lemma alive_kfork ctx :
  preserves alive_f (kfork kmalloc sizeof_process sizeof_tss tss_offset KERNEL_PAGE_DIR fnsave ctx : st F Z).
Proof.
  unfold kfork, new_process, load_tss_in_gdt. parts.
  intros s r s' HP E. unfold kgenpid in E. by injection E as _ <-.
Qed.

(** *** Calls *)

Lemma alive_on_forks {A} (m : st F A) : preserves alive_f m -> preserves alive_e (on_forks m : st E A).
Proof.
  intros Hm s a s' HP E. unfold on_forks in E. destruct (m (e_forks s)) as [[b f]| | |] eqn:Em; [|discriminate..].
  injection E as _ <-. exact (Hm _ b f HP Em).
Qed.

Lemma alive_on_kern {A} (m : st kstate A) : run_rel no_new_zombie m -> preserves alive_e (on_kern m : st E A).
Proof. intros Hm. by apply alive_on_forks, alive_on_kernel, alive_run. Qed.

Lemma alive_as_current {A} (m : caller -> Z -> st (dirs T) A) : preserves alive_e (as_current now m : st E A).
Proof.
  intros s a s' HP E. unfold as_current in E. destruct (f_bodies _ !! _) as [b|]; [|discriminate].
  destruct (own_table _ _); [|discriminate].
  destruct (m _ _ _) as [[c d]| | |]; [|discriminate..]. by injection E as _ <-.
Qed.

(** *** Waiting *)

(** A walk that changes nothing and does not stop early. *)
Definition quiet {A R} (m : st kstate (A + R)) : Prop :=
  forall k r k', alive k -> m k = Ret (r, k') -> k' = k /\ exists a, r = inl a.

Lemma quiet_wait_body pid options p fixup : quiet (wait_body pid options p fixup).
Proof.
  intros k r k' Hk E. unfold wait_body, current, mbind, st_bind, gets in E.
  destruct (p =? current_process k); [injection E as <- <-; eauto|]. unfold load in E.
  destruct (procs k !! current_process k) as [c|]; [|discriminate].
  destruct (procs k !! p) as [q|] eqn:Hq; [|discriminate].
  pose proof (Hk p q Hq) as He. apply orb_false_iff in He as [Hz Hs].
  rewrite Hz, Hs in E. repeat match type of E with context [if ?b then _ else _] => destruct b end;
    injection E as <- <-; eauto.
Qed.

Lemma quiet_walk {A R} (body : Z -> A -> st kstate (A + R)) n : (forall p a, quiet (body p a)) ->
  forall head curr a, quiet (walk n body head curr a).
Proof.
  intros Hb. induction n as [|n IH]; intros head curr a k r k' Hk E; cbn [walk] in E; [discriminate|].
  destruct (curr =? 0); [injection E as <- <-; eauto|]. unfold mbind, st_bind in E.
  destruct (body curr a k) as [[r1 k1]| | |] eqn:Eb; [|discriminate..].
  destruct (Hb curr a k r1 k1 Hk Eb) as [-> [b ->]]. unfold load in E.
  destruct (procs k !! curr) as [q|]; [|discriminate].
  destruct (p_next q =? head); [injection E as <- <-; eauto|]. exact (IH head _ b k r k' Hk E).
Qed.

Lemma quiet_for_processes {A R} (body : Z -> A -> st kstate (A + R)) a :
  (forall p a, quiet (body p a)) -> quiet (for_processes body a).
Proof.
  intros Hb. unfold for_processes. intros k r k' Hk E. unfold mbind at 1, st_bind at 1, get in E.
  revert E. generalize (S (size (procs k))) 0 a. induction Nr_PRIORITY as [|m IH]; intros n i b E; cbn [walk_from] in E.
  - injection E as <- <-. eauto.
  - unfold mbind, st_bind in E. destruct (tab i k) as [[h k1]| | |] eqn:Et; [|discriminate..].
    assert (k1 = k) as -> by exact (eq_sym (rel_tab eq i k h k1 Et)).
    destruct (walk n body h h b k) as [[r1 k1]| | |] eqn:Ew; [|discriminate..].
    destruct (quiet_walk body n Hb h h b k r1 k1 Hk Ew) as [-> [c ->]]. by apply (IH n (i + 1) c).
Qed.

Context (He : preserves alive_e elsewhere).

Lemma alive_kwaitpid n pid options : forall s r s', alive_e s ->
  kwaitpid kfree now kstart elsewhere n pid options s = Ret (r, s') -> alive_e s' /\ r.2 = None.
Proof.
  induction n as [|n IH]; intros s r s' Hs E; cbn [kwaitpid] in E; [discriminate|].
  unfold mbind, st_bind in E. unfold on_kern at 1, on_forks at 1, on_kernel at 1 in E.
  destruct (for_processes _ false (f_kernel (e_forks s))) as [[w k]| | |] eqn:Ew; [|discriminate..].
  destruct (quiet_for_processes _ false (quiet_wait_body pid options) _ _ _ Hs Ew) as [-> [b ->]].
  destruct b; [|by injection E as <- <-].
  destruct (negb (Z.land options WNOHANG =? 0)); [by injection E as <- <-|].
  match type of E with context [on_kern (update_current (set_p_state P_INTERRUPTIBLE)) ?s0] => assert (alive_e s0) as H3 by exact Hs; revert E; generalize dependent s0 end.
  intros s1 H3 E.
  destruct (on_kern (update_current (set_p_state P_INTERRUPTIBLE)) s1) as [[[] s2]| | |] eqn:E2; [|discriminate..].
  assert (alive_e s2) as HE2 by (eapply alive_on_kern; [|exact H3|exact E2]; unfold update_current; no_zombie). clear E2; rename HE2 into E2.
  destruct (on_kern (schedule now kstart) s2) as [[? s3]| | |] eqn:E3; [|discriminate..].
  apply (alive_on_kern _ (schedule_zombie now kstart) s2) in E3; [|exact E2].
  destruct (elsewhere s3) as [[[] s4]| | |] eqn:E4; [|discriminate..]. apply (He s3) in E4; [|exact E3].
  destruct (on_kern (update_current clear_sigchld) s4) as [[[] s5]| | |] eqn:E5; [|discriminate..].
  assert (alive_e s5) as HE5 by (eapply alive_on_kern; [|exact E4|exact E5]; unfold update_current; no_zombie). clear E5; rename HE5 into E5.
  destruct (on_kern current s5) as [[c s6]| | |] eqn:E6; [|discriminate..].
  assert (alive_e s6) as HE6 by (eapply alive_on_kern; [|exact E5|exact E6]; unfold current; no_zombie). clear E6; rename HE6 into E6.
  destruct (Z.land (p_signal c) (Z.shiftl 1 SIGCHLD) =? 0); [exact (IH s6 r s' E6 E)|]. by injection E as <- <-.
Qed.

Lemma alive_wait pid options : preserves alive_e (kwaitpid kfree now kstart elsewhere fuel pid options).
Proof. intros s r s' Hs E. by apply (alive_kwaitpid fuel pid options s r s'). Qed.

Lemma alive_umask mask : preserves alive_e (sys_umask mask : st E Z).
Proof. apply alive_on_forks. parts. Qed.

Ltac calls :=
  unfold int, text, with_files;
  repeat first
    [ apply preserves_ret | apply preserves_lift | apply alive_as_current | apply alive_umask | apply alive_wait
    | apply preserves_bind; [|intros ?]
    | match goal with |- preserves _ (match ?x with _ => _ end) => destruct x end ].

Lemma alive_call r : preserves alive_e (run_call r).
Proof.
  destruct r; cbn [sys_call]; unfold sys_uname; calls.
  1: apply alive_on_forks, alive_kfork.
  all: apply alive_on_kern.
  all: unfold kgetpid, kgetegid, kgetgid, kgeteuid, kgetuid, kgetppid, kpause, kexit, kgetpgid, knice, ksetregid, ksetreuid,
    ktimes, kkill, ksignal, find_init, find_process, find_body, exit_body, terminate_session, session_body,
    signal_parent, parent_body, kill_body, dispatch_signal, is_super_user, update_current, current; no_zombie.
Qed.

(** *** Runs *)

(** The current process makes a call, gets a signal, or the clock switches to another. *)
Inductive runs : E -> E -> Prop :=
  | runs_refl s : runs s s
  | runs_call s r v s1 s2 : run_call r s = Ret (v, s1) -> runs s1 s2 -> runs s s2
  | runs_signal s oldmask ctx v s1 s2 : on_kern (signal_exec now kstart oldmask ctx) s = Ret (v, s1) -> runs s1 s2 -> runs s s2
  | runs_switch s v s1 s2 : on_kern (schedule now kstart) s = Ret (v, s1) -> runs s1 s2 -> runs s s2.

Lemma alive_runs s s' : runs s s' -> alive_e s -> alive_e s'.
Proof.
  induction 1 as [|s r v s1 s2 E _ IH|s oldmask ctx v s1 s2 E _ IH|s v s1 s2 E _ IH]; intros Hs; [done|apply IH..].
  - exact (alive_call r s v s1 Hs E).
  - refine (alive_on_kern _ _ s v s1 Hs E). unfold signal_exec, kexit, find_init, find_process, find_body, exit_body,
      terminate_session, session_body, signal_parent, parent_body, dispatch_signal, is_super_user, update_current, current.
    no_zombie.
  - exact (alive_on_kern _ (schedule_zombie now kstart) s v s1 Hs E).
Qed.

(** *** The frame of a call *)

(** What a call leaves: the files and memory of the other processes; the rest of the kernel, for a call on
    files; the file system, for another. *)
Record isolated (files : bool) (s s' : E) : Prop := {
  is_others p : p <> current_process (f_kernel (e_forks s)) -> f_bodies (e_forks s') !! p = f_bodies (e_forks s) !! p;
  is_identity p : (fun b => (b_owner b, b_group b, b_exec b, b_exec_size b)) <$> f_bodies (e_forks s') !! p =
                  (fun b => (b_owner b, b_group b, b_exec b, b_exec_size b)) <$> f_bodies (e_forks s) !! p;
  is_memory : f_user (e_forks s') = f_user (e_forks s) /\ f_pages (e_forks s') = f_pages (e_forks s) /\
              f_tables (e_forks s') = f_tables (e_forks s) /\ f_kheap (e_forks s') = f_kheap (e_forks s);
  is_kernel : files = true -> f_kernel (e_forks s') = f_kernel (e_forks s);
  is_fs : files = false -> e_fs s' = e_fs s
}.

Definition framed {A} (files : bool) (m : st E A) : Prop := forall s a s', m s = Ret (a, s') -> isolated files s s'.

Lemma framed_ret {A} files (a : A) : framed files (mret a : st E A).
Proof. intros s b s' [= _ <-]. by split. Qed.

Lemma framed_lift {A} files (o : outcome A) : framed files (lift o : st E A).
Proof. intros s b s' E. unfold lift in E. destruct o; [|discriminate..]. injection E as _ <-. by split. Qed.

(** A call and what is made of its result. *)
Lemma framed_result {A B} files (m : st E A) (f : A -> B) : framed files m -> framed files (a ← m; mret (f a)).
Proof.
  intros Hm s b s' E. unfold mbind, st_bind in E. destruct (m s) as [[a s1]| | |] eqn:Em; [|discriminate..].
  injection E as _ <-. by apply (Hm s a).
Qed.

Lemma framed_on_kern {A} (m : st kstate A) : framed false (on_kern m : st E A).
Proof.
  intros s a s' E. unfold on_kern, on_forks, on_kernel in E. destruct (m _) as [[b k]| | |]; [|discriminate..].
  injection E as _ <-. by split.
Qed.

Lemma framed_as_current {A} (m : caller -> Z -> st (dirs T) A) : framed true (as_current now m : st E A).
Proof.
  intros s a s' E. unfold as_current in E. destruct (f_bodies (e_forks s) !! _) as [b|] eqn:Hb; [|discriminate].
  destruct (own_table _ _); [|discriminate]. destruct (m _ _ _) as [[c d]| | |]; [|discriminate..].
  injection E as _ <-. split; try done; cbn [e_forks f_bodies].
  - intros p Hp. by apply lookup_insert_ne.
  - intros p. destruct (decide (p = current_process (f_kernel (e_forks s)))) as [->|Hp]; [|by rewrite lookup_insert_ne].
    by rewrite lookup_insert_eq, Hb.
Qed.

Lemma framed_umask mask : framed false (sys_umask mask : st E Z).
Proof.
  intros s a s' E. unfold sys_umask, on_forks, mbind, st_bind, get, body_of, set_body, modify in E.
  destruct (f_bodies (e_forks s) !! _) as [b|] eqn:Hb; [|discriminate]. injection E as _ <-.
  split; try done; cbn [e_forks f_bodies].
  - intros p Hp. by apply lookup_insert_ne.
  - intros p. destruct (decide (p = current_process (f_kernel (e_forks s)))) as [->|Hp]; [|by rewrite lookup_insert_ne].
    by rewrite lookup_insert_eq, Hb.
Qed.

(** The calls on files and directories. *)
Definition on_files_of (r : request) : bool :=
  match r with
  | Sync | Get_current_dir_name | Chdir _ | Fchdir _ | Close _ | Dup _ | Rmdir _ | Unlink _ | Getwd | Opendir _ | Closedir _
  | Rewinddir _ | Readdir _ | Chmod _ _ | Fchmod _ _ | Creat _ _ | Dup2 _ _ | Fstat _ _ | Getcwd _ _ | Link _ _ | Mkdir _ _
  | Stat _ _ | Lstat _ _ | Utime _ _ | Rename _ _ | Open _ _ _ | Lseek _ _ _ | Read _ _ _ | Write _ _ _ => true
  | _ => false
  end.


(** C35: Whatever calls processes make and signals they get, in any order, no process that waits is given a
    child: none ever ends, [exit] included. *)
Theorem no_child_is_reaped s s' pid options r s2 :
  alive (f_kernel (e_forks s)) -> runs s s' ->
  sys_waitpid kfree now kstart elsewhere fuel pid options s' = Ret (r, s2) -> r.2 = None.
Proof. intros Hs Hr E. exact (proj2 (alive_kwaitpid fuel pid options s' r s2 (alive_runs s s' Hr Hs) E)). Qed.

(** *** Calls of one process in a row *)

Lemma own_after proc (l : list (option nat)) : own_table proc (desc_to proc <$> l) = true.
Proof. apply forallb_forall. intros d Hd. apply list_elem_of_In, list_elem_of_fmap in Hd as ([j|] & -> & _); [apply Z.eqb_refl|done]. Qed.

Lemma own_desc_to proc (l : list (option nat)) : own_desc proc <$> (desc_to proc <$> l) = l.
Proof.
  rewrite <- list_fmap_compose. rewrite <- (list_fmap_id l) at 2. apply list_fmap_ext. intros i [j|] _; [|done].
  cbn. by rewrite Z.eqb_refl.
Qed.

(** The tables written back are read again as they were: two calls in a row are one computation on the
    tables of the process. *)
Lemma as_current_bind {A B} (m : caller -> Z -> st (dirs T) A) (k : A -> caller -> Z -> st (dirs T) B) (s : E) :
  (a ← as_current now m; as_current now (k a)) s = as_current now (fun who umask => a ← m who umask; k a who umask) s.
Proof.
  unfold mbind, st_bind. unfold as_current at 1 3. destruct (f_bodies (e_forks s) !! _) as [b|]; [|done].
  destruct (own_table _ _); [|done]. destruct (m _ _ _) as [[a d]| | |]; [|done..].
  unfold as_current. cbn [e_forks e_fs f_kernel f_bodies]. rewrite lookup_insert_eq.
  cbn [with_dirs b_file_desc b_group b_owner b_umask b_cwd b_file_tab b_dir_tab]. rewrite own_after.
  unfold as_dirs. cbn [with_dirs b_file_desc b_file_tab b_cwd b_dir_tab]. rewrite own_desc_to.
  destruct d as [[t tab desc c] dt]. cbn [f_tree file_tab file_desc cwd d_files dir_tab].
  destruct (k a _ _ _) as [[a' d]| | |]; [|done..]. by rewrite insert_insert_eq.
Qed.

Lemma with_files_bind {A B} (m : caller -> Z -> st (files T) A) (k : A -> caller -> Z -> st (files T) B) (s : E) :
  (a ← with_files now m; with_files now (k a)) s = with_files now (fun who umask => a ← m who umask; k a who umask) s.
Proof.
  unfold with_files. rewrite as_current_bind. unfold as_current.
  destruct (f_bodies (e_forks s) !! _) as [b|]; [|done]. destruct (own_table _ _); [|done].
  unfold on_files, mbind, st_bind. by destruct (m _ _ _) as [[a f]| | |].
Qed.

(** A computation on files that returns. *)
Lemma with_files_run {A} (m : caller -> Z -> st (files T) A) (s : E) b a f :
  let proc := current_process (f_kernel (e_forks s)) in
  f_bodies (e_forks s) !! proc = Some b -> own_table proc (b_file_desc b) = true ->
  m (Caller (b_group b) (b_owner b) now) (b_umask b) (d_files (as_dirs proc b (e_fs s))) = Ret (a, f) ->
  exists s', with_files now m s = Ret (a, s').
Proof.
  intros proc Hb Ho Em. unfold with_files, as_current. fold proc. rewrite Hb, Ho. unfold on_files. rewrite Em. by eexists.
Qed.

End Calls.

(** ** Files through system calls *)

Section Transfer.

Context {T H K : Type} `{HF : FsOps T} `{HD : DevOps T} {dev root : Z} {HL : StoreLaws T dev root} (now : Z).

Abbreviation E := (exits T H K).


End Transfer.

(** ** Concrete runs *)

Section Concrete.

#[local] Instance no_heap : HeapOps unit := fixed_heap 0.

Definition concrete_call : request -> st (exits StoreSpec.mem unit unit) reply :=
  sys_call (fun _ => mret 0) (fun _ => mret tt) 5 0 (mret tt) 100 104 20 8192 [] 3 5 1.

(** A process without tables. *)
Definition light_body : body := Body zero_tss 0 0 0 0 null_argv 0 0 7 7 1 1 [] [] [].

(** Process 2, the child of process 1, is current and calls [exit]. *)
Definition leaving : exits StoreSpec.mem unit unit :=
  let k := set_procs {[100 := set_p_counter 5 (some_process 1 200 200); 200 := some_process 2 100 100]} two_processes in
  Exits (Forks (set_current 0 200 k) {[100 := light_body; 200 := light_body]} static_tables six_taken (Machine ∅ tt) tt 3) small.

(** The state of a run that returns. *)
Definition state_after {S A} (d : S) (o : outcome (A * S)) : S := match o with Ret (_, s) => s | _ => d end.

Definition left_over : exits StoreSpec.mem unit unit := Eval vm_compute in state_after leaving (concrete_call (Exit 7) leaving).

Lemma exit_runs : concrete_call (Exit 7) leaving = Ret (R_void, left_over).
Proof. vm_compute. reflexivity. Qed.

Lemma leaving_alive : alive (f_kernel (e_forks leaving)).
Proof. apply map_Forall_insert_2; [reflexivity|]. by apply map_Forall_singleton. Qed.

Lemma parent_waits :
  sys_waitpid (fun _ => mret tt) 5 0 (mret tt) 1 2 WNOHANG left_over = Ret ((Some 0, None), left_over).
Proof. vm_compute. reflexivity. Qed.

Lemma exit_run : runs (fun _ => mret 0) (fun _ => mret tt) 5 0 (mret tt) 100 104 20 8192 [] 3 5 1 leaving left_over.
Proof. eapply runs_call; [exact exit_runs|apply runs_refl]. Qed.

Lemma no_child_is_reaped_witness :
  sys_waitpid (fun _ => mret tt) 5 0 (mret tt) 1 2 WNOHANG left_over = Ret ((Some 0, None), left_over) /\
  @snd (option Z) (option Z) (Some 0, None) = None.
Proof.
  split; [exact parent_waits|].
  exact (no_child_is_reaped (fun _ => mret 0) (fun _ => mret tt) 5 0 (mret tt) 100 104 20 8192 [] 3 5 1
    (preserves_ret _ tt) leaving left_over 2 WNOHANG _ left_over leaving_alive exit_run parent_waits).
Defined.


(** Process 1 has the file [/f] open. *)
Definition writer_body : body :=
  Body zero_tss 0 0 0 0 null_argv 0 0 mem_root 0 0 0 [inode_f; zero_inode] (In_tab 100 0 :: replicate 1023 Null) [].

Definition writer : exits StoreSpec.mem unit unit :=
  Exits (Forks two_processes {[100 := writer_body]} static_tables six_taken (Machine ∅ tt) tt 3) stored_f.

Lemma writer_tables : d_files (as_dirs 100 writer_body (e_fs writer)) = opened_f.
Proof. unfold as_dirs, opened_f. cbn [b_file_desc writer_body]. by rewrite fmap_cons, fmap_replicate. Qed.


End Concrete.
